(* ===== verification/_CoqProject ===== *)
-Q . S2P
Prelude.v
Wire.v
Frame.v
Datagram.v
GoString.v
Crypto.v
Auth.v
Limits.v
RingBuffer.v
Wheel.v
Store.v
Metrics.v
RelayConn.v
RelayManager.v
RelayHTTP.v
Server.v
Handshake.v
TCPSession.v
Session.v
SessionUDP.v
SessionInv.v
SessionPipe.v
Config.v
Transit.v
TransitTCP.v
ClientConfig.v
Client.v
ClientRelay.v
ClientTCP.v
ClientQUIC.v
ClientCalls.v
EndToEnd.v
Ownership.v
TransitRun.v
ServerRun.v
Socks.v
Certs.v
Gateway.v
TransitMain.v
SocksPolicy.v
SocksConn.v
SocksUDP.v
SocksRun.v
TunPool.v
TunConn.v
TunPolicy.v
TunRefs.v
TunUDP.v
TunSystem.v
Bench.v
Smoke.v
BenchReport.v
