(* ===== verification/Prelude.v ===== *)
(** * Verification of the VLF runtime

    The runtime carries TCP and UDP traffic of a client through a gateway. The gateway
    ([cmd/gateway]) takes sessions over QUIC and over TLS/TCP, and an HTTP relay for clients that can
    do neither; a transit node ([cmd/transit]) forwards all three to a gateway elsewhere; the client
    library ([internal/sessionclient]) dials a gateway over the first transport that works; the
    SOCKS5 client ([cmd/socks_client]) offers it to applications, and the TUN client
    ([cmd/tun_client]) to the whole system, through a network interface. This development models
    these programs in the order in which they depend on each other and proves what makes each correct.

    ** Conventions

    Pure code is a function. A method that holds a lock for its whole body is one function on the
    state; a goroutine is one function per turn, cut where it waits, gives up a lock or returns, and
    the interleavings are a step relation whose reachable states the invariants are about. What a
    call outside the repository returns (network, clock, random numbers, resolver, YAML and JSON
    decoders) is an argument of the step. Errors are values of [goerr], a fallible function returns
    [res], which tells an error from a panic; a wait that never ends is [None] or a constructor of
    its own. Integers keep their width where it matters ([u16], [u32], [u64], [int64]); time is a
    [Z] in nanoseconds; maps are [gmap], sets [gset]; bytes are [Byte.byte]. Metrics are part of the
    state, logging is left out. Some error texts are shortened.

    ** Files

    - Prelude: integers, bytes, errors, slices, readers and writers, tactics, hints, list lemmas.
      Ownership: which goroutine owns which resource, and counting. GoString, Crypto: what the code
      uses of Go's strings, strconv, hex, base64, net, and of SHA-256 and HMAC, executable.
    - Wire, Frame, Datagram ([internal/session/frame.go], [datagram.go]): varints, control frames and
      payloads, UDP datagrams with fragmentation and reassembly.
    - Auth ([internal/auth]): secrets, replay cache, verification of sessions and HTTP requests,
      against the class [SecretProvider]. Limits ([internal/limits]): admission and budgets.
    - RingBuffer, RelayConn, RelayManager, RelayHTTP ([internal/relay]), Wheel, Store
      ([internal/store]), Metrics ([internal/metrics]): the HTTP relay.
    - Server, Handshake, TCPSession, Session, SessionUDP ([internal/session]): the sessions;
      SessionInv and SessionPipe hold the theorems on the QUIC session; ServerRun: start, accept loops
      and shutdown of the server.
    - Config ([internal/config/config.go], [cmd/gateway/main.go]): configuration and assembly. Certs
      ([internal/config/certs.go]): the self-signed pair, on a disk with directories, files and modes.
      Gateway ([cmd/gateway/main.go]): the whole program, with the relay manager and the session
      server as parts of its state.
    - Transit, TransitTCP, TransitRun ([internal/transit]): the transit node: UDP lanes, TCP handlers,
      and its start and shutdown; TransitMain ([cmd/transit/main.go]): its metrics and the program.
    - ClientConfig, Client, ClientRelay, ClientTCP, ClientQUIC ([internal/sessionclient]): the client
      library; ClientCalls: whole calls, and the interface of the transports as the class
      [clientInner]. EndToEnd composes the library with the gateway.
    - Socks, SocksPolicy, SocksConn, SocksUDP, SocksRun ([cmd/socks_client/main.go]): the SOCKS5 client:
      protocol, transport policy, requests, UDP associations, and the program around them.
    - TunPool, TunPolicy, TunConn, TunRefs, TunUDP, TunSystem ([cmd/tun_client/main_windows.go],
      [internal/tun/iobased/endpoint.go]): the TUN client. TunPool is the controller with its pool of
      shared session clients; TunPolicy the routines on slices of its transport policy; TunConn has the flows, each goroutine a [job] with the stage it is in,
      and the invariants of all runs; TunRefs the counting of the pool's users and the theorems on
      flows; TunUDP the pumps and DNS over TCP; TunSystem the start, the system commands and packets.
    - Bench, BenchReport ([cmd/proto_bench/main.go]): what the benchmark sends, counts and judges; how it
      reads the gateway's counters and writes its report.
    - Smoke ([scripts/relay_smoke], [scripts/session_smoke.go], [cmd/tcp-echo], [cmd/udp-echo]): the smoke
      tests and echo servers, run against the model of the gateway.

    ** What the theorems show

    - Authentication: a message is accepted exactly when its fields, its time, its signature and its
      nonce are right, no message is accepted twice while the replay window covers the skew, the
      sessions and the relay serve nobody else, and the client's own messages are accepted.
    - Codecs: frames, payloads, datagrams and SOCKS datagrams round trip; a stream of frames is read
      as it was written; fragments are reassembled under interleaving; which inputs panic.
    - Resources: in every reachable state the counters, gauges, reservations, sockets, streams,
      flows, permits and tables agree with the connections and goroutines that are alive, limits
      hold, and closing gives everything back. This is proved for the relay, both sessions, both
      sides of the transit node, the SOCKS5 client and the TUN client; the last one for runs that are
      calm, in which no session client is replaced while it is in use and no UDP flow is closed while
      it is being set up, since the findings show what goes wrong in the others.
    - Data: bytes are delivered in order and unchanged through the relay's buffers, through a TCP
      session from the client's [Write] to the target and back, and through the UDP pipeline.
    - Progress: the goroutines that copy data never block each other, waiting calls of the client are
      answered, the handlers of the transit node end, and a shutdown waits for exactly the goroutines
      that are left.
    - Programs: the gateway starts only with a valid configuration and a pair of certificate and key
      that match; it stops its parts in order, and can always stop unless a relay connection is being
      closed by its own reader; the transit node's exit code says whether anything is left; the
      SOCKS5 client ends after its connections; the smoke test of the relay passes against the
      gateway's default configuration.
    - Equivalences and refinements: the ring buffer is a bounded queue, the limits manager a multiset,
      the pin check an equality of digests, the entry into survival mode a window of failures; the
      TUN client's transport policy, written with index loops, is that of the SOCKS5 client.
    - Where the code does not do what it means to, a theorem says so on a reachable state: a close that
      waits for itself, a send on a closed channel, a resource that is never given back. They are
      listed among the findings of the manifest.

    ** Bounds

    Loops of the code that recurse on a list are structural; the others have fuel that is the length
    of the input or of the buffer, and lemmas beside them show that it is enough. Flow and session
    numbers are 64 bits wide and wrap; theorems that need them fresh assume that fewer were used.
    Floating point of the transport policy of both clients is the binary64 of the Standard Library's
    specification of IEEE 754.

    ** Not modelled

    The QUIC, TLS, HTTP, YAML, JSON, Prometheus and logging libraries and the sockets; the gVisor
    network stack of the TUN client, the network interface and PowerShell: they are arguments of the
    definitions that use them. Log lines, the classification of errors that only decides whether one
    is written, and the flags' help texts are left out. Signals are steps that may happen at any time. *)

From Stdlib Require Export ZArith Lia Strings.String Strings.Byte.
From stdpp Require Export base tactics numbers list gmap strings fin_maps.

#[global] Open Scope Z_scope.

(** ** Machine integers

    A Go integer of width [w] is a [Z]; the conversions write the wrap-around out. *)
Definition u8 (z : Z) : Z := z mod 2 ^ 8.
Definition u16 (z : Z) : Z := z mod 2 ^ 16.
Definition u32 (z : Z) : Z := z mod 2 ^ 32.
Definition u64 (z : Z) : Z := z mod 2 ^ 64.
Definition int64 (z : Z) : Z := (z + 2 ^ 63) mod 2 ^ 64 - 2 ^ 63.

Definition is_u16 (z : Z) : Prop := 0 <= z < 2 ^ 16.
Definition is_u32 (z : Z) : Prop := 0 <= z < 2 ^ 32.
Definition is_u64 (z : Z) : Prop := 0 <= z < 2 ^ 64.
Definition is_int64 (z : Z) : Prop := - 2 ^ 63 <= z < 2 ^ 63.

(** [len(x)] as Go's [int]. *)
Definition zlen {A} (l : list A) : Z := Z.of_nat (length l).

(** [l[i:]] and [l[:i]] for an index inside the bounds. *)
Definition zdrop {A} (i : Z) (l : list A) : list A := drop (Z.to_nat i) l.
Definition ztake {A} (i : Z) (l : list A) : list A := take (Z.to_nat i) l.

(** ** Bytes and strings

    A Go string is a sequence of bytes, which is what [string] is here; [[]byte]
    is [list byte]. *)
Definition bz (b : byte) : Z := Z.of_N (Byte.to_N b).
Definition zb (z : Z) : byte :=
  match Byte.of_N (Z.to_N (z mod 256)) with
  | Some b => b
  | None => x00
  end.

Definition bytes_of_string (s : string) : list byte := list_byte_of_string s.
Definition string_of_bytes (l : list byte) : string := string_of_list_byte l.

#[global] Instance byte_eq_dec : EqDecision byte := Byte.byte_eq_dec.

(** ** Errors

    Go's [error] values as the code distinguishes them: sentinel values, errors made
    from a message, and errors wrapped with [%w]. [EExt] is an error produced by the
    network or the operating system. *)
Inductive goerr :=
| EEOF
| EUnexpectedEOF
| EVarintOverflow
| ENetClosed
| ECanceled
| EDeadlineExceeded
| ESentinel (name : string)
| ENew (msg : string)
| EWrap (ctx : string) (inner : goerr)
| EExt (msg : string).

#[global] Instance goerr_eq_dec : EqDecision goerr.
Proof. solve_decision. Defined.

(** [errors.Is]: the target is found by unwrapping. *)
Fixpoint err_is (e target : goerr) : bool :=
  bool_decide (e = target) ||
  match e with
  | EWrap _ inner => err_is inner target
  | _ => false
  end.

(** The text of an error, [err.Error()]. *)
Fixpoint err_text (e : goerr) : string :=
  match e with
  | EEOF => "EOF"
  | EUnexpectedEOF => "unexpected EOF"
  | EVarintOverflow => "binary: varint overflows a 64-bit integer"
  | ENetClosed => "use of closed network connection"
  | ECanceled => "context canceled"
  | EDeadlineExceeded => "context deadline exceeded"
  | ESentinel s | ENew s | EExt s => s
  | EWrap ctx inner => (ctx ++ ": " ++ err_text inner)%string
  end.

(** A fallible computation returns a value, returns an error or panics. *)
Inductive res (A : Type) :=
| Ok (a : A)
| Err (e : goerr)
| Panic (msg : string).
Arguments Ok {A} a.
Arguments Err {A} e.
Arguments Panic {A} msg.

#[global] Instance res_ret : MRet res := fun A a => Ok a.
#[global] Instance res_bind : MBind res := fun A B f m =>
  match m with
  | Ok a => f a
  | Err e => Err e
  | Panic msg => Panic msg
  end.

(** [fmt.Errorf("ctx: %w", err)] on the error of a computation. *)
Definition wrap_err {A} (ctx : string) (m : res A) : res A :=
  match m with
  | Err e => Err (EWrap ctx e)
  | _ => m
  end.

Definition is_ok {A} (m : res A) : bool :=
  match m with Ok _ => true | _ => false end.
Definition is_panic {A} (m : res A) : bool :=
  match m with Panic _ => true | _ => false end.

(** ** Time

    [time.Time] is a count of nanoseconds on one clock, [time.Duration] an [int64]
    count of nanoseconds. [Time.Sub] saturates. *)
Definition Nanosecond : Z := 1.
Definition Millisecond : Z := 1000000.
Definition Second : Z := 1000000000.
Definition Minute : Z := 60 * Second.
Definition minDuration : Z := - 2 ^ 63.
Definition maxDuration : Z := 2 ^ 63 - 1.

Definition time_Sub (t u : Z) : Z := Z.max minDuration (Z.min maxDuration (t - u)).
Definition time_Truncate (t d : Z) : Z := if d <=? 0 then t else t - t mod d.
Definition UnixMilli (ms : Z) : Z := ms * Millisecond.

(** ** Slices

    [l[a:b]] and [copy(l[a:b], src)] with the bounds check of Go; the capacity of a slice is
    its length in the code modelled here. *)
Definition slice {A} (l : list A) (a b : Z) : res (list A) :=
  if (0 <=? a) && (a <=? b) && (b <=? zlen l) then Ok (ztake (b - a) (zdrop a l))
  else Panic "slice bounds out of range".
Definition copy_into {A} (l : list A) (a b : Z) (src : list A) : res (list A) :=
  if (0 <=? a) && (a <=? b) && (b <=? zlen l)
  then Ok (ztake a l ++ ztake (b - a) src ++ zdrop (a + Z.min (b - a) (zlen src)) l)
  else Panic "slice bounds out of range".

(** ** Readers and writers

    A reader is the bytes its peer sends before the stream ends, with the error that
    reading past them gives. A writer is the bytes accepted so far, with the number
    of bytes it still accepts before it fails ([None]: it never fails). *)
Record reader := Reader { rd_bytes : list byte; rd_fin : goerr }.
Record writer := Writer { w_out : list byte; w_room : option Z }.

Definition w_write (w : writer) (p : list byte) : writer * option goerr :=
  match w_room w with
  | None => (Writer (w_out w ++ p) None, None)
  | Some room =>
      if zlen p <=? room
      then (Writer (w_out w ++ p) (Some (room - zlen p)), None)
      else (Writer (w_out w ++ ztake room p) (Some 0), Some ENetClosed)
  end.

(** [io.ReadFull] into a buffer of [n] bytes. *)
Definition ReadFull (r : reader) (n : Z) : res (list byte * reader) :=
  if n <=? 0 then Ok ([], r)
  else if n <=? zlen (rd_bytes r)
  then Ok (ztake n (rd_bytes r), Reader (zdrop n (rd_bytes r)) (rd_fin r))
  else match rd_bytes r with
       | [] => Err (rd_fin r)
       | _ :: _ => Err (if bool_decide (rd_fin r = EEOF) then EUnexpectedEOF else rd_fin r)
       end.

(** [make([]byte, n)] panics when [n] does not fit the address space the runtime
    allocates from: [maxAlloc] of a 64-bit Go runtime. *)
Definition maxAlloc : Z := 2 ^ 48.
Definition make_bytes (n : Z) : res (list byte) :=
  if maxAlloc <? n then Panic "makeslice: len out of range"
  else if n <? 0 then Panic "makeslice: len out of range"
  else Ok (replicate (Z.to_nat n) x00).

(** ** Tactics *)

(** Destruct the discriminee of a match in the goal or in a hypothesis, keeping the equation. *)
Ltac case_on :=
  match goal with
  | |- context [match ?x with _ => _ end] =>
      lazymatch x with context [match _ with _ => _ end] => fail | _ => destruct x eqn:? end
  end.
Ltac case_in H :=
  match type of H with
  | context [match ?x with _ => _ end] =>
      lazymatch x with context [match _ with _ => _ end] => fail | _ => destruct x eqn:? end
  end.

(** Turn boolean comparisons of [Z] in the context into propositions. *)
Ltac zbool :=
  repeat match goal with
  | H : (_ && _)%bool = true |- _ => apply andb_prop in H as [? ?]
  | H : (_ || _)%bool = false |- _ => apply orb_false_elim in H as [? ?]
  | H : (_ && _)%bool = false |- _ => apply andb_false_iff in H
  | H : (_ || _)%bool = true |- _ => apply orb_prop in H
  | H : negb _ = true |- _ => apply negb_true_iff in H
  | H : negb _ = false |- _ => apply negb_false_iff in H
  | H : (_ <? _) = true |- _ => apply Z.ltb_lt in H
  | H : (_ <? _) = false |- _ => apply Z.ltb_ge in H
  | H : (_ <=? _) = true |- _ => apply Z.leb_le in H
  | H : (_ <=? _) = false |- _ => apply Z.leb_gt in H
  | H : (_ =? _) = true |- _ => apply Z.eqb_eq in H
  | H : (_ =? _) = false |- _ => apply Z.eqb_neq in H
  | H : bool_decide _ = true |- _ => apply bool_decide_eq_true_1 in H
  | H : bool_decide _ = false |- _ => apply bool_decide_eq_false_1 in H
  end.

(** Decide a boolean comparison of [Z] in the goal by [lia]. *)
Ltac zdecide :=
  repeat match goal with
  | |- context [?a <? ?b] =>
      first [ rewrite (proj2 (Z.ltb_lt a b)) by lia | rewrite (proj2 (Z.ltb_ge a b)) by lia ]
  | |- context [?a <=? ?b] =>
      first [ rewrite (proj2 (Z.leb_le a b)) by lia | rewrite (proj2 (Z.leb_gt a b)) by lia ]
  | |- context [?a =? ?b] =>
      first [ rewrite (proj2 (Z.eqb_eq a b)) by lia | rewrite (proj2 (Z.eqb_neq a b)) by lia ]
  end.

(** Close a conjunction of closed arithmetic facts by evaluation. *)
Ltac closed_arith := repeat split; vm_compute; congruence.

Create HintDb vlf.
Create Rewrite HintDb zlen.

(** ** Lemmas on machine integers *)

Lemma mod_wrap a m : 0 <= a < 2 * m -> a mod m = if a <? m then a else a - m.
Proof.
  intros H. destruct (a <? m) eqn:E; zbool; [apply Z.mod_small; lia|].
  symmetry. apply Zmod_unique with 1; lia.
Qed.

Lemma mod_diff a n : 0 < n -> - n <= a < n -> a mod n = if a <? 0 then a + n else a.
Proof.
  intros Hn H. destruct (a <? 0) eqn:E; zbool; [|apply Z.mod_small; lia].
  symmetry. apply Zmod_unique with (-1); lia.
Qed.

Lemma u64_small z : is_u64 z -> u64 z = z.
Proof. apply Z.mod_small. Qed.

Lemma u64_range z : is_u64 (u64 z).
Proof. apply Z.mod_pos_bound. lia. Qed.

Lemma int64_small z : is_int64 z -> int64 z = z.
Proof. unfold is_int64, int64. intros H. rewrite Z.mod_small; lia. Qed.

Lemma int64_range z : is_int64 (int64 z).
Proof.
  unfold is_int64, int64. pose proof (Z.mod_pos_bound (z + 2 ^ 63) (2 ^ 64)). lia.
Qed.

(** ** Lemmas on bytes *)

Lemma bz_range b : 0 <= bz b < 256.
Proof. destruct b; vm_compute; split; congruence. Qed.

Lemma zb_bz b : zb (bz b) = b.
Proof. destruct b; reflexivity. Qed.

Lemma bz_zb z : bz (zb z) = z mod 256.
Proof.
  unfold zb, bz. pose proof (Z.mod_pos_bound z 256 ltac:(lia)) as Hr.
  destruct (Byte.of_N (Z.to_N (z mod 256))) as [b|] eqn:E.
  - apply Byte.to_of_N in E. rewrite E. lia.
  - apply Byte.of_N_None_iff in E. lia.
Qed.

Lemma bz_zb_small z : 0 <= z < 256 -> bz (zb z) = z.
Proof. intros H. rewrite bz_zb. by apply Z.mod_small. Qed.

Lemma bz_inj a b : bz a = bz b -> a = b.
Proof. intros H. rewrite <- (zb_bz a), <- (zb_bz b). congruence. Qed.

Lemma string_bytes_string s : string_of_bytes (bytes_of_string s) = s.
Proof. apply string_of_list_byte_of_string. Qed.

Lemma bytes_string_bytes l : bytes_of_string (string_of_bytes l) = l.
Proof. apply list_byte_of_string_of_list_byte. Qed.

Lemma bytes_of_string_inj s t : bytes_of_string s = bytes_of_string t -> s = t.
Proof.
  intros H. rewrite <- (string_bytes_string s), <- (string_bytes_string t). congruence.
Qed.

(** ** Lemmas on lists *)

Section zlists.
  Context {A : Type}.
  Implicit Types l k : list A.

Lemma zlen_nonneg l : 0 <= zlen l.
Proof. unfold zlen. lia. Qed.

Lemma zlen_nil : zlen (@nil A) = 0.
Proof. reflexivity. Qed.

Lemma zlen_cons x l : zlen (x :: l) = 1 + zlen l.
Proof. unfold zlen. simpl. lia. Qed.

Lemma zlen_app l k : zlen (l ++ k) = zlen l + zlen k.
Proof. unfold zlen. rewrite length_app. lia. Qed.

Lemma zlen_zero l : zlen l = 0 -> l = [].
Proof. destruct l; [done|]. unfold zlen. simpl. lia. Qed.

Lemma zlen_nonempty l : 0 < zlen l -> l <> [].
Proof. intros H ->. by rewrite zlen_nil in H. Qed.

Lemma nonempty_pos l : l <> [] -> 0 < zlen l.
Proof. destruct l; [done|]. intros _. rewrite zlen_cons. pose proof (zlen_nonneg l). lia. Qed.

Lemma zlen_ztake i l : 0 <= i -> zlen (ztake i l) = Z.min i (zlen l).
Proof. intros. unfold zlen, ztake. rewrite length_take. lia. Qed.

Lemma zlen_zdrop i l : 0 <= i -> zlen (zdrop i l) = Z.max 0 (zlen l - i).
Proof. intros. unfold zlen, zdrop. rewrite length_drop. lia. Qed.

Lemma ztake_app_exact l k : ztake (zlen l) (l ++ k) = l.
Proof. unfold ztake, zlen. rewrite Nat2Z.id. apply take_app_length. Qed.

Lemma zdrop_app_exact l k : zdrop (zlen l) (l ++ k) = k.
Proof. unfold zdrop, zlen. rewrite Nat2Z.id. apply drop_app_length. Qed.

Lemma ztake_all l i : zlen l <= i -> ztake i l = l.
Proof. intros. unfold ztake, zlen in *. apply take_ge. lia. Qed.

Lemma zdrop_all l i : zlen l <= i -> zdrop i l = [].
Proof. intros. unfold zdrop, zlen in *. apply drop_ge. lia. Qed.

Lemma ztake_zdrop i l : ztake i l ++ zdrop i l = l.
Proof. apply take_drop. Qed.

Lemma ztake_zero l : ztake 0 l = [].
Proof. reflexivity. Qed.

Lemma zdrop_zero l : zdrop 0 l = l.
Proof. reflexivity. Qed.

Lemma zdrop_app_ge l k i : zlen l <= i -> zdrop i (l ++ k) = zdrop (i - zlen l) k.
Proof. intros. unfold zdrop, zlen in *. rewrite drop_app_ge by lia. f_equal. lia. Qed.

Lemma ztake_app_ge l k i : zlen l <= i -> ztake i (l ++ k) = l ++ ztake (i - zlen l) k.
Proof. intros. unfold ztake, zlen in *. rewrite take_app_ge by lia. do 2 f_equal. lia. Qed.

(** Cutting a list at a length. *)
Lemma cut_at i l : 0 <= i <= zlen l -> exists l1 l2, l = l1 ++ l2 /\ zlen l1 = i.
Proof. intros. exists (ztake i l), (zdrop i l). rewrite ztake_zdrop, zlen_ztake by lia. split; [done|lia]. Qed.

(** Slicing and overwriting the middle of a list. *)
Lemma slice_mid l1 l2 l3 a b :
  a = zlen l1 -> b = zlen l1 + zlen l2 -> slice (l1 ++ l2 ++ l3) a b = Ok l2.
Proof.
  intros -> ->. unfold slice. rewrite !zlen_app.
  pose proof (zlen_nonneg l1). pose proof (zlen_nonneg l2). pose proof (zlen_nonneg l3). zdecide. cbn [andb].
  rewrite zdrop_app_exact. replace (zlen l1 + zlen l2 - zlen l1) with (zlen l2) by lia.
  by rewrite ztake_app_exact.
Qed.

Lemma copy_into_mid l1 l2 l3 src a b :
  a = zlen l1 -> b = zlen l1 + zlen l2 -> zlen src = zlen l2 ->
  copy_into (l1 ++ l2 ++ l3) a b src = Ok (l1 ++ src ++ l3).
Proof.
  intros -> -> Hs. unfold copy_into. rewrite !zlen_app, Hs.
  pose proof (zlen_nonneg l1). pose proof (zlen_nonneg l2). pose proof (zlen_nonneg l3). zdecide. cbn [andb].
  rewrite ztake_app_exact, (ztake_all src) by lia. do 3 f_equal.
  rewrite Z.min_l by lia. rewrite app_assoc. replace (zlen l1 + _) with (zlen (l1 ++ l2)) by (rewrite zlen_app; lia).
  apply zdrop_app_exact.
Qed.
End zlists.

(** ** Lemmas on the result type and on readers *)

Lemma res_bind_Ok {A B} (m : res A) (f : A -> res B) b :
  (m ≫= f) = Ok b -> exists a, m = Ok a /\ f a = Ok b.
Proof. destruct m; simpl; try discriminate. eauto. Qed.

Lemma wrap_err_Ok {A} ctx (m : res A) a : wrap_err ctx m = Ok a <-> m = Ok a.
Proof. destruct m; simpl; split; congruence. Qed.

Lemma ReadFull_app bs rest fin :
  ReadFull (Reader (bs ++ rest) fin) (zlen bs) = Ok (bs, Reader rest fin).
Proof.
  unfold ReadFull. cbn [rd_bytes rd_fin]. rewrite zlen_app.
  pose proof (zlen_nonneg bs). pose proof (zlen_nonneg rest).
  destruct (zlen bs <=? 0) eqn:E; zbool.
  - assert (bs = []) as -> by (apply zlen_zero; lia). done.
  - rewrite (proj2 (Z.leb_le _ _)) by lia. by rewrite ztake_app_exact, zdrop_app_exact.
Qed.

Lemma ReadFull_inv r n out r' :
  ReadFull r n = Ok (out, r') ->
  rd_bytes r = out ++ rd_bytes r' /\ rd_fin r' = rd_fin r /\ zlen out = Z.max 0 n.
Proof.
  unfold ReadFull. pose proof (zlen_nonneg (rd_bytes r)).
  destruct (n <=? 0) eqn:En; zbool.
  - intros [= <- <-]. simpl. split; [done|]. split; [done|]. rewrite zlen_nil. lia.
  - destruct (n <=? zlen (rd_bytes r)) eqn:El; zbool.
    + intros [= <- <-]. simpl. rewrite ztake_zdrop, zlen_ztake by lia. split_and!; [done..|lia].
    + by destruct (rd_bytes r).
Qed.

Lemma ReadFull_total r n : is_panic (ReadFull r n) = false.
Proof. unfold ReadFull. repeat case_on; done. Qed.

Lemma make_bytes_ok n : 0 <= n <= maxAlloc -> exists b, make_bytes n = Ok b.
Proof. intros. unfold make_bytes. zdecide. eauto. Qed.

(** ** Lemmas on writers *)

(** What a writer has accepted only grows, by a prefix of what it was given. *)
Lemma w_write_spec w p w' e :
  w_write w p = (w', e) ->
  exists q, w_out w' = w_out w ++ q /\ q `prefix_of` p /\ (e = None -> q = p).
Proof.
  unfold w_write. destruct (w_room w) as [room|].
  - destruct (zlen p <=? room).
    + intros [= <- <-]. exists p. done.
    + intros [= <- <-]. exists (ztake room p). split; [done|]. split; [|done].
      exists (zdrop room p). by rewrite ztake_zdrop.
  - intros [= <- <-]. exists p. done.
Qed.

Lemma w_write_unbounded w p :
  w_room w = None -> w_write w p = (Writer (w_out w ++ p) None, None).
Proof. intros H. unfold w_write. by rewrite H. Qed.

#[export] Hint Resolve zlen_nonneg bz_range u64_range int64_range : vlf.
#[export] Hint Rewrite @zlen_nil @zlen_cons @zlen_app : zlen.
