(* ===== verification/Wire.v ===== *)
(** * Wire encodings

    What the code uses of Go's [encoding/binary]: big-endian integers of a fixed width
    and unsigned varints, with the decoders' error behaviour. The VLF frames and
    datagrams ([Frame.v], [Datagram.v]) are built from these. *)

From S2P Require Import Prelude.

(** ** Big-endian integers *)

(** [binary.BigEndian.PutUintN]: the [n] low bytes of [v], most significant first. *)
Fixpoint be_put (n : nat) (v : Z) : list byte :=
  match n with
  | O => []
  | S k => zb (Z.shiftr v (8 * Z.of_nat k)) :: be_put k v
  end.

Definition be_step (acc : Z) (b : byte) : Z := Z.lor (Z.shiftl acc 8) (bz b).

(** [binary.BigEndian.UintN] of the bytes of a slice. *)
Definition be_get (bs : list byte) : Z := foldl be_step 0 bs.

(** [binary.Read(r, binary.BigEndian, &v)] for an unsigned [v] of [n] bytes. *)
Definition read_be (n : Z) (r : reader) : res (Z * reader) :=
  '(raw, r') ← ReadFull r n; Ok (be_get raw, r').

(** ** Unsigned varints *)

Definition MaxVarintLen64 : nat := 10.

(** The loop of [binary.PutUvarint]; the bound is never reached for a [uint64]. *)
Fixpoint put_uvarint (fuel : nat) (x : Z) : list byte :=
  match fuel with
  | O => []
  | S k =>
      if x <? 128 then [zb x]
      else zb (Z.lor (x mod 256) 128) :: put_uvarint k (Z.shiftr x 7)
  end.
Definition PutUvarint (x : Z) : list byte := put_uvarint MaxVarintLen64 x.

(** The loop of [binary.ReadUvarint]: [i] bytes read, [x] accumulated, shift [s]. *)
Fixpoint read_uvarint (fuel : nat) (i x s : Z) (r : reader) : res (Z * reader) :=
  match fuel with
  | O => Err EVarintOverflow
  | S k =>
      match rd_bytes r with
      | [] => Err (if (0 <? i) && bool_decide (rd_fin r = EEOF)
                   then EUnexpectedEOF else rd_fin r)
      | b :: bs =>
          let r' := Reader bs (rd_fin r) in
          if bz b <? 128 then
            if (i =? 9) && (1 <? bz b) then Err EVarintOverflow
            else Ok (Z.lor x (u64 (Z.shiftl (bz b) s)), r')
          else read_uvarint k (i + 1) (Z.lor x (u64 (Z.shiftl (Z.land (bz b) 127) s))) (s + 7) r'
      end
  end.
Definition ReadUvarint (r : reader) : res (Z * reader) :=
  read_uvarint MaxVarintLen64 0 0 0 r.

(** [binary.Uvarint] on a slice: the value and the number of bytes read, 0 when the
    slice is too short and negative on overflow. *)
Fixpoint uvarint_loop (buf : list byte) (i x s : Z) : Z * Z :=
  match buf with
  | [] => (0, 0)
  | b :: bs =>
      if i =? 10 then (0, - (i + 1))
      else if bz b <? 128 then
        if (i =? 9) && (1 <? bz b) then (0, - (i + 1))
        else (Z.lor x (u64 (Z.shiftl (bz b) s)), i + 1)
      else uvarint_loop bs (i + 1) (Z.lor x (u64 (Z.shiftl (Z.land (bz b) 127) s))) (s + 7)
  end.
Definition Uvarint (buf : list byte) : Z * Z := uvarint_loop buf 0 0 0.

(** ** Lemmas: big-endian *)

Lemma length_be_put n v : length (be_put n v) = n.
Proof. induction n; simpl; auto. Qed.

Lemma zlen_be_put n v : zlen (be_put n v) = Z.of_nat n.
Proof. unfold zlen. by rewrite length_be_put. Qed.

Lemma be_step_arith acc b : be_step acc b = acc * 256 + bz b.
Proof.
  unfold be_step. rewrite Z.shiftl_mul_pow2 by lia.
  rewrite <- Z.lxor_lor, <- Z.add_nocarry_lxor; try (change (2 ^ 8) with 256; lia).
  all: apply Z.bits_inj'; intros i Hi; rewrite Z.land_spec, Z.bits_0.
  all: change 256 with (2 ^ 8); destruct (Z.lt_ge_cases i 8).
  all: try (rewrite Z.mul_pow2_bits_low by lia; done).
  all: rewrite (Z.bits_above_log2 (bz b)), andb_false_r; [done|apply bz_range|].
  all: pose proof (bz_range b); destruct (decide (bz b = 0)) as [->|]; [simpl; lia|].
  all: apply Z.log2_lt_pow2; try lia.
  all: apply Z.lt_le_trans with (2 ^ 8); [simpl; lia|]; apply Z.pow_le_mono_r; lia.
Qed.

Lemma be_foldl_acc bs acc :
  foldl be_step acc bs = acc * 256 ^ zlen bs + be_get bs.
Proof.
  unfold be_get. revert acc. induction bs as [|b bs IH]; intros acc; simpl.
  - rewrite zlen_nil, Z.pow_0_r. lia.
  - rewrite IH, (IH (be_step 0 b)), !be_step_arith, zlen_cons.
    rewrite Z.pow_add_r by (try apply zlen_nonneg; lia). rewrite Z.pow_1_r. ring.
Qed.

Lemma be_get_cons b bs : be_get (b :: bs) = bz b * 256 ^ zlen bs + be_get bs.
Proof. unfold be_get at 1. simpl. rewrite be_foldl_acc, be_step_arith. f_equal. Qed.

Lemma be_get_range bs : 0 <= be_get bs < 256 ^ zlen bs.
Proof.
  induction bs as [|b bs IH]; [done|].
  rewrite be_get_cons, zlen_cons, Z.pow_add_r by (try apply zlen_nonneg; lia).
  rewrite Z.pow_1_r. pose proof (bz_range b). nia.
Qed.

Lemma be_get_put_mod n v : be_get (be_put n v) = v mod 256 ^ Z.of_nat n.
Proof.
  induction n as [|k IH]; simpl be_put.
  - change (256 ^ Z.of_nat 0) with 1. by rewrite Z.mod_1_r.
  - rewrite be_get_cons, zlen_be_put, IH, bz_zb, Z.shiftr_div_pow2 by lia.
    rewrite Z.pow_mul_r by lia. change (2 ^ 8) with 256.
    rewrite Nat2Z.inj_succ, Z.pow_succ_r by lia.
    set (p := 256 ^ Z.of_nat k). assert (0 < p) by (apply Z.pow_pos_nonneg; lia).
    rewrite (Z.mul_comm 256 p), Z.rem_mul_r by lia. lia.
Qed.

Lemma be_get_put n v : 0 <= v < 256 ^ Z.of_nat n -> be_get (be_put n v) = v.
Proof. intros. rewrite be_get_put_mod. by apply Z.mod_small. Qed.

Lemma be_get_put_u64 v : is_u64 v -> be_get (be_put 8 v) = v.
Proof. intros H. apply be_get_put. exact H. Qed.
Lemma be_get_put_u32 v : is_u32 v -> be_get (be_put 4 v) = v.
Proof. intros H. apply be_get_put. exact H. Qed.
Lemma be_get_put_u16 v : is_u16 v -> be_get (be_put 2 v) = v.
Proof. intros H. apply be_get_put. exact H. Qed.

Lemma be_get_inj xs ys : length xs = length ys -> be_get xs = be_get ys -> xs = ys.
Proof.
  revert ys. induction xs as [|x xs IH]; intros [|y ys]; simpl; try done.
  intros [= Hl] He. rewrite !be_get_cons in He.
  assert (zlen xs = zlen ys) as Hz by (unfold zlen; lia). rewrite Hz in He.
  pose proof (be_get_range xs). pose proof (be_get_range ys). rewrite Hz in *.
  assert (bz x = bz y) as Hb by nia. f_equal; [by apply bz_inj|]. apply IH; [done|]. nia.
Qed.

(** Encoding what was decoded gives the bytes back. *)
Lemma be_put_get bs : be_put (length bs) (be_get bs) = bs.
Proof.
  apply be_get_inj; [apply length_be_put|]. apply be_get_put. apply be_get_range.
Qed.

Lemma read_be_put n v rest fin :
  0 <= v < 256 ^ Z.of_nat n ->
  read_be (Z.of_nat n) (Reader (be_put n v ++ rest) fin) = Ok (v, Reader rest fin).
Proof.
  intros Hv. unfold read_be. rewrite <- (zlen_be_put n v), ReadFull_app. simpl.
  by rewrite be_get_put.
Qed.

Lemma read_be_inv n r v r' :
  0 <= n -> read_be n r = Ok (v, r') ->
  rd_bytes r = be_put (Z.to_nat n) v ++ rd_bytes r' /\ rd_fin r' = rd_fin r
  /\ 0 <= v < 256 ^ n.
Proof.
  intros Hn H. unfold read_be in H. apply res_bind_Ok in H as ([raw r1] & H & [= <- <-]).
  apply ReadFull_inv in H as (Hb & Hf & Hlen). rewrite Z.max_r in Hlen by lia.
  assert (Z.to_nat n = length raw) as -> by (unfold zlen in Hlen; lia).
  rewrite be_put_get. pose proof (be_get_range raw) as Hr. rewrite Hlen in Hr. done.
Qed.

(** ** Lemmas: varints *)

Lemma lor_disjoint_split v s :
  0 <= v -> 0 <= s ->
  Z.lor (Z.shiftl (Z.land v 127) s) (Z.shiftl (Z.shiftr v 7) (s + 7)) = Z.shiftl v s.
Proof.
  intros Hv Hs. apply Z.bits_inj'. intros i Hi.
  rewrite Z.lor_spec, !Z.shiftl_spec by lia. change 127 with (Z.ones 7).
  rewrite Z.land_spec.
  destruct (Z.lt_ge_cases i s).
  - rewrite !(Z.testbit_neg_r _ (i - s)), (Z.testbit_neg_r _ (i - (s + 7))) by lia. done.
  - destruct (Z.lt_ge_cases (i - s) 7).
    + rewrite Z.ones_spec_low by lia. rewrite (Z.testbit_neg_r _ (i - (s + 7))) by lia.
      by rewrite andb_true_r, orb_false_r.
    + rewrite Z.ones_spec_high by lia. rewrite andb_false_r, Z.shiftr_spec by lia.
      rewrite orb_false_l. f_equal. lia.
Qed.

Lemma lor_128_byte b : Z.lor (bz b) 128 = 128 + bz b mod 128.
Proof. destruct b; reflexivity. Qed.

Lemma uvarint_byte v :
  0 <= v -> bz (zb (Z.lor (v mod 256) 128)) = 128 + Z.land v 127.
Proof.
  intros Hv. rewrite bz_zb. change 127 with (Z.ones 7). rewrite Z.land_ones by lia.
  rewrite <- (bz_zb v), lor_128_byte, bz_zb. change (2 ^ 7) with 128.
  assert (v mod 256 mod 128 = v mod 128) as ->.
  { change 256 with (128 * 2). rewrite Z.rem_mul_r by lia.
    rewrite (Z.mul_comm 128), Z.mod_add by lia. by rewrite Z.mod_mod by lia. }
  pose proof (Z.mod_pos_bound v 128 ltac:(lia)). apply Z.mod_small. lia.
Qed.

Lemma shiftl_u64 v s :
  0 <= v -> 0 <= s < 64 -> v < 2 ^ (64 - s) -> u64 (Z.shiftl v s) = Z.shiftl v s.
Proof.
  intros Hv Hs Hlt. rewrite Z.shiftl_mul_pow2 by lia. apply u64_small. split; [nia|].
  replace (2 ^ 64) with (2 ^ (64 - s) * 2 ^ s) by (rewrite <- Z.pow_add_r by lia; f_equal; lia).
  nia.
Qed.

Lemma shiftr_7_bound v n : 7 <= n -> 0 <= v < 2 ^ n -> 0 <= Z.shiftr v 7 < 2 ^ (n - 7).
Proof.
  intros Hn Hv. rewrite Z.shiftr_div_pow2 by lia. split; [apply Z.div_pos; lia|].
  apply Z.div_lt_upper_bound; [lia|]. rewrite <- Z.pow_add_r by lia.
  replace (7 + (n - 7)) with n by lia. lia.
Qed.

(** The reader's loop undoes the writer's loop at every position. *)
Lemma read_put_uvarint fuel : forall i x v rest fin,
  Z.of_nat fuel + i = 10 -> 0 <= i -> (0 < fuel)%nat -> 0 <= v < 2 ^ (64 - 7 * i) ->
  read_uvarint fuel i x (7 * i) (Reader (put_uvarint fuel v ++ rest) fin)
  = Ok (Z.lor x (Z.shiftl v (7 * i)), Reader rest fin).
Proof.
  induction fuel as [|k IH]; intros i x v rest fin Hi Hi0 Hk Hv; [lia|].
  cbn [put_uvarint read_uvarint]. destruct (v <? 128) eqn:Ev; zbool; cbn [app rd_bytes rd_fin].
  - rewrite bz_zb_small by lia. zdecide. destruct ((i =? 9) && (1 <? v)) eqn:E9; zbool.
    + subst i. simpl in Hv. lia.
    + rewrite shiftl_u64 by lia. done.
  - rewrite uvarint_byte by lia.
    assert (0 <= Z.land v 127 < 128) as Hl.
    { change 127 with (Z.ones 7). rewrite Z.land_ones by lia. apply Z.mod_pos_bound. lia. }
    zdecide.
    assert (i < 9) as Hi9.
    { destruct (Z.lt_ge_cases i 9) as [|]; [done|]. assert (i = 9) as -> by lia. simpl in Hv. lia. }
    replace (Z.land (128 + Z.land v 127) 127) with (Z.land v 127).
    2: { change 127 with (Z.ones 7). rewrite !Z.land_ones by lia. change (2 ^ 7) with 128.
         rewrite <- Z.add_mod_idemp_l by lia. rewrite Z.mod_same by lia.
         by rewrite Z.add_0_l, Z.mod_mod by lia. }
    rewrite shiftl_u64; [|lia|lia|].
    2: { apply Z.lt_le_trans with (2 ^ 7); [simpl; lia|]. apply Z.pow_le_mono_r; lia. }
    replace (7 * i + 7) with (7 * (i + 1)) by lia. rewrite IH; try lia.
    + rewrite <- Z.lor_assoc. replace (7 * (i + 1)) with (7 * i + 7) by lia.
      by rewrite lor_disjoint_split by lia.
    + replace (64 - 7 * (i + 1)) with (64 - 7 * i - 7) by lia. apply shiftr_7_bound; lia.
Qed.

Lemma ReadUvarint_Put v rest fin :
  is_u64 v -> ReadUvarint (Reader (PutUvarint v ++ rest) fin) = Ok (v, Reader rest fin).
Proof.
  intros Hv. unfold ReadUvarint, PutUvarint.
  change 0 with (7 * 0) at 3.
  rewrite read_put_uvarint; [|done|done|unfold MaxVarintLen64; lia|exact Hv].
  simpl. by rewrite Z.shiftl_0_r.
Qed.

(** A decoded varint is a [uint64], and its bytes come off the front of the reader. *)
Lemma read_uvarint_inv fuel : forall i x s r v r',
  is_u64 x -> read_uvarint fuel i x s r = Ok (v, r') ->
  is_u64 v /\ rd_fin r' = rd_fin r /\ exists hd, rd_bytes r = hd ++ rd_bytes r' /\ hd <> [].
Proof.
  assert (Hlor : forall a b, is_u64 a -> is_u64 (Z.lor a (u64 b))).
  { intros a b [Ha1 Ha2]. pose proof (u64_range b) as [Hb1 Hb2]. split; [by apply Z.lor_nonneg|].
    destruct (decide (Z.lor a (u64 b) = 0)) as [->|]; [lia|].
    assert (0 <= Z.lor a (u64 b)) by (by apply Z.lor_nonneg).
    apply Z.log2_lt_pow2; [lia|]. rewrite Z.log2_lor by done.
    assert (forall c, 0 <= c < 2 ^ 64 -> Z.log2 c < 64) as Hlog.
    { intros c Hc. destruct (decide (c = 0)) as [->|]; [simpl; lia|]. apply Z.log2_lt_pow2; lia. }
    pose proof (Hlog a). pose proof (Hlog (u64 b)). lia. }
  induction fuel as [|k IH]; intros i x s r v r' Hx H; [done|].
  simpl in H. destruct (rd_bytes r) as [|b bs] eqn:Eb; [done|].
  destruct (bz b <? 128).
  - destruct ((i =? 9) && (1 <? bz b)); [done|]. injection H as <- <-. simpl.
    split_and!; auto. exists [b]. done.
  - apply IH in H; [|auto]. simpl in H. destruct H as (Hv & Hf & hd & Hhd & _).
    split_and!; auto. exists (b :: hd). simpl. by rewrite Hhd.
Qed.

Lemma ReadUvarint_inv r v r' :
  ReadUvarint r = Ok (v, r') ->
  is_u64 v /\ rd_fin r' = rd_fin r /\ exists hd, rd_bytes r = hd ++ rd_bytes r' /\ hd <> [].
Proof. apply read_uvarint_inv. unfold is_u64. lia. Qed.

Lemma read_uvarint_total fuel : forall i x s r,
  is_panic (read_uvarint fuel i x s r) = false.
Proof.
  induction fuel as [|k IH]; intros i x s r; [done|]. simpl. repeat case_on; auto.
Qed.

Lemma ReadUvarint_total r : is_panic (ReadUvarint r) = false.
Proof. apply read_uvarint_total. Qed.

Lemma length_put_uvarint fuel v :
  (0 < fuel)%nat -> (1 <= length (put_uvarint fuel v) <= fuel)%nat.
Proof.
  revert v. induction fuel as [|k IH]; intros v Hk; [lia|]. simpl.
  destruct (v <? 128); simpl; [lia|].
  destruct k as [|k]; [simpl; lia|]. specialize (IH (Z.shiftr v 7) ltac:(lia)). lia.
Qed.

Lemma zlen_PutUvarint v : 1 <= zlen (PutUvarint v) <= 10.
Proof.
  unfold zlen, PutUvarint. pose proof (length_put_uvarint MaxVarintLen64 v).
  unfold MaxVarintLen64 in *. lia.
Qed.

(** [Uvarint] on a slice agrees with the reader. *)
Lemma uvarint_loop_read fuel : forall i x s bs fin v r',
  Z.of_nat fuel + i = 10 -> 0 <= i ->
  read_uvarint fuel i x s (Reader bs fin) = Ok (v, r') ->
  uvarint_loop bs i x s = (v, i + (zlen bs - zlen (rd_bytes r'))).
Proof.
  induction fuel as [|k IH]; intros i x s bs fin v r' Hi Hi0 H; [done|].
  cbn [read_uvarint rd_bytes rd_fin] in H. destruct bs as [|b bs]; [done|].
  cbn [uvarint_loop]. rewrite zlen_cons. zdecide.
  destruct (bz b <? 128).
  - destruct ((i =? 9) && (1 <? bz b)); [done|]. injection H as <- <-. f_equal. simpl. lia.
  - apply IH in H; [|lia..]. rewrite H. f_equal. lia.
Qed.

Lemma Uvarint_Put v rest :
  is_u64 v -> Uvarint (PutUvarint v ++ rest) = (v, zlen (PutUvarint v)).
Proof.
  intros Hv. unfold Uvarint. pose proof (ReadUvarint_Put v rest EEOF Hv) as Hr.
  apply uvarint_loop_read in Hr; [|done|done]. rewrite Hr, zlen_app. f_equal. simpl. lia.
Qed.
