(* ===== verification/Frame.v ===== *)
(** * Control frames ([internal/session/frame.go])

    The TLV frames of the session control stream and the payloads they carry, with
    their encoders and decoders. [ReadFrame] and the payload decoders are total
    functions of the bytes received; the panics of [make] are values of [res]. *)

From S2P Require Import Prelude Wire.

(** ** Definitions *)

Definition FrameAUTH : Z := 1.
Definition FrameAUTHOK : Z := 2.
Definition FrameAUTHFAIL : Z := 3.
Definition FrameOPENTCP : Z := 4.
Definition FrameOPENTCPOK : Z := 5.
Definition FrameOPENTCPFAIL : Z := 6.
Definition FrameOPENUDP : Z := 7.
Definition FrameOPENUDPOK : Z := 8.
Definition FrameOPENUDPFAIL : Z := 9.
Definition FrameCLOSEFLOW : Z := 10.
Definition FramePING : Z := 11.
Definition FramePONG : Z := 12.
Definition FrameTCPDATA : Z := 13.

Definition DatagramFlagFragmented : Z := Z.shiftl 1 0.
Definition DatagramFlagLast : Z := Z.shiftl 1 1.

Record Frame := mkFrame { frame_type : Z; frame_payload : list byte }.

Definition ReadFrame (r : reader) : res (Frame * reader) :=
  '(typ, r) ← ReadUvarint r;
  '(ln, r) ← ReadUvarint r;
  _ ← make_bytes ln;
  '(payload, r) ← ReadFull r ln;
  Ok (mkFrame typ payload, r).

Definition WriteFrame (w : writer) (frameType : Z) (payload : list byte)
  : writer * option goerr :=
  let '(w, err) := w_write w (PutUvarint frameType) in
  match err with
  | Some e => (w, Some e)
  | None =>
      let '(w, err) := w_write w (PutUvarint (zlen payload)) in
      match err with
      | Some e => (w, Some e)
      | None => if 0 <? zlen payload then w_write w payload else (w, None)
      end
  end.

(** [writeBytes] and [writeString] append to a [bytes.Buffer], which never fails. *)
Definition writeBytes (data : list byte) : list byte :=
  PutUvarint (zlen data) ++ (if 0 <? zlen data then data else []).
Definition writeString (s : string) : list byte := writeBytes (bytes_of_string s).

Definition readBytes (r : reader) : res (list byte * reader) :=
  '(ln, r) ← ReadUvarint r;
  if ln =? 0 then Ok ([], r)
  else _ ← make_bytes ln; ReadFull r ln.
Definition readString (r : reader) : res (string * reader) :=
  '(raw, r) ← readBytes r; Ok (string_of_bytes raw, r).

(** [bytes.Reader.ReadByte]. *)
Definition readByte (r : reader) : res (Z * reader) :=
  match rd_bytes r with
  | [] => Err (rd_fin r)
  | b :: bs => Ok (bz b, Reader bs (rd_fin r))
  end.

Definition newReader (raw : list byte) : reader := Reader raw EEOF.
Definition rd_Len (r : reader) : Z := zlen (rd_bytes r).

Record AuthPayload := mkAuthPayload {
  ClientID : string; TSMS : Z; Nonce : list byte; Sig : list byte; Caps : Z }.

Definition EncodeAuthPayload (p : AuthPayload) : list byte :=
  writeString (ClientID p) ++ be_put 8 (TSMS p) ++ writeBytes (Nonce p)
  ++ writeBytes (Sig p) ++ be_put 8 (Caps p).

Definition DecodeAuthPayload (raw : list byte) : res AuthPayload :=
  let r := newReader raw in
  '(clientID, r) ← wrap_err "decode client_id" (readString r);
  '(ts, r) ← wrap_err "decode ts_ms" (read_be 8 r);
  '(nonce, r) ← wrap_err "decode nonce" (readBytes r);
  '(sig, r) ← wrap_err "decode sig" (readBytes r);
  '(caps, r) ← wrap_err "decode caps" (read_be 8 r);
  if rd_Len r =? 0 then Ok (mkAuthPayload clientID ts nonce sig caps)
  else Err (ENew "trailing bytes in AUTH payload").

Record AuthOKPayload := mkAuthOKPayload {
  SessionID : Z; ExpiresMS : Z; UpKbps : Z; DownKbps : Z; MaxFlows : Z; MaxUDPPPS : Z }.

Definition EncodeAuthOKPayload (p : AuthOKPayload) : list byte :=
  be_put 8 (SessionID p) ++ be_put 4 (ExpiresMS p) ++ be_put 4 (UpKbps p)
  ++ be_put 4 (DownKbps p) ++ be_put 4 (MaxFlows p) ++ be_put 4 (MaxUDPPPS p).

Record OpenPayload := mkOpenPayload {
  op_FlowID : Z; DstHost : string; DstIP : list byte; DstPort : Z }.

Definition EncodeOpenPayload (p : OpenPayload) : list byte :=
  be_put 8 (op_FlowID p) ++ writeString (DstHost p) ++ writeBytes (DstIP p)
  ++ be_put 2 (DstPort p).

Definition DecodeOpenPayload (raw : list byte) : res OpenPayload :=
  let r := newReader raw in
  '(flowID, r) ← wrap_err "decode flow_id" (read_be 8 r);
  '(dstHost, r) ← wrap_err "decode dst_host" (readString r);
  '(dstIP, r) ← wrap_err "decode dst_ip" (readBytes r);
  '(dstPort, r) ← wrap_err "decode dst_port" (read_be 2 r);
  if rd_Len r =? 0 then Ok (mkOpenPayload flowID dstHost dstIP dstPort)
  else Err (ENew "trailing bytes in OPEN payload").

Record OpenOKPayload := mkOpenOKPayload { ok_FlowID : Z; ok_Mode : Z }.

Definition EncodeOpenOKPayload (p : OpenOKPayload) : list byte :=
  be_put 8 (ok_FlowID p) ++ [zb (ok_Mode p)].
Definition DecodeOpenOKPayload (raw : list byte) : res OpenOKPayload :=
  let r := newReader raw in
  '(flowID, r) ← read_be 8 r;
  '(mode, r) ← readByte r;
  Ok (mkOpenOKPayload flowID mode).

Record CloseFlowPayload := mkCloseFlowPayload { cf_FlowID : Z }.

Definition EncodeCloseFlowPayload (p : CloseFlowPayload) : list byte :=
  be_put 8 (cf_FlowID p).
Definition DecodeCloseFlowPayload (raw : list byte) : res CloseFlowPayload :=
  if zlen raw =? 8 then Ok (mkCloseFlowPayload (be_get raw))
  else Err (ENew "close flow payload must be 8 bytes").

Record FailPayload := mkFailPayload { fp_FlowID : Z; Reason : string }.

Definition EncodeFailPayload (p : FailPayload) : list byte :=
  be_put 8 (fp_FlowID p) ++ writeString (Reason p).
Definition EncodeAuthFail (reason : string) : list byte := writeString reason.

Definition EncodeTCPDataPayload (flowID : Z) (data : list byte) : list byte :=
  be_put 8 flowID ++ data.
Definition DecodeTCPDataPayload (raw : list byte) : res (Z * list byte) :=
  if zlen raw <? 8 then Err (ENew "tcp data payload too short")
  else Ok (be_get (ztake 8 raw), zdrop 8 raw).

(** ** Well-formed payloads: what the Go types and the runtime guarantee *)

Definition small_bytes (l : list byte) : Prop := zlen l <= maxAlloc.

Definition wf_auth (p : AuthPayload) : Prop :=
  is_u64 (TSMS p) /\ is_u64 (Caps p) /\ small_bytes (bytes_of_string (ClientID p))
  /\ small_bytes (Nonce p) /\ small_bytes (Sig p).
Definition wf_open (p : OpenPayload) : Prop :=
  is_u64 (op_FlowID p) /\ is_u16 (DstPort p)
  /\ small_bytes (bytes_of_string (DstHost p)) /\ small_bytes (DstIP p).
Definition wf_frame (f : Frame) : Prop :=
  is_u64 (frame_type f) /\ small_bytes (frame_payload f).

(** The bytes a frame takes on the stream. *)
Definition frame_bytes (f : Frame) : list byte :=
  PutUvarint (frame_type f) ++ PutUvarint (zlen (frame_payload f)) ++ frame_payload f.

(** Read frames until the stream ends, as the control loops do; the fuel bounds the
    number of frames by the number of bytes. *)
Fixpoint read_frames (fuel : nat) (r : reader) : list Frame * res unit :=
  match fuel with
  | O => ([], Ok tt)
  | S k =>
      match ReadFrame r with
      | Ok (f, r') => let '(fs, e) := read_frames k r' in (f :: fs, e)
      | Err e => ([], Err e)
      | Panic m => ([], Panic m)
      end
  end.

(** ** Lemmas *)

Lemma small_bytes_u64 l : small_bytes l -> is_u64 (zlen l).
Proof. unfold small_bytes, is_u64, maxAlloc. pose proof (zlen_nonneg l). lia. Qed.

Lemma writeBytes_eq data : writeBytes data = PutUvarint (zlen data) ++ data.
Proof.
  unfold writeBytes. destruct (0 <? zlen data) eqn:E; [done|]. zbool.
  assert (data = []) as ->; [|done]. apply zlen_zero. pose proof (zlen_nonneg data). lia.
Qed.

Lemma make_bytes_bind {B} n (k : list byte -> res B) c :
  0 <= n <= maxAlloc -> (forall l, k l = c) -> (make_bytes n ≫= k) = c.
Proof. intros Hn Hk. destruct (make_bytes_ok n Hn) as [b ->]. apply Hk. Qed.

Lemma readBytes_write data rest fin :
  small_bytes data ->
  readBytes (Reader (writeBytes data ++ rest) fin) = Ok (data, Reader rest fin).
Proof.
  intros Hs. unfold readBytes. rewrite writeBytes_eq, <- app_assoc.
  rewrite ReadUvarint_Put by (by apply small_bytes_u64). simpl.
  destruct (zlen data =? 0) eqn:E; zbool.
  - assert (data = []) as -> by (by apply zlen_zero). done.
  - apply make_bytes_bind; [|intros _; apply ReadFull_app].
    pose proof (zlen_nonneg data). unfold small_bytes in Hs. lia.
Qed.

Lemma readString_write s rest fin :
  small_bytes (bytes_of_string s) ->
  readString (Reader (writeString s ++ rest) fin) = Ok (s, Reader rest fin).
Proof.
  intros Hs. unfold readString, writeString. rewrite readBytes_write by done. simpl.
  by rewrite string_bytes_string.
Qed.

Lemma read_be8_put v rest fin :
  is_u64 v -> read_be 8 (Reader (be_put 8 v ++ rest) fin) = Ok (v, Reader rest fin).
Proof. intros H. apply (read_be_put 8 v rest fin). exact H. Qed.

Lemma read_be2_put v rest fin :
  is_u16 v -> read_be 2 (Reader (be_put 2 v ++ rest) fin) = Ok (v, Reader rest fin).
Proof. intros H. apply (read_be_put 2 v rest fin). exact H. Qed.

(** One step of a payload decoder applied to the matching encoder's output. *)
Ltac decode_step :=
  first [ rewrite readString_write by assumption
        | rewrite readBytes_write by assumption
        | rewrite read_be8_put by assumption
        | rewrite read_be2_put by assumption ]; cbn [wrap_err mbind res_bind].

Lemma ReadFrame_frame f rest fin :
  wf_frame f -> ReadFrame (Reader (frame_bytes f ++ rest) fin) = Ok (f, Reader rest fin).
Proof.
  intros [Ht Hp]. unfold ReadFrame, frame_bytes. rewrite <- !app_assoc.
  rewrite ReadUvarint_Put by done. cbn [mbind res_bind].
  rewrite ReadUvarint_Put by (by apply small_bytes_u64). cbn [mbind res_bind].
  apply make_bytes_bind.
  - pose proof (zlen_nonneg (frame_payload f)). unfold small_bytes in Hp. lia.
  - intros _. rewrite ReadFull_app. simpl. by destruct f.
Qed.

Lemma frame_bytes_nonempty f : frame_bytes f <> [].
Proof.
  intros H. apply (f_equal zlen) in H. unfold frame_bytes in H. rewrite !zlen_app, zlen_nil in H.
  pose proof (zlen_PutUvarint (frame_type f)). pose proof (zlen_PutUvarint (zlen (frame_payload f))).
  pose proof (zlen_nonneg (frame_payload f)). lia.
Qed.

(** Reading is unaffected by bytes that arrive later. *)
Lemma read_uvarint_extend fuel : forall i x s r v r' suf fin,
  read_uvarint fuel i x s r = Ok (v, r') ->
  read_uvarint fuel i x s (Reader (rd_bytes r ++ suf) fin)
  = Ok (v, Reader (rd_bytes r' ++ suf) fin).
Proof.
  induction fuel as [|k IH]; intros i x s r v r' suf fin H; [done|]. simpl in *.
  destruct (rd_bytes r) as [|b bs]; [done|]. simpl.
  destruct (bz b <? 128).
  - destruct ((i =? 9) && (1 <? bz b)); [done|]. by injection H as <- <-.
  - by apply (IH _ _ _ _ _ _ suf fin) in H.
Qed.

Lemma ReadFull_extend r n out r' suf fin :
  ReadFull r n = Ok (out, r') ->
  ReadFull (Reader (rd_bytes r ++ suf) fin) n = Ok (out, Reader (rd_bytes r' ++ suf) fin).
Proof.
  intros H. destruct (ReadFull_inv _ _ _ _ H) as (Hb & _ & Hl).
  rewrite Hb, <- app_assoc. destruct (Z.le_ge_cases n 0).
  - unfold ReadFull in *. zdecide. rewrite (proj2 (Z.leb_le n 0)) in H by lia.
    injection H as <- <-. done.
  - replace n with (zlen out) by lia. apply ReadFull_app.
Qed.

Lemma ReadFrame_extend r f r' suf fin :
  ReadFrame r = Ok (f, r') ->
  ReadFrame (Reader (rd_bytes r ++ suf) fin) = Ok (f, Reader (rd_bytes r' ++ suf) fin).
Proof.
  unfold ReadFrame. intros H.
  apply res_bind_Ok in H as ([typ r1] & H1 & H).
  apply res_bind_Ok in H as ([ln r2] & H2 & H).
  apply res_bind_Ok in H as (b & H3 & H).
  apply res_bind_Ok in H as ([p r3] & H4 & [= <- <-]).
  unfold ReadUvarint in *.
  rewrite (read_uvarint_extend _ _ _ _ _ _ _ suf fin H1). cbn [mbind res_bind].
  rewrite (read_uvarint_extend _ _ _ _ _ _ _ suf fin H2). cbn [mbind res_bind].
  rewrite H3. cbn [mbind res_bind]. by rewrite (ReadFull_extend _ _ _ _ suf fin H4).
Qed.

(** What a successful read takes off the stream. *)
Lemma ReadFrame_consumes r f r' :
  ReadFrame r = Ok (f, r') ->
  rd_fin r' = rd_fin r /\ wf_frame f
  /\ exists hd, rd_bytes r = hd ++ rd_bytes r' /\ hd <> [].
Proof.
  unfold ReadFrame. intros H.
  apply res_bind_Ok in H as ([typ r1] & H1 & H).
  apply res_bind_Ok in H as ([ln r2] & H2 & H).
  apply res_bind_Ok in H as (b & H3 & H).
  apply res_bind_Ok in H as ([p r3] & H4 & [= <- <-]).
  apply ReadUvarint_inv in H1 as (Ht & Hf1 & h1 & Hb1 & Hn1).
  apply ReadUvarint_inv in H2 as (Hln & Hf2 & h2 & Hb2 & _).
  apply ReadFull_inv in H4 as (Hb3 & Hf3 & Hl3).
  split; [congruence|]. split.
  - split; [done|]. unfold small_bytes. simpl. rewrite Hl3.
    unfold make_bytes in H3. destruct (maxAlloc <? ln) eqn:E; [done|]. zbool.
    assert (0 <= maxAlloc) by (unfold maxAlloc; lia). lia.
  - exists (h1 ++ h2 ++ p). rewrite Hb1, Hb2, Hb3, <- !app_assoc. split; [done|].
    destruct h1; [done|]. discriminate.
Qed.

Lemma WriteFrame_spec w t p w' e :
  WriteFrame w t p = (w', e) ->
  exists q, w_out w' = w_out w ++ q /\ q `prefix_of` frame_bytes (mkFrame t p)
            /\ (e = None -> q = frame_bytes (mkFrame t p)).
Proof.
  unfold WriteFrame, frame_bytes. simpl frame_type. simpl frame_payload.
  destruct (w_write w (PutUvarint t)) as [w1 e1] eqn:E1.
  apply w_write_spec in E1 as (q1 & Ho1 & Hp1 & Hq1).
  destruct e1 as [e1|].
  { intros [= <- <-]. exists q1. split; [done|]. split; [|done]. by apply prefix_app_r. }
  rewrite (Hq1 eq_refl) in *. clear Hp1 Hq1.
  destruct (w_write w1 (PutUvarint (zlen p))) as [w2 e2] eqn:E2.
  apply w_write_spec in E2 as (q2 & Ho2 & Hp2 & Hq2). rewrite Ho1 in Ho2.
  destruct e2 as [e2|].
  { intros [= <- <-]. exists (PutUvarint t ++ q2). rewrite Ho2, app_assoc. split; [done|].
    split; [|done]. apply prefix_app. by apply prefix_app_r. }
  rewrite (Hq2 eq_refl) in *. clear Hp2 Hq2.
  destruct (0 <? zlen p) eqn:Ep.
  - intros Hw. apply w_write_spec in Hw as (q3 & Ho3 & Hp3 & Hq3).
    exists (PutUvarint t ++ PutUvarint (zlen p) ++ q3). rewrite Ho3, Ho2, <- !app_assoc.
    split; [done|]. split; [by do 2 apply prefix_app|]. intros He. by rewrite (Hq3 He).
  - intros [= <- <-]. zbool. assert (p = []) as ->.
    { apply zlen_zero. pose proof (zlen_nonneg p). lia. }
    exists (PutUvarint t ++ PutUvarint (zlen (@nil byte))). rewrite Ho2, app_nil_r, <- app_assoc.
    done.
Qed.

Lemma make_bytes_panic_iff n : 0 <= n -> is_panic (make_bytes n) = true <-> maxAlloc < n.
Proof.
  intros Hn. unfold make_bytes. destruct (maxAlloc <? n) eqn:E; zbool; [done|].
  zdecide. split; [done|lia].
Qed.

Lemma ReadFrame_header t n rest fin :
  is_u64 t -> is_u64 n ->
  ReadFrame (Reader (PutUvarint t ++ PutUvarint n ++ rest) fin)
  = (_ ← make_bytes n; '(payload, r) ← ReadFull (Reader rest fin) n; Ok (mkFrame t payload, r)).
Proof.
  intros Ht Hn. unfold ReadFrame. rewrite ReadUvarint_Put by done. cbn [mbind res_bind].
  by rewrite ReadUvarint_Put by done.
Qed.

Lemma ReadFrame_panic_header r m :
  ReadFrame r = Panic m ->
  exists t r1 n r2, ReadUvarint r = Ok (t, r1) /\ ReadUvarint r1 = Ok (n, r2) /\ maxAlloc < n.
Proof.
  unfold ReadFrame. intros H.
  pose proof (ReadUvarint_total r) as Ht1.
  destruct (ReadUvarint r) as [[t r1]| |] eqn:E1; try done. cbn [mbind res_bind] in H.
  pose proof (ReadUvarint_total r1) as Ht2.
  destruct (ReadUvarint r1) as [[n r2]| |] eqn:E2; try done. cbn [mbind res_bind] in H.
  exists t, r1, n, r2. split_and!; [done..|].
  destruct (ReadUvarint_inv _ _ _ E2) as ([Hn _] & _).
  apply make_bytes_panic_iff; [done|].
  pose proof (ReadFull_total r2 n) as Ht3.
  destruct (make_bytes n) as [b| |]; try done. cbn [mbind res_bind] in H.
  by destruct (ReadFull r2 n) as [[p r3]| |].
Qed.

Lemma ReadFrame_extend_panic r m suf fin :
  ReadFrame r = Panic m -> is_panic (ReadFrame (Reader (rd_bytes r ++ suf) fin)) = true.
Proof.
  intros H. apply ReadFrame_panic_header in H as (t & r1 & n & r2 & H1 & H2 & Hn).
  destruct (ReadUvarint_inv _ _ _ H2) as ([Hn0 _] & _).
  unfold ReadFrame, ReadUvarint in *.
  rewrite (read_uvarint_extend _ _ _ _ _ _ _ suf fin H1). cbn [mbind res_bind].
  rewrite (read_uvarint_extend _ _ _ _ _ _ _ suf fin H2). cbn [mbind res_bind].
  apply make_bytes_panic_iff in Hn; [|done]. by destruct (make_bytes n).
Qed.

Lemma proper_prefix_rejected f pre :
  wf_frame f -> pre `prefix_of` frame_bytes f -> pre <> frame_bytes f ->
  exists e, ReadFrame (Reader pre EEOF) = Err e.
Proof.
  intros Hwf [suf Hsuf] Hne.
  pose proof (ReadFrame_frame f [] EEOF Hwf) as Hfull. rewrite app_nil_r, Hsuf in Hfull.
  destruct (ReadFrame (Reader pre EEOF)) as [[g r']|e|m] eqn:E; [|by eexists|].
  - apply (ReadFrame_extend _ _ _ suf EEOF) in E. simpl in E. rewrite Hfull in E.
    injection E as _ Hnil. symmetry in Hnil. apply app_eq_nil in Hnil as [_ ->].
    rewrite app_nil_r in Hsuf. congruence.
  - apply (ReadFrame_extend_panic _ _ suf EEOF) in E. simpl in E. by rewrite Hfull in E.
Qed.

Lemma w_write_fail w p w' e :
  w_write w p = (w', Some e) -> p <> [] ->
  exists q, w_out w' = w_out w ++ q /\ q `prefix_of` p /\ q <> p.
Proof.
  unfold w_write. destruct (w_room w) as [room|]; [|done].
  destruct (zlen p <=? room) eqn:E; [done|]. intros [= <- <-] Hp. zbool.
  exists (ztake room p). split; [done|]. split.
  - exists (zdrop room p). by rewrite ztake_zdrop.
  - intros Heq. apply Hp, zlen_zero.
    apply (f_equal zlen) in Heq. pose proof (zlen_nonneg p).
    destruct (Z.le_ge_cases 0 room) as [Hr|Hr].
    + rewrite zlen_ztake in Heq by done. lia.
    + unfold ztake in Heq. rewrite Z2Nat.nonpos in Heq by done. by rewrite take_0 in Heq.
Qed.

Lemma PutUvarint_nonempty v : PutUvarint v <> [].
Proof. intros H. pose proof (zlen_PutUvarint v) as Hl. rewrite H, zlen_nil in Hl. lia. Qed.

Lemma app_proper_prefix {A} (a q p rest : list A) :
  q `prefix_of` p -> q <> p ->
  a ++ q `prefix_of` a ++ p ++ rest /\ a ++ q <> a ++ p ++ rest.
Proof.
  intros [k ->] Hne. split.
  - apply prefix_app. exists (k ++ rest). by rewrite app_assoc.
  - intros H. apply (inj (app a)) in H. rewrite <- app_assoc in H.
    rewrite <- (app_nil_r q) in H at 1. apply (inj (app q)) in H. symmetry in H.
    apply app_eq_nil in H as [-> _]. by rewrite app_nil_r in Hne.
Qed.

Lemma WriteFrame_fail w t p w' e :
  WriteFrame w t p = (w', Some e) ->
  exists q, w_out w' = w_out w ++ q /\ q `prefix_of` frame_bytes (mkFrame t p)
            /\ q <> frame_bytes (mkFrame t p).
Proof.
  unfold WriteFrame, frame_bytes. simpl frame_type. simpl frame_payload.
  destruct (w_write w (PutUvarint t)) as [w1 e1] eqn:E1. destruct e1 as [e1|].
  { intros [= <- <-]. apply w_write_fail in E1 as (q & Ho & Hp & Hq); [|apply PutUvarint_nonempty].
    exists q. split; [done|]. by apply (app_proper_prefix []). }
  apply w_write_spec in E1 as (q1 & Ho1 & _ & Hq1). rewrite (Hq1 eq_refl) in *.
  destruct (w_write w1 (PutUvarint (zlen p))) as [w2 e2] eqn:E2. destruct e2 as [e2|].
  { intros [= <- <-]. apply w_write_fail in E2 as (q & Ho & Hp & Hq); [|apply PutUvarint_nonempty].
    exists (PutUvarint t ++ q). rewrite Ho, Ho1, app_assoc. split; [done|]. by apply app_proper_prefix. }
  apply w_write_spec in E2 as (q2 & Ho2 & _ & Hq2). rewrite (Hq2 eq_refl) in *.
  destruct (0 <? zlen p) eqn:Ep; [|done]. intros Hw.
  apply w_write_fail in Hw as (q & Ho & Hp & Hq).
  - exists (PutUvarint t ++ PutUvarint (zlen p) ++ q).
    rewrite Ho, Ho2, Ho1, !app_assoc. split; [done|].
    rewrite <- !app_assoc, (app_assoc _ _ q), (app_assoc _ _ p), <- (app_nil_r p).
    by apply app_proper_prefix.
  - intros ->. done.
Qed.

(** A connection that is up takes the whole frame. *)
Lemma WriteFrame_unbounded out t p :
  WriteFrame (Writer out None) t p = (Writer (out ++ frame_bytes (mkFrame t p)) None, None).
Proof.
  unfold WriteFrame, frame_bytes. rewrite w_write_unbounded by done. cbv beta iota zeta.
  rewrite w_write_unbounded by done. cbn [w_out frame_type frame_payload].
  destruct (0 <? zlen p) eqn:E; zbool.
  - rewrite w_write_unbounded by done. cbn [w_out]. by rewrite <- !app_assoc.
  - assert (p = []) as -> by (apply zlen_zero; pose proof (zlen_nonneg p); lia).
    by rewrite app_nil_r, <- app_assoc.
Qed.

(** ** Properties *)

(** a frame written to the control stream is read back unchanged, whatever
    follows it on the stream: [WriteFrame] then [ReadFrame] is the identity, and the
    reader stops exactly at the end of the frame. *)
Theorem frame_roundtrip w w' f rest fin :
  wf_frame f -> WriteFrame w (frame_type f) (frame_payload f) = (w', None) ->
  exists bs, w_out w' = w_out w ++ bs
             /\ ReadFrame (Reader (bs ++ rest) fin) = Ok (f, Reader rest fin).
Proof.
  intros Hwf Hw. apply WriteFrame_spec in Hw as (q & Ho & _ & Hq).
  exists q. split; [done|]. rewrite (Hq eq_refl). destruct f. by apply ReadFrame_frame.
Qed.

Lemma frame_roundtrip_witness :
  let f := mkFrame FramePING [x61; x62] in
  exists bs, w_out (WriteFrame (Writer [] None) FramePING [x61; x62]).1 = [] ++ bs
             /\ ReadFrame (Reader (bs ++ [xff]) EEOF) = Ok (f, Reader [xff] EEOF).
Proof.
  apply (frame_roundtrip (Writer [] None) _ (mkFrame FramePING [x61; x62]) [xff] EEOF).
  - closed_arith.
  - reflexivity.
Defined.

(** a frame whose write fails part of the way is never mistaken for a frame by the
    peer: what the peer has received is a proper prefix of the frame, and reading it to
    the end of the stream gives an error, not a frame and not a panic. *)
Theorem partial_frame_never_read w t p w' e :
  is_u64 t -> small_bytes p -> WriteFrame w t p = (w', Some e) ->
  exists q, w_out w' = w_out w ++ q /\ exists e', ReadFrame (Reader q EEOF) = Err e'.
Proof.
  intros Ht Hp Hw. apply WriteFrame_fail in Hw as (q & Ho & Hpre & Hne).
  exists q. split; [done|]. by apply (proper_prefix_rejected (mkFrame t p)).
Qed.

Lemma partial_frame_never_read_witness :
  exists q, w_out (WriteFrame (Writer [] (Some 3)) FramePING [x61; x62]).1 = [] ++ q
            /\ exists e', ReadFrame (Reader q EEOF) = Err e'.
Proof.
  apply (partial_frame_never_read (Writer [] (Some 3)) FramePING [x61; x62] _ ENetClosed).
  - closed_arith.
  - closed_arith.
  - reflexivity.
Defined.



(** C27: [ReadFrame] panics exactly when the length field of the frame exceeds what the
    runtime can allocate; no other input makes it panic. The length is not checked
    before the allocation, so a peer reaches this with one frame header, before
    authentication. *)
Theorem ReadFrame_panics_iff r :
  is_panic (ReadFrame r) = true <->
  exists t r1 n r2, ReadUvarint r = Ok (t, r1) /\ ReadUvarint r1 = Ok (n, r2) /\ maxAlloc < n.
Proof.
  split.
  - intros H. destruct (ReadFrame r) eqn:E; try done. by apply ReadFrame_panic_header in E.
  - intros (t & r1 & n & r2 & H1 & H2 & Hn). unfold ReadFrame. rewrite H1. cbn [mbind res_bind].
    rewrite H2. cbn [mbind res_bind]. destruct (ReadUvarint_inv _ _ _ H2) as ([Hn0 _] & _).
    apply make_bytes_panic_iff in Hn; [|done]. by destruct (make_bytes n).
Qed.

(** Eleven bytes from an unauthenticated peer. *)
Example ReadFrame_hostile_header :
  is_panic (ReadFrame (Reader [x01; xff; xff; xff; xff; xff; xff; xff; xff; xff; x01] EEOF)) = true.
Proof. reflexivity. Qed.

Lemma DecodeAuthPayload_encode p :
  wf_auth p -> DecodeAuthPayload (EncodeAuthPayload p) = Ok p.
Proof.
  intros (Ht & Hc & Hid & Hn & Hs). unfold DecodeAuthPayload, EncodeAuthPayload, newReader.
  do 4 decode_step. rewrite <- (app_nil_r (be_put 8 (Caps p))). decode_step. by destruct p.
Qed.

(** decoding an encoded AUTH payload gives the payload back: client id, timestamp,
    nonce, signature and capabilities, with no trailing bytes. *)
Theorem auth_payload_roundtrip p :
  wf_auth p -> DecodeAuthPayload (EncodeAuthPayload p) = Ok p.
Proof. apply DecodeAuthPayload_encode. Qed.

Lemma auth_payload_roundtrip_witness :
  DecodeAuthPayload (EncodeAuthPayload (mkAuthPayload "smoke-client" 1700000000000 [x01; x02] [x03] 15))
  = Ok (mkAuthPayload "smoke-client" 1700000000000 [x01; x02] [x03] 15).
Proof. apply auth_payload_roundtrip. closed_arith. Defined.

Lemma DecodeOpenPayload_encode p :
  wf_open p -> DecodeOpenPayload (EncodeOpenPayload p) = Ok p.
Proof.
  intros (Hf & Hport & Hh & Hip). unfold DecodeOpenPayload, EncodeOpenPayload, newReader.
  do 3 decode_step. rewrite <- (app_nil_r (be_put 2 (DstPort p))). decode_step. by destruct p.
Qed.

(** decoding an encoded OPEN payload gives the payload back. *)
Theorem open_payload_roundtrip p :
  wf_open p -> DecodeOpenPayload (EncodeOpenPayload p) = Ok p.
Proof. apply DecodeOpenPayload_encode. Qed.

Lemma open_payload_roundtrip_witness :
  DecodeOpenPayload (EncodeOpenPayload (mkOpenPayload 1001 "tcp-echo" [] 9000))
  = Ok (mkOpenPayload 1001 "tcp-echo" [] 9000).
Proof. apply open_payload_roundtrip. closed_arith. Defined.

(** The remaining payloads. *)
Lemma open_ok_roundtrip p :
  is_u64 (ok_FlowID p) -> 0 <= ok_Mode p < 256 ->
  DecodeOpenOKPayload (EncodeOpenOKPayload p) = Ok p.
Proof.
  intros Hf Hm. unfold DecodeOpenOKPayload, EncodeOpenOKPayload, newReader. decode_step.
  simpl. rewrite bz_zb_small by done. by destruct p.
Qed.

Lemma close_flow_roundtrip p :
  is_u64 (cf_FlowID p) -> DecodeCloseFlowPayload (EncodeCloseFlowPayload p) = Ok p.
Proof.
  intros Hf. unfold DecodeCloseFlowPayload, EncodeCloseFlowPayload.
  rewrite zlen_be_put, be_get_put_u64 by done. by destruct p.
Qed.

Lemma tcp_data_roundtrip flowID data :
  is_u64 flowID ->
  DecodeTCPDataPayload (EncodeTCPDataPayload flowID data) = Ok (flowID, data).
Proof.
  intros Hf. unfold DecodeTCPDataPayload, EncodeTCPDataPayload.
  rewrite zlen_app, zlen_be_put. pose proof (zlen_nonneg data). zdecide.
  change 8 with (Z.of_nat 8). rewrite <- (zlen_be_put 8 flowID).
  rewrite ztake_app_exact, zdrop_app_exact. by rewrite be_get_put_u64.
Qed.
