(* ===== verification/Datagram.v ===== *)
(** * UDP datagrams ([internal/session/datagram.go])

    The datagram header, the fragmentation of a UDP payload over several QUIC
    datagrams and the reassembly buffer of the receiving side. *)

From S2P Require Import Prelude Wire Frame.

(** ** Definitions *)

Definition datagramHeaderSize : Z := 8 + 1 + 4.

Record DatagramPacket := mkPacket {
  dp_FlowID : Z; dp_Flags : Z; dp_Seq : Z; dp_Payload : list byte }.

Definition EncodeDatagramPacket (pkt : DatagramPacket) : list byte :=
  be_put 8 (dp_FlowID pkt) ++ [zb (dp_Flags pkt)] ++ be_put 4 (dp_Seq pkt) ++ dp_Payload pkt.

Definition DecodeDatagramPacket (raw : list byte) : res DatagramPacket :=
  if zlen raw <? datagramHeaderSize then Err (ENew "datagram too short")
  else Ok {| dp_FlowID := be_get (ztake 8 raw);
             dp_Flags := be_get (ztake 1 (zdrop 8 raw));
             dp_Seq := be_get (ztake 4 (zdrop 9 raw));
             dp_Payload := zdrop 13 raw |}.

(** The [for] loop of [FragmentDatagram] from offset [i]; one iteration per chunk. *)
Fixpoint fragment_loop (fuel : nat) (flowID seq : Z) (payload : list byte) (maxChunk i : Z)
  : list (list byte) :=
  match fuel with
  | O => []
  | S k =>
      if i <? zlen payload then
        let end_ := if zlen payload <? i + maxChunk then zlen payload else i + maxChunk in
        let flags := if end_ =? zlen payload
                     then Z.lor DatagramFlagFragmented DatagramFlagLast
                     else DatagramFlagFragmented in
        EncodeDatagramPacket (mkPacket flowID flags seq (ztake (end_ - i) (zdrop i payload)))
        :: fragment_loop k flowID seq payload maxChunk (i + maxChunk)
      else []
  end.

Definition FragmentDatagram (flowID seq : Z) (payload : list byte) (maxDatagramPayload : Z)
  : res (list (list byte)) :=
  if maxDatagramPayload <=? datagramHeaderSize then Err (ENew "maxDatagramPayload too small")
  else
    let maxChunk := maxDatagramPayload - datagramHeaderSize in
    if zlen payload <=? maxChunk
    then Ok [EncodeDatagramPacket (mkPacket flowID 0 seq payload)]
    else Ok (fragment_loop (S (length payload)) flowID seq payload maxChunk 0).

Record fragmentState := mkFragment { fs_data : list byte; fs_updatedAt : Z }.

Record Reassembly := mkReassembly { parts : gmap Z (gmap Z fragmentState) }.

Definition NewReassembly : Reassembly := mkReassembly ∅.

Definition reassemblyTTL : Z := 5 * Second.

Definition cleanup_flow (cutoff : Z) (bySeq : gmap Z fragmentState) : gmap Z fragmentState :=
  filter (fun kv => ~ (fs_updatedAt kv.2 < cutoff)) bySeq.

Definition cleanupLocked (now : Z) (r : Reassembly) : Reassembly :=
  let cutoff := now - reassemblyTTL in
  mkReassembly (filter (fun kv => kv.2 <> ∅) (cleanup_flow cutoff <$> parts r)).

Definition fragmented (pkt : DatagramPacket) : bool :=
  negb (Z.land (dp_Flags pkt) DatagramFlagFragmented =? 0).
Definition last_fragment (pkt : DatagramPacket) : bool :=
  negb (Z.land (dp_Flags pkt) DatagramFlagLast =? 0).

(** [Add] at time [now]: the new buffer, the payload and the [done] flag. *)
Definition Add (now : Z) (r : Reassembly) (pkt : DatagramPacket)
  : Reassembly * (list byte * bool) :=
  if negb (fragmented pkt) then (r, (dp_Payload pkt, true))
  else
    let r := cleanupLocked now r in
    let bySeq := default ∅ (parts r !! dp_FlowID pkt) in
    let st := default (mkFragment [] 0) (bySeq !! dp_Seq pkt) in
    let st := mkFragment (fs_data st ++ dp_Payload pkt) now in
    if negb (last_fragment pkt) then
      (mkReassembly (<[dp_FlowID pkt := <[dp_Seq pkt := st]> bySeq]> (parts r)), ([], false))
    else
      let bySeq := delete (dp_Seq pkt) bySeq in
      let parts' := if decide (size bySeq = 0)%nat
                    then delete (dp_FlowID pkt) (parts r)
                    else <[dp_FlowID pkt := bySeq]> (parts r) in
      (mkReassembly parts', (fs_data st, true)).

Arguments Add : simpl never.

(** ** Specification vocabulary *)

Definition wf_packet (p : DatagramPacket) : Prop :=
  is_u64 (dp_FlowID p) /\ 0 <= dp_Flags p < 256 /\ is_u32 (dp_Seq p).

Definition pkt_key (p : DatagramPacket) : Z * Z := (dp_FlowID p, dp_Seq p).

(** The fragment state the buffer holds for a flow and a sequence number. *)
Definition lookup_key (r : Reassembly) (k : Z * Z) : option fragmentState :=
  parts r !! k.1 ≫= fun bySeq => bySeq !! k.2.

(** A run of the receiver: the packets it was given with their arrival times, and the
    payloads it delivered, each with the packet that completed it. *)
Fixpoint run_adds (r : Reassembly) (tr : list (Z * DatagramPacket))
  : Reassembly * list (DatagramPacket * list byte) :=
  match tr with
  | [] => (r, [])
  | (now, pkt) :: tr =>
      let '(r, (payload, done)) := Add now r pkt in
      let '(r, out) := run_adds r tr in
      (r, if done then (pkt, payload) :: out else out)
  end.

(** The fragments of one payload, in order: every packet has the key, and exactly the
    last one has the last flag. *)
Fixpoint train (k : Z * Z) (ps : list DatagramPacket) : Prop :=
  match ps with
  | [] => False
  | [p] => pkt_key p = k /\ fragmented p = true /\ last_fragment p = true
  | p :: ps => pkt_key p = k /\ fragmented p = true /\ last_fragment p = false /\ train k ps
  end.

Definition train_payload (ps : list DatagramPacket) : list byte := concat (map dp_Payload ps).

(** The fragments of key [k] in a trace, and the deliveries they caused. *)
Definition of_key (k : Z * Z) (p : DatagramPacket) : bool :=
  fragmented p && bool_decide (pkt_key p = k).
Definition key_packets (k : Z * Z) (tr : list (Z * DatagramPacket)) : list DatagramPacket :=
  List.filter (of_key k) (map snd tr).
Definition key_deliveries (k : Z * Z) (out : list (DatagramPacket * list byte))
  : list (list byte) :=
  map snd (List.filter (fun d => of_key k d.1) out).

(** ** Lemmas: the codec *)

Lemma datagram_decode_encode p :
  wf_packet p -> DecodeDatagramPacket (EncodeDatagramPacket p) = Ok p.
Proof.
  intros (Hf & Hfl & Hs). unfold DecodeDatagramPacket, EncodeDatagramPacket, datagramHeaderSize.
  set (a := be_put 8 (dp_FlowID p)). set (b := be_put 4 (dp_Seq p)).
  assert (zlen a = 8) as Ha by apply zlen_be_put.
  assert (zlen b = 4) as Hb by apply zlen_be_put.
  rewrite !zlen_app, Ha, Hb. pose proof (zlen_nonneg (dp_Payload p)).
  change (zlen [zb (dp_Flags p)]) with 1. zdecide.
  assert (ztake 8 (a ++ [zb (dp_Flags p)] ++ b ++ dp_Payload p) = a) as ->
    by (rewrite <- Ha; apply ztake_app_exact).
  assert (zdrop 8 (a ++ [zb (dp_Flags p)] ++ b ++ dp_Payload p)
          = [zb (dp_Flags p)] ++ b ++ dp_Payload p) as ->
    by (rewrite <- Ha; apply zdrop_app_exact).
  assert (zdrop 9 (a ++ [zb (dp_Flags p)] ++ b ++ dp_Payload p) = b ++ dp_Payload p) as ->.
  { rewrite app_assoc. replace 9 with (zlen (a ++ [zb (dp_Flags p)])); [apply zdrop_app_exact|].
    rewrite zlen_app, Ha. done. }
  assert (zdrop 13 (a ++ [zb (dp_Flags p)] ++ b ++ dp_Payload p) = dp_Payload p) as ->.
  { rewrite !app_assoc. replace 13 with (zlen ((a ++ [zb (dp_Flags p)]) ++ b)).
    - apply zdrop_app_exact.
    - rewrite !zlen_app, Ha, Hb. done. }
  rewrite <- Hb at 1. rewrite ztake_app_exact.
  unfold a, b. rewrite be_get_put_u64, be_get_put_u32 by done.
  assert (be_get (ztake 1 ([zb (dp_Flags p)] ++ be_put 4 (dp_Seq p) ++ dp_Payload p))
          = dp_Flags p) as ->.
  { change (ztake 1 _) with [zb (dp_Flags p)]. rewrite be_get_cons. simpl.
    rewrite bz_zb_small by done. change (zlen []) with 0. change (be_get []) with 0. lia. }
  by destruct p.
Qed.

Lemma zlen_encode p : zlen (EncodeDatagramPacket p) = datagramHeaderSize + zlen (dp_Payload p).
Proof.
  unfold EncodeDatagramPacket, datagramHeaderSize. rewrite !zlen_app, !zlen_be_put.
  change (zlen [zb (dp_Flags p)]) with 1. lia.
Qed.

(** ** Lemmas: fragmentation *)

(** The packets the loop sends, before encoding. *)
Fixpoint fragment_packets (fuel : nat) (flowID seq : Z) (payload : list byte) (maxChunk i : Z)
  : list DatagramPacket :=
  match fuel with
  | O => []
  | S k =>
      if i <? zlen payload then
        let end_ := if zlen payload <? i + maxChunk then zlen payload else i + maxChunk in
        let flags := if end_ =? zlen payload
                     then Z.lor DatagramFlagFragmented DatagramFlagLast
                     else DatagramFlagFragmented in
        mkPacket flowID flags seq (ztake (end_ - i) (zdrop i payload))
        :: fragment_packets k flowID seq payload maxChunk (i + maxChunk)
      else []
  end.

Lemma fragment_loop_packets fuel flowID seq payload maxChunk i :
  fragment_loop fuel flowID seq payload maxChunk i
  = map EncodeDatagramPacket (fragment_packets fuel flowID seq payload maxChunk i).
Proof.
  revert i. induction fuel as [|k IH]; intros i; [done|]. simpl.
  destruct (i <? zlen payload); [|done]. simpl. by rewrite IH.
Qed.

Lemma zdrop_add {A} i j (l : list A) : 0 <= i -> 0 <= j -> zdrop j (zdrop i l) = zdrop (i + j) l.
Proof. intros. unfold zdrop. rewrite drop_drop. f_equal. lia. Qed.

(** From any offset, the loop sends a train that carries the rest of the payload in
    chunks of at most [maxChunk] bytes. *)
Lemma fragment_packets_spec fuel flowID seq payload maxChunk i :
  0 < maxChunk -> 0 <= i < zlen payload -> zlen payload - i < Z.of_nat fuel ->
  let ps := fragment_packets fuel flowID seq payload maxChunk i in
  train (flowID, seq) ps /\ train_payload ps = zdrop i payload
  /\ Forall (fun p => zlen (dp_Payload p) <= maxChunk /\ dp_Payload p <> []
                      /\ 0 <= dp_Flags p < 256) ps.
Proof.
  revert i. induction fuel as [|k IH]; intros i Hc Hi Hf; [lia|].
  cbn [fragment_packets]. rewrite (proj2 (Z.ltb_lt _ _)) by lia.
  destruct (zlen payload <? i + maxChunk) eqn:E; zbool.
  - rewrite Z.eqb_refl. rewrite ztake_all by (rewrite zlen_zdrop; lia).
    assert (fragment_packets k flowID seq payload maxChunk (i + maxChunk) = []) as ->.
    { destruct k; [done|]. simpl. by zdecide. }
    split; [done|]. split; [apply app_nil_r|]. constructor; [|done]. simpl.
    rewrite zlen_zdrop by lia. split_and!; [lia| |done..].
    apply zlen_nonempty. rewrite zlen_zdrop; lia.
  - replace (i + maxChunk - i) with maxChunk by lia.
    assert (Hchunk : zlen (ztake maxChunk (zdrop i payload)) = maxChunk).
    { rewrite zlen_ztake, zlen_zdrop by lia. lia. }
    assert (Hne : ztake maxChunk (zdrop i payload) <> []).
    { apply zlen_nonempty. lia. }
    destruct (i + maxChunk =? zlen payload) eqn:Elast; zbool.
    + assert (fragment_packets k flowID seq payload maxChunk (i + maxChunk) = []) as ->.
      { destruct k; [done|]. simpl. by zdecide. }
      rewrite ztake_all by (rewrite zlen_zdrop; lia).
      split; [done|]. split; [apply app_nil_r|]. constructor; [|done]. simpl.
      rewrite ztake_all in Hchunk, Hne by (rewrite zlen_zdrop; lia). split_and!; [lia|done..].
    + destruct (IH (i + maxChunk)) as (Ht & Hp & Hfa); [lia..|].
      set (rest := fragment_packets k flowID seq payload maxChunk (i + maxChunk)) in *.
      split; [|split].
      * destruct rest; [done|]. by split_and!.
      * change (train_payload (?p :: rest)) with (dp_Payload p ++ train_payload rest).
        rewrite Hp. cbn [dp_Payload]. rewrite <- zdrop_add by lia. apply ztake_zdrop.
      * constructor; [|done]. cbn [dp_Payload dp_Flags]. split_and!; [lia|done..].
Qed.

(** ** Lemmas: reassembly *)

(** The clean-up drops exactly the stale fragments. *)
Lemma lookup_key_cleanup now r k :
  lookup_key (cleanupLocked now r) k =
  st ← lookup_key r k; if fs_updatedAt st <? now - reassemblyTTL then None else Some st.
Proof.
  destruct k as [f s]. unfold lookup_key, cleanupLocked. simpl.
  rewrite map_lookup_filter, lookup_fmap.
  destruct (parts r !! f) as [m|]; simpl; [|done].
  assert (Hin : cleanup_flow (now - reassemblyTTL) m !! s =
    st ← m !! s; if fs_updatedAt st <? now - reassemblyTTL then None else Some st).
  { unfold cleanup_flow. rewrite map_lookup_filter. destruct (m !! s) as [st|]; simpl; [|done].
    destruct (fs_updatedAt st <? now - reassemblyTTL) eqn:E; zbool.
    - rewrite option_guard_False; [done|]. simpl. tauto.
    - rewrite option_guard_True; [done|]. simpl. lia. }
  rewrite <- Hin. case_guard as Hg; simpl; [done|].
  assert (cleanup_flow (now - reassemblyTTL) m = ∅) as ->; [|by rewrite lookup_empty].
  destruct (decide (cleanup_flow (now - reassemblyTTL) m = ∅)); [done|]. tauto.
Qed.

Lemma lookup_key_cleanup_fresh now r k st :
  lookup_key r k = Some st -> now - reassemblyTTL <= fs_updatedAt st ->
  lookup_key (cleanupLocked now r) k = Some st.
Proof. intros H Hf. rewrite lookup_key_cleanup, H. simpl. by zdecide. Qed.

Lemma lookup_key_cleanup_None now r k :
  lookup_key r k = None -> lookup_key (cleanupLocked now r) k = None.
Proof. intros H. by rewrite lookup_key_cleanup, H. Qed.

Lemma default_lookup_key r f s :
  default ∅ (parts r !! f) !! s = lookup_key r (f, s).
Proof. unfold lookup_key. simpl. by destruct (parts r !! f). Qed.

(** What [Add] does to a key it is not about, and to its own key. *)
Lemma Add_other now r pkt k :
  of_key k pkt = false ->
  lookup_key (Add now r pkt).1 k =
  (if fragmented pkt then lookup_key (cleanupLocked now r) k else lookup_key r k).
Proof.
  unfold of_key, Add. generalize (cleanupLocked now r). intros r'.
  destruct (fragmented pkt); simpl; [|done]. intros Hk. zbool.
  destruct k as [f s]. unfold pkt_key in Hk.
  destruct (last_fragment pkt); simpl; unfold lookup_key; simpl.
  - destruct (decide (f = dp_FlowID pkt)) as [->|Hf].
    + destruct (decide _) as [Hz|Hz].
      * rewrite lookup_delete_eq. simpl. symmetry.
        apply map_size_empty_iff in Hz. destruct (parts r' !! dp_FlowID pkt) as [m|] eqn:Em; [|done].
        simpl in *. destruct (decide (s = dp_Seq pkt)) as [->|Hs]; [done|].
        rewrite <- (lookup_delete_ne m (dp_Seq pkt)) by done. rewrite Hz. apply lookup_empty.
      * rewrite lookup_insert_eq. simpl. rewrite lookup_delete_ne by naive_solver.
        by destruct (parts r' !! dp_FlowID pkt).
    + destruct (decide _); [by rewrite lookup_delete_ne|by rewrite lookup_insert_ne].
  - destruct (decide (f = dp_FlowID pkt)) as [->|Hf].
    + rewrite lookup_insert_eq. simpl. rewrite lookup_insert_ne by naive_solver.
      by destruct (parts r' !! dp_FlowID pkt).
    + by rewrite lookup_insert_ne.
Qed.

Definition key_data (r : Reassembly) (k : Z * Z) : list byte :=
  default [] (fs_data <$> lookup_key r k).

Lemma Add_own now r pkt :
  fragmented pkt = true ->
  let r' := cleanupLocked now r in
  let data := key_data r' (pkt_key pkt) ++ dp_Payload pkt in
  if last_fragment pkt
  then (Add now r pkt).2 = (data, true) /\ lookup_key (Add now r pkt).1 (pkt_key pkt) = None
  else (Add now r pkt).2 = ([], false)
       /\ lookup_key (Add now r pkt).1 (pkt_key pkt) = Some (mkFragment data now).
Proof.
  intros Hf r' data.
  assert (Hd : fs_data (default (mkFragment [] 0) (default ∅ (parts r' !! dp_FlowID pkt) !! dp_Seq pkt))
               = key_data r' (pkt_key pkt)).
  { rewrite default_lookup_key. unfold key_data, pkt_key.
    by destruct (lookup_key r' (dp_FlowID pkt, dp_Seq pkt)). }
  unfold Add. rewrite Hf. cbn [negb]. fold r'. clearbody r'. rewrite Hd. fold data. clearbody data.
  unfold pkt_key. destruct (last_fragment pkt); simpl; (split; [done|]); unfold lookup_key; simpl.
  - destruct (decide _).
    + by rewrite lookup_delete_eq.
    + rewrite lookup_insert_eq. simpl. apply lookup_delete_eq.
  - rewrite lookup_insert_eq. simpl. apply lookup_insert_eq.
Qed.

(** The receiver's view of a key inside a window of [reassemblyTTL]: every fragment
    held was received at or after [t0]. *)
Definition fresh_key (t0 : Z) (r : Reassembly) (k : Z * Z) : Prop :=
  forall st, lookup_key r k = Some st -> t0 <= fs_updatedAt st.

Lemma cleanup_key_data t0 now r k :
  fresh_key t0 r k -> now <= t0 + reassemblyTTL ->
  key_data (cleanupLocked now r) k = key_data r k
  /\ lookup_key (cleanupLocked now r) k = lookup_key r k.
Proof.
  intros Hfr Hn. unfold key_data.
  destruct (lookup_key r k) as [st|] eqn:E.
  - rewrite (lookup_key_cleanup_fresh _ _ _ st); [done|done|]. specialize (Hfr st E). lia.
  - by rewrite lookup_key_cleanup_None.
Qed.

Lemma of_key_true k p : of_key k p = true -> fragmented p = true /\ pkt_key p = k.
Proof. unfold of_key. intros H. by zbool. Qed.

(** A run that gives key [k] the rest [ps] of a train delivers, for that key, the data
    already held followed by the payload of [ps], once. *)
Lemma run_adds_train k t0 tr : forall r ps,
  Forall (fun tp => t0 <= tp.1 <= t0 + reassemblyTTL) tr ->
  fresh_key t0 r k -> train k ps -> key_packets k tr = ps ->
  key_deliveries k (run_adds r tr).2 = [key_data r k ++ train_payload ps].
Proof.
  assert (Hnone : forall tr r, key_packets k tr = [] -> key_deliveries k (run_adds r tr).2 = []).
  { clear. induction tr as [|[now pkt] tr IH]; intros r Hk; [done|].
    unfold key_packets in Hk. simpl in Hk. destruct (of_key k pkt) eqn:Ek; [done|]. simpl.
    destruct (Add now r pkt) as [r1 [pl dn]]. specialize (IH r1 Hk).
    destruct (run_adds r1 tr) as [r2 out]. simpl in *.
    destruct dn; unfold key_deliveries in *; simpl; [by rewrite Ek|done]. }
  induction tr as [|[now pkt] tr IH]; intros r ps Ht Hfr Htr Hps.
  { unfold key_packets in Hps. simpl in Hps. by subst ps. }
  apply Forall_cons in Ht as [Hnow Ht]. simpl in Hnow.
  destruct (cleanup_key_data t0 now r k Hfr) as [Hkd Hkl]; [lia|].
  unfold key_packets in Hps. simpl in Hps. destruct (of_key k pkt) eqn:Ek.
  - apply of_key_true in Ek as Hk. destruct Hk as [Hfrag Hkey].
    pose proof (Add_own now r pkt Hfrag) as Hown. simpl in Hown. rewrite Hkey, Hkd in Hown.
    destruct ps as [|p ps]; [done|]. injection Hps as <- Hps. simpl run_adds.
    destruct (Add now r pkt) as [r1 [pl dn]]. simpl in Hown.
    destruct ps as [|p2 ps].
    + destruct Htr as (_ & _ & Hlast). rewrite Hlast in Hown. destruct Hown as [[= -> ->] Hl].
      pose proof (Hnone tr r1 Hps) as Hn.
      destruct (run_adds r1 tr) as [r2 out]. simpl in *. unfold key_deliveries in *. simpl.
      rewrite Ek. simpl. rewrite Hn. unfold train_payload. simpl. by rewrite app_nil_r.
    + destruct Htr as (_ & _ & Hnl & Htr). rewrite Hnl in Hown. destruct Hown as [[= -> ->] Hl].
      assert (Hfr1 : fresh_key t0 r1 k).
      { intros st. rewrite Hl. intros [= <-]. simpl. lia. }
      pose proof (IH r1 _ Ht Hfr1 Htr Hps) as Hih.
      destruct (run_adds r1 tr) as [r2 out]. simpl in *. rewrite Hih.
      unfold key_data at 1. rewrite Hl. simpl. by rewrite <- app_assoc.
  - pose proof (Add_other now r pkt k Ek) as Ho. simpl run_adds.
    destruct (Add now r pkt) as [r1 [pl dn]]. simpl in Ho.
    assert (Hl : lookup_key r1 k = lookup_key r k).
    { rewrite Ho. by destruct (fragmented pkt). }
    assert (Hfr1 : fresh_key t0 r1 k) by (intros st; rewrite Hl; apply Hfr).
    pose proof (IH r1 ps Ht Hfr1 Htr Hps) as Hih.
    destruct (run_adds r1 tr) as [r2 out]. simpl in *.
    assert (key_data r1 k = key_data r k) as Hd by (unfold key_data; by rewrite Hl).
    rewrite <- Hd, <- Hih. destruct dn; [|done]. unfold key_deliveries. simpl. by rewrite Ek.
Qed.

(** ** Lemmas: fragmentation *)

Lemma FragmentDatagram_ok flowID seq payload limit :
  is_u64 flowID -> is_u32 seq -> datagramHeaderSize < limit ->
  exists raws ps,
    FragmentDatagram flowID seq payload limit = Ok raws
    /\ Forall (fun raw => zlen raw <= limit) raws
    /\ Forall2 (fun raw p => DecodeDatagramPacket raw = Ok p) raws ps
    /\ train_payload ps = payload
    /\ (ps = [mkPacket flowID 0 seq payload] \/ train (flowID, seq) ps).
Proof.
  intros Hf Hs Hl. unfold FragmentDatagram. zdecide.
  destruct (zlen payload <=? limit - datagramHeaderSize) eqn:E; zbool.
  - eexists _, [mkPacket flowID 0 seq payload]. split; [done|].
    split; [repeat constructor; rewrite zlen_encode; simpl; lia|].
    split; [repeat constructor; apply datagram_decode_encode; by split_and!|].
    split; [apply app_nil_r|by left].
  - destruct (fragment_packets_spec (S (length payload)) flowID seq payload
                (limit - datagramHeaderSize) 0) as (Ht & Hp & Hfa);
      [lia|split; [lia|]; unfold datagramHeaderSize in *; lia|unfold zlen; lia|].
    eexists _, _. split; [done|]. rewrite fragment_loop_packets.
    split; [|split; [|split; [exact Hp|right; exact Ht]]].
    + apply Forall_map. eapply Forall_impl; [exact Hfa|]. simpl. intros p (Hc & _).
      rewrite zlen_encode. lia.
    + apply Forall2_fmap_l, Forall_Forall2_diag.
      apply Forall_forall. intros p Hin. apply datagram_decode_encode.
      pose proof (proj1 (Forall_forall _ _) Hfa p Hin) as (_ & _ & Hflags).
      assert (pkt_key p = (flowID, seq)) as Hkey.
      { clear -Ht Hin. revert Ht Hin. generalize (fragment_packets (S (length payload)) flowID seq
          payload (limit - datagramHeaderSize) 0). intros l.
        induction l as [|a [|b l] IH]; intros Ht Hin.
        - by apply not_elem_of_nil in Hin.
        - apply list_elem_of_singleton in Hin as ->. by destruct Ht.
        - destruct Ht as (Ha & _ & _ & Ht). apply elem_of_cons in Hin as [->|Hin]; [done|].
          by apply IH. }
      unfold pkt_key in Hkey. injection Hkey as H1 H2. unfold wf_packet. rewrite H1, H2. done.
Qed.

(** ** Properties *)

(** a datagram packet is decoded back unchanged from its encoding. *)
Theorem datagram_roundtrip p :
  wf_packet p -> DecodeDatagramPacket (EncodeDatagramPacket p) = Ok p.
Proof. apply datagram_decode_encode. Qed.

Lemma datagram_roundtrip_witness :
  DecodeDatagramPacket (EncodeDatagramPacket (mkPacket 7 3 65536 [x01; x02]))
  = Ok (mkPacket 7 3 65536 [x01; x02]).
Proof. apply datagram_roundtrip. closed_arith. Defined.

(** fragmentation respects the datagram size limit and loses nothing. For every
    payload and every limit above the header size, [FragmentDatagram] succeeds; every
    datagram it produces fits the limit; and decoding them gives either the whole
    payload in one unfragmented packet, or a train of packets whose concatenated
    payloads are the payload. *)
Theorem fragment_datagram_spec flowID seq payload limit :
  is_u64 flowID -> is_u32 seq -> datagramHeaderSize < limit ->
  exists raws ps,
    FragmentDatagram flowID seq payload limit = Ok raws
    /\ Forall (fun raw => zlen raw <= limit) raws
    /\ Forall2 (fun raw p => DecodeDatagramPacket raw = Ok p) raws ps
    /\ train_payload ps = payload
    /\ (ps = [mkPacket flowID 0 seq payload] \/ train (flowID, seq) ps).
Proof. apply FragmentDatagram_ok. Qed.

Lemma fragment_datagram_spec_witness :
  exists raws ps,
    FragmentDatagram 5 9 [x01; x02; x03; x04; x05] 15 = Ok raws
    /\ Forall (fun raw => zlen raw <= 15) raws
    /\ Forall2 (fun raw p => DecodeDatagramPacket raw = Ok p) raws ps
    /\ train_payload ps = [x01; x02; x03; x04; x05]
    /\ (ps = [mkPacket 5 0 9 [x01; x02; x03; x04; x05]] \/ train (5, 9) ps).
Proof. apply (fragment_datagram_spec 5 9 [x01; x02; x03; x04; x05] 15); closed_arith. Defined.

(** reassembly is correct under arbitrary interleaving. If, within one
    reassembly window (5 s), the fragments of a payload arrive in the order they were
    sent, interleaved with any other packets of any other flows and sequence numbers,
    then the buffer delivers for this flow and sequence number exactly one payload,
    and it is the payload that was fragmented. *)
Theorem reassembly_interleaved r t0 tr k ps :
  train k ps -> key_packets k tr = ps -> lookup_key r k = None ->
  Forall (fun tp => t0 <= tp.1 <= t0 + reassemblyTTL) tr ->
  key_deliveries k (run_adds r tr).2 = [train_payload ps].
Proof.
  intros Ht Hk Hn Htr. rewrite (run_adds_train k t0 tr r ps); try done.
  - unfold key_data. by rewrite Hn.
  - intros st. by rewrite Hn.
Qed.

Lemma reassembly_interleaved_witness :
  key_deliveries (5, 9) (run_adds NewReassembly
    [(10, mkPacket 5 1 9 [x01]); (20, mkPacket 6 3 9 [x77]); (30, mkPacket 5 3 9 [x02])]).2
  = [[x01; x02]].
Proof.
  apply (reassembly_interleaved NewReassembly 10 _ (5, 9)
           [mkPacket 5 1 9 [x01]; mkPacket 5 3 9 [x02]]); try reflexivity.
  - simpl. split_and!; reflexivity.
  - repeat constructor; vm_compute; congruence.
Defined.

(** the order of arrival matters and is not checked. A fragment carries no index,
    so when the last fragment of a payload arrives first it is delivered at once, as if
    it were the whole payload. *)
Theorem reassembly_last_fragment_first now r pkt :
  fragmented pkt = true -> last_fragment pkt = true -> lookup_key r (pkt_key pkt) = None ->
  (Add now r pkt).2 = (dp_Payload pkt, true).
Proof.
  intros Hf Hl Hn. pose proof (Add_own now r pkt Hf) as H. rewrite Hl in H. simpl in H.
  destruct H as [-> _]. unfold key_data. by rewrite lookup_key_cleanup_None.
Qed.

Lemma reassembly_last_fragment_first_witness :
  (Add 0 NewReassembly (mkPacket 5 3 9 [x02])).2 = ([x02], true).
Proof. apply reassembly_last_fragment_first; reflexivity. Defined.

(** The two fragments of a payload in the other order: two deliveries, neither of them
    the payload. *)
Example reassembly_swapped :
  run_adds NewReassembly [(1, mkPacket 5 3 9 [x02]); (2, mkPacket 5 1 9 [x01])]
  = (mkReassembly {[5 := {[9 := mkFragment [x01] 2]}]}, [(mkPacket 5 3 9 [x02], [x02])]).
Proof. vm_compute. reflexivity. Qed.
