(* ===== verification/GoString.v ===== *)
(** * Strings and text encodings

    What the code uses of Go's [strings], [strconv], [encoding/hex], [encoding/base64]
    and of the address formatting of [net]. Everything is a function of byte lists;
    the [string] versions are wrappers. Letters outside ASCII are left alone by the
    case conversions: the strings the code converts (HTTP methods, flag and environment
    values compared with ASCII constants, host names) are ASCII. *)

From S2P Require Import Prelude.

(** ** Characters *)

Definition ch (b : Z) (c : byte) : bool := bz c =? b.
Definition is_digit (c : byte) : bool := (48 <=? bz c) && (bz c <=? 57).
Definition is_upper (c : byte) : bool := (65 <=? bz c) && (bz c <=? 90).
Definition is_lower (c : byte) : bool := (97 <=? bz c) && (bz c <=? 122).

Definition lower_byte (c : byte) : byte := if is_upper c then zb (bz c + 32) else c.
Definition upper_byte (c : byte) : byte := if is_lower c then zb (bz c - 32) else c.

Definition ToLower (s : string) : string := string_of_bytes (map lower_byte (bytes_of_string s)).
Definition ToUpper (s : string) : string := string_of_bytes (map upper_byte (bytes_of_string s)).

(** ** [strings.TrimSpace]: the white space of [unicode.IsSpace], in UTF-8 *)

Definition space_encodings : list (list byte) :=
  [ [x09]; [x0a]; [x0b]; [x0c]; [x0d]; [x20];
    [xc2; x85]; [xc2; xa0]; [xe1; x9a; x80];
    [xe2; x80; x80]; [xe2; x80; x81]; [xe2; x80; x82]; [xe2; x80; x83];
    [xe2; x80; x84]; [xe2; x80; x85]; [xe2; x80; x86]; [xe2; x80; x87];
    [xe2; x80; x88]; [xe2; x80; x89]; [xe2; x80; x8a];
    [xe2; x80; xa8]; [xe2; x80; xa9]; [xe2; x80; xaf]; [xe2; x81; x9f]; [xe3; x80; x80] ].

Fixpoint strip_prefix (pre l : list byte) : option (list byte) :=
  match pre, l with
  | [], _ => Some l
  | p :: pre, x :: l => if bool_decide (p = x) then strip_prefix pre l else None
  | _ :: _, [] => None
  end.

Fixpoint strip_any (encs : list (list byte)) (l : list byte) : option (list byte) :=
  match encs with
  | [] => None
  | e :: encs => match strip_prefix e l with Some r => Some r | None => strip_any encs l end
  end.

Fixpoint trim_loop (fuel : nat) (encs : list (list byte)) (l : list byte) : list byte :=
  match fuel with
  | O => l
  | S k => match strip_any encs l with Some r => trim_loop k encs r | None => l end
  end.

Definition trim_left (l : list byte) : list byte := trim_loop (length l) space_encodings l.
Definition trim_right (l : list byte) : list byte :=
  rev (trim_loop (length l) (map (@rev byte) space_encodings) (rev l)).
Definition trim_bytes (l : list byte) : list byte := trim_right (trim_left l).
Definition TrimSpace (s : string) : string := string_of_bytes (trim_bytes (bytes_of_string s)).

(** [strings.TrimRight(s, "/")] and [strings.HasPrefix]/[TrimPrefix]. *)
Fixpoint drop_while (p : byte -> bool) (l : list byte) : list byte :=
  match l with
  | [] => []
  | x :: l' => if p x then drop_while p l' else l
  end.
Definition HasPrefix (s pre : string) : bool :=
  match strip_prefix (bytes_of_string pre) (bytes_of_string s) with Some _ => true | None => false end.
Definition TrimPrefix (s pre : string) : string :=
  match strip_prefix (bytes_of_string pre) (bytes_of_string s) with
  | Some r => string_of_bytes r
  | None => s
  end.

(** [strings.IndexByte], [LastIndexByte] and [Split] on one byte. *)
Fixpoint index_byte (c : byte) (l : list byte) : option nat :=
  match l with
  | [] => None
  | x :: l => if bool_decide (x = c) then Some 0%nat else S <$> index_byte c l
  end.
Fixpoint last_index_byte (c : byte) (l : list byte) : option nat :=
  match l with
  | [] => None
  | x :: l => match last_index_byte c l with
              | Some i => Some (S i)
              | None => if bool_decide (x = c) then Some 0%nat else None
              end
  end.
Fixpoint split_byte (c : byte) (l : list byte) : list (list byte) :=
  match l with
  | [] => [[]]
  | x :: l =>
      if bool_decide (x = c) then [] :: split_byte c l
      else match split_byte c l with
           | [] => [[x]]
           | p :: ps => (x :: p) :: ps
           end
  end.

(** ** Decimal numbers *)

Definition digit (d : Z) : byte := zb (48 + d).

(** The digits of [n], most significant first; 20 digits hold every [uint64]. *)
Fixpoint dec_loop (fuel : nat) (n : Z) (acc : list byte) : list byte :=
  match fuel with
  | O => acc
  | S k => if n <? 10 then digit n :: acc else dec_loop k (n / 10) (digit (n mod 10) :: acc)
  end.
Definition FormatUint (n : Z) : list byte := dec_loop 20 n [].
Definition FormatInt (n : Z) : list byte :=
  if n <? 0 then x2d :: FormatUint (- n) else FormatUint n.

(** [strconv.ParseInt(s, 10, 64)] and [strconv.Atoi]. *)
Fixpoint parse_digits (l : list byte) (acc : Z) : option Z :=
  match l with
  | [] => Some acc
  | c :: l => if is_digit c then parse_digits l (acc * 10 + (bz c - 48)) else None
  end.
Definition parse_uint (l : list byte) : option Z :=
  match l with [] => None | _ => parse_digits l 0 end.
Definition ParseInt (l : list byte) : res Z :=
  let '(neg, digits) :=
    match l with
    | x2b :: l' => (false, l')
    | x2d :: l' => (true, l')
    | _ => (false, l)
    end in
  match parse_uint digits with
  | None => Err (ENew "invalid syntax")
  | Some un =>
      if neg then if 2 ^ 63 <? un then Err (ENew "value out of range") else Ok (- un)
      else if 2 ^ 63 <=? un then Err (ENew "value out of range") else Ok un
  end.
Definition Atoi (s : string) : res Z := ParseInt (bytes_of_string s).

(** ** Hexadecimal *)

Definition hex_digit (d : Z) : byte := if d <? 10 then zb (48 + d) else zb (87 + d).
Definition hex_byte (b : byte) : list byte := [hex_digit (bz b / 16); hex_digit (bz b mod 16)].
Definition hex_encode (l : list byte) : list byte := concat (map hex_byte l).

Definition hex_value (c : byte) : option Z :=
  if is_digit c then Some (bz c - 48)
  else if (97 <=? bz c) && (bz c <=? 102) then Some (bz c - 87)
  else if (65 <=? bz c) && (bz c <=? 70) then Some (bz c - 55)
  else None.
Fixpoint hex_decode (l : list byte) : option (list byte) :=
  match l with
  | [] => Some []
  | [_] => None
  | a :: b :: l =>
      match hex_value a, hex_value b, hex_decode l with
      | Some h, Some lo, Some r => Some (zb (h * 16 + lo) :: r)
      | _, _, _ => None
      end
  end.

(** ** Base64 *)

Definition b64_value (c : byte) : option Z :=
  if is_upper c then Some (bz c - 65)
  else if is_lower c then Some (bz c - 71)
  else if is_digit c then Some (bz c + 4)
  else if ch 43 c then Some 62
  else if ch 47 c then Some 63
  else None.

Definition b64_bytes (a b c d : Z) (n : nat) : list byte :=
  let v := Z.lor (Z.lor (Z.shiftl a 18) (Z.shiftl b 12)) (Z.lor (Z.shiftl c 6) d) in
  take n [zb (Z.shiftr v 16); zb (Z.shiftr v 8); zb v].

(** One quantum at a time, on input without line breaks; [pad] tells [StdEncoding]
    from [RawStdEncoding]. *)
Fixpoint b64_quanta (pad : bool) (l : list byte) : option (list byte) :=
  match l with
  | [] => Some []
  | [a; b] =>
      if pad then None
      else match b64_value a, b64_value b with
           | Some x, Some y => Some (b64_bytes x y 0 0 1)
           | _, _ => None
           end
  | [a; b; c] =>
      if pad then None
      else match b64_value a, b64_value b, b64_value c with
           | Some x, Some y, Some z => Some (b64_bytes x y z 0 2)
           | _, _, _ => None
           end
  | a :: b :: c :: d :: rest =>
      match b64_value a, b64_value b with
      | Some x, Some y =>
          match b64_value c with
          | Some z =>
              match b64_value d with
              | Some t => (fun r => b64_bytes x y z t 3 ++ r) <$> b64_quanta pad rest
              | None => if pad && ch 61 d && bool_decide (rest = [])
                        then Some (b64_bytes x y z 0 2) else None
              end
          | None => if pad && ch 61 c && ch 61 d && bool_decide (rest = [])
                    then Some (b64_bytes x y 0 0 1) else None
          end
      | _, _ => None
      end
  | [_] => None
  end.
Definition b64_decode (pad : bool) (l : list byte) : option (list byte) :=
  b64_quanta pad (List.filter (fun c => negb (ch 10 c || ch 13 c)) l).

(** ** Addresses of [net] *)

Definition JoinHostPort (host port : list byte) : list byte :=
  match index_byte x3a host with
  | Some _ => [x5b] ++ host ++ [x5d; x3a] ++ port
  | None => host ++ [x3a] ++ port
  end.

Definition SplitHostPort (hp : list byte) : res (list byte * list byte) :=
  let fin (host port : list byte) (j k : nat) : res (list byte * list byte) :=
    if bool_decide (is_Some (index_byte x5b (drop j hp)))
    then Err (ENew "unexpected '[' in address")
    else if bool_decide (is_Some (index_byte x5d (drop k hp)))
    then Err (ENew "unexpected ']' in address")
    else Ok (host, port) in
  match last_index_byte x3a hp with
  | None => Err (ENew "missing port in address")
  | Some i =>
      match hp with
      | x5b :: _ =>
          match index_byte x5d hp with
          | None => Err (ENew "missing ']' in address")
          | Some e =>
              if decide (S e = length hp) then Err (ENew "missing port in address")
              else if decide (S e = i)
              then fin (take (e - 1) (drop 1 hp)) (drop (S i) hp) 1%nat (S e)
              else Err (ENew (if bool_decide (hp !! S e = Some x3a)
                              then "too many colons in address" else "missing port in address"))
          end
      | _ =>
          let host := take i hp in
          if bool_decide (is_Some (index_byte x3a host))
          then Err (ENew "too many colons in address")
          else fin host (drop (S i) hp) 0%nat 0%nat
      end
  end.

(** [net.IP.String]: dotted decimal for 4 bytes and for IPv4-mapped addresses, the
    compressed form for 16 bytes, a marker and hexadecimal digits otherwise. *)
Definition dotted (l : list byte) : list byte :=
  match map (fun b => FormatUint (bz b)) l with
  | [] => []
  | p :: ps => p ++ concat (map (fun q => x2e :: q) ps)
  end.

Fixpoint ip6_groups (l : list byte) : list Z :=
  match l with
  | a :: b :: l => (bz a * 256 + bz b) :: ip6_groups l
  | _ => []
  end.

Fixpoint zero_run (l : list Z) : nat :=
  match l with 0 :: l => S (zero_run l) | _ => O end.

(** The leftmost longest run of at least two zero groups: its start and length. *)
Fixpoint best_run (i : nat) (l : list Z) (best : nat * nat) : nat * nat :=
  match l with
  | [] => best
  | _ :: l' =>
      let n := zero_run l in
      best_run (S i) l' (if decide (2 <= n /\ best.2 < n)%nat then (i, n) else best)
  end.

Fixpoint hex_loop (fuel : nat) (n : Z) (acc : list byte) : list byte :=
  match fuel with
  | O => acc
  | S k => if n <? 16 then hex_digit n :: acc
           else hex_loop k (n / 16) (hex_digit (n mod 16) :: acc)
  end.
Definition FormatHex (n : Z) : list byte := hex_loop 16 n [].

Definition join_colon (l : list Z) : list byte :=
  match map FormatHex l with
  | [] => []
  | p :: ps => p ++ concat (map (fun q => x3a :: q) ps)
  end.

Definition ip_string (ip : list byte) : list byte :=
  if decide (length ip = 0)%nat then bytes_of_string "<nil>"
  else if decide (length ip = 4)%nat then dotted ip
  else if decide (length ip = 16)%nat then
    if bool_decide (take 12 ip = replicate 10 x00 ++ [xff; xff]) then dotted (drop 12 ip)
    else
      let gs := ip6_groups ip in
      let '(s, n) := best_run 0 gs (0, 0)%nat in
      if decide (n = 0)%nat then join_colon gs
      else join_colon (take s gs) ++ [x3a; x3a] ++ join_colon (drop (s + n) gs)
  else [x3f] ++ hex_encode ip.

(** ** Checks against known values *)

Example trim_ex : TrimSpace "  a b	 " = "a b"%string.
Proof. vm_compute. reflexivity. Qed.
Example format_ex : FormatInt (-1700) = bytes_of_string "-1700".
Proof. vm_compute. reflexivity. Qed.
Example b64_ex : b64_decode true (bytes_of_string "c21va2Utc2VjcmV0") = Some (bytes_of_string "smoke-secret").
Proof. vm_compute. reflexivity. Qed.
Example b64_pad_ex : b64_decode true (bytes_of_string "YQ==") = Some (bytes_of_string "a")
  /\ b64_decode false (bytes_of_string "YQ") = Some (bytes_of_string "a").
Proof. vm_compute. done. Qed.
Example ip6_ex : ip_string ([x20; x01; x0d; xb8] ++ replicate 11 x00 ++ [x01])
  = bytes_of_string "2001:db8::1".
Proof. vm_compute. reflexivity. Qed.
Example ip4_ex : ip_string [x7f; x00; x00; x01] = bytes_of_string "127.0.0.1".
Proof. vm_compute. reflexivity. Qed.
Example join_ex : JoinHostPort (bytes_of_string "::1") (bytes_of_string "80") = bytes_of_string "[::1]:80".
Proof. vm_compute. reflexivity. Qed.

(** ** Lemmas *)

Lemma bz_digit d : 0 <= d < 10 -> bz (digit d) = 48 + d.
Proof. intros. unfold digit. apply bz_zb_small. lia. Qed.

Lemma is_digit_digit d : 0 <= d < 10 -> is_digit (digit d) = true.
Proof. intros. unfold is_digit. rewrite bz_digit by done. by zdecide. Qed.

Lemma parse_digits_app l k acc :
  parse_digits (l ++ k) acc = parse_digits l acc ≫= parse_digits k.
Proof.
  revert acc. induction l as [|c l IH]; intros acc; [done|]. simpl.
  destruct (is_digit c); [apply IH|done].
Qed.

Lemma dec_loop_app fuel n acc : dec_loop fuel n acc = dec_loop fuel n [] ++ acc.
Proof.
  revert n acc. induction fuel as [|k IH]; intros n acc; [done|]. simpl.
  destruct (n <? 10); [done|]. rewrite (IH _ (_ :: acc)), (IH _ [_]), <- app_assoc. done.
Qed.

Lemma parse_dec_loop fuel n :
  0 <= n < 10 ^ Z.of_nat fuel -> (0 < fuel)%nat ->
  parse_digits (dec_loop fuel n []) 0 = Some n /\ dec_loop fuel n [] <> []
  /\ Forall (fun c => is_digit c = true) (dec_loop fuel n []).
Proof.
  revert n. induction fuel as [|k IH]; intros n Hn Hk; [lia|]. simpl dec_loop.
  destruct (n <? 10) eqn:E; zbool.
  - simpl. rewrite is_digit_digit, bz_digit by lia. split_and!; [f_equal; lia|done|].
    repeat constructor. apply is_digit_digit. lia.
  - rewrite dec_loop_app, parse_digits_app.
    pose proof (Z.mod_pos_bound n 10 ltac:(lia)).
    destruct (IH (n / 10)) as (Hp & Hne & Hd).
    { rewrite Nat2Z.inj_succ, Z.pow_succ_r in Hn by lia. split; [apply Z.div_pos; lia|].
      apply Z.div_lt_upper_bound; lia. }
    { destruct k; [|lia]. simpl in Hn. lia. }
    rewrite Hp. simpl. rewrite is_digit_digit, bz_digit by done. split_and!.
    + f_equal. rewrite (Z.div_mod n 10) at 3 by lia. lia.
    + by destruct (dec_loop k (n / 10) []).
    + apply Forall_app. split; [done|]. repeat constructor. by apply is_digit_digit.
Qed.

Lemma parse_FormatUint n :
  is_u64 n -> parse_digits (FormatUint n) 0 = Some n /\ FormatUint n <> []
              /\ Forall (fun c => is_digit c = true) (FormatUint n).
Proof. intros Hn. apply parse_dec_loop; [|lia]. unfold is_u64 in Hn. lia. Qed.

Lemma FormatUint_inj a b : is_u64 a -> is_u64 b -> FormatUint a = FormatUint b -> a = b.
Proof.
  intros Ha Hb H. destruct (parse_FormatUint a Ha) as [Pa _].
  destruct (parse_FormatUint b Hb) as [Pb _]. rewrite H, Pb in Pa. congruence.
Qed.

Lemma head_digit_not_sign c : is_digit c = true -> c <> x2b /\ c <> x2d.
Proof. split; intros ->; done. Qed.

Lemma ParseInt_unsigned l c k :
  l = c :: k -> is_digit c = true ->
  ParseInt l = match parse_uint l with
               | None => Err (ENew "invalid syntax")
               | Some un => if 2 ^ 63 <=? un then Err (ENew "value out of range") else Ok un
               end.
Proof.
  intros -> Hc. apply head_digit_not_sign in Hc as [H1 H2]. unfold ParseInt. by destruct c.
Qed.

(** Printing then parsing an [int64] is the identity. *)
Lemma ParseInt_FormatInt n : is_int64 n -> ParseInt (FormatInt n) = Ok n.
Proof.
  intros Hn. unfold FormatInt. unfold is_int64 in Hn. destruct (n <? 0) eqn:E; zbool.
  - assert (Hu : is_u64 (- n)) by (unfold is_u64; lia).
    destruct (parse_FormatUint (- n) Hu) as (Hp & Hne & _). unfold ParseInt, parse_uint.
    destruct (FormatUint (- n)); [done|]. rewrite Hp. zdecide. f_equal. lia.
  - assert (Hu : is_u64 n) by (unfold is_u64; lia).
    destruct (parse_FormatUint n Hu) as (Hp & Hne & Hd).
    destruct (FormatUint n) as [|c k] eqn:Ef; [done|]. rewrite Forall_cons in Hd.
    rewrite (ParseInt_unsigned _ c k) by (done || apply Hd). unfold parse_uint. rewrite Hp. by zdecide.
Qed.

Lemma hex_byte_decode b l :
  hex_decode (hex_byte b ++ l) = (fun r => b :: r) <$> hex_decode l.
Proof. destruct b; simpl; by destruct (hex_decode l). Qed.

Lemma hex_decode_encode l : hex_decode (hex_encode l) = Some l.
Proof.
  induction l as [|b l IH]; [done|]. unfold hex_encode in *. cbn [map concat].
  by rewrite hex_byte_decode, IH.
Qed.

Lemma hex_encode_inj a b : hex_encode a = hex_encode b -> a = b.
Proof.
  intros H. pose proof (hex_decode_encode a) as Ha. rewrite H, hex_decode_encode in Ha. congruence.
Qed.

Lemma hex_decode_length l r : hex_decode l = Some r -> length l = (2 * length r)%nat.
Proof.
  revert r. induction l as [l IH] using (induction_ltof1 _ (@length byte)).
  unfold ltof in IH. intros r. destruct l as [|a [|b l]]; simpl; try done.
  - by intros [= <-].
  - destruct (hex_value a), (hex_value b), (hex_decode l) as [k|] eqn:E; try done.
    intros [= <-]. simpl. rewrite (IH l ltac:(simpl; lia) k E). lia.
Qed.

(** Separators: text that avoids a byte can be cut out at that byte. *)
Definition avoids (c : byte) (l : list byte) : Prop := Forall (fun x => x <> c) l.

Lemma avoids_app c l k : avoids c (l ++ k) <-> avoids c l /\ avoids c k.
Proof. apply Forall_app. Qed.

Lemma digits_avoid_bar l : Forall (fun c => is_digit c = true) l -> avoids x7c l.
Proof. intros Hl. eapply Forall_impl; [exact Hl|]. intros c H ->. done. Qed.

Lemma hex_avoid_bar l : avoids x7c (hex_encode l).
Proof.
  induction l as [|b l IH]; [constructor|]. unfold hex_encode in *. cbn [map concat].
  apply avoids_app. split; [|done]. destruct b; repeat constructor; discriminate.
Qed.

Lemma FormatUint_avoid_bar n : is_u64 n -> avoids x7c (FormatUint n).
Proof. intros H. apply digits_avoid_bar. by apply parse_FormatUint. Qed.

Lemma FormatInt_avoid_bar n : is_int64 n -> avoids x7c (FormatInt n).
Proof.
  intros H. unfold FormatInt. case_on; zbool.
  - constructor; [discriminate|]. apply FormatUint_avoid_bar. unfold is_int64, is_u64 in *. lia.
  - apply FormatUint_avoid_bar. unfold is_int64, is_u64 in *. lia.
Qed.

Lemma first_separator_unique c l1 r1 l2 r2 :
  avoids c l1 -> avoids c l2 -> l1 ++ c :: r1 = l2 ++ c :: r2 -> l1 = l2 /\ r1 = r2.
Proof.
  intros H1. revert l2. induction H1 as [|x l1 Hx H1 IH]; intros l2 H2 He.
  - destruct H2 as [|y l2 Hy H2]; simpl in He; [by injection He as ->|].
    injection He as <- _. done.
  - destruct H2 as [|y l2 Hy H2]; simpl in He; injection He as -> He; [done|].
    apply IH in He as [-> ->]; done.
Qed.

Lemma last_separator_unique c l1 r1 l2 r2 :
  avoids c r1 -> avoids c r2 -> l1 ++ c :: r1 = l2 ++ c :: r2 -> l1 = l2 /\ r1 = r2.
Proof.
  intros H1 H2 He. apply (f_equal (@rev byte)) in He. rewrite !rev_app_distr in He. simpl in He.
  rewrite <- !app_assoc in He. simpl in He.
  apply first_separator_unique in He as [Hr Hl].
  - apply (f_equal (@rev byte)) in Hr, Hl. by rewrite !rev_involutive in *.
  - apply Forall_rev. done.
  - apply Forall_rev. done.
Qed.

(** ** Text without white space *)

Definition visible (c : byte) : bool := (33 <=? bz c) && (bz c <? 127).
Definition all_visible (l : list byte) : Prop := Forall (fun c => visible c = true) l.

Lemma strip_any_visible encs l :
  Forall (fun e => match e with [] => false | h :: _ => negb (visible h) end = true) encs -> all_visible l ->
  strip_any encs l = None.
Proof.
  intros He Hl. induction He as [|e encs He _ IH]; [done|]. cbn [strip_any]. destruct e as [|h e]; [done|].
  apply negb_true_iff in He. destruct Hl as [|x l Hx Hl]; [exact IH|]. cbn [strip_prefix].
  rewrite bool_decide_eq_false_2; [exact IH|]. congruence.
Qed.

Lemma trim_loop_visible fuel encs l :
  Forall (fun e => match e with [] => false | h :: _ => negb (visible h) end = true) encs -> all_visible l ->
  trim_loop fuel encs l = l.
Proof. intros He Hl. destruct fuel; [done|]. cbn [trim_loop]. by rewrite strip_any_visible. Qed.

Lemma trim_bytes_visible l : all_visible l -> trim_bytes l = l.
Proof.
  intros Hl. unfold trim_bytes, trim_right, trim_left.
  rewrite (trim_loop_visible _ space_encodings l) by (done || by repeat constructor).
  rewrite trim_loop_visible; [apply rev_involutive|by repeat constructor|by apply Forall_rev].
Qed.

Lemma TrimSpace_visible l : all_visible l -> TrimSpace (string_of_bytes l) = string_of_bytes l.
Proof. intros Hl. unfold TrimSpace. by rewrite bytes_string_bytes, trim_bytes_visible. Qed.

Lemma digits_visible l : Forall (fun c => is_digit c = true) l -> all_visible l.
Proof. intros H. eapply Forall_impl; [exact H|]. intros c. by destruct c. Qed.

Lemma FormatInt_visible n : is_int64 n -> all_visible (FormatInt n).
Proof.
  intros Hn. unfold FormatInt. unfold is_int64 in Hn. case_match; zbool.
  - constructor; [done|]. apply digits_visible, parse_FormatUint. unfold is_u64. lia.
  - apply digits_visible, parse_FormatUint. unfold is_u64. lia.
Qed.

Lemma hex_digit_visible d : 0 <= d < 16 -> visible (hex_digit d) = true /\ hex_digit d <> x2d /\ hex_value (hex_digit d) = Some d.
Proof.
  intros Hd. assert (Hc : d = 0 \/ d = 1 \/ d = 2 \/ d = 3 \/ d = 4 \/ d = 5 \/ d = 6 \/ d = 7 \/ d = 8 \/ d = 9 \/ d = 10
    \/ d = 11 \/ d = 12 \/ d = 13 \/ d = 14 \/ d = 15) by lia.
  repeat (destruct Hc as [->|Hc]; [split_and!; [reflexivity|discriminate|reflexivity]|]). subst d. split_and!; [reflexivity|discriminate|reflexivity].
Qed.

Lemma hex_encode_visible l : all_visible (hex_encode l).
Proof. unfold all_visible, hex_encode. induction l as [|b l IH]; [constructor|]. cbn [map concat]. apply Forall_app. split; [by destruct b; repeat constructor|done]. Qed.

(** The value of hexadecimal digits, most significant first. *)
Definition hex_number (l : list byte) (acc : Z) : Z := foldl (fun a c => a * 16 + default 0 (hex_value c)) acc l.

Lemma hex_loop_app fuel : forall n acc, hex_loop fuel n acc = hex_loop fuel n [] ++ acc.
Proof.
  induction fuel as [|k IH]; intros n acc; [done|]. cbn [hex_loop].
  destruct (n <? 16); [done|]. rewrite (IH _ (_ :: acc)), (IH _ [_]), <- app_assoc. done.
Qed.

Lemma hex_loop_spec fuel : forall n, 0 <= n < 16 ^ Z.of_nat fuel -> (0 < fuel)%nat ->
  hex_number (hex_loop fuel n []) 0 = n /\ all_visible (hex_loop fuel n []) /\ avoids x2d (hex_loop fuel n []) /\ hex_loop fuel n [] <> [].
Proof.
  induction fuel as [|k IH]; intros n Hn Hk; [lia|]. cbn [hex_loop]. destruct (n <? 16) eqn:E; zbool.
  - destruct (hex_digit_visible n) as (H1 & H2 & H3); [lia|]. unfold hex_number. cbn. rewrite H3. split_and!; [done| | |done]; by repeat constructor.
  - rewrite hex_loop_app. rewrite Nat2Z.inj_succ, Z.pow_succ_r in Hn by lia.
    destruct (IH (n / 16)) as (H1 & H2 & H3 & H4).
    { split; [apply Z.div_pos; lia|apply Z.div_lt_upper_bound; lia]. }
    { destruct k; [cbn in Hn; lia|lia]. }
    destruct (hex_digit_visible (n mod 16)) as (D1 & D2 & D3); [apply Z.mod_pos_bound; lia|]. split_and!.
    + unfold hex_number in *. rewrite foldl_app, H1. cbn. rewrite D3. cbn. pose proof (Z.div_mod n 16). lia.
    + apply Forall_app. split; [done|]. by repeat constructor.
    + apply avoids_app. split; [done|]. by repeat constructor.
    + by destruct (hex_loop k (n / 16) []).
Qed.

Lemma FormatHex_spec n : is_u64 n -> all_visible (FormatHex n) /\ avoids x2d (FormatHex n) /\ hex_number (FormatHex n) 0 = n.
Proof. intros Hn. unfold FormatHex. destruct (hex_loop_spec 16 n) as (H1 & H2 & H3 & _); [exact Hn|lia|done]. Qed.

Lemma string_of_bytes_inj a b : string_of_bytes a = string_of_bytes b -> a = b.
Proof. intros E. by rewrite <- (bytes_string_bytes a), E, bytes_string_bytes. Qed.
