(* ===== verification/Crypto.v ===== *)
(** * SHA-256 and HMAC

    What the code uses of [crypto/sha256] and [crypto/hmac]: the functions of FIPS 180-4
    and FIPS 198-1 on byte lists, executable, so that the signatures of the protocol
    can be computed. No theorem assumes anything about them beyond the length of a
    digest. *)

From S2P Require Import Prelude Wire GoString.

Definition word (z : Z) : Z := z mod 2 ^ 32.
Definition rotr (n x : Z) : Z := Z.lor (Z.shiftr x n) (word (Z.shiftl x (32 - n))).

(** The constants of FIPS 180-4 are the first 32 bits of the fractional parts of the cube
    roots of the first 64 primes and of the square roots of the first 8. *)
Definition is_prime (n : nat) : bool :=
  forallb (fun d => negb (Nat.eqb (Nat.modulo n d) 0)) (seq 2 (n - 2)).
Definition primes : list Z := map Z.of_nat (List.filter is_prime (seq 2 310)).

(** The integer cube root, bit by bit from bit [k - 1] down. *)
Fixpoint cube_root (k : nat) (n r : Z) : Z :=
  match k with
  | O => r
  | S k => let r' := r + 2 ^ Z.of_nat k in cube_root k n (if r' ^ 3 <=? n then r' else r)
  end.

Definition sha_K : list Z :=
  Eval vm_compute in map (fun p => word (cube_root 40 (p * 2 ^ 96) 0)) primes.
Definition sha_init : list Z :=
  Eval vm_compute in map (fun p => word (Z.sqrt (p * 2 ^ 64))) (take 8 primes).

Definition sha_pad (m : list byte) : list byte :=
  let zeros := Z.to_nat ((55 - zlen m) mod 64) in
  m ++ [x80] ++ replicate zeros x00 ++ be_put 8 (8 * zlen m).

Fixpoint words_of (n : nat) (l : list byte) : list Z :=
  match n with
  | O => []
  | S k => be_get (take 4 l) :: words_of k (drop 4 l)
  end.

(** The message schedule, kept newest first: [w] is the reversed schedule so far. *)
Fixpoint sha_schedule (n : nat) (w : list Z) : list Z :=
  match n with
  | O => w
  | S k =>
      let w2 := nth 1 w 0 in
      let w7 := nth 6 w 0 in
      let w15 := nth 14 w 0 in
      let w16 := nth 15 w 0 in
      let s0 := Z.lxor (Z.lxor (rotr 7 w15) (rotr 18 w15)) (Z.shiftr w15 3) in
      let s1 := Z.lxor (Z.lxor (rotr 17 w2) (rotr 19 w2)) (Z.shiftr w2 10) in
      sha_schedule k (word (w16 + s0 + w7 + s1) :: w)
  end.

Definition sha_round (st : list Z) (kw : Z * Z) : list Z :=
  match st with
  | [a; b; c; d; e; f; g; h] =>
      let s1 := Z.lxor (Z.lxor (rotr 6 e) (rotr 11 e)) (rotr 25 e) in
      let ch := Z.lxor (Z.land e f) (Z.land (Z.lxor e (2 ^ 32 - 1)) g) in
      let t1 := word (h + s1 + ch + kw.1 + kw.2) in
      let s0 := Z.lxor (Z.lxor (rotr 2 a) (rotr 13 a)) (rotr 22 a) in
      let maj := Z.lxor (Z.lxor (Z.land a b) (Z.land a c)) (Z.land b c) in
      let t2 := word (s0 + maj) in
      [word (t1 + t2); a; b; c; word (d + t1); e; f; g]
  | _ => st
  end.

Definition sha_block (st : list Z) (block : list byte) : list Z :=
  let w := rev (sha_schedule 48 (rev (words_of 16 block))) in
  zip_with (fun a b => word (a + b)) st (foldl sha_round st (zip sha_K w)).

Fixpoint sha_blocks (n : nat) (st : list Z) (l : list byte) : list Z :=
  match n with
  | O => st
  | S k => sha_blocks k (sha_block st (take 64 l)) (drop 64 l)
  end.

(** [sha256.Sum256]. *)
Definition Sum256 (m : list byte) : list byte :=
  let p := sha_pad m in
  concat (map (be_put 4) (sha_blocks (Nat.div (length p) 64) sha_init p)).

Definition xor_pad (v : Z) (key : list byte) : list byte := map (fun b => zb (Z.lxor (bz b) v)) key.

(** [hmac.New(sha256.New, key)], one [Write] and [Sum(nil)]. *)
Definition hmac_sha256 (key msg : list byte) : list byte :=
  let key := if 64 <? zlen key then Sum256 key else key in
  let key := key ++ replicate (64 - length key) x00 in
  Sum256 (xor_pad 0x5c key ++ Sum256 (xor_pad 0x36 key ++ msg)).

(** [hmac.Equal] compares in constant time; its result is equality. *)
Definition hmac_Equal (a b : list byte) : bool := bool_decide (a = b).

(** ** Checks against published test vectors *)

Example sha256_abc : hex_encode (Sum256 (bytes_of_string "abc"))
  = bytes_of_string "ba7816bf8f01cfea414140de5dae2223b00361a396177a9cb410ff61f20015ad".
Proof. vm_compute. reflexivity. Qed.

Example sha256_two_blocks :
  hex_encode (Sum256 (bytes_of_string "abcdbcdecdefdefgefghfghighijhijkijkljklmklmnlmnomnopnopq"))
  = bytes_of_string "248d6a61d20638b8e5c026930c3e6039a33ce45964ff2167f6ecedd419db06c1".
Proof. vm_compute. reflexivity. Qed.

(** RFC 4231, test case 2. *)
Example hmac_rfc4231 :
  hex_encode (hmac_sha256 (bytes_of_string "Jefe") (bytes_of_string "what do ya want for nothing?"))
  = bytes_of_string "5bdcc146bf60754e6a042426089575c75a003f089d2739839dec58b964ec3843".
Proof. vm_compute. reflexivity. Qed.

(** ** Lemmas *)

Lemma length_sha_round st kw : length st = 8%nat -> length (sha_round st kw) = 8%nat.
Proof. do 9 (destruct st as [|? st]; try done). Qed.

Lemma length_sha_rounds l : forall st, length st = 8%nat -> length (foldl sha_round st l) = 8%nat.
Proof. induction l as [|kw l IH]; intros st H; [done|]. simpl. by apply IH, length_sha_round. Qed.

Lemma length_sha_block st b : length st = 8%nat -> length (sha_block st b) = 8%nat.
Proof.
  intros H. unfold sha_block. rewrite length_zip_with, (length_sha_rounds _ st) by done. lia.
Qed.

Lemma length_sha_blocks n : forall st l, length st = 8%nat -> length (sha_blocks n st l) = 8%nat.
Proof. induction n as [|k IH]; intros st l H; [done|]. by apply IH, length_sha_block. Qed.

Lemma length_Sum256 m : length (Sum256 m) = 32%nat.
Proof.
  unfold Sum256. set (st := sha_blocks _ _ _).
  assert (length st = 8%nat) as H by (by apply length_sha_blocks). clearbody st.
  do 9 (destruct st as [|? st]; try done).
Qed.

Lemma length_hmac_sha256 key msg : length (hmac_sha256 key msg) = 32%nat.
Proof. apply length_Sum256. Qed.

Lemma hmac_Equal_eq a b : hmac_Equal a b = true -> b = a.
Proof. unfold hmac_Equal. intros H. by apply bool_decide_eq_true in H. Qed.

Lemma hmac_Equal_refl a : hmac_Equal a a = true.
Proof. by apply bool_decide_eq_true. Qed.
