(* ===== verification/Auth.v ===== *)
(** * Authentication ([internal/auth])

    The replay cache ([replay.go]), the secret formats ([secret_format.go]), the static
    secret provider ([secrets.go]) and the verifier of session and HTTP requests
    ([verifier.go]). The verifier is written against the [SecretProvider] interface.
    A call takes the current time as an argument, which is what [nowFn] returns; the
    hooks of the verifier are a log of the calls made to them. *)

From Stdlib Require Import Sorting.Sorted.
From S2P Require Import Prelude Wire GoString Crypto.

(** ** The replay cache *)

Definition ErrReplay : goerr := ESentinel "replayed nonce".

Record ReplayCache := mkReplayCache { rc_ttl : Z; rc_items : gmap string (gmap string Z) }.

Definition NewReplayCache (ttl : Z) : ReplayCache := mkReplayCache ttl ∅.

Definition CheckAndStore (r : ReplayCache) (clientID nonce : string) (now : Z)
  : ReplayCache * option goerr :=
  let clientNonces := default ∅ (rc_items r !! clientID) in
  let cutoff := now + int64 (- rc_ttl r) in
  let clientNonces := filter (fun kv => ~ (kv.2 < cutoff)) clientNonces in
  let replayed := match clientNonces !! nonce with
                  | Some ts => cutoff <? ts
                  | None => false
                  end in
  if replayed
  then (mkReplayCache (rc_ttl r) (<[clientID := clientNonces]> (rc_items r)), Some ErrReplay)
  else (mkReplayCache (rc_ttl r) (<[clientID := <[nonce := now]> clientNonces]> (rc_items r)), None).

(** ** Secrets *)

Definition base64SecretPrefix : string := "b64:".

Definition ParseSecretString (raw : string) : res (list byte) :=
  let secret := TrimSpace raw in
  if String.eqb secret "" then Err (ENew "secret is empty")
  else if HasPrefix secret base64SecretPrefix then
    let encoded := TrimSpace (TrimPrefix secret base64SecretPrefix) in
    if String.eqb encoded "" then Err (ENew "b64 secret payload is empty")
    else
      let decoded := match b64_decode true (bytes_of_string encoded) with
                     | Some d => Some d
                     | None => b64_decode false (bytes_of_string encoded)
                     end in
      match decoded with
      | None => Err (EWrap "decode b64 secret" (ENew "illegal base64 data"))
      | Some d => if zlen d =? 0 then Err (ENew "decoded b64 secret is empty") else Ok d
      end
  else Ok (bytes_of_string secret).

Definition ErrUnknownClient : goerr := ESentinel "unknown client".

(** The interface the verifier relies on. *)
Class SecretProvider (P : Type) := SecretFor : P -> string -> res (list byte).

Record StaticSecretProvider := mkStaticSecrets { sp_secrets : gmap string (list byte) }.

(** The loop over the configured secrets; [l] lists the map in iteration order. *)
Fixpoint parse_secrets (l : list (string * string)) (cp : gmap string (list byte))
  : res (gmap string (list byte)) :=
  match l with
  | [] => Ok cp
  | (k, v) :: l =>
      parsed ← wrap_err "parse secret for client" (ParseSecretString v);
      parse_secrets l (<[k := parsed]> cp)
  end.
Definition NewStaticSecretProvider (secrets : gmap string string) : res StaticSecretProvider :=
  cp ← parse_secrets (map_to_list secrets) ∅; Ok (mkStaticSecrets cp).

#[global] Instance StaticSecretFor : SecretProvider StaticSecretProvider := fun p clientID =>
  match sp_secrets p !! clientID with
  | None => Err ErrUnknownClient
  | Some secret => Ok secret
  end.

(** ** The verifier *)

Definition ErrMissingHeaders : goerr := ESentinel "missing auth headers".
Definition ErrClockSkew : goerr := ESentinel "clock skew exceeded".
Definition ErrBadSignature : goerr := ESentinel "invalid signature".

Inductive hook_call := OnAuthFail (clientID : string) | OnReplayDrop (clientID : string).

(** [v_hooks] tells whether the hooks are set; [v_calls] logs the calls made to them. *)
Record Verifier (P : Type) := mkVerifier {
  v_secrets : P; v_replay : ReplayCache; v_clockSkew : Z;
  v_hooks : bool; v_calls : list hook_call }.
Arguments mkVerifier {P}.
Arguments v_secrets {P}.
Arguments v_replay {P}.
Arguments v_clockSkew {P}.
Arguments v_hooks {P}.
Arguments v_calls {P}.

(** What a verifier reads of an HTTP request: [rq_header] is [Header.Get]. *)
Record http_request := mkRequest {
  rq_method : string; rq_path : string; rq_query : string -> string; rq_header : string -> string }.

Definition computeHMAC (secret payload : list byte) : list byte := hmac_sha256 secret payload.
Definition HashBody (body : list byte) : list byte := hex_encode (Sum256 body).

Definition bar : byte := x7c.

Definition SessionAuthMaterial (clientID : string) (tsMS : Z) (nonce : list byte) (caps : Z)
  : list byte :=
  let nonceHex := hex_encode nonce in
  bytes_of_string "AUTH" ++ bar :: bytes_of_string clientID ++ bar :: FormatUint tsMS
  ++ bar :: nonceHex ++ bar :: FormatUint caps.

(** The string that [VerifyHTTP] signs. *)
Definition http_material (method path : string) (tsMS : Z) (nonce : string) (bodyHash : list byte)
  : list byte :=
  bytes_of_string (ToUpper method) ++ bar :: bytes_of_string path ++ bar :: FormatInt tsMS
  ++ bar :: bytes_of_string nonce ++ bar :: bodyHash.

Definition EncodeUint64 (v : Z) : list byte := be_put 8 v.

Section Verifier.
  Context {P : Type} `{SecretProvider P}.
  Implicit Types v : Verifier P.

Definition NewVerifier (secrets : P) (replay : ReplayCache) (clockSkew : Z) (hooks : bool)
  : Verifier P := mkVerifier secrets replay clockSkew hooks [].

Definition markAuthFail v (clientID : string) : Verifier P :=
  if v_hooks v
  then mkVerifier (v_secrets v) (v_replay v) (v_clockSkew v) true (v_calls v ++ [OnAuthFail clientID])
  else v.
Definition markReplay v (clientID : string) : Verifier P :=
  if v_hooks v
  then mkVerifier (v_secrets v) (v_replay v) (v_clockSkew v) true (v_calls v ++ [OnReplayDrop clientID])
  else v.

Definition set_replay v (r : ReplayCache) : Verifier P :=
  mkVerifier (v_secrets v) r (v_clockSkew v) (v_hooks v) (v_calls v).

(** The skew test of both verifiers. *)
Definition skew_exceeded (clockSkew now reqTime : Z) : bool :=
  let skew := time_Sub now reqTime in (clockSkew <? skew) || (skew <? int64 (- clockSkew)).

(** The common tail: look the nonce up, store it, count a replay. *)
Definition check_replay v (clientID nonce : string) (now : Z) : Verifier P * option goerr :=
  let '(replay, err) := CheckAndStore (v_replay v) clientID nonce now in
  let v := set_replay v replay in
  match err with
  | Some e =>
      (if err_is e ErrReplay then markReplay v clientID else markAuthFail v clientID, Some e)
  | None => (v, None)
  end.

Definition VerifyHTTP v (now : Z) (r : http_request) (body : list byte)
  : Verifier P * res string :=
  let clientID := TrimSpace (rq_header r "X-VLF-Client") in
  let tsRaw := TrimSpace (rq_header r "X-VLF-TS") in
  let nonce := TrimSpace (rq_header r "X-VLF-Nonce") in
  let sigHex := TrimSpace (rq_header r "X-VLF-Sig") in
  if String.eqb clientID "" || String.eqb tsRaw "" || String.eqb nonce "" || String.eqb sigHex ""
  then (markAuthFail v clientID, Err ErrMissingHeaders)
  else match ParseInt (bytes_of_string tsRaw) with
  | Err e => (markAuthFail v clientID, Err (EWrap "parse X-VLF-TS" e))
  | Panic m => (v, Panic m)
  | Ok tsMS =>
      if skew_exceeded (v_clockSkew v) now (UnixMilli tsMS)
      then (markAuthFail v clientID, Err ErrClockSkew)
      else match SecretFor (v_secrets v) clientID with
      | Err e => (markAuthFail v clientID, Err e)
      | Panic m => (v, Panic m)
      | Ok secret =>
          let bodyHash := HashBody body in
          let material := http_material (rq_method r) (rq_path r) tsMS nonce bodyHash in
          let expected := computeHMAC secret material in
          match hex_decode (bytes_of_string sigHex) with
          | None => (markAuthFail v clientID, Err (EWrap "decode signature" (ENew "invalid hex")))
          | Some providedSig =>
              if negb (hmac_Equal expected providedSig)
              then (markAuthFail v clientID, Err ErrBadSignature)
              else let '(v, err) := check_replay v clientID nonce now in
                   match err with
                   | Some e => (v, Err e)
                   | None => (v, Ok clientID)
                   end
          end
      end
  end.

Definition SignSession v (clientID : string) (tsMS : Z) (nonce : list byte) (caps : Z)
  : res (list byte) :=
  secret ← SecretFor (v_secrets v) clientID;
  Ok (computeHMAC secret (SessionAuthMaterial clientID tsMS nonce caps)).

Definition VerifySession v (now : Z) (clientID : string) (tsMS : Z) (nonce sig : list byte)
    (caps : Z) : Verifier P * res unit :=
  if String.eqb clientID "" || (zlen nonce =? 0) || (zlen sig =? 0)
  then (markAuthFail v clientID, Err ErrMissingHeaders)
  else if (zlen nonce <? 12) || (32 <? zlen nonce)
  then (markAuthFail v clientID, Err (ENew "nonce size must be 12..32"))
  else if skew_exceeded (v_clockSkew v) now (UnixMilli (int64 tsMS))
  then (markAuthFail v clientID, Err ErrClockSkew)
  else match SecretFor (v_secrets v) clientID with
  | Err e => (markAuthFail v clientID, Err e)
  | Panic m => (v, Panic m)
  | Ok secret =>
      let expected := computeHMAC secret (SessionAuthMaterial clientID tsMS nonce caps) in
      if negb (hmac_Equal expected sig)
      then (markAuthFail v clientID, Err ErrBadSignature)
      else let nonceKey := string_of_bytes (hex_encode nonce) in
           let '(v, err) := check_replay v clientID nonceKey now in
           match err with
           | Some e => (v, Err e)
           | None => (v, Ok tt)
           end
  end.
End Verifier.

(** ** Lemmas: the replay cache *)

(** When a client last used a nonce, as far as the cache remembers. *)
Definition seen (r : ReplayCache) (c n : string) : option Z :=
  rc_items r !! c ≫= fun m => m !! n.

Definition wf_ttl (ttl : Z) : Prop := 0 < ttl < 2 ^ 63.

Lemma cutoff_eq ttl now : wf_ttl ttl -> now + int64 (- ttl) = now - ttl.
Proof. intros H. rewrite int64_small; [lia|]. unfold is_int64, wf_ttl in *. lia. Qed.

Lemma default_seen r c n : default ∅ (rc_items r !! c) !! n = seen r c n.
Proof. unfold seen. by destruct (rc_items r !! c). Qed.

Definition purge (cutoff : Z) (o : option Z) : option Z :=
  ts ← o; if ts <? cutoff then None else Some ts.

Lemma purge_lookup cutoff (m : gmap string Z) n :
  filter (fun kv => ~ (kv.2 < cutoff)) m !! n = purge cutoff (m !! n).
Proof.
  rewrite map_lookup_filter. destruct (m !! n) as [ts|]; simpl; [|done].
  destruct (ts <? cutoff) eqn:E; zbool.
  - rewrite option_guard_False; [done|]. simpl. tauto.
  - rewrite option_guard_True; [done|]. simpl. lia.
Qed.

(** [CheckAndStore] rejects exactly the nonces seen less than [ttl] ago; an accepted
    nonce is remembered with the current time. *)
Lemma CheckAndStore_result r c n now :
  wf_ttl (rc_ttl r) ->
  (CheckAndStore r c n now).2 =
  match seen r c n with
  | Some ts => if now - rc_ttl r <? ts then Some ErrReplay else None
  | None => None
  end.
Proof.
  intros Ht. unfold CheckAndStore. rewrite cutoff_eq, purge_lookup, default_seen by done.
  destruct (seen r c n) as [ts|]; simpl; [|done].
  destruct (ts <? now - rc_ttl r) eqn:E; zbool.
  - destruct (now - rc_ttl r <? ts) eqn:E2; zbool; [lia|done].
  - by destruct (now - rc_ttl r <? ts).
Qed.

Lemma CheckAndStore_ttl r c n now : rc_ttl (CheckAndStore r c n now).1 = rc_ttl r.
Proof. unfold CheckAndStore. by destruct (match _ with Some _ => _ | None => _ end). Qed.

Lemma CheckAndStore_seen_own r c n now :
  (CheckAndStore r c n now).2 = None -> seen (CheckAndStore r c n now).1 c n = Some now.
Proof.
  unfold CheckAndStore, seen.
  destruct (match filter _ _ !! _ with Some _ => _ | None => _ end); simpl; [done|]. intros _.
  by rewrite lookup_insert_eq; simpl; rewrite lookup_insert_eq.
Qed.

(** A remembered use survives every later call made within [ttl] of it, and is only
    replaced by a later one. *)
Lemma CheckAndStore_keeps r c n c' n' now ts :
  wf_ttl (rc_ttl r) -> seen r c n = Some ts -> ts <= now -> now - rc_ttl r <= ts ->
  exists ts', seen (CheckAndStore r c' n' now).1 c n = Some ts' /\ ts <= ts' <= now.
Proof.
  intros Ht Hs Hle Hk.
  assert (Hp : purge (now - rc_ttl r) (seen r c n) = Some ts) by (rewrite Hs; simpl; by zdecide).
  unfold CheckAndStore. rewrite cutoff_eq by done.
  destruct (match _ with Some _ => _ | None => _ end); simpl; unfold seen; simpl.
  - destruct (decide (c' = c)) as [->|Hc].
    + rewrite lookup_insert_eq. simpl. rewrite purge_lookup, default_seen, Hp. exists ts. split; [done|lia].
    + rewrite lookup_insert_ne by done. exists ts. split; [exact Hs|lia].
  - destruct (decide (c' = c)) as [->|Hc].
    + rewrite lookup_insert_eq. simpl. destruct (decide (n' = n)) as [->|Hn].
      * rewrite lookup_insert_eq. exists now. split; [done|lia].
      * rewrite lookup_insert_ne by done. rewrite purge_lookup, default_seen, Hp. exists ts. split; [done|lia].
    + rewrite lookup_insert_ne by done. exists ts. split; [exact Hs|lia].
Qed.

(** ** Lemmas: the skew test *)

Lemma skew_ok_bounds clockSkew now t :
  0 <= clockSkew < maxDuration -> skew_exceeded clockSkew now t = false ->
  - clockSkew <= now - t <= clockSkew.
Proof.
  unfold skew_exceeded, time_Sub, maxDuration, minDuration. intros Hc H. zbool.
  rewrite int64_small in * by (unfold is_int64; lia). lia.
Qed.

Lemma skew_within clockSkew now t :
  0 <= clockSkew < maxDuration -> - clockSkew <= now - t <= clockSkew ->
  skew_exceeded clockSkew now t = false.
Proof.
  unfold skew_exceeded, time_Sub, maxDuration, minDuration. intros Hc H.
  rewrite int64_small by (unfold is_int64; lia). apply orb_false_intro; zdecide; done.
Qed.

(** ** Lemmas: the verifier *)

Section VerifierFacts.
  Context {P : Type} `{SecretProvider P}.
  Implicit Types v : Verifier P.

(** Everything but the replay cache and the hook log is fixed. *)
Definition same_setup v v' : Prop :=
  v_secrets v' = v_secrets v /\ v_clockSkew v' = v_clockSkew v
  /\ rc_ttl (v_replay v') = rc_ttl (v_replay v).

Lemma markAuthFail_spec v c : same_setup v (markAuthFail v c) /\ v_replay (markAuthFail v c) = v_replay v.
Proof. unfold same_setup, markAuthFail. by destruct (v_hooks v). Qed.

Lemma markReplay_spec v c : same_setup v (markReplay v c) /\ v_replay (markReplay v c) = v_replay v.
Proof. unfold same_setup, markReplay. by destruct (v_hooks v). Qed.

Lemma check_replay_replay v c n now :
  v_replay (check_replay v c n now).1 = (CheckAndStore (v_replay v) c n now).1.
Proof.
  unfold check_replay. destruct (CheckAndStore (v_replay v) c n now) as [r [e|]]; simpl; [|done].
  destruct (err_is e ErrReplay).
  - by destruct (markReplay_spec (set_replay v r) c) as [_ ->].
  - by destruct (markAuthFail_spec (set_replay v r) c) as [_ ->].
Qed.

Lemma check_replay_err v c n now :
  (check_replay v c n now).2 = (CheckAndStore (v_replay v) c n now).2.
Proof. unfold check_replay. by destruct (CheckAndStore (v_replay v) c n now) as [r [e|]]. Qed.

Lemma check_replay_setup v c n now : same_setup v (check_replay v c n now).1.
Proof.
  pose proof (CheckAndStore_ttl (v_replay v) c n now) as Ht. unfold check_replay.
  destruct (CheckAndStore (v_replay v) c n now) as [r [e|]]; simpl in *; [|by split_and!].
  destruct (err_is e ErrReplay); unfold markReplay, markAuthFail; simpl;
    destruct (v_hooks v); by split_and!.
Qed.

(** A call of either verifier, as a step of the shared state. *)
Inductive auth_call :=
| CallSession (clientID : string) (tsMS : Z) (nonce sig : list byte) (caps : Z)
| CallHTTP (r : http_request) (body : list byte).

Definition auth_step v (now : Z) (c : auth_call) : Verifier P :=
  match c with
  | CallSession id ts n s caps => (VerifySession v now id ts n s caps).1
  | CallHTTP r body => (VerifyHTTP v now r body).1
  end.

Fixpoint auth_run v (calls : list (Z * auth_call)) : Verifier P :=
  match calls with
  | [] => v
  | (now, c) :: calls => auth_run (auth_step v now c) calls
  end.

(** Each step leaves the cache alone or makes one [CheckAndStore] call at its time. *)
Lemma auth_step_cases v now c :
  same_setup v (auth_step v now c) /\
  (v_replay (auth_step v now c) = v_replay v \/
   exists id n, v_replay (auth_step v now c) = (CheckAndStore (v_replay v) id n now).1).
Proof.
  assert (Hm : forall id, same_setup v (markAuthFail v id) /\
    (v_replay (markAuthFail v id) = v_replay v \/
     exists id' n, v_replay (markAuthFail v id) = (CheckAndStore (v_replay v) id' n now).1)).
  { intros id. destruct (markAuthFail_spec v id). auto. }
  assert (Hc : forall id n, same_setup v (check_replay v id n now).1 /\
    (v_replay (check_replay v id n now).1 = v_replay v \/
     exists id' n', v_replay (check_replay v id n now).1 = (CheckAndStore (v_replay v) id' n' now).1)).
  { intros id n. split; [apply check_replay_setup|]. right. exists id, n. apply check_replay_replay. }
  assert (Hv : same_setup v v /\ (v_replay v = v_replay v \/
    exists id' n, v_replay v = (CheckAndStore (v_replay v) id' n now).1)).
  { split; [done|by left]. }
  destruct c as [id ts n s caps|r body]; simpl; [unfold VerifySession|unfold VerifyHTTP];
    repeat (case_on; try apply Hm; try apply Hv); simpl;
    match goal with Heq : check_replay ?v ?id ?n ?now = (?x, _) |- _ =>
      replace x with (check_replay v id n now).1 by (by rewrite Heq); apply Hc end.
Qed.

(** A remembered use survives any run of calls that stays within [ttl] of it. *)
Lemma auth_run_keeps calls : forall v c n ts t0 now,
  wf_ttl (rc_ttl (v_replay v)) -> now - rc_ttl (v_replay v) <= ts ->
  (exists ts', seen (v_replay v) c n = Some ts' /\ ts <= ts' <= t0) ->
  t0 <= now -> StronglySorted Z.le (t0 :: map fst calls ++ [now]) ->
  same_setup v (auth_run v calls) /\
  exists ts', seen (v_replay (auth_run v calls)) c n = Some ts' /\ ts <= ts' <= now.
Proof.
  induction calls as [|[t call] calls IH]; intros v c n ts t0 now Ht Hk (ts' & Hs & Hle) Hnow Hsort; simpl.
  { split; [done|]. exists ts'. split; [done|lia]. }
  apply StronglySorted_inv in Hsort as [Hsort Hall]. simpl in Hsort.
  apply Forall_cons in Hall as [Ht0 _]. simpl in Ht0.
  assert (Htn : t <= now).
  { apply StronglySorted_inv in Hsort as [_ Hall]. apply Forall_app in Hall as [_ Hall].
    by apply Forall_cons in Hall as [? _]. }
  destruct (auth_step_cases v t call) as [(Hp & Hsk & Hrt) Hcase].
  destruct (IH (auth_step v t call) c n ts t now) as [(Hp' & Hsk' & Hrt') Hex].
  - by rewrite Hrt.
  - by rewrite Hrt.
  - destruct Hcase as [->|(id & n' & ->)]; [exists ts'; split; [done|lia]|].
    destruct (CheckAndStore_keeps (v_replay v) c n id n' t ts' Ht Hs) as (t'' & Hs'' & ?); [lia|lia|].
    exists t''. split; [done|lia].
  - done.
  - done.
  - split; [|done]. unfold same_setup. split_and!; congruence.
Qed.

(** The branch structure of [VerifySession]: it accepts exactly when its guards pass, the
    signature is the expected one and the replay check accepts. *)
Lemma VerifySession_ok_inv v now id ts n s caps v' :
  VerifySession v now id ts n s caps = (v', Ok tt) ->
  id <> "" /\ 12 <= zlen n <= 32
  /\ skew_exceeded (v_clockSkew v) now (UnixMilli (int64 ts)) = false
  /\ (exists secret, SecretFor (v_secrets v) id = Ok secret
       /\ s = computeHMAC secret (SessionAuthMaterial id ts n caps))
  /\ check_replay v id (string_of_bytes (hex_encode n)) now = (v', None).
Proof.
  unfold VerifySession. intros Hv.
  destruct (String.eqb id "" || _ || _) eqn:E1; [done|].
  destruct ((zlen n <? 12) || _) eqn:E2; [done|].
  destruct (skew_exceeded _ _ _) eqn:E3; [done|].
  destruct (SecretFor (v_secrets v) id) as [secret|e|m] eqn:E4; try done.
  destruct (negb (hmac_Equal _ s)) eqn:E5; [done|].
  destruct (check_replay v id _ now) as [v1 [e|]] eqn:E6; [done|].
  injection Hv as ->. apply negb_false_iff, hmac_Equal_eq in E5.
  zbool. split_and!; try done; try lia.
  - intros ->. done.
  - eauto.
Qed.
End VerifierFacts.

(** ** Theorems *)

(** no two different AUTH requests are signed over the same text, whatever bytes the
    client id holds (a separator included): the signature binds client, time, nonce and
    capabilities. *)
Theorem session_material_injective id1 ts1 n1 caps1 id2 ts2 n2 caps2 :
  is_u64 ts1 -> is_u64 ts2 -> is_u64 caps1 -> is_u64 caps2 ->
  SessionAuthMaterial id1 ts1 n1 caps1 = SessionAuthMaterial id2 ts2 n2 caps2 ->
  id1 = id2 /\ ts1 = ts2 /\ n1 = n2 /\ caps1 = caps2.
Proof.
  intros Ht1 Ht2 Hc1 Hc2 He.
  assert (Hform : forall id ts n caps, SessionAuthMaterial id ts n caps =
    (((bytes_of_string "AUTH|" ++ bytes_of_string id) ++ bar :: FormatUint ts)
       ++ bar :: hex_encode n) ++ bar :: FormatUint caps).
  { intros. unfold SessionAuthMaterial. by rewrite <- !app_assoc. }
  rewrite !Hform in He.
  apply last_separator_unique in He as [He Hcaps]; try (by apply FormatUint_avoid_bar).
  apply last_separator_unique in He as [He Hn]; try (by apply hex_avoid_bar).
  apply last_separator_unique in He as [He Hts]; try (by apply FormatUint_avoid_bar).
  apply app_inv_head, bytes_of_string_inj in He.
  split_and!; [done| | |]; eauto using FormatUint_inj, hex_encode_inj.
Qed.

Lemma session_material_injective_witness :
  let m := SessionAuthMaterial "a|b" 7 [x01; x02] 3 in
  "a|b" = "a|b" /\ 7 = 7 /\ [x01; x02] = [x01; x02] /\ 3 = 3.
Proof.
  intros m. apply (session_material_injective "a|b" 7 [x01; x02] 3 "a|b" 7 [x01; x02] 3);
    first [reflexivity | split; vm_compute; congruence].
Defined.

Section VerifierTheorems.
  Context {P : Type} `{SecretProvider P}.
  Implicit Types v : Verifier P.

(** A nonce is fresh when its client did not use it within the last [ttl]. *)
Definition fresh_nonce (r : ReplayCache) (c n : string) (now : Z) : Prop :=
  forall ts, seen r c n = Some ts -> ts <= now - rc_ttl r.

Lemma VerifySession_accepts v now id ts n s caps :
  wf_ttl (rc_ttl (v_replay v)) -> 0 <= v_clockSkew v < maxDuration ->
  ((VerifySession v now id ts n s caps).2 = Ok tt <->
   id <> "" /\ 12 <= zlen n <= 32
   /\ Z.abs (now - UnixMilli (int64 ts)) <= v_clockSkew v
   /\ SignSession v id ts n caps = Ok s
   /\ fresh_nonce (v_replay v) id (string_of_bytes (hex_encode n)) now).
Proof.
  intros Ht Hk.
  assert (Hfresh : forall c m, (check_replay v c m now).2 = None <-> fresh_nonce (v_replay v) c m now).
  { intros c m. rewrite check_replay_err, CheckAndStore_result by done. unfold fresh_nonce.
    destruct (seen (v_replay v) c m) as [t|].
    - destruct (_ <? t) eqn:E; zbool; split; intros Hs; try done.
      + specialize (Hs t eq_refl). lia.
      + intros t' [= <-]. done.
    - split; [by intros _ t'|done]. }
  split.
  - intros Hv. destruct (VerifySession v now id ts n s caps) as [v' r] eqn:E. simpl in Hv. subst r.
    apply VerifySession_ok_inv in E as (Hid & Hn & Hs & (secret & Hsec & ->) & Hr).
    split_and!; try done; try lia.
    + apply skew_ok_bounds in Hs; lia.
    + unfold SignSession. rewrite Hsec. done.
    + apply Hfresh. by rewrite Hr.
  - intros (Hid & Hn & Hs & Hsig & Hf). apply Hfresh in Hf. unfold SignSession in Hsig.
    destruct (SecretFor (v_secrets v) id) as [secret|e|m] eqn:Esec; try done.
    injection Hsig as <-. unfold VerifySession.
    assert (Hl : zlen (computeHMAC secret (SessionAuthMaterial id ts n caps)) = 32).
    { unfold computeHMAC, zlen. by rewrite length_hmac_sha256. }
    rewrite Hl. rewrite (proj2 (String.eqb_neq id "") Hid). zdecide. cbn [orb].
    rewrite skew_within by lia. rewrite Esec, hmac_Equal_refl. cbn [negb].
    destruct (check_replay v id _ now) as [v' [e|]]; done.
Qed.

(** C8: [VerifySession] accepts a request exactly when the client is named and known, the
    nonce has 12 to 32 bytes and is fresh, the timestamp is within the allowed skew and the
    signature is the one [SignSession] computes. *)
Theorem verify_session_accepts_iff v now id ts n s caps :
  wf_ttl (rc_ttl (v_replay v)) -> 0 <= v_clockSkew v < maxDuration ->
  ((VerifySession v now id ts n s caps).2 = Ok tt <->
   id <> "" /\ 12 <= zlen n <= 32
   /\ Z.abs (now - UnixMilli (int64 ts)) <= v_clockSkew v
   /\ SignSession v id ts n caps = Ok s
   /\ fresh_nonce (v_replay v) id (string_of_bytes (hex_encode n)) now).
Proof. apply VerifySession_accepts. Qed.

(** C1: a signed AUTH request is accepted at most once. When the replay window is longer than
    twice the clock skew, after an accepted request no run of further session or HTTP
    authentications, however long, makes the verifier accept the same client, timestamp and
    nonce again, whatever signature and capabilities come with it. *)
Theorem no_replay v now0 id ts n s caps v' calls now1 s' caps' :
  wf_ttl (rc_ttl (v_replay v)) -> 0 <= v_clockSkew v < maxDuration ->
  2 * v_clockSkew v < rc_ttl (v_replay v) ->
  VerifySession v now0 id ts n s caps = (v', Ok tt) ->
  StronglySorted Z.le (now0 :: map fst calls ++ [now1]) ->
  (VerifySession (auth_run v' calls) now1 id ts n s' caps').2 <> Ok tt.
Proof.
  intros Ht Hk H2 Hv Hsort Hagain.
  apply VerifySession_ok_inv in Hv as (_ & _ & Hs0 & _ & Hr).
  pose proof (check_replay_setup v id (string_of_bytes (hex_encode n)) now0) as Hset.
  pose proof (check_replay_replay v id (string_of_bytes (hex_encode n)) now0) as Hrep.
  pose proof (check_replay_err v id (string_of_bytes (hex_encode n)) now0) as Herr.
  rewrite Hr in Hset, Hrep, Herr. simpl in *. symmetry in Herr.
  apply CheckAndStore_seen_own in Herr. rewrite <- Hrep in Herr.
  destruct Hset as (_ & Hsk & Hrt).
  assert (Hnow : now0 <= now1).
  { apply StronglySorted_inv in Hsort as [_ Hall]. apply Forall_app in Hall as [_ Hall].
    by apply Forall_cons in Hall as [? _]. }
  destruct (VerifySession (auth_run v' calls) now1 id ts n s' caps') as [v1 r1] eqn:E.
  simpl in Hagain. subst r1.
  apply VerifySession_ok_inv in E as (_ & _ & Hs1 & _ & Hr1).
  assert (Hskew : v_clockSkew (auth_run v' calls) = v_clockSkew v' -> now1 - now0 <= 2 * v_clockSkew v).
  { intros Heq. rewrite Heq, Hsk in Hs1. apply skew_ok_bounds in Hs0, Hs1; lia. }
  assert (Hset' : forall l u, same_setup u (auth_run u l)).
  { clear. induction l as [|[t c] l IH]; intros u; [done|]. simpl.
    destruct (auth_step_cases u t c) as [(? & ? & ?) _]. destruct (IH (auth_step u t c)) as (? & ? & ?).
    unfold same_setup. split_and!; congruence. }
  destruct (Hset' calls v') as (_ & Hsk' & Hrt'). specialize (Hskew Hsk').
  destruct (auth_run_keeps calls v' id (string_of_bytes (hex_encode n)) now0 now0 now1)
    as [_ (t' & Hseen & Ht')]; [by rewrite Hrt|rewrite Hrt; lia|eexists; split; [exact Herr|lia]|done|done|].
  pose proof (check_replay_err (auth_run v' calls) id (string_of_bytes (hex_encode n)) now1) as Herr1.
  rewrite Hr1, CheckAndStore_result, Hseen in Herr1 by (by rewrite Hrt', Hrt).
  rewrite Hrt', Hrt in Herr1. destruct (_ <? t') eqn:E; zbool; [done|lia].
Qed.

Lemma VerifyHTTP_ok_inv v now r body v' id :
  VerifyHTTP v now r body = (v', Ok id) ->
  exists tsMS secret sig,
    id = TrimSpace (rq_header r "X-VLF-Client") /\ id <> ""
    /\ ParseInt (bytes_of_string (TrimSpace (rq_header r "X-VLF-TS"))) = Ok tsMS
    /\ skew_exceeded (v_clockSkew v) now (UnixMilli tsMS) = false
    /\ SecretFor (v_secrets v) id = Ok secret
    /\ hex_decode (bytes_of_string (TrimSpace (rq_header r "X-VLF-Sig"))) = Some sig
    /\ sig = computeHMAC secret (http_material (rq_method r) (rq_path r) tsMS
               (TrimSpace (rq_header r "X-VLF-Nonce")) (HashBody body))
    /\ check_replay v id (TrimSpace (rq_header r "X-VLF-Nonce")) now = (v', None).
Proof.
  unfold VerifyHTTP. intros Hv.
  destruct (String.eqb _ "" || _ || _ || _) eqn:E1; [done|].
  destruct (ParseInt _) as [tsMS|e|m] eqn:E2; try done.
  destruct (skew_exceeded _ _ _) eqn:E3; [done|].
  destruct (SecretFor (v_secrets v) _) as [secret|e|m] eqn:E4; try done.
  destruct (hex_decode _) as [sig|] eqn:E5; [|done].
  destruct (negb (hmac_Equal _ sig)) eqn:E6; [done|].
  destruct (check_replay v _ _ now) as [v1 [e|]] eqn:E7; [done|].
  injection Hv as -> <-. apply negb_false_iff, hmac_Equal_eq in E6.
  zbool. exists tsMS, secret, sig. split_and!; try done. by apply String.eqb_neq.
Qed.

(** an accepted HTTP request carries the named client's signature over its method, path,
    timestamp, nonce and body, its timestamp is within the allowed skew and its nonce was
    fresh; and from then on the nonce is remembered. *)
Theorem verify_http_sound v now r body v' id :
  wf_ttl (rc_ttl (v_replay v)) -> 0 <= v_clockSkew v < maxDuration ->
  VerifyHTTP v now r body = (v', Ok id) ->
  exists tsMS secret,
    SecretFor (v_secrets v) id = Ok secret
    /\ Z.abs (now - UnixMilli tsMS) <= v_clockSkew v
    /\ hex_decode (bytes_of_string (TrimSpace (rq_header r "X-VLF-Sig")))
       = Some (hmac_sha256 secret (http_material (rq_method r) (rq_path r) tsMS
                 (TrimSpace (rq_header r "X-VLF-Nonce")) (hex_encode (Sum256 body))))
    /\ fresh_nonce (v_replay v) id (TrimSpace (rq_header r "X-VLF-Nonce")) now
    /\ seen (v_replay v') id (TrimSpace (rq_header r "X-VLF-Nonce")) = Some now.
Proof.
  intros Ht Hk Hv.
  apply VerifyHTTP_ok_inv in Hv as (tsMS & secret & sig & Hid & _ & _ & Hs & Hsec & Hsig & -> & Hr).
  exists tsMS, secret.
  pose proof (check_replay_replay v id (TrimSpace (rq_header r "X-VLF-Nonce")) now) as Hrep.
  pose proof (check_replay_err v id (TrimSpace (rq_header r "X-VLF-Nonce")) now) as Herr.
  rewrite Hr in Hrep, Herr. simpl in Hrep, Herr. split_and!; try done.
  - apply skew_ok_bounds in Hs; lia.
  - unfold fresh_nonce. intros t Hseen. rewrite CheckAndStore_result, Hseen in Herr by done.
    destruct (_ <? t) eqn:E; zbool; [done|lia].
  - rewrite Hrep. by apply CheckAndStore_seen_own.
Qed.
End VerifierTheorems.

(** The text signed for an HTTP request determines the request when neither the method nor
    the nonce holds a separator. *)
Lemma http_material_injective m1 p1 ts1 n1 b1 m2 p2 ts2 n2 b2 :
  avoids bar (bytes_of_string (ToUpper m1)) -> avoids bar (bytes_of_string (ToUpper m2)) ->
  avoids bar (bytes_of_string n1) -> avoids bar (bytes_of_string n2) ->
  is_int64 ts1 -> is_int64 ts2 ->
  http_material m1 p1 ts1 n1 (HashBody b1) = http_material m2 p2 ts2 n2 (HashBody b2) ->
  ToUpper m1 = ToUpper m2 /\ p1 = p2 /\ ts1 = ts2 /\ n1 = n2 /\ Sum256 b1 = Sum256 b2.
Proof.
  intros Hm1 Hm2 Hn1 Hn2 Ht1 Ht2 He.
  assert (Hform : forall m p ts n b, http_material m p ts n (HashBody b) =
    (((bytes_of_string (ToUpper m) ++ bar :: bytes_of_string p) ++ bar :: FormatInt ts)
       ++ bar :: bytes_of_string n) ++ bar :: hex_encode (Sum256 b)).
  { intros. unfold http_material, HashBody. by repeat (rewrite <- !app_assoc; simpl). }
  rewrite !Hform in He.
  apply last_separator_unique in He as [He Hb]; try (by apply hex_avoid_bar).
  apply last_separator_unique in He as [He Hn]; try done.
  apply last_separator_unique in He as [He Hts]; try (by apply FormatInt_avoid_bar).
  apply first_separator_unique in He as [Hm Hp]; try done.
  split_and!; auto using bytes_of_string_inj, hex_encode_inj.
  apply (f_equal ParseInt) in Hts. rewrite !ParseInt_FormatInt in Hts by done. by injection Hts.
Qed.

(** With a separator in the nonce two different requests share a signature. *)
Example http_material_collision :
  http_material "POST" "/relay/connect" 1 "2|n" [] = http_material "POST" "/relay/connect|1" 2 "n" [].
Proof. reflexivity. Qed.

(** a configured secret is never empty: [ParseSecretString] either rejects the text or
    returns at least one byte, for plain and for base64 secrets. *)
Theorem parse_secret_nonempty raw secret : ParseSecretString raw = Ok secret -> 0 < zlen secret.
Proof.
  unfold ParseSecretString. destruct (String.eqb (TrimSpace raw) "") eqn:E1; [done|].
  destruct (HasPrefix (TrimSpace raw) base64SecretPrefix).
  - intros Hp. repeat case_in Hp; try discriminate; injection Hp as <-; zbool;
      pose proof (zlen_nonneg l); lia.
  - intros [= <-]. apply String.eqb_neq in E1.
    destruct (Z.eq_dec (zlen (bytes_of_string (TrimSpace raw))) 0) as [He|He].
    + apply zlen_zero, (f_equal string_of_bytes) in He. by rewrite string_bytes_string in He.
    + pose proof (zlen_nonneg (bytes_of_string (TrimSpace raw))). lia.
Qed.

Lemma parse_secret_nonempty_witness :
  ParseSecretString " b64:c2VjcmV0 " = Ok (bytes_of_string "secret") /\ 0 < zlen (bytes_of_string "secret").
Proof.
  split; [vm_compute; reflexivity|].
  apply (parse_secret_nonempty " b64:c2VjcmV0 "). vm_compute. reflexivity.
Defined.

(** ** A concrete deployment *)

Definition ex_secrets : StaticSecretProvider := mkStaticSecrets {[ "dev" := bytes_of_string "s3cret" ]}.
Definition ex_verifier (ttl clockSkew : Z) : Verifier StaticSecretProvider :=
  NewVerifier ex_secrets (NewReplayCache ttl) clockSkew true.
Definition ex_nonce : list byte := bytes_of_string "0123456789ab".
Definition ex_sig : list byte :=
  Eval vm_compute in
    computeHMAC (bytes_of_string "s3cret") (SessionAuthMaterial "dev" 1060000 ex_nonce 3).
Definition ex_first : Verifier StaticSecretProvider :=
  (VerifySession (ex_verifier (121 * Second) (60 * Second)) (UnixMilli 1000000) "dev" 1060000
     ex_nonce ex_sig 3).1.

Lemma verify_session_accepts_iff_witness :
  (VerifySession (ex_verifier (121 * Second) (60 * Second)) (UnixMilli 1000000) "dev" 1060000
     ex_nonce ex_sig 3).2 = Ok tt.
Proof.
  apply verify_session_accepts_iff; [split; vm_compute; congruence|split; vm_compute; congruence|].
  split_and!; [discriminate|vm_compute; congruence|vm_compute; congruence|vm_compute; congruence
    |vm_compute; reflexivity|]. intros t Hs. vm_compute in Hs. discriminate Hs.
Defined.

Lemma no_replay_witness :
  (VerifySession (auth_run ex_first [(UnixMilli 1001000, CallSession "dev" 1 [] [] 3)])
     (UnixMilli 1120000) "dev" 1060000 ex_nonce ex_sig 3).2 <> Ok tt.
Proof.
  apply (no_replay (ex_verifier (121 * Second) (60 * Second)) (UnixMilli 1000000) "dev" 1060000
           ex_nonce ex_sig 3 ex_first);
    [split; vm_compute; congruence|split; vm_compute; congruence|vm_compute; congruence
    |vm_compute; reflexivity|].
  repeat constructor; vm_compute; congruence.
Defined.

(** the default configuration sets both the skew and the replay window to 60 s, which does
    not satisfy the condition above: a request signed by a client whose clock is 60 s ahead is
    accepted again one replay window later. *)
Theorem default_config_accepts_replay :
  let v := ex_verifier (60 * Second) (60 * Second) in
  let first := VerifySession v (UnixMilli 1000000) "dev" 1060000 ex_nonce ex_sig 3 in
  first.2 = Ok tt
  /\ (VerifySession first.1 (UnixMilli 1060000) "dev" 1060000 ex_nonce ex_sig 3).2 = Ok tt.
Proof. vm_compute. split; reflexivity. Qed.

(** A signed HTTP request of the deployment. *)
Definition ex_http_sig : string :=
  Eval vm_compute in
    string_of_bytes (hex_encode (computeHMAC (bytes_of_string "s3cret")
      (http_material "POST" "/relay/connect" 1000000 "n-1" (HashBody (bytes_of_string "{}"))))).
Definition ex_headers (h : string) : string :=
  if String.eqb h "X-VLF-Client" then "dev"
  else if String.eqb h "X-VLF-TS" then "1000000"
  else if String.eqb h "X-VLF-Nonce" then "n-1"
  else if String.eqb h "X-VLF-Sig" then ex_http_sig
  else "".
Definition ex_request : http_request :=
  mkRequest "post" "/relay/connect" (fun _ => "") ex_headers.
Definition ex_http_verifier : Verifier StaticSecretProvider := ex_verifier (60 * Second) (60 * Second).
Definition ex_http_after : Verifier StaticSecretProvider :=
  Eval vm_compute in
    (VerifyHTTP ex_http_verifier (UnixMilli 1000500) ex_request (bytes_of_string "{}")).1.

Lemma verify_http_sound_witness :
  exists tsMS secret,
    SecretFor (v_secrets ex_http_verifier) "dev" = Ok secret
    /\ Z.abs (UnixMilli 1000500 - UnixMilli tsMS) <= v_clockSkew ex_http_verifier
    /\ hex_decode (bytes_of_string (TrimSpace (rq_header ex_request "X-VLF-Sig")))
       = Some (hmac_sha256 secret (http_material (rq_method ex_request) (rq_path ex_request) tsMS
                 (TrimSpace (rq_header ex_request "X-VLF-Nonce"))
                 (hex_encode (Sum256 (bytes_of_string "{}")))))
    /\ fresh_nonce (v_replay ex_http_verifier) "dev"
         (TrimSpace (rq_header ex_request "X-VLF-Nonce")) (UnixMilli 1000500)
    /\ seen (v_replay ex_http_after) "dev" (TrimSpace (rq_header ex_request "X-VLF-Nonce"))
       = Some (UnixMilli 1000500).
Proof.
  refine (verify_http_sound ex_http_verifier (UnixMilli 1000500) ex_request (bytes_of_string "{}")
            ex_http_after "dev" _ _ _);
    [split; vm_compute; congruence|split; vm_compute; congruence|vm_compute; reflexivity].
Defined.
