(* ===== verification/Limits.v ===== *)
(** * Admission limits ([internal/limits])

    The shared limits manager: relay connection counts, byte budgets per minute and the UDP
    packet budget per second. Every method holds the mutex for its whole body, so a method
    is one step of the manager's state; [now] is what [nowFn] returns. *)

From stdpp Require Import gmultiset.
From Stdlib Require Import Sorting.Sorted.
From S2P Require Import Prelude.

Definition ErrMaxConnsPerClient : goerr := ESentinel "max_conns_per_client exceeded".
Definition ErrMaxTotalConns : goerr := ESentinel "max_total_conns exceeded".
Definition ErrMaxBytesPerMinute : goerr := ESentinel "max_bytes_per_minute exceeded".
Definition ErrMaxBytesPerMinuteSess : goerr := ESentinel "max_bytes_per_minute_per_session exceeded".
Definition ErrMaxUDPPPS : goerr := ESentinel "max_udp_pps exceeded".

Record Config := mkConfig {
  MaxConnsPerClient : Z; MaxTotalConns : Z;
  MaxBytesPerMinutePerClient : Z; MaxBytesPerMinutePerSession : Z; MaxUDPPPS : Z }.

Record byteWindow := mkByteWindow { windowStart : Z; bw_bytes : Z }.
Record ppsWindow := mkPpsWindow { secondStart : Z; packets : Z }.

Record Manager := mkManager {
  cfg : Config;
  totalRelayConns : Z;
  relayConnsByClient : gmap string Z;
  relayBytesByClient : gmap string byteWindow;
  sessionBytes : gmap Z byteWindow;
  sessionPackets : gmap Z ppsWindow }.

Definition NewManager (c : Config) : Manager := mkManager c 0 ∅ ∅ ∅ ∅.

Definition set_conns (m : Manager) (total : Z) (by_client : gmap string Z) : Manager :=
  mkManager (cfg m) total by_client (relayBytesByClient m) (sessionBytes m) (sessionPackets m).
Definition set_relay_bytes (m : Manager) (b : gmap string byteWindow) : Manager :=
  mkManager (cfg m) (totalRelayConns m) (relayConnsByClient m) b (sessionBytes m) (sessionPackets m).
Definition set_session_bytes (m : Manager) (b : gmap Z byteWindow) : Manager :=
  mkManager (cfg m) (totalRelayConns m) (relayConnsByClient m) (relayBytesByClient m) b (sessionPackets m).
Definition set_session_packets (m : Manager) (p : gmap Z ppsWindow) : Manager :=
  mkManager (cfg m) (totalRelayConns m) (relayConnsByClient m) (relayBytesByClient m) (sessionBytes m) p.

(** A missing key of a Go map of integers reads as 0. *)
Definition conn_count (m : Manager) (clientID : string) : Z :=
  default 0 (relayConnsByClient m !! clientID).

Definition ReserveRelayConn (m : Manager) (clientID : string) : Manager * option goerr :=
  if (0 <? MaxTotalConns (cfg m)) && (MaxTotalConns (cfg m) <=? totalRelayConns m)
  then (m, Some ErrMaxTotalConns)
  else if (0 <? MaxConnsPerClient (cfg m)) && (MaxConnsPerClient (cfg m) <=? conn_count m clientID)
  then (m, Some ErrMaxConnsPerClient)
  else (set_conns m (int64 (totalRelayConns m + 1))
          (<[clientID := int64 (conn_count m clientID + 1)]> (relayConnsByClient m)), None).

Definition ReleaseRelayConn (m : Manager) (clientID : string) : Manager :=
  let total := if 0 <? totalRelayConns m then totalRelayConns m - 1 else totalRelayConns m in
  let count := conn_count m clientID in
  let by_client := if 1 <? count then <[clientID := count - 1]> (relayConnsByClient m)
                   else delete clientID (relayConnsByClient m) in
  set_conns m total by_client.

Definition RelayCounts (m : Manager) : Z * gmap string Z :=
  (totalRelayConns m, relayConnsByClient m).

(** The window a byte counter uses at time [now]: a new one, the current one, or the
    current one reset because a minute has passed. *)
Definition roll_window (w : option byteWindow) (now : Z) : byteWindow :=
  let window := default (mkByteWindow now 0) w in
  if Minute <=? time_Sub now (windowStart window) then mkByteWindow now 0 else window.

(** The common body of the two byte budgets, with [limit] and the error they report. *)
Definition charge_window (limit : Z) (e : goerr) (w : option byteWindow) (now n : Z)
  : byteWindow * option goerr :=
  let window := roll_window w now in
  if (0 <? limit) && (limit <? int64 (bw_bytes window + n))
  then (window, Some (EWrap "used add limit" e))
  else (mkByteWindow (windowStart window) (int64 (bw_bytes window + n)), None).

Definition AllowRelayBytes (m : Manager) (now : Z) (clientID : string) (n : Z)
  : Manager * option goerr :=
  if n <=? 0 then (m, None)
  else let '(w, e) := charge_window (MaxBytesPerMinutePerClient (cfg m)) ErrMaxBytesPerMinute
                        (relayBytesByClient m !! clientID) now n in
       (set_relay_bytes m (<[clientID := w]> (relayBytesByClient m)), e).

Definition AllowSessionBytes (m : Manager) (now : Z) (sessionID : Z) (n : Z)
  : Manager * option goerr :=
  if n <=? 0 then (m, None)
  else let '(w, e) := charge_window (MaxBytesPerMinutePerSession (cfg m)) ErrMaxBytesPerMinuteSess
                        (sessionBytes m !! sessionID) now n in
       (set_session_bytes m (<[sessionID := w]> (sessionBytes m)), e).

Definition AllowUDPPacket (m : Manager) (now : Z) (sessionID : Z) : Manager * option goerr :=
  let now := time_Truncate now Second in
  let window := default (mkPpsWindow now 0) (sessionPackets m !! sessionID) in
  let window := if negb (secondStart window =? now) then mkPpsWindow now 0 else window in
  let limit := MaxUDPPPS (cfg m) in
  if (0 <? limit) && (limit <=? packets window)
  then (set_session_packets m (<[sessionID := window]> (sessionPackets m)),
        Some (EWrap "session limit" ErrMaxUDPPPS))
  else (set_session_packets m
          (<[sessionID := mkPpsWindow (secondStart window) (int64 (packets window + 1))]>
             (sessionPackets m)), None).

Definition CleanupSession (m : Manager) (sessionID : Z) : Manager :=
  set_session_packets (set_session_bytes m (delete sessionID (sessionBytes m)))
    (delete sessionID (sessionPackets m)).

(** ** Relay connections: refinement to the multiset of live reservations *)

(** The manager represents the multiset [live] of reservations that were not released. *)
Record conns_rep (m : Manager) (live : gmultiset string) : Prop := {
  rep_total : totalRelayConns m = Z.of_nat (size live);
  rep_count : forall c, relayConnsByClient m !! c =
    (if decide (multiplicity c live = 0%nat) then None else Some (Z.of_nat (multiplicity c live)));
}.

(** The reservations respect the configured limits (a limit of 0 means none). *)
Definition within_caps (c : Config) (live : gmultiset string) : Prop :=
  (0 < MaxTotalConns c -> Z.of_nat (size live) <= MaxTotalConns c) /\
  (forall id, 0 < MaxConnsPerClient c -> Z.of_nat (multiplicity id live) <= MaxConnsPerClient c).

Lemma rep_conn_count m live c : conns_rep m live -> conn_count m c = Z.of_nat (multiplicity c live).
Proof. intros H. unfold conn_count. rewrite (rep_count _ _ H). case_decide; simpl; lia. Qed.

Lemma multiplicity_le_size c (X : gmultiset string) : (multiplicity c X <= size X)%nat.
Proof.
  destruct (decide (multiplicity c X = 0%nat)) as [->|Hn]; [lia|].
  assert (Hs : multiplicity c X *: {[+ c +]} ⊆ X).
  { intros x. rewrite multiplicity_scalar_mul, multiplicity_singleton. case_decide; subst; lia. }
  apply gmultiset_subseteq_size in Hs. rewrite gmultiset_size_scalar_mul, gmultiset_size_singleton in Hs. lia.
Qed.

Lemma NewManager_rep c : conns_rep (NewManager c) ∅ /\ within_caps c ∅.
Proof.
  split; [split; [done|]|split].
  - intros id. by rewrite multiplicity_empty, decide_True.
  - rewrite gmultiset_size_empty. lia.
  - intros id. rewrite multiplicity_empty. lia.
Qed.

Lemma reserve_ok_inv m id m' :
  ReserveRelayConn m id = (m', None) ->
  (0 < MaxTotalConns (cfg m) -> totalRelayConns m < MaxTotalConns (cfg m)) /\
  (0 < MaxConnsPerClient (cfg m) -> conn_count m id < MaxConnsPerClient (cfg m)) /\
  m' = set_conns m (int64 (totalRelayConns m + 1))
         (<[id := int64 (conn_count m id + 1)]> (relayConnsByClient m)).
Proof.
  unfold ReserveRelayConn. intros H. repeat case_in H; try done. injection H as <-.
  zbool. split_and!; [| |done]; lia.
Qed.

Lemma reserve_err m id m' e : ReserveRelayConn m id = (m', Some e) -> m' = m.
Proof. unfold ReserveRelayConn. intros H. repeat case_in H; congruence. Qed.

Lemma reserve_rep m live id m' :
  conns_rep m live -> Z.of_nat (size live) + 1 < 2 ^ 63 ->
  ReserveRelayConn m id = (m', None) -> conns_rep m' ({[+ id +]} ⊎ live).
Proof.
  intros Hr Hb H. apply reserve_ok_inv in H as (_ & _ & ->).
  pose proof (multiplicity_le_size id live) as Hm.
  rewrite (rep_conn_count m live id Hr), (rep_total _ _ Hr).
  rewrite !int64_small by (unfold is_int64; lia).
  split; simpl.
  - rewrite gmultiset_size_disj_union, gmultiset_size_singleton. lia.
  - intros c. rewrite multiplicity_disj_union, multiplicity_singleton. destruct (decide (c = id)) as [->|Hc].
    + rewrite lookup_insert_eq, decide_False by lia. f_equal. lia.
    + rewrite lookup_insert_ne by done. apply (rep_count _ _ Hr).
Qed.

Lemma release_rep m live id :
  conns_rep m live -> id ∈ live -> conns_rep (ReleaseRelayConn m id) (live ∖ {[+ id +]}).
Proof.
  intros Hr Hin. pose proof (proj1 (elem_of_multiplicity id live) Hin) as Hpos.
  pose proof (multiplicity_le_size id live) as Hm.
  unfold ReleaseRelayConn. rewrite (rep_conn_count m live id Hr), (rep_total _ _ Hr).
  split; simpl.
  - rewrite gmultiset_size_difference, gmultiset_size_singleton.
    + zdecide. lia.
    + by apply gmultiset_singleton_subseteq_l.
  - intros c. rewrite multiplicity_difference, multiplicity_singleton.
    destruct (decide (c = id)) as [->|Hc].
    + destruct (1 <? _) eqn:E; zbool.
      * rewrite lookup_insert_eq, decide_False by lia. f_equal. lia.
      * rewrite lookup_delete_eq, decide_True by lia. done.
    + assert (Hsame : relayConnsByClient m !! c =
        (if decide ((multiplicity c live - 0)%nat = 0%nat) then None
         else Some (Z.of_nat (multiplicity c live - 0)))).
      { rewrite Nat.sub_0_r. apply (rep_count _ _ Hr). }
      destruct (1 <? _); [rewrite lookup_insert_ne by done|rewrite lookup_delete_ne by done]; done.
Qed.

(** A manager and its live reservations after any sequence of calls in which a client only
    releases what it holds. The byte and packet budgets run in between. *)
Inductive conns_reach (c : Config) : Manager -> gmultiset string -> Prop :=
| reach_new : conns_reach c (NewManager c) ∅
| reach_reserve m live id m' :
    conns_reach c m live -> ReserveRelayConn m id = (m', None) -> conns_reach c m' ({[+ id +]} ⊎ live)
| reach_refused m live id m' e :
    conns_reach c m live -> ReserveRelayConn m id = (m', Some e) -> conns_reach c m' live
| reach_release m live id :
    conns_reach c m live -> id ∈ live -> conns_reach c (ReleaseRelayConn m id) (live ∖ {[+ id +]})
| reach_relay_bytes m live now id n :
    conns_reach c m live -> conns_reach c (AllowRelayBytes m now id n).1 live
| reach_session_bytes m live now sid n :
    conns_reach c m live -> conns_reach c (AllowSessionBytes m now sid n).1 live
| reach_udp m live now sid :
    conns_reach c m live -> conns_reach c (AllowUDPPacket m now sid).1 live
| reach_cleanup m live sid :
    conns_reach c m live -> conns_reach c (CleanupSession m sid) live.

(** The budgets leave configuration and connection counts alone. *)
Definition same_conns (m m' : Manager) : Prop :=
  cfg m' = cfg m /\ totalRelayConns m' = totalRelayConns m
  /\ relayConnsByClient m' = relayConnsByClient m.

Lemma AllowRelayBytes_conns m now id n : same_conns m (AllowRelayBytes m now id n).1.
Proof. unfold AllowRelayBytes. destruct (n <=? 0); [done|]. by destruct (charge_window _ _ _ now n). Qed.
Lemma AllowSessionBytes_conns m now sid n : same_conns m (AllowSessionBytes m now sid n).1.
Proof. unfold AllowSessionBytes. destruct (n <=? 0); [done|]. by destruct (charge_window _ _ _ now n). Qed.
Lemma AllowUDPPacket_conns m now sid : same_conns m (AllowUDPPacket m now sid).1.
Proof. unfold AllowUDPPacket. by destruct ((0 <? MaxUDPPPS (cfg m)) && _). Qed.

Lemma same_conns_rep m m' live : same_conns m m' -> conns_rep m live -> conns_rep m' live.
Proof. intros (_ & Ht & Hc) [Ht' Hc']. split; [by rewrite Ht|by rewrite Hc]. Qed.

#[export] Hint Resolve AllowRelayBytes_conns AllowSessionBytes_conns AllowUDPPacket_conns : vlf.

Lemma conns_reach_inv c m live :
  0 < MaxTotalConns c < 2 ^ 63 -> conns_reach c m live ->
  cfg m = c /\ conns_rep m live /\ within_caps c live.
Proof.
  intros Hcap Hreach.
  assert (Hkeep : forall m m' live, same_conns m m' -> cfg m = c /\ conns_rep m live /\ within_caps c live ->
    cfg m' = c /\ conns_rep m' live /\ within_caps c live).
  { intros a b l Hs (Hc & Hr & Hw). split_and!; [by destruct Hs as (-> & _)|by eapply same_conns_rep|apply Hw..]. }
  induction Hreach as [|m live id m' Hm (Hc & Hr & Hw) Hres|m live id m' e Hm IH Hres
    |m live id Hm (Hc & Hr & Hw) Hin|m live now id n Hm IH|m live now sid n Hm IH|m live now sid Hm IH
    |m live sid Hm IH].
  - split; [done|]. apply NewManager_rep.
  - pose proof (reserve_ok_inv _ _ _ Hres) as (Ht & Hp & Hm'). rewrite Hc in Ht, Hp.
    rewrite (rep_total _ _ Hr) in Ht. rewrite (rep_conn_count _ _ id Hr) in Hp.
    split; [by rewrite Hm'|]. split; [eapply reserve_rep; [exact Hr| |exact Hres]; lia|].
    destruct Hw as [Hw1 Hw2]. split.
    + rewrite gmultiset_size_disj_union, gmultiset_size_singleton. lia.
    + intros i Hpos. rewrite multiplicity_disj_union, multiplicity_singleton.
      specialize (Hw2 i Hpos). case_decide; subst; lia.
  - by apply reserve_err in Hres as ->.
  - split; [done|]. split; [by apply release_rep|]. destruct Hw as [Hw1 Hw2]. split.
    + intros _. etrans; [|apply Hw1; lia]. apply Nat2Z.inj_le, gmultiset_subseteq_size.
      intros x. rewrite multiplicity_difference. lia.
    + intros i Hpos. specialize (Hw2 i Hpos). rewrite multiplicity_difference. lia.
  - eauto with vlf.
  - eauto with vlf.
  - eauto with vlf.
  - by apply (Hkeep m).
Qed.

(** C16: the connection counters are exactly the live reservations, in total and per client,
    and neither configured cap is ever exceeded, after any interleaving of reservations,
    refusals, releases, byte and packet accounting. *)
Theorem relay_conns_invariant c m live :
  0 < MaxTotalConns c < 2 ^ 63 -> conns_reach c m live ->
  cfg m = c /\ conns_rep m live /\ within_caps c live.
Proof. apply conns_reach_inv. Qed.

Definition ex_limits : Config := mkConfig 1 2 1000 100 2.

Lemma relay_conns_invariant_witness :
  let m := (ReserveRelayConn (NewManager ex_limits) "a").1 in
  cfg m = ex_limits /\ conns_rep m ({[+ "a" +]} ⊎ ∅) /\ within_caps ex_limits ({[+ "a" +]} ⊎ ∅).
Proof.
  intros m. apply relay_conns_invariant; [split; vm_compute; congruence|].
  apply (reach_reserve ex_limits (NewManager ex_limits) ∅ "a"); [constructor|reflexivity].
Defined.

(** ** Byte budgets *)

(** A run of charges against one window; the result lists the accepted ones. *)
Fixpoint charges (limit : Z) (e : goerr) (w : option byteWindow) (calls : list (Z * Z))
  : option byteWindow * list (Z * Z) :=
  match calls with
  | [] => (w, [])
  | (now, n) :: calls =>
      let '(w', err) := charge_window limit e w now n in
      let '(wf, acc) := charges limit e (Some w') calls in
      (wf, match err with None => (now, n) :: acc | Some _ => acc end)
  end.

(** The bytes accepted at a time that satisfies [f]. *)
Fixpoint bytes_at (f : Z -> bool) (acc : list (Z * Z)) : Z :=
  match acc with
  | [] => 0
  | (t, n) :: acc => (if f t then n else 0) + bytes_at f acc
  end.

Definition between (a b t : Z) : bool := (a <=? t) && (t <? b).

Lemma bytes_at_app f l k : bytes_at f (l ++ k) = bytes_at f l + bytes_at f k.
Proof. induction l as [|[t n] l IH]; simpl; lia. Qed.

Lemma bytes_at_mono f g l :
  Forall (fun tn => 0 < tn.2 /\ (f tn.1 = true -> g tn.1 = true)) l -> bytes_at f l <= bytes_at g l.
Proof.
  induction 1 as [|[t n] l [Hn Hfg] _ IH]; simpl in *; [lia|].
  destruct (f t); [rewrite Hfg by done; lia|]. destruct (g t); lia.
Qed.

Lemma time_Sub_minute now t : (Minute <=? time_Sub now t) = (Minute <=? now - t).
Proof.
  unfold time_Sub, maxDuration, minDuration. assert (Minute = 60000000000) as -> by reflexivity.
  apply eq_true_iff_eq. rewrite !Z.leb_le. lia.
Qed.

(** What the window knows of the accepted bytes. *)
Record window_inv (limit : Z) (w : byteWindow) (acc : list (Z * Z)) : Prop := {
  wi_pos : Forall (fun tn => 0 < tn.2 /\ tn.1 < windowStart w + Minute) acc;
  wi_bytes : bytes_at (fun t => windowStart w <=? t) acc = bw_bytes w;
  wi_limit : 0 <= bw_bytes w <= limit;
  wi_prev : bytes_at (fun t => (windowStart w - Minute <? t) && (t <? windowStart w)) acc <= limit;
  wi_any : forall a, bytes_at (between a (a + Minute)) acc <= 2 * limit }.

(** Resetting the window a minute after it started keeps the invariant. *)
Lemma window_inv_roll limit w acc now :
  window_inv limit w acc -> window_inv limit (roll_window (Some w) now) acc.
Proof.
  intros [Hpos Hb Hl Hp Ha]. unfold roll_window. simpl. rewrite time_Sub_minute.
  destruct (Minute <=? now - windowStart w) eqn:E; zbool; [|by split].
  assert (HM : 0 < Minute) by reflexivity.
  split; simpl; try done; try lia.
  - eapply Forall_impl; [exact Hpos|]. simpl. lia.
  - clear - Hpos E. induction Hpos as [|[t n] l [_ H] _ IH]; simpl in *; [done|]. rewrite IH. zdecide. done.
  - etrans; [|apply Hl]. rewrite <- Hb. apply bytes_at_mono.
    eapply Forall_impl; [exact Hpos|]. intros [t n] [Hn _]. simpl in *. split; [done|].
    intros Hf. zbool. apply Z.leb_le. lia.
Qed.

(** An accepted charge is added to the current window. *)
Lemma window_inv_add limit w acc now n :
  window_inv limit w acc -> windowStart w <= now < windowStart w + Minute -> 0 < n ->
  bw_bytes w + n <= limit ->
  window_inv limit (mkByteWindow (windowStart w) (bw_bytes w + n)) (acc ++ [(now, n)]).
Proof.
  intros [Hpos Hb Hl Hp Ha] Hnow Hn Hlim. split; cbn [windowStart bw_bytes].
  - apply Forall_app. split; [done|]. repeat constructor; simpl; lia.
  - rewrite bytes_at_app, Hb. cbn [bytes_at]. zdecide. lia.
  - lia.
  - rewrite bytes_at_app. cbn [bytes_at]. rewrite (proj2 (Z.ltb_ge now (windowStart w))) by lia.
    rewrite andb_false_r. lia.
  - intros a. rewrite bytes_at_app. cbn [bytes_at]. specialize (Ha a).
    destruct (between a (a + Minute) now) eqn:E; [|lia].
    unfold between in E. zbool.
    assert (Hsplit : bytes_at (between a (a + Minute)) acc <=
      bytes_at (fun t => (windowStart w - Minute <? t) && (t <? windowStart w)) acc
      + bytes_at (fun t => windowStart w <=? t) acc).
    { clear Hb Hp Ha. induction Hpos as [|[t k] l [Hk Ht] _ IH]; cbn [bytes_at]; [lia|].
      simpl in Hk, Ht. unfold between in *. repeat case_on; zbool; lia. }
    lia.
Qed.

Lemma window_inv_charge limit e w acc now n w' err :
  0 < limit -> window_inv limit w acc -> windowStart w <= now -> 0 < n -> limit + n < 2 ^ 63 ->
  charge_window limit e (Some w) now n = (w', err) ->
  windowStart w' <= now /\
  window_inv limit w' (acc ++ match err with None => [(now, n)] | Some _ => [] end).
Proof.
  intros Hlim Hinv Hnow Hn Hb H. pose proof (window_inv_roll _ _ _ now Hinv) as Hroll.
  assert (Hst : windowStart (roll_window (Some w) now) <= now < windowStart (roll_window (Some w) now) + Minute).
  { unfold roll_window. simpl. rewrite time_Sub_minute. assert (0 < Minute) by reflexivity.
    destruct (Minute <=? now - windowStart w) eqn:E; zbool; simpl; lia. }
  unfold charge_window in H. revert H Hst Hroll. generalize (roll_window (Some w) now) as r. intros r H Hst Hroll.
  pose proof (wi_limit _ _ _ Hroll) as Hl.
  rewrite int64_small in H by (unfold is_int64; lia).
  rewrite (proj2 (Z.ltb_lt 0 limit) Hlim) in H. cbn [andb] in H.
  destruct (limit <? bw_bytes r + n) eqn:E; injection H as <- <-; zbool.
  - rewrite app_nil_r. split; [lia|done].
  - split; [simpl; lia|]. apply window_inv_add; [done|lia|lia|lia].
Qed.

Lemma charges_inv limit e calls : forall w acc t0,
  0 < limit -> window_inv limit w acc -> windowStart w <= t0 ->
  StronglySorted Z.le (t0 :: map fst calls) ->
  Forall (fun tn => 0 < tn.2 /\ limit + tn.2 < 2 ^ 63) calls ->
  forall a, bytes_at (between a (a + Minute)) (acc ++ (charges limit e (Some w) calls).2) <= 2 * limit.
Proof.
  induction calls as [|[t n] calls IH]; intros w acc t0 Hlim Hinv Ht0 Hs Hall a; simpl.
  { rewrite app_nil_r. apply (wi_any _ _ _ Hinv). }
  apply StronglySorted_inv in Hs as [Hs Ht]. simpl in Hs, Ht.
  apply Forall_cons in Ht as [Ht _]. apply Forall_cons in Hall as [[Hn Hb] Hall]. simpl in Ht, Hn, Hb.
  destruct (charge_window limit e (Some w) t n) as [w' err] eqn:E.
  assert (Hwt : windowStart w <= t) by lia.
  destruct (window_inv_charge _ _ _ _ _ _ _ _ Hlim Hinv Hwt Hn Hb E) as [Hst Hinv'].
  specialize (IH w' _ t Hlim Hinv' Hst Hs Hall a).
  destruct (charges limit e (Some w') calls) as [wf acc']. simpl in *.
  rewrite <- app_assoc in IH. by destruct err.
Qed.

(** The charges of one client made through the manager, in order. *)
Fixpoint relay_byte_run (m : Manager) (id : string) (calls : list (Z * Z)) : list (Z * Z) :=
  match calls with
  | [] => []
  | (now, n) :: calls =>
      let '(m', err) := AllowRelayBytes m now id n in
      let acc := relay_byte_run m' id calls in
      match err with None => (now, n) :: acc | Some _ => acc end
  end.

Lemma relay_byte_run_charges id calls : forall m,
  Forall (fun tn => 0 < tn.2) calls ->
  relay_byte_run m id calls =
  (charges (MaxBytesPerMinutePerClient (cfg m)) ErrMaxBytesPerMinute (relayBytesByClient m !! id) calls).2.
Proof.
  induction calls as [|[t n] calls IH]; intros m Hall; simpl; [done|].
  apply Forall_cons in Hall as [Hn Hall]. simpl in Hn. unfold AllowRelayBytes.
  rewrite (proj2 (Z.leb_gt n 0) Hn).
  destruct (charge_window _ _ (relayBytesByClient m !! id) t n) as [w e].
  rewrite IH by done. cbn [cfg set_relay_bytes relayBytesByClient]. rewrite lookup_insert_eq.
  by destruct (charges _ _ (Some w) calls).
Qed.

(** C28: the per-minute byte budget of a client: whatever the calls, in any interval of one
    minute the manager accepts at most twice the configured budget (one budget per fixed
    window, and an interval meets at most two windows). *)
Theorem relay_byte_budget m id calls a :
  let limit := MaxBytesPerMinutePerClient (cfg m) in
  0 < limit -> relayBytesByClient m !! id = None ->
  StronglySorted Z.le (map fst calls) ->
  Forall (fun tn => 0 < tn.2 /\ limit + tn.2 < 2 ^ 63) calls ->
  bytes_at (between a (a + Minute)) (relay_byte_run m id calls) <= 2 * limit.
Proof.
  intros limit Hlim Hnew Hs Hall.
  rewrite relay_byte_run_charges by (eapply Forall_impl; [exact Hall|]; simpl; tauto).
  rewrite Hnew. fold limit. destruct calls as [|[t n] calls]; [simpl; lia|].
  assert (Hfirst : charges limit ErrMaxBytesPerMinute None ((t, n) :: calls)
                 = charges limit ErrMaxBytesPerMinute (Some (mkByteWindow t 0)) ((t, n) :: calls)).
  { reflexivity. }
  rewrite Hfirst. apply (charges_inv limit _ _ (mkByteWindow t 0) [] t); try done.
  - split; simpl; try done; lia.
  - constructor; [done|]. constructor; [done|]. by apply StronglySorted_inv in Hs as [_ ?].
Qed.

Lemma relay_byte_budget_witness :
  bytes_at (between 0 (0 + Minute))
    (relay_byte_run (NewManager ex_limits) "a" [(0, 600); (1, 500); (2, 400); (Minute, 1000)])
  <= 2 * MaxBytesPerMinutePerClient (cfg (NewManager ex_limits)).
Proof.
  apply relay_byte_budget; [reflexivity|reflexivity| |].
  - repeat constructor; vm_compute; congruence.
  - repeat constructor; vm_compute; congruence.
Defined.

(** ** The packet budget *)

Fixpoint udp_run (m : Manager) (sid : Z) (times : list Z) : list Z :=
  match times with
  | [] => []
  | now :: times =>
      let '(m', err) := AllowUDPPacket m now sid in
      let acc := udp_run m' sid times in
      match err with None => now :: acc | Some _ => acc end
  end.

(** The packets accepted in the second that starts at [s]. *)
Fixpoint packets_in (s : Z) (acc : list Z) : Z :=
  match acc with
  | [] => 0
  | t :: acc => (if time_Truncate t Second =? s then 1 else 0) + packets_in s acc
  end.

Lemma packets_in_app s l k : packets_in s (l ++ k) = packets_in s l + packets_in s k.
Proof. induction l as [|t l IH]; simpl; lia. Qed.

Lemma packets_in_later s l : Forall (fun t => time_Truncate t Second < s) l -> packets_in s l = 0.
Proof. induction 1 as [|t l Ht _ IH]; simpl; [done|]. rewrite IH. zdecide. done. Qed.

Lemma Truncate_mono a b : a <= b -> time_Truncate a Second <= time_Truncate b Second.
Proof.
  intros H. unfold time_Truncate. assert (0 < Second) by reflexivity. 
  repeat case_on; zbool; try lia;
  pose proof (Z.div_mod a Second); pose proof (Z.div_mod b Second);
  assert (a / Second <= b / Second) by (apply Z.div_le_mono; lia); nia.
Qed.

Lemma udp_run_bound sid limit times : forall m acc w,
  MaxUDPPPS (cfg m) = limit -> 0 < limit < 2 ^ 63 -> sessionPackets m !! sid = Some w ->
  0 <= packets w <= limit -> packets_in (secondStart w) acc = packets w ->
  Forall (fun t => time_Truncate t Second <= secondStart w) acc ->
  (forall s, packets_in s acc <= limit) ->
  Forall (fun t => secondStart w <= time_Truncate t Second) times -> StronglySorted Z.le times ->
  forall s, packets_in s (acc ++ udp_run m sid times) <= limit.
Proof.
  induction times as [|t times IH]; intros m acc w Hcfg Hlim Hw Hp Heq Hle Hany Hlater Hs s.
  { cbn [udp_run]. by rewrite app_nil_r. }
  apply StronglySorted_inv in Hs as [Hs Ht]. apply Forall_cons in Hlater as [Hwt Hlater].
  assert (Hlater' : Forall (fun u => time_Truncate t Second <= time_Truncate u Second) times).
  { eapply Forall_impl; [exact Ht|]. intros u Hu. by apply Truncate_mono. }
  cbn [udp_run]. unfold AllowUDPPacket. rewrite Hw, Hcfg. cbn [from_option id].
  set (w' := if negb (secondStart w =? time_Truncate t Second)
             then mkPpsWindow (time_Truncate t Second) 0 else w).
  assert (Hw' : secondStart w' = time_Truncate t Second /\ 0 <= packets w' <= limit
    /\ packets_in (secondStart w') acc = packets w' /\
    Forall (fun u => time_Truncate u Second <= secondStart w') acc).
  { unfold w'. destruct (secondStart w =? time_Truncate t Second) eqn:E; cbn [negb]; zbool.
    - split_and!; first [lia | done].
    - cbn [secondStart packets]. split_and!; try lia.
      + apply packets_in_later. eapply Forall_impl; [exact Hle|]. intros u Hu. simpl in Hu. lia.
      + eapply Forall_impl; [exact Hle|]. intros u Hu. simpl in Hu. lia. }
  clearbody w'. destruct Hw' as (Hst & Hp' & Heq' & Hle').
  rewrite (proj2 (Z.ltb_lt 0 limit)) by lia. cbn [andb].
  destruct (limit <=? packets w') eqn:E; zbool.
  - apply IH with w'; try done; cbn; [by rewrite lookup_insert_eq|by rewrite Hst].
  - rewrite int64_small by (unfold is_int64; lia).
    replace (acc ++ t :: _) with ((acc ++ [t]) ++
      udp_run (set_session_packets m (<[sid := mkPpsWindow (secondStart w') (packets w' + 1)]>
                 (sessionPackets m))) sid times) by (by rewrite <- app_assoc).
    apply IH with (mkPpsWindow (secondStart w') (packets w' + 1));
      cbn [cfg set_session_packets sessionPackets]; try done.
    + by rewrite lookup_insert_eq.
    + cbn. lia.
    + cbn [secondStart packets]. rewrite packets_in_app. cbn [packets_in]. zdecide. lia.
    + apply Forall_app. split; [done|]. constructor; [simpl; lia|constructor].
    + intros s'. rewrite packets_in_app. cbn [packets_in]. specialize (Hany s').
      destruct (time_Truncate t Second =? s') eqn:Es; zbool; [subst s'|lia].
      rewrite Hst in Heq'. lia.
    + cbn [secondStart]. by rewrite Hst.
Qed.

(** the UDP packet budget: in every clock second the manager accepts at most
    [MaxUDPPPS] packets of a session, whatever the sequence of packets. *)
Theorem udp_packet_budget m sid times s :
  0 < MaxUDPPPS (cfg m) < 2 ^ 63 -> sessionPackets m !! sid = None -> StronglySorted Z.le times ->
  packets_in s (udp_run m sid times) <= MaxUDPPPS (cfg m).
Proof.
  intros Hlim Hnew Hs. destruct times as [|t times]; [simpl; lia|].
  pose (w0 := mkPpsWindow (time_Truncate t Second) 0).
  assert (Hstart : udp_run m sid (t :: times)
    = udp_run (set_session_packets m (<[sid := w0]> (sessionPackets m))) sid (t :: times)).
  { cbn [udp_run]. unfold AllowUDPPacket. cbn [cfg set_session_packets sessionPackets].
    rewrite Hnew, lookup_insert_eq. cbn [from_option id]. unfold w0. cbn [secondStart]. by rewrite !insert_insert_eq. }
  rewrite Hstart. apply (udp_run_bound sid _ (t :: times) _ [] w0); try done; cbn; try lia.
  - by rewrite lookup_insert_eq.
  - constructor; [done|]. apply StronglySorted_inv in Hs as [_ Ht].
    eapply Forall_impl; [exact Ht|]. intros u Hu. by apply Truncate_mono.
Qed.

Lemma udp_packet_budget_witness :
  packets_in 0 (udp_run (NewManager ex_limits) 7 [1; 2; 3; Second])
  <= MaxUDPPPS (cfg (NewManager ex_limits)).
Proof.
  apply udp_packet_budget; [split; vm_compute; congruence|reflexivity|].
  repeat constructor; vm_compute; congruence.
Defined.
