(* ===== verification/RingBuffer.v ===== *)
(** * The downstream buffer of a relay connection ([internal/relay/ring_buffer.go])

    A fixed-capacity circular byte buffer. Slice expressions keep Go's bounds check, so a
    method is a value of [res]; the refinement theorem shows that no check ever fails and
    that the buffer behaves as a bounded FIFO queue. *)

From S2P Require Import Prelude.

Record RingBuffer := mkRingBuffer {
  rb_buf : list byte; rb_r : Z; rb_w : Z; rb_size : Z; rb_closed : bool }.

Definition NewRingBuffer (capacity : Z) : RingBuffer :=
  let capacity := if capacity <? 1 then 1 else capacity in
  mkRingBuffer (replicate (Z.to_nat capacity) x00) 0 0 0 false.

Definition Cap (r : RingBuffer) : Z := zlen (rb_buf r).
Definition Len (r : RingBuffer) : Z := rb_size r.

Definition minInt (a b : Z) : Z := if a <? b then a else b.

Definition Write (r : RingBuffer) (p : list byte) : res (RingBuffer * Z * bool) :=
  if rb_closed r || (zlen p =? 0) then Ok (r, 0, false)
  else
    let free := zlen (rb_buf r) - rb_size r in
    if free <=? 0 then Ok (r, 0, true)
    else
      let overflow := free <? zlen p in
      p ← (if free <? zlen p then slice p 0 free else Ok p);
      let n := zlen p in
      if n =? 0 then Ok (r, 0, overflow)
      else
        let first := minInt n (zlen (rb_buf r) - rb_w r) in
        p1 ← slice p 0 first;
        buf ← copy_into (rb_buf r) (rb_w r) (rb_w r + first) p1;
        let second := n - first in
        buf ← (if 0 <? second
               then p2 ← slice p first (zlen p); copy_into buf 0 second p2
               else Ok buf);
        Ok (mkRingBuffer buf (rb_r r) ((rb_w r + n) mod zlen buf) (rb_size r + n) (rb_closed r),
            n, overflow).

Definition Read (r : RingBuffer) (max : Z) : res (RingBuffer * list byte * bool) :=
  if (max <=? 0) || (rb_size r =? 0) then Ok (r, [], rb_closed r && (rb_size r =? 0))
  else
    let n := minInt max (rb_size r) in
    let out := replicate (Z.to_nat n) x00 in
    let first := minInt n (zlen (rb_buf r) - rb_r r) in
    s1 ← slice (rb_buf r) (rb_r r) (rb_r r + first);
    out ← copy_into out 0 first s1;
    let second := n - first in
    out ← (if 0 <? second
           then s2 ← slice (rb_buf r) 0 second; copy_into out first (zlen out) s2
           else Ok out);
    let r := mkRingBuffer (rb_buf r) ((rb_r r + n) mod zlen (rb_buf r)) (rb_w r) (rb_size r - n)
               (rb_closed r) in
    Ok (r, out, rb_closed r && (rb_size r =? 0)).

Definition Close (r : RingBuffer) : RingBuffer :=
  mkRingBuffer (rb_buf r) (rb_r r) (rb_w r) (rb_size r) true.
Definition IsClosed (r : RingBuffer) : bool := rb_closed r.

(** ** The specification: a bounded FIFO queue *)

Record fifo := mkFifo { f_queue : list byte; f_cap : Z; f_closed : bool }.

Definition fifo_write (f : fifo) (p : list byte) : fifo * Z * bool :=
  if f_closed f || (zlen p =? 0) then (f, 0, false)
  else let free := f_cap f - zlen (f_queue f) in
       let taken := ztake free p in
       (mkFifo (f_queue f ++ taken) (f_cap f) false, zlen taken, free <? zlen p).

Definition fifo_read (f : fifo) (max : Z) : fifo * list byte * bool :=
  let out := ztake max (f_queue f) in
  let rest := zdrop max (f_queue f) in
  (mkFifo rest (f_cap f) (f_closed f), out, f_closed f && (zlen rest =? 0)).

Definition fifo_close (f : fifo) : fifo := mkFifo (f_queue f) (f_cap f) true.

(** ** Representation *)

(** The queue [q] lies in the buffer in one piece or wraps around its end. *)
Inductive stored (buf : list byte) (r : Z) (q : list byte) : Prop :=
| stored_flat A B : buf = A ++ q ++ B -> r = zlen A -> stored buf r q
| stored_wrapped F q1 q2 :
    buf = q2 ++ F ++ q1 -> q = q1 ++ q2 -> r = zlen q2 + zlen F -> q1 <> [] -> stored buf r q.

Record rb_rep (rb : RingBuffer) (f : fifo) : Prop := {
  rep_stored : stored (rb_buf rb) (rb_r rb) (f_queue f);
  rep_size : rb_size rb = zlen (f_queue f);
  rep_w : rb_w rb = (rb_r rb + rb_size rb) mod zlen (rb_buf rb);
  rep_r : 0 <= rb_r rb < zlen (rb_buf rb);
  rep_cap : zlen (rb_buf rb) = f_cap f;
  rep_closed : rb_closed rb = f_closed f }.

(** ** Lemmas *)

Lemma minInt_min a b : minInt a b = Z.min a b.
Proof. unfold minInt. case_on; zbool; lia. Qed.

(** Solves a goal about lengths of appended lists. *)
Ltac zlens :=
  repeat match goal with
  | x : list _ |- _ => lazymatch goal with
                       | _ : 0 <= zlen x |- _ => fail
                       | _ => pose proof (zlen_nonneg x)
                       end
  end; autorewrite with zlen in *; lia.

(** The steps of [Write] once the data fits in the free space. *)
Definition write_steps (buf : list byte) (w : Z) (p buf' : list byte) : Prop :=
  let first := minInt (zlen p) (zlen buf - w) in
  exists p1 buf1, slice p 0 first = Ok p1 /\ copy_into buf w (w + first) p1 = Ok buf1
    /\ (if 0 <? zlen p - first
        then p2 ← slice p first (zlen p); copy_into buf1 0 (zlen p - first) p2
        else Ok buf1) = Ok buf'.

(** The data overwrites a free piece [F1] in the middle. *)
Lemma write_flat X F1 Y p w :
  zlen F1 = zlen p -> w = zlen X -> write_steps (X ++ F1 ++ Y) w p (X ++ p ++ Y).
Proof.
  intros HF ->. unfold write_steps. rewrite minInt_min.
  rewrite Z.min_l by zlens. exists p, (X ++ p ++ Y). split_and!.
  - rewrite <- (app_nil_r p) at 1. apply (slice_mid [] p []); [done|]. zlens.
  - apply copy_into_mid; lia.
  - zdecide. done.
Qed.

(** The data fills the end [B] of the buffer and goes on at its start. *)
Lemma write_around A1 A2 q B p1 p2 w :
  zlen B = zlen p1 -> zlen A1 = zlen p2 -> 0 < zlen p2 -> w = zlen ((A1 ++ A2) ++ q) ->
  write_steps ((A1 ++ A2) ++ q ++ B) w (p1 ++ p2) (p2 ++ A2 ++ q ++ p1).
Proof.
  intros HB HA Hp ->. unfold write_steps. rewrite minInt_min.
  rewrite Z.min_r by zlens.
  replace (zlen ((A1 ++ A2) ++ q ++ B) - zlen ((A1 ++ A2) ++ q)) with (zlen p1) by zlens.
  exists p1, (((A1 ++ A2) ++ q) ++ p1 ++ []). split_and!.
  - apply (slice_mid [] p1 p2); [done|zlens].
  - replace ((A1 ++ A2) ++ q ++ B) with (((A1 ++ A2) ++ q) ++ B ++ []) by (by rewrite app_nil_r, <- app_assoc).
    apply copy_into_mid; zlens.
  - rewrite (proj2 (Z.ltb_lt 0 _)) by zlens.
    rewrite <- (app_nil_r p2) at 1.
    rewrite (slice_mid p1 p2 []) by zlens. cbn [mbind res_bind].
    rewrite app_nil_r, <- !app_assoc. rewrite (copy_into_mid [] A1 (A2 ++ q ++ p1) p2) by zlens. done.
Qed.

Lemma write_stored buf r q p w :
  stored buf r q -> 0 <= r < zlen buf -> w = (r + zlen q) mod zlen buf ->
  0 < zlen p <= zlen buf - zlen q ->
  exists buf', write_steps buf w p buf' /\ stored buf' r (q ++ p) /\ zlen buf' = zlen buf.
Proof.
  intros Hst Hr Hw Hp. destruct Hst as [A B -> ->|F q1 q2 -> -> -> Hq1].
  - destruct (Z.eq_dec (zlen B) 0) as [HB|HB].
    + apply zlen_zero in HB as ->.
      assert (Hq : q <> []) by (intros ->; zlens).
      rewrite mod_wrap in Hw by zlens. rewrite (proj2 (Z.ltb_ge _ _)) in Hw by zlens.
      destruct (cut_at (zlen p) A) as (A1 & A2 & -> & HA); [zlens|].
      exists ([] ++ p ++ A2 ++ q). split_and!; [|apply stored_wrapped with A2 q p; [done|done|zlens|done]|zlens].
      rewrite app_nil_r, <- app_assoc. apply (write_flat [] A1); zlens.
    + rewrite mod_wrap in Hw by zlens. rewrite (proj2 (Z.ltb_lt _ _)) in Hw by zlens.
      destruct (Z_le_gt_dec (zlen p) (zlen B)) as [Hle|Hgt].
      * destruct (cut_at (zlen p) B) as (B1 & B2 & -> & HB1); [zlens|].
        exists ((A ++ q) ++ p ++ B2). split_and!.
        -- rewrite app_assoc. apply write_flat; zlens.
        -- apply stored_flat with A B2; [by rewrite <- !app_assoc|zlens].
        -- zlens.
      * destruct (cut_at (zlen B) p) as (p1 & p2 & -> & Hp1); [zlens|].
        destruct (cut_at (zlen p2) A) as (A1 & A2 & -> & HA1); [zlens|].
        exists (p2 ++ A2 ++ q ++ p1). split_and!.
        -- apply write_around; zlens.
        -- apply stored_wrapped with A2 (q ++ p1) p2; [done|by rewrite <- app_assoc|zlens|].
           intros [-> ->]%app_eq_nil. zlens.
        -- zlens.
  - apply nonempty_pos in Hq1.
    rewrite mod_wrap in Hw by zlens. rewrite (proj2 (Z.ltb_ge _ _)) in Hw by zlens.
    destruct (cut_at (zlen p) F) as (F1 & F2 & -> & HF1); [zlens|].
    exists (q2 ++ p ++ F2 ++ q1). split_and!.
    + rewrite <- app_assoc. apply write_flat; zlens.
    + apply stored_wrapped with F2 q1 (q2 ++ p); [by rewrite <- app_assoc|by rewrite app_assoc|zlens|].
      intros ->. zlens.
    + zlens.
Qed.

(** The steps of [Read] that collect [n] bytes. *)
Definition read_steps (buf : list byte) (r n : Z) (out : list byte) : Prop :=
  let first := minInt n (zlen buf - r) in
  exists s1 out1, slice buf r (r + first) = Ok s1
    /\ copy_into (replicate (Z.to_nat n) x00) 0 first s1 = Ok out1
    /\ (if 0 <? n - first
        then s2 ← slice buf 0 (n - first); copy_into out1 first (zlen out1) s2
        else Ok out1) = Ok out.

Lemma zlen_replicate {A} n (x : A) : 0 <= n -> zlen (replicate (Z.to_nat n) x) = n.
Proof. intros. unfold zlen. rewrite length_replicate. lia. Qed.

Lemma read_flat X out Y r n :
  r = zlen X -> n = zlen out -> read_steps (X ++ out ++ Y) r n out.
Proof.
  intros -> ->. unfold read_steps. rewrite minInt_min. rewrite Z.min_l by zlens.
  exists out, out. split_and!.
  - apply slice_mid; zlens.
  - pose proof (zlen_replicate (zlen out) x00 (zlen_nonneg out)) as Hz. revert Hz.
    generalize (replicate (Z.to_nat (zlen out)) x00) as o. intros o Hz.
    rewrite <- (app_nil_r o), <- (app_nil_r out) at 1.
    etrans; [apply (copy_into_mid [] o [] out); zlens|]. by rewrite app_nil_r.
  - zdecide. done.
Qed.

Lemma read_around q2a q2b F q1 r n :
  r = zlen (q2a ++ q2b) + zlen F -> n = zlen q1 + zlen q2a -> 0 < zlen q2a ->
  read_steps ((q2a ++ q2b) ++ F ++ q1) r n (q1 ++ q2a).
Proof.
  intros -> -> Hp. unfold read_steps. rewrite minInt_min. rewrite Z.min_r by zlens.
  replace (zlen ((q2a ++ q2b) ++ F ++ q1) - _) with (zlen q1) by zlens.
  pose proof (zlen_replicate (zlen q1 + zlen q2a) x00 ltac:(zlens)) as Hz. revert Hz.
  generalize (replicate (Z.to_nat (zlen q1 + zlen q2a)) x00) as o. intros o Hz.
  destruct (cut_at (zlen q1) o) as (o1 & o2 & -> & Ho1); [zlens|].
  exists q1, (q1 ++ o2). split_and!.
  - replace ((q2a ++ q2b) ++ F ++ q1) with (((q2a ++ q2b) ++ F) ++ q1 ++ []) by (by rewrite app_nil_r, <- !app_assoc).
    apply slice_mid; zlens.
  - apply (copy_into_mid [] o1 o2 q1); zlens.
  - rewrite (proj2 (Z.ltb_lt 0 _)) by zlens.
    assert (Hs : slice ((q2a ++ q2b) ++ F ++ q1) 0 (zlen q1 + zlen q2a - zlen q1) = Ok q2a)
      by (rewrite <- app_assoc; apply (slice_mid [] q2a); zlens).
    rewrite Hs. cbn [mbind res_bind].
    rewrite <- (app_nil_r o2) at 1. etrans; [apply (copy_into_mid q1 o2 [] q2a); zlens|]. by rewrite app_nil_r.
Qed.

(** Reading [n] bytes takes the first [n] of the queue and leaves the rest stored. *)
Lemma read_stored buf r qa qb n :
  stored buf r (qa ++ qb) -> 0 <= r < zlen buf -> n = zlen qa -> 0 < n ->
  read_steps buf r n qa /\ stored buf ((r + n) mod zlen buf) qb.
Proof.
  intros Hst Hr -> Hn. destruct Hst as [A B -> ->|F q1 q2 -> Hq -> Hq1].
  - rewrite <- app_assoc. split; [apply read_flat; zlens|].
    rewrite mod_wrap by zlens. destruct (_ <? _) eqn:E; zbool.
    + apply stored_flat with (A ++ qa) B; [by rewrite <- !app_assoc|zlens].
    + assert (qb = []) as -> by (apply zlen_zero; zlens).
      apply stored_flat with [] (A ++ qa ++ [] ++ B); [done|zlens].
  - apply nonempty_pos in Hq1.
    destruct (Z_le_gt_dec (zlen qa) (zlen q1)) as [Hle|Hgt].
    + destruct (cut_at (zlen qa) q1) as (a & b & -> & Ha); [zlens|].
      rewrite <- app_assoc in Hq. apply app_inj_1 in Hq as [<- ->]; [|unfold zlen in Ha; lia].
      split.
      * replace (q2 ++ F ++ qa ++ b) with ((q2 ++ F) ++ qa ++ b) by (by rewrite <- app_assoc).
        apply read_flat; zlens.
      * rewrite mod_wrap by zlens. destruct (_ <? _) eqn:E; zbool.
        -- apply stored_wrapped with (F ++ qa) b q2; [by rewrite <- app_assoc|done|zlens|]. intros ->. zlens.
        -- assert (b = []) as -> by (apply zlen_zero; zlens).
           apply stored_flat with [] (F ++ qa ++ []); [done|zlens].
    + destruct (cut_at (zlen q1) qa) as (a & b & -> & Ha); [zlens|].
      rewrite <- app_assoc in Hq. apply app_inj_1 in Hq as [-> <-]; [|unfold zlen in Ha; lia].
      split; [apply read_around; zlens|].
      rewrite mod_wrap by zlens. rewrite (proj2 (Z.ltb_ge _ _)) by zlens.
      apply stored_flat with b (F ++ q1); [by rewrite <- !app_assoc|zlens].
Qed.

(** ** The refinement *)

Lemma NewRingBuffer_rep capacity :
  rb_rep (NewRingBuffer capacity) (mkFifo [] (Z.max 1 capacity) false).
Proof.
  unfold NewRingBuffer. replace (if capacity <? 1 then 1 else capacity) with (Z.max 1 capacity)
    by (case_on; zbool; lia).
  split; cbn; rewrite ?zlen_replicate by lia; try done; [|lia..].
  eapply stored_flat with [] _; [reflexivity|done].
Qed.

Lemma stored_fits buf r q : stored buf r q -> zlen q <= zlen buf.
Proof. intros [A B -> _|F q1 q2 -> -> _ _]; zlens. Qed.

Lemma Write_refines rb f p :
  rb_rep rb f ->
  exists rb', Write rb p = Ok (rb', (fifo_write f p).1.2, (fifo_write f p).2)
    /\ rb_rep rb' (fifo_write f p).1.1.
Proof.
  intros Hrep. pose proof Hrep as [Hst Hsz Hw Hr Hcap Hcl]. unfold Write, fifo_write.
  rewrite Hcl. destruct (f_closed f || (zlen p =? 0)) eqn:E0; [by exists rb|]. zbool. cbn [fst snd].
  rewrite Hcap, Hsz. pose proof (stored_fits _ _ _ Hst) as Hfit. pose proof (zlen_nonneg p).
  set (free := f_cap f - zlen (f_queue f)).
  destruct (free <=? 0) eqn:E1; zbool.
  { assert (Hz : ztake free p = []) by (assert (free = 0) as -> by lia; done).
    rewrite Hz, app_nil_r. change (zlen []) with 0. rewrite (proj2 (Z.ltb_lt free _)) by lia. exists rb. split; [done|].
    split; cbn; try done; congruence. }
  assert (Hcut : (if free <? zlen p then slice p 0 free else Ok p) = Ok (ztake free p)).
  { destruct (free <? zlen p) eqn:E2; zbool; [|by rewrite ztake_all].
    unfold slice. zdecide. cbn [andb]. by rewrite zdrop_zero, Z.sub_0_r. }
  rewrite Hcut. cbn [mbind res_bind]. set (p' := ztake free p).
  assert (Hp' : 0 < zlen p' <= free) by (unfold p'; rewrite zlen_ztake; lia).
  rewrite (proj2 (Z.eqb_neq (zlen p') 0)) by lia.
  destruct (write_stored _ _ _ p' (rb_w rb) Hst Hr) as (buf' & (p1 & buf1 & Hs1 & Hs2 & Hs3) & Hst' & Hl);
    [by rewrite Hw, Hsz|lia|].
  rewrite Hcap in Hs1, Hs2, Hs3. rewrite Hs1. cbn [mbind res_bind]. rewrite Hs2. cbn [mbind res_bind].
  rewrite Hs3. cbn [mbind res_bind].
  eexists. split; [reflexivity|]. rewrite Hl.
  split; cbn [rb_buf rb_r rb_w rb_size rb_closed f_queue f_cap f_closed]; try done.
  - rewrite zlen_app. lia.
  - rewrite Hw, Hsz, Hl, Zplus_mod_idemp_l. f_equal. lia.
  - by rewrite Hl.
  - by rewrite Hl.
Qed.

Lemma Read_refines rb f max :
  rb_rep rb f ->
  exists rb', Read rb max = Ok (rb', (fifo_read f max).1.2, (fifo_read f max).2)
    /\ rb_rep rb' (fifo_read f max).1.1.
Proof.
  intros Hrep. pose proof Hrep as [Hst Hsz Hw Hr Hcap Hcl]. unfold Read, fifo_read. cbn [fst snd].
  pose proof (zlen_nonneg (f_queue f)).
  destruct ((max <=? 0) || (rb_size rb =? 0)) eqn:E0.
  { assert (Hsame : ztake max (f_queue f) = [] /\ zdrop max (f_queue f) = f_queue f).
    { apply orb_prop in E0 as [E|E]; zbool.
      - unfold ztake, zdrop. by replace (Z.to_nat max) with 0%nat by lia.
      - assert (f_queue f = []) as -> by (apply zlen_zero; lia).
        unfold ztake, zdrop. by rewrite take_nil, drop_nil. }
    destruct Hsame as [-> ->]. rewrite Hcl, Hsz. exists rb. split; [done|]. by split. }
  zbool. rewrite minInt_min, Hsz.
  set (n := Z.min max (zlen (f_queue f))).
  assert (Hn : n = zlen (ztake max (f_queue f))) by (unfold n; rewrite zlen_ztake; lia).
  pose proof (ztake_zdrop max (f_queue f)) as Hq. rewrite <- Hq in Hst.
  destruct (read_stored _ _ _ _ n Hst Hr Hn) as [(s1 & out1 & Hs1 & Hs2 & Hs3) Hst']; [lia|].
  rewrite Hs1. cbn [mbind res_bind]. rewrite Hs2. cbn [mbind res_bind]. rewrite Hs3. cbn [mbind res_bind].
  cbn [rb_closed rb_size].
  assert (Hrest : zlen (f_queue f) - n = zlen (zdrop max (f_queue f))).
  { rewrite <- Hq at 1. rewrite zlen_app. lia. }
  rewrite Hcl, Hrest. eexists. split; [reflexivity|].
  split; cbn [rb_buf rb_r rb_w rb_size rb_closed f_queue f_cap f_closed]; try done.
  - rewrite Hw, Hsz, Zplus_mod_idemp_l. f_equal. lia.
  - apply Z.mod_pos_bound. lia.
Qed.

(** A call of the buffer and what its caller sees. *)
Inductive rb_op := OpWrite (p : list byte) | OpRead (max : Z) | OpClose | OpLen.
Inductive rb_obs := ObsWrite (n : Z) (overflow : bool) | ObsRead (out : list byte) (eos : bool)
                  | ObsClose | ObsLen (n : Z).

Definition rb_do (rb : RingBuffer) (o : rb_op) : res (RingBuffer * rb_obs) :=
  match o with
  | OpWrite p => '(rb, n, ov) ← Write rb p; Ok (rb, ObsWrite n ov)
  | OpRead max => '(rb, out, eos) ← Read rb max; Ok (rb, ObsRead out eos)
  | OpClose => Ok (Close rb, ObsClose)
  | OpLen => Ok (rb, ObsLen (Len rb))
  end.
Fixpoint rb_run (rb : RingBuffer) (ops : list rb_op) : res (list rb_obs) :=
  match ops with
  | [] => Ok []
  | o :: ops => '(rb, x) ← rb_do rb o; xs ← rb_run rb ops; Ok (x :: xs)
  end.

Definition fifo_do (f : fifo) (o : rb_op) : fifo * rb_obs :=
  match o with
  | OpWrite p => let '(f, n, ov) := fifo_write f p in (f, ObsWrite n ov)
  | OpRead max => let '(f, out, eos) := fifo_read f max in (f, ObsRead out eos)
  | OpClose => (fifo_close f, ObsClose)
  | OpLen => (f, ObsLen (zlen (f_queue f)))
  end.
Fixpoint fifo_run (f : fifo) (ops : list rb_op) : list rb_obs :=
  match ops with
  | [] => []
  | o :: ops => (fifo_do f o).2 :: fifo_run (fifo_do f o).1 ops
  end.

Lemma rb_do_refines rb f o :
  rb_rep rb f -> exists rb', rb_do rb o = Ok (rb', (fifo_do f o).2) /\ rb_rep rb' (fifo_do f o).1.
Proof.
  intros Hrep. destruct o as [p|max| |]; unfold rb_do, fifo_do.
  - destruct (Write_refines rb f p Hrep) as (rb' & -> & Hr). cbn [mbind res_bind].
    destruct (fifo_write f p) as [[f' n] ov]. by exists rb'.
  - destruct (Read_refines rb f max Hrep) as (rb' & -> & Hr). cbn [mbind res_bind].
    destruct (fifo_read f max) as [[f' out] eos]. by exists rb'.
  - exists (Close rb). split; [done|]. destruct Hrep. by split.
  - exists rb. unfold Len. by rewrite (rep_size _ _ Hrep).
Qed.

Lemma rb_run_refines ops : forall rb f, rb_rep rb f -> rb_run rb ops = Ok (fifo_run f ops).
Proof.
  induction ops as [|o ops IH]; intros rb f Hrep; [done|]. cbn [rb_run fifo_run].
  destruct (rb_do_refines rb f o Hrep) as (rb' & -> & Hrep'). cbn [mbind res_bind].
  by rewrite (IH rb' _ Hrep').
Qed.

(** C4: the ring buffer refines a bounded FIFO byte queue. Whatever the sequence of writes,
    reads, closes and length queries on a new buffer, no slice bound is ever violated and every
    result (accepted count, overflow flag, bytes read, end-of-stream flag, length) is the one
    the abstract queue gives. *)
Theorem ring_buffer_refines_fifo capacity ops :
  rb_run (NewRingBuffer capacity) ops = Ok (fifo_run (mkFifo [] (Z.max 1 capacity) false) ops).
Proof. apply rb_run_refines, NewRingBuffer_rep. Qed.

Example ring_buffer_wraps :
  rb_run (NewRingBuffer 4) [OpWrite [x01; x02; x03]; OpRead 2; OpWrite [x04; x05; x06; x07]; OpClose; OpRead 9]
  = Ok [ObsWrite 3 false; ObsRead [x01; x02] false; ObsWrite 3 true; ObsClose;
        ObsRead [x03; x04; x05; x06] true].
Proof. reflexivity. Qed.
