(* ===== verification/Wheel.v ===== *)
(** * The timing wheel ([internal/store/ttl_wheel.go])

    A wheel of slots that fires a callback a number of ticks after it was scheduled. [C] is
    the type of callbacks. The methods and [tick] hold the wheel's mutex; [tick] returns the
    entries whose callbacks it calls after unlocking. An entry is one object that both maps
    point to, so a change of its rounds is written to both. *)

From S2P Require Import Prelude GoString.

Section Wheel.
  Context {C : Type}.

Record wheelEntry := mkEntry { we_key : string; we_slot : Z; we_rounds : Z; we_callback : option C }.

Record Wheel := mkWheel {
  wh_interval : Z; wh_slots : list (gmap string wheelEntry);
  wh_entries : gmap string wheelEntry; wh_cursor : Z }.

Definition NewWheel (interval slotCount : Z) : Wheel :=
  let interval := if interval <=? 0 then Second else interval in
  let slotCount := if slotCount <? 4 then 4 else slotCount in
  mkWheel interval (replicate (Z.to_nat slotCount) ∅) ∅ 0.

Definition slot_at (w : Wheel) (i : Z) : gmap string wheelEntry :=
  default ∅ (wh_slots w !! Z.to_nat i).
Definition set_slot (w : Wheel) (i : Z) (m : gmap string wheelEntry) (entries : gmap string wheelEntry)
  : Wheel := mkWheel (wh_interval w) (<[Z.to_nat i := m]> (wh_slots w)) entries (wh_cursor w).

(** One iteration of the loop of [tick] over the slot. *)
Definition tick_entry (i : Z) (acc : Wheel * list wheelEntry) (ke : string * wheelEntry)
  : Wheel * list wheelEntry :=
  let '(w, fired) := acc in
  let '(key, entry) := ke in
  if 0 <? we_rounds entry then
    let entry := mkEntry (we_key entry) (we_slot entry) (we_rounds entry - 1) (we_callback entry) in
    (set_slot w i (<[key := entry]> (slot_at w i)) (<[key := entry]> (wh_entries w)), fired)
  else
    (set_slot w i (delete key (slot_at w i)) (delete key (wh_entries w)),
     match we_callback entry with Some _ => fired ++ [entry] | None => fired end).

Definition tick (w : Wheel) : Wheel * list wheelEntry :=
  let cursor := (wh_cursor w + 1) mod zlen (wh_slots w) in
  let w := mkWheel (wh_interval w) (wh_slots w) (wh_entries w) cursor in
  foldl (tick_entry cursor) (w, []) (map_to_list (slot_at w cursor)).

Definition removeLocked (w : Wheel) (key : string) : Wheel :=
  match wh_entries w !! key with
  | None => w
  | Some entry =>
      set_slot w (we_slot entry) (delete key (slot_at w (we_slot entry))) (delete key (wh_entries w))
  end.

(** The number of ticks that a time to live stands for. *)
Definition steps_of (interval ttl : Z) : Z :=
  let steps := Z.quot ttl interval in
  let steps := if negb (Z.rem ttl interval =? 0) then steps + 1 else steps in
  if steps <? 1 then 1 else steps.

(** The slot and the rounds of an entry due in [steps] ticks. *)
Definition place_slot (cursor steps slotCount : Z) : Z := (cursor + steps) mod slotCount.
Definition place_rounds (cursor steps slotCount : Z) : Z :=
  let rounds := Z.quot steps slotCount in
  let rounds := if place_slot cursor steps slotCount <=? cursor then rounds - 1 else rounds in
  if rounds <? 0 then 0 else rounds.

(** The common tail of [Upsert] and [Touch]. *)
Definition schedule (w : Wheel) (key : string) (ttl : Z) (callback : option C) : Wheel :=
  let steps := steps_of (wh_interval w) ttl in
  let slotCount := zlen (wh_slots w) in
  let targetSlot := place_slot (wh_cursor w) steps slotCount in
  let rounds := place_rounds (wh_cursor w) steps slotCount in
  let entry := mkEntry key targetSlot rounds callback in
  set_slot w targetSlot (<[key := entry]> (slot_at w targetSlot)) (<[key := entry]> (wh_entries w)).

Definition Upsert (w : Wheel) (key : string) (ttl : Z) (callback : option C) : Wheel :=
  let ttl := if ttl <=? 0 then wh_interval w else ttl in
  schedule (removeLocked w key) key ttl callback.

Definition Touch (w : Wheel) (key : string) (ttl : Z) : Wheel * bool :=
  let ttl := if ttl <=? 0 then wh_interval w else ttl in
  match wh_entries w !! key with
  | None => (w, false)
  | Some entry => (schedule (removeLocked w key) key ttl (we_callback entry), true)
  end.

Definition Remove (w : Wheel) (key : string) : Wheel := removeLocked w key.

(** ** The invariant *)

(** An entry sits in exactly one slot, the one it names, under its own key. *)
Record wheel_inv (w : Wheel) : Prop := {
  wi_interval : 0 < wh_interval w;
  wi_slots : 4 <= zlen (wh_slots w);
  wi_cursor : 0 <= wh_cursor w < zlen (wh_slots w);
  wi_entry : forall key e, wh_entries w !! key = Some e ->
    we_key e = key /\ 0 <= we_slot e < zlen (wh_slots w) /\ 0 <= we_rounds e;
  wi_slot : forall i key e, 0 <= i < zlen (wh_slots w) ->
    (slot_at w i !! key = Some e <-> wh_entries w !! key = Some e /\ we_slot e = i) }.
End Wheel.
Arguments wheelEntry C : clear implicits.
Arguments Wheel C : clear implicits.

Definition RelayKey (connID : string) : string := ("relay:" ++ connID)%string.
Definition SessionKey (sessionID : Z) : string :=
  ("session:" ++ string_of_bytes (FormatUint sessionID))%string.

(** ** Lemmas *)

Lemma steps_of_pos interval ttl : 1 <= steps_of interval ttl.
Proof. unfold steps_of. repeat case_on; zbool; lia. Qed.

(** A time to live is rounded up to whole ticks. *)
Lemma steps_of_ceil interval ttl :
  0 < interval -> 0 < ttl ->
  (steps_of interval ttl - 1) * interval < ttl <= steps_of interval ttl * interval.
Proof.
  intros Hi Ht. unfold steps_of. pose proof (Z.quot_rem' ttl interval).
  pose proof (Z.rem_bound_pos ttl interval). pose proof (Z.quot_pos ttl interval).
  destruct (negb _) eqn:E; zbool; repeat case_on; zbool; nia.
Qed.

Section WheelFacts.
  Context {C : Type}.
  Implicit Types (w : Wheel C) (e : wheelEntry C).

Lemma slot_at_set w i m en j :
  0 <= i < zlen (wh_slots w) -> 0 <= j ->
  slot_at (set_slot w i m en) j = if decide (j = i) then m else slot_at w j.
Proof.
  intros Hi Hj. unfold slot_at, set_slot, zlen in *. simpl. case_decide as Hd.
  - subst j. rewrite list_lookup_insert_eq by lia. done.
  - rewrite list_lookup_insert_ne by lia. done.
Qed.

Lemma zlen_set_slot w i m en : zlen (wh_slots (set_slot w i m en)) = zlen (wh_slots w).
Proof. unfold zlen. simpl. by rewrite length_insert. Qed.

(** What one visit of the cursor does to an entry. *)
Definition visit e : option (wheelEntry C) :=
  if 0 <? we_rounds e
  then Some (mkEntry (we_key e) (we_slot e) (we_rounds e - 1) (we_callback e)) else None.
Definition fires e : option (wheelEntry C) :=
  if 0 <? we_rounds e then None else match we_callback e with Some _ => Some e | None => None end.

Definition same_frame w w' : Prop :=
  wh_interval w' = wh_interval w /\ zlen (wh_slots w') = zlen (wh_slots w)
  /\ wh_cursor w' = wh_cursor w.

Lemma tick_fold i l : forall w f,
  0 <= i < zlen (wh_slots w) -> NoDup l.*1 ->
  let '(w', f') := foldl (tick_entry i) (w, f) l in
  same_frame w w' /\ f' = f ++ omap (fun ke => fires ke.2) l /\
  (forall k, wh_entries w' !! k =
     match list_to_map (M := gmap string _) l !! k with Some e => visit e | None => wh_entries w !! k end) /\
  (forall j k, 0 <= j < zlen (wh_slots w) -> slot_at w' j !! k =
     match list_to_map (M := gmap string _) l !! k with
     | Some e => if decide (j = i) then visit e else slot_at w j !! k
     | None => slot_at w j !! k end).
Proof.
  induction l as [|[k0 e0] l IH]; intros w f Hi Hnd.
  { simpl. rewrite app_nil_r. done. }
  simpl in Hnd. apply NoDup_cons in Hnd as [Hk0 Hnd]. cbn [foldl].
  set (acc := tick_entry i (w, f) (k0, e0)).
  assert (Hacc : same_frame w acc.1 /\ acc.2 = f ++ option_list (fires e0) /\
    (forall k, wh_entries acc.1 !! k = if decide (k = k0) then visit e0 else wh_entries w !! k) /\
    (forall j k, 0 <= j < zlen (wh_slots w) -> slot_at acc.1 j !! k =
       if decide (j = i) then (if decide (k = k0) then visit e0 else slot_at w j !! k)
       else slot_at w j !! k)).
  { unfold acc, tick_entry, visit, fires.
    destruct (0 <? we_rounds e0); cbn [fst snd]; (split; [by split_and!; try apply zlen_set_slot|]);
      (split; [destruct (we_callback e0); by rewrite ?app_nil_r|]); (split; [intros k|intros j k Hj]).
    - cbn. case_decide as Hk; [subst; apply lookup_insert_eq|by rewrite lookup_insert_ne].
    - rewrite slot_at_set by lia. case_decide as Hji; [subst|done].
      case_decide as Hk; [subst; apply lookup_insert_eq|by rewrite lookup_insert_ne].
    - cbn. case_decide as Hk; [subst; apply lookup_delete_eq|by rewrite lookup_delete_ne].
    - rewrite slot_at_set by lia. case_decide as Hji; [subst|done].
      case_decide as Hk; [subst; apply lookup_delete_eq|by rewrite lookup_delete_ne]. }
  destruct acc as [w1 f1]. cbn [fst snd] in Hacc. destruct Hacc as ((Ha & Hb & Hc) & -> & He & Hs).
  specialize (IH w1 (f ++ option_list (fires e0))). rewrite Hb in IH. specialize (IH Hi Hnd).
  destruct (foldl (tick_entry i) (w1, f ++ option_list (fires e0)) l) as [w' f'].
  destruct IH as ((Ha' & Hb' & Hc') & -> & He' & Hs').
  assert (Hnone : list_to_map (M := gmap string (wheelEntry C)) l !! k0 = None)
    by by apply not_elem_of_list_to_map_1.
  split_and!.
  - unfold same_frame. split_and!; congruence.
  - rewrite <- app_assoc. f_equal. cbn. by destruct (fires e0).
  - intros k. rewrite He', He. cbn [list_to_map foldr uncurry fst snd]. destruct (decide (k = k0)) as [->|Hk].
    + by rewrite lookup_insert_eq, Hnone.
    + by rewrite lookup_insert_ne.
  - intros j k Hj. rewrite (Hs' j k Hj), (Hs j k Hj). cbn [list_to_map foldr uncurry fst snd].
    destruct (decide (k = k0)) as [->|Hk].
    + by rewrite lookup_insert_eq, Hnone.
    + rewrite lookup_insert_ne by done. repeat case_decide; done.
Qed.

Lemma tick_spec w :
  wheel_inv w ->
  let c := (wh_cursor w + 1) mod zlen (wh_slots w) in
  wh_interval (tick w).1 = wh_interval w /\ zlen (wh_slots (tick w).1) = zlen (wh_slots w) /\
  wh_cursor (tick w).1 = c /\
  (tick w).2 = omap (fun ke => fires ke.2) (map_to_list (slot_at w c)) /\
  (forall k, wh_entries (tick w).1 !! k =
     e ← wh_entries w !! k; if decide (we_slot e = c) then visit e else Some e) /\
  (forall j k, 0 <= j < zlen (wh_slots w) -> slot_at (tick w).1 j !! k =
     e ← slot_at w j !! k; if decide (j = c) then visit e else Some e).
Proof.
  intros Hinv c. pose proof (wi_slots _ Hinv) as Hn. pose proof (wi_cursor _ Hinv) as Hcur.
  assert (Hc : 0 <= c < zlen (wh_slots w)) by (apply Z.mod_pos_bound; lia).
  set (w0 := mkWheel (wh_interval w) (wh_slots w) (wh_entries w) c).
  pose proof (tick_fold c (map_to_list (slot_at w0 c)) w0 [] Hc (NoDup_fst_map_to_list _)) as H.
  unfold tick. fold c. cbv zeta. fold w0.
  destruct (foldl (tick_entry c) (w0, []) (map_to_list (slot_at w0 c))) as [w' f'].
  destruct H as ((Ha & Hb & Hd) & -> & He & Hs). cbn [fst snd].
  assert (Hslot : forall k, slot_at w0 c !! k = slot_at w c !! k) by done.
  split_and!; try done.
  - intros k. rewrite He, list_to_map_to_list, Hslot.
    destruct (slot_at w c !! k) as [e|] eqn:E.
    + apply (wi_slot _ Hinv) in E as [-> Hsl]; [|done]. cbn. by rewrite decide_True.
    + change (wh_entries w0) with (wh_entries w). destruct (wh_entries w !! k) as [e|] eqn:E2; [|done].
      cbn. rewrite decide_False; [done|]. intros Hsl.
      assert (slot_at w c !! k = Some e) by (by apply (wi_slot _ Hinv)). congruence.
  - intros j k Hj. rewrite (Hs j k Hj), list_to_map_to_list, Hslot.
    change (slot_at w0 j) with (slot_at w j).
    destruct (decide (j = c)) as [->|Hjc].
    + by destruct (slot_at w c !! k).
    + by destruct (slot_at w c !! k), (slot_at w j !! k).
Qed.

Lemma visit_some e e' : visit e = Some e' ->
  we_key e' = we_key e /\ we_slot e' = we_slot e /\ we_callback e' = we_callback e
  /\ we_rounds e' = we_rounds e - 1 /\ 0 < we_rounds e.
Proof. unfold visit. case_on; [|done]. intros [= <-]. zbool. done. Qed.

Lemma tick_inv w : wheel_inv w -> wheel_inv (tick w).1.
Proof.
  intros Hinv. pose proof (wi_slots _ Hinv) as Hn.
  destruct (tick_spec w Hinv) as (Hi & Hl & Hc & _ & He & Hs).
  set (c := (wh_cursor w + 1) mod zlen (wh_slots w)) in *.
  split; rewrite ?Hi, ?Hl, ?Hc.
  - apply (wi_interval _ Hinv).
  - done.
  - apply Z.mod_pos_bound. lia.
  - intros key e Hk. rewrite He in Hk. destruct (wh_entries w !! key) as [e0|] eqn:E; [|done].
    cbn in Hk. apply (wi_entry _ Hinv) in E as (H1 & H2 & H3).
    case_decide; [apply visit_some in Hk as (-> & -> & _ & -> & ?); split; [done|lia]|by injection Hk as <-].
  - intros i key e Hir. rewrite He, (Hs i key Hir). split.
    + destruct (slot_at w i !! key) as [e0|] eqn:E; [|done]. cbn. intros Hv.
      apply (wi_slot _ Hinv) in E as [-> Hsl]; [|done]. cbn. rewrite Hsl.
      case_decide; [|by injection Hv as <-]. split; [done|].
      apply visit_some in Hv as (_ & -> & _). done.
    + intros [Hk Hsl]. destruct (wh_entries w !! key) as [e0|] eqn:E; [|done]. cbn in Hk.
      assert (Hsl0 : we_slot e0 = i).
      { case_decide; [apply visit_some in Hk as (_ & Heq & _); congruence|by injection Hk as ->]. }
      assert (slot_at w i !! key = Some e0) as -> by (by apply (wi_slot _ Hinv)).
      cbn. by rewrite Hsl0 in Hk.
Qed.

Lemma removeLocked_frame w key : same_frame w (removeLocked w key).
Proof.
  unfold removeLocked. destruct (wh_entries w !! key) as [e|]; [|done].
  split_and!; try done. apply zlen_set_slot.
Qed.

Lemma removeLocked_entries w key : wh_entries (removeLocked w key) = delete key (wh_entries w).
Proof.
  unfold removeLocked. destruct (wh_entries w !! key) as [e|] eqn:E; [done|]. by rewrite delete_id.
Qed.

Lemma removeLocked_inv w key : wheel_inv w -> wheel_inv (removeLocked w key).
Proof.
  intros Hinv. destruct (removeLocked_frame w key) as (Hi & Hl & Hc).
  split; rewrite ?Hi, ?Hl, ?Hc, ?removeLocked_entries; [apply Hinv..| |].
  - intros k e Hk. apply lookup_delete_Some in Hk as [_ Hk]. by apply (wi_entry _ Hinv).
  - intros i k e Hir. rewrite lookup_delete_Some.
    unfold removeLocked. destruct (wh_entries w !! key) as [e0|] eqn:E.
    + apply (wi_entry _ Hinv) in E as He0. destruct He0 as (_ & Hr0 & _).
      rewrite slot_at_set by lia. case_decide as Hd.
      * rewrite lookup_delete_Some, <- Hd, (wi_slot _ Hinv) by lia. tauto.
      * rewrite (wi_slot _ Hinv) by lia. split; [|tauto]. intros [Hk Hs]. split_and!; try done.
        intros <-. congruence.
    + rewrite (wi_slot _ Hinv) by lia. split; [|tauto]. intros [Hk Hs]. split_and!; try done.
      intros <-. congruence.
Qed.

Lemma place_bounds cursor steps n :
  4 <= n -> 0 <= place_slot cursor steps n < n /\ 0 <= place_rounds cursor steps n.
Proof.
  intros Hn. split; [apply Z.mod_pos_bound; lia|]. unfold place_rounds. repeat case_on; zbool; lia.
Qed.

Lemma schedule_spec w key ttl cb :
  wheel_inv w -> wh_entries w !! key = None ->
  wheel_inv (schedule w key ttl cb) /\ same_frame w (schedule w key ttl cb) /\
  wh_entries (schedule w key ttl cb) =
    <[key := mkEntry key (place_slot (wh_cursor w) (steps_of (wh_interval w) ttl) (zlen (wh_slots w)))
               (place_rounds (wh_cursor w) (steps_of (wh_interval w) ttl) (zlen (wh_slots w))) cb]>
      (wh_entries w).
Proof.
  intros Hinv Hnew. pose proof (wi_slots _ Hinv) as Hn. unfold schedule.
  set (n := zlen (wh_slots w)). set (s := steps_of _ _).
  destruct (place_bounds (wh_cursor w) s n Hn) as [Hslot Hrounds].
  set (t := place_slot _ _ _) in *. set (rd := place_rounds _ _ _) in *.
  split; [|split; [split_and!; try done; apply zlen_set_slot|done]].
  split; rewrite ?zlen_set_slot; [apply Hinv..| |].
  - intros k e Hk. cbn in Hk. apply lookup_insert_Some in Hk as [[<- <-]|[_ Hk]]; [done|].
    by apply (wi_entry _ Hinv).
  - intros i k e Hi. rewrite slot_at_set by (fold n; lia). cbn [wh_entries set_slot].
    case_decide as Hd.
    + subst i. rewrite !lookup_insert_Some, (wi_slot _ Hinv) by done. split.
      * intros [[<- <-]|[? [? ?]]]; [by split; [left|]|]. split; [by right|done].
      * intros [[[<- <-]|[? ?]] ?]; [by left|by right].
    + rewrite lookup_insert_Some, (wi_slot _ Hinv) by done. split.
      * intros [Hk Hs]. split; [|done]. right. split; [|done]. intros <-. congruence.
      * intros [[[<- <-]|[? ?]] ?]; [simpl in *; congruence|done].
Qed.

Lemma removed_absent w key : wh_entries (removeLocked w key) !! key = None.
Proof. rewrite removeLocked_entries. apply lookup_delete_eq. Qed.

Lemma Upsert_inv w key ttl cb : wheel_inv w -> wheel_inv (Upsert w key ttl cb).
Proof. intros H. apply schedule_spec; [by apply removeLocked_inv|apply removed_absent]. Qed.

Lemma Touch_inv w key ttl : wheel_inv w -> wheel_inv (Touch w key ttl).1.
Proof.
  intros H. unfold Touch. destruct (wh_entries w !! key) as [e|]; [|done]. cbn [fst].
  apply schedule_spec; [by apply removeLocked_inv|apply removed_absent].
Qed.

Lemma Upsert_entries w key ttl cb k :
  wheel_inv w -> k <> key -> wh_entries (Upsert w key ttl cb) !! k = wh_entries w !! k.
Proof.
  intros H Hk. unfold Upsert.
  destruct (schedule_spec (removeLocked w key) key (if ttl <=? 0 then wh_interval w else ttl) cb)
    as (_ & _ & ->); [by apply removeLocked_inv|apply removed_absent|].
  by rewrite lookup_insert_ne, removeLocked_entries, lookup_delete_ne.
Qed.

Lemma Upsert_frame w key ttl cb : wheel_inv w -> same_frame w (Upsert w key ttl cb).
Proof.
  intros H. unfold Upsert.
  destruct (schedule_spec (removeLocked w key) key (if ttl <=? 0 then wh_interval w else ttl) cb)
    as (_ & (H1 & H2 & H3) & _); [by apply removeLocked_inv|apply removed_absent|].
  destruct (removeLocked_frame w key) as (H4 & H5 & H6). unfold same_frame. split_and!; congruence.
Qed.

(** [Touch] is an [Upsert] that keeps the callback. *)
Lemma Touch_Upsert w key ttl :
  (Touch w key ttl).1 = match wh_entries w !! key with
                        | Some e => Upsert w key ttl (we_callback e)
                        | None => w end.
Proof. unfold Touch, Upsert. by destruct (wh_entries w !! key). Qed.

Lemma NewWheel_inv interval slotCount : wheel_inv (C := C) (NewWheel interval slotCount).
Proof.
  unfold NewWheel. set (i := if interval <=? 0 then Second else interval).
  set (n := if slotCount <? 4 then 4 else slotCount).
  assert (Hi : 0 < i) by (unfold i; assert (0 < Second) by reflexivity; case_on; zbool; lia).
  assert (Hn : 4 <= n) by (unfold n; case_on; zbool; lia).
  assert (Hl : zlen (replicate (Z.to_nat n) (∅ : gmap string (wheelEntry C))) = n)
    by (unfold zlen; rewrite length_replicate; lia).
  split; cbn [wh_interval wh_slots wh_cursor wh_entries]; rewrite ?Hl; try lia.
  - intros key e. by rewrite lookup_empty.
  - intros j key e Hj. unfold slot_at. cbn [wh_slots].
    rewrite lookup_replicate_2 by lia. cbn. rewrite lookup_empty. split; [done|by intros [? _]].
Qed.

(** ** When an entry fires *)

(** The ticks until the cursor has visited the entry's slot often enough. *)
Definition due w e : Z :=
  (we_slot e - wh_cursor w - 1) mod zlen (wh_slots w) + 1 + we_rounds e * zlen (wh_slots w).

Lemma due_pos w e : wheel_inv w -> 0 <= we_rounds e -> 1 <= due w e.
Proof.
  intros Hinv Hr. pose proof (wi_slots _ Hinv). unfold due.
  pose proof (Z.mod_pos_bound (we_slot e - wh_cursor w - 1) (zlen (wh_slots w))). nia.
Qed.

(** A tick brings an entry one step closer, and fires it at the last step. *)
Lemma tick_due w k e :
  wheel_inv w -> wh_entries w !! k = Some e ->
  if due w e =? 1 then wh_entries (tick w).1 !! k = None
  else exists e', wh_entries (tick w).1 !! k = Some e' /\ due (tick w).1 e' = due w e - 1
                  /\ we_callback e' = we_callback e.
Proof.
  intros Hinv Hk. pose proof (wi_slots _ Hinv) as Hn. pose proof (wi_cursor _ Hinv) as Hcur.
  apply (wi_entry _ Hinv) in Hk as Hent. destruct Hent as (_ & Hsl & Hrd).
  destruct (tick_spec w Hinv) as (_ & Hl & Hc & _ & He & _).
  specialize (He k). rewrite Hk in He. cbn in He. rewrite He. unfold due. rewrite Hl, Hc.
  set (n := zlen (wh_slots w)) in *.
  rewrite (mod_wrap (wh_cursor w + 1) n) in * by lia.
  rewrite (mod_diff (we_slot e - wh_cursor w - 1) n) by lia.
  destruct (decide (we_slot e = _)) as [Hs|Hs].
  - assert (Hz : (if we_slot e - wh_cursor w - 1 <? 0 then we_slot e - wh_cursor w - 1 + n
                 else we_slot e - wh_cursor w - 1) = 0).
    { destruct (wh_cursor w + 1 <? n) eqn:?; case_on; zbool; lia. }
    rewrite Hz. unfold visit. destruct (0 <? we_rounds e) eqn:E; zbool.
    + rewrite (proj2 (Z.eqb_neq _ _)) by nia. eexists. split; [done|]. cbn [we_slot we_rounds we_callback].
      rewrite <- Hs. rewrite mod_diff by lia. zdecide. split; [lia|done].
    + assert (we_rounds e = 0) as -> by lia. done.
  - assert (Hp : (if wh_cursor w + 1 <? n then wh_cursor w + 1 else wh_cursor w + 1 - n) =
                 if wh_cursor w + 1 =? n then 0 else wh_cursor w + 1).
    { repeat case_on; zbool; lia. }
    rewrite Hp in *. rewrite (proj2 (Z.eqb_neq _ 1)).
    2:{ destruct (wh_cursor w + 1 =? n) eqn:?; case_on; zbool; nia. }
    exists e. split; [done|]. split; [|done]. rewrite mod_diff by (repeat case_on; zbool; lia).
    destruct (wh_cursor w + 1 =? n) eqn:?; repeat case_on; zbool; lia.
Qed.

(** A fired entry is one that was due. *)
Lemma tick_fired w k e :
  wheel_inv w -> wh_entries w !! k = Some e -> we_callback e <> None ->
  existsb (fun x => String.eqb (we_key x) k) (tick w).2 = (due w e =? 1).
Proof.
  intros Hinv Hk Hcb. pose proof (wi_slots _ Hinv) as Hn. pose proof (wi_cursor _ Hinv) as Hcur.
  apply (wi_entry _ Hinv) in Hk as Hent. destruct Hent as (Hkey & Hsl & Hrd).
  destruct (tick_spec w Hinv) as (_ & _ & _ & Hf & _). rewrite Hf.
  set (n := zlen (wh_slots w)) in *. set (c := (wh_cursor w + 1) mod n).
  assert (Hc : 0 <= c < n) by (apply Z.mod_pos_bound; lia).
  assert (Hdue : (due w e =? 1) = (we_slot e =? c) && (we_rounds e =? 0)).
  { unfold due, c. fold n. rewrite (mod_wrap (wh_cursor w + 1)) by lia.
    rewrite mod_diff by lia.
    apply eq_true_iff_eq. rewrite andb_true_iff, !Z.eqb_eq. repeat case_on; zbool; nia. }
  rewrite Hdue. apply eq_true_iff_eq. rewrite existsb_exists, andb_true_iff, !Z.eqb_eq. split.
  - intros (x & Hx & Hxk). apply String.eqb_eq in Hxk.
    apply list_elem_of_In, list_elem_of_omap in Hx as ([k' x'] & Hin & Hfire). simpl in Hfire.
    unfold fires in Hfire. destruct (0 <? we_rounds x') eqn:E; [done|]. zbool.
    destruct (we_callback x') eqn:Ecb; [|done]. injection Hfire as ->.
    apply elem_of_map_to_list in Hin. apply (wi_slot _ Hinv) in Hin as [Hin Hslot]; [|done].
    apply (wi_entry _ Hinv) in Hin as Hent. destruct Hent as (Hk' & _ & Hr'). 
    assert (x = e) as -> by congruence. split; [done|lia].
  - intros [Hslot Hr]. exists e. split; [|by apply String.eqb_eq].
    apply list_elem_of_In, list_elem_of_omap. exists (k, e). split.
    + apply elem_of_map_to_list. by apply (wi_slot _ Hinv).
    + simpl. unfold fires. rewrite Hr. simpl. by destruct (we_callback e).
Qed.

Inductive wheel_op := OTick | OUpsert (key : string) (ttl : Z) (cb : option C)
                    | OTouch (key : string) (ttl : Z) | ORemove (key : string).

Definition wheel_do w (o : wheel_op) : Wheel C * list (wheelEntry C) :=
  match o with
  | OTick => tick w
  | OUpsert key ttl cb => (Upsert w key ttl cb, [])
  | OTouch key ttl => ((Touch w key ttl).1, [])
  | ORemove key => (Remove w key, [])
  end.

Definition concerns (k : string) (o : wheel_op) : Prop :=
  match o with OTick => False | OUpsert key _ _ | OTouch key _ | ORemove key => key = k end.

Fixpoint ticks (ops : list wheel_op) : Z :=
  match ops with [] => 0 | OTick :: ops => 1 + ticks ops | _ :: ops => ticks ops end.

(** The ticks, counted from [t], in which an entry under [k] is fired. *)
Fixpoint fire_log (k : string) (t : Z) w (ops : list wheel_op) : list Z :=
  match ops with
  | [] => []
  | o :: ops =>
      let '(w', fired) := wheel_do w o in
      let t' := match o with OTick => t + 1 | _ => t end in
      (if existsb (fun x => String.eqb (we_key x) k) fired then [t'] else []) ++ fire_log k t' w' ops
  end.

Lemma is_tick (o : wheel_op) : o = OTick \/ o <> OTick.
Proof. destruct o; [by left|by right..]. Qed.

Lemma ticks_nonneg ops : 0 <= ticks ops.
Proof. induction ops as [|[] ops IH]; simpl; lia. Qed.

Lemma wheel_do_inv w o : wheel_inv w -> wheel_inv (wheel_do w o).1.
Proof.
  intros H. destruct o; cbn [wheel_do fst].
  - by apply tick_inv.
  - by apply Upsert_inv.
  - by apply Touch_inv.
  - by apply removeLocked_inv.
Qed.

(** Operations on other keys do not disturb an entry. *)
Lemma other_op_keeps w k o :
  wheel_inv w -> ~ concerns k o -> o <> OTick ->
  same_frame w (wheel_do w o).1 /\ wh_entries (wheel_do w o).1 !! k = wh_entries w !! k
  /\ (wheel_do w o).2 = [].
Proof.
  intros Hinv Hc Ht. destruct o as [|key ttl cb|key ttl|key]; [done|..]; simpl in Hc; cbn [wheel_do fst snd].
  - split_and!; [by apply Upsert_frame|by apply Upsert_entries|done].
  - rewrite Touch_Upsert. destruct (wh_entries w !! key); [|done].
    split_and!; [by apply Upsert_frame|by apply Upsert_entries|done].
  - split_and!; [apply removeLocked_frame| |done].
    unfold Remove. by rewrite removeLocked_entries, lookup_delete_ne.
Qed.

Lemma fire_log_absent k ops : forall w t,
  wheel_inv w -> wh_entries w !! k = None -> Forall (fun o => ~ concerns k o) ops -> fire_log k t w ops = [].
Proof.
  induction ops as [|o ops IH]; intros w t Hinv Hk Hall; [done|].
  apply Forall_cons in Hall as [Hc Hall]. cbn [fire_log].
  assert (Hinv' := wheel_do_inv w o Hinv).
  assert (Hstep : wh_entries (wheel_do w o).1 !! k = None /\
    existsb (fun x => String.eqb (we_key x) k) (wheel_do w o).2 = false).
  { destruct (is_tick o) as [->|Ho].
    - cbn [wheel_do]. destruct (tick_spec w Hinv) as (_ & _ & _ & Hf & He & _). split; [by rewrite He, Hk|].
      rewrite Hf. apply not_true_iff_false. rewrite existsb_exists. intros (x & Hx & Hxk).
      apply String.eqb_eq in Hxk. apply list_elem_of_In, list_elem_of_omap in Hx as ([k' x'] & Hin & Hfire).
      apply elem_of_map_to_list in Hin.
      apply (wi_slot _ Hinv) in Hin as [Hin _]; [|apply Z.mod_pos_bound; pose proof (wi_slots _ Hinv); lia].
      apply (wi_entry _ Hinv) in Hin as Hent. destruct Hent as (Hk' & _).
      unfold fires in Hfire. simpl in Hfire. destruct (0 <? we_rounds x'); [done|].
      destruct (we_callback x'); [|done]. injection Hfire as ->. congruence.
    - destruct (other_op_keeps w k o Hinv Hc Ho) as (_ & -> & ->). done. }
  destruct Hstep as [Hk' Hfi]. destruct (wheel_do w o) as [w' fired]. simpl in *. rewrite Hfi. by apply IH.
Qed.

(** An entry left alone fires once, when its ticks have passed. *)
Lemma fire_log_due k ops : forall w t e,
  wheel_inv w -> wh_entries w !! k = Some e -> we_callback e <> None ->
  Forall (fun o => ~ concerns k o) ops ->
  fire_log k t w ops = if due w e <=? ticks ops then [t + due w e] else [].
Proof.
  induction ops as [|o ops IH]; intros w t e Hinv Hk Hcb Hall.
  { pose proof (wi_entry _ Hinv _ _ Hk) as (_ & _ & Hr). pose proof (due_pos w e Hinv Hr).
    cbn [fire_log ticks]. by rewrite (proj2 (Z.leb_gt _ _)) by lia. }
  apply Forall_cons in Hall as [Hc Hall]. pose proof (ticks_nonneg ops) as Ht.
  destruct (is_tick o) as [->|Ho].
  - cbn [fire_log wheel_do ticks]. pose proof (tick_due w k e Hinv Hk) as Hd.
    pose proof (tick_fired w k e Hinv Hk Hcb) as Hf. pose proof (tick_inv w Hinv) as Hinv'.
    destruct (tick w) as [w' fired]. cbn [fst snd] in *. rewrite Hf.
    destruct (due w e =? 1) eqn:E; zbool.
    + rewrite fire_log_absent by done. rewrite E. by zdecide.
    + destruct Hd as (e' & He' & Hde & Hcb'). simpl. rewrite (IH w' (t + 1) e' Hinv' He') by (congruence || done).
      rewrite Hde. repeat case_on; zbool; try done; try lia; f_equal; lia.
  - destruct (other_op_keeps w k o Hinv Hc Ho) as ((Hi & Hl & Hcu) & He & Hf).
    assert (Hinv' := wheel_do_inv w o Hinv). cbn [fire_log].
    assert (Hdue : due (wheel_do w o).1 e = due w e) by (unfold due; by rewrite Hl, Hcu).
    destruct (wheel_do w o) as [w' fired]. cbn [fst snd] in *. subst fired. cbn [existsb app].
    rewrite <- He in Hk. specialize (IH w' t e Hinv' Hk Hcb Hall). rewrite Hdue in IH.
    destruct o; done.
Qed.

(** The tick in which an entry scheduled for [steps] ticks really fires. *)
Lemma scheduled_due cursor steps n :
  4 <= n -> 0 <= cursor < n -> 1 <= steps ->
  (place_slot cursor steps n - cursor - 1) mod n + 1 + place_rounds cursor steps n * n =
  if (n <? steps) && negb (steps mod n =? 0) && (n <=? cursor + steps mod n) then steps - n else steps.
Proof.
  intros Hn Hc Hs. unfold place_rounds, place_slot.
  pose proof (Z.mod_pos_bound steps n ltac:(lia)) as Hr. pose proof (Z_div_mod_eq_full steps n) as Hq.
  rewrite Z.quot_div_nonneg by lia.
  set (q := steps / n) in *. set (r := steps mod n) in *.
  assert (Hslot : (cursor + steps) mod n = if cursor + r <? n then cursor + r else cursor + r - n).
  { rewrite <- mod_wrap by lia. unfold r. by rewrite Zplus_mod_idemp_r. }
  rewrite Hslot. assert (Hq0 : 0 <= q) by (apply Z.div_pos; lia).
  rewrite (mod_diff ((if cursor + r <? n then _ else _) - cursor - 1)) by (repeat case_on; zbool; lia).
  destruct (cursor + r <? n) eqn:E1; zbool.
  - rewrite (proj2 (Z.leb_gt n _)) by lia. rewrite andb_false_r. repeat case_on; zbool; nia.
  - rewrite (proj2 (Z.leb_le n _)) by lia. rewrite (proj2 (Z.leb_le _ cursor)) by lia.
    repeat case_on; zbool; nia.
Qed.

(** The entry that [Upsert] leaves and when it is due. *)
Lemma Upsert_due w key ttl cb :
  wheel_inv w -> 0 < ttl ->
  let n := zlen (wh_slots w) in
  let steps := steps_of (wh_interval w) ttl in
  exists e, wh_entries (Upsert w key ttl cb) !! key = Some e /\ we_callback e = cb /\
    due (Upsert w key ttl cb) e =
    if (n <? steps) && negb (steps mod n =? 0) && (n <=? wh_cursor w + steps mod n)
    then steps - n else steps.
Proof.
  intros Hinv Httl n steps. destruct (Upsert_frame w key ttl cb Hinv) as (_ & Hl & Hc).
  unfold due. rewrite Hl, Hc. unfold Upsert. rewrite (proj2 (Z.leb_gt ttl 0)) by lia.
  destruct (schedule_spec (removeLocked w key) key ttl cb) as (_ & _ & ->);
    [by apply removeLocked_inv|apply removed_absent|].
  destruct (removeLocked_frame w key) as (-> & -> & ->). fold n steps.
  eexists. split; [apply lookup_insert_eq|]. split; [done|]. cbn [we_slot we_rounds].
  apply scheduled_due; [apply (wi_slots _ Hinv)|apply (wi_cursor _ Hinv)|apply steps_of_pos].
Qed.

(** ** Theorems *)

(** from a new wheel, no sequence of ticks, insertions, touches and removals ever separates
    the slots from the index: each key sits in exactly one slot, the one its entry names, and
    the cursor stays in range. *)
Theorem wheel_consistent interval slotCount ops :
  wheel_inv (foldl (fun w o => (wheel_do w o).1) (NewWheel interval slotCount) ops).
Proof.
  generalize (NewWheel_inv interval slotCount). generalize (NewWheel (C := C) interval slotCount) as w.
  induction ops as [|o ops IH]; intros w Hinv; [done|]. cbn [foldl]. by apply IH, wheel_do_inv.
Qed.

(** C20: an entry whose time to live fits in one turn of the wheel fires exactly once, in the
    tick that its rounded-up time to live names, whatever is scheduled, touched or removed
    under other keys in between. *)
Theorem wheel_fires_on_time w key ttl cb ops :
  wheel_inv w -> 0 < ttl -> steps_of (wh_interval w) ttl <= zlen (wh_slots w) ->
  Forall (fun o => ~ concerns key o) ops ->
  fire_log key 0 (Upsert w key ttl (Some cb)) ops =
  if steps_of (wh_interval w) ttl <=? ticks ops then [steps_of (wh_interval w) ttl] else [].
Proof.
  intros Hinv Httl Hfit Hall. destruct (Upsert_due w key ttl (Some cb) Hinv Httl) as (e & He & Hcb & Hd).
  rewrite (proj2 (Z.ltb_ge _ _) Hfit) in Hd. cbn [andb] in Hd.
  rewrite (fire_log_due key ops _ 0 e) by first [done | by apply Upsert_inv | congruence]. by rewrite Hd.
Qed.

(** an entry whose time to live is longer than one turn, ends inside a turn and passes the
    end of the slot array on the way fires a whole turn too early: the code takes one round
    off for the wrap-around that the remainder already accounts for. *)
Theorem wheel_fires_early w key ttl cb ops :
  let n := zlen (wh_slots w) in
  let steps := steps_of (wh_interval w) ttl in
  wheel_inv w -> 0 < ttl -> n < steps -> steps mod n <> 0 -> n <= wh_cursor w + steps mod n ->
  Forall (fun o => ~ concerns key o) ops -> steps - n <= ticks ops ->
  fire_log key 0 (Upsert w key ttl (Some cb)) ops = [steps - n].
Proof.
  intros n steps Hinv Httl Hlong Hrem Hwrap Hall Hticks.
  destruct (Upsert_due w key ttl (Some cb) Hinv Httl) as (e & He & Hcb & Hd). fold n steps in Hd.
  rewrite (proj2 (Z.ltb_lt _ _) Hlong), (proj2 (Z.eqb_neq _ _) Hrem), (proj2 (Z.leb_le _ _) Hwrap) in Hd.
  cbn [andb negb] in Hd.
  rewrite (fire_log_due key ops _ 0 e) by first [done | by apply Upsert_inv | congruence]. rewrite Hd.
  by rewrite (proj2 (Z.leb_le _ _) Hticks).
Qed.

(** A removed entry never fires. *)
Lemma removed_never_fires w key t ops :
  wheel_inv w -> Forall (fun o => ~ concerns key o) ops -> fire_log key t (Remove w key) ops = [].
Proof. intros Hinv. apply fire_log_absent; [by apply removeLocked_inv|apply removed_absent]. Qed.
End WheelFacts.

Lemma wheel_fires_on_time_witness :
  fire_log "a" 0 (Upsert (NewWheel Second 4) "a" (1500 * Millisecond) (Some tt))
    [OTick; OUpsert "b" Second None; OTick; OTick] = [2].
Proof.
  apply (wheel_fires_on_time (NewWheel Second 4) "a" (1500 * Millisecond) tt);
    [apply NewWheel_inv|reflexivity|vm_compute; congruence|].
  repeat constructor; simpl; congruence.
Defined.

(** Three ticks after the start, six ticks ahead on a wheel of four slots. *)
Lemma wheel_fires_early_witness :
  fire_log "a" 0 (Upsert (foldl (fun w o => (wheel_do w o).1) (NewWheel Second 4) [OTick; OTick; OTick])
                    "a" (6 * Second) (Some tt)) [OTick; OTick; OTick; OTick; OTick; OTick] = [6 - 4].
Proof.
  apply (wheel_fires_early (foldl (fun w o => (wheel_do w o).1) (NewWheel Second 4) [OTick; OTick; OTick])
           "a" (6 * Second) tt);
    [do 3 apply tick_inv; apply NewWheel_inv|reflexivity|reflexivity|vm_compute; congruence
    |vm_compute; congruence| |vm_compute; congruence].
  repeat constructor; simpl; congruence.
Defined.
