(* ===== verification/Store.v ===== *)
(** * The relay and session stores ([internal/store/relay_store.go], [session_store.go])

    Both stores index live states and keep one wheel entry per state. Every method holds the
    store's mutex, so a method is one step; [now] is what [time.Now] returns. *)

From S2P Require Import Prelude GoString Wheel.

(** ** The relay store *)

Record RelayState := mkRelayState {
  ConnID : string; ClientID : string; LastActive : Z; CreatedAt : Z }.

Section RelayStore.
  Context {C : Type}.

Record RelayStore := mkRelayStore {
  rs_byID : gmap string RelayState; rs_byClient : gmap string (gset string); rs_wheel : Wheel C }.

Definition NewRelayStore (wheel : Wheel C) : RelayStore := mkRelayStore ∅ ∅ wheel.

Definition RelayStore_Add (s : RelayStore) (st : RelayState) (ttl : Z) (onExpire : option C) : RelayStore :=
  let set := default ∅ (rs_byClient s !! ClientID st) in
  mkRelayStore (<[ConnID st := st]> (rs_byID s))
    (<[ClientID st := {[ConnID st]} ∪ set]> (rs_byClient s))
    (Upsert (rs_wheel s) (RelayKey (ConnID st)) ttl onExpire).

Definition RelayStore_Touch (s : RelayStore) (now : Z) (connID : string) (ttl : Z) : RelayStore * bool :=
  match rs_byID s !! connID with
  | None => (s, false)
  | Some st =>
      let st := mkRelayState (ConnID st) (ClientID st) now (CreatedAt st) in
      let '(wheel, ok) := Touch (rs_wheel s) (RelayKey connID) ttl in
      (mkRelayStore (<[connID := st]> (rs_byID s)) (rs_byClient s) wheel, ok)
  end.

Definition RelayStore_Get (s : RelayStore) (connID : string) : option RelayState := rs_byID s !! connID.

Definition RelayStore_Delete (s : RelayStore) (connID : string) : RelayStore * option RelayState :=
  match rs_byID s !! connID with
  | None => (s, None)
  | Some st =>
      let byClient :=
        match rs_byClient s !! ClientID st with
        | None => rs_byClient s
        | Some set =>
            let set := set ∖ {[connID]} in
            if decide (set = ∅) then delete (ClientID st) (rs_byClient s)
            else <[ClientID st := set]> (rs_byClient s)
        end in
      (mkRelayStore (delete connID (rs_byID s)) byClient (Remove (rs_wheel s) (RelayKey connID)),
       Some st)
  end.

Definition RelayStore_CountTotal (s : RelayStore) : Z := Z.of_nat (size (rs_byID s)).
Definition RelayStore_CountByClient (s : RelayStore) (clientID : string) : Z :=
  Z.of_nat (size (default ∅ (rs_byClient s !! clientID))).

(** A tick of the store's wheel; it returns the entries whose callbacks run. *)
Definition RelayStore_tick (s : RelayStore) : RelayStore * list (wheelEntry C) :=
  let '(w, fired) := tick (rs_wheel s) in (mkRelayStore (rs_byID s) (rs_byClient s) w, fired).

(** The connections of a client. *)
Definition conns_of (s : RelayStore) (clientID : string) : gset string :=
  default ∅ (rs_byClient s !! clientID).

Record relay_store_inv (s : RelayStore) : Prop := {
  rsi_wheel : wheel_inv (rs_wheel s);
  rsi_id : forall id st, rs_byID s !! id = Some st -> ConnID st = id;
  rsi_client : forall c id,
    id ∈ conns_of s c <-> exists st, rs_byID s !! id = Some st /\ ClientID st = c;
  rsi_nonempty : forall c, rs_byClient s !! c <> Some ∅;
  rsi_keys : forall k e, wh_entries (rs_wheel s) !! k = Some e ->
    exists id, k = RelayKey id /\ is_Some (rs_byID s !! id) }.
End RelayStore.
Arguments RelayStore C : clear implicits.

(** ** The session store *)

Record SessionState := mkSessionState {
  ss_SessionID : Z; ss_ClientID : string; ss_LastActive : Z; ss_CreatedAt : Z }.

Section SessionStore.
  Context {C : Type}.

Record SessionStore := mkSessionStore { ss_byID : gmap Z SessionState; ss_wheel : Wheel C }.

Definition NewSessionStore (wheel : Wheel C) : SessionStore := mkSessionStore ∅ wheel.

Definition SessionStore_Add (s : SessionStore) (st : SessionState) (ttl : Z) (onExpire : option C)
  : SessionStore :=
  mkSessionStore (<[ss_SessionID st := st]> (ss_byID s))
    (Upsert (ss_wheel s) (SessionKey (ss_SessionID st)) ttl onExpire).

Definition SessionStore_Touch (s : SessionStore) (now sessionID ttl : Z) : SessionStore * bool :=
  match ss_byID s !! sessionID with
  | None => (s, false)
  | Some st =>
      let st := mkSessionState (ss_SessionID st) (ss_ClientID st) now (ss_CreatedAt st) in
      let '(wheel, ok) := Touch (ss_wheel s) (SessionKey sessionID) ttl in
      (mkSessionStore (<[sessionID := st]> (ss_byID s)) wheel, ok)
  end.

Definition SessionStore_Delete (s : SessionStore) (sessionID : Z) : SessionStore * option SessionState :=
  match ss_byID s !! sessionID with
  | None => (s, None)
  | Some st => (mkSessionStore (delete sessionID (ss_byID s))
                  (Remove (ss_wheel s) (SessionKey sessionID)), Some st)
  end.

Definition SessionStore_Count (s : SessionStore) : Z := Z.of_nat (size (ss_byID s)).

Definition SessionStore_tick (s : SessionStore) : SessionStore * list (wheelEntry C) :=
  let '(w, fired) := tick (ss_wheel s) in (mkSessionStore (ss_byID s) w, fired).

(** Session ids are 64-bit, so that their keys differ. *)
Record session_store_inv (s : SessionStore) : Prop := {
  ssi_wheel : wheel_inv (ss_wheel s);
  ssi_id : forall id st, ss_byID s !! id = Some st -> ss_SessionID st = id /\ is_u64 id;
  ssi_keys : forall k e, wh_entries (ss_wheel s) !! k = Some e ->
    exists id, k = SessionKey id /\ is_Some (ss_byID s !! id) }.
End SessionStore.
Arguments SessionStore C : clear implicits.

(** ** Lemmas *)

Lemma RelayKey_inj a b : RelayKey a = RelayKey b -> a = b.
Proof. unfold RelayKey. intros H. by simplify_eq/=. Qed.

Lemma SessionKey_inj a b : is_u64 a -> is_u64 b -> SessionKey a = SessionKey b -> a = b.
Proof.
  intros Ha Hb H. unfold SessionKey in H.
  assert (He : string_of_bytes (FormatUint a) = string_of_bytes (FormatUint b)) by by simplify_eq/=.
  apply (f_equal bytes_of_string) in He. rewrite !bytes_string_bytes in He. by apply FormatUint_inj.
Qed.

Section StoreFacts.
  Context {C : Type}.
  Implicit Types s : RelayStore C.

Lemma wheel_dom_Upsert (w : Wheel C) key ttl cb k e :
  wheel_inv w -> wh_entries (Upsert w key ttl cb) !! k = Some e ->
  k = key \/ wh_entries w !! k = Some e.
Proof.
  intros Hw Hk. destruct (decide (k = key)) as [->|Hne]; [by left|right]. by rewrite Upsert_entries in Hk.
Qed.

Lemma wheel_dom_Touch (w : Wheel C) key ttl k e :
  wheel_inv w -> wh_entries (Touch w key ttl).1 !! k = Some e -> is_Some (wh_entries w !! k).
Proof.
  intros Hw. rewrite Touch_Upsert. destruct (wh_entries w !! key) as [e0|] eqn:E; [|eauto].
  intros Hk. apply wheel_dom_Upsert in Hk as [->|Hk]; eauto.
Qed.

Lemma wheel_dom_tick (w : Wheel C) k e :
  wheel_inv w -> wh_entries (tick w).1 !! k = Some e -> is_Some (wh_entries w !! k).
Proof.
  intros Hw Hk. destruct (tick_spec w Hw) as (_ & _ & _ & _ & He & _). rewrite He in Hk.
  destruct (wh_entries w !! k); [eauto|done].
Qed.

Lemma conns_of_insert s id c (set : gset string) byID (w : Wheel C) :
  conns_of (mkRelayStore byID (<[c := set]> (rs_byClient s)) w) id =
  if decide (id = c) then set else conns_of s id.
Proof.
  unfold conns_of. cbn [rs_byClient]. case_decide; [subst; by rewrite lookup_insert_eq|by rewrite lookup_insert_ne].
Qed.

Lemma RelayStore_Add_inv s st ttl cb :
  relay_store_inv s -> rs_byID s !! ConnID st = None -> relay_store_inv (RelayStore_Add s st ttl cb).
Proof.
  intros [Hw Hid Hcl Hne Hk] Hnew. split; cbn [rs_byID rs_byClient rs_wheel RelayStore_Add].
  - by apply Upsert_inv.
  - intros id st' H. apply lookup_insert_Some in H as [[<- <-]|[_ H]]; [done|by apply Hid].
  - intros c id. unfold RelayStore_Add. rewrite conns_of_insert. fold (conns_of s (ClientID st)).
    setoid_rewrite lookup_insert_Some. case_decide as Hc.
    + subst c. rewrite elem_of_union, elem_of_singleton, Hcl. split.
      * intros [->|(st' & H1 & H2)]; [by exists st; auto|]. exists st'. split; [|done]. right. split; [|done].
        intros <-. congruence.
      * intros (st' & [[<- <-]|[? ?]] & Hc'); [by left|]. right. eauto.
    + rewrite Hcl. split.
      * intros (st' & H1 & H2). exists st'. split; [|done]. right. split; [|done]. intros <-. congruence.
      * intros (st' & [[<- <-]|[? ?]] & Hc'); [congruence|]. eauto.
  - intros c H. apply lookup_insert_Some in H as [[_ H]|[_ H]]; [|by apply (Hne c)].
    apply (not_elem_of_empty (C := gset string) (ConnID st)). rewrite <- H.
    by apply elem_of_union_l, elem_of_singleton.
  - intros k e H. destruct (wheel_dom_Upsert _ _ _ _ _ _ Hw H) as [->|H'].
    + exists (ConnID st). split; [done|]. by rewrite lookup_insert_eq.
    + apply Hk in H' as (id & -> & Hs). exists id. split; [done|].
      destruct (decide (id = ConnID st)) as [->|Hd]; [by rewrite lookup_insert_eq|by rewrite lookup_insert_ne].
Qed.

Lemma RelayStore_Touch_inv s now id ttl :
  relay_store_inv s -> relay_store_inv (RelayStore_Touch s now id ttl).1.
Proof.
  intros [Hw Hid Hcl Hne Hk]. unfold RelayStore_Touch. destruct (rs_byID s !! id) as [st|] eqn:E; [|done].
  pose proof (Touch_inv (rs_wheel s) (RelayKey id) ttl Hw) as Hw'.
  pose proof (wheel_dom_Touch (rs_wheel s) (RelayKey id) ttl) as Hdom.
  destruct (Touch (rs_wheel s) (RelayKey id) ttl) as [w ok]. cbn [fst] in *.
  split; cbn [rs_byID rs_byClient rs_wheel]; try done.
  - intros id' st' H. apply lookup_insert_Some in H as [[<- <-]|[_ H]]; [cbn; by apply Hid|by apply Hid].
  - intros c id'. change (id' ∈ conns_of s c <->
      exists st', <[id := mkRelayState (ConnID st) (ClientID st) now (CreatedAt st)]> (rs_byID s) !! id' = Some st'
                  /\ ClientID st' = c).
    rewrite Hcl. setoid_rewrite lookup_insert_Some. split.
    + intros (st' & H1 & H2). destruct (decide (id = id')) as [<-|Hd].
      * eexists. split; [by left|]. cbn. congruence.
      * exists st'. auto.
    + intros (st' & [[<- <-]|[? ?]] & Hc'); [cbn in Hc'; eauto|eauto].
  - intros k e H. destruct (Hdom k e Hw H) as [e' He']. apply Hk in He' as (id' & -> & Hs).
    exists id'. split; [done|]. destruct (decide (id' = id)) as [->|Hd];
      [by rewrite lookup_insert_eq|by rewrite lookup_insert_ne].
Qed.

Lemma RelayStore_Delete_inv s id :
  relay_store_inv s -> relay_store_inv (RelayStore_Delete s id).1.
Proof.
  intros [Hw Hid Hcl Hne Hk]. unfold RelayStore_Delete. destruct (rs_byID s !! id) as [st|] eqn:E; [|done].
  cbn [fst].
  assert (Hin : id ∈ conns_of s (ClientID st)) by (apply Hcl; eauto).
  assert (Hset : exists set, rs_byClient s !! ClientID st = Some set /\ conns_of s (ClientID st) = set).
  { unfold conns_of in *. destruct (rs_byClient s !! ClientID st) as [set|]; [eauto|]. by apply not_elem_of_empty in Hin. }
  destruct Hset as (set & Hset & Hconns). rewrite Hset.
  set (byClient := if decide (set ∖ {[id]} = ∅) then _ else _).
  assert (Hby : forall c, default ∅ (byClient !! c) = if decide (c = ClientID st) then set ∖ {[id]} else conns_of s c).
  { intros c. unfold byClient. case_decide as He; case_decide as Hc; subst.
    - by rewrite lookup_delete_eq, He.
    - by rewrite lookup_delete_ne.
    - by rewrite lookup_insert_eq.
    - by rewrite lookup_insert_ne. }
  assert (Hnb : forall c, byClient !! c <> Some ∅).
  { intros c. unfold byClient. case_decide as He.
    - rewrite lookup_delete_Some. intros [_ H]. by apply (Hne c).
    - rewrite lookup_insert_Some. intros [[_ H]|[_ H]]; [done|by apply (Hne c)]. }
  clearbody byClient. split; cbn [rs_byID rs_byClient rs_wheel].
  - by apply removeLocked_inv.
  - intros id' st' H. apply lookup_delete_Some in H as [_ H]. by apply Hid.
  - intros c id'. unfold conns_of at 1. cbn [rs_byClient]. rewrite Hby.
    setoid_rewrite lookup_delete_Some. case_decide as Hc.
    + subst c. rewrite <- Hconns, elem_of_difference, elem_of_singleton, Hcl. split.
      * intros [(st' & H1 & H2) Hd]. exists st'. auto.
      * intros (st' & [Hd H1] & H2). split; [eauto|]. auto.
    + rewrite Hcl. split.
      * intros (st' & H1 & H2). exists st'. split; [|done]. split; [|done]. intros <-. congruence.
      * intros (st' & [Hd H1] & H2). eauto.
  - done.
  - intros k e H. unfold Remove in H. rewrite removeLocked_entries in H. apply lookup_delete_Some in H as [Hd H].
    apply Hk in H as (id' & -> & Hs). exists id'. split; [done|]. rewrite lookup_delete_ne; [done|]. by intros ->.
Qed.

Lemma RelayStore_tick_inv s : relay_store_inv s -> relay_store_inv (RelayStore_tick s).1.
Proof.
  intros [Hw Hid Hcl Hne Hk]. unfold RelayStore_tick. pose proof (tick_inv _ Hw) as Hw'.
  pose proof (fun k e => wheel_dom_tick (rs_wheel s) k e Hw) as Hdom.
  destruct (tick (rs_wheel s)) as [w fired]. cbn [fst] in *. split; try done.
  intros k e H. destruct (Hdom k e H) as [e' He']. by apply (Hk k e').
Qed.

(** Everything that happens to a relay store; connection ids are new when they are added. *)
Inductive relay_store_reach : RelayStore C -> Prop :=
| rsr_new interval slotCount : relay_store_reach (NewRelayStore (NewWheel interval slotCount))
| rsr_add s st ttl cb :
    relay_store_reach s -> rs_byID s !! ConnID st = None -> relay_store_reach (RelayStore_Add s st ttl cb)
| rsr_touch s now id ttl : relay_store_reach s -> relay_store_reach (RelayStore_Touch s now id ttl).1
| rsr_delete s id : relay_store_reach s -> relay_store_reach (RelayStore_Delete s id).1
| rsr_tick s : relay_store_reach s -> relay_store_reach (RelayStore_tick s).1.

Lemma NewRelayStore_inv w :
  wheel_inv w -> wh_entries w = ∅ -> relay_store_inv (NewRelayStore (C := C) w).
Proof.
  intros Hw He. split; cbn [rs_byID rs_byClient rs_wheel NewRelayStore]; try done.
  - intros c id. unfold conns_of. cbn [rs_byClient NewRelayStore]. rewrite lookup_empty. cbn.
    split; [set_solver|]. by intros (st & H & _).
  - intros k e. by rewrite He.
Qed.

Lemma relay_store_reach_inv s : relay_store_reach s -> relay_store_inv s.
Proof.
  induction 1.
  - apply NewRelayStore_inv; [apply NewWheel_inv|done].
  - by apply RelayStore_Add_inv.
  - by apply RelayStore_Touch_inv.
  - by apply RelayStore_Delete_inv.
  - by apply RelayStore_tick_inv.
Qed.

(** the client index of the relay store is exact in every reachable state: a client's
    count is the number of live connections that name it, an empty set is never kept, and the
    wheel holds no entry for a connection that is gone. *)
Theorem relay_store_counts s c :
  relay_store_reach s ->
  RelayStore_CountByClient s c = Z.of_nat (size (filter (fun kv => ClientID kv.2 = c) (rs_byID s)))
  /\ rs_byClient s !! c <> Some ∅
  /\ (forall id, RelayStore_Get s id = None -> wh_entries (rs_wheel s) !! RelayKey id = None).
Proof.
  intros Hr. apply relay_store_reach_inv in Hr as Hinv. split_and!.
  - unfold RelayStore_CountByClient. fold (conns_of s c). rewrite <- size_dom. do 2 f_equal.
    apply set_eq. intros id. rewrite (rsi_client _ Hinv), elem_of_dom. split.
    + intros (st & H1 & H2). exists st. by apply map_lookup_filter_Some.
    + intros [st H]. apply map_lookup_filter_Some in H as [H1 H2]. eauto.
  - apply (rsi_nonempty _ Hinv).
  - intros id Hg. destruct (wh_entries (rs_wheel s) !! RelayKey id) as [e|] eqn:E; [|done].
    apply (rsi_keys _ Hinv) in E as (id' & Hk & [st Hs]). apply RelayKey_inj in Hk as <-.
    unfold RelayStore_Get in Hg. congruence.
Qed.

(** touching a connection restarts its idle time: when the touch succeeds and the idle
    time fits in one turn of the wheel, the connection's expiry callback runs exactly that many
    ticks later and not before, unless the connection is touched or removed again. *)
Theorem relay_touch_restarts_idle_time s now id ttl s' ops e :
  relay_store_inv s -> 0 < ttl ->
  steps_of (wh_interval (rs_wheel s)) ttl <= zlen (wh_slots (rs_wheel s)) ->
  RelayStore_Touch s now id ttl = (s', true) ->
  wh_entries (rs_wheel s) !! RelayKey id = Some e -> we_callback e <> None ->
  Forall (fun o => ~ concerns (RelayKey id) o) ops ->
  fire_log (RelayKey id) 0 (rs_wheel s') ops =
  if steps_of (wh_interval (rs_wheel s)) ttl <=? ticks ops
  then [steps_of (wh_interval (rs_wheel s)) ttl] else [].
Proof.
  intros Hinv Httl Hfit Ht He Hcb Hall. unfold RelayStore_Touch in Ht.
  destruct (rs_byID s !! id); [|done].
  pose proof (Touch_Upsert (rs_wheel s) (RelayKey id) ttl) as Htu.
  destruct (Touch (rs_wheel s) (RelayKey id) ttl) as [w ok]. injection Ht as <- ->.
  cbn [fst rs_wheel] in *. rewrite He in Htu. subst w.
  destruct (Upsert_due (rs_wheel s) (RelayKey id) ttl (we_callback e) (rsi_wheel _ Hinv) Httl)
    as (e' & He' & Hcb' & Hd).
  rewrite (proj2 (Z.ltb_ge _ _) Hfit) in Hd. cbn [andb] in Hd.
  rewrite (fire_log_due (RelayKey id) ops _ 0 e')
    by first [done | apply Upsert_inv, (rsi_wheel _ Hinv) | congruence].
  by rewrite Hd.
Qed.
End StoreFacts.

Section SessionFacts.
  Context {C : Type}.
  Implicit Types s : SessionStore C.

Lemma insert_keeps_Some {V} (m : gmap Z V) k v i : is_Some (m !! i) -> is_Some (<[k := v]> m !! i).
Proof. intros H. destruct (decide (i = k)) as [->|Hd]; [by rewrite lookup_insert_eq|by rewrite lookup_insert_ne]. Qed.

Lemma SessionStore_Add_inv s st ttl cb :
  session_store_inv s -> is_u64 (ss_SessionID st) -> session_store_inv (SessionStore_Add s st ttl cb).
Proof.
  intros [Hw Hid Hk] Hu. split; cbn [ss_byID ss_wheel SessionStore_Add].
  - by apply Upsert_inv.
  - intros id st' H. apply lookup_insert_Some in H as [[<- <-]|[_ H]]; [done|by apply Hid].
  - intros k e H. destruct (wheel_dom_Upsert _ _ _ _ _ _ Hw H) as [->|H'].
    + exists (ss_SessionID st). by rewrite lookup_insert_eq.
    + apply Hk in H' as (id & -> & Hs). exists id. split; [done|]. by apply insert_keeps_Some.
Qed.

Lemma SessionStore_Touch_inv s now id ttl :
  session_store_inv s -> session_store_inv (SessionStore_Touch s now id ttl).1.
Proof.
  intros [Hw Hid Hk]. unfold SessionStore_Touch. destruct (ss_byID s !! id) as [st|] eqn:E; [|done].
  pose proof (Touch_inv (ss_wheel s) (SessionKey id) ttl Hw) as Hw'.
  pose proof (wheel_dom_Touch (ss_wheel s) (SessionKey id) ttl) as Hdom.
  destruct (Touch (ss_wheel s) (SessionKey id) ttl) as [w ok]. cbn [fst] in *.
  split; cbn [ss_byID ss_wheel]; try done.
  - intros id' st' H. apply lookup_insert_Some in H as [[<- <-]|[_ H]]; [cbn|]; by apply Hid.
  - intros k e H. destruct (Hdom k e Hw H) as [e' He']. apply Hk in He' as (id' & -> & Hs).
    exists id'. split; [done|]. by apply insert_keeps_Some.
Qed.

Lemma SessionStore_Delete_inv s id :
  session_store_inv s -> session_store_inv (SessionStore_Delete s id).1.
Proof.
  intros [Hw Hid Hk]. unfold SessionStore_Delete. destruct (ss_byID s !! id) as [st|] eqn:E; [|done].
  split; cbn [fst ss_byID ss_wheel].
  - by apply removeLocked_inv.
  - intros id' st' H. apply lookup_delete_Some in H as [_ H]. by apply Hid.
  - intros k e H. unfold Remove in H. rewrite removeLocked_entries in H. apply lookup_delete_Some in H as [Hd H].
    apply Hk in H as (id' & -> & Hs). exists id'. split; [done|]. rewrite lookup_delete_ne; [done|]. by intros ->.
Qed.

Lemma SessionStore_tick_inv s : session_store_inv s -> session_store_inv (SessionStore_tick s).1.
Proof.
  intros [Hw Hid Hk]. unfold SessionStore_tick. pose proof (tick_inv _ Hw) as Hw'.
  pose proof (fun k e => wheel_dom_tick (ss_wheel s) k e Hw) as Hdom.
  destruct (tick (ss_wheel s)) as [w fired]. cbn [fst] in *. split; try done.
  intros k e H. destruct (Hdom k e H) as [e' He']. by apply (Hk k e').
Qed.

Lemma NewSessionStore_inv w :
  wheel_inv w -> wh_entries w = ∅ -> session_store_inv (NewSessionStore (C := C) w).
Proof. intros Hw He. split; cbn [ss_byID ss_wheel NewSessionStore]; try done. intros k e. by rewrite He. Qed.

(** A deleted session leaves nothing behind that could expire. *)
Lemma SessionStore_Delete_silent s id t ops :
  session_store_inv s -> is_Some (ss_byID s !! id) ->
  Forall (fun o => ~ concerns (SessionKey id) o) ops ->
  fire_log (SessionKey id) t (ss_wheel (SessionStore_Delete s id).1) ops = [].
Proof.
  intros Hinv [st Hs] Hall. unfold SessionStore_Delete. rewrite Hs. cbn [fst ss_wheel].
  apply removed_never_fires; [apply (ssi_wheel _ Hinv)|done].
Qed.
End SessionFacts.
#[export] Hint Resolve SessionStore_Add_inv SessionStore_Touch_inv SessionStore_Delete_inv
  SessionStore_tick_inv RelayStore_Touch_inv RelayStore_Delete_inv RelayStore_tick_inv : vlf.

Definition ex_relay_store : RelayStore unit :=
  RelayStore_Add (NewRelayStore (NewWheel Second 256)) (mkRelayState "c1" "dev" 0 0) (30 * Second) (Some tt).

Lemma relay_store_counts_witness :
  RelayStore_CountByClient ex_relay_store "dev"
    = Z.of_nat (size (filter (fun kv => ClientID kv.2 = "dev") (rs_byID ex_relay_store)))
  /\ rs_byClient ex_relay_store !! "dev" <> Some ∅
  /\ (forall id, RelayStore_Get ex_relay_store id = None ->
        wh_entries (rs_wheel ex_relay_store) !! RelayKey id = None).
Proof. apply relay_store_counts. apply rsr_add; [apply rsr_new|reflexivity]. Defined.

Lemma relay_touch_restarts_idle_time_witness :
  fire_log (RelayKey "c1") 0 (rs_wheel (RelayStore_Touch ex_relay_store 5 "c1" (2 * Second)).1)
    [OTick; OTick; OTick] = [2].
Proof.
  apply (relay_touch_restarts_idle_time ex_relay_store 5 "c1" (2 * Second)
           (RelayStore_Touch ex_relay_store 5 "c1" (2 * Second)).1 [OTick; OTick; OTick]
           (mkEntry (RelayKey "c1") 30 0 (Some tt))).
  - apply RelayStore_Add_inv; [|reflexivity]. apply NewRelayStore_inv; [apply NewWheel_inv|reflexivity].
  - reflexivity.
  - vm_compute. congruence.
  - vm_compute. reflexivity.
  - vm_compute. reflexivity.
  - discriminate.
  - repeat constructor; simpl; tauto.
Defined.
