(* ===== verification/Metrics.v ===== *)
(** * Metrics ([internal/metrics/metrics.go])

    The values of the registered gauges and counters, one per metric and label, and the state
    behind the packets-per-second gauges. The Prometheus registry and its HTTP handler are a
    library; a float is a whole number here, since the code only ever sets whole numbers. *)

From S2P Require Import Prelude.

Inductive metric :=
| ActiveSessions | ActiveRelayConns
| BytesIn (lane : string) | BytesOut (lane : string)
| UDPPackets | UDPForwarded | UDPDstRX | UDPToClient | UDPToClientFail | UDPPPS
| RecvDatagrams | RecvBytes | DroppedDatagrams (reason : string)
| DatagramProcPPS | DatagramQueueLen | TCPStreams | AuthFailures | ReplayDrops
| OpenFailures (lane reason : string).

#[global] Instance metric_eq_dec : EqDecision metric.
Proof. solve_decision. Defined.

Record MetricsConfig := mkMetricsConfig { UDPPPSHoldWindow : Z; PPSTickInterval : Z }.

Record Metrics := mkMetrics {
  mt_value : metric -> Z;
  udpPacketsSecond : Z; datagramProcSecond : Z; datagramQueueLenAtomic : Z;
  udpPPSHoldWindow : Z; ppsTickInterval : Z;
  lastForwardAt : option Z; lastUDPPPS : Z }.

Definition normalizeConfig (cfg : MetricsConfig) : MetricsConfig :=
  mkMetricsConfig
    (if UDPPPSHoldWindow cfg <=? 0 then 3 * Second else UDPPPSHoldWindow cfg)
    (if PPSTickInterval cfg <=? 0 then Second else PPSTickInterval cfg).

Definition NewWithConfig (cfg : MetricsConfig) : Metrics :=
  let cfg := normalizeConfig cfg in
  mkMetrics (fun _ => 0) 0 0 0 (UDPPPSHoldWindow cfg) (PPSTickInterval cfg) None 0.
Definition NewMetrics : Metrics := NewWithConfig (mkMetricsConfig 0 0).

Definition upd (v : metric -> Z) (k : metric) (x : Z) : metric -> Z :=
  fun k' => if decide (k' = k) then x else v k'.
Definition with_values (m : Metrics) (v : metric -> Z) : Metrics :=
  mkMetrics v (udpPacketsSecond m) (datagramProcSecond m) (datagramQueueLenAtomic m)
    (udpPPSHoldWindow m) (ppsTickInterval m) (lastForwardAt m) (lastUDPPPS m).

(** [Gauge.Set], [Counter.Add], [Inc] and [Dec]. *)
Definition metric_set (m : Metrics) (k : metric) (x : Z) : Metrics := with_values m (upd (mt_value m) k x).
Definition metric_add (m : Metrics) (k : metric) (d : Z) : Metrics := metric_set m k (mt_value m k + d).
Definition metric_inc (m : Metrics) (k : metric) : Metrics := metric_add m k 1.
Definition metric_dec (m : Metrics) (k : metric) : Metrics := metric_add m k (-1).

Definition ObserveUDPForwarded (m : Metrics) (now : Z) : Metrics :=
  let m := metric_inc (metric_inc m UDPPackets) UDPForwarded in
  mkMetrics (mt_value m) (u64 (udpPacketsSecond m + 1)) (datagramProcSecond m)
    (datagramQueueLenAtomic m) (udpPPSHoldWindow m) (ppsTickInterval m) (Some now) (lastUDPPPS m).
Definition ObserveUDPPacket (m : Metrics) (now : Z) : Metrics := ObserveUDPForwarded m now.
Definition ObserveUDPDstRX (m : Metrics) : Metrics := metric_inc m UDPDstRX.
Definition ObserveUDPToClient (m : Metrics) : Metrics := metric_inc m UDPToClient.
Definition ObserveUDPToClientFail (m : Metrics) : Metrics := metric_inc m UDPToClientFail.
Definition ObserveRecvDatagram (m : Metrics) (sizeBytes : Z) : Metrics :=
  let m := metric_inc m RecvDatagrams in
  if 0 <? sizeBytes then metric_add m RecvBytes sizeBytes else m.
Definition ObserveProcessedDatagram (m : Metrics) : Metrics :=
  mkMetrics (mt_value m) (udpPacketsSecond m) (u64 (datagramProcSecond m + 1))
    (datagramQueueLenAtomic m) (udpPPSHoldWindow m) (ppsTickInterval m) (lastForwardAt m) (lastUDPPPS m).
Definition drop_reason (reason : string) : string := if String.eqb reason "" then "unknown" else reason.
Definition ObserveDroppedDatagram (m : Metrics) (reason : string) : Metrics :=
  metric_inc m (DroppedDatagrams (drop_reason reason)).
(** Creates the series, whose value is 0 when it is new. *)
Definition EnsureDroppedDatagramReason (m : Metrics) (reason : string) : Metrics :=
  metric_add m (DroppedDatagrams (drop_reason reason)) 0.

Definition with_queue (m : Metrics) (q : Z) : Metrics :=
  mkMetrics (mt_value m) (udpPacketsSecond m) (datagramProcSecond m) q
    (udpPPSHoldWindow m) (ppsTickInterval m) (lastForwardAt m) (lastUDPPPS m).
Definition AddDatagramQueue (m : Metrics) (delta : Z) : Metrics :=
  let current := int64 (datagramQueueLenAtomic m + delta) in
  let current := if current <? 0 then 0 else current in
  metric_set (with_queue m current) DatagramQueueLen current.
Definition DatagramQueueCurrent (m : Metrics) : Z := datagramQueueLenAtomic m.

Definition with_udp (m : Metrics) (second : Z) (last : option Z) (pps : Z) : Metrics :=
  mkMetrics (mt_value m) second (datagramProcSecond m) (datagramQueueLenAtomic m)
    (udpPPSHoldWindow m) (ppsTickInterval m) last pps.
Definition publishUDPPPS (m : Metrics) (now : Z) : Metrics :=
  let pps := udpPacketsSecond m in
  let m := with_udp m 0 (lastForwardAt m) (lastUDPPPS m) in
  if 0 <? pps then
    let last := match lastForwardAt m with None => Some now | Some t => Some t end in
    metric_set (with_udp m 0 last pps) UDPPPS pps
  else match lastForwardAt m with
  | None => metric_set m UDPPPS 0
  | Some t => if udpPPSHoldWindow m <=? time_Sub now t then metric_set m UDPPPS 0
              else metric_set m UDPPPS (lastUDPPPS m)
  end.

(** One tick of [ppsLoop]. *)
Definition pps_tick (m : Metrics) (now : Z) : Metrics :=
  let m := publishUDPPPS m now in
  let proc := datagramProcSecond m in
  let m := mkMetrics (mt_value m) (udpPacketsSecond m) 0 (datagramQueueLenAtomic m)
             (udpPPSHoldWindow m) (ppsTickInterval m) (lastForwardAt m) (lastUDPPPS m) in
  metric_set m DatagramProcPPS proc.

(** ** Lemmas *)

Lemma metric_set_eq m k x : mt_value (metric_set m k x) k = x.
Proof. unfold metric_set, upd. simpl. by rewrite decide_True. Qed.
Lemma metric_set_ne m k k' x : k' <> k -> mt_value (metric_set m k x) k' = mt_value m k'.
Proof. intros H. unfold metric_set, upd. simpl. by rewrite decide_False. Qed.
Lemma metric_add_eq m k x : mt_value (metric_add m k x) k = mt_value m k + x.
Proof. apply metric_set_eq. Qed.
Lemma metric_add_ne m k k' x : k' <> k -> mt_value (metric_add m k x) k' = mt_value m k'.
Proof. apply metric_set_ne. Qed.

(** [n] forwarded packets between two ticks, the last one at [now]. *)
Fixpoint forward_n (m : Metrics) (n : nat) (now : Z) : Metrics :=
  match n with O => m | S k => forward_n (ObserveUDPForwarded m now) k now end.

Lemma forward_n_spec n : forall m now,
  0 <= udpPacketsSecond m -> udpPacketsSecond m + Z.of_nat n < 2 ^ 64 ->
  udpPacketsSecond (forward_n m n now) = udpPacketsSecond m + Z.of_nat n
  /\ udpPPSHoldWindow (forward_n m n now) = udpPPSHoldWindow m
  /\ ((0 < n)%nat -> lastForwardAt (forward_n m n now) = Some now)
  /\ mt_value (forward_n m n now) UDPForwarded = mt_value m UDPForwarded + Z.of_nat n.
Proof.
  induction n as [|n IH]; intros m now H0 Hb; cbn [forward_n]; [split_and!; try done; lia|].
  assert (Hu : udpPacketsSecond (ObserveUDPForwarded m now) = udpPacketsSecond m + 1).
  { simpl. apply u64_small. unfold is_u64. lia. }
  destruct (IH (ObserveUDPForwarded m now) now) as (H1 & H2 & H3 & H4); [lia|lia|].
  split_and!.
  - rewrite H1, Hu. lia.
  - by rewrite H2.
  - intros _. destruct n; [done|]. apply H3. lia.
  - rewrite H4. simpl. unfold metric_inc, metric_add, metric_set, upd. simpl. lia.
Qed.

(** Quiet ticks at the given times. *)
Definition quiet_ticks (m : Metrics) (times : list Z) : Metrics := foldl pps_tick m times.

Lemma quiet_tick_spec m now t :
  udpPacketsSecond m = 0 -> lastForwardAt m = Some t ->
  udpPacketsSecond (pps_tick m now) = 0 /\ lastForwardAt (pps_tick m now) = Some t
  /\ lastUDPPPS (pps_tick m now) = lastUDPPPS m /\ udpPPSHoldWindow (pps_tick m now) = udpPPSHoldWindow m
  /\ mt_value (pps_tick m now) UDPPPS
     = if udpPPSHoldWindow m <=? time_Sub now t then 0 else lastUDPPPS m.
Proof.
  intros H0 Ht. unfold pps_tick, publishUDPPPS. rewrite H0. cbn [Z.ltb Z.compare with_udp lastForwardAt].
  rewrite Ht. cbn [udpPPSHoldWindow with_udp lastUDPPPS].
  destruct (udpPPSHoldWindow m <=? time_Sub now t); done.
Qed.

(** the packets-per-second gauge: after [n] packets forwarded until [t] the next tick shows
    [n], later quiet ticks keep showing [n] while less than the hold window has passed since
    the last packet, and show 0 from then on. *)
Theorem udp_pps_gauge m n t tick0 quiet now :
  udpPacketsSecond m = 0 -> 0 < Z.of_nat n < 2 ^ 64 ->
  let m1 := pps_tick (forward_n m n t) tick0 in
  mt_value m1 UDPPPS = Z.of_nat n
  /\ mt_value (pps_tick (quiet_ticks m1 quiet) now) UDPPPS
     = if udpPPSHoldWindow m <=? time_Sub now t then 0 else Z.of_nat n.
Proof.
  intros H0 Hn m1.
  destruct (forward_n_spec n m t) as (Hs & Hh & Hl & _); [lia|lia|]. specialize (Hl ltac:(lia)).
  assert (Hm1 : mt_value m1 UDPPPS = Z.of_nat n /\ udpPacketsSecond m1 = 0 /\ lastForwardAt m1 = Some t
    /\ lastUDPPPS m1 = Z.of_nat n /\ udpPPSHoldWindow m1 = udpPPSHoldWindow m).
  { unfold m1, pps_tick, publishUDPPPS. rewrite Hs, H0, Z.add_0_l. rewrite (proj2 (Z.ltb_lt 0 _)) by lia.
    cbn [with_udp lastForwardAt]. rewrite Hl. by rewrite <- Hh. }
  clearbody m1. destruct Hm1 as (Hv & Hm1). split; [done|]. clear Hv.
  revert m1 Hm1. induction quiet as [|q quiet IH]; intros m1 (H1 & H2 & H3 & H4); cbn [quiet_ticks foldl].
  - destruct (quiet_tick_spec m1 now t H1 H2) as (_ & _ & _ & _ & ->). by rewrite H3, H4.
  - apply IH. destruct (quiet_tick_spec m1 q t H1 H2) as (-> & -> & -> & -> & _). by rewrite H3, H4.
Qed.

Lemma udp_pps_gauge_witness :
  let m1 := pps_tick (forward_n NewMetrics 5 0) (1 * Second) in
  mt_value m1 UDPPPS = 5
  /\ mt_value (pps_tick (quiet_ticks m1 [2 * Second]) (3 * Second)) UDPPPS = 0.
Proof.
  apply (udp_pps_gauge NewMetrics 5 0 (1 * Second) [2 * Second] (3 * Second));
    [reflexivity|split; vm_compute; congruence].
Defined.

(** The queue gauge never goes below zero. *)
Lemma queue_gauge_nonneg m delta : 0 <= mt_value (AddDatagramQueue m delta) DatagramQueueLen.
Proof.
  unfold AddDatagramQueue. rewrite metric_set_eq. case_on; zbool; lia.
Qed.
