(* ===== verification/RelayConn.v ===== *)
(** * One relay connection ([internal/relay/conn.go])

    A connection is shared by its reader goroutine, its writer goroutine and the HTTP handlers.
    A step is one call of a handler, one turn of a loop, or one half of [Close]: the part up to
    [wg.Wait] and the part after it. The target socket is what the steps take as arguments:
    the result of a read, the outcome of a write. [rc_written] records what the target was
    given; [rc_released] counts the calls of [onClosed]. Logging is left out. *)

From S2P Require Import Prelude RingBuffer.

Definition ErrConnClosed : goerr := ESentinel "relay connection closed".

(** [closeOnce]: not entered, entered and not finished (by the reader goroutine or by another
    caller), finished. *)
Inductive once_state := OnceFresh | OnceRunning (by_reader : bool) | OnceDone.

Record relayConn := mkRelayConn {
  rc_id : string; rc_clientID : string;
  rc_downstream : RingBuffer;
  rc_queue : list (list byte); rc_queue_closed : bool;
  rc_upstreamBytes : Z; rc_sendWindow : Z; rc_idleTimeout : Z;
  rc_lastActive : Z; rc_eos : bool; rc_closed : bool; rc_cancelled : bool;
  rc_target_closed : bool;
  rc_reader : bool; rc_writer : bool;   (** the goroutines that [wg] counts *)
  rc_once : once_state;
  rc_released : Z;
  rc_written : list byte }.

Definition queueCap : Z := 256.
Definition chunk : Z := 4096.

Definition newRelayConn (id clientID : string) (recvWindow sendWindow idleTimeout nowMS : Z) : relayConn :=
  let recvWindow := if recvWindow <? 1 then 1 else recvWindow in
  let sendWindow := if sendWindow <? 1 then 1 else sendWindow in
  mkRelayConn id clientID (NewRingBuffer recvWindow) [] false 0 sendWindow idleTimeout nowMS
    false false false false false false OnceFresh 0 [].

Definition Start (c : relayConn) : relayConn :=
  mkRelayConn (rc_id c) (rc_clientID c) (rc_downstream c) (rc_queue c) (rc_queue_closed c)
    (rc_upstreamBytes c) (rc_sendWindow c) (rc_idleTimeout c) (rc_lastActive c) (rc_eos c)
    (rc_closed c) (rc_cancelled c) (rc_target_closed c) true true (rc_once c) (rc_released c)
    (rc_written c).

Definition touch (c : relayConn) (nowMS : Z) : relayConn :=
  mkRelayConn (rc_id c) (rc_clientID c) (rc_downstream c) (rc_queue c) (rc_queue_closed c)
    (rc_upstreamBytes c) (rc_sendWindow c) (rc_idleTimeout c) nowMS (rc_eos c)
    (rc_closed c) (rc_cancelled c) (rc_target_closed c) (rc_reader c) (rc_writer c) (rc_once c)
    (rc_released c) (rc_written c).

Definition set_downstream (c : relayConn) (d : RingBuffer) : relayConn :=
  mkRelayConn (rc_id c) (rc_clientID c) d (rc_queue c) (rc_queue_closed c)
    (rc_upstreamBytes c) (rc_sendWindow c) (rc_idleTimeout c) (rc_lastActive c) (rc_eos c)
    (rc_closed c) (rc_cancelled c) (rc_target_closed c) (rc_reader c) (rc_writer c) (rc_once c)
    (rc_released c) (rc_written c).

Definition set_queue (c : relayConn) (q : list (list byte)) (bytes : Z) : relayConn :=
  mkRelayConn (rc_id c) (rc_clientID c) (rc_downstream c) q (rc_queue_closed c)
    bytes (rc_sendWindow c) (rc_idleTimeout c) (rc_lastActive c) (rc_eos c)
    (rc_closed c) (rc_cancelled c) (rc_target_closed c) (rc_reader c) (rc_writer c) (rc_once c)
    (rc_released c) (rc_written c).

(** The loops' exits and the bytes handed to the target. *)
Definition set_loops (c : relayConn) (reader writer : bool) (written : list byte) : relayConn :=
  mkRelayConn (rc_id c) (rc_clientID c) (rc_downstream c) (rc_queue c) (rc_queue_closed c)
    (rc_upstreamBytes c) (rc_sendWindow c) (rc_idleTimeout c) (rc_lastActive c) (rc_eos c)
    (rc_closed c) (rc_cancelled c) (rc_target_closed c) reader writer (rc_once c)
    (rc_released c) written.

(** The loop of [Enqueue] from [offset] on; [fuel] bounds its turns. The send on a closed
    channel panics. *)
Fixpoint enqueue_loop (fuel : nat) (c : relayConn) (data : list byte) (offset accepted : Z)
  : res (relayConn * Z) :=
  match fuel with
  | O => Ok (c, accepted)
  | S fuel =>
      if zlen data <=? offset then Ok (c, accepted)
      else if rc_closed c || rc_eos c then Ok (c, accepted)
      else
        let end_ := if zlen data <? offset + chunk then zlen data else offset + chunk in
        let partLen := end_ - offset in
        if rc_sendWindow c <? rc_upstreamBytes c + partLen then Ok (c, accepted)
        else
          part ← slice data offset end_;
          if rc_queue_closed c then Panic "send on closed channel"
          else if zlen (rc_queue c) <? queueCap
          then enqueue_loop fuel
                 (set_queue c (rc_queue c ++ [part]) (int64 (rc_upstreamBytes c + partLen)))
                 data end_ (accepted + partLen)
          else enqueue_loop fuel c data (zlen data) accepted
  end.

Definition Enqueue (c : relayConn) (nowMS : Z) (data : list byte)
  : res (relayConn * Z * Z * option goerr) :=
  if zlen data =? 0 then Ok (c, 0, rc_upstreamBytes c, None)
  else if rc_closed c || rc_eos c then Ok (c, 0, rc_upstreamBytes c, Some ErrConnClosed)
  else
    '(c, accepted) ← enqueue_loop (S (length data)) c data 0 0;
    let queued := rc_upstreamBytes c in
    if (accepted =? 0) && (0 <? zlen data) then Ok (c, 0, queued, None)
    else Ok (touch c nowMS, accepted, queued, None).

Definition Recv (c : relayConn) (nowMS max : Z) : res (relayConn * list byte * bool * option goerr) :=
  if rc_closed c then Ok (c, [], true, Some ErrConnClosed)
  else
    '(d, data, eos) ← Read (rc_downstream c) max;
    let c := set_downstream c d in
    Ok (if 0 <? zlen data then touch c nowMS else c, data, eos, None).

Definition Ping (c : relayConn) (nowMS : Z) : relayConn :=
  if negb (rc_closed c) then touch c nowMS else c.

Definition ExpiresInMS (c : relayConn) (now : Z) : Z :=
  let remaining := int64 (rc_idleTimeout c - time_Sub now (UnixMilli (rc_lastActive c))) in
  if remaining <? 0 then 0 else Z.quot remaining Millisecond.

Definition MarkEOS (c : relayConn) : relayConn :=
  if rc_eos c then c
  else mkRelayConn (rc_id c) (rc_clientID c) (Close (rc_downstream c)) (rc_queue c) (rc_queue_closed c)
         (rc_upstreamBytes c) (rc_sendWindow c) (rc_idleTimeout c) (rc_lastActive c) true
         (rc_closed c) true true (rc_reader c) (rc_writer c) (rc_once c)
         (rc_released c) (rc_written c).

(** [Close] up to [wg.Wait], for the caller that enters [closeOnce]. *)
Definition close_enter (c : relayConn) (by_reader : bool) : relayConn :=
  mkRelayConn (rc_id c) (rc_clientID c) (Close (rc_downstream c)) (rc_queue c) true
    (rc_upstreamBytes c) (rc_sendWindow c) (rc_idleTimeout c) (rc_lastActive c) true
    true true true (rc_reader c) (rc_writer c) (OnceRunning by_reader) (rc_released c)
    (rc_written c).
(** [Close] after [wg.Wait]. *)
Definition close_finish (c : relayConn) : relayConn :=
  mkRelayConn (rc_id c) (rc_clientID c) (rc_downstream c) (rc_queue c) (rc_queue_closed c)
    (rc_upstreamBytes c) (rc_sendWindow c) (rc_idleTimeout c) (rc_lastActive c) (rc_eos c)
    (rc_closed c) (rc_cancelled c) (rc_target_closed c) (rc_reader c) (rc_writer c) OnceDone
    (rc_released c + 1) (rc_written c).

(** The result of [target.Read]: the bytes and how the call ended. *)
Inductive read_end := ReadOK | ReadEOF | ReadTimeout | ReadFail.

(** One turn of [readLoop]. The reader leaves the loop by returning, except that on overflow it
    first has to get through [Close], which waits for the reader itself. *)
Definition readLoop_turn (c : relayConn) (nowMS : Z) (buf : list byte) (e : read_end) : res relayConn :=
  if rc_closed c then Ok (set_loops c false (rc_writer c) (rc_written c))
  else
    '(c, overflow) ← (if 0 <? zlen buf then
                        let c := touch c nowMS in
                        '(d, _, overflow) ← Write (rc_downstream c) buf;
                        Ok (set_downstream c d, overflow)
                      else Ok (c, false));
    if (overflow : bool) then
      match rc_once c with
      | OnceFresh => Ok (close_enter c true)
      | OnceRunning _ => Ok c
      | OnceDone => Ok (set_loops c false (rc_writer c) (rc_written c))
      end
    else match e with
    | ReadOK | ReadTimeout => Ok c
    | ReadEOF | ReadFail =>
        let c := MarkEOS c in Ok (set_loops c false (rc_writer c) (rc_written c))
    end.

(** What a turn of [writeLoop] selects, and how its writes end: [n] bytes written. *)
Inductive write_event :=
| WDone
| WChunk (deadline_ok : bool) (write_ok : bool) (n : Z).

(** One turn of [writeLoop]; [None] when the selected case is not ready. *)
Definition writeLoop_turn (c : relayConn) (nowMS : Z) (ev : write_event) : option relayConn :=
  match ev with
  | WDone => if rc_cancelled c then Some (set_loops c (rc_reader c) false (rc_written c)) else None
  | WChunk deadline_ok write_ok n =>
      match rc_queue c with
      | [] => if rc_queue_closed c then Some (set_loops c (rc_reader c) false (rc_written c)) else None
      | part :: rest =>
          let c := set_queue c rest (int64 (rc_upstreamBytes c - zlen part)) in
          if zlen part =? 0 then Some c
          else if rc_closed c || rc_eos c then Some (set_loops c (rc_reader c) false (rc_written c))
          else if negb deadline_ok
          then let c := MarkEOS c in Some (set_loops c (rc_reader c) false (rc_written c))
          else if negb write_ok
          then let c := MarkEOS c in
               Some (set_loops c (rc_reader c) false (rc_written c ++ ztake n part))
          else Some (touch (set_loops c (rc_reader c) true (rc_written c ++ part)) nowMS)
      end
  end.

(** ** Steps and reachable states *)

Definition in_own_close (c : relayConn) : bool :=
  match rc_once c with OnceRunning true => true | _ => false end.

(** Ghost history of a connection: the bytes accepted from the client, read from the target and
    handed to the client. *)
Record history := mkHistory { h_up : list byte; h_in : list byte; h_out : list byte }.

Inductive conn_step : relayConn * history -> relayConn * history -> Prop :=
| st_enqueue c h now data c' n q e :
    Enqueue c now data = Ok (c', n, q, e) ->
    conn_step (c, h) (c', mkHistory (h_up h ++ ztake n data) (h_in h) (h_out h))
| st_recv c h now max c' data eos e :
    Recv c now max = Ok (c', data, eos, e) ->
    conn_step (c, h) (c', mkHistory (h_up h) (h_in h) (h_out h ++ data))
| st_ping c h now : conn_step (c, h) (Ping c now, h)
| st_read c h now buf e c' :
    rc_reader c = true -> in_own_close c = false -> readLoop_turn c now buf e = Ok c' ->
    conn_step (c, h) (c', mkHistory (h_up h) (h_in h ++ (if rc_closed c then [] else buf)) (h_out h))
| st_write c h now ev c' :
    rc_writer c = true -> writeLoop_turn c now ev = Some c' -> conn_step (c, h) (c', h)
| st_close c h : rc_once c = OnceFresh -> conn_step (c, h) (close_enter c false, h)
| st_finish c h b :
    rc_once c = OnceRunning b -> rc_reader c = false -> rc_writer c = false ->
    conn_step (c, h) (close_finish c, h).

Inductive conn_steps : relayConn * history -> relayConn * history -> Prop :=
| steps_refl s : conn_steps s s
| steps_more s1 s2 s3 : conn_steps s1 s2 -> conn_step s2 s3 -> conn_steps s1 s3.

(** ** The invariant *)

Fixpoint sum_len (q : list (list byte)) : Z :=
  match q with [] => 0 | p :: q => zlen p + sum_len q end.

Definition once_entered (o : once_state) : bool := match o with OnceFresh => false | _ => true end.

Record conn_inv (c : relayConn) (f : fifo) (h : history) : Prop := {
  ci_ring : rb_rep (rc_downstream c) f;
  ci_ring_fits : zlen (f_queue f) <= f_cap f;
  ci_window : 1 <= rc_sendWindow c < 2 ^ 62;
  ci_bytes : rc_upstreamBytes c = sum_len (rc_queue c);
  ci_bound : rc_upstreamBytes c <= rc_sendWindow c;
  ci_slots : zlen (rc_queue c) <= queueCap;
  ci_parts : Forall (fun p => 0 < zlen p) (rc_queue c);
  ci_closed : rc_closed c = once_entered (rc_once c);
  ci_queue_closed : rc_queue_closed c = rc_closed c;
  ci_eos : (rc_closed c = true -> rc_eos c = true) /\ rc_cancelled c = rc_eos c /\ f_closed f = rc_eos c;
  ci_own : in_own_close c = true -> rc_reader c = true;
  ci_released : rc_released c = match rc_once c with OnceDone => 1 | _ => 0 end;
  ci_up : if rc_writer c then rc_written c ++ concat (rc_queue c) = h_up h
          else rc_eos c = true /\ rc_written c `prefix_of` h_up h;
  ci_down : if rc_eos c then (h_out h ++ f_queue f) `prefix_of` h_in h
            else h_out h ++ f_queue f = h_in h }.

Lemma sum_len_app q k : sum_len (q ++ k) = sum_len q + sum_len k.
Proof. induction q; simpl; lia. Qed.
Lemma sum_len_nonneg q : 0 <= sum_len q.
Proof. induction q as [|p q IH]; simpl; [lia|]. pose proof (zlen_nonneg p). lia. Qed.

(** ** Enqueue *)

(** What the loop adds: whole parts of the data, in order. *)
Lemma enqueue_loop_spec fuel : forall c data offset accepted,
  rc_closed c = false -> rc_eos c = false -> rc_queue_closed c = false ->
  1 <= rc_sendWindow c < 2 ^ 62 -> 0 <= rc_upstreamBytes c <= rc_sendWindow c ->
  zlen (rc_queue c) <= queueCap -> 0 <= offset <= zlen data ->
  exists parts offset',
    enqueue_loop fuel c data offset accepted =
      Ok (set_queue c (rc_queue c ++ parts) (rc_upstreamBytes c + sum_len parts), accepted + (offset' - offset))
    /\ concat parts = ztake (offset' - offset) (zdrop offset data) /\ offset <= offset' <= zlen data
    /\ sum_len parts = offset' - offset /\ Forall (fun p => 0 < zlen p) parts
    /\ rc_upstreamBytes c + sum_len parts <= rc_sendWindow c
    /\ zlen (rc_queue c ++ parts) <= queueCap.
Proof.
  assert (Hstop : forall c data offset accepted,
    rc_upstreamBytes c <= rc_sendWindow c -> zlen (rc_queue c) <= queueCap -> 0 <= offset <= zlen data ->
    exists parts offset',
    Ok (c, accepted) = Ok (set_queue c (rc_queue c ++ parts) (rc_upstreamBytes c + sum_len parts), accepted + (offset' - offset))
    /\ concat parts = ztake (offset' - offset) (zdrop offset data) /\ offset <= offset' <= zlen data
    /\ sum_len parts = offset' - offset /\ Forall (fun p => 0 < zlen p) parts
    /\ rc_upstreamBytes c + sum_len parts <= rc_sendWindow c
    /\ zlen (rc_queue c ++ parts) <= queueCap).
  { intros c data offset accepted Hb Hs Ho. exists [], offset. rewrite app_nil_r, Z.sub_diag. simpl.
    rewrite !Z.add_0_r. split_and!; try done; try lia. by destruct c. }
  induction fuel as [|fuel IH]; intros c data offset accepted Hc He Hqc Hw Hb Hs Ho;
    [by apply Hstop; lia|]. cbn [enqueue_loop].
  destruct (zlen data <=? offset) eqn:E0; [apply Hstop; lia|]. zbool.
  rewrite Hc, He. cbn [orb].
  set (end_ := if zlen data <? offset + chunk then _ else _).
  assert (Hend : offset < end_ <= zlen data) by (unfold end_, chunk; case_on; zbool; lia).
  clearbody end_.
  destruct (rc_sendWindow c <? _) eqn:E1; [apply Hstop; lia|]. zbool.
  unfold slice. zdecide. cbn [andb mbind res_bind]. rewrite Hqc.
  destruct (zlen (rc_queue c) <? queueCap) eqn:E2; zbool.
  2:{ destruct fuel; cbn [enqueue_loop]; [apply Hstop; lia|]. zdecide. apply Hstop; lia. }
  set (part := ztake (end_ - offset) (zdrop offset data)).
  assert (Hpart : zlen part = end_ - offset).
  { unfold part. rewrite zlen_ztake, zlen_zdrop by lia. lia. }
  rewrite int64_small by (unfold is_int64; lia).
  destruct (IH (set_queue c (rc_queue c ++ [part]) (rc_upstreamBytes c + (end_ - offset))) data end_
              (accepted + (end_ - offset))) as (parts & off' & Hl & Hcat & Hoff & Hsum & Hne & Hbound & Hslots);
    try done; cbn [rc_sendWindow rc_upstreamBytes rc_queue set_queue]; try lia.
  { rewrite zlen_app. change (zlen [part]) with 1. unfold queueCap in *. lia. }
  exists (part :: parts), off'. cbn [concat sum_len rc_queue rc_upstreamBytes rc_sendWindow set_queue] in *.
  rewrite <- app_assoc in Hl, Hslots. cbn [app] in Hl, Hslots. split_and!; try lia.
  - rewrite Hl. do 2 f_equal; [|lia]. unfold set_queue. cbn. f_equal. lia.
  - rewrite Hcat. unfold part.
    rewrite <- (ztake_zdrop (end_ - offset) (zdrop offset data)) at 2.
    fold part. replace (off' - offset) with (zlen part + (off' - end_)) by lia.
    rewrite ztake_app_ge by lia. f_equal. replace (zlen part + (off' - end_) - zlen part) with (off' - end_) by lia.
    f_equal. unfold zdrop. rewrite drop_drop. f_equal. lia.
  - by constructor; [lia|].
Qed.

Lemma history_eta h up hin out :
  h_up h = up -> h_in h = hin -> h_out h = out -> h = mkHistory up hin out.
Proof. destruct h. simpl. congruence. Qed.

Lemma conn_inv_touch c f h now : conn_inv c f h -> conn_inv (touch c now) f h.
Proof. by intros []; split. Qed.

(** [Enqueue] never panics, keeps the invariant and accepts a prefix of the data. *)
Lemma Enqueue_inv c f h now data :
  conn_inv c f h ->
  exists c' n q e, Enqueue c now data = Ok (c', n, q, e) /\ 0 <= n <= zlen data /\
    q = rc_upstreamBytes c' /\
    conn_inv c' f (mkHistory (h_up h ++ ztake n data) (h_in h) (h_out h)).
Proof.
  intros Hinv. pose proof (zlen_nonneg data) as Hd.
  assert (Hnone : forall q (e : option goerr), q = rc_upstreamBytes c -> exists c' n q' e', Ok (c, 0, q, e) = Ok (c', n, q', e') /\ 0 <= n <= zlen data
    /\ q' = rc_upstreamBytes c' /\ conn_inv c' f (mkHistory (h_up h ++ ztake n data) (h_in h) (h_out h))).
  { intros q e ->. exists c, 0, (rc_upstreamBytes c), e. rewrite ztake_zero, app_nil_r. destruct h. split_and!; [done|lia..|done|done]. }
  unfold Enqueue. destruct (zlen data =? 0); [by apply Hnone|].
  destruct (rc_closed c || rc_eos c) eqn:E; [by apply Hnone|]. apply orb_false_elim in E as [Ec Ee].
  pose proof (sum_len_nonneg (rc_queue c)) as Hsn.
  pose proof Hinv as [Hr Hf Hw Hb Hbd Hs Hp Hcl Hqc Heos Hown Hrel Hup Hdown].
  destruct (enqueue_loop_spec (S (length data)) c data 0 0) as (parts & off & -> & Hcat & Hoff & Hsum & Hne & Hbound & Hslots);
    try done; try congruence; try lia.
  cbn [mbind res_bind]. rewrite Z.sub_0_r, Z.add_0_l in *.
  set (c1 := set_queue c (rc_queue c ++ parts) (rc_upstreamBytes c + sum_len parts)).
  assert (Hc1 : conn_inv c1 f (mkHistory (h_up h ++ ztake off data) (h_in h) (h_out h))).
  { split; try done; cbn [c1 set_queue rc_upstreamBytes rc_queue rc_sendWindow rc_writer rc_written rc_eos h_up].
    - rewrite sum_len_app. lia.
    - by apply Forall_app.
    - rewrite Ee in Hup. destruct (rc_writer c); [|by destruct Hup].
      rewrite concat_app, Hcat, zdrop_zero, app_assoc. by rewrite Hup. }
  destruct ((off =? 0) && (0 <? zlen data)) eqn:E0.
  - zbool. assert (off = 0) as -> by done. exists c1, 0, (rc_upstreamBytes c1), None.
    split_and!; [done|lia..|done|done].
  - exists (touch c1 now), off, (rc_upstreamBytes c1), None.
    split_and!; [done|lia..|done|by apply conn_inv_touch].
Qed.

Lemma Recv_inv c f h now max :
  conn_inv c f h ->
  exists c' data eos e f', Recv c now max = Ok (c', data, eos, e) /\
    conn_inv c' f' (mkHistory (h_up h) (h_in h) (h_out h ++ data)) /\ f_cap f' = f_cap f.
Proof.
  intros Hinv. pose proof Hinv as [Hr Hf Hw Hb Hbd Hs Hp Hcl Hqc Heos Hown Hrel Hup Hdown].
  unfold Recv. destruct (rc_closed c) eqn:Ec.
  { exists c, [], true, (Some ErrConnClosed), f. rewrite app_nil_r. destruct h. done. }
  destruct (Read_refines _ _ max Hr) as (d & -> & Hd). cbn [mbind res_bind].
  unfold fifo_read in *. cbn [fst snd] in *.
  set (out := ztake max (f_queue f)) in *. set (rest := zdrop max (f_queue f)) in *.
  assert (Hq : out ++ rest = f_queue f) by apply ztake_zdrop.
  assert (Hc1 : conn_inv (set_downstream c d) (mkFifo rest (f_cap f) (f_closed f))
                 (mkHistory (h_up h) (h_in h) (h_out h ++ out))).
  { split; try done; cbn [set_downstream rc_downstream rc_closed rc_eos f_queue f_cap f_closed h_in h_out];
      try (by rewrite Ec).
    - rewrite <- Hq, zlen_app in Hf. pose proof (zlen_nonneg out). lia.
    - by rewrite <- app_assoc, Hq. }
  eexists _, out, _, None, (mkFifo rest (f_cap f) (f_closed f)). split; [reflexivity|]. split; [|done].
  case_on; [by apply conn_inv_touch|done].
Qed.

Lemma Ping_inv c f h now : conn_inv c f h -> conn_inv (Ping c now) f h.
Proof. intros. unfold Ping. case_on; [by apply conn_inv_touch|done]. Qed.

Lemma fifo_close_rep rb f : rb_rep rb f -> rb_rep (Close rb) (fifo_close f).
Proof. intros []. by split. Qed.

Lemma MarkEOS_inv c f h :
  conn_inv c f h -> exists f', conn_inv (MarkEOS c) f' h /\ f_cap f' = f_cap f /\ f_queue f' = f_queue f.
Proof.
  intros Hinv. unfold MarkEOS. destruct (rc_eos c) eqn:Ee; [by exists f|].
  exists (fifo_close f). split; [|done]. destruct Hinv as [Hr Hf Hw Hb Hbd Hs Hp Hcl Hqc Heos Hown Hrel Hup Hdown].
  split; try done; cbn [rc_downstream rc_writer rc_written rc_queue rc_eos f_queue fifo_close].
  - by apply fifo_close_rep.
  - rewrite Ee in Hup. destruct (rc_writer c); [done|by destruct Hup].
  - rewrite Ee in Hdown. by rewrite Hdown.
Qed.

Lemma close_enter_inv c f h b :
  conn_inv c f h -> rc_once c = OnceFresh -> (b = true -> rc_reader c = true) ->
  exists f', conn_inv (close_enter c b) f' h /\ f_cap f' = f_cap f.
Proof.
  intros Hinv Ho Hb'. exists (fifo_close f). split; [|done].
  destruct Hinv as [Hr Hf Hw Hb Hbd Hs Hp Hcl Hqc Heos Hown Hrel Hup Hdown].
  split; try done; cbn [close_enter rc_downstream rc_writer rc_written rc_queue rc_eos f_queue fifo_close rc_once rc_released rc_reader].
  - by apply fifo_close_rep.
  - unfold in_own_close. cbn. by destruct b.
  - by rewrite Hrel, Ho.
  - destruct (rc_writer c); [done|]. by destruct Hup.
  - destruct (rc_eos c); [done|]. by rewrite Hdown.
Qed.

Lemma close_finish_inv c f h b :
  conn_inv c f h -> rc_once c = OnceRunning b -> conn_inv (close_finish c) f h.
Proof.
  intros [] Ho. split; try done; cbn [close_finish rc_once rc_closed rc_released].
  - by rewrite ci_closed0, Ho.
  - by rewrite ci_released0, Ho.
Qed.

(** Leaving the reader loop. *)
Lemma reader_exit_inv c f h :
  conn_inv c f h -> in_own_close c = false -> conn_inv (set_loops c false (rc_writer c) (rc_written c)) f h.
Proof. intros [] Ho. split; try done. cbn. intros H. unfold in_own_close in *. cbn in H. congruence. Qed.

Lemma prefix_weaken {A} (l k m : list A) : l `prefix_of` k -> l `prefix_of` k ++ m.
Proof. apply prefix_app_r. Qed.

(** Storing what was read from the target. *)
Lemma downstream_write_inv c f h now buf :
  conn_inv c f h -> rc_closed c = false ->
  exists d n ov f', Write (rc_downstream c) buf = Ok (d, n, ov) /\ f_cap f' = f_cap f /\
    (ov = false -> conn_inv (set_downstream (touch c now) d) f'
                     (mkHistory (h_up h) (h_in h ++ buf) (h_out h))) /\
    (ov = true -> rc_once c = OnceFresh -> rc_reader c = true ->
       exists f'', conn_inv (close_enter (set_downstream (touch c now) d) true) f''
                     (mkHistory (h_up h) (h_in h ++ buf) (h_out h)) /\ f_cap f'' = f_cap f).
Proof.
  intros Hinv Hcl. pose proof Hinv as [Hr Hf Hw Hb Hbd Hs Hp Hcl' Hqc Heos Hown Hrel Hup Hdown].
  destruct (Write_refines _ _ buf Hr) as (d & HW & Hd). rewrite HW. unfold fifo_write in *.
  destruct Heos as (He1 & He2 & He3). pose proof (zlen_nonneg (f_queue f)) as Hqn.
  destruct (f_closed f || (zlen buf =? 0)) eqn:E.
  - cbn [fst snd] in *. exists d, 0, false, f. split; [done|]. split; [done|]. split; [|done]. intros _.
    split; try done; cbn [set_downstream touch rc_downstream rc_eos f_queue h_in h_out].
    apply orb_prop in E as [E|E].
    + rewrite <- He3, E in *. by apply prefix_weaken.
    + zbool. apply zlen_zero in E as ->. by rewrite app_nil_r.
  - apply orb_false_elim in E as [Ef Eb]. cbn [fst snd] in *.
    set (taken := ztake (f_cap f - zlen (f_queue f)) buf) in *.
    assert (Heos0 : rc_eos c = false) by congruence. rewrite Heos0 in *.
    exists d, (zlen taken), (f_cap f - zlen (f_queue f) <? zlen buf), (mkFifo (f_queue f ++ taken) (f_cap f) false).
    split; [done|]. split; [done|].
    assert (Htk : zlen taken = Z.min (f_cap f - zlen (f_queue f)) (zlen buf)) by (apply zlen_ztake; lia).
    split; intros Hov.
    + zbool. assert (Hall : taken = buf) by (apply ztake_all; lia).
      split; try done; cbn [set_downstream touch rc_downstream rc_eos rc_cancelled f_queue f_cap f_closed h_in h_out].
      * rewrite zlen_app. lia.
      * by rewrite Heos0.
      * rewrite Heos0. exact Hup.
      * rewrite Heos0. by rewrite Hall, app_assoc, Hdown.
    + intros Hfresh Hrd. zbool. exists (fifo_close (mkFifo (f_queue f ++ taken) (f_cap f) false)).
      split; [|done].
      split; try done; cbn [close_enter set_downstream touch rc_downstream rc_eos rc_writer rc_written rc_queue
        rc_once rc_released f_queue f_cap f_closed fifo_close h_in h_out h_up].
      * by apply fifo_close_rep.
      * rewrite zlen_app. lia.
      * by rewrite Hrel, Hfresh.
      * destruct (rc_writer c); [done|by destruct Hup].
      * rewrite app_assoc, Hdown. apply prefix_app. exists (zdrop (f_cap f - zlen (f_queue f)) buf).
        unfold taken. by rewrite ztake_zdrop.
Qed.

Lemma readLoop_inv c f h now buf e :
  conn_inv c f h -> rc_reader c = true -> in_own_close c = false ->
  exists c' f', readLoop_turn c now buf e = Ok c' /\ f_cap f' = f_cap f /\
    conn_inv c' f' (mkHistory (h_up h) (h_in h ++ (if rc_closed c then [] else buf)) (h_out h)).
Proof.
  intros Hinv Hrd Hown. unfold readLoop_turn. destruct (rc_closed c) eqn:Ec.
  { eexists _, f. split; [reflexivity|]. split; [done|]. rewrite app_nil_r.
    destruct h. by apply reader_exit_inv. }
  assert (Hfresh : rc_once c = OnceFresh).
  { pose proof (ci_closed _ _ _ Hinv) as H. rewrite Ec in H. by destruct (rc_once c). }
  assert (Hend : forall c1 f1 h1, conn_inv c1 f1 h1 -> in_own_close c1 = false ->
    exists c' f', match e with
                  | ReadOK | ReadTimeout => Ok c1
                  | ReadEOF | ReadFail =>
                      Ok (set_loops (MarkEOS c1) false (rc_writer (MarkEOS c1)) (rc_written (MarkEOS c1)))
                  end = Ok c' /\ f_cap f' = f_cap f1 /\ conn_inv c' f' h1).
  { intros c1 f1 h1 H1 Ho1. destruct (MarkEOS_inv _ _ _ H1) as (f2 & H2 & Hcap & _).
    assert (Ho2 : in_own_close (MarkEOS c1) = false) by (unfold MarkEOS; by destruct (rc_eos c1)).
    destruct e; eexists _, _; (split; [reflexivity|]); try (split; [reflexivity|exact H1]);
      (split; [exact Hcap|by apply reader_exit_inv]). }
  destruct (0 <? zlen buf) eqn:Eb; zbool.
  - destruct (downstream_write_inv c f h now buf Hinv Ec) as (d & n & ov & f1 & HW & Hcap & Hok & Hov).
    cbn [touch rc_downstream]. rewrite HW. cbn [mbind res_bind]. destruct ov.
    + cbn [set_downstream touch rc_once]. rewrite Hfresh.
      destruct (Hov eq_refl Hfresh Hrd) as (f2 & H2 & Hcap2). eexists _, f2. by split_and!.
    + destruct (Hend _ _ _ (Hok eq_refl)) as (c' & f' & He & Hc' & Hi); [done|].
      exists c', f'. split_and!; [exact He|congruence|done].
  - assert (buf = []) as -> by (apply zlen_zero; pose proof (zlen_nonneg buf); lia).
    cbn [mbind res_bind]. rewrite app_nil_r. destruct (Hend c f h Hinv Hown) as (c' & f' & He & Hc' & Hi).
    exists c', f'. split_and!; [exact He|done|]. by destruct h.
Qed.

(** Leaving the writer loop once the connection is at its end. *)
Lemma writer_exit_inv c f h w :
  conn_inv c f h -> rc_eos c = true -> w `prefix_of` h_up h ->
  conn_inv (set_loops c (rc_reader c) false w) f h.
Proof. intros [] He Hw. split; try done. Qed.

Lemma writeLoop_inv c f h now ev c' :
  conn_inv c f h -> rc_writer c = true -> writeLoop_turn c now ev = Some c' ->
  exists f', conn_inv c' f' h /\ f_cap f' = f_cap f.
Proof.
  intros Hinv Hw. pose proof (ci_up _ _ _ Hinv) as Hup. rewrite Hw in Hup.
  pose proof (ci_eos _ _ _ Hinv) as (He1 & He2 & He3).
  assert (Hpre : rc_written c `prefix_of` h_up h) by (rewrite <- Hup; by apply prefix_app_r).
  unfold writeLoop_turn. destruct ev as [|dl wr n].
  { destruct (rc_cancelled c) eqn:E; [|done]. intros [= <-]. exists f. split; [|done].
    apply writer_exit_inv; [done|congruence|done]. }
  destruct (rc_queue c) as [|part rest] eqn:Eq.
  { destruct (rc_queue_closed c) eqn:E; [|done]. intros [= <-]. exists f. split; [|done].
    rewrite (ci_queue_closed _ _ _ Hinv) in E. apply writer_exit_inv; auto. }
  pose proof (ci_parts _ _ _ Hinv) as Hparts. rewrite Eq in Hparts. apply Forall_cons in Hparts as [Hpart Hrest].
  rewrite (proj2 (Z.eqb_neq _ 0)) by lia.
  pose proof (ci_bytes _ _ _ Hinv) as Hb. rewrite Eq in Hb. cbn [sum_len] in Hb.
  pose proof (sum_len_nonneg rest) as Hsn. pose proof (ci_bound _ _ _ Hinv). pose proof (ci_window _ _ _ Hinv).
  pose proof (ci_slots _ _ _ Hinv) as Hsl. rewrite Eq, zlen_cons in Hsl.
  rewrite int64_small by (unfold is_int64; lia).
  set (c1 := set_queue c rest (rc_upstreamBytes c - zlen part)).
  (* once the part is taken the writer either exits or writes it *)
  assert (Hdrop : forall w, w `prefix_of` h_up h -> rc_eos c = true ->
    conn_inv (set_loops c1 (rc_reader c1) false w) f h).
  { intros w Hpw He. destruct Hinv. split; try done; cbn; lia. }
  assert (Hmark : forall w, w `prefix_of` h_up h -> rc_eos c = false -> exists f', conn_inv
    (set_loops (MarkEOS c1) (rc_reader (MarkEOS c1)) false w) f' h /\ f_cap f' = f_cap f).
  { intros w Hpw He. exists (fifo_close f). split; [|done].
    unfold MarkEOS, c1. cbn [set_queue rc_eos]. rewrite He.
    destruct Hinv as [Hr Hf _ _ _ _ _ Hcl Hqc Heos Hown Hrel _ Hdown].
    split; try done; cbn; try lia.
    - by apply fifo_close_rep.
    - rewrite He in Hdown. by rewrite Hdown. }
  cbn [c1 set_queue rc_closed rc_eos]. change (set_queue c rest (rc_upstreamBytes c - zlen part)) with c1.
  cbn [concat] in Hup.
  destruct (rc_closed c || rc_eos c) eqn:Ece.
  { intros [= <-]. exists f. split; [|done]. apply Hdrop; [done|]. apply orb_prop in Ece as [?|?]; auto. }
  apply orb_false_elim in Ece as [_ Ee].
  assert (Hwr : rc_written (MarkEOS c1) = rc_written c) by (unfold MarkEOS; cbn; by rewrite Ee).
  destruct (negb dl); [intros [= <-]; rewrite Hwr; by apply Hmark|].
  destruct (negb wr).
  - intros [= <-]. rewrite Hwr. apply Hmark; [|done]. rewrite <- Hup.
    rewrite <- (ztake_zdrop n part) at 2. rewrite <- app_assoc, app_assoc. apply prefix_app_r. done.
  - intros [= <-]. exists f. split; [|done]. apply conn_inv_touch.
    destruct Hinv as [Hr Hf _ _ _ _ _ Hcl Hqc Heos Hown Hrel _ Hdown].
    split; try done; cbn; try lia. by rewrite <- Hup, <- app_assoc.
Qed.

Lemma conn_step_inv c h c' h' f :
  conn_step (c, h) (c', h') -> conn_inv c f h ->
  exists f', conn_inv c' f' h' /\ f_cap f' = f_cap f.
Proof.
  intros Hstep Hinv. inversion Hstep; subst.
  - destruct (Enqueue_inv c f h now data Hinv) as (c1 & n1 & q1 & e1 & HE & _ & _ & Hi). exists f. split; [|done].
    match goal with HE' : Enqueue _ _ _ = _ |- _ => rewrite HE in HE'; by injection HE' as -> -> -> -> end.
  - destruct (Recv_inv c f h now max Hinv) as (c1 & d1 & eos1 & e1 & f1 & HE & Hi & Hcap). exists f1.
    match goal with HE' : Recv _ _ _ = _ |- _ => rewrite HE in HE'; by injection HE' as -> -> -> -> end.
  - exists f. split; [by apply Ping_inv|done].
  - destruct (readLoop_inv c f h now buf e Hinv) as (c1 & f1 & HE & Hcap & Hi); try done. exists f1.
    match goal with HE' : readLoop_turn _ _ _ _ = _ |- _ => rewrite HE in HE'; by injection HE' as -> end.
  - by eapply writeLoop_inv.
  - by apply close_enter_inv.
  - exists f. split; [by eapply close_finish_inv|done].
Qed.

Definition no_history : history := mkHistory [] [] [].

Lemma conn_start_inv id cl rw sw idle t :
  sw < 2 ^ 62 ->
  conn_inv (Start (newRelayConn id cl rw sw idle t)) (mkFifo [] (Z.max 1 rw) false) no_history.
Proof.
  intros Hsw. unfold newRelayConn. set (rw' := if rw <? 1 then 1 else rw).
  assert (Hrw : Z.max 1 rw = Z.max 1 rw') by (unfold rw'; case_on; zbool; lia). rewrite Hrw.
  pose proof (NewRingBuffer_rep rw') as Hr.
  split; try done; cbn; try (repeat case_on; zbool; lia). change (zlen []) with 0. lia.
Qed.

Lemma conn_steps_inv s : forall s' f,
  conn_steps s s' -> conn_inv s.1 f s.2 -> exists f', conn_inv s'.1 f' s'.2 /\ f_cap f' = f_cap f.
Proof.
  intros s' f H. induction H as [s|s1 [c2 h2] [c3 h3] _ IH Hs]; intros Hinv; [by exists f|].
  destruct (IH Hinv) as (f2 & Hi2 & Hc2). destruct (conn_step_inv _ _ _ _ _ Hs Hi2) as (f3 & Hi3 & Hc3).
  exists f3. split; [done|congruence].
Qed.

(** ** Theorems *)

(** flow control of a relay connection. In every reachable state the queued upstream bytes
    are counted exactly and stay within the send window, at most 256 parts are queued, the
    downstream buffer stays within the receive window, and the close callback has run at most
    once. *)
Theorem relay_conn_windows id cl rw sw idle t c h :
  sw < 2 ^ 62 -> conn_steps (Start (newRelayConn id cl rw sw idle t), no_history) (c, h) ->
  rc_upstreamBytes c = sum_len (rc_queue c) /\ rc_upstreamBytes c <= rc_sendWindow c
  /\ zlen (rc_queue c) <= 256 /\ Len (rc_downstream c) <= Z.max 1 rw /\ 0 <= rc_released c <= 1.
Proof.
  intros Hsw Hsteps. destruct (conn_steps_inv _ _ _ Hsteps (conn_start_inv id cl rw sw idle t Hsw)) as (f & Hi & Hcap).
  cbn [fst snd f_cap] in *. split_and!; try apply Hi.
  - unfold Len. rewrite (rep_size _ _ (ci_ring _ _ _ Hi)), <- Hcap. apply Hi.
  - rewrite (ci_released _ _ _ Hi). by destruct (rc_once c).
  - rewrite (ci_released _ _ _ Hi). by destruct (rc_once c).
Qed.


(** no call on a reachable connection panics, neither on a slice bound nor by sending on the
    closed queue, and [Enqueue] never accepts more than it was given. *)
Theorem relay_conn_no_panic id cl rw sw idle t c h now data max buf e :
  sw < 2 ^ 62 -> conn_steps (Start (newRelayConn id cl rw sw idle t), no_history) (c, h) ->
  (exists c' n q err, Enqueue c now data = Ok (c', n, q, err) /\ 0 <= n <= zlen data)
  /\ (exists c' out eos err, Recv c now max = Ok (c', out, eos, err))
  /\ (rc_reader c = true -> in_own_close c = false -> exists c', readLoop_turn c now buf e = Ok c').
Proof.
  intros Hsw Hsteps. destruct (conn_steps_inv _ _ _ Hsteps (conn_start_inv id cl rw sw idle t Hsw)) as (f & Hi & _).
  cbn [fst snd] in *. split_and!.
  - destruct (Enqueue_inv c f h now data Hi) as (c' & n & q & err & H & Hn & _). by exists c', n, q, err.
  - destruct (Recv_inv c f h now max Hi) as (c' & out & eos & err & f' & H & _). by exists c', out, eos, err.
  - intros Hrd Ho. destruct (readLoop_inv c f h now buf e Hi Hrd Ho) as (c' & f' & H & _). by exists c'.
Qed.

(** The reader waiting for itself: nothing it could do wakes it. *)
Lemma own_close_stuck s s' :
  conn_step s s' -> in_own_close s.1 = true -> rc_reader s.1 = true -> rc_closed s.1 = true ->
  in_own_close s'.1 = true /\ rc_reader s'.1 = true /\ rc_closed s'.1 = true /\ rc_released s'.1 = rc_released s.1.
Proof.
  intros Hstep Ho Hrd Hcl. inversion Hstep as [c h now data c' n q e HE|c h now max c' data eos e HE|c h now
    |c h now buf e c' _ Ho' _|c h now ev c' _ HW|c h Hf|c h b Hr Hrd' _]; subst; cbn [fst snd] in *.
  - unfold Enqueue in HE. rewrite Hcl in HE. destruct (zlen data =? 0); simplify_eq/=; done.
  - unfold Recv in HE. rewrite Hcl in HE. simplify_eq/=. done.
  - unfold Ping. by rewrite Hcl.
  - congruence.
  - unfold writeLoop_turn in HW. unfold in_own_close in *.
    repeat case_in HW; simplify_eq/=; try done; rewrite ?Hcl in *; try done.
  - unfold in_own_close in Ho. by rewrite Hf in Ho.
  - congruence.
Qed.

(** a downstream overflow leaks the connection. Once the reader goroutine itself runs
    [Close], which waits for that goroutine, no sequence of further steps ever runs the close
    callback: the connection is never released, and every other closer waits with it. *)
Theorem overflow_close_never_finishes c h now buf c1 s :
  rc_closed c = false -> rc_once c = OnceFresh -> rc_reader c = true -> rc_released c = 0 ->
  readLoop_turn c now buf ReadOK = Ok c1 -> rc_closed c1 = true ->
  conn_steps (c1, h) s ->
  rc_once s.1 = OnceRunning true /\ rc_reader s.1 = true /\ rc_released s.1 = 0.
Proof.
  intros Hcl Hfr Hrd Hrel Hturn Hcl1 Hsteps.
  assert (H1 : in_own_close c1 = true /\ rc_reader c1 = true /\ rc_released c1 = 0).
  { unfold readLoop_turn in Hturn. rewrite Hcl in Hturn. destruct (0 <? zlen buf).
    - cbn [touch rc_downstream] in Hturn. destruct (Write (rc_downstream c) buf) as [[[d n] ov]| |]; [|done..].
      cbn [mbind res_bind set_downstream touch rc_once] in Hturn. rewrite Hfr in Hturn.
      destruct ov; injection Hturn as <-; [done|]. cbn in Hcl1. congruence.
    - cbn [mbind res_bind] in Hturn. injection Hturn as <-. congruence. }
  assert (Hall : in_own_close s.1 = true /\ rc_reader s.1 = true /\ rc_closed s.1 = true /\ rc_released s.1 = 0).
  { remember (c1, h) as s0 eqn:Hs0. induction Hsteps as [s|s1 s2 s3 _ IH Hs]; subst; [cbn; tauto|].
    destruct (IH eq_refl) as (Ho & Hr & Hc & H0).
    destruct (own_close_stuck _ _ Hs Ho Hr Hc) as (? & ? & ? & Heq). split_and!; try done. congruence. }
  destruct Hall as (Ho & Hr & _ & H0). split_and!; try done.
  unfold in_own_close in Ho. destruct (rc_once s.1) as [|[]|]; done.
Qed.

(** *** Witnesses *)

Definition ex_conn : relayConn := Start (newRelayConn "c_1" "dev" 4 8 (30 * Second) 0).
Definition ex_conn_sent : relayConn :=
  match Enqueue ex_conn 1 [x01; x02; x03] with Ok (c, _, _, _) => c | _ => ex_conn end.

Lemma ex_sent_steps : conn_steps (ex_conn, no_history) (ex_conn_sent, mkHistory [x01; x02; x03] [] []).
Proof.
  eapply steps_more; [apply steps_refl|].
  exact (st_enqueue ex_conn no_history 1 [x01; x02; x03] ex_conn_sent 3 3 None eq_refl).
Defined.

Lemma relay_conn_windows_witness :
  rc_upstreamBytes ex_conn_sent = sum_len (rc_queue ex_conn_sent)
  /\ rc_upstreamBytes ex_conn_sent <= rc_sendWindow ex_conn_sent
  /\ zlen (rc_queue ex_conn_sent) <= 256 /\ Len (rc_downstream ex_conn_sent) <= Z.max 1 4
  /\ 0 <= rc_released ex_conn_sent <= 1.
Proof.
  apply (relay_conn_windows "c_1" "dev" 4 8 (30 * Second) 0 ex_conn_sent (mkHistory [x01; x02; x03] [] []));
    [reflexivity|apply ex_sent_steps].
Defined.


Lemma relay_conn_no_panic_witness :
  (exists c' n q err, Enqueue ex_conn_sent 2 [x04] = Ok (c', n, q, err) /\ 0 <= n <= 1)
  /\ (exists c' out eos err, Recv ex_conn_sent 2 10 = Ok (c', out, eos, err))
  /\ (rc_reader ex_conn_sent = true -> in_own_close ex_conn_sent = false ->
      exists c', readLoop_turn ex_conn_sent 2 [x05] ReadOK = Ok c').
Proof.
  apply (relay_conn_no_panic "c_1" "dev" 4 8 (30 * Second) 0 ex_conn_sent (mkHistory [x01; x02; x03] [] []) 2 [x04] 10);
    [reflexivity|apply ex_sent_steps].
Defined.

(** Five bytes for a receive window of four. *)
Definition ex_conn_overflow : relayConn :=
  match readLoop_turn ex_conn 1 [x01; x02; x03; x04; x05] ReadOK with Ok c => c | _ => ex_conn end.

Lemma overflow_close_never_finishes_witness :
  rc_once ex_conn_overflow = OnceRunning true /\ rc_reader ex_conn_overflow = true
  /\ rc_released ex_conn_overflow = 0.
Proof.
  apply (overflow_close_never_finishes ex_conn no_history 1 [x01; x02; x03; x04; x05] ex_conn_overflow
           (ex_conn_overflow, no_history)); first [reflexivity | apply steps_refl].
Defined.
