(* ===== verification/RelayManager.v ===== *)
(** * The relay manager ([internal/relay/manager.go])

    The manager ties the connections to the limits manager, the idle-timeout store and the
    metrics. A step is one method; [Open] is two, since other requests run while it dials, and
    the goroutines of a connection run through [reader_turn] and [writer_turn]. The outcome of
    the dial and the random connection id are arguments. A method that waits for a close that
    never finishes does not return: its result is [None]. *)

From stdpp Require Import gmultiset.
From S2P Require Import Prelude GoString Limits Wheel Store Metrics RingBuffer RelayConn.

Definition ErrUnknownConn : goerr := ESentinel "unknown conn_id".
Definition ErrForbidden : goerr := ESentinel "client is not owner of conn_id".
Definition ErrBadRequest : goerr := ESentinel "bad relay request".

Record OpenRequest := mkOpenRequest { Proto : string; DstHost : string; DstPort : Z }.
Record OpenResponse := mkOpenResponse {
  or_ConnID : string; or_ExpiresInMS : Z; or_RecvWindow : Z; or_SendWindow : Z }.
Record SendResponse := mkSendResponse { Accepted : Z; Queued : Z }.
Record PingResponse := mkPingResponse { pr_OK : bool; pr_ExpiresInMS : Z }.

Record ManagerConfig := mkManagerConfig {
  DialTimeout : Z; IdleTimeout : Z; RecvWindow : Z; SendWindow : Z }.

(** An expiry callback closes the connection it names for its owner. [mg_stuck] says that the
    wheel's goroutine waits in a callback that never returns. *)
Definition expiry : Type := string * string.

Record RelayManager := mkRelayManager {
  mg_cfg : ManagerConfig; mg_limits : Limits.Manager; mg_metrics : Metrics;
  mg_store : RelayStore expiry; mg_stuck : bool; mg_conns : gmap string relayConn }.

Definition NewRelayManager (c : ManagerConfig) (lim : Limits.Manager) (m : Metrics) : RelayManager :=
  mkRelayManager c lim m (NewRelayStore (NewWheel Second 256)) false ∅.

Definition set_limits (m : RelayManager) (l : Limits.Manager) : RelayManager :=
  mkRelayManager (mg_cfg m) l (mg_metrics m) (mg_store m) (mg_stuck m) (mg_conns m).
Definition set_metrics (m : RelayManager) (mt : Metrics) : RelayManager :=
  mkRelayManager (mg_cfg m) (mg_limits m) mt (mg_store m) (mg_stuck m) (mg_conns m).
Definition set_store (m : RelayManager) (s : RelayStore expiry) : RelayManager :=
  mkRelayManager (mg_cfg m) (mg_limits m) (mg_metrics m) s (mg_stuck m) (mg_conns m).
Definition set_stuck (m : RelayManager) : RelayManager :=
  mkRelayManager (mg_cfg m) (mg_limits m) (mg_metrics m) (mg_store m) true (mg_conns m).
Definition set_conn_map (m : RelayManager) (c : gmap string relayConn) : RelayManager :=
  mkRelayManager (mg_cfg m) (mg_limits m) (mg_metrics m) (mg_store m) (mg_stuck m) c.

Definition ms_of (now : Z) : Z := now / Millisecond.

(** [Open] up to the dial: the request is checked and a connection reserved. *)
Definition open_begin (m : RelayManager) (clientID : string) (req : OpenRequest)
  : RelayManager * option goerr :=
  if negb (String.eqb (Proto req) "tcp") then (m, Some (EWrap "unsupported proto" ErrBadRequest))
  else if String.eqb (DstHost req) "" || (DstPort req <=? 0) || (65535 <? DstPort req)
  then (m, Some (EWrap "dst_host and valid dst_port are required" ErrBadRequest))
  else let '(l, err) := ReserveRelayConn (mg_limits m) clientID in (set_limits m l, err).

Definition open_addr (req : OpenRequest) : string :=
  string_of_bytes (JoinHostPort (bytes_of_string (DstHost req)) (FormatInt (DstPort req))).

(** [Open] after the dial: [dial] is the error of the dial, [connID] the new id. *)
Definition open_finish (m : RelayManager) (now : Z) (clientID : string) (dial : option goerr)
    (connID : res string) : RelayManager * res OpenResponse :=
  match dial with
  | Some err =>
      let m := set_limits m (ReleaseRelayConn (mg_limits m) clientID) in
      let m := set_metrics m (metric_inc (mg_metrics m) (OpenFailures "relay" "tcp_dial")) in
      (m, Err (EWrap "dial target" err))
  | None =>
      match connID with
      | Err err => (set_limits m (ReleaseRelayConn (mg_limits m) clientID), Err err)
      | Panic s => (m, Panic s)
      | Ok connID =>
          let c := mg_cfg m in
          let conn := newRelayConn connID clientID (RecvWindow c) (SendWindow c) (IdleTimeout c) (ms_of now) in
          let st := mkRelayState connID clientID now now in
          let m := set_store m (RelayStore_Add (mg_store m) st (IdleTimeout c) (Some (connID, clientID))) in
          let m := set_conn_map m (<[connID := Start conn]> (mg_conns m)) in
          let m := set_metrics m (metric_inc (mg_metrics m) ActiveRelayConns) in
          (m, Ok (mkOpenResponse connID (Z.quot (IdleTimeout c) Millisecond) (RecvWindow c) (SendWindow c)))
      end
  end.

(** [Open] without anything in between; [dial] answers for each address. *)
Definition Manager_Open (m : RelayManager) (now : Z) (clientID : string) (req : OpenRequest)
    (dial : string -> option goerr) (connID : res string) : RelayManager * res OpenResponse :=
  let '(m, err) := open_begin m clientID req in
  match err with
  | Some e => (m, Err e)
  | None => open_finish m now clientID (dial (open_addr req)) connID
  end.

Definition newConnID (random : option (list byte)) : res string :=
  match random with
  | None => Err (EWrap "generate conn id" (EExt "rand"))
  | Some raw => Ok ("c_" ++ string_of_bytes (hex_encode raw))%string
  end.

Definition getOwnedConn (m : RelayManager) (clientID connID : string) : res relayConn :=
  match mg_conns m !! connID with
  | None => Err ErrUnknownConn
  | Some conn => if String.eqb (rc_clientID conn) clientID then Ok conn else Err ErrForbidden
  end.

Definition Manager_touch (m : RelayManager) (now : Z) (connID : string) : RelayManager :=
  set_store m (RelayStore_Touch (mg_store m) now connID (IdleTimeout (mg_cfg m))).1.

Definition Manager_Send (m : RelayManager) (now : Z) (clientID connID : string) (payload : list byte)
  : RelayManager * res SendResponse :=
  match getOwnedConn m clientID connID with
  | Err e => (m, Err e)
  | Panic s => (m, Panic s)
  | Ok conn =>
      let '(l, err) := AllowRelayBytes (mg_limits m) now clientID (zlen payload) in
      let m := set_limits m l in
      match err with
      | Some e => (m, Err e)
      | None =>
          match Enqueue conn (ms_of now) payload with
          | Err e => (m, Err e)
          | Panic s => (m, Panic s)
          | Ok (conn, accepted, queued, err) =>
              let m := set_conn_map m (<[connID := conn]> (mg_conns m)) in
              match err with
              | Some e => (m, Err e)
              | None =>
                  let m := if 0 <? accepted then
                             Manager_touch (set_metrics m (metric_add (mg_metrics m) (BytesIn "relay") accepted))
                               now connID
                           else m in
                  (m, Ok (mkSendResponse accepted queued))
              end
          end
      end
  end.

(** The callback of a connection that has closed. *)
Definition onConnClosed (m : RelayManager) (connID clientID : string) : RelayManager :=
  match mg_conns m !! connID with
  | None => m
  | Some _ =>
      let m := set_conn_map m (delete connID (mg_conns m)) in
      let m := set_store m (RelayStore_Delete (mg_store m) connID).1 in
      let m := set_limits m (ReleaseRelayConn (mg_limits m) clientID) in
      set_metrics m (metric_dec (mg_metrics m) ActiveRelayConns)
  end.

(** [relayConn.Close] run to its end by another caller: both loops leave, then the callback
    runs. When the reader is inside its own [Close] the caller waits forever. *)
Definition conn_Close (c : relayConn) : option relayConn :=
  match rc_once c with
  | OnceFresh =>
      let c := close_enter c false in
      let c := set_loops c false false (rc_written c) in
      Some (close_finish c)
  | OnceRunning _ => None
  | OnceDone => Some c
  end.

Definition Manager_Close (m : RelayManager) (connID clientID : string) : option (RelayManager * bool) :=
  match getOwnedConn m clientID connID with
  | Ok conn =>
      match conn_Close conn with
      | None => None
      | Some _ =>
          let m := match rc_once conn with
                   | OnceFresh => onConnClosed m (rc_id conn) (rc_clientID conn)
                   | _ => m
                   end in
          Some (m, true)
      end
  | _ => Some (m, false)
  end.

Definition Manager_Recv (m : RelayManager) (now : Z) (clientID connID : string) (max : Z)
  : option (RelayManager * res (list byte * bool)) :=
  match getOwnedConn m clientID connID with
  | Err e => Some (m, Err e)
  | Panic s => Some (m, Panic s)
  | Ok conn =>
      let max := if max <=? 0 then 32768 else max in
      let max := if RecvWindow (mg_cfg m) <? max then RecvWindow (mg_cfg m) else max in
      match Recv conn (ms_of now) max with
      | Err e => Some (m, Err e)
      | Panic s => Some (m, Panic s)
      | Ok (conn, data, eos, err) =>
          let m := set_conn_map m (<[connID := conn]> (mg_conns m)) in
          match err with
          | Some e => Some (m, Err e)
          | None =>
              let m := if 0 <? zlen data then
                         Manager_touch (set_metrics m (metric_add (mg_metrics m) (BytesOut "relay") (zlen data)))
                           now connID
                       else m in
              if eos && (zlen data =? 0) then
                match Manager_Close m connID clientID with
                | None => None
                | Some (m, _) => Some (m, Ok (data, eos))
                end
              else Some (m, Ok (data, eos))
          end
      end
  end.

Definition Manager_Ping (m : RelayManager) (now : Z) (clientID connID : string)
  : RelayManager * res PingResponse :=
  match getOwnedConn m clientID connID with
  | Err e => (m, Err e)
  | Panic s => (m, Panic s)
  | Ok conn =>
      let conn := Ping conn (ms_of now) in
      let m := set_conn_map m (<[connID := conn]> (mg_conns m)) in
      (Manager_touch m now connID, Ok (mkPingResponse true (ExpiresInMS conn now)))
  end.

(** The expiry callbacks of one tick, in order; a callback that blocks stops the wheel. *)
Fixpoint run_expiries (m : RelayManager) (fired : list (wheelEntry expiry)) : RelayManager :=
  match fired with
  | [] => m
  | e :: fired =>
      match we_callback e with
      | None => run_expiries m fired
      | Some (connID, clientID) =>
          match Manager_Close m connID clientID with
          | None => set_stuck m
          | Some (m, _) => run_expiries m fired
          end
      end
  end.

Definition Manager_tick (m : RelayManager) : RelayManager :=
  if mg_stuck m then m
  else let '(s, fired) := RelayStore_tick (mg_store m) in run_expiries (set_store m s) fired.

(** [Shutdown]: closes every connection listed at its start. *)
Fixpoint close_all (m : RelayManager) (l : list (string * string)) : option RelayManager :=
  match l with
  | [] => Some m
  | (id, client) :: l =>
      match Manager_Close m id client with None => None | Some (m, _) => close_all m l end
  end.
Definition Manager_Shutdown (m : RelayManager) : option RelayManager :=
  close_all m (map (fun kv => (kv.1, rc_clientID kv.2)) (map_to_list (mg_conns m))).

(** A turn of a connection's goroutines. *)
Definition reader_turn (m : RelayManager) (now : Z) (connID : string) (buf : list byte) (e : read_end)
  : res RelayManager :=
  match mg_conns m !! connID with
  | None => Ok m
  | Some conn =>
      if rc_reader conn && negb (in_own_close conn)
      then conn ← readLoop_turn conn (ms_of now) buf e; Ok (set_conn_map m (<[connID := conn]> (mg_conns m)))
      else Ok m
  end.
Definition writer_turn (m : RelayManager) (now : Z) (connID : string) (ev : write_event) : RelayManager :=
  match mg_conns m !! connID with
  | None => m
  | Some conn =>
      if rc_writer conn then
        match writeLoop_turn conn (ms_of now) ev with
        | None => m
        | Some conn => set_conn_map m (<[connID := conn]> (mg_conns m))
        end
      else m
  end.

(** ** The invariant *)

(** The owners of the live connections. *)
Definition owners (conns : gmap string relayConn) : gmultiset string :=
  list_to_set_disj (rc_clientID <$> (map_to_list conns).*2).

(** [pending] are the clients whose [Open] is between its reservation and its end. *)
Record mgr_inv (lc : Limits.Config) (m : RelayManager) (pending : gmultiset string) : Prop := {
  mi_limits : conns_reach lc (mg_limits m) (pending ⊎ owners (mg_conns m));
  mi_conn : forall id c, mg_conns m !! id = Some c ->
    rc_id c = id /\ (exists f h, conn_inv c f h) /\ (rc_once c = OnceFresh \/ rc_once c = OnceRunning true);
  mi_store : relay_store_inv (mg_store m);
  mi_same : forall id, ClientID <$> (rs_byID (mg_store m) !! id) = rc_clientID <$> (mg_conns m !! id);
  mi_gauge : mt_value (mg_metrics m) ActiveRelayConns = Z.of_nat (size (mg_conns m));
  mi_window : SendWindow (mg_cfg m) < 2 ^ 62 }.

(** Everything that happens to a manager. *)
Inductive mgr_reach (lc : Limits.Config) (mc : ManagerConfig) : RelayManager -> gmultiset string -> Prop :=
| mr_new mt : mt_value mt ActiveRelayConns = 0 ->
    mgr_reach lc mc (NewRelayManager mc (NewManager lc) mt) ∅
| mr_open_begin m p clientID req m' :
    mgr_reach lc mc m p -> open_begin m clientID req = (m', None) -> mgr_reach lc mc m' ({[+ clientID +]} ⊎ p)
| mr_open_refused m p clientID req m' e :
    mgr_reach lc mc m p -> open_begin m clientID req = (m', Some e) -> mgr_reach lc mc m' p
| mr_open_finish m p now clientID dial connID :
    mgr_reach lc mc m p -> clientID ∈ p -> is_panic connID = false ->
    (forall id, connID = Ok id -> mg_conns m !! id = None) ->
    mgr_reach lc mc (open_finish m now clientID dial connID).1 (p ∖ {[+ clientID +]})
| mr_send m p now clientID connID payload :
    mgr_reach lc mc m p -> mgr_reach lc mc (Manager_Send m now clientID connID payload).1 p
| mr_recv m p now clientID connID max m' r :
    mgr_reach lc mc m p -> Manager_Recv m now clientID connID max = Some (m', r) -> mgr_reach lc mc m' p
| mr_ping m p now clientID connID :
    mgr_reach lc mc m p -> mgr_reach lc mc (Manager_Ping m now clientID connID).1 p
| mr_close m p connID clientID m' b :
    mgr_reach lc mc m p -> Manager_Close m connID clientID = Some (m', b) -> mgr_reach lc mc m' p
| mr_tick m p : mgr_reach lc mc m p -> mgr_reach lc mc (Manager_tick m) p
| mr_shutdown m p m' : mgr_reach lc mc m p -> Manager_Shutdown m = Some m' -> mgr_reach lc mc m' p
| mr_reader m p now connID buf e m' :
    mgr_reach lc mc m p -> reader_turn m now connID buf e = Ok m' -> mgr_reach lc mc m' p
| mr_writer m p now connID ev : mgr_reach lc mc m p -> mgr_reach lc mc (writer_turn m now connID ev) p
| mr_session m p l : mgr_reach lc mc m p -> conns_reach lc l (p ⊎ owners (mg_conns m)) ->
    mgr_reach lc mc (set_limits m l) p.

(** ** Lemmas *)

Lemma owners_empty : owners ∅ = ∅.
Proof. unfold owners. by rewrite map_to_list_empty. Qed.

Lemma owners_insert conns id c :
  conns !! id = None -> owners (<[id := c]> conns) = {[+ rc_clientID c +]} ⊎ owners conns.
Proof.
  intros H. unfold owners.
  rewrite (list_to_set_disj_perm _ (rc_clientID <$> ((id, c) :: map_to_list conns).*2)); [done|].
  by rewrite map_to_list_insert.
Qed.

Lemma owners_delete conns id c :
  conns !! id = Some c -> owners conns = {[+ rc_clientID c +]} ⊎ owners (delete id conns).
Proof.
  intros H. rewrite <- (insert_delete_id conns id c H) at 1. apply owners_insert, lookup_delete_eq.
Qed.

(** Replacing a connection by one of the same owner. *)
Lemma owners_update conns id c c' :
  conns !! id = Some c -> rc_clientID c' = rc_clientID c -> owners (<[id := c']> conns) = owners conns.
Proof.
  intros H He. rewrite (owners_delete conns id c H).
  rewrite <- insert_delete_eq, owners_insert by apply lookup_delete_eq. by rewrite He.
Qed.

(** Moving one element between two multisets. *)
Lemma union_first (c : string) (p o : gmultiset string) : {[+ c +]} ⊎ p ⊎ o = {[+ c +]} ⊎ (p ⊎ o).
Proof. multiset_solver. Qed.
Lemma take_one (c : string) (p o : gmultiset string) :
  c ∈ p -> (p ∖ {[+ c +]}) ⊎ o = (p ⊎ o) ∖ {[+ c +]}.
Proof. intros. multiset_solver. Qed.
Lemma put_back (c : string) (p o : gmultiset string) :
  c ∈ p -> (p ∖ {[+ c +]}) ⊎ ({[+ c +]} ⊎ o) = p ⊎ o.
Proof. intros. multiset_solver. Qed.
Lemma remove_owner (c : string) (p o : gmultiset string) :
  (p ⊎ ({[+ c +]} ⊎ o)) ∖ {[+ c +]} = p ⊎ o.
Proof. multiset_solver. Qed.

Lemma getOwnedConn_Ok m clientID connID conn :
  getOwnedConn m clientID connID = Ok conn -> mg_conns m !! connID = Some conn /\ rc_clientID conn = clientID.
Proof.
  unfold getOwnedConn. destruct (mg_conns m !! connID); [|done].
  destruct (String.eqb _ _) eqn:E; [|done]. intros [= ->]. split; [done|]. by apply String.eqb_eq.
Qed.

Lemma touch_same m now connID :
  mg_limits (Manager_touch m now connID) = mg_limits m /\ mg_conns (Manager_touch m now connID) = mg_conns m
  /\ mg_metrics (Manager_touch m now connID) = mg_metrics m /\ mg_cfg (Manager_touch m now connID) = mg_cfg m.
Proof. done. Qed.

Lemma Touch_clients (s : RelayStore expiry) now connID ttl id :
  ClientID <$> (rs_byID (RelayStore_Touch s now connID ttl).1 !! id) = ClientID <$> (rs_byID s !! id).
Proof.
  unfold RelayStore_Touch. destruct (rs_byID s !! connID) as [st|] eqn:E; [|done].
  destruct (Touch _ _ _) as [w ok]. cbn [fst rs_byID].
  destruct (decide (id = connID)) as [->|Hd]; [by rewrite lookup_insert_eq, E|by rewrite lookup_insert_ne].
Qed.

Lemma mgr_inv_touch lc m p now connID : mgr_inv lc m p -> mgr_inv lc (Manager_touch m now connID) p.
Proof.
  intros []. split; try done; cbn [Manager_touch set_store mg_store mg_conns].
  - by apply RelayStore_Touch_inv.
  - intros id. by rewrite Touch_clients.
Qed.

(** A call on a connection that keeps its identity keeps the manager's invariant. *)
Lemma mgr_inv_conn lc m p id c c' f h :
  mgr_inv lc m p -> mg_conns m !! id = Some c -> conn_inv c' f h ->
  rc_id c' = rc_id c -> rc_clientID c' = rc_clientID c ->
  (rc_once c' = OnceFresh \/ rc_once c' = OnceRunning true) ->
  mgr_inv lc (set_conn_map m (<[id := c']> (mg_conns m))) p.
Proof.
  intros [Hl Hc Hs Hsame Hg Hw] Hid Hinv Hrid Hcl Ho.
  split; try done; cbn [set_conn_map mg_limits mg_conns mg_store mg_metrics].
  - by rewrite (owners_update _ _ _ _ Hid Hcl).
  - intros id' c'' H. apply lookup_insert_Some in H as [[<- <-]|[_ H]]; [|by apply Hc].
    split_and!; [|eauto|done]. rewrite Hrid. by apply Hc.
  - intros id'. rewrite Hsame. destruct (decide (id' = id)) as [->|Hd].
    + rewrite lookup_insert_eq, Hid. simpl. by rewrite Hcl.
    + by rewrite lookup_insert_ne.
  - rewrite Hg. f_equal. rewrite map_size_insert_Some by eauto. done.
Qed.

(** The calls keep a connection's identity and do not enter [Close]. *)
Definition same_conn (c c' : relayConn) : Prop :=
  rc_id c' = rc_id c /\ rc_clientID c' = rc_clientID c /\ rc_once c' = rc_once c.

Lemma enqueue_loop_same fuel : forall c data off acc c' n,
  enqueue_loop fuel c data off acc = Ok (c', n) -> same_conn c c'.
Proof.
  induction fuel as [|fuel IH]; intros c data off acc c' n H; cbn [enqueue_loop] in H; [by simplify_eq|].
  unfold slice in H. repeat case_in H; cbn [mbind res_bind] in H; simplify_eq; try done;
    repeat case_in H; simplify_eq; try done; apply IH in H; done.
Qed.

Lemma Enqueue_same c now data c' n q e : Enqueue c now data = Ok (c', n, q, e) -> same_conn c c'.
Proof.
  unfold Enqueue. intros H. repeat case_in H; simplify_eq; try done.
  destruct (enqueue_loop _ c data 0 0) as [[c1 n1]| |] eqn:E; cbn [mbind res_bind] in H; simplify_eq.
  apply enqueue_loop_same in E. repeat case_in H; simplify_eq; done.
Qed.

Lemma Recv_same c now max c' data eos e : Recv c now max = Ok (c', data, eos, e) -> same_conn c c'.
Proof.
  unfold Recv. intros H. destruct (rc_closed c); simplify_eq; [done|].
  destruct (Read (rc_downstream c) max) as [[[d out] eo]| |]; cbn [mbind res_bind] in H; simplify_eq.
  by destruct (0 <? zlen data).
Qed.

Lemma MarkEOS_same c : same_conn c (MarkEOS c).
Proof. unfold MarkEOS. by destruct (rc_eos c). Qed.

Lemma writeLoop_same c now ev c' : writeLoop_turn c now ev = Some c' -> same_conn c c'.
Proof.
  assert (HM : forall q b, same_conn c (MarkEOS (set_queue c q b))).
  { intros q b. destruct (MarkEOS_same (set_queue c q b)) as (? & ? & ?). by split_and!. }
  unfold writeLoop_turn. intros H. repeat case_in H; simplify_eq; try done; apply HM.
Qed.

Lemma readLoop_same c now buf e c' :
  readLoop_turn c now buf e = Ok c' ->
  rc_id c' = rc_id c /\ rc_clientID c' = rc_clientID c /\
  (rc_once c' = rc_once c \/ rc_once c' = OnceRunning true).
Proof.
  unfold readLoop_turn. intros H. destruct (rc_closed c); [simplify_eq; by split_and!; auto|].
  assert (Hend : forall c1, same_conn c c1 ->
    match e with ReadOK | ReadTimeout => Ok c1
    | ReadEOF | ReadFail => Ok (set_loops (MarkEOS c1) false (rc_writer (MarkEOS c1)) (rc_written (MarkEOS c1)))
    end = Ok c' -> rc_id c' = rc_id c /\ rc_clientID c' = rc_clientID c /\
    (rc_once c' = rc_once c \/ rc_once c' = OnceRunning true)).
  { intros c1 (H1 & H2 & H3) Heq. destruct (MarkEOS_same c1) as (M1 & M2 & M3).
    destruct e; simplify_eq; cbn [set_loops rc_id rc_clientID rc_once]; split_and!; try congruence; left; congruence. }
  destruct (0 <? zlen buf).
  - cbn [touch rc_downstream] in H. destruct (Write (rc_downstream c) buf) as [[[d n] ov]| |]; [|done..].
    cbn [mbind res_bind] in H. destruct ov; [|by eapply Hend in H].
    cbn [set_downstream touch rc_once] in H. destruct (rc_once c) eqn:Eo; simplify_eq; cbn; auto.
  - cbn [mbind res_bind] in H. by eapply Hend in H.
Qed.

(** The manager's steps keep its invariant. *)

Lemma mgr_inv_limits lc m p l :
  mgr_inv lc m p -> conns_reach lc l (p ⊎ owners (mg_conns m)) -> mgr_inv lc (set_limits m l) p.
Proof. intros [] H. by split. Qed.

Lemma mgr_inv_metrics lc m p mt :
  mgr_inv lc m p -> mt_value mt ActiveRelayConns = mt_value (mg_metrics m) ActiveRelayConns ->
  mgr_inv lc (set_metrics m mt) p.
Proof. intros [] H. split; try done. cbn. congruence. Qed.

Lemma open_begin_inv lc m p clientID req m' e :
  mgr_inv lc m p -> open_begin m clientID req = (m', e) ->
  mgr_inv lc m' (match e with None => {[+ clientID +]} ⊎ p | Some _ => p end).
Proof.
  intros Hinv. unfold open_begin. destruct (negb _); [by intros [= <- <-]|].
  destruct (String.eqb _ _ || _ || _); [by intros [= <- <-]|].
  destruct (ReserveRelayConn (mg_limits m) clientID) as [l err] eqn:E. intros [= <- <-].
  pose proof Hinv as [Hl Hc Hs Hsame Hg Hw]. destruct err as [err|].
  - apply mgr_inv_limits; [done|]. by eapply reach_refused.
  - split; try done. cbn [set_limits mg_limits mg_conns].
    rewrite union_first. by eapply reach_reserve.
Qed.

Lemma release_reach lc l p own clientID :
  conns_reach lc l (p ⊎ own) -> clientID ∈ p ->
  conns_reach lc (ReleaseRelayConn l clientID) ((p ∖ {[+ clientID +]}) ⊎ own).
Proof.
  intros H Hin. rewrite take_one by done. apply reach_release; [done|]. by apply gmultiset_elem_of_disj_union; left.
Qed.

Lemma open_finish_inv lc m p now clientID dial connID :
  mgr_inv lc m p -> clientID ∈ p -> is_panic connID = false ->
  (forall id, connID = Ok id -> mg_conns m !! id = None) ->
  mgr_inv lc (open_finish m now clientID dial connID).1 (p ∖ {[+ clientID +]}).
Proof.
  intros Hinv Hin Hnp Hfresh. pose proof Hinv as [Hl Hc Hs Hsame Hg Hw].
  assert (Hrel : mgr_inv lc (set_limits m (ReleaseRelayConn (mg_limits m) clientID)) (p ∖ {[+ clientID +]})).
  { split; try done. cbn. by apply release_reach. }
  unfold open_finish. destruct dial as [err|].
  { cbn [fst]. apply mgr_inv_metrics; [done|]. by apply metric_add_ne. }
  destruct connID as [id|e|s]; [|done..]. specialize (Hfresh id eq_refl).
  assert (Hnew : rs_byID (mg_store m) !! id = None).
  { specialize (Hsame id). rewrite Hfresh in Hsame. by destruct (rs_byID (mg_store m) !! id). }
  set (conn := Start _). split; cbn [fst set_metrics set_conn_map set_store mg_limits mg_conns mg_store mg_metrics mg_cfg].
  - rewrite owners_insert by done. change (rc_clientID conn) with clientID.
    by rewrite put_back.
  - intros id' c' H. apply lookup_insert_Some in H as [[<- <-]|[_ H]]; [|by apply Hc].
    split_and!; [done| |by left]. eexists _, _. by apply conn_start_inv.
  - apply RelayStore_Add_inv; [done|]. by cbn.
  - intros id'. cbn [RelayStore_Add rs_byID ConnID]. destruct (decide (id' = id)) as [->|Hd].
    + by rewrite !lookup_insert_eq.
    + by rewrite !lookup_insert_ne by done.
  - unfold metric_inc. rewrite metric_add_eq, Hg, map_size_insert_None by done. lia.
  - done.
Qed.

Lemma onConnClosed_inv lc m p id c :
  mgr_inv lc m p -> mg_conns m !! id = Some c -> mgr_inv lc (onConnClosed m id (rc_clientID c)) p.
Proof.
  intros [Hl Hc Hs Hsame Hg Hw] Hid. unfold onConnClosed. rewrite Hid.
  assert (Hst : rs_byID (RelayStore_Delete (mg_store m) id).1 = delete id (rs_byID (mg_store m))).
  { unfold RelayStore_Delete. destruct (rs_byID (mg_store m) !! id) eqn:E; [done|]. by rewrite delete_id. }
  split; cbn [set_metrics set_limits set_store set_conn_map mg_limits mg_conns mg_store mg_metrics mg_cfg].
  - rewrite (owners_delete _ _ _ Hid) in Hl. rewrite <- (remove_owner (rc_clientID c)). apply reach_release; [done|].
    apply gmultiset_elem_of_disj_union. right. apply gmultiset_elem_of_disj_union. left.
    by apply gmultiset_elem_of_singleton.
  - intros id' c' H. apply lookup_delete_Some in H as [_ H]. by apply Hc.
  - by apply RelayStore_Delete_inv.
  - intros id'. rewrite Hst. destruct (decide (id' = id)) as [->|Hd].
    + by rewrite !lookup_delete_eq.
    + by rewrite !lookup_delete_ne.
  - unfold metric_dec. rewrite metric_add_eq, Hg, map_size_delete_Some by eauto.
    assert (size (mg_conns m) <> 0%nat) by (apply (map_size_ne_0_lookup_2 _ id); eauto). lia.
  - done.
Qed.

Lemma Manager_Close_inv lc m p id client m' b :
  mgr_inv lc m p -> Manager_Close m id client = Some (m', b) -> mgr_inv lc m' p.
Proof.
  intros Hinv. unfold Manager_Close. destruct (getOwnedConn m client id) as [c|e|s] eqn:E; [|by intros [= <- <-]..].
  apply getOwnedConn_Ok in E as [Hid Hcl]. destruct (mi_conn _ _ _ Hinv _ _ Hid) as (Hrid & _ & Ho).
  destruct (conn_Close c); [|done]. intros [= <- <-]. destruct (rc_once c); [|done..].
  rewrite Hrid. by apply onConnClosed_inv.
Qed.

Lemma run_expiries_inv lc p fired : forall m, mgr_inv lc m p -> mgr_inv lc (run_expiries m fired) p.
Proof.
  induction fired as [|e fired IH]; intros m Hinv; cbn [run_expiries]; [done|].
  destruct (we_callback e) as [[id cl]|]; [|by apply IH].
  destruct (Manager_Close m id cl) as [[m' b]|] eqn:E; [by eapply IH, Manager_Close_inv|].
  destruct Hinv. by split.
Qed.

Lemma Manager_tick_inv lc m p : mgr_inv lc m p -> mgr_inv lc (Manager_tick m) p.
Proof.
  intros Hinv. unfold Manager_tick. destruct (mg_stuck m); [done|].
  pose proof (RelayStore_tick_inv _ (mi_store _ _ _ Hinv)) as Hs.
  assert (Hby : rs_byID (RelayStore_tick (mg_store m)).1 = rs_byID (mg_store m)).
  { unfold RelayStore_tick. by destruct (tick _). }
  destruct (RelayStore_tick (mg_store m)) as [s fired]. cbn [fst] in *. apply run_expiries_inv.
  destruct Hinv. split; try done. cbn. by rewrite Hby.
Qed.

Lemma close_all_inv lc p l : forall m m', mgr_inv lc m p -> close_all m l = Some m' -> mgr_inv lc m' p.
Proof.
  induction l as [|[id cl] l IH]; intros m m' Hinv; cbn [close_all]; [by intros [= <-]|].
  destruct (Manager_Close m id cl) as [[m1 b]|] eqn:E; [|done]. by eapply IH, Manager_Close_inv.
Qed.

Lemma AllowRelayBytes_reach lc m live now id n l e :
  conns_reach lc m live -> AllowRelayBytes m now id n = (l, e) -> conns_reach lc l live.
Proof. intros H E. pose proof (reach_relay_bytes lc m live now id n H) as H'. by rewrite E in H'. Qed.

Lemma Manager_Send_inv lc m p now client id payload :
  mgr_inv lc m p -> mgr_inv lc (Manager_Send m now client id payload).1 p.
Proof.
  intros Hinv. unfold Manager_Send. destruct (getOwnedConn m client id) as [c|e|s] eqn:E; [|done..].
  apply getOwnedConn_Ok in E as [Hid Hcl].
  destruct (AllowRelayBytes _ _ _ _) as [l [err|]] eqn:El;
    (assert (Hl : mgr_inv lc (set_limits m l) p)
       by (apply mgr_inv_limits; [done|]; eapply AllowRelayBytes_reach; [apply Hinv|exact El])); [done|].
  destruct (mi_conn _ _ _ Hinv _ _ Hid) as (_ & (f & h & Hci) & Ho).
  destruct (Enqueue_inv c f h (ms_of now) payload Hci) as (c' & n & q & err & HE & _ & _ & Hci').
  rewrite HE. apply Enqueue_same in HE as (H1 & H2 & H3).
  assert (Hm : mgr_inv lc (set_conn_map (set_limits m l) (<[id := c']> (mg_conns (set_limits m l)))) p).
  { eapply mgr_inv_conn; try done. by rewrite H3. }
  destruct err as [err|]; [done|]. cbn [fst]. case_on; [|done]. apply mgr_inv_touch, mgr_inv_metrics; [done|].
  by apply metric_add_ne.
Qed.

Lemma Manager_Recv_inv lc m p now client id max m' r :
  mgr_inv lc m p -> Manager_Recv m now client id max = Some (m', r) -> mgr_inv lc m' p.
Proof.
  intros Hinv. unfold Manager_Recv. destruct (getOwnedConn m client id) as [c|e|s] eqn:E;
    [|by intros [= <- <-]..].
  apply getOwnedConn_Ok in E as [Hid Hcl].
  destruct (mi_conn _ _ _ Hinv _ _ Hid) as (_ & (f & h & Hci) & Ho).
  set (mx := if RecvWindow (mg_cfg m) <? _ then _ else _).
  destruct (Recv_inv c f h (ms_of now) mx Hci) as (c' & data & eos & err & f' & HE & Hci' & _).
  rewrite HE. apply Recv_same in HE as (H1 & H2 & H3).
  assert (Hm : mgr_inv lc (set_conn_map m (<[id := c']> (mg_conns m))) p).
  { eapply mgr_inv_conn; try done. by rewrite H3. }
  destruct err as [err|]; [by intros [= <- <-]|].
  set (m1 := if 0 <? zlen data then _ else _).
  assert (Hm1 : mgr_inv lc m1 p).
  { unfold m1. case_on; [|done]. apply mgr_inv_touch, mgr_inv_metrics; [done|]. by apply metric_add_ne. }
  clearbody m1. case_on; [|by intros [= <- <-]].
  destruct (Manager_Close m1 id client) as [[m2 b]|] eqn:Ec; [|done]. intros [= <- <-].
  by eapply Manager_Close_inv.
Qed.

Lemma Manager_Ping_inv lc m p now client id :
  mgr_inv lc m p -> mgr_inv lc (Manager_Ping m now client id).1 p.
Proof.
  intros Hinv. unfold Manager_Ping. destruct (getOwnedConn m client id) as [c|e|s] eqn:E; [|done..].
  apply getOwnedConn_Ok in E as [Hid Hcl].
  destruct (mi_conn _ _ _ Hinv _ _ Hid) as (_ & (f & h & Hci) & Ho). cbn [fst]. apply mgr_inv_touch.
  eapply mgr_inv_conn; [done|exact Hid|by apply Ping_inv|..]; unfold Ping; by destruct (negb (rc_closed c)).
Qed.

Lemma reader_turn_inv lc m p now id buf e m' :
  mgr_inv lc m p -> reader_turn m now id buf e = Ok m' -> mgr_inv lc m' p.
Proof.
  intros Hinv. unfold reader_turn. destruct (mg_conns m !! id) as [c|] eqn:Hid; [|by intros [= <-]].
  destruct (rc_reader c && _) eqn:Er; [|by intros [= <-]]. zbool.
  destruct (mi_conn _ _ _ Hinv _ _ Hid) as (_ & (f & h & Hci) & Ho).
  destruct (readLoop_inv c f h (ms_of now) buf e Hci) as (c' & f' & HE & _ & Hci'); [done|done|].
  rewrite HE. cbn [mbind res_bind]. intros [= <-]. apply readLoop_same in HE as (H1 & H2 & H3).
  eapply mgr_inv_conn; try done. destruct H3 as [Heq|Heq]; rewrite Heq; auto.
Qed.

Lemma writer_turn_inv lc m p now id ev : mgr_inv lc m p -> mgr_inv lc (writer_turn m now id ev) p.
Proof.
  intros Hinv. unfold writer_turn. destruct (mg_conns m !! id) as [c|] eqn:Hid; [|done].
  destruct (rc_writer c) eqn:Ew; [|done]. destruct (writeLoop_turn c (ms_of now) ev) as [c'|] eqn:HW; [|done].
  destruct (mi_conn _ _ _ Hinv _ _ Hid) as (_ & (f & h & Hci) & Ho).
  destruct (writeLoop_inv _ _ _ _ _ _ Hci Ew HW) as (f' & Hci' & _). apply writeLoop_same in HW as (H1 & H2 & H3).
  eapply mgr_inv_conn; try done. by rewrite H3.
Qed.

Lemma mgr_reach_inv lc mc m p :
  SendWindow mc < 2 ^ 62 -> mgr_reach lc mc m p -> mgr_inv lc m p.
Proof.
  intros Hw. induction 1.
  - split; try done.
    + cbn. rewrite owners_empty. apply reach_new.
    + cbn. apply NewRelayStore_inv; [apply NewWheel_inv|done].
  - by eapply (open_begin_inv _ _ _ _ _ _ None).
  - by eapply (open_begin_inv _ _ _ _ _ _ (Some e)).
  - by apply open_finish_inv.
  - by apply Manager_Send_inv.
  - by eapply Manager_Recv_inv.
  - by apply Manager_Ping_inv.
  - by eapply Manager_Close_inv.
  - by apply Manager_tick_inv.
  - by eapply close_all_inv.
  - by eapply reader_turn_inv.
  - by apply writer_turn_inv.
  - by apply mgr_inv_limits.
Qed.

(** The [Close] that runs to its end is a sequence of steps of the connection: entering, the
    two loops leaving, finishing. *)
Lemma conn_Close_steps c h c' :
  rc_once c = OnceFresh -> conn_Close c = Some c' -> conn_steps (c, h) (c', h).
Proof.
  intros Ho Hc. unfold conn_Close in Hc. rewrite Ho in Hc. injection Hc as <-.
  set (c1 := close_enter c false). set (c2 := set_loops c1 false (rc_writer c1) (rc_written c1)).
  set (c3 := set_loops c1 false false (rc_written c1)).
  assert (H1 : conn_steps (c, h) (c1, h)) by (eapply steps_more; [apply steps_refl|by apply st_close]).
  assert (H2 : conn_steps (c, h) (c2, h)).
  { destruct (rc_reader c) eqn:Er.
    - eapply steps_more; [exact H1|].
      pose proof (st_read c1 h 0 [] ReadOK c2 Er eq_refl eq_refl) as Hr. cbn in Hr. rewrite app_nil_r in Hr.
      by destruct h.
    - replace c2 with c1; [done|]. unfold c2, c1, close_enter, set_loops. cbn. by rewrite Er. }
  assert (H3 : conn_steps (c, h) (c3, h)).
  { destruct (rc_writer c) eqn:Ew.
    - eapply steps_more; [exact H2|]. by apply (st_write c2 h 0 WDone c3).
    - replace c3 with c2; [done|]. unfold c3, c2, c1, close_enter, set_loops. cbn. by rewrite Ew. }
  eapply steps_more; [exact H3|]. by eapply st_finish.
Qed.

(** ** Theorems *)


(** a client cannot use or close a connection it does not own, nor learn more about it than
    that it exists: every operation fails and changes nothing. *)
Theorem relay_ownership m now client id c payload max :
  mg_conns m !! id = Some c -> rc_clientID c <> client ->
  Manager_Send m now client id payload = (m, Err ErrForbidden)
  /\ Manager_Recv m now client id max = Some (m, Err ErrForbidden)
  /\ Manager_Ping m now client id = (m, Err ErrForbidden)
  /\ Manager_Close m id client = Some (m, false).
Proof.
  intros Hid Hne. assert (Hg : getOwnedConn m client id = Err ErrForbidden).
  { unfold getOwnedConn. rewrite Hid. by rewrite (proj2 (String.eqb_neq _ _) Hne). }
  unfold Manager_Send, Manager_Recv, Manager_Ping, Manager_Close. by rewrite Hg.
Qed.

(** closing releases. When the owner closes a connection whose reader is not stuck in its
    own close, the call returns, the connection and its idle entry are gone, and exactly one
    reservation and one unit of the gauge are given back. *)
Theorem relay_close_releases lc mc m pending id c :
  SendWindow mc < 2 ^ 62 -> 0 < MaxTotalConns lc < 2 ^ 63 -> mgr_reach lc mc m pending ->
  mg_conns m !! id = Some c -> in_own_close c = false ->
  exists m', Manager_Close m id (rc_clientID c) = Some (m', true)
    /\ mg_conns m' = delete id (mg_conns m) /\ rs_byID (mg_store m') !! id = None
    /\ totalRelayConns (mg_limits m') = totalRelayConns (mg_limits m) - 1
    /\ conn_count (mg_limits m') (rc_clientID c) = conn_count (mg_limits m) (rc_clientID c) - 1
    /\ mt_value (mg_metrics m') ActiveRelayConns = mt_value (mg_metrics m) ActiveRelayConns - 1.
Proof.
  intros Hw Hcap Hreach Hid Ho. apply mgr_reach_inv in Hreach as Hinv; [|done].
  destruct (mi_conn _ _ _ Hinv _ _ Hid) as (Hrid & _ & Honce).
  assert (Hfresh : rc_once c = OnceFresh).
  { destruct Honce as [H|H]; [done|]. unfold in_own_close in Ho. by rewrite H in Ho. }
  exists (onConnClosed m id (rc_clientID c)).
  assert (Hclose : Manager_Close m id (rc_clientID c) = Some (onConnClosed m id (rc_clientID c), true)).
  { unfold Manager_Close, getOwnedConn. rewrite Hid, String.eqb_refl. unfold conn_Close. by rewrite Hfresh, Hrid. }
  pose proof (onConnClosed_inv _ _ _ _ _ Hinv Hid) as Hinv'.
  destruct (conns_reach_inv _ _ _ Hcap (mi_limits _ _ _ Hinv)) as (_ & Hrep & _).
  destruct (conns_reach_inv _ _ _ Hcap (mi_limits _ _ _ Hinv')) as (_ & Hrep' & _).
  assert (Hconns : mg_conns (onConnClosed m id (rc_clientID c)) = delete id (mg_conns m))
    by (unfold onConnClosed; by rewrite Hid).
  rewrite Hconns in Hrep'. rewrite (owners_delete _ _ _ Hid) in Hrep.
  split_and!; try done.
  - pose proof (mi_same _ _ _ Hinv' id) as Hs. rewrite Hconns, lookup_delete_eq in Hs.
    by destruct (rs_byID _ !! id).
  - rewrite (rep_total _ _ Hrep), (rep_total _ _ Hrep'), !gmultiset_size_disj_union, gmultiset_size_singleton. lia.
  - rewrite (rep_conn_count _ _ _ Hrep), (rep_conn_count _ _ _ Hrep'), !multiplicity_disj_union,
      multiplicity_singleton_eq. lia.
  - unfold onConnClosed. rewrite Hid. cbn [set_metrics mg_metrics set_limits set_store set_conn_map].
    unfold metric_dec. rewrite metric_add_eq. lia.
Qed.

(** one overflowed connection stops all idle expiry. When the idle time of a connection whose
    reader waits in its own close runs out, the wheel's goroutine waits with it, and no later
    tick expires anything. *)
Theorem overflow_stops_expiry m s e rest id client c n :
  mg_stuck m = false -> RelayStore_tick (mg_store m) = (s, e :: rest) ->
  we_callback e = Some (id, client) -> mg_conns m !! id = Some c ->
  rc_clientID c = client -> rc_once c = OnceRunning true ->
  Nat.iter (S n) Manager_tick m = set_stuck (set_store m s).
Proof.
  intros Hst Htick Hcb Hid Hcl Ho.
  assert (H1 : Manager_tick m = set_stuck (set_store m s)).
  { unfold Manager_tick. rewrite Hst, Htick. cbn [run_expiries]. rewrite Hcb.
    unfold Manager_Close, getOwnedConn. cbn [set_store mg_conns]. rewrite Hid, Hcl, String.eqb_refl.
    unfold conn_Close. by rewrite Ho. }
  rewrite <- H1. induction n as [|n IH]; [done|].
  change (Nat.iter (S (S n)) Manager_tick m) with (Manager_tick (Nat.iter (S n) Manager_tick m)).
  rewrite IH, H1. done.
Qed.

(** *** Witnesses *)

Definition ex_mgr_cfg : ManagerConfig := mkManagerConfig (5 * Second) (2 * Second) 4 8.
Definition ex_mgr_limits : Limits.Config := Limits.mkConfig 2 4 1000 1000 100.
Definition ex_open_req : OpenRequest := mkOpenRequest "tcp" "example.org" 443.
Definition ex_mgr0 : RelayManager := NewRelayManager ex_mgr_cfg (NewManager ex_mgr_limits) NewMetrics.
Definition ex_mgr1 : RelayManager := (open_begin ex_mgr0 "dev" ex_open_req).1.
Definition ex_mgr2 : RelayManager := (open_finish ex_mgr1 (10 * Second) "dev" None (Ok "c_1")).1.

Lemma ex_mgr1_reach : mgr_reach ex_mgr_limits ex_mgr_cfg ex_mgr1 ({[+ "dev" +]} ⊎ ∅).
Proof. apply (mr_open_begin _ _ ex_mgr0 ∅ "dev" ex_open_req); [by apply mr_new|reflexivity]. Defined.
Lemma ex_mgr2_reach : mgr_reach ex_mgr_limits ex_mgr_cfg ex_mgr2 (({[+ "dev" +]} ⊎ ∅) ∖ {[+ "dev" +]}).
Proof.
  apply mr_open_finish; [apply ex_mgr1_reach| |done|by intros id [= <-]].
  apply gmultiset_elem_of_disj_union. left. by apply gmultiset_elem_of_singleton.
Defined.


Definition ex_open_conn : relayConn := Start (newRelayConn "c_1" "dev" 4 8 (2 * Second) 10000).

Lemma relay_ownership_witness :
  Manager_Send ex_mgr2 0 "eve" "c_1" [x01] = (ex_mgr2, Err ErrForbidden)
  /\ Manager_Recv ex_mgr2 0 "eve" "c_1" 10 = Some (ex_mgr2, Err ErrForbidden)
  /\ Manager_Ping ex_mgr2 0 "eve" "c_1" = (ex_mgr2, Err ErrForbidden)
  /\ Manager_Close ex_mgr2 "c_1" "eve" = Some (ex_mgr2, false).
Proof.
  apply (relay_ownership ex_mgr2 0 "eve" "c_1" ex_open_conn); [vm_compute; reflexivity|discriminate].
Defined.

Lemma relay_close_releases_witness :
  exists m', Manager_Close ex_mgr2 "c_1" "dev" = Some (m', true)
    /\ mg_conns m' = delete "c_1" (mg_conns ex_mgr2) /\ rs_byID (mg_store m') !! "c_1" = None
    /\ totalRelayConns (mg_limits m') = totalRelayConns (mg_limits ex_mgr2) - 1
    /\ conn_count (mg_limits m') "dev" = conn_count (mg_limits ex_mgr2) "dev" - 1
    /\ mt_value (mg_metrics m') ActiveRelayConns = mt_value (mg_metrics ex_mgr2) ActiveRelayConns - 1.
Proof.
  apply (relay_close_releases ex_mgr_limits ex_mgr_cfg ex_mgr2 (({[+ "dev" +]} ⊎ ∅) ∖ {[+ "dev" +]}) "c_1" ex_open_conn);
    [reflexivity|split; reflexivity|apply ex_mgr2_reach|vm_compute; reflexivity|reflexivity].
Defined.

(** The target sends five bytes into a window of four; two seconds later the entry expires. *)
Definition ex_mgr3 : RelayManager :=
  match reader_turn ex_mgr2 (10 * Second) "c_1" [x01; x02; x03; x04; x05] ReadOK with
  | Ok m => Manager_tick m | _ => ex_mgr2 end.

Lemma overflow_stops_expiry_witness :
  Nat.iter 5 Manager_tick ex_mgr3 = set_stuck (set_store ex_mgr3 (RelayStore_tick (mg_store ex_mgr3)).1).
Proof.
  apply (overflow_stops_expiry ex_mgr3 (RelayStore_tick (mg_store ex_mgr3)).1
           (mkEntry (RelayKey "c_1") 2 0 (Some ("c_1", "dev"))) [] "c_1" "dev"
           (default ex_open_conn (mg_conns ex_mgr3 !! "c_1"))); vm_compute; reflexivity.
Defined.
