(* ===== verification/RelayHTTP.v ===== *)
(** * The relay HTTP interface ([internal/relay/http.go])

    The routes and handlers over the manager and the verifier. A handler returns the new server
    state and the response; [None] stands for a handler that never returns. The JSON text of a
    body is left to [encoding/json]: a response carries the value that is encoded, and
    [decode_open] is what the decoder makes of a request body. [pprof] and the Prometheus handler
    are libraries. *)

From S2P Require Import Prelude Wire GoString Crypto Auth Limits Wheel Store Metrics RingBuffer RelayConn RelayManager.

Inductive json_payload :=
| JOpen (r : OpenResponse) | JSend (r : SendResponse) | JPing (r : PingResponse)
| JClosed (closed : bool) | JHealth | JError (msg : string) (err : option goerr).

Inductive http_body := BEmpty | BBytes (b : list byte) | BJson (p : json_payload) | BLibrary (handler : string).

Record http_response := mkResponse {
  hr_status : Z; hr_headers : list (string * string); hr_body : http_body }.

Definition StatusOK : Z := 200.
Definition StatusNoContent : Z := 204.
Definition StatusBadRequest : Z := 400.
Definition StatusUnauthorized : Z := 401.
Definition StatusForbidden : Z := 403.
Definition StatusNotFound : Z := 404.
Definition StatusMethodNotAllowed : Z := 405.
Definition StatusTooManyRequests : Z := 429.
Definition StatusBadGateway : Z := 502.

Definition writeJSON (status : Z) (payload : json_payload) : http_response :=
  mkResponse status [("Content-Type", "application/json")] (BJson payload).
Definition writeJSONError (status : Z) (msg : string) (err : option goerr) : http_response :=
  writeJSON status (JError msg err).
Definition writeStatus (status : Z) : http_response := mkResponse status [] BEmpty.

Definition statusForError (err : goerr) : Z :=
  if err_is err ErrBadRequest then StatusBadRequest
  else if err_is err ErrUnknownConn then StatusNotFound
  else if err_is err ErrForbidden then StatusForbidden
  else if err_is err ErrMaxConnsPerClient || err_is err ErrMaxTotalConns || err_is err ErrMaxBytesPerMinute
  then StatusTooManyRequests
  else StatusBadGateway.

Section RelayServer.
  Context {P : Type} `{SecretProvider P}.
  Variable decode_open : list byte -> res OpenRequest.

Record RelayServer := mkRelayServer { sv_manager : RelayManager; sv_verifier : Verifier P }.

(** What a request meets outside the program: the time, the outcome of a dial per address and the
    random bytes of the new connection id. *)
Record surroundings := mkSurroundings {
  at_now : Z; at_dial : string -> option goerr; at_random : option (list byte) }.

Definition handled : Type := option (RelayServer * http_response).
Definition with_manager (s : RelayServer) (m : RelayManager) : RelayServer := mkRelayServer m (sv_verifier s).

Definition handleOpen (s : RelayServer) (at_ : surroundings) (clientID : string) (r : http_request)
    (body : list byte) : handled :=
  if negb (String.eqb (rq_method r) "POST") then Some (s, writeStatus StatusMethodNotAllowed)
  else match decode_open body with
  | Ok req =>
      let '(m, resp) := Manager_Open (sv_manager s) (at_now at_) clientID req (at_dial at_)
                          (newConnID (at_random at_)) in
      let s := with_manager s m in
      match resp with
      | Ok resp => Some (s, writeJSON StatusOK (JOpen resp))
      | Err e => Some (s, writeJSONError (statusForError e) "open failed" (Some e))
      | Panic _ => None
      end
  | Err e => Some (s, writeJSONError StatusBadRequest "invalid JSON" (Some e))
  | Panic _ => None
  end.

Definition query_conn_id (r : http_request) : string := TrimSpace (rq_query r "conn_id").

Definition handleSend (s : RelayServer) (at_ : surroundings) (clientID : string) (r : http_request)
    (body : list byte) : handled :=
  if negb (String.eqb (rq_method r) "POST") then Some (s, writeStatus StatusMethodNotAllowed)
  else
    let connID := query_conn_id r in
    if String.eqb connID "" then Some (s, writeJSONError StatusBadRequest "missing conn_id" None)
    else
      let '(m, resp) := Manager_Send (sv_manager s) (at_now at_) clientID connID body in
      let s := with_manager s m in
      match resp with
      | Ok resp => Some (s, writeJSON StatusOK (JSend resp))
      | Err e => Some (s, writeJSONError (statusForError e) "send failed" (Some e))
      | Panic _ => None
      end.

(** The [max] parameter of [handleRecv]. *)
Definition query_max (r : http_request) : res Z :=
  let raw := TrimSpace (rq_query r "max") in
  if String.eqb raw "" then Ok 32768 else Atoi raw.

Definition handleRecv (s : RelayServer) (at_ : surroundings) (clientID : string) (r : http_request)
    (body : list byte) : handled :=
  if negb (String.eqb (rq_method r) "GET") then Some (s, writeStatus StatusMethodNotAllowed)
  else
    let connID := query_conn_id r in
    if String.eqb connID "" then Some (s, writeJSONError StatusBadRequest "missing conn_id" None)
    else match query_max r with
    | Err e => Some (s, writeJSONError StatusBadRequest "invalid max" (Some e))
    | Panic _ => None
    | Ok max =>
        match Manager_Recv (sv_manager s) (at_now at_) clientID connID max with
        | None => None
        | Some (m, resp) =>
            let s := with_manager s m in
            match resp with
            | Err e => Some (s, writeJSONError (statusForError e) "recv failed" (Some e))
            | Panic _ => None
            | Ok (data, eos) =>
                if (zlen data =? 0) && negb eos then Some (s, writeStatus StatusNoContent)
                else
                  let headers := [("Content-Type", "application/octet-stream");
                                  ("X-VLF-Bytes", string_of_bytes (FormatInt (zlen data)));
                                  ("X-VLF-EOS", if eos then "1" else "0")] in
                  Some (s, mkResponse StatusOK headers (if 0 <? zlen data then BBytes data else BEmpty))
            end
        end
    end.

Definition handlePing (s : RelayServer) (at_ : surroundings) (clientID : string) (r : http_request)
    (body : list byte) : handled :=
  if negb (String.eqb (rq_method r) "POST") then Some (s, writeStatus StatusMethodNotAllowed)
  else
    let connID := query_conn_id r in
    if String.eqb connID "" then Some (s, writeJSONError StatusBadRequest "missing conn_id" None)
    else
      let '(m, resp) := Manager_Ping (sv_manager s) (at_now at_) clientID connID in
      let s := with_manager s m in
      match resp with
      | Ok resp => Some (s, writeJSON StatusOK (JPing resp))
      | Err e => Some (s, writeJSONError (statusForError e) "ping failed" (Some e))
      | Panic _ => None
      end.

Definition handleClose (s : RelayServer) (at_ : surroundings) (clientID : string) (r : http_request)
    (body : list byte) : handled :=
  if negb (String.eqb (rq_method r) "POST") then Some (s, writeStatus StatusMethodNotAllowed)
  else
    let connID := query_conn_id r in
    if String.eqb connID "" then Some (s, writeJSONError StatusBadRequest "missing conn_id" None)
    else match Manager_Close (sv_manager s) connID clientID with
    | None => None
    | Some (m, closed) => Some (with_manager s m, writeJSON StatusOK (JClosed closed))
    end.

Definition handler : Type := RelayServer -> surroundings -> string -> http_request -> list byte -> handled.

(** [body] is the result of reading the request body. *)
Definition withAuth (next : handler) (s : RelayServer) (at_ : surroundings) (r : http_request)
    (body : res (list byte)) : handled :=
  match body with
  | Err e => Some (s, writeJSONError StatusBadRequest "read body" (Some e))
  | Panic _ => None
  | Ok body =>
      let '(v, res) := VerifyHTTP (sv_verifier s) (at_now at_) r body in
      let s := mkRelayServer (sv_manager s) v in
      match res with
      | Err e => Some (s, writeJSONError StatusUnauthorized "auth failed" (Some e))
      | Panic _ => None
      | Ok clientID => next s at_ clientID r body
      end
  end.

(** The routes of the multiplexer. *)
Definition routes (s : RelayServer) (at_ : surroundings) (r : http_request) (body : res (list byte))
  : handled :=
  let path := rq_path r in
  if String.eqb path "/metrics" then Some (s, mkResponse StatusOK [] (BLibrary "metrics"))
  else if String.eqb path "/healthz" then Some (s, writeJSON StatusOK JHealth)
  else if HasPrefix path "/debug/pprof/" then Some (s, mkResponse StatusOK [] (BLibrary "pprof"))
  else if String.eqb path "/v1/relay/open" then withAuth handleOpen s at_ r body
  else if String.eqb path "/v1/relay/send" then withAuth handleSend s at_ r body
  else if String.eqb path "/v1/relay/recv" then withAuth handleRecv s at_ r body
  else if String.eqb path "/v1/relay/ping" then withAuth handlePing s at_ r body
  else if String.eqb path "/v1/relay/close" then withAuth handleClose s at_ r body
  else Some (s, writeStatus StatusNotFound).

Definition newRequestID (random : option (list byte)) : string :=
  match random with
  | None => "req_fallback"
  | Some raw => ("req_" ++ string_of_bytes (hex_encode raw))%string
  end.

Definition withRequestID (s : RelayServer) (at_ : surroundings) (random : option (list byte))
    (r : http_request) (body : res (list byte)) : handled :=
  let reqID := TrimSpace (rq_header r "X-Request-ID") in
  let reqID := if String.eqb reqID "" then newRequestID random else reqID in
  match routes s at_ r body with
  | None => None
  | Some (s, resp) =>
      Some (s, mkResponse (hr_status resp) (("X-Request-ID", reqID) :: hr_headers resp) (hr_body resp))
  end.

(** ** Theorems *)

Definition relay_paths : list string :=
  ["/v1/relay/open"; "/v1/relay/send"; "/v1/relay/recv"; "/v1/relay/ping"; "/v1/relay/close"].

Lemma withAuth_rejects next s at_ r body e :
  (VerifyHTTP (sv_verifier s) (at_now at_) r body).2 = Err e ->
  exists s' resp, withAuth next s at_ r (Ok body) = Some (s', resp)
    /\ sv_manager s' = sv_manager s /\ hr_status resp = 401.
Proof.
  intros Hv. unfold withAuth. destruct (VerifyHTTP _ _ r body) as [v vr]. cbn [snd] in Hv. subst vr.
  by eexists _, _.
Qed.

End RelayServer.

(** how errors reach the client: a request naming an unknown or foreign connection, a bad
    request and an exhausted limit get their own status codes, also through any wrapping; every
    other error is a 502. *)
Theorem status_for_error_cases ctx e :
  statusForError (EWrap ctx e) = statusForError e
  /\ statusForError ErrBadRequest = 400 /\ statusForError ErrUnknownConn = 404
  /\ statusForError ErrForbidden = 403 /\ statusForError ErrMaxConnsPerClient = 429
  /\ statusForError ErrMaxTotalConns = 429 /\ statusForError ErrMaxBytesPerMinute = 429
  /\ statusForError ErrConnClosed = 502.
Proof. split; [|by vm_compute]. by unfold statusForError. Qed.

Definition ex_anonymous : http_request := mkRequest "POST" "/v1/relay/close" (fun _ => "c_1") (fun _ => "").
Definition ex_http_server : RelayServer := mkRelayServer ex_mgr2 ex_http_verifier.
Definition ex_surroundings : surroundings := mkSurroundings (UnixMilli 1000500) (fun _ => None) None.

