(* ===== verification/Server.v ===== *)
(** * The session server's registry ([internal/session/server.go])

    What the sessions share: configuration, verifier, limits, metrics, the idle store, the map of
    live sessions and the id counter. The listeners and the TLS and QUIC libraries are left out;
    [handleConn] and [handleTCPConn] appear as the allocation of a session id. A live session is
    recorded with its client; the idle callback of a session is its id. *)

From S2P Require Import Prelude GoString Crypto Auth Limits Wheel Store Metrics.

Record SessionConfig := mkSessionConfig {
  ListenQUIC : string; ListenTCP : string; HasTLS : bool;
  sc_IdleTimeout : Z; sc_DialTimeout : Z; sc_MaxFlows : Z; MaxDgramPayload : Z;
  sc_UpKbps : Z; sc_DownKbps : Z; sc_MaxUDPPPS : Z; KeepAlive : Z;
  DatagramWorkers : Z; DatagramQueue : Z }.

Section Server.
  Context {P : Type} `{SecretProvider P}.

Record Server := mkServer {
  sr_cfg : SessionConfig; sr_verifier : Verifier P; sr_limits : Manager; sr_metrics : Metrics;
  sr_store : SessionStore Z; sr_sessions : gmap Z string; sr_nextID : Z }.

Definition normalize_session_config (c : SessionConfig) : SessionConfig :=
  mkSessionConfig (ListenQUIC c) (ListenTCP c) (HasTLS c) (sc_IdleTimeout c) (sc_DialTimeout c)
    (sc_MaxFlows c) (MaxDgramPayload c) (sc_UpKbps c) (sc_DownKbps c) (sc_MaxUDPPPS c) (KeepAlive c)
    (if DatagramWorkers c <=? 0 then 4 else DatagramWorkers c)
    (if DatagramQueue c <=? 0 then 4096 else DatagramQueue c).

Definition NewServer (c : SessionConfig) (v : Verifier P) (lim : Manager) (m : Metrics) : Server :=
  mkServer (normalize_session_config c) v lim m (NewSessionStore (NewWheel Second 512)) ∅ 0.

(** The checks of [Start] before it listens. *)
Definition start_check (s : Server) : option goerr :=
  if negb (HasTLS (sr_cfg s)) then Some (ENew "session server requires TLS config")
  else if String.eqb (ListenQUIC (sr_cfg s)) "" && String.eqb (ListenTCP (sr_cfg s)) ""
  then Some (ENew "session server requires at least one of listen_quic or listen_tcp")
  else None.

Definition set_verifier (s : Server) (v : Verifier P) : Server :=
  mkServer (sr_cfg s) v (sr_limits s) (sr_metrics s) (sr_store s) (sr_sessions s) (sr_nextID s).
Definition srv_limits (s : Server) (l : Manager) : Server :=
  mkServer (sr_cfg s) (sr_verifier s) l (sr_metrics s) (sr_store s) (sr_sessions s) (sr_nextID s).
Definition srv_metrics (s : Server) (m : Metrics) : Server :=
  mkServer (sr_cfg s) (sr_verifier s) (sr_limits s) m (sr_store s) (sr_sessions s) (sr_nextID s).
Definition srv_store (s : Server) (st : SessionStore Z) : Server :=
  mkServer (sr_cfg s) (sr_verifier s) (sr_limits s) (sr_metrics s) st (sr_sessions s) (sr_nextID s).
Definition srv_sessions (s : Server) (m : gmap Z string) : Server :=
  mkServer (sr_cfg s) (sr_verifier s) (sr_limits s) (sr_metrics s) (sr_store s) m (sr_nextID s).

(** [nextID.Add(1)], at the start of [handleConn] and [handleTCPConn]. *)
Definition newSessionID (s : Server) : Server * Z :=
  let id := u64 (sr_nextID s + 1) in
  (mkServer (sr_cfg s) (sr_verifier s) (sr_limits s) (sr_metrics s) (sr_store s) (sr_sessions s) id, id).

Definition registerSession (s : Server) (now id : Z) (clientID : string) : Server :=
  let s := srv_sessions s (<[id := clientID]> (sr_sessions s)) in
  let s := srv_store s (SessionStore_Add (sr_store s) (mkSessionState id clientID now now)
                          (sc_IdleTimeout (sr_cfg s)) (Some id)) in
  srv_metrics s (metric_inc (sr_metrics s) ActiveSessions).

Definition touchSession (s : Server) (now sessionID : Z) : Server :=
  srv_store s (SessionStore_Touch (sr_store s) now sessionID (sc_IdleTimeout (sr_cfg s))).1.

Definition unregisterSession (s : Server) (sessionID : Z) : Server :=
  match sr_sessions s !! sessionID with
  | None => s
  | Some _ =>
      let s := srv_sessions s (delete sessionID (sr_sessions s)) in
      let s := srv_store s (SessionStore_Delete (sr_store s) sessionID).1 in
      let s := srv_limits s (CleanupSession (sr_limits s) sessionID) in
      srv_metrics s (metric_dec (sr_metrics s) ActiveSessions)
  end.

(** A tick of the idle wheel: the sessions whose [Close("idle_timeout")] is called. *)
Definition server_tick (s : Server) : Server * list Z :=
  let '(st, fired) := SessionStore_tick (sr_store s) in
  (srv_store s st, omap we_callback fired).

(** ** The invariant *)

Record server_inv (s : Server) : Prop := {
  si_store : session_store_inv (sr_store s);
  si_same : forall id, ss_ClientID <$> (ss_byID (sr_store s) !! id) = sr_sessions s !! id;
  si_gauge : mt_value (sr_metrics s) ActiveSessions = Z.of_nat (size (sr_sessions s));
  si_next : 0 <= sr_nextID s < 2 ^ 64;
  si_ids : forall id, is_Some (sr_sessions s !! id) -> 0 < id <= sr_nextID s }.

(** The registry operations in any order: a session registers once, under an id it was given. *)
Inductive server_reach (c : SessionConfig) (v : Verifier P) (lim : Manager) (m : Metrics)
  : Server -> Prop :=
| sr_new : mt_value m ActiveSessions = 0 -> server_reach c v lim m (NewServer c v lim m)
| sr_conn s : server_reach c v lim m s -> sr_nextID s + 1 < 2 ^ 64 -> server_reach c v lim m (newSessionID s).1
| sr_register s now id clientID :
    server_reach c v lim m s -> sr_sessions s !! id = None -> 0 < id <= sr_nextID s ->
    server_reach c v lim m (registerSession s now id clientID)
| sr_touch s now id : server_reach c v lim m s -> server_reach c v lim m (touchSession s now id)
| sr_unregister s id : server_reach c v lim m s -> server_reach c v lim m (unregisterSession s id)
| sr_tick s : server_reach c v lim m s -> server_reach c v lim m (server_tick s).1
| sr_auth s v' : server_reach c v lim m s -> server_reach c v lim m (set_verifier s v')
| sr_account s l m' : server_reach c v lim m s ->
    mt_value m' ActiveSessions = mt_value (sr_metrics s) ActiveSessions ->
    server_reach c v lim m (srv_metrics (srv_limits s l) m').

Lemma registerSession_inv s now id clientID :
  server_inv s -> sr_sessions s !! id = None -> 0 < id <= sr_nextID s -> server_inv (registerSession s now id clientID).
Proof.
  intros [Hst Hsame Hg Hn Hids] Hnew Hid. unfold registerSession.
  split; cbn [srv_metrics srv_store srv_sessions sr_store sr_sessions sr_metrics sr_nextID sr_cfg].
  - apply SessionStore_Add_inv; [done|]. cbn. unfold is_u64. lia.
  - intros i. cbn [SessionStore_Add ss_byID ss_SessionID]. destruct (decide (i = id)) as [->|Hd].
    + by rewrite !lookup_insert_eq.
    + by rewrite !lookup_insert_ne by done.
  - unfold metric_inc. rewrite metric_add_eq, Hg, map_size_insert_None by done. lia.
  - done.
  - intros i Hi. destruct (decide (i = id)) as [->|Hd]; [done|]. rewrite lookup_insert_ne in Hi by done. by apply Hids.
Qed.

Lemma touchSession_inv s now id : server_inv s -> server_inv (touchSession s now id).
Proof.
  intros [Hst Hsame Hg Hn Hids]. split; try done; cbn [touchSession srv_store sr_store sr_sessions].
  - by apply SessionStore_Touch_inv.
  - intros i. rewrite <- Hsame. unfold SessionStore_Touch.
    destruct (ss_byID (sr_store s) !! id) as [st|] eqn:E; [|done].
    destruct (Touch _ _ _) as [w ok]. cbn [fst ss_byID].
    destruct (decide (i = id)) as [->|Hd]; [by rewrite lookup_insert_eq, E|by rewrite lookup_insert_ne].
Qed.

Lemma unregisterSession_inv s id : server_inv s -> server_inv (unregisterSession s id).
Proof.
  intros [Hst Hsame Hg Hn Hids]. unfold unregisterSession.
  destruct (sr_sessions s !! id) as [c|] eqn:E; [|done].
  assert (Hby : ss_byID (SessionStore_Delete (sr_store s) id).1 = delete id (ss_byID (sr_store s))).
  { unfold SessionStore_Delete. destruct (ss_byID (sr_store s) !! id) eqn:E2; [done|]. by rewrite delete_id. }
  split; cbn [srv_metrics srv_limits srv_store srv_sessions sr_store sr_sessions sr_metrics sr_nextID].
  - by apply SessionStore_Delete_inv.
  - intros i. rewrite Hby. destruct (decide (i = id)) as [->|Hd].
    + by rewrite !lookup_delete_eq.
    + by rewrite !lookup_delete_ne by done.
  - unfold metric_dec. rewrite metric_add_eq, Hg, map_size_delete_Some by eauto.
    assert (size (sr_sessions s) <> 0%nat) by (apply (map_size_ne_0_lookup_2 _ id); eauto). lia.
  - done.
  - intros i Hi. apply Hids. destruct (decide (i = id)) as [->|Hd]; [by eauto|]. by rewrite lookup_delete_ne in Hi.
Qed.

Lemma server_tick_inv s : server_inv s -> server_inv (server_tick s).1.
Proof.
  intros [Hst Hsame Hg Hn Hids]. unfold server_tick. pose proof (SessionStore_tick_inv _ Hst) as Hst'.
  assert (Hby : ss_byID (SessionStore_tick (sr_store s)).1 = ss_byID (sr_store s))
    by (unfold SessionStore_tick; by destruct (tick _)).
  destruct (SessionStore_tick (sr_store s)) as [st fired]. cbn [fst] in *.
  split; try done. cbn. by rewrite Hby.
Qed.

Lemma server_reach_inv c v lim m s : server_reach c v lim m s -> server_inv s.
Proof.
  induction 1 as [Hg|s Hr IH Hb|s now id cl Hr IH Hnew Hid|s now id Hr IH|s id Hr IH|s Hr IH|s v' Hr IH|s l m' Hr IH Hm].
  - split; try done.
    + cbn. apply NewSessionStore_inv; [apply NewWheel_inv|done].
    + intros id. cbn. rewrite lookup_empty. by intros [? ?].
  - destruct IH as [H1 H2 H3 H4 H5].
    assert (Hu : u64 (sr_nextID s + 1) = sr_nextID s + 1) by (apply u64_small; unfold is_u64; lia).
    split; try done; cbn; rewrite Hu; [lia|]. intros i Hi. specialize (H5 i Hi). lia.
  - by apply registerSession_inv.
  - by apply touchSession_inv.
  - by apply unregisterSession_inv.
  - by apply server_tick_inv.
  - by destruct IH.
  - destruct IH as [H1 H2 H3 H4 H5]. split; try done. cbn. congruence.
Qed.

(** the session registry is consistent. In every reachable state the gauge shows the number of
    live sessions, the idle store holds exactly those, under the client that authenticated, ids
    are unique and never reused, and the wheel holds no entry of a session that has ended. *)
Theorem session_registry c v lim m s :
  server_reach c v lim m s ->
  mt_value (sr_metrics s) ActiveSessions = Z.of_nat (size (sr_sessions s))
  /\ (forall id, ss_ClientID <$> (ss_byID (sr_store s) !! id) = sr_sessions s !! id)
  /\ (forall id, is_Some (sr_sessions s !! id) -> id <> u64 (sr_nextID s + 1) \/ sr_nextID s + 1 = 2 ^ 64)
  /\ (forall id, is_u64 id -> sr_sessions s !! id = None -> wh_entries (ss_wheel (sr_store s)) !! SessionKey id = None).
Proof.
  intros Hr. apply server_reach_inv in Hr as [H1 H2 H3 H4 H5]. split_and!; try done.
  - intros id Hid. specialize (H5 id Hid). destruct (Z.eq_dec (sr_nextID s + 1) (2 ^ 64)); [by right|left].
    rewrite u64_small by (unfold is_u64; lia). lia.
  - intros id Hu Hid. destruct (wh_entries _ !! SessionKey id) as [e|] eqn:E; [|done].
    apply (ssi_keys _ H1) in E as (id' & Hk & [st Hst]).
    destruct (ssi_id _ H1 _ _ Hst) as [_ Hu']. apply SessionKey_inj in Hk as <-; [|done..].
    specialize (H2 id). rewrite Hst, Hid in H2. done.
Qed.
End Server.
Arguments Server P : clear implicits.

Definition ex_session_cfg : SessionConfig :=
  mkSessionConfig ":443" ":443" true (60 * Second) (5 * Second) 2 1200 0 0 100 0 2 128.
Definition ex_server : Server StaticSecretProvider :=
  registerSession (newSessionID (NewServer ex_session_cfg (ex_verifier (121 * Second) (60 * Second))
                                   (NewManager ex_limits) NewMetrics)).1 0 1 "dev".

Lemma ex_server_reach :
  server_reach ex_session_cfg (ex_verifier (121 * Second) (60 * Second)) (NewManager ex_limits) NewMetrics ex_server.
Proof. apply sr_register; [apply sr_conn; [by apply sr_new|reflexivity]|reflexivity|split; vm_compute; congruence]. Defined.

Lemma session_registry_witness :
  mt_value (sr_metrics ex_server) ActiveSessions = Z.of_nat (size (sr_sessions ex_server))
  /\ (forall id, ss_ClientID <$> (ss_byID (sr_store ex_server) !! id) = sr_sessions ex_server !! id)
  /\ (forall id, is_Some (sr_sessions ex_server !! id) ->
        id <> u64 (sr_nextID ex_server + 1) \/ sr_nextID ex_server + 1 = 2 ^ 64)
  /\ (forall id, is_u64 id -> sr_sessions ex_server !! id = None ->
        wh_entries (ss_wheel (sr_store ex_server)) !! SessionKey id = None).
Proof.
  apply (session_registry ex_session_cfg (ex_verifier (121 * Second) (60 * Second)) (NewManager ex_limits) NewMetrics).
  apply ex_server_reach.
Defined.
