(* ===== verification/Handshake.v ===== *)
(** * The handshake of a session ([internal/session/session.go], [tcp_session.go])

    The part of [Session.Run] and [TCPSession.Run] up to the registration is the same code: the
    first frame must be an AUTH frame that decodes and verifies. Also here: the resolution of an
    OPEN request's target, which both transports use. *)

From S2P Require Import Prelude Wire Frame GoString Crypto Auth Limits Wheel Store Metrics Server.

(** What the first frame leads to: the frame that is sent back on failure and the error, or the
    authenticated client. *)
Inductive auth_result :=
| AuthFailed (reply : option Frame) (err : goerr)
| AuthCrashed (msg : string)
| AuthOK (clientID : string).

Definition auth_fail (reason : string) (err : goerr) : auth_result :=
  AuthFailed (Some (mkFrame FrameAUTHFAIL (EncodeAuthFail reason))) err.

Section Handshake.
  Context {P : Type} `{SecretProvider P}.

(** [first] is the result of [ReadFrame]. *)
Definition check_first_frame (srv : Server P) (now : Z) (first : res Frame) : Server P * auth_result :=
  match first with
  | Err e => (srv, AuthFailed None (EWrap "read first frame" e))
  | Panic m => (srv, AuthCrashed m)
  | Ok first =>
      if negb (frame_type first =? FrameAUTH)
      then (srv, auth_fail "first frame must be AUTH" (ENew "first frame is not AUTH"))
      else match DecodeAuthPayload (frame_payload first) with
      | Err e => (srv, auth_fail "invalid AUTH payload" (EWrap "decode AUTH payload" e))
      | Panic m => (srv, AuthCrashed m)
      | Ok p =>
          let '(v, r) := VerifySession (sr_verifier srv) now (Frame.ClientID p) (TSMS p) (Nonce p) (Sig p) (Caps p) in
          let srv := set_verifier srv v in
          match r with
          | Err e => (srv, auth_fail "AUTH verification failed" (EWrap "verify AUTH" e))
          | Panic m => (srv, AuthCrashed m)
          | Ok _ => (srv, AuthOK (Frame.ClientID p))
          end
      end
  end.

(** The payload of AUTH_OK for session [id]. *)
Definition auth_ok_payload (srv : Server P) (id : Z) : list byte :=
  let c := sr_cfg srv in
  EncodeAuthOKPayload (mkAuthOKPayload id (u32 (Z.quot (sc_IdleTimeout c) Millisecond))
    (u32 (sc_UpKbps c)) (u32 (sc_DownKbps c)) (u32 (sc_MaxFlows c)) (u32 (sc_MaxUDPPPS c))).
End Handshake.

Definition resolveTargetAddress (p : OpenPayload) : res string :=
  if DstPort p =? 0 then Err (ENew "dst_port must be non-zero")
  else
    let port := FormatUint (DstPort p) in
    if String.eqb (DstHost p) "" then
      if zlen (DstIP p) =? 0 then Err (ENew "either dst_host or dst_ip must be set")
      else Ok (string_of_bytes (JoinHostPort (ip_string (DstIP p)) port))
    else Ok (string_of_bytes (JoinHostPort (bytes_of_string (DstHost p)) port)).

(** [isExpectedSessionCloseErr] and [isExpectedTCPSessionCloseErr], for the errors that are not
    of the QUIC library; they only choose the level of a log line. *)
Definition isExpectedTCPSessionCloseErr (e : option goerr) : bool :=
  match e with
  | None => true
  | Some e => err_is e EEOF || err_is e ECanceled || err_is e ENetClosed
  end.

(** ** Theorems *)

Section HandshakeFacts.
  Context {P : Type} `{SecretProvider P}.
  Implicit Types srv : Server P.

(** The handshake changes nothing but the verifier. *)
Lemma check_first_frame_frame srv now first srv' r :
  check_first_frame srv now first = (srv', r) -> exists v, srv' = set_verifier srv v.
Proof.
  assert (Hself : exists v, srv = set_verifier srv v) by (exists (sr_verifier srv); by destruct srv).
  unfold check_first_frame. intros E. repeat case_in E; simplify_eq; eauto.
Qed.

Lemma check_first_frame_ok srv now first srv' c :
  check_first_frame srv now first = (srv', AuthOK c) ->
  exists f p, first = Ok f /\ frame_type f = FrameAUTH /\ DecodeAuthPayload (frame_payload f) = Ok p
    /\ Frame.ClientID p = c
    /\ VerifySession (sr_verifier srv) now c (TSMS p) (Nonce p) (Sig p) (Caps p) = (sr_verifier srv', Ok tt).
Proof.
  unfold check_first_frame. intros E. destruct first as [f| |]; [|done..].
  destruct (negb (frame_type f =? FrameAUTH)) eqn:Et; [done|]. zbool.
  destruct (DecodeAuthPayload (frame_payload f)) as [p| |] eqn:Ed; [|done..].
  destruct (VerifySession _ _ _ _ _ _ _) as [v [[]| |]] eqn:Ev; simplify_eq/=. by exists f, p.
Qed.


Lemma AUTH_frame_accepted srv now p rest fin sigv :
  wf_ttl (rc_ttl (v_replay (sr_verifier srv))) -> 0 <= v_clockSkew (sr_verifier srv) < maxDuration ->
  wf_auth p -> small_bytes (EncodeAuthPayload p) -> Frame.ClientID p <> "" -> 12 <= zlen (Nonce p) <= 32 ->
  SignSession (sr_verifier srv) (Frame.ClientID p) (TSMS p) (Nonce p) (Caps p) = Ok sigv -> Sig p = sigv ->
  Z.abs (now - UnixMilli (int64 (TSMS p))) <= v_clockSkew (sr_verifier srv) ->
  fresh_nonce (v_replay (sr_verifier srv)) (Frame.ClientID p) (string_of_bytes (hex_encode (Nonce p))) now ->
  ReadFrame (Reader (w_out (WriteFrame (Writer [] None) FrameAUTH (EncodeAuthPayload p)).1 ++ rest) fin)
    = Ok (mkFrame FrameAUTH (EncodeAuthPayload p), Reader rest fin)
  /\ (check_first_frame srv now (Ok (mkFrame FrameAUTH (EncodeAuthPayload p)))).2 = AuthOK (Frame.ClientID p).
Proof.
  intros Ht Hk Hwf Hsm Hid Hn Hsig Hs Hskew Hfresh. split.
  - rewrite WriteFrame_unbounded. cbn [fst w_out app].
    apply (ReadFrame_frame (mkFrame FrameAUTH (EncodeAuthPayload p))). by split.
  - unfold check_first_frame. cbn [frame_type frame_payload].
    rewrite Z.eqb_refl. cbn [negb]. rewrite DecodeAuthPayload_encode by done.
    assert (Hok : (VerifySession (sr_verifier srv) now (Frame.ClientID p) (TSMS p) (Nonce p) (Sig p) (Caps p)).2 = Ok tt).
    { apply VerifySession_accepts; [done..|]. split_and!; try done; try lia. congruence. }
    destruct (VerifySession _ _ _ _ _ _ _) as [v r]. cbn [snd] in Hok. by subst r.
Qed.

(** the client's own bytes authenticate. The frame that a client writes for a payload it signed
    with the shared secret, read back by the server from a stream that continues with anything,
    succeeds, when the nonce is fresh and the clocks agree. *)
Theorem handshake_complete srv now p rest fin sigv :
  wf_ttl (rc_ttl (v_replay (sr_verifier srv))) -> 0 <= v_clockSkew (sr_verifier srv) < maxDuration ->
  wf_auth p -> small_bytes (EncodeAuthPayload p) -> Frame.ClientID p <> "" -> 12 <= zlen (Nonce p) <= 32 ->
  SignSession (sr_verifier srv) (Frame.ClientID p) (TSMS p) (Nonce p) (Caps p) = Ok sigv -> Sig p = sigv ->
  Z.abs (now - UnixMilli (int64 (TSMS p))) <= v_clockSkew (sr_verifier srv) ->
  fresh_nonce (v_replay (sr_verifier srv)) (Frame.ClientID p) (string_of_bytes (hex_encode (Nonce p))) now ->
  exists f, ReadFrame (Reader (w_out (WriteFrame (Writer [] None) FrameAUTH (EncodeAuthPayload p)).1 ++ rest) fin)
            = Ok (f, Reader rest fin)
    /\ (check_first_frame srv now (Ok f)).2 = AuthOK (Frame.ClientID p).
Proof. intros. eexists. eapply AUTH_frame_accepted; eauto. Qed.
End HandshakeFacts.

Definition ex_auth : AuthPayload := mkAuthPayload "dev" 1060000 ex_nonce ex_sig 3.
Definition ex_auth_server : Server StaticSecretProvider :=
  NewServer ex_session_cfg (ex_verifier (121 * Second) (60 * Second)) (NewManager ex_limits) NewMetrics.


Lemma handshake_complete_witness :
  exists f, ReadFrame (Reader (w_out (WriteFrame (Writer [] None) FrameAUTH (EncodeAuthPayload ex_auth)).1 ++ [x0b]) EEOF)
            = Ok (f, Reader [x0b] EEOF)
    /\ (check_first_frame ex_auth_server (UnixMilli 1000000) (Ok f)).2 = AuthOK "dev".
Proof.
  refine (handshake_complete ex_auth_server (UnixMilli 1000000) ex_auth [x0b] EEOF ex_sig _ _ _ _ _ _ _ _ _ _).
  - split; vm_compute; congruence.
  - split; vm_compute; congruence.
  - closed_arith.
  - closed_arith.
  - discriminate.
  - split; vm_compute; congruence.
  - vm_compute. reflexivity.
  - reflexivity.
  - vm_compute. congruence.
  - intros t Hs. vm_compute in Hs. discriminate Hs.
Defined.
