(* ===== verification/TCPSession.v ===== *)
(** * Sessions over TCP ([internal/session/tcp_session.go])

    A session's state and the server's are passed along. A step is the handling of one control
    frame by [Run], one turn of a flow's [targetToClientLoop], or one half of [Close]. Sockets to
    targets are numbered by the dials: [ts_open] are the ones not closed, [ts_sent] what they
    were given. [ts_loops] are the running loops by socket, which [wg] counts; a loop that called
    [Close] stays in [ts_blocked] until that returns. *)

From S2P Require Import Prelude Wire Frame GoString Crypto Auth Limits Wheel Store Metrics Server Handshake.

(** [closeOnce]. *)
Inductive tcp_once := TFresh | TRunning | TDone.

Record TCPSession := mkTCPSession {
  ts_id : Z; ts_clientID : string; ts_out : writer;
  ts_flows : gmap Z Z; ts_loops : gmap Z Z; ts_blocked : gset Z;
  ts_open : gset Z; ts_sent : gmap Z (list byte); ts_once : tcp_once }.

Definition newTCPSession (id : Z) : TCPSession :=
  mkTCPSession id "" (Writer [] None) ∅ ∅ ∅ ∅ ∅ TFresh.

Definition ts_set_out (s : TCPSession) (w : writer) : TCPSession :=
  mkTCPSession (ts_id s) (ts_clientID s) w (ts_flows s) (ts_loops s) (ts_blocked s) (ts_open s) (ts_sent s) (ts_once s).
Definition ts_set_flows (s : TCPSession) (f : gmap Z Z) (o : gset Z) : TCPSession :=
  mkTCPSession (ts_id s) (ts_clientID s) (ts_out s) f (ts_loops s) (ts_blocked s) o (ts_sent s) (ts_once s).
Definition ts_set_loops (s : TCPSession) (l : gmap Z Z) (b : gset Z) : TCPSession :=
  mkTCPSession (ts_id s) (ts_clientID s) (ts_out s) (ts_flows s) l b (ts_open s) (ts_sent s) (ts_once s).
Definition ts_set_sent (s : TCPSession) (m : gmap Z (list byte)) : TCPSession :=
  mkTCPSession (ts_id s) (ts_clientID s) (ts_out s) (ts_flows s) (ts_loops s) (ts_blocked s) (ts_open s) m (ts_once s).
Definition ts_set_client (s : TCPSession) (c : string) : TCPSession :=
  mkTCPSession (ts_id s) c (ts_out s) (ts_flows s) (ts_loops s) (ts_blocked s) (ts_open s) (ts_sent s) (ts_once s).

Definition ts_writeFrame (s : TCPSession) (frameType : Z) (payload : list byte) : TCPSession * option goerr :=
  let '(w, err) := WriteFrame (ts_out s) frameType payload in (ts_set_out s w, err).

Definition ts_flowCount (s : TCPSession) : Z := Z.of_nat (size (ts_flows s)).

Definition fail_frame (flowID : Z) (reason : string) : list byte := EncodeFailPayload (mkFailPayload flowID reason).

(** The outcome of a read from a target. *)
Inductive target_end := TargetOK | TargetEOF | TargetErr.

Section TCPSessionOps.
  Context {P : Type} `{SecretProvider P}.
  Implicit Types srv : Server P.

Definition srv_touch srv (now id : Z) : Server P := touchSession srv now id.
Definition tcp_streams srv (d : Z) : Server P := srv_metrics srv (metric_add (sr_metrics srv) TCPStreams d).

Definition ts_closeFlow (s : TCPSession) srv (flowID : Z) (notify : bool) : TCPSession * Server P :=
  match ts_flows s !! flowID with
  | None => (s, srv)
  | Some sock =>
      let s := ts_set_flows s (delete flowID (ts_flows s)) (ts_open s ∖ {[sock]}) in
      let srv := tcp_streams srv (-1) in
      if notify then ((ts_writeFrame s FrameCLOSEFLOW (EncodeCloseFlowPayload (mkCloseFlowPayload flowID))).1, srv)
      else (s, srv)
  end.

(** [dial] is what [DialContext] returns for an address: a socket or an error. *)
Definition ts_handleOpenTCP (s : TCPSession) srv (p : OpenPayload) (dial : string -> res Z)
  : TCPSession * Server P :=
  let fail := fun srv reason => ((ts_writeFrame s FrameOPENTCPFAIL (fail_frame (op_FlowID p) reason)).1, srv) in
  if op_FlowID p =? 0 then fail srv "flow_id must be non-zero"
  else if sc_MaxFlows (sr_cfg srv) <=? ts_flowCount s then fail srv "max_flows_per_session exceeded"
  else match resolveTargetAddress p with
  | Err e => fail srv (err_text e)
  | Panic _ => (s, srv)
  | Ok addr =>
      match dial addr with
      | Err e => fail (srv_metrics srv (metric_inc (sr_metrics srv) (OpenFailures "session" "tcp_dial"))) (err_text e)
      | Panic _ => (s, srv)
      | Ok sock =>
          match ts_flows s !! op_FlowID p with
          | Some _ => fail srv "flow_id already exists"
          | None =>
              let s := ts_set_flows s (<[op_FlowID p := sock]> (ts_flows s)) ({[sock]} ∪ ts_open s) in
              let srv := tcp_streams srv 1 in
              let '(s, err) := ts_writeFrame s FrameOPENTCPOK (EncodeOpenOKPayload (mkOpenOKPayload (op_FlowID p) 3)) in
              match err with
              | Some _ => ts_closeFlow s srv (op_FlowID p) false
              | None => (ts_set_loops s (<[sock := op_FlowID p]> (ts_loops s)) (ts_blocked s), srv)
              end
          end
      end
  end.

(** [write] is the error of the write to the target. *)
Definition ts_handleClientTCPData (s : TCPSession) srv (now flowID : Z) (data : list byte) (write : option goerr)
  : TCPSession * Server P * option goerr :=
  match ts_flows s !! flowID with
  | None => (s, srv, Some (ENew "unknown tcp flow"))
  | Some sock =>
      if zlen data =? 0 then (s, srv, None)
      else
        let '(l, err) := AllowSessionBytes (sr_limits srv) now (ts_id s) (zlen data) in
        let srv := srv_limits srv l in
        match err with
        | Some e => (s, srv, Some e)
        | None =>
            match write with
            | Some e => (s, srv, Some e)
            | None =>
                let s := ts_set_sent s (<[sock := default [] (ts_sent s !! sock) ++ data]> (ts_sent s)) in
                let srv := srv_metrics srv (metric_add (sr_metrics srv) (BytesIn "session") (zlen data)) in
                (s, srv_touch srv now (ts_id s), None)
            end
        end
  end.

(** [Close] up to [wg.Wait], for the caller that enters [closeOnce]: the connection and the
    targets are closed and the flows forgotten. *)
Definition ts_close_enter (s : TCPSession) srv : TCPSession * Server P :=
  let flows := map_to_list (ts_flows s) in
  (mkTCPSession (ts_id s) (ts_clientID s) (Writer (w_out (ts_out s)) (Some 0)) ∅ (ts_loops s) (ts_blocked s)
     (ts_open s ∖ list_to_set flows.*2) (ts_sent s) TRunning,
   foldl (fun srv _ => tcp_streams srv (-1)) srv flows).
(** [Close] after [wg.Wait]. *)
Definition ts_close_finish (s : TCPSession) : TCPSession :=
  mkTCPSession (ts_id s) (ts_clientID s) (ts_out s) (ts_flows s) (ts_loops s) (ts_blocked s) (ts_open s)
    (ts_sent s) TDone.

(** [Close] as another goroutine calls it: it enters, or waits for the one that did. *)
Definition ts_Close (s : TCPSession) srv : TCPSession * Server P :=
  match ts_once s with TFresh => ts_close_enter s srv | _ => (s, srv) end.

(** [Close] as the loop on [sock] calls it: the loop is held until it returns. *)
Definition ts_loop_Close (s : TCPSession) srv (sock : Z) : TCPSession * Server P :=
  match ts_once s with
  | TFresh => let '(s, srv) := ts_close_enter s srv in (ts_set_loops s (ts_loops s) ({[sock]} ∪ ts_blocked s), srv)
  | TRunning => (ts_set_loops s (ts_loops s) ({[sock]} ∪ ts_blocked s), srv)
  | TDone => (ts_set_loops s (delete sock (ts_loops s)) (ts_blocked s), srv)
  end.

(** The end of a turn: after a read error the loop closes the flow of its id and leaves. *)
Definition loop_turn_end (s : TCPSession) srv (sock flowID : Z) (e : target_end) : TCPSession * Server P :=
  match e with
  | TargetOK => (s, srv)
  | _ => let '(s, srv) := ts_closeFlow s srv flowID true in
         (ts_set_loops s (delete sock (ts_loops s)) (ts_blocked s), srv)
  end.

(** One turn of [targetToClientLoop] of the flow [flowID] on [sock]. *)
Definition targetToClient_turn (s : TCPSession) srv (now sock flowID : Z) (buf : list byte) (e : target_end)
  : TCPSession * Server P :=
  if 0 <? zlen buf then
    let '(l, err) := AllowSessionBytes (sr_limits srv) now (ts_id s) (zlen buf) in
    let srv := srv_limits srv l in
    match err with
    | Some _ => ts_loop_Close s srv sock
    | None =>
        let '(s, err) := ts_writeFrame s FrameTCPDATA (EncodeTCPDataPayload flowID buf) in
        match err with
        | Some _ => ts_loop_Close s srv sock
        | None =>
            let srv := srv_metrics srv (metric_add (sr_metrics srv) (BytesOut "session") (zlen buf)) in
            loop_turn_end s (srv_touch srv now (ts_id s)) sock flowID e
        end
    end
  else loop_turn_end s srv sock flowID e.

(** The handling of one frame by the loop of [Run]; [false] when [Run] returns. *)
Definition ts_handle_frame (s : TCPSession) srv (now : Z) (f : Frame) (dial : string -> res Z)
    (write : option goerr) : TCPSession * Server P * bool :=
  let srv := srv_touch srv now (ts_id s) in
  let t := frame_type f in
  if t =? FramePING then ((ts_writeFrame s FramePONG (frame_payload f)).1, srv, true)
  else if t =? FramePONG then (s, srv, true)
  else if t =? FrameOPENTCP then
    match DecodeOpenPayload (frame_payload f) with
    | Ok p => let '(s, srv) := ts_handleOpenTCP s srv p dial in (s, srv, true)
    | Err _ => ((ts_writeFrame s FrameOPENTCPFAIL (fail_frame 0 "invalid OPEN_TCP payload")).1, srv, true)
    | Panic _ => (s, srv, false)
    end
  else if t =? FrameOPENUDP then
    match DecodeOpenPayload (frame_payload f) with
    | Ok p => ((ts_writeFrame s FrameOPENUDPFAIL
                  (fail_frame (op_FlowID p) "udp is not supported on tcp transport")).1, srv, true)
    | Err _ => ((ts_writeFrame s FrameOPENUDPFAIL
                   (fail_frame 0 "udp is not supported on tcp transport")).1, srv, true)
    | Panic _ => (s, srv, false)
    end
  else if t =? FrameCLOSEFLOW then
    match DecodeCloseFlowPayload (frame_payload f) with
    | Ok p => let '(s, srv) := ts_closeFlow s srv (cf_FlowID p) false in (s, srv, true)
    | _ => (s, srv, true)
    end
  else if t =? FrameTCPDATA then
    match DecodeTCPDataPayload (frame_payload f) with
    | Ok (flowID, data) =>
        let '(s, srv, err) := ts_handleClientTCPData s srv now flowID data write in
        match err with
        | None => (s, srv, true)
        | Some e =>
            if err_is e ErrMaxBytesPerMinuteSess
            then let '(s, srv) := ts_Close s srv in (s, srv, false)
            else let '(s, srv) := ts_closeFlow s srv flowID true in (s, srv, true)
        end
    | _ => (s, srv, true)
    end
  else (s, srv, true).

(** [Run] up to its loop: [true] when the loop starts. *)
Definition ts_run_begin (s : TCPSession) srv (now : Z) (first : res Frame) : TCPSession * Server P * bool :=
  let '(srv, r) := check_first_frame srv now first in
  match r with
  | AuthFailed (Some f) _ => ((ts_writeFrame s (frame_type f) (frame_payload f)).1, srv, false)
  | AuthFailed None _ => (s, srv, false)
  | AuthCrashed _ => (s, srv, false)
  | AuthOK c =>
      let s := ts_set_client s c in
      let srv := registerSession srv now (ts_id s) c in
      let '(s, err) := ts_writeFrame s FrameAUTHOK (auth_ok_payload srv (ts_id s)) in
      match err with
      | Some _ => (s, srv, false)
      | None => (s, srv_touch srv now (ts_id s), true)
      end
  end.

(** The deferred calls when [Run] returns: first the registration goes, then [Close] runs. *)
Definition ts_run_end (s : TCPSession) srv : TCPSession * Server P := ts_Close s (unregisterSession srv (ts_id s)).
End TCPSessionOps.

(** ** The invariant *)

Lemma add_remove_fresh (k : Z) (X : gset Z) : k ∉ X -> ({[k]} ∪ X) ∖ {[k]} = X.
Proof. set_solver. Qed.

Section TCPSessionFacts.
  Context {P : Type} `{SecretProvider P}.
  Implicit Types srv : Server P.

Definition streams srv : Z := mt_value (sr_metrics srv) TCPStreams.

(** The server as far as a session's invariant reads it. *)
Definition same_srv srv srv' : Prop := sr_cfg srv' = sr_cfg srv /\ streams srv' = streams srv.

(** [g0] is what other sessions contribute to the gauge. *)
Record tcp_inv (s : TCPSession) srv (g0 : Z) : Prop := {
  ti_count : ts_flowCount s <= Z.max 0 (sc_MaxFlows (sr_cfg srv));
  ti_open : ts_open s = map_img (ts_flows s);
  ti_inj : forall a b k, ts_flows s !! a = Some k -> ts_flows s !! b = Some k -> a = b;
  ti_loops : forall f k, ts_flows s !! f = Some k -> ts_loops s !! k = Some f;
  ti_zero : ts_flows s !! 0 = None;
  ti_gauge : streams srv = g0 + ts_flowCount s;
  ti_closed : ts_once s <> TFresh -> ts_flows s = ∅ /\ w_room (ts_out s) = Some 0;
  ti_blocked : ts_blocked s ⊆ dom (ts_loops s);
  ti_done : ts_once s = TDone -> ts_loops s = ∅ }.

Lemma ts_touch_same srv now id : same_srv srv (srv_touch srv now id).
Proof. done. Qed.

Lemma metric_other_same srv k d : k <> TCPStreams -> same_srv srv (srv_metrics srv (metric_add (sr_metrics srv) k d)).
Proof. intros Hk. split; [done|]. unfold streams. cbn. by apply metric_add_ne. Qed.

Lemma unregister_same srv id : same_srv srv (unregisterSession srv id).
Proof.
  unfold unregisterSession. destruct (sr_sessions srv !! id); [|done]. split; [done|]. unfold streams. cbn [sr_metrics srv_metrics].
  by apply metric_add_ne.
Qed.

Lemma same_srv_trans a b c : same_srv a b -> same_srv b c -> same_srv a c.
Proof. intros [H1 H2] [H3 H4]. split; congruence. Qed.

Lemma tcp_inv_srv s srv srv' g0 : tcp_inv s srv g0 -> same_srv srv srv' -> tcp_inv s srv' g0.
Proof. intros [] [Hc Hs]. split; try done; congruence. Qed.

(** A write changes nothing but the output, and fails on a closed connection. *)
Lemma WriteFrame_room w t p w' e : WriteFrame w t p = (w', e) -> w_room w = Some 0 -> w_room w' = Some 0 /\ e <> None.
Proof.
  intros E Hr. unfold WriteFrame in E. pose proof (PutUvarint_nonempty t) as Hne.
  revert Hne E. generalize (PutUvarint t) as q. intros q Hne E.
  assert (Hw : w_write w q = (Writer (w_out w ++ ztake 0 q) (Some 0), Some ENetClosed)).
  { unfold w_write. rewrite Hr. rewrite (proj2 (Z.leb_gt _ _)) by (by apply nonempty_pos). done. }
  rewrite Hw in E. by simplify_eq.
Qed.

Lemma writeFrame_inv s srv g0 t p : tcp_inv s srv g0 -> tcp_inv (ts_writeFrame s t p).1 srv g0.
Proof.
  intros Hinv. unfold ts_writeFrame. destruct (WriteFrame (ts_out s) t p) as [w e] eqn:E. cbn [fst].
  destruct Hinv. split; try done. cbn. intros Ho. destruct (ti_closed0 Ho) as [H1 H2].
  split; [done|]. by destruct (WriteFrame_room _ _ _ _ _ E H2).
Qed.

Lemma writeFrame_closed s t p : w_room (ts_out s) = Some 0 -> (ts_writeFrame s t p).2 <> None.
Proof.
  intros Hr. unfold ts_writeFrame. destruct (WriteFrame (ts_out s) t p) as [w e] eqn:E. cbn.
  by destruct (WriteFrame_room _ _ _ _ _ E Hr).
Qed.

Lemma writeFrame_same s t p :
  let s' := (ts_writeFrame s t p).1 in
  ts_flows s' = ts_flows s /\ ts_open s' = ts_open s /\ ts_loops s' = ts_loops s /\ ts_once s' = ts_once s
  /\ ts_blocked s' = ts_blocked s /\ ts_id s' = ts_id s.
Proof. unfold ts_writeFrame. by destruct (WriteFrame (ts_out s) t p). Qed.

(** Closing one flow. *)
Lemma closeFlow_inv s srv g0 f notify :
  tcp_inv s srv g0 ->
  tcp_inv (ts_closeFlow s srv f notify).1 (ts_closeFlow s srv f notify).2 g0
  /\ ts_flows (ts_closeFlow s srv f notify).1 = delete f (ts_flows s)
  /\ ts_loops (ts_closeFlow s srv f notify).1 = ts_loops s
  /\ ts_once (ts_closeFlow s srv f notify).1 = ts_once s
  /\ ts_blocked (ts_closeFlow s srv f notify).1 = ts_blocked s
  /\ sr_cfg (ts_closeFlow s srv f notify).2 = sr_cfg srv.
Proof.
  intros Hinv. unfold ts_closeFlow. destruct (ts_flows s !! f) as [k|] eqn:Ef.
  2:{ split_and!; try done. by rewrite delete_id. }
  set (s1 := ts_set_flows s _ _). set (srv1 := tcp_streams srv (-1)).
  assert (H1 : tcp_inv s1 srv1 g0).
  { destruct Hinv as [Hc Ho Hi Hl Hz Hg Hcl Hb Hd].
    assert (Hsz : Z.of_nat (size (delete f (ts_flows s))) = Z.of_nat (size (ts_flows s)) - 1).
    { rewrite map_size_delete_Some by eauto.
      assert (size (ts_flows s) <> 0%nat) by (apply (map_size_ne_0_lookup_2 _ f); eauto). lia. }
    split; cbn [s1 ts_set_flows ts_flows ts_open ts_loops ts_once ts_out ts_blocked]; unfold ts_flowCount in *; cbn [ts_set_flows ts_flows s1]; try done.
    - cbn. lia.
    - rewrite Ho. apply set_eq. intros x. rewrite elem_of_difference, elem_of_singleton, !elem_of_map_img. split.
      + intros [[i Hx] Hne]. exists i. rewrite lookup_delete_ne; [done|]. intros <-. congruence.
      + intros [i Hx]. apply lookup_delete_Some in Hx as [Hne Hx]. split; [eauto|]. intros ->. by apply Hne, (Hi f i k).
    - intros a b x Ha Hb'. apply lookup_delete_Some in Ha as [_ Ha], Hb' as [_ Hb']. by eapply Hi.
    - intros a x Ha. apply lookup_delete_Some in Ha as [_ Ha]. by apply Hl.
    - apply lookup_delete_None. by right.
    - unfold streams, srv1, tcp_streams in *. cbn [srv_metrics sr_metrics]. rewrite metric_add_eq. lia.
    - intros Hone. destruct (Hcl Hone) as [He _]. by rewrite He in Ef. }
  destruct notify; [|by split_and!].
  destruct (writeFrame_same s1 FrameCLOSEFLOW (EncodeCloseFlowPayload (mkCloseFlowPayload f))) as (H2 & H3 & H4 & H5 & H6 & _).
  split; [by apply writeFrame_inv|]. by split_and!.
Qed.

(** A dialled socket is a new one. *)
Definition fresh_socket (s : TCPSession) (k : Z) : Prop := ts_loops s !! k = None /\ k ∉ ts_open s.

Lemma open_flow_inv s srv g0 f k :
  tcp_inv s srv g0 -> f <> 0 -> ts_flowCount s < sc_MaxFlows (sr_cfg srv) -> ts_flows s !! f = None ->
  fresh_socket s k -> ts_once s = TFresh ->
  tcp_inv (ts_set_loops (ts_set_flows s (<[f := k]> (ts_flows s)) ({[k]} ∪ ts_open s))
             (<[k := f]> (ts_loops s)) (ts_blocked s)) (tcp_streams srv 1) g0.
Proof.
  intros [Hc Ho Hi Hl Hz Hg Hcl Hb Hd] Hf Hmax Hnew [Hk1 Hk2] Hone.
  assert (Hnk : forall a, ts_flows s !! a <> Some k) by (intros a Ha; apply Hl in Ha; congruence).
  assert (Hsz : Z.of_nat (size (<[f := k]> (ts_flows s))) = Z.of_nat (size (ts_flows s)) + 1)
    by (rewrite map_size_insert_None by done; lia).
  split; unfold ts_flowCount in *;
    cbn [ts_set_loops ts_set_flows ts_flows ts_open ts_loops ts_once ts_out ts_blocked]; try done.
  - cbn. lia.
  - rewrite Ho. apply set_eq. intros x. rewrite elem_of_union, elem_of_singleton, !elem_of_map_img.
    setoid_rewrite lookup_insert_Some. split.
    + intros [->|[i Hx]]; [by exists f; left|]. exists i. right. split; [|done]. intros <-. congruence.
    + intros [i [[_ <-]|[_ Hx]]]; [by left|right; eauto].
  - intros a b x Ha Hb'. apply lookup_insert_Some in Ha as [[<- <-]|[_ Ha]], Hb' as [[<- Hx]|[_ Hb']]; try done.
    + by apply Hnk in Hb'.
    + subst x. by apply Hnk in Ha.
    + by eapply Hi.
  - intros a x Ha. apply lookup_insert_Some in Ha as [[<- <-]|[_ Ha]]; [apply lookup_insert_eq|].
    rewrite lookup_insert_ne; [by apply Hl|]. intros <-. by apply Hnk in Ha.
  - by rewrite lookup_insert_ne.
  - unfold streams, tcp_streams in *. cbn [srv_metrics sr_metrics]. rewrite metric_add_eq. lia.
  - rewrite dom_insert_L. by apply union_subseteq_r'.
  - by rewrite Hone.
Qed.

Lemma open_rollback s srv f k w :
  ts_flows s !! f = None -> fresh_socket s k ->
  ts_closeFlow (ts_set_out (ts_set_flows s (<[f := k]> (ts_flows s)) ({[k]} ∪ ts_open s)) w) srv f false
  = (ts_set_out s w, tcp_streams srv (-1)).
Proof.
  intros Hf [_ Hk]. unfold ts_closeFlow. cbn [ts_set_out ts_set_flows ts_flows ts_open].
  rewrite lookup_insert_eq. f_equal. unfold ts_set_flows, ts_set_out. cbn. f_equal.
  - by rewrite delete_insert_id.
  - by apply add_remove_fresh.
Qed.

Lemma handleOpenTCP_inv s srv g0 p dial :
  tcp_inv s srv g0 -> (forall a k, dial a = Ok k -> fresh_socket s k) ->
  tcp_inv (ts_handleOpenTCP s srv p dial).1 (ts_handleOpenTCP s srv p dial).2 g0
  /\ sr_cfg (ts_handleOpenTCP s srv p dial).2 = sr_cfg srv.
Proof.
  intros Hinv Hdial. unfold ts_handleOpenTCP.
  destruct (op_FlowID p =? 0) eqn:E0; [split; [by apply writeFrame_inv|done]|]. zbool.
  destruct (sc_MaxFlows (sr_cfg srv) <=? ts_flowCount s) eqn:E1; [split; [by apply writeFrame_inv|done]|]. zbool.
  destruct (resolveTargetAddress p) as [addr|e|m]; [|split; [by apply writeFrame_inv|done]|done].
  destruct (dial addr) as [k|e|m] eqn:Ed;
    [|split; [|done]; apply tcp_inv_srv with srv; [by apply writeFrame_inv|by apply metric_other_same]|done].
  destruct (ts_flows s !! op_FlowID p) eqn:Ef; [split; [by apply writeFrame_inv|done]|].
  specialize (Hdial addr k Ed). set (f := op_FlowID p) in *.
  set (s1 := ts_set_flows s (<[f := k]> (ts_flows s)) ({[k]} ∪ ts_open s)).
  pose proof (writeFrame_same s1 FrameOPENTCPOK (EncodeOpenOKPayload (mkOpenOKPayload f 3))) as Hsame.
  pose proof (writeFrame_closed s1 FrameOPENTCPOK (EncodeOpenOKPayload (mkOpenOKPayload f 3))) as Hclosed.
  pose proof (writeFrame_inv (ts_set_loops s1 (<[k := f]> (ts_loops s)) (ts_blocked s)) (tcp_streams srv 1) g0
                FrameOPENTCPOK (EncodeOpenOKPayload (mkOpenOKPayload f 3))) as Hwi.
  pose proof (writeFrame_inv s srv g0 FrameOPENTCPOK (EncodeOpenOKPayload (mkOpenOKPayload f 3)) Hinv) as Hfail.
  unfold ts_writeFrame in *. cbn [ts_set_loops ts_out] in Hwi. change (ts_out s1) with (ts_out s) in *.
  destruct (WriteFrame (ts_out s) FrameOPENTCPOK _) as [w err]. cbn [fst snd] in *.
  destruct err as [err|].
  - unfold s1. rewrite open_rollback by done. cbn [fst snd]. split; [|done].
    apply tcp_inv_srv with srv; [done|]. split; [done|].
    unfold streams, tcp_streams. cbn [srv_metrics sr_metrics]. rewrite !metric_add_eq. lia.
  - assert (Hone : ts_once s = TFresh).
    { destruct (ts_once s) eqn:Eo; [done|..]; exfalso;
        destruct (ti_closed _ _ _ Hinv) as [_ Hroom]; try congruence; by apply (Hclosed Hroom). }
    split; [|done]. apply Hwi. by apply open_flow_inv.
Qed.

Lemma AllowSessionBytes_same srv now id n l e :
  AllowSessionBytes (sr_limits srv) now id n = (l, e) -> same_srv srv (srv_limits srv l).
Proof. done. Qed.

Lemma handleClientTCPData_inv s srv g0 now f data write :
  tcp_inv s srv g0 ->
  tcp_inv (ts_handleClientTCPData s srv now f data write).1.1 (ts_handleClientTCPData s srv now f data write).1.2 g0
  /\ sr_cfg (ts_handleClientTCPData s srv now f data write).1.2 = sr_cfg srv.
Proof.
  intros Hinv. unfold ts_handleClientTCPData. destruct (ts_flows s !! f) as [k|]; [|done].
  destruct (zlen data =? 0); [done|].
  destruct (AllowSessionBytes _ _ _ _) as [l [e|]]; [by destruct Hinv|].
  destruct write as [e|]; [by destruct Hinv|]. cbn [fst snd]. split; [|done].
  apply tcp_inv_srv with srv; [by destruct Hinv|].
  apply same_srv_trans with (srv_metrics (srv_limits srv l)
    (metric_add (sr_metrics (srv_limits srv l)) (BytesIn "session") (zlen data))); [|done].
  split; [done|]. unfold streams. cbn [srv_metrics sr_metrics srv_limits]. by apply metric_add_ne.
Qed.

(** Closing gives back every flow at once. *)
Lemma close_gauge srv (l : list (Z * Z)) :
  let srv' := foldl (fun srv _ => tcp_streams srv (-1)) srv l in
  streams srv' = streams srv - Z.of_nat (length l) /\ sr_cfg srv' = sr_cfg srv.
Proof.
  revert srv. induction l as [|x l IH]; intros srv; cbn [foldl length]; [split; [lia|done]|].
  destruct (IH (tcp_streams srv (-1))) as [-> ->]. split; [|done].
  unfold streams, tcp_streams. cbn [srv_metrics sr_metrics]. rewrite metric_add_eq. lia.
Qed.

Lemma close_enter_tcp_inv s srv g0 :
  tcp_inv s srv g0 -> ts_once s = TFresh ->
  tcp_inv (ts_close_enter s srv).1 (ts_close_enter s srv).2 g0
  /\ sr_cfg (ts_close_enter s srv).2 = sr_cfg srv.
Proof.
  intros [Hc Ho Hi Hl Hz Hg Hcl Hb Hd] Hone. unfold ts_close_enter. cbn [fst snd].
  destruct (close_gauge srv (map_to_list (ts_flows s))) as [Hs Hcfg]. split; [|done].
  split; unfold ts_flowCount in *; cbn [ts_flows ts_open ts_loops ts_once ts_out ts_blocked w_room]; try done.
  - rewrite map_size_empty. cbn. lia.
  - rewrite Ho, map_img_empty_L. apply set_eq. intros x.
    rewrite elem_of_difference, elem_of_list_to_set, list_elem_of_fmap, elem_of_map_img. split; [|set_solver].
    intros [[i Hx] Hn]. exfalso. apply Hn. exists (i, x). split; [done|]. by apply elem_of_map_to_list.
  - rewrite Hs, Hg, length_map_to_list, map_size_empty. cbn. lia.
Qed.

Lemma Close_inv s srv g0 :
  tcp_inv s srv g0 -> tcp_inv (ts_Close s srv).1 (ts_Close s srv).2 g0 /\ sr_cfg (ts_Close s srv).2 = sr_cfg srv.
Proof. intros Hinv. unfold ts_Close. destruct (ts_once s) eqn:E; [by apply close_enter_tcp_inv|done..]. Qed.

(** A loop that calls [Close] stays. *)
Lemma loop_Close_inv s srv g0 k f :
  tcp_inv s srv g0 -> ts_loops s !! k = Some f ->
  tcp_inv (ts_loop_Close s srv k).1 (ts_loop_Close s srv k).2 g0 /\ sr_cfg (ts_loop_Close s srv k).2 = sr_cfg srv.
Proof.
  intros Hinv Hk.
  assert (Hblock : forall s' srv', tcp_inv s' srv' g0 -> ts_loops s' = ts_loops s ->
    tcp_inv (ts_set_loops s' (ts_loops s') ({[k]} ∪ ts_blocked s')) srv' g0).
  { intros s' srv' [] Hl. split; try done. cbn. apply union_subseteq. split; [|done].
    apply singleton_subseteq_l, elem_of_dom. rewrite Hl. eauto. }
  unfold ts_loop_Close. destruct (ts_once s) eqn:Eo.
  - destruct (close_enter_tcp_inv s srv g0 Hinv Eo) as [H1 H2].
    assert (Hl : ts_loops (ts_close_enter s srv).1 = ts_loops s) by done.
    destruct (ts_close_enter s srv) as [s' srv']. cbn [fst snd] in *. split; [|done]. by apply Hblock.
  - split; [|done]. by apply Hblock.
  - exfalso. rewrite (ti_done _ _ _ Hinv Eo) in Hk. by rewrite lookup_empty in Hk.
Qed.

(** A loop leaves once its flow is gone. *)
Lemma loop_exit_inv s srv g0 k f :
  tcp_inv s srv g0 -> ts_loops s !! k = Some f -> ts_flows s !! f = None -> k ∉ ts_blocked s ->
  tcp_inv (ts_set_loops s (delete k (ts_loops s)) (ts_blocked s)) srv g0.
Proof.
  intros [Hc Ho Hi Hl Hz Hg Hcl Hb Hd] Hk Hf Hnb. split; try done; cbn [ts_set_loops ts_flows ts_loops ts_blocked ts_once].
  - intros a x Ha. rewrite lookup_delete_ne; [by apply Hl|]. intros <-. apply Hl in Ha as Ha'. congruence.
  - rewrite dom_delete_L. set_solver.
  - intros Hone. rewrite (Hd Hone) in Hk. by rewrite lookup_empty in Hk.
Qed.

Lemma targetToClient_inv s srv g0 now k f buf e :
  tcp_inv s srv g0 -> ts_loops s !! k = Some f -> k ∉ ts_blocked s ->
  tcp_inv (targetToClient_turn s srv now k f buf e).1 (targetToClient_turn s srv now k f buf e).2 g0
  /\ sr_cfg (targetToClient_turn s srv now k f buf e).2 = sr_cfg srv.
Proof.
  intros Hinv Hk Hnb. unfold targetToClient_turn.
  assert (Hfin : forall s' srv', tcp_inv s' srv' g0 -> ts_loops s' = ts_loops s -> ts_blocked s' = ts_blocked s ->
    tcp_inv (loop_turn_end s' srv' k f e).1 (loop_turn_end s' srv' k f e).2 g0
    /\ sr_cfg (loop_turn_end s' srv' k f e).2 = sr_cfg srv').
  { intros s' srv' H' Hl' Hb'. unfold loop_turn_end.
    destruct (closeFlow_inv s' srv' g0 f true H') as (H1 & H2 & H3 & _ & H5 & H6).
    assert (Hx : k ∉ ts_blocked (ts_closeFlow s' srv' f true).1) by (by rewrite H5, Hb').
    assert (Hy : ts_loops (ts_closeFlow s' srv' f true).1 !! k = Some f) by (by rewrite H3, Hl').
    assert (Hz : ts_flows (ts_closeFlow s' srv' f true).1 !! f = None) by (by rewrite H2, lookup_delete_eq).
    destruct (ts_closeFlow s' srv' f true) as [s2 srv2]. cbn [fst snd] in *.
    destruct e; [done|..]; (split; [|done]); by apply loop_exit_inv with f. }
  destruct (0 <? zlen buf); [|by apply Hfin].
  destruct (AllowSessionBytes _ _ _ _) as [l [err|]].
  { apply (loop_Close_inv s (srv_limits srv l) g0 k f); [by destruct Hinv|done]. }
  pose proof (writeFrame_same s FrameTCPDATA (EncodeTCPDataPayload f buf)) as (W1 & W2 & W3 & W4 & W5 & W6).
  pose proof (writeFrame_inv s (srv_limits srv l) g0 FrameTCPDATA (EncodeTCPDataPayload f buf)) as Hwi.
  destruct (ts_writeFrame s FrameTCPDATA (EncodeTCPDataPayload f buf)) as [s1 err]. cbn [fst snd] in *.
  assert (H1 : tcp_inv s1 (srv_limits srv l) g0) by (apply Hwi; by destruct Hinv).
  destruct err as [err|].
  { apply (loop_Close_inv s1 (srv_limits srv l) g0 k f); [done|by rewrite W3]. }
  set (srv2 := srv_touch (srv_metrics (srv_limits srv l) _) now (ts_id s1)).
  destruct (Hfin s1 srv2) as [Ha Hb]; [|done|done|by split].
  apply tcp_inv_srv with (srv_limits srv l); [done|]. split; [done|].
  unfold streams. cbn [srv_touch touchSession srv_store srv_metrics sr_metrics srv_limits]. by apply metric_add_ne.
Qed.

Lemma handle_frame_inv s srv g0 now f dial write :
  tcp_inv s srv g0 -> (forall a k, dial a = Ok k -> fresh_socket s k) ->
  tcp_inv (ts_handle_frame s srv now f dial write).1.1 (ts_handle_frame s srv now f dial write).1.2 g0
  /\ sr_cfg (ts_handle_frame s srv now f dial write).1.2 = sr_cfg srv.
Proof.
  intros Hinv Hdial. unfold ts_handle_frame.
  assert (Ht : tcp_inv s (srv_touch srv now (ts_id s)) g0) by (by destruct Hinv).
  set (srv1 := srv_touch srv now (ts_id s)) in *. change (sr_cfg srv) with (sr_cfg srv1). clearbody srv1.
  assert (Hw : forall t p, tcp_inv (ts_writeFrame s t p).1 srv1 g0 /\ sr_cfg srv1 = sr_cfg srv1)
    by (intros; split; [by apply writeFrame_inv|done]).
  assert (Hcf : forall s' srv' id b, tcp_inv s' srv' g0 -> sr_cfg srv' = sr_cfg srv1 ->
    tcp_inv (ts_closeFlow s' srv' id b).1 (ts_closeFlow s' srv' id b).2 g0
    /\ sr_cfg (ts_closeFlow s' srv' id b).2 = sr_cfg srv1).
  { intros s' srv' id b H' Hc. destruct (closeFlow_inv s' srv' g0 id b H') as (H1 & _ & _ & _ & _ & H2).
    split; [done|congruence]. }
  destruct (frame_type f =? FramePING); [apply Hw|]. destruct (frame_type f =? FramePONG); [done|].
  destruct (frame_type f =? FrameOPENTCP).
  { destruct (DecodeOpenPayload (frame_payload f)) as [p| |]; [|apply Hw|done].
    pose proof (handleOpenTCP_inv s srv1 g0 p dial Ht Hdial) as Ho.
    by destruct (ts_handleOpenTCP s srv1 p dial). }
  destruct (frame_type f =? FrameOPENUDP).
  { destruct (DecodeOpenPayload (frame_payload f)) as [p| |]; [apply Hw|apply Hw|done]. }
  destruct (frame_type f =? FrameCLOSEFLOW).
  { destruct (DecodeCloseFlowPayload (frame_payload f)) as [p| |]; [|done..].
    pose proof (Hcf s srv1 (cf_FlowID p) false Ht eq_refl) as Hc. by destruct (ts_closeFlow _ _ _ _). }
  destruct (frame_type f =? FrameTCPDATA); [|done].
  destruct (DecodeTCPDataPayload (frame_payload f)) as [[id data]| |]; [|done..].
  pose proof (handleClientTCPData_inv s srv1 g0 now id data write Ht) as Hd.
  destruct (ts_handleClientTCPData s srv1 now id data write) as [[s2 srv2] [e|]]; cbn [fst snd] in *; [|done].
  destruct Hd as [Hd Hc]. destruct (err_is e ErrMaxBytesPerMinuteSess).
  - destruct (Close_inv s2 srv2 g0 Hd) as [H1 H2]. destruct (ts_Close s2 srv2). cbn [fst snd] in *. split; [done|congruence].
  - pose proof (Hcf s2 srv2 id true Hd Hc) as Hx. by destruct (ts_closeFlow s2 srv2 id true).
Qed.

(** ** Reachable sessions *)

(** A session, the server and what the other sessions contribute to the gauge. *)
Inductive tcp_step : TCPSession * Server P * Z -> TCPSession * Server P * Z -> Prop :=
| tstep_frame s srv g now f dial write s' srv' b :
    (forall a k, dial a = Ok k -> fresh_socket s k) ->
    ts_handle_frame s srv now f dial write = (s', srv', b) -> tcp_step (s, srv, g) (s', srv', g)
| tstep_loop s srv g now k f buf e s' srv' :
    ts_loops s !! k = Some f -> k ∉ ts_blocked s ->
    targetToClient_turn s srv now k f buf e = (s', srv') -> tcp_step (s, srv, g) (s', srv', g)
| tstep_close s srv g s' srv' : ts_Close s srv = (s', srv') -> tcp_step (s, srv, g) (s', srv', g)
| tstep_end s srv g s' srv' : ts_run_end s srv = (s', srv') -> tcp_step (s, srv, g) (s', srv', g)
| tstep_finish s srv g : ts_once s = TRunning -> ts_loops s = ∅ -> tcp_step (s, srv, g) (ts_close_finish s, srv, g)
| tstep_others s srv g srv' d :
    sr_cfg srv' = sr_cfg srv -> streams srv' = streams srv + d -> tcp_step (s, srv, g) (s, srv', g + d).

Inductive tcp_steps : TCPSession * Server P * Z -> TCPSession * Server P * Z -> Prop :=
| tsteps_refl x : tcp_steps x x
| tsteps_more x y z : tcp_steps x y -> tcp_step y z -> tcp_steps x z.

Lemma tcp_step_inv s srv g s' srv' g' :
  tcp_step (s, srv, g) (s', srv', g') -> tcp_inv s srv g -> tcp_inv s' srv' g' /\ sr_cfg srv' = sr_cfg srv.
Proof.
  intros Hstep Hinv. inversion Hstep; subst.
  - match goal with E : ts_handle_frame _ _ ?now ?f ?dial ?write = _ |- _ =>
      pose proof (handle_frame_inv s srv g' now f dial write Hinv ltac:(done)) as Hx; by rewrite E in Hx end.
  - match goal with E : targetToClient_turn _ _ ?now ?k ?f ?buf ?e = _ |- _ =>
      pose proof (targetToClient_inv s srv g' now k f buf e Hinv ltac:(done) ltac:(done)) as Hx; by rewrite E in Hx end.
  - match goal with E : ts_Close _ _ = _ |- _ =>
      pose proof (Close_inv s srv g' Hinv) as Hx; by rewrite E in Hx end.
  - match goal with E : ts_run_end _ _ = _ |- _ => unfold ts_run_end in E;
      pose proof (unregister_same srv (ts_id s)) as Hu;
      pose proof (Close_inv s (unregisterSession srv (ts_id s)) g' (tcp_inv_srv _ _ _ _ Hinv Hu)) as Hx;
      rewrite E in Hx; destruct Hx as [Hx1 Hx2], Hu as [Hu _]; split; [done|]; cbn [snd] in Hx2; congruence end.
  - destruct Hinv. split; [|done]. split; try done. intros _. apply ti_closed0. congruence.
  - split; [|done]. destruct Hinv. split; try done; [congruence|]. unfold ts_flowCount in *. lia.
Qed.

Lemma newTCPSession_inv id srv : tcp_inv (newTCPSession id) srv (streams srv).
Proof.
  split; try done; unfold ts_flowCount; cbn [newTCPSession ts_flows ts_open ts_out ts_once ts_loops ts_blocked].
  - rewrite map_size_empty. cbn. lia.
  - rewrite map_size_empty. cbn. lia.
Qed.

Lemma tcp_steps_inv x y : tcp_steps x y -> tcp_inv x.1.1 x.1.2 x.2 ->
  tcp_inv y.1.1 y.1.2 y.2 /\ sr_cfg y.1.2 = sr_cfg x.1.2.
Proof.
  induction 1 as [x|x [[s srv] g] [[s' srv'] g'] _ IH Hs]; intros Hinv; [done|].
  destruct (IH Hinv) as [Hi Hc]. destruct (tcp_step_inv _ _ _ _ _ _ Hs Hi) as [Hi' Hc']. split; [done|].
  cbn [fst snd] in *. congruence.
Qed.

(** ** Theorems *)


(** closing a TCP session leaves nothing open: whoever closes it first, from then on the session
    has no flows, no open target socket, no share of the stream gauge, and every further frame
    write fails. *)
Theorem tcp_session_close_releases id srv s srv' g :
  tcp_steps (newTCPSession id, srv, streams srv) (s, srv', g) -> ts_once s <> TFresh ->
  ts_flows s = ∅ /\ ts_open s = ∅ /\ streams srv' = g
  /\ (forall t p, (ts_writeFrame s t p).2 <> None).
Proof.
  intros Hsteps Ho. destruct (tcp_steps_inv _ _ Hsteps (newTCPSession_inv id srv)) as [Hinv _].
  cbn [fst snd] in *. destruct (ti_closed _ _ _ Hinv Ho) as [Hf Hr].
  split_and!; [done| | |].
  - by rewrite (ti_open _ _ _ Hinv), Hf, map_img_empty_L.
  - rewrite (ti_gauge _ _ _ Hinv). unfold ts_flowCount. rewrite Hf, map_size_empty. cbn. lia.
  - intros t p. by apply writeFrame_closed.
Qed.

(** What a step does to loops that wait in a running [Close]: nothing. *)
Definition keeps (s s' : TCPSession) : Prop :=
  ts_once s = TRunning ->
  ts_once s' = TRunning /\ ts_blocked s ⊆ ts_blocked s'
  /\ forall k, k ∈ ts_blocked s -> is_Some (ts_loops s !! k) -> is_Some (ts_loops s' !! k).

#[local] Instance keeps_refl : Reflexive keeps.
Proof. intros s Ho. by split_and!. Qed.

#[local] Instance keeps_trans : Transitive keeps.
Proof.
  intros a b c Hab Hbc Ho. destruct (Hab Ho) as (Ho1 & Hs1 & Hl1). destruct (Hbc Ho1) as (Ho2 & Hs2 & Hl2).
  split_and!; [done|by etrans|]. intros k Hk Hl. apply Hl2; [by apply Hs1|by apply Hl1].
Qed.

Lemma keeps_same s s' :
  ts_once s' = ts_once s -> ts_blocked s' = ts_blocked s -> ts_loops s' = ts_loops s -> keeps s s'.
Proof. intros H1 H2 H3 Ho. by rewrite H1, H2, H3. Qed.

Lemma keeps_write s t p : keeps s (ts_writeFrame s t p).1.
Proof. destruct (writeFrame_same s t p) as (_ & _ & H1 & H2 & H3 & _). by apply keeps_same. Qed.

Lemma keeps_closeFlow s srv f b : keeps s (ts_closeFlow s srv f b).1.
Proof.
  unfold ts_closeFlow. destruct (ts_flows s !! f) as [k|]; [|done].
  destruct b; cbn [fst]; [|by apply keeps_same]. etrans; [|apply keeps_write]. by apply keeps_same.
Qed.

Lemma closeFlow_same s srv f b :
  ts_blocked (ts_closeFlow s srv f b).1 = ts_blocked s /\ ts_loops (ts_closeFlow s srv f b).1 = ts_loops s.
Proof.
  unfold ts_closeFlow. destruct (ts_flows s !! f) as [k|]; [|done]. destruct b; [|done]. cbn [fst].
  match goal with |- context [ts_writeFrame ?s1 ?t ?p] => by destruct (writeFrame_same s1 t p) as (_ & _ & -> & _ & -> & _) end.
Qed.

Lemma keeps_Close s srv : keeps s (ts_Close s srv).1.
Proof. intros Ho. unfold ts_Close. rewrite Ho. by split_and!. Qed.

Lemma keeps_open s srv p dial : keeps s (ts_handleOpenTCP s srv p dial).1.
Proof.
  unfold ts_handleOpenTCP. destruct (op_FlowID p =? 0); [apply keeps_write|].
  destruct (_ <=? ts_flowCount s); [apply keeps_write|].
  destruct (resolveTargetAddress p); [|apply keeps_write|done].
  destruct (dial a) as [k| |]; [|apply keeps_write|done].
  destruct (ts_flows s !! op_FlowID p); [apply keeps_write|].
  set (s1 := ts_set_flows s _ _).
  assert (H1 : keeps s (ts_writeFrame s1 FrameOPENTCPOK (EncodeOpenOKPayload (mkOpenOKPayload (op_FlowID p) 3))).1)
    by (etrans; [|apply keeps_write]; by apply keeps_same).
  destruct (ts_writeFrame s1 _ _) as [s2 [e|]]; cbn [fst] in *.
  - etrans; [exact H1|apply keeps_closeFlow].
  - etrans; [exact H1|]. intros Ho. split_and!; [done|done|]. cbn. intros x _ Hx.
    apply lookup_insert_is_Some'. by right.
Qed.

Lemma keeps_data s srv now f data write : keeps s (ts_handleClientTCPData s srv now f data write).1.1.
Proof.
  unfold ts_handleClientTCPData. destruct (ts_flows s !! f); [|done]. destruct (zlen data =? 0); [done|].
  destruct (AllowSessionBytes _ _ _ _) as [l [e|]]; [done|]. by destruct write.
Qed.

Lemma keeps_frame s srv now f dial write : keeps s (ts_handle_frame s srv now f dial write).1.1.
Proof.
  unfold ts_handle_frame. set (srv1 := srv_touch _ _ _). clearbody srv1.
  destruct (_ =? FramePING); [apply keeps_write|]. destruct (_ =? FramePONG); [done|].
  destruct (_ =? FrameOPENTCP).
  { destruct (DecodeOpenPayload _) as [p| |]; [|apply keeps_write|done].
    pose proof (keeps_open s srv1 p dial). by destruct (ts_handleOpenTCP _ _ _ _). }
  destruct (_ =? FrameOPENUDP); [destruct (DecodeOpenPayload _); [apply keeps_write..|done]|].
  destruct (_ =? FrameCLOSEFLOW).
  { destruct (DecodeCloseFlowPayload _) as [p| |]; [|done..].
    pose proof (keeps_closeFlow s srv1 (cf_FlowID p) false). by destruct (ts_closeFlow _ _ _ _). }
  destruct (_ =? FrameTCPDATA); [|done]. destruct (DecodeTCPDataPayload _) as [[id data]| |]; [|done..].
  pose proof (keeps_data s srv1 now id data write) as Hd.
  destruct (ts_handleClientTCPData _ _ _ _ _ _) as [[s2 srv2] [e|]]; cbn [fst] in *; [|done].
  destruct (err_is e ErrMaxBytesPerMinuteSess).
  - pose proof (keeps_Close s2 srv2). destruct (ts_Close s2 srv2). cbn [fst] in *. by etrans.
  - pose proof (keeps_closeFlow s2 srv2 id true). destruct (ts_closeFlow s2 srv2 id true). cbn [fst] in *. by etrans.
Qed.

Lemma keeps_loop s srv now k f buf e :
  k ∉ ts_blocked s -> keeps s (targetToClient_turn s srv now k f buf e).1.
Proof.
  intros Hk.
  assert (Hlc : forall s0 srv0, keeps s0 (ts_loop_Close s0 srv0 k).1).
  { intros s0 srv0 Ho. unfold ts_loop_Close. rewrite Ho. split_and!; try done. cbn. by apply union_subseteq_r. }
  assert (Hend : forall s0 srv0, ts_blocked s0 = ts_blocked s -> keeps s0 (loop_turn_end s0 srv0 k f e).1).
  { intros s0 srv0 Hb. unfold loop_turn_end. pose proof (keeps_closeFlow s0 srv0 f true) as Hc.
    destruct (ts_closeFlow s0 srv0 f true) as [s1 srv1]. cbn [fst] in *.
    destruct e; [done|..]; intros Ho; destruct (Hc Ho) as (H1 & H2 & H3); split_and!; try done;
      cbn; intros x Hx Hl; (rewrite lookup_delete_ne; [by apply H3|]); intros <-; by rewrite Hb in Hx. }
  unfold targetToClient_turn. destruct (0 <? zlen buf); [|by apply Hend].
  destruct (AllowSessionBytes _ _ _ _) as [l [err|]]; [apply Hlc|].
  pose proof (keeps_write s FrameTCPDATA (EncodeTCPDataPayload f buf)) as Hw.
  destruct (writeFrame_same s FrameTCPDATA (EncodeTCPDataPayload f buf)) as (_ & _ & _ & _ & Hb & _).
  destruct (ts_writeFrame s FrameTCPDATA _) as [s1 [err|]]; cbn [fst] in *; (etrans; [exact Hw|]); [apply Hlc|].
  by apply Hend.
Qed.

Lemma blocked_stays x y k :
  tcp_step x y -> ts_once x.1.1 = TRunning -> k ∈ ts_blocked x.1.1 -> is_Some (ts_loops x.1.1 !! k) ->
  ts_once y.1.1 = TRunning /\ k ∈ ts_blocked y.1.1 /\ is_Some (ts_loops y.1.1 !! k).
Proof.
  intros Hstep Ho Hb Hl.
  assert (Hkeep : forall s', keeps x.1.1 s' -> ts_once s' = TRunning /\ k ∈ ts_blocked s' /\ is_Some (ts_loops s' !! k)).
  { intros s' Hk. destruct (Hk Ho) as (H1 & H2 & H3). split_and!; [done|by apply H2|by apply H3]. }
  inversion Hstep as [s srv g now f dial write s' srv' b _ E|s srv g now k' f buf e s' srv' _ Hnb E|s srv g s' srv' E
    |s srv g s' srv' E|s srv g _ He|]; subst; cbn [fst snd] in *.
  - apply Hkeep. pose proof (keeps_frame s srv now f dial write) as Hf. by rewrite E in Hf.
  - apply Hkeep. pose proof (keeps_loop s srv now k' f buf e Hnb) as Hf. by rewrite E in Hf.
  - apply Hkeep. pose proof (keeps_Close s srv) as Hf. by rewrite E in Hf.
  - apply Hkeep. unfold ts_run_end in E.
    pose proof (keeps_Close s (unregisterSession srv (ts_id s))) as Hf. by rewrite E in Hf.
  - rewrite He, lookup_empty in Hl. by destruct Hl.
  - by apply Hkeep.
Qed.

(** a target loop that closes its own session never comes back. Once a loop has called [Close]
    (its frame write failed or the byte budget ran out), neither that call nor any other [Close] of
    the session ever finishes, whatever happens afterwards: the loop waits for a wait group that
    counts the loop itself. *)
Theorem tcp_session_close_stuck s srv g now k f buf e s' srv' y :
  ts_loops s !! k = Some f -> k ∉ ts_blocked s -> ts_once s <> TDone ->
  targetToClient_turn s srv now k f buf e = (s', srv') -> k ∈ ts_blocked s' ->
  tcp_steps (s', srv', g) y ->
  ts_once y.1.1 = TRunning /\ is_Some (ts_loops y.1.1 !! k).
Proof.
  intros Hl Hnb Hd Hturn Hb Hsteps.
  assert (H0 : ts_once s' = TRunning /\ is_Some (ts_loops s' !! k)).
  { unfold targetToClient_turn in Hturn.
    assert (Hend : forall s0 srv0, ts_blocked s0 = ts_blocked s -> loop_turn_end s0 srv0 k f e = (s', srv') -> False).
    { intros s0 srv0 Hb0 E. unfold loop_turn_end in E.
      destruct (closeFlow_same s0 srv0 f true) as (Hcb & _). destruct (ts_closeFlow s0 srv0 f true) as [s1 srv1].
      cbn [fst] in *. destruct e; simplify_eq; cbn in Hb; congruence. }
    assert (Hlc : forall s0 srv0, ts_loops s0 = ts_loops s -> ts_once s0 = ts_once s ->
      ts_loop_Close s0 srv0 k = (s', srv') -> ts_once s' = TRunning /\ is_Some (ts_loops s' !! k)).
    { intros s0 srv0 Hl0 Ho0 E. unfold ts_loop_Close in E. rewrite Ho0 in E.
      destruct (ts_once s) eqn:Eo; [| |done]; cbn in E; simplify_eq; cbn; rewrite ?Hl0, ?Ho0, ?Eo;
        (split; [done|rewrite ?Hl; eauto]). }
    destruct (0 <? zlen buf); [|by apply Hend in Hturn].
    destruct (AllowSessionBytes _ _ _ _) as [l [err|]]; [by eapply Hlc|].
    destruct (writeFrame_same s FrameTCPDATA (EncodeTCPDataPayload f buf)) as (_ & _ & W3 & W4 & W5 & _).
    destruct (ts_writeFrame s FrameTCPDATA _) as [s1 [err|]]; cbn [fst] in *; [by eapply Hlc|].
    exfalso. by eapply Hend. }
  remember (s', srv', g) as x eqn:Hx.
  assert (Hall : ts_once y.1.1 = TRunning /\ k ∈ ts_blocked y.1.1 /\ is_Some (ts_loops y.1.1 !! k)).
  { induction Hsteps as [x|x y z _ IH Hs]; subst; [cbn; tauto|].
    destruct (IH eq_refl) as (H1 & H2 & H3). by apply (blocked_stays _ _ _ Hs). }
  tauto.
Qed.

(** a flow id that is reused while its old loop is still running loses its new flow: when the old
    loop's read fails it closes the flow by id, which closes the new flow's target socket. *)
Theorem tcp_stale_loop_closes_new_flow s srv now old new f :
  ts_loops s !! old = Some f -> ts_flows s !! f = Some new -> new <> old ->
  let s' := (targetToClient_turn s srv now old f [] TargetErr).1 in
  ts_flows s' !! f = None /\ (new ∉ ts_open s') /\ ts_loops s' !! old = None.
Proof.
  intros Hl Hf Hne s'. unfold s', targetToClient_turn. change (0 <? zlen []) with false. cbn iota.
  unfold loop_turn_end, ts_closeFlow. rewrite Hf.
  match goal with |- context [ts_writeFrame ?s1 ?t ?p] =>
    destruct (writeFrame_same s1 t p) as (H1 & H2 & _); cbn [ts_set_flows ts_flows ts_open] in H1, H2;
    destruct (ts_writeFrame s1 t p) as [s2 e2] end.
  cbn [fst ts_set_loops ts_flows ts_open ts_loops] in *. rewrite H1, H2.
  split_and!; [apply lookup_delete_eq|set_solver|apply lookup_delete_eq].
Qed.

(** data crosses a TCP session unchanged, to the right flow and in the right direction: a
    TCP_DATA frame for a live flow hands exactly its data to that flow's target and to no other,
    and data read from a target reaches the client as one frame that decodes to the flow id and
    that data. *)
Theorem tcp_session_relays_data s srv now f k data l :
  is_u64 f -> ts_flows s !! f = Some k -> 0 < zlen data ->
  AllowSessionBytes (sr_limits (srv_touch srv now (ts_id s))) now (ts_id s) (zlen data) = (l, None) ->
  (forall dial, ts_sent (ts_handle_frame s srv now (mkFrame FrameTCPDATA (EncodeTCPDataPayload f data)) dial None).1.1
     = <[k := default [] (ts_sent s !! k) ++ data]> (ts_sent s))
  /\ (w_room (ts_out s) = None -> small_bytes (EncodeTCPDataPayload f data) ->
      exists bs fr, w_out (ts_out (targetToClient_turn s srv now k f data TargetOK).1) = w_out (ts_out s) ++ bs
        /\ ReadFrame (Reader bs EEOF) = Ok (fr, Reader [] EEOF) /\ frame_type fr = FrameTCPDATA
        /\ DecodeTCPDataPayload (frame_payload fr) = Ok (f, data)).
Proof.
  intros Hu Hf Hd Hallow. split.
  - intros dial. unfold ts_handle_frame. cbn [frame_type frame_payload].
    change (FrameTCPDATA =? FramePING) with false. change (FrameTCPDATA =? FramePONG) with false.
    change (FrameTCPDATA =? FrameOPENTCP) with false. change (FrameTCPDATA =? FrameOPENUDP) with false.
    change (FrameTCPDATA =? FrameCLOSEFLOW) with false. change (FrameTCPDATA =? FrameTCPDATA) with true. cbn iota.
    rewrite tcp_data_roundtrip by done. unfold ts_handleClientTCPData. rewrite Hf.
    rewrite (proj2 (Z.eqb_neq _ 0)) by lia. by rewrite Hallow.
  - intros Hr Hsm. unfold targetToClient_turn. rewrite (proj2 (Z.ltb_lt 0 _)) by lia.
    change (sr_limits srv) with (sr_limits (srv_touch srv now (ts_id s))). rewrite Hallow.
    unfold ts_writeFrame. destruct (ts_out s) as [out room]. cbn [w_room] in Hr. subst room.
    rewrite WriteFrame_unbounded. cbn [fst loop_turn_end ts_set_out ts_out w_out].
    exists (frame_bytes (mkFrame FrameTCPDATA (EncodeTCPDataPayload f data))), (mkFrame FrameTCPDATA (EncodeTCPDataPayload f data)).
    split_and!; [done| |done|by apply tcp_data_roundtrip].
    rewrite <- (app_nil_r (frame_bytes _)). apply ReadFrame_frame. by split.
Qed.

(** a TCP session that has not authenticated does nothing: unless the first frame passes the
    handshake, [Run] ends, the server keeps its sessions, store, limits and metrics, and the session
    opens no flow; when it passes, the session is registered under that client. *)
Theorem tcp_run_requires_auth s srv now first s' srv' b :
  ts_run_begin s srv now first = (s', srv', b) ->
  match (check_first_frame srv now first).2 with
  | AuthOK c => sr_sessions srv' !! ts_id s = Some c /\ ts_clientID s' = c
  | _ => b = false /\ (exists v, srv' = set_verifier srv v) /\ ts_flows s' = ts_flows s
  end.
Proof.
  unfold ts_run_begin. destruct (check_first_frame srv now first) as [srv1 r] eqn:E.
  apply check_first_frame_frame in E as Hv. cbn [snd].
  destruct r as [[fr|] err|m|c]; cbn [fst snd].
  - intros [= <- <- <-]. split_and!; try done. by destruct (writeFrame_same s (frame_type fr) (frame_payload fr)) as [-> _].
  - by intros [= <- <- <-].
  - by intros [= <- <- <-].
  - set (s1 := ts_set_client s c). set (srv2 := registerSession srv1 now (ts_id s1) c). intros E2.
    assert (Hid : sr_sessions srv2 !! ts_id s = Some c) by (unfold srv2, registerSession; cbn; apply lookup_insert_eq).
    assert (Hcl : ts_clientID (ts_writeFrame s1 FrameAUTHOK (auth_ok_payload srv2 (ts_id s1))).1 = c)
      by (unfold ts_writeFrame; by destruct (WriteFrame _ _ _)).
    destruct (ts_writeFrame s1 _ _) as [s2 [e|]]; cbn [fst] in *; by simplify_eq.
Qed.
End TCPSessionFacts.

(** *** Witnesses *)

Definition ex_ts0 : TCPSession := newTCPSession 1.
Definition ex_open_frame : Frame := mkFrame FrameOPENTCP (EncodeOpenPayload (mkOpenPayload 7 "example.org" [] 443)).
Definition ex_close_frame : Frame := mkFrame FrameCLOSEFLOW (EncodeCloseFlowPayload (mkCloseFlowPayload 7)).
Definition ex_ts1 := (ts_handle_frame ex_ts0 ex_server 5 ex_open_frame (fun _ => Ok 10) None).1.
Definition ex_ts2 := (ts_handle_frame ex_ts1.1 ex_ts1.2 6 ex_close_frame (fun _ => Ok 10) None).1.
Definition ex_ts3 := (ts_handle_frame ex_ts2.1 ex_ts2.2 7 ex_open_frame (fun _ => Ok 11) None).1.

Lemma ex_ts1_steps : tcp_steps (ex_ts0, ex_server, streams ex_server) (ex_ts1.1, ex_ts1.2, streams ex_server).
Proof.
  eapply tsteps_more; [apply tsteps_refl|].
  apply (tstep_frame ex_ts0 ex_server (streams ex_server) 5 ex_open_frame (fun _ => Ok 10) None ex_ts1.1 ex_ts1.2 true).
  - intros a k [= <-]. split; [reflexivity|apply not_elem_of_empty].
  - reflexivity.
Defined.


Definition ex_ts_closed := ts_Close ex_ts1.1 ex_ts1.2.

Lemma tcp_session_close_releases_witness :
  ts_flows ex_ts_closed.1 = ∅ /\ ts_open ex_ts_closed.1 = ∅ /\ streams ex_ts_closed.2 = streams ex_server
  /\ (forall t p, (ts_writeFrame ex_ts_closed.1 t p).2 <> None).
Proof.
  apply (tcp_session_close_releases 1 ex_server ex_ts_closed.1 ex_ts_closed.2 (streams ex_server)); [|discriminate].
  eapply tsteps_more; [apply ex_ts1_steps|]. by apply tstep_close.
Defined.

(** The client has gone and [Run] has closed the session; the target still sends a byte. *)
Definition ex_ts_stuck := targetToClient_turn ex_ts_closed.1 ex_ts_closed.2 8 10 7 [x41] TargetOK.

Lemma tcp_session_close_stuck_witness :
  ts_once ex_ts_stuck.1 = TRunning /\ is_Some (ts_loops ex_ts_stuck.1 !! 10).
Proof.
  apply (tcp_session_close_stuck ex_ts_closed.1 ex_ts_closed.2 0 8 10 7 [x41] TargetOK ex_ts_stuck.1 ex_ts_stuck.2
           (ex_ts_stuck.1, ex_ts_stuck.2, 0));
    [reflexivity|apply not_elem_of_empty|discriminate|vm_compute; reflexivity| |apply tsteps_refl].
  apply (bool_decide_unpack _). vm_compute. exact I.
Defined.

Lemma tcp_stale_loop_closes_new_flow_witness :
  let s' := (targetToClient_turn ex_ts3.1 ex_ts3.2 8 10 7 [] TargetErr).1 in
  ts_flows s' !! 7 = None /\ (11 ∉ ts_open s') /\ ts_loops s' !! 10 = None.
Proof.
  apply (tcp_stale_loop_closes_new_flow ex_ts3.1 ex_ts3.2 8 10 11 7); [vm_compute; reflexivity|vm_compute; reflexivity|lia].
Defined.

Lemma tcp_session_relays_data_witness :
  (forall dial, ts_sent (ts_handle_frame ex_ts1.1 ex_ts1.2 9 (mkFrame FrameTCPDATA (EncodeTCPDataPayload 7 [x01; x02])) dial None).1.1
     = <[10 := default [] (ts_sent ex_ts1.1 !! 10) ++ [x01; x02]]> (ts_sent ex_ts1.1))
  /\ (w_room (ts_out ex_ts1.1) = None -> small_bytes (EncodeTCPDataPayload 7 [x01; x02]) ->
      exists bs fr, w_out (ts_out (targetToClient_turn ex_ts1.1 ex_ts1.2 9 10 7 [x01; x02] TargetOK).1)
                    = w_out (ts_out ex_ts1.1) ++ bs
        /\ ReadFrame (Reader bs EEOF) = Ok (fr, Reader [] EEOF) /\ frame_type fr = FrameTCPDATA
        /\ DecodeTCPDataPayload (frame_payload fr) = Ok (7, [x01; x02])).
Proof.
  apply (tcp_session_relays_data ex_ts1.1 ex_ts1.2 9 7 10 [x01; x02]
           (AllowSessionBytes (sr_limits ex_ts1.2) 9 1 2).1);
    [split; vm_compute; congruence|vm_compute; reflexivity|reflexivity|vm_compute; reflexivity].
Defined.

Lemma tcp_run_requires_auth_witness :
  match (check_first_frame ex_auth_server 0 (Ok (mkFrame FramePING []))).2 with
  | AuthOK c => sr_sessions (ts_run_begin ex_ts0 ex_auth_server 0 (Ok (mkFrame FramePING []))).1.2 !! ts_id ex_ts0 = Some c
      /\ ts_clientID (ts_run_begin ex_ts0 ex_auth_server 0 (Ok (mkFrame FramePING []))).1.1 = c
  | _ => false = false
      /\ (exists v, (ts_run_begin ex_ts0 ex_auth_server 0 (Ok (mkFrame FramePING []))).1.2 = set_verifier ex_auth_server v)
      /\ ts_flows (ts_run_begin ex_ts0 ex_auth_server 0 (Ok (mkFrame FramePING []))).1.1 = ts_flows ex_ts0
  end.
Proof.
  apply (tcp_run_requires_auth ex_ts0 ex_auth_server 0 (Ok (mkFrame FramePING []))). vm_compute. reflexivity.
Defined.
