(* ===== verification/Session.v ===== *)
(** * Sessions over QUIC: flows and control ([internal/session/session.go])

    The goroutines of a session (the control loop, the accept loop with one [handleFlowStream]
    per stream, the two copying goroutines of each pump, the datagram reader and its workers, one
    [udpReadLoop] per UDP flow) share the flow maps and the flow structs. A definition is one turn
    of a goroutine between two points where it waits or gives up a lock; the server is passed
    along. A flow struct is a cell of a heap, addressed by the socket of its target, so that a
    goroutine that holds a [*tcpFlow] still sees it after [closeFlow] removed it from the map.
    The QUIC library appears by the results of its calls: streams are numbered, a closed
    connection or control stream makes every later control write fail. *)

From S2P Require Import Prelude Wire Frame Datagram GoString Crypto Auth Limits Wheel Store Metrics Server Handshake TCPSession.

Record tcpFlow := mkTcpFlow { tf_id : Z; tf_stream : option Z; tf_closed : bool }.
Record udpFlow := mkUdpFlow { uf_id : Z; uf_seq : Z; uf_closed : bool }.

(** The flow maps (flow id to struct), the structs, and what is open outside: the sockets to
    targets and the streams of flows. *)
Record flow_table := mkFlowTable {
  tcpFlows : gmap Z Z; udpFlows : gmap Z Z;
  tcpHeap : gmap Z tcpFlow; udpHeap : gmap Z udpFlow;
  sockets : gset Z; flowStreams : gset Z }.

Definition datagramDropQueueFull : string := "queue_full".
Definition datagramDropFlowMissing : string := "flow_not_found".
Definition datagramDropBudget : string := "budget".
Definition datagramDropParseFail : string := "parse_fail".
Definition datagramDropWriteFail : string := "udp_write_fail".

(** The datagram pipeline: the queues with their common capacity, [datagramQLen], the counters of
    the current second, the reassembly buffer. [dg_uncounted] holds between the reader's send on a
    queue and the increments that follow it. *)
Record pipeline := mkPipeline {
  dg_queues : list (list DatagramPacket); dg_cap : Z; dg_qlen : Z; dg_uncounted : bool;
  udpProcessedSec : Z; udpDropSec : gmap string Z; dg_reassembly : Reassembly }.

(** One [pumpTCPFlow]: its stream, which of the two copying goroutines run, whether the caller
    still waits, and what was sent on [errCh]. *)
Record pump := mkPump { pm_stream : Z; pm_up : bool; pm_down : bool; pm_main : bool; pm_err : list (option goerr) }.

(** [closeOnce]: not entered, entered with the flows still to be closed, through. *)
Inductive close_state := NotClosed | Closing | SessionClosed.

Record Session := mkSession {
  qs_id : Z; qs_clientID : string; qs_authed : bool;
  qs_control : option writer; qs_once : close_state;
  qs_flows : flow_table; qs_pipe : pipeline;
  qs_opening : option (bool * OpenPayload);
  qs_attaching : gmap Z Z; qs_pumps : gmap Z pump; qs_udpLoops : gset Z;
  qs_toTarget : gmap Z (list (list byte)); qs_toStream : gmap Z (list (list byte));
  qs_toClient : list (list byte) }.

Definition newSession (id : Z) : Session :=
  mkSession id "" false None NotClosed (mkFlowTable ∅ ∅ ∅ ∅ ∅ ∅)
    (mkPipeline [] 0 0 false 0 ∅ NewReassembly) None ∅ ∅ ∅ ∅ ∅ [].

(** [s.ctx.Err() != nil]. *)
Definition ctx_done (s : Session) : bool := match qs_once s with NotClosed => false | _ => true end.

(** ** Field updates *)

Definition qs_set_auth (s : Session) (c : string) : Session :=
  mkSession (qs_id s) c true (qs_control s) (qs_once s) (qs_flows s) (qs_pipe s) (qs_opening s)
    (qs_attaching s) (qs_pumps s) (qs_udpLoops s) (qs_toTarget s) (qs_toStream s) (qs_toClient s).
Definition qs_set_control (s : Session) (w : option writer) : Session :=
  mkSession (qs_id s) (qs_clientID s) (qs_authed s) w (qs_once s) (qs_flows s) (qs_pipe s) (qs_opening s)
    (qs_attaching s) (qs_pumps s) (qs_udpLoops s) (qs_toTarget s) (qs_toStream s) (qs_toClient s).
Definition qs_set_once (s : Session) (o : close_state) : Session :=
  mkSession (qs_id s) (qs_clientID s) (qs_authed s) (qs_control s) o (qs_flows s) (qs_pipe s) (qs_opening s)
    (qs_attaching s) (qs_pumps s) (qs_udpLoops s) (qs_toTarget s) (qs_toStream s) (qs_toClient s).
Definition qs_set_flows (s : Session) (t : flow_table) : Session :=
  mkSession (qs_id s) (qs_clientID s) (qs_authed s) (qs_control s) (qs_once s) t (qs_pipe s) (qs_opening s)
    (qs_attaching s) (qs_pumps s) (qs_udpLoops s) (qs_toTarget s) (qs_toStream s) (qs_toClient s).
Definition qs_set_pipe (s : Session) (p : pipeline) : Session :=
  mkSession (qs_id s) (qs_clientID s) (qs_authed s) (qs_control s) (qs_once s) (qs_flows s) p (qs_opening s)
    (qs_attaching s) (qs_pumps s) (qs_udpLoops s) (qs_toTarget s) (qs_toStream s) (qs_toClient s).
Definition qs_set_opening (s : Session) (o : option (bool * OpenPayload)) : Session :=
  mkSession (qs_id s) (qs_clientID s) (qs_authed s) (qs_control s) (qs_once s) (qs_flows s) (qs_pipe s) o
    (qs_attaching s) (qs_pumps s) (qs_udpLoops s) (qs_toTarget s) (qs_toStream s) (qs_toClient s).
Definition qs_set_attaching (s : Session) (a : gmap Z Z) : Session :=
  mkSession (qs_id s) (qs_clientID s) (qs_authed s) (qs_control s) (qs_once s) (qs_flows s) (qs_pipe s)
    (qs_opening s) a (qs_pumps s) (qs_udpLoops s) (qs_toTarget s) (qs_toStream s) (qs_toClient s).
Definition qs_set_pumps (s : Session) (p : gmap Z pump) : Session :=
  mkSession (qs_id s) (qs_clientID s) (qs_authed s) (qs_control s) (qs_once s) (qs_flows s) (qs_pipe s)
    (qs_opening s) (qs_attaching s) p (qs_udpLoops s) (qs_toTarget s) (qs_toStream s) (qs_toClient s).
Definition qs_set_udpLoops (s : Session) (l : gset Z) : Session :=
  mkSession (qs_id s) (qs_clientID s) (qs_authed s) (qs_control s) (qs_once s) (qs_flows s) (qs_pipe s)
    (qs_opening s) (qs_attaching s) (qs_pumps s) l (qs_toTarget s) (qs_toStream s) (qs_toClient s).
Definition write_target (s : Session) (k : Z) (data : list byte) : Session :=
  mkSession (qs_id s) (qs_clientID s) (qs_authed s) (qs_control s) (qs_once s) (qs_flows s) (qs_pipe s)
    (qs_opening s) (qs_attaching s) (qs_pumps s) (qs_udpLoops s)
    (<[k := default [] (qs_toTarget s !! k) ++ [data]]> (qs_toTarget s)) (qs_toStream s) (qs_toClient s).
Definition write_stream (s : Session) (k : Z) (data : list byte) : Session :=
  mkSession (qs_id s) (qs_clientID s) (qs_authed s) (qs_control s) (qs_once s) (qs_flows s) (qs_pipe s)
    (qs_opening s) (qs_attaching s) (qs_pumps s) (qs_udpLoops s) (qs_toTarget s)
    (<[k := default [] (qs_toStream s !! k) ++ [data]]> (qs_toStream s)) (qs_toClient s).
Definition send_client (s : Session) (pkt : list byte) : Session :=
  mkSession (qs_id s) (qs_clientID s) (qs_authed s) (qs_control s) (qs_once s) (qs_flows s) (qs_pipe s)
    (qs_opening s) (qs_attaching s) (qs_pumps s) (qs_udpLoops s) (qs_toTarget s) (qs_toStream s)
    (qs_toClient s ++ [pkt]).

(** ** Flows *)

Definition writeFrame (s : Session) (frameType : Z) (payload : list byte) : Session * option goerr :=
  match qs_control s with
  | None => (s, Some (ENew "control stream not initialized"))
  | Some w => let '(w, err) := WriteFrame w frameType payload in (qs_set_control s (Some w), err)
  end.

Definition flowCount (s : Session) : Z :=
  Z.of_nat (size (tcpFlows (qs_flows s))) + Z.of_nat (size (udpFlows (qs_flows s))).

(** The two [closeOnce.Do] of a flow. *)
Definition close_tcp_flow (t : flow_table) (k : Z) : flow_table :=
  match tcpHeap t !! k with
  | None => t
  | Some f =>
      if tf_closed f then t
      else mkFlowTable (tcpFlows t) (udpFlows t) (<[k := mkTcpFlow (tf_id f) (tf_stream f) true]> (tcpHeap t))
             (udpHeap t) (sockets t ∖ {[k]})
             (match tf_stream f with Some st => flowStreams t ∖ {[st]} | None => flowStreams t end)
  end.
Definition close_udp_flow (t : flow_table) (k : Z) : flow_table :=
  match udpHeap t !! k with
  | None => t
  | Some f =>
      if uf_closed f then t
      else mkFlowTable (tcpFlows t) (udpFlows t) (tcpHeap t) (<[k := mkUdpFlow (uf_id f) (uf_seq f) true]> (udpHeap t))
             (sockets t ∖ {[k]}) (flowStreams t)
  end.

(** The part of [closeFlow] under the lock. *)
Definition forget_flow (t : flow_table) (flowID : Z) : flow_table :=
  mkFlowTable (delete flowID (tcpFlows t)) (delete flowID (udpFlows t)) (tcpHeap t) (udpHeap t) (sockets t)
    (flowStreams t).

Definition closeFlow (s : Session) (flowID : Z) (notify : bool) : Session :=
  let t := qs_flows s in
  match tcpFlows t !! flowID, udpFlows t !! flowID with
  | None, None => s
  | tcp, udp =>
      let t := forget_flow t flowID in
      let t := match tcp with Some k => close_tcp_flow t k | None => t end in
      let t := match udp with Some k => close_udp_flow t k | None => t end in
      let s := qs_set_flows s t in
      if notify then (writeFrame s FrameCLOSEFLOW (EncodeCloseFlowPayload (mkCloseFlowPayload flowID))).1 else s
  end.

(** [Close]: the caller that enters cancels the context and closes the connection and the control
    stream; then it takes the flows out of the maps and closes them. *)
Definition Close (s : Session) : Session :=
  match qs_once s with
  | NotClosed =>
      qs_set_once (qs_set_control s ((fun w => Writer (w_out w) (Some 0)) <$> qs_control s)) Closing
  | _ => s
  end.
Definition close_flows (s : Session) : Session :=
  let t := qs_flows s in
  let tcp := (map_to_list (tcpFlows t)).*2 in
  let udp := (map_to_list (udpFlows t)).*2 in
  let t := mkFlowTable ∅ ∅ (tcpHeap t) (udpHeap t) (sockets t) (flowStreams t) in
  let t := foldl close_tcp_flow t tcp in
  let t := foldl close_udp_flow t udp in
  qs_set_once (qs_set_flows s t) SessionClosed.

Section SessionOps.
  Context {P : Type} `{SecretProvider P}.
  Implicit Types srv : Server P.

Definition qs_touch srv (now : Z) (s : Session) : Server P := touchSession srv now (qs_id s).
Definition open_failure srv (reason : string) : Server P :=
  srv_metrics srv (metric_inc (sr_metrics srv) (OpenFailures "session" reason)).

(** The common beginning of [handleOpenTCP] and [handleOpenUDP]: the address to dial, or [None]
    when the request was refused. *)
Definition open_check (s : Session) srv (failType : Z) (p : OpenPayload) : Session * option string :=
  let fail := fun reason => ((writeFrame s failType (fail_frame (op_FlowID p) reason)).1, None) in
  if op_FlowID p =? 0 then fail "flow_id must be non-zero"
  else if sc_MaxFlows (sr_cfg srv) <=? flowCount s then fail "max_flows_per_session exceeded"
  else match resolveTargetAddress p with
  | Err e => fail (err_text e)
  | Panic _ => (s, None)
  | Ok addr => (s, Some addr)
  end.

(** [handleOpenTCP] once the dial returned a socket or an error. *)
Definition open_tcp_finish (s : Session) srv (p : OpenPayload) (dial : res Z) : Session * Server P :=
  let fail := fun reason => (writeFrame s FrameOPENTCPFAIL (fail_frame (op_FlowID p) reason)).1 in
  match dial with
  | Err e => (fail (err_text e), open_failure srv "tcp_dial")
  | Panic _ => (s, srv)
  | Ok k =>
      let t := qs_flows s in
      match tcpFlows t !! op_FlowID p with
      | Some _ => (fail "flow_id already exists", srv)
      | None =>
          let s := qs_set_flows s (mkFlowTable (<[op_FlowID p := k]> (tcpFlows t)) (udpFlows t)
                     (<[k := mkTcpFlow (op_FlowID p) None false]> (tcpHeap t)) (udpHeap t)
                     ({[k]} ∪ sockets t) (flowStreams t)) in
          let '(s, err) := writeFrame s FrameOPENTCPOK (EncodeOpenOKPayload (mkOpenOKPayload (op_FlowID p) 1)) in
          match err with
          | Some _ => (closeFlow s (op_FlowID p) false, srv)
          | None => (s, srv)
          end
      end
  end.

(** [handleOpenUDP] once the address was resolved and the socket dialled. *)
Definition open_udp_finish (s : Session) srv (p : OpenPayload) (resolve : option goerr) (dial : res Z)
  : Session * Server P :=
  let fail := fun reason => (writeFrame s FrameOPENUDPFAIL (fail_frame (op_FlowID p) reason)).1 in
  match resolve, dial with
  | Some e, _ => (fail (err_text e), open_failure srv "udp_resolve")
  | None, Err e => (fail (err_text e), open_failure srv "udp_dial")
  | None, Panic _ => (s, srv)
  | None, Ok k =>
      let t := qs_flows s in
      match udpFlows t !! op_FlowID p with
      | Some _ => (fail "flow_id already exists", srv)
      | None =>
          let s := qs_set_flows s (mkFlowTable (tcpFlows t) (<[op_FlowID p := k]> (udpFlows t)) (tcpHeap t)
                     (<[k := mkUdpFlow (op_FlowID p) 0 false]> (udpHeap t))
                     ({[k]} ∪ sockets t) (flowStreams t)) in
          let '(s, err) := writeFrame s FrameOPENUDPOK (EncodeOpenOKPayload (mkOpenOKPayload (op_FlowID p) 0)) in
          match err with
          | Some _ => (closeFlow s (op_FlowID p) false, srv)
          | None => (qs_set_udpLoops s ({[k]} ∪ qs_udpLoops s), srv)
          end
      end
  end.

(** [handleOpenTCP] and [handleOpenUDP] up to the dial: the control loop then waits for it. *)
Definition handleOpenTCP (s : Session) srv (p : OpenPayload) : Session :=
  let '(s, addr) := open_check s srv FrameOPENTCPFAIL p in
  match addr with Some _ => qs_set_opening s (Some (false, p)) | None => s end.
Definition handleOpenUDP (s : Session) srv (p : OpenPayload) : Session :=
  let '(s, addr) := open_check s srv FrameOPENUDPFAIL p in
  match addr with Some _ => qs_set_opening s (Some (true, p)) | None => s end.

(** The rest of the two handlers; [dial] answers for the socket, [resolve] for the UDP address. *)
Definition finish_open (s : Session) srv (resolve : option goerr) (dial : res Z) : Session * Server P :=
  match qs_opening s with
  | None => (s, srv)
  | Some (udp, p) =>
      let s := qs_set_opening s None in
      if udp then open_udp_finish s srv p resolve dial else open_tcp_finish s srv p dial
  end.

(** One turn of [controlLoop] with the frame or the error that [ReadFrame] gave; [false] when the
    loop ends. *)
Definition controlLoop_turn (s : Session) srv (now : Z) (f : res Frame) : Session * Server P * bool :=
  match f with
  | Err _ => (Close s, srv, false)
  | Panic _ => (s, srv, false)
  | Ok f =>
      let srv := qs_touch srv now s in
      let t := frame_type f in
      if t =? FramePING then ((writeFrame s FramePONG (frame_payload f)).1, srv, true)
      else if t =? FramePONG then (s, srv, true)
      else if t =? FrameOPENTCP then
        match DecodeOpenPayload (frame_payload f) with
        | Ok p => (handleOpenTCP s srv p, srv, true)
        | Err _ => ((writeFrame s FrameOPENTCPFAIL (fail_frame 0 "invalid OPEN_TCP payload")).1, srv, true)
        | Panic _ => (s, srv, false)
        end
      else if t =? FrameOPENUDP then
        match DecodeOpenPayload (frame_payload f) with
        | Ok p => (handleOpenUDP s srv p, srv, true)
        | Err _ => ((writeFrame s FrameOPENUDPFAIL (fail_frame 0 "invalid OPEN_UDP payload")).1, srv, true)
        | Panic _ => (s, srv, false)
        end
      else if t =? FrameCLOSEFLOW then
        match DecodeCloseFlowPayload (frame_payload f) with
        | Ok p => (closeFlow s (cf_FlowID p) false, srv, true)
        | _ => (s, srv, true)
        end
      else (s, srv, true)
  end.

(** ** Flow streams *)

(** [handleFlowStream] up to the lookup of the flow: [raw] are the eight bytes read from the new
    stream [st], or the error. *)
Definition handleFlowStream_lookup (s : Session) (st : Z) (raw : res (list byte)) : Session :=
  match raw with
  | Ok raw =>
      let t := qs_flows s in
      match tcpFlows t !! be_get raw with
      | None => s
      | Some k =>
          let t := mkFlowTable (tcpFlows t) (udpFlows t) (tcpHeap t) (udpHeap t) (sockets t)
                     ({[st]} ∪ flowStreams t) in
          qs_set_attaching (qs_set_flows s t) (<[st := k]> (qs_attaching s))
      end
  | _ => s
  end.

(** [handleFlowStream] from the struct's lock on: the stream is attached and the pump starts, or
    the stream is closed because the flow has one. *)
Definition handleFlowStream_attach (s : Session) srv (st : Z) : Session * Server P :=
  match qs_attaching s !! st with
  | None => (s, srv)
  | Some k =>
      let s := qs_set_attaching s (delete st (qs_attaching s)) in
      let t := qs_flows s in
      match tcpHeap t !! k with
      | None => (s, srv)
      | Some f =>
          match tf_stream f with
          | Some _ =>
              (qs_set_flows s (mkFlowTable (tcpFlows t) (udpFlows t) (tcpHeap t) (udpHeap t) (sockets t)
                                 (flowStreams t ∖ {[st]})), srv)
          | None =>
              let t := mkFlowTable (tcpFlows t) (udpFlows t)
                         (<[k := mkTcpFlow (tf_id f) (Some st) (tf_closed f)]> (tcpHeap t)) (udpHeap t)
                         (sockets t) (flowStreams t) in
              let s := qs_set_pumps (qs_set_flows s t) (<[k := mkPump st true true true []]> (qs_pumps s)) in
              (s, tcp_streams srv 1)
          end
      end
  end.

(** [acceptFlowStreams] when [AcceptStream] fails. *)
Definition acceptFlowStreams_err (s : Session) : Session := if ctx_done s then s else Close s.

(** A copying goroutine sends its result on [errCh] and returns. *)
Definition pump_post (s : Session) (k : Z) (up : bool) (err : option goerr) : Session :=
  match qs_pumps s !! k with
  | None => s
  | Some pm =>
      qs_set_pumps s (<[k := mkPump (pm_stream pm) (if up then false else pm_up pm)
                               (if up then pm_down pm else false) (pm_main pm) (pm_err pm ++ [err])]> (qs_pumps s))
  end.

(** The end of a copying turn, by the error of the read. *)
Definition pump_turn_end (s : Session) (k : Z) (up : bool) (err : option goerr) : Session :=
  match err with
  | None => s
  | Some e => pump_post s k up (if err_is e EEOF then None else Some e)
  end.

(** One turn of the goroutine that copies the stream to the target: what the read returned, and
    the error of the write. *)
Definition pump_up_turn (s : Session) srv (now k : Z) (buf : list byte) (err write : option goerr)
  : Session * Server P :=
  if 0 <? zlen buf then
    let '(l, limitErr) := AllowSessionBytes (sr_limits srv) now (qs_id s) (zlen buf) in
    let srv := srv_limits srv l in
    match limitErr, write with
    | Some e, _ => (pump_post s k true (Some e), srv)
    | None, Some e => (pump_post s k true (Some e), srv)
    | None, None =>
        let s := write_target s k buf in
        let srv := srv_metrics srv (metric_add (sr_metrics srv) (BytesIn "session") (zlen buf)) in
        (pump_turn_end s k true err, qs_touch srv now s)
    end
  else (pump_turn_end s k true err, srv).

(** One turn of the goroutine that copies the target to the stream. *)
Definition pump_down_turn (s : Session) srv (now k : Z) (buf : list byte) (err write : option goerr)
  : Session * Server P :=
  if 0 <? zlen buf then
    let '(l, limitErr) := AllowSessionBytes (sr_limits srv) now (qs_id s) (zlen buf) in
    let srv := srv_limits srv l in
    match limitErr, write with
    | Some e, _ => (pump_post s k false (Some e), srv)
    | None, Some e => (pump_post s k false (Some e), srv)
    | None, None =>
        let s := match qs_pumps s !! k with Some pm => write_stream s (pm_stream pm) buf | None => s end in
        let srv := srv_metrics srv (metric_add (sr_metrics srv) (BytesOut "session") (zlen buf)) in
        (pump_turn_end s k false err, qs_touch srv now s)
    end
  else (pump_turn_end s k false err, srv).

(** [pumpTCPFlow] after its receive from [errCh], and the deferred end of [handleFlowStream]. *)
Definition pump_finish (s : Session) srv (k : Z) : Session * Server P :=
  match qs_pumps s !! k, tcpHeap (qs_flows s) !! k with
  | Some pm, Some f =>
      match pm_main pm, pm_err pm with
      | true, err :: _ =>
          let s := qs_set_pumps s (<[k := mkPump (pm_stream pm) (pm_up pm) (pm_down pm) false (pm_err pm)]> (qs_pumps s)) in
          let limited := match err with Some e => err_is e ErrMaxBytesPerMinuteSess | None => false end in
          (if limited then Close s else closeFlow s (tf_id f) true, tcp_streams srv (-1))
      | _, _ => (s, srv)
      end
  | _, _ => (s, srv)
  end.

(** One tick of [pingLoop]. *)
Definition pingLoop_tick (s : Session) : Session := (writeFrame s FramePING []).1.
End SessionOps.
