(* ===== verification/SessionUDP.v ===== *)
(** * Sessions over QUIC: datagrams ([internal/session/session.go])

    The pipeline from the client's datagrams to UDP targets (reader, bounded queues, workers,
    reassembly) and the way back ([udpReadLoop]), on the state of [Session]. *)

From S2P Require Import Prelude Wire Frame Datagram GoString Crypto Auth Limits Wheel Store Metrics Server Handshake TCPSession Session.

(** ** Field updates of the pipeline *)

Definition pp_set_queues (p : pipeline) (q : list (list DatagramPacket)) (uncounted : bool) : pipeline :=
  mkPipeline q (dg_cap p) (dg_qlen p) uncounted (udpProcessedSec p) (udpDropSec p) (dg_reassembly p).
Definition pp_set_qlen (p : pipeline) (n : Z) (uncounted : bool) : pipeline :=
  mkPipeline (dg_queues p) (dg_cap p) n uncounted (udpProcessedSec p) (udpDropSec p) (dg_reassembly p).
Definition pp_set_reassembly (p : pipeline) (r : Reassembly) : pipeline :=
  mkPipeline (dg_queues p) (dg_cap p) (dg_qlen p) (dg_uncounted p) (udpProcessedSec p) (udpDropSec p) r.
Definition pp_set_sec (p : pipeline) (processed : Z) (drops : gmap string Z) : pipeline :=
  mkPipeline (dg_queues p) (dg_cap p) (dg_qlen p) (dg_uncounted p) processed drops (dg_reassembly p).

Definition drop_reasons : list string :=
  [datagramDropQueueFull; datagramDropFlowMissing; datagramDropBudget; datagramDropParseFail; datagramDropWriteFail].

(** The size of the queues [startDatagramPipeline] makes. *)
Definition pipeline_workers (c : SessionConfig) : Z := if DatagramWorkers c <=? 0 then 1 else DatagramWorkers c.
Definition pipeline_per_worker (c : SessionConfig) : Z :=
  let queueCap := if DatagramQueue c <=? 0 then 1024 else DatagramQueue c in
  let perWorker := Z.quot queueCap (pipeline_workers c) in
  if perWorker <? 64 then 64 else perWorker.

(** The queue of a flow: [pkt.FlowID % workerCount]. *)
Definition queue_index (s : Session) (flowID : Z) : nat :=
  Z.to_nat (flowID mod zlen (dg_queues (qs_pipe s))).

(** What the reader did with a datagram. *)
Inductive read_outcome := Dropped (reason : string) | Queued (pkt : DatagramPacket).

Section SessionUDPOps.
  Context {P : Type} `{SecretProvider P}.
  Implicit Types srv : Server P.

Definition srv_observe srv (f : Metrics -> Metrics) : Server P := srv_metrics srv (f (sr_metrics srv)).

Definition startDatagramPipeline (s : Session) srv : Session * Server P :=
  let srv := foldl (fun srv r => srv_observe srv (fun m => EnsureDroppedDatagramReason m r)) srv drop_reasons in
  let c := sr_cfg srv in
  (qs_set_pipe s (mkPipeline (replicate (Z.to_nat (pipeline_workers c)) []) (pipeline_per_worker c)
     (dg_qlen (qs_pipe s)) false (udpProcessedSec (qs_pipe s)) (udpDropSec (qs_pipe s)) (dg_reassembly (qs_pipe s))),
   srv).

Definition observeDatagramDrop (s : Session) srv (reason : string) : Session * Server P :=
  let srv := srv_observe srv (fun m => ObserveDroppedDatagram m reason) in
  let p := qs_pipe s in
  let s := if bool_decide (reason ∈ drop_reasons)
           then qs_set_pipe s (pp_set_sec p (udpProcessedSec p)
                  (<[reason := u64 (default 0 (udpDropSec p !! reason) + 1)]> (udpDropSec p)))
           else s in
  (s, srv).

(** One datagram in [datagramReadLoop], up to the send on the queue. *)
Definition datagramReadLoop_turn (s : Session) srv (now : Z) (raw : list byte) : Session * Server P * read_outcome :=
  let srv := srv_observe srv (fun m => ObserveRecvDatagram m (zlen raw)) in
  let srv := qs_touch srv now s in
  match DecodeDatagramPacket raw with
  | Ok pkt =>
      let '(l, err) := AllowUDPPacket (sr_limits srv) now (qs_id s) in
      let srv := srv_limits srv l in
      match err with
      | Some _ => (observeDatagramDrop s srv datagramDropBudget, Dropped datagramDropBudget)
      | None =>
          let i := queue_index s (dp_FlowID pkt) in
          let q := default [] (dg_queues (qs_pipe s) !! i) in
          if zlen q <? dg_cap (qs_pipe s)
          then (qs_set_pipe s (pp_set_queues (qs_pipe s) (<[i := q ++ [pkt]]> (dg_queues (qs_pipe s))) true), srv,
                Queued pkt)
          else (observeDatagramDrop s srv datagramDropQueueFull, Dropped datagramDropQueueFull)
      end
  | _ => (observeDatagramDrop s srv datagramDropParseFail, Dropped datagramDropParseFail)
  end.

(** The two increments after the send. *)
Definition datagramReadLoop_count (s : Session) srv : Session * Server P :=
  (qs_set_pipe s (pp_set_qlen (qs_pipe s) (dg_qlen (qs_pipe s) + 1) false),
   srv_observe srv (fun m => AddDatagramQueue m 1)).

Definition processDatagramTask (s : Session) srv (now : Z) (pkt : DatagramPacket) (write : option goerr)
  : Session * Server P :=
  let '(r, (payload, done)) := Add now (dg_reassembly (qs_pipe s)) pkt in
  let s := qs_set_pipe s (pp_set_reassembly (qs_pipe s) r) in
  if negb done then (s, srv)
  else
    let '(l, err) := AllowSessionBytes (sr_limits srv) now (qs_id s) (zlen payload) in
    let srv := srv_limits srv l in
    match err with
    | Some _ => let '(s, srv) := observeDatagramDrop s srv datagramDropBudget in (Close s, srv)
    | None =>
        match udpFlows (qs_flows s) !! dp_FlowID pkt with
        | None => observeDatagramDrop s srv datagramDropFlowMissing
        | Some k =>
            match write with
            | Some _ =>
                let '(s, srv) := observeDatagramDrop s srv datagramDropWriteFail in
                (closeFlow s (dp_FlowID pkt) true, srv)
            | None =>
                let s := write_target s k payload in
                let srv := srv_metrics srv (metric_add (sr_metrics srv) (BytesIn "session") (zlen payload)) in
                let srv := srv_observe srv (fun m => ObserveUDPForwarded m now) in
                let srv := srv_observe srv ObserveProcessedDatagram in
                let p := qs_pipe s in
                let s := qs_set_pipe s (pp_set_sec p (u64 (udpProcessedSec p + 1)) (udpDropSec p)) in
                (s, qs_touch srv now s)
            end
        end
    end.

(** A receive from queue [i] with the two decrements that follow it. *)
Definition dequeue (s : Session) srv (i : nat) : Session * Server P * option DatagramPacket :=
  match dg_queues (qs_pipe s) !! i with
  | Some (pkt :: q) =>
      let p := pp_set_queues (qs_pipe s) (<[i := q]> (dg_queues (qs_pipe s))) (dg_uncounted (qs_pipe s)) in
      let n := dg_qlen p - 1 in
      let p := pp_set_qlen p (if n <? 0 then 0 else n) (dg_uncounted p) in
      (qs_set_pipe s p, srv_observe srv (fun m => AddDatagramQueue m (-1)), Some pkt)
  | _ => (s, srv, None)
  end.

(** One task of [datagramWorkerLoop] on queue [i]. *)
Definition datagramWorkerLoop_turn (s : Session) srv (now : Z) (i : nat) (write : option goerr) : Session * Server P :=
  let '(s, srv, task) := dequeue s srv i in
  match task with
  | Some pkt => processDatagramTask s srv now pkt write
  | None => (s, srv)
  end.

(** One item of [drainDatagramQueue], which the worker runs once the context is done. *)
Definition drainDatagramQueue_turn (s : Session) srv (i : nat) : Session * Server P := (dequeue s srv i).1.

(** One tick of [datagramDebugLoop]: the counters start again. *)
Definition datagramDebugLoop_tick (s : Session) : Session := qs_set_pipe s (pp_set_sec (qs_pipe s) 0 ∅).

(** The sending loop of [udpReadLoop]: [room] is the number of datagrams the connection still
    takes, [true] when all packets went out. *)
Fixpoint send_packets (s : Session) srv (pkts : list (list byte)) (room : option nat) : Session * Server P * bool :=
  match pkts with
  | [] => (s, srv, true)
  | pkt :: pkts =>
      match room with
      | Some O => (s, srv_observe srv ObserveUDPToClientFail, false)
      | _ => send_packets (send_client s pkt) (srv_observe srv ObserveUDPToClient) pkts (Nat.pred <$> room)
      end
  end.

(** [udpReadLoop] leaves. *)
Definition udp_loop_end (s : Session) (k : Z) : Session := qs_set_udpLoops s (qs_udpLoops s ∖ {[k]}).

(** The end of a turn, by the error of the read. *)
Definition udp_turn_end (s : Session) (k : Z) (f : udpFlow) (err : option goerr) : Session :=
  match err with
  | None => s
  | Some _ => udp_loop_end (if ctx_done s then s else closeFlow s (uf_id f) true) k
  end.

(** One turn of [udpReadLoop] of the flow at [k]. *)
Definition udpReadLoop_turn (s : Session) srv (now k : Z) (buf : list byte) (err : option goerr) (room : option nat)
  : Session * Server P :=
  match udpHeap (qs_flows s) !! k with
  | None => (s, srv)
  | Some f =>
      if 0 <? zlen buf then
        let srv := srv_observe srv ObserveUDPDstRX in
        let '(l, limitErr) := AllowSessionBytes (sr_limits srv) now (qs_id s) (zlen buf) in
        let srv := srv_limits srv l in
        match limitErr with
        | Some _ => (udp_loop_end (Close s) k, srv)
        | None =>
            let seq := u32 (uf_seq f + 1) in
            let t := qs_flows s in
            let s := qs_set_flows s (mkFlowTable (tcpFlows t) (udpFlows t) (tcpHeap t)
                       (<[k := mkUdpFlow (uf_id f) seq (uf_closed f)]> (udpHeap t)) (sockets t) (flowStreams t)) in
            match FragmentDatagram (uf_id f) seq buf (MaxDgramPayload (sr_cfg srv)) with
            | Ok packets =>
                let '(s, srv, sent) := send_packets s srv packets room in
                if sent then
                  let srv := srv_metrics srv (metric_add (sr_metrics srv) (BytesOut "session") (zlen buf)) in
                  (udp_turn_end s k f err, qs_touch srv now s)
                else (udp_loop_end (closeFlow s (uf_id f) true) k, srv)
            | _ => (udp_loop_end (closeFlow s (uf_id f) true) k, srv)
            end
        end
      else (udp_turn_end s k f err, srv)
  end.

(** ** [Run] *)

(** [Run] up to the start of the loops: [accept] is the error of accepting the control stream,
    [room] what the stream takes; [true] when the loops start. *)
Definition run_begin (s : Session) srv (now : Z) (accept : option goerr) (room : option Z) (first : res Frame)
  : Session * Server P * bool :=
  match accept with
  | Some _ => (s, srv, false)
  | None =>
      let s := qs_set_control s (Some (Writer [] room)) in
      let '(srv, r) := check_first_frame srv now first in
      match r with
      | AuthFailed (Some f) _ => ((writeFrame s (frame_type f) (frame_payload f)).1, srv, false)
      | AuthFailed None _ => (s, srv, false)
      | AuthCrashed _ => (s, srv, false)
      | AuthOK c =>
          let s := qs_set_auth s c in
          let srv := registerSession srv now (qs_id s) c in
          let '(s, err) := writeFrame s FrameAUTHOK (auth_ok_payload srv (qs_id s)) in
          match err with
          | Some _ => (s, srv, false)
          | None => (startDatagramPipeline s (qs_touch srv now s), true)
          end
      end
  end.

(** The deferred calls of [Run]: the registration goes, then [Close]. *)
Definition run_end (s : Session) srv : Session * Server P := (Close s, unregisterSession srv (qs_id s)).
End SessionUDPOps.
