(* ===== verification/SessionInv.v ===== *)
(** * Sessions over QUIC: what every interleaving keeps

    The step relation of a session (one step per goroutine turn of [Session] and [SessionUDP]) and
    its invariant: flow limit, sockets, pumps and the stream gauge, and what closing leaves. *)

From S2P Require Import Prelude Wire Frame Datagram GoString Crypto Auth Limits Wheel Store Metrics Server Handshake TCPSession Session SessionUDP.

(** ** The flow table *)

(** A socket is in one of the maps. *)
Definition held (t : flow_table) (k : Z) : Prop :=
  (exists f, tcpFlows t !! f = Some k) \/ (exists f, udpFlows t !! f = Some k).

Record table_inv (t : flow_table) : Prop := {
  ft_tcp : forall f k, tcpFlows t !! f = Some k -> exists st, tcpHeap t !! k = Some (mkTcpFlow f st false);
  ft_udp : forall f k, udpFlows t !! f = Some k -> exists q, udpHeap t !! k = Some (mkUdpFlow f q false);
  ft_sockets : forall k, k ∈ sockets t <-> held t k;
  ft_disjoint : forall k, is_Some (tcpHeap t !! k) -> udpHeap t !! k = None;
  ft_zero : tcpFlows t !! 0 = None /\ udpFlows t !! 0 = None }.

(** What a struct keeps when it is closed. *)
Definition shape (t : flow_table) : gmap Z (Z * option Z) := (fun f => (tf_id f, tf_stream f)) <$> tcpHeap t.

(** Closing structs leaves the maps and the shapes alone. *)
Definition closed_from (t t' : flow_table) : Prop :=
  tcpFlows t' = tcpFlows t /\ udpFlows t' = udpFlows t /\ shape t' = shape t.

#[local] Instance closed_from_refl : Reflexive closed_from.
Proof. by intros t. Qed.
#[local] Instance closed_from_trans : Transitive closed_from.
Proof. intros a b c (H1 & H2 & H3) (H4 & H5 & H6). split_and!; congruence. Qed.

Lemma close_tcp_from t k : closed_from t (close_tcp_flow t k) /\ udpHeap (close_tcp_flow t k) = udpHeap t.
Proof.
  unfold close_tcp_flow. destruct (tcpHeap t !! k) as [f|] eqn:Ef; [|done]. destruct (tf_closed f); [done|].
  split; [|done]. split_and!; try done. unfold shape. cbn [tcpHeap]. rewrite fmap_insert. cbn [tf_id tf_stream].
  apply insert_id. by rewrite lookup_fmap, Ef.
Qed.

Lemma close_udp_from t k : closed_from t (close_udp_flow t k) /\ tcpHeap (close_udp_flow t k) = tcpHeap t.
Proof. unfold close_udp_flow. destruct (udpHeap t !! k) as [f|]; [|done]. by destruct (uf_closed f). Qed.

(** The effect of closing the struct at [k] on the other cells and on the sockets. *)
Lemma close_tcp_heap t k j : j <> k -> tcpHeap (close_tcp_flow t k) !! j = tcpHeap t !! j.
Proof.
  intros Hj. unfold close_tcp_flow. destruct (tcpHeap t !! k) as [f|]; [|done]. destruct (tf_closed f); [done|].
  cbn. by rewrite lookup_insert_ne.
Qed.

Lemma close_udp_heap t k j : j <> k -> udpHeap (close_udp_flow t k) !! j = udpHeap t !! j.
Proof.
  intros Hj. unfold close_udp_flow. destruct (udpHeap t !! k) as [f|]; [|done]. destruct (uf_closed f); [done|].
  cbn. by rewrite lookup_insert_ne.
Qed.

Lemma close_tcp_sockets t k f st :
  tcpHeap t !! k = Some (mkTcpFlow f st false) -> sockets (close_tcp_flow t k) = sockets t ∖ {[k]}.
Proof. intros Hk. unfold close_tcp_flow. by rewrite Hk. Qed.

Lemma close_udp_sockets t k f q :
  udpHeap t !! k = Some (mkUdpFlow f q false) -> sockets (close_udp_flow t k) = sockets t ∖ {[k]}.
Proof. intros Hk. unfold close_udp_flow. by rewrite Hk. Qed.

(** Which cells exist is decided by the shape. *)
Lemma shape_some t k : is_Some (tcpHeap t !! k) <-> is_Some (shape t !! k).
Proof. unfold shape. rewrite lookup_fmap, fmap_is_Some. done. Qed.

Lemma close_udp_some t k j : is_Some (udpHeap (close_udp_flow t k) !! j) <-> is_Some (udpHeap t !! j).
Proof.
  unfold close_udp_flow. destruct (udpHeap t !! k) as [f|] eqn:Ef; [|done]. destruct (uf_closed f); [done|]. cbn.
  destruct (decide (j = k)) as [->|Hj]; [rewrite lookup_insert_eq, Ef; split; eauto|by rewrite lookup_insert_ne].
Qed.

(** Each live flow has a socket of its own. *)
Lemma tcp_socket_inj t f g k : table_inv t -> tcpFlows t !! f = Some k -> tcpFlows t !! g = Some k -> f = g.
Proof. intros [Ht _ _ _ _] Hf Hg. destruct (Ht _ _ Hf) as [? E1], (Ht _ _ Hg) as [? E2]. congruence. Qed.

Lemma udp_socket_inj t f g k : table_inv t -> udpFlows t !! f = Some k -> udpFlows t !! g = Some k -> f = g.
Proof. intros [_ Hu _ _ _] Hf Hg. destruct (Hu _ _ Hf) as [? E1], (Hu _ _ Hg) as [? E2]. congruence. Qed.

Lemma sockets_apart t f g k : table_inv t -> tcpFlows t !! f = Some k -> udpFlows t !! g = Some k -> False.
Proof.
  intros [Ht Hu _ Hd _] Hf Hg. destruct (Ht _ _ Hf) as [? E1], (Hu _ _ Hg) as [? E2].
  rewrite (Hd k) in E2 by (by rewrite E1). done.
Qed.

(** Removing one TCP flow, then one UDP flow. *)
Lemma drop_tcp_inv t f k :
  table_inv t -> tcpFlows t !! f = Some k ->
  table_inv (close_tcp_flow (mkFlowTable (delete f (tcpFlows t)) (udpFlows t) (tcpHeap t) (udpHeap t) (sockets t)
    (flowStreams t)) k).
Proof.
  intros Hinv Hf. destruct (ft_tcp _ Hinv _ _ Hf) as [st Hk]. set (t1 := mkFlowTable _ _ _ _ _ _).
  destruct (close_tcp_from t1 k) as [(E1 & E2 & E3) E4].
  assert (Hs : sockets (close_tcp_flow t1 k) = sockets t ∖ {[k]}) by (by eapply (close_tcp_sockets t1)).
  split.
  - rewrite E1. cbn [t1 tcpFlows]. intros g j Hg. apply lookup_delete_Some in Hg as [Hne Hg].
    rewrite close_tcp_heap by (intros ->; by apply Hne, (tcp_socket_inj t f g k)). by apply Hinv.
  - rewrite E2, E4. apply Hinv.
  - intros j. rewrite Hs, elem_of_difference, elem_of_singleton, (ft_sockets _ Hinv). unfold held. rewrite E1, E2.
    cbn [t1 tcpFlows udpFlows]. split.
    + intros [[[g Hg]|Hu] Hj]; [|by right]. left. exists g. rewrite lookup_delete_ne; [done|]. intros <-. congruence.
    + intros [[g Hg]|[g Hg]].
      * apply lookup_delete_Some in Hg as [Hne Hg]. split; [left; eauto|]. intros ->. by apply Hne, (tcp_socket_inj t f g k).
      * split; [right; eauto|]. intros ->. by apply (sockets_apart t f g k).
  - intros j. rewrite shape_some, E3, E4, <- shape_some. apply Hinv.
  - rewrite E1, E2. cbn. destruct (ft_zero _ Hinv) as [Z1 Z2]. split; [|done]. apply lookup_delete_None. by right.
Qed.

Lemma drop_udp_inv t f k :
  table_inv t -> udpFlows t !! f = Some k ->
  table_inv (close_udp_flow (mkFlowTable (tcpFlows t) (delete f (udpFlows t)) (tcpHeap t) (udpHeap t) (sockets t)
    (flowStreams t)) k).
Proof.
  intros Hinv Hf. destruct (ft_udp _ Hinv _ _ Hf) as [st Hk]. set (t1 := mkFlowTable _ _ _ _ _ _).
  destruct (close_udp_from t1 k) as [(E1 & E2 & E3) E4].
  assert (Hs : sockets (close_udp_flow t1 k) = sockets t ∖ {[k]}) by (by eapply (close_udp_sockets t1)).
  split.
  - rewrite E1, E4. apply Hinv.
  - rewrite E2. cbn [t1 udpFlows]. intros g j Hg. apply lookup_delete_Some in Hg as [Hne Hg].
    rewrite close_udp_heap by (intros ->; by apply Hne, (udp_socket_inj t f g k)). by apply Hinv.
  - intros j. rewrite Hs, elem_of_difference, elem_of_singleton, (ft_sockets _ Hinv). unfold held. rewrite E1, E2.
    cbn [t1 tcpFlows udpFlows]. split.
    + intros [[Ht|[g Hg]] Hj]; [by left|]. right. exists g. rewrite lookup_delete_ne; [done|]. intros <-. congruence.
    + intros [[g Hg]|[g Hg]].
      * split; [left; eauto|]. intros ->. by apply (sockets_apart t g f k).
      * apply lookup_delete_Some in Hg as [Hne Hg]. split; [right; eauto|]. intros ->. by apply Hne, (udp_socket_inj t f g k).
  - intros j. rewrite E4. intros Hj. destruct (udpHeap (close_udp_flow t1 k) !! j) eqn:E; [|done]. exfalso.
    assert (is_Some (udpHeap t1 !! j)) as [x Hu] by (apply (close_udp_some t1 k); by rewrite E).
    cbn in Hu. rewrite (ft_disjoint _ Hinv j Hj) in Hu. done.
  - rewrite E1, E2. cbn. destruct (ft_zero _ Hinv) as [Z1 Z2]. split; [done|]. apply lookup_delete_None. by right.
Qed.

(** Closing a TCP struct does not look at the map of UDP flows. *)
Lemma close_tcp_udpFlows t k u :
  close_tcp_flow (mkFlowTable (tcpFlows t) u (tcpHeap t) (udpHeap t) (sockets t) (flowStreams t)) k
  = let t' := close_tcp_flow t k in
    mkFlowTable (tcpFlows t') u (tcpHeap t') (udpHeap t') (sockets t') (flowStreams t').
Proof.
  unfold close_tcp_flow. cbn. destruct (tcpHeap t !! k) as [f|]; [|done]. by destruct (tf_closed f).
Qed.

Lemma writeFrame_keeps s ty p :
  let s' := (writeFrame s ty p).1 in
  qs_flows s' = qs_flows s /\ qs_once s' = qs_once s /\ qs_opening s' = qs_opening s /\ qs_pumps s' = qs_pumps s
  /\ qs_attaching s' = qs_attaching s /\ qs_udpLoops s' = qs_udpLoops s /\ qs_pipe s' = qs_pipe s
  /\ qs_id s' = qs_id s /\ qs_toTarget s' = qs_toTarget s.
Proof. unfold writeFrame. destruct (qs_control s) as [w|]; [|done]. by destruct (WriteFrame w ty p). Qed.

(** [closeFlow] removes the flows of its id and closes their sockets. *)
Lemma closeFlow_table s f notify :
  let t := qs_flows s in let t' := qs_flows (closeFlow s f notify) in
  table_inv t -> table_inv t' /\ tcpFlows t' = delete f (tcpFlows t) /\ udpFlows t' = delete f (udpFlows t)
  /\ shape t' = shape t.
Proof.
  cbn zeta. intros Hinv. set (t := qs_flows s) in *.
  assert (Hn : forall s1, qs_flows (if notify then (writeFrame s1 FrameCLOSEFLOW
    (EncodeCloseFlowPayload (mkCloseFlowPayload f))).1 else s1) = qs_flows s1).
  { intros s1. destruct notify; [|done]. apply writeFrame_keeps. }
  unfold closeFlow. fold t. unfold forget_flow.
  destruct (tcpFlows t !! f) as [k|] eqn:Et, (udpFlows t !! f) as [j|] eqn:Eu; rewrite ?Hn; cbn [qs_set_flows qs_flows].
  - pose proof (drop_tcp_inv t f k Hinv Et) as H1. set (t0 := mkFlowTable _ (udpFlows t) _ _ _ _) in H1.
    destruct (close_tcp_from t0 k) as [(E1 & E2 & E3) _].
    pose proof (close_tcp_udpFlows t0 k (delete f (udpFlows t))) as Hc. cbn [t0 tcpFlows tcpHeap udpHeap sockets flowStreams] in Hc.
    rewrite Hc. clear Hc. cbn zeta.
    assert (Eu' : udpFlows (close_tcp_flow t0 k) !! f = Some j) by (by rewrite E2).
    pose proof (drop_udp_inv _ f j H1 Eu') as H2. rewrite E2 in H2. cbn [t0 udpFlows] in H2.
    split; [exact H2|].
    set (t2 := mkFlowTable _ _ _ _ _ _). destruct (close_udp_from t2 j) as [(E4 & E5 & E6) _].
    rewrite E4, E5, E6. cbn [t2 tcpFlows udpFlows]. rewrite E1. split_and!; try done.
  - rewrite (delete_id (udpFlows t)) by done. split; [by apply drop_tcp_inv|].
    set (t0 := mkFlowTable _ _ _ _ _ _). destruct (close_tcp_from t0 k) as [(E1 & E2 & E3) _].
    by rewrite E1, E2, E3.
  - rewrite (delete_id (tcpFlows t)) by done. split; [by apply drop_udp_inv|].
    set (t0 := mkFlowTable _ _ _ _ _ _). destruct (close_udp_from t0 j) as [(E1 & E2 & E3) _].
    by rewrite E1, E2, E3.
  - fold t. by rewrite !delete_id.
Qed.

Lemma closeFlow_keeps s f notify :
  let s' := closeFlow s f notify in
  qs_once s' = qs_once s /\ qs_opening s' = qs_opening s /\ qs_pumps s' = qs_pumps s
  /\ qs_attaching s' = qs_attaching s /\ qs_udpLoops s' = qs_udpLoops s /\ qs_pipe s' = qs_pipe s
  /\ qs_id s' = qs_id s /\ qs_toTarget s' = qs_toTarget s.
Proof.
  cbn zeta. unfold closeFlow. assert (Hn : forall t, let s1 := qs_set_flows s t in
    let s' := if notify then (writeFrame s1 FrameCLOSEFLOW (EncodeCloseFlowPayload (mkCloseFlowPayload f))).1 else s1 in
    qs_once s' = qs_once s /\ qs_opening s' = qs_opening s /\ qs_pumps s' = qs_pumps s
    /\ qs_attaching s' = qs_attaching s /\ qs_udpLoops s' = qs_udpLoops s /\ qs_pipe s' = qs_pipe s
    /\ qs_id s' = qs_id s /\ qs_toTarget s' = qs_toTarget s).
  { intros t. cbn zeta. destruct notify; [|done].
    pose proof (writeFrame_keeps (qs_set_flows s t) FrameCLOSEFLOW (EncodeCloseFlowPayload (mkCloseFlowPayload f))) as Hk.
    cbn zeta in Hk. by destruct_and!. }
  by destruct (tcpFlows (qs_flows s) !! f), (udpFlows (qs_flows s) !! f); try apply Hn.
Qed.

(** ** Closing all flows *)

Lemma close_tcp_all l t :
  (forall k, k ∈ l -> is_Some (tcpHeap t !! k)) ->
  (forall k f, tcpHeap t !! k = Some f -> tf_closed f = true -> k ∉ sockets t) ->
  let t' := foldl close_tcp_flow t l in
  closed_from t t' /\ udpHeap t' = udpHeap t /\ sockets t' = sockets t ∖ list_to_set l.
Proof.
  revert t. induction l as [|k l IH]; intros t Hl Hc; cbn zeta; [split_and!; [done..|set_solver]|].
  cbn [foldl]. destruct (close_tcp_from t k) as [Hf Hu].
  assert (Hs : sockets (close_tcp_flow t k) = sockets t ∖ {[k]}).
  { destruct (Hl k ltac:(by left)) as [[id st c] Hk]. destruct c; [|by eapply close_tcp_sockets].
    unfold close_tcp_flow. rewrite Hk. cbn. pose proof (Hc _ _ Hk eq_refl). set_solver. }
  destruct (IH (close_tcp_flow t k)) as (H1 & H2 & H3).
  - intros j Hj. rewrite shape_some. destruct Hf as (_ & _ & ->). rewrite <- shape_some. apply Hl. by right.
  - intros j f Hj Hcl. rewrite Hs. destruct (decide (j = k)) as [->|Hne]; [set_solver|].
    rewrite close_tcp_heap in Hj by done. pose proof (Hc _ _ Hj Hcl). set_solver.
  - split; [by etrans|]. split; [congruence|]. rewrite H3, Hs. set_solver.
Qed.

Lemma close_udp_all l t :
  (forall k, k ∈ l -> is_Some (udpHeap t !! k)) ->
  (forall k f, udpHeap t !! k = Some f -> uf_closed f = true -> k ∉ sockets t) ->
  let t' := foldl close_udp_flow t l in
  closed_from t t' /\ tcpHeap t' = tcpHeap t /\ sockets t' = sockets t ∖ list_to_set l
  /\ (forall k, is_Some (udpHeap t' !! k) <-> is_Some (udpHeap t !! k)).
Proof.
  revert t. induction l as [|k l IH]; intros t Hl Hc; cbn zeta; [split_and!; [done..|set_solver|done]|].
  cbn [foldl]. destruct (close_udp_from t k) as [Hf Hu].
  assert (Hs : sockets (close_udp_flow t k) = sockets t ∖ {[k]}).
  { destruct (Hl k ltac:(by left)) as [[id st c] Hk]. destruct c; [|by eapply close_udp_sockets].
    unfold close_udp_flow. rewrite Hk. cbn. pose proof (Hc _ _ Hk eq_refl). set_solver. }
  destruct (IH (close_udp_flow t k)) as (H1 & H2 & H3 & H4).
  - intros j Hj. rewrite close_udp_some. apply Hl. by right.
  - intros j f Hj Hcl. rewrite Hs. destruct (decide (j = k)) as [->|Hne]; [set_solver|].
    rewrite close_udp_heap in Hj by done. pose proof (Hc _ _ Hj Hcl). set_solver.
  - split; [by etrans|]. split; [congruence|]. split; [rewrite H3, Hs; set_solver|].
    intros j. by rewrite H4, close_udp_some.
Qed.

Lemma elem_of_values {A} (m : gmap Z A) k : k ∈ (map_to_list m).*2 <-> exists f, m !! f = Some k.
Proof.
  rewrite list_elem_of_fmap. split.
  - intros [[f x] [-> Hx]]. apply elem_of_map_to_list in Hx. eauto.
  - intros [f Hf]. exists (f, k). split; [done|]. by apply elem_of_map_to_list.
Qed.

(** After the flows were closed no socket is left. *)
Lemma close_flows_table s :
  let t := qs_flows s in let t' := qs_flows (close_flows s) in
  table_inv t -> table_inv t' /\ tcpFlows t' = ∅ /\ udpFlows t' = ∅ /\ shape t' = shape t.
Proof.
  cbn zeta. intros Hinv. unfold close_flows. cbn [qs_set_once qs_set_flows qs_flows]. set (t := qs_flows s) in *.
  set (t0 := mkFlowTable ∅ ∅ _ _ _ _). set (tcp := (map_to_list (tcpFlows t)).*2). set (udp := (map_to_list (udpFlows t)).*2).
  assert (Hc1 : forall k f, tcpHeap t !! k = Some f -> tf_closed f = true -> k ∉ sockets t).
  { intros k f Hk Hcl Hin. apply (ft_sockets _ Hinv) in Hin as [[g Hg]|[g Hg]].
    - destruct (ft_tcp _ Hinv _ _ Hg) as [? E]. rewrite Hk in E. by simplify_eq.
    - destruct (ft_udp _ Hinv _ _ Hg) as [? E]. rewrite (ft_disjoint _ Hinv) in E; [done|by rewrite Hk]. }
  assert (Hc2 : forall k f, udpHeap t !! k = Some f -> uf_closed f = true -> k ∉ sockets t).
  { intros k f Hk Hcl Hin. apply (ft_sockets _ Hinv) in Hin as [[g Hg]|[g Hg]].
    - destruct (ft_tcp _ Hinv _ _ Hg) as [? E]. rewrite (ft_disjoint _ Hinv) in Hk; [done|by rewrite E].
    - destruct (ft_udp _ Hinv _ _ Hg) as [? E]. rewrite Hk in E. by simplify_eq. }
  destruct (close_tcp_all tcp t0) as ((A1 & A2 & A3) & A4 & A5).
  { intros k [f Hf]%elem_of_values. cbn [t0 tcpHeap]. destruct (ft_tcp _ Hinv _ _ Hf) as [? ->]. eauto. }
  { exact Hc1. }
  set (t1 := foldl close_tcp_flow t0 tcp) in *.
  destruct (close_udp_all udp t1) as ((B1 & B2 & B3) & B4 & B5 & B6).
  { intros k [f Hf]%elem_of_values. rewrite A4. cbn. destruct (ft_udp _ Hinv _ _ Hf) as [? ->]. eauto. }
  { intros k f. rewrite A4, A5. cbn. intros Hk Hcl. pose proof (Hc2 _ _ Hk Hcl). set_solver. }
  set (t2 := foldl close_udp_flow t1 udp) in *. cbn [t0 tcpFlows udpFlows sockets] in *.
  rewrite B1, B2, B3, A1, A2, A3. split_and!; try done. split.
  - rewrite B1, A1. by intros f k Hf%lookup_empty_Some.
  - rewrite B2, A2. by intros f k Hf%lookup_empty_Some.
  - intros k. rewrite B5, A5. unfold held. rewrite B1, A1, B2, A2.
    rewrite !elem_of_difference, !elem_of_list_to_set, (ft_sockets _ Hinv). unfold tcp, udp. rewrite !elem_of_values.
    split; [intros [[[Ht|Hu] Hnt] Hnu]; done|]. by intros [[f Hf%lookup_empty_Some]|[f Hf%lookup_empty_Some]].
  - intros k Hk. rewrite B4 in Hk. rewrite shape_some, A3 in Hk.
    change (shape t0) with (shape t) in Hk. rewrite <- shape_some in Hk.
    destruct (udpHeap t2 !! k) eqn:E; [|done]. exfalso.
    assert (is_Some (udpHeap t1 !! k)) as [x Hx] by (apply B6; by rewrite E).
    rewrite A4 in Hx. cbn in Hx. by rewrite (ft_disjoint _ Hinv) in Hx.
  - by rewrite B1, A1, B2, A2, !lookup_empty.
Qed.

(** ** The invariant *)

Definition waiting (pumps : gmap Z pump) : gmap Z pump := filter (fun kv => pm_main kv.2 = true) pumps.

(** [errCh] holds one result per copying goroutine that ended; the caller leaves only after one. *)
Definition pump_ok (pm : pump) : Prop :=
  zlen (pm_err pm) = (if pm_up pm then 0 else 1) + (if pm_down pm then 0 else 1)
  /\ (pm_main pm = false -> pm_err pm <> []).

Definition opening_count (s : Session) : Z := match qs_opening s with Some _ => 1 | None => 0 end.

(** The session's share of the state that the invariant reads: nothing changed, and a control
    stream that refuses writes still does. *)
Record same_core (s s' : Session) : Prop := {
  sc_flows : qs_flows s' = qs_flows s; sc_opening : qs_opening s' = qs_opening s;
  sc_once : qs_once s' = qs_once s; sc_loops : qs_udpLoops s' = qs_udpLoops s;
  sc_attaching : qs_attaching s' = qs_attaching s; sc_pumps : qs_pumps s' = qs_pumps s;
  sc_control : forall w', qs_control s' = Some w' ->
    exists w, qs_control s = Some w /\ (w_room w = Some 0 -> w_room w' = Some 0) }.

#[local] Instance same_core_refl : Reflexive same_core.
Proof. intros s. split; try done. eauto. Qed.
#[local] Instance same_core_trans : Transitive same_core.
Proof.
  intros a b c [] []. split; try congruence. intros w Hw. destruct (sc_control1 w Hw) as (w1 & Hw1 & Hr1).
  destruct (sc_control0 w1 Hw1) as (w2 & Hw2 & Hr2). eauto.
Qed.

Section SessionFacts.
  Context {P : Type} `{SecretProvider P}.
  Implicit Types srv : Server P.

(** [g] is what other sessions contribute to the stream gauge. *)
Record sess_inv (s : Session) srv (g : Z) : Prop := {
  qi_table : table_inv (qs_flows s);
  qi_count : flowCount s + opening_count s <= Z.max 0 (sc_MaxFlows (sr_cfg srv));
  qi_opening : forall u p, qs_opening s = Some (u, p) -> op_FlowID p <> 0;
  qi_writes : qs_once s <> NotClosed -> forall w, qs_control s = Some w -> w_room w = Some 0;
  qi_closed : qs_once s = SessionClosed -> tcpFlows (qs_flows s) = ∅ /\ udpFlows (qs_flows s) = ∅;
  qi_loops : qs_once s = NotClosed -> forall f k, udpFlows (qs_flows s) !! f = Some k -> k ∈ qs_udpLoops s;
  qi_attaching : forall st k, qs_attaching s !! st = Some k -> is_Some (shape (qs_flows s) !! k);
  qi_pumps : forall k pm, qs_pumps s !! k = Some pm ->
    (exists id, shape (qs_flows s) !! k = Some (id, Some (pm_stream pm))) /\ pump_ok pm;
  qi_gauge : streams srv = g + Z.of_nat (size (waiting (qs_pumps s))) }.

Lemma sess_inv_core s s' srv srv' g :
  sess_inv s srv g -> same_core s s' -> same_srv srv srv' -> sess_inv s' srv' g.
Proof.
  intros [] [E1 E2 E3 E4 E5 E6 Hc] [F1 F2]. unfold flowCount, opening_count in *.
  split; unfold flowCount, opening_count; rewrite ?E1, ?E2, ?E3, ?E4, ?E5, ?E6, ?F1, ?F2; try done.
  intros Ho w' Hw'. destruct (Hc w' Hw') as (w & Hw & Hr). by eapply Hr, qi_writes0.
Qed.

Lemma same_srv_refl srv : same_srv srv srv.
Proof. done. Qed.

Lemma writeFrame_core s ty p : same_core s (writeFrame s ty p).1.
Proof.
  destruct (writeFrame_keeps s ty p) as (H1 & H2 & H3 & H4 & H5 & H6 & _). split; try done.
  unfold writeFrame. destruct (qs_control s) as [w|] eqn:Ew; [|cbn; intros w0 Hw0; congruence].
  destruct (WriteFrame w ty p) as [w1 e] eqn:E. cbn. intros w' [= <-]. exists w. split; [done|].
  intros Hr. by destruct (WriteFrame_room _ _ _ _ _ E Hr).
Qed.

(** Once the session is closed no frame is written. *)
Lemma writeFrame_fails s ty p :
  (forall w, qs_control s = Some w -> w_room w = Some 0) -> (writeFrame s ty p).2 <> None.
Proof.
  intros Hw. unfold writeFrame. destruct (qs_control s) as [w|]; [|done].
  destruct (WriteFrame w ty p) as [w1 e] eqn:E. by destruct (WriteFrame_room _ _ _ _ _ E (Hw w eq_refl)).
Qed.

Lemma closeFlow_control s f notify w' :
  qs_control (closeFlow s f notify) = Some w' ->
  exists w, qs_control s = Some w /\ (w_room w = Some 0 -> w_room w' = Some 0).
Proof.
  unfold closeFlow. assert (Hn : forall t, qs_control (if notify then (writeFrame (qs_set_flows s t) FrameCLOSEFLOW
      (EncodeCloseFlowPayload (mkCloseFlowPayload f))).1 else qs_set_flows s t) = Some w' ->
      exists w, qs_control s = Some w /\ (w_room w = Some 0 -> w_room w' = Some 0)).
  { intros t. destruct notify; [|eauto]. intros Hw. by destruct (sc_control _ _ (writeFrame_core _ _ _) _ Hw) as (w & Hw1 & Hw2); eauto. }
  destruct (tcpFlows (qs_flows s) !! f), (udpFlows (qs_flows s) !! f); first [apply Hn | eauto].
Qed.

Lemma size_delete_le {A} (m : gmap Z A) f : (size (delete f m) <= size m)%nat.
Proof. destruct (m !! f) eqn:E; [rewrite map_size_delete_Some by eauto|rewrite map_size_delete_None by done]; lia. Qed.

Lemma quic_closeFlow_inv s srv g f notify : sess_inv s srv g -> sess_inv (closeFlow s f notify) srv g.
Proof.
  intros Hinv. destruct (closeFlow_table s f notify (qi_table _ _ _ Hinv)) as (H1 & H2 & H3 & H4).
  destruct (closeFlow_keeps s f notify) as (K1 & K2 & K3 & K4 & K5 & _). destruct Hinv.
  unfold flowCount, opening_count in *.
  split; unfold flowCount, opening_count; rewrite ?K1, ?K2, ?K3, ?K4, ?K5, ?H2, ?H3, ?H4; try done.
  - pose proof (size_delete_le (tcpFlows (qs_flows s)) f). pose proof (size_delete_le (udpFlows (qs_flows s)) f). lia.
  - intros Ho w Hw. destruct (closeFlow_control _ _ _ _ Hw) as (w0 & Hw0 & Hr). by eapply Hr, qi_writes0.
  - intros Ho. destruct (qi_closed0 Ho) as [-> ->]. by rewrite !delete_empty.
  - intros Ho f' k Hf. apply lookup_delete_Some in Hf as [_ Hf]. by eapply qi_loops0.
Qed.

Lemma Close_inv' s srv g : sess_inv s srv g -> sess_inv (Close s) srv g.
Proof.
  intros Hinv. unfold Close. destruct (qs_once s) eqn:Eo; [|done..]. destruct Hinv. split; try done.
  cbn. intros _ w Hw. destruct (qs_control s) as [w0|]; [|done]. cbn in Hw. by simplify_eq.
Qed.

Lemma close_flows_inv s srv g : sess_inv s srv g -> qs_once s = Closing -> sess_inv (close_flows s) srv g.
Proof.
  intros Hinv Ho. destruct (close_flows_table s (qi_table _ _ _ Hinv)) as (H1 & H2 & H3 & H4). destruct Hinv.
  unfold flowCount, opening_count in *.
  split; unfold flowCount, opening_count; rewrite ?H2, ?H3, ?H4; try done.
  - rewrite !map_size_empty. cbn [close_flows qs_set_once qs_set_flows qs_opening]. lia.
  - intros _. apply qi_writes0. congruence.
Qed.

(** ** Opening flows *)

(** A dialled socket is a new one. *)
Definition fresh_cell (s : Session) (k : Z) : Prop :=
  tcpHeap (qs_flows s) !! k = None /\ udpHeap (qs_flows s) !! k = None.

Lemma insert_tcp_table t f k :
  table_inv t -> tcpFlows t !! f = None -> f <> 0 -> tcpHeap t !! k = None -> udpHeap t !! k = None ->
  table_inv (mkFlowTable (<[f := k]> (tcpFlows t)) (udpFlows t) (<[k := mkTcpFlow f None false]> (tcpHeap t))
    (udpHeap t) ({[k]} ∪ sockets t) (flowStreams t)).
Proof.
  intros [Ht Hu Hs Hd [Hz1 Hz2]] Hf Hf0 Hk1 Hk2. split; cbn [tcpFlows udpFlows tcpHeap udpHeap sockets].
  - intros g j Hg. apply lookup_insert_Some in Hg as [[<- <-]|[Hne Hg]]; [rewrite lookup_insert_eq; eauto|].
    destruct (Ht _ _ Hg) as [st Hj]. rewrite lookup_insert_ne by (intros ->; congruence). eauto.
  - done.
  - intros j. rewrite elem_of_union, elem_of_singleton, Hs. unfold held. cbn [tcpFlows udpFlows].
    setoid_rewrite lookup_insert_Some. split.
    + intros [->|[[g Hg]|Hj]]; [left; exists f; by left| |by right]. left. exists g. right. split; [|done]. congruence.
    + intros [[g [[_ <-]|[_ Hg]]]|Hj]; [by left|right; left; eauto|by right; right].
  - intros j. destruct (decide (j = k)) as [->|Hj]; [done|]. rewrite lookup_insert_ne by done. apply Hd.
  - by rewrite lookup_insert_ne.
Qed.

Lemma insert_udp_table t f k :
  table_inv t -> udpFlows t !! f = None -> f <> 0 -> tcpHeap t !! k = None -> udpHeap t !! k = None ->
  table_inv (mkFlowTable (tcpFlows t) (<[f := k]> (udpFlows t)) (tcpHeap t) (<[k := mkUdpFlow f 0 false]> (udpHeap t))
    ({[k]} ∪ sockets t) (flowStreams t)).
Proof.
  intros [Ht Hu Hs Hd [Hz1 Hz2]] Hf Hf0 Hk1 Hk2. split; cbn [tcpFlows udpFlows tcpHeap udpHeap sockets].
  - done.
  - intros g j Hg. apply lookup_insert_Some in Hg as [[<- <-]|[Hne Hg]]; [rewrite lookup_insert_eq; eauto|].
    destruct (Hu _ _ Hg) as [st Hj]. rewrite lookup_insert_ne by (intros ->; congruence). eauto.
  - intros j. rewrite elem_of_union, elem_of_singleton, Hs. unfold held. cbn [tcpFlows udpFlows].
    setoid_rewrite lookup_insert_Some. split.
    + intros [->|[Hj|[g Hg]]]; [right; exists f; by left|by left|]. right. exists g. right. split; [|done]. congruence.
    + intros [Hj|[g [[_ <-]|[_ Hg]]]]; [by right; left|by left|right; right; eauto].
  - intros j Hj. rewrite lookup_insert_ne; [by apply Hd|]. intros <-. rewrite Hk1 in Hj. by destruct Hj.
  - by rewrite lookup_insert_ne.
Qed.

Lemma open_check_spec s srv ft p s' a :
  open_check s srv ft p = (s', a) ->
  same_core s s' /\ (a <> None -> s' = s /\ op_FlowID p <> 0 /\ flowCount s < sc_MaxFlows (sr_cfg srv)).
Proof.
  unfold open_check. destruct (op_FlowID p =? 0) eqn:E0.
  { intros [= <- <-]. split; [apply writeFrame_core|done]. }
  destruct (sc_MaxFlows (sr_cfg srv) <=? flowCount s) eqn:E1.
  { intros [= <- <-]. split; [apply writeFrame_core|done]. }
  zbool. destruct (resolveTargetAddress p); intros [= <- <-]; [done|by split; [apply writeFrame_core|]|done].
Qed.

(** The control loop starts a dial: the flow is counted from now on. *)
Lemma opening_inv s srv g u p :
  sess_inv s srv g -> qs_opening s = None -> op_FlowID p <> 0 -> flowCount s < sc_MaxFlows (sr_cfg srv) ->
  sess_inv (qs_set_opening s (Some (u, p))) srv g.
Proof.
  intros [] Ho Hp Hc. split; try done.
  - unfold flowCount, opening_count in *. cbn. lia.
  - cbn. congruence.
Qed.

Lemma shape_insert_fresh t f k t' :
  tcpHeap t !! k = None -> tcpHeap t' = <[k := mkTcpFlow f None false]> (tcpHeap t) ->
  forall j x, shape t !! j = Some x -> shape t' !! j = Some x.
Proof.
  intros Hk E j x Hj. unfold shape. rewrite E, fmap_insert. rewrite lookup_insert_ne; [done|].
  intros <-. unfold shape in Hj. by rewrite lookup_fmap, Hk in Hj.
Qed.

(** The flow maps and structs changed to a consistent table that keeps the structs' shapes. *)
Lemma sess_inv_table s s' srv g :
  sess_inv s srv g -> table_inv (qs_flows s') -> flowCount s' <= Z.max 0 (sc_MaxFlows (sr_cfg srv)) ->
  qs_opening s' = None -> qs_once s' = qs_once s -> qs_attaching s' = qs_attaching s -> qs_pumps s' = qs_pumps s ->
  (qs_once s = SessionClosed -> tcpFlows (qs_flows s') = ∅ /\ udpFlows (qs_flows s') = ∅) ->
  (qs_once s = NotClosed -> forall f k, udpFlows (qs_flows s') !! f = Some k -> k ∈ qs_udpLoops s') ->
  (forall j x, shape (qs_flows s) !! j = Some x -> shape (qs_flows s') !! j = Some x) ->
  (forall w', qs_control s' = Some w' -> exists w, qs_control s = Some w /\ (w_room w = Some 0 -> w_room w' = Some 0)) ->
  sess_inv s' srv g.
Proof.
  intros [] Ht Hc Ho E1 E2 E3 Hcl Hl Hs Hw. split; rewrite ?E1, ?E2, ?E3; try done.
  - unfold opening_count. rewrite Ho. lia.
  - rewrite Ho. congruence.
  - intros Hn w' Hw'. destruct (Hw w' Hw') as (w & Hw1 & Hw2). by eapply Hw2, qi_writes0.
  - intros st k Hst. destruct (qi_attaching0 _ _ Hst) as [x Hx]. rewrite (Hs _ _ Hx). eauto.
  - intros k pm Hk. destruct (qi_pumps0 _ _ Hk) as [[id Hid] Hok]. split; [|done]. eauto.
Qed.

Lemma open_failure_same srv r : same_srv srv (open_failure srv r).
Proof. by apply metric_other_same. Qed.

Lemma open_tcp_finish_inv s srv g p dial :
  sess_inv s srv g -> qs_opening s = None -> op_FlowID p <> 0 ->
  flowCount s + 1 <= Z.max 0 (sc_MaxFlows (sr_cfg srv)) -> (forall k, dial = Ok k -> fresh_cell s k) ->
  sess_inv (open_tcp_finish s srv p dial).1 (open_tcp_finish s srv p dial).2 g.
Proof.
  intros Hinv Ho Hp Hc Hd. unfold open_tcp_finish. destruct dial as [k|e|m].
  2:{ cbn [fst snd]. eapply sess_inv_core; [done|apply writeFrame_core|apply open_failure_same]. }
  2:{ done. }
  destruct (Hd k eq_refl) as [Hk1 Hk2]. set (f := op_FlowID p) in *.
  destruct (tcpFlows (qs_flows s) !! f) as [j|] eqn:Ef.
  { cbn [fst snd]. eapply sess_inv_core; [done|apply writeFrame_core|done]. }
  pose proof (insert_tcp_table _ _ _ (qi_table _ _ _ Hinv) Ef Hp Hk1 Hk2) as Ht.
  set (t1 := mkFlowTable _ _ _ _ _ _) in *. set (s1 := qs_set_flows s t1).
  pose proof (writeFrame_core s1 FrameOPENTCPOK (EncodeOpenOKPayload (mkOpenOKPayload f 1))) as Hcore.
  pose proof (writeFrame_fails s1 FrameOPENTCPOK (EncodeOpenOKPayload (mkOpenOKPayload f 1))) as Hfail.
  destruct (writeFrame s1 _ _) as [s2 err]. cbn [fst snd] in *.
  assert (Hsh : forall j x, shape (qs_flows s) !! j = Some x -> shape t1 !! j = Some x) by (by eapply shape_insert_fresh).
  assert (Hsz : size (<[f := k]> (tcpFlows (qs_flows s))) = S (size (tcpFlows (qs_flows s)))) by (by apply map_size_insert_None).
  destruct Hcore as [C1 C2 C3 C4 C5 C6 C7]. unfold flowCount in *.
  destruct err as [err|]; cbn [fst snd].
  - assert (Ht2 : table_inv (qs_flows s2)) by (by rewrite C1).
    destruct (closeFlow_table s2 f false Ht2) as (T1 & T2 & T3 & T4).
    destruct (closeFlow_keeps s2 f false) as (K1 & K2 & K3 & K4 & K5 & _). rewrite C1 in T2, T3, T4. cbn [s1 qs_set_flows qs_flows t1 tcpFlows udpFlows] in T2, T3.
    rewrite delete_insert_id in T2 by done.
    eapply sess_inv_table; [exact Hinv|exact T1|..]; unfold flowCount; rewrite ?T2, ?T3, ?T4, ?K1, ?K2, ?K3, ?K4, ?K5, ?C2, ?C3, ?C4, ?C5, ?C6; try done.
    + pose proof (size_delete_le (udpFlows (qs_flows s)) f). lia.
    + intros Hcl. destruct (qi_closed _ _ _ Hinv Hcl) as [-> ->]. by rewrite delete_empty.
    + intros Hn f' k' Hf'. apply lookup_delete_Some in Hf' as [_ Hf']. by eapply (qi_loops _ _ _ Hinv Hn).
    + intros w' Hw'. destruct (closeFlow_control _ _ _ _ Hw') as (w & Hw & Hr). destruct (C7 w Hw) as (w0 & Hw0 & Hr0). eauto.
  - assert (Hn : qs_once s = NotClosed).
    { destruct (qs_once s) eqn:En; [done|..]; exfalso; eapply Hfail; try done; eapply (qi_writes _ _ _ Hinv); congruence. }
    eapply sess_inv_table; [exact Hinv|..]; unfold flowCount; rewrite ?C1, ?C2, ?C3, ?C4, ?C5, ?C6; cbn [s1 qs_set_flows qs_flows t1 tcpFlows udpFlows]; try done.
    + rewrite Hsz. lia.
    + congruence.
    + intros _ f' k' Hf'. by eapply (qi_loops _ _ _ Hinv Hn).
Qed.

Lemma open_udp_finish_inv s srv g p resolve dial :
  sess_inv s srv g -> qs_opening s = None -> op_FlowID p <> 0 ->
  flowCount s + 1 <= Z.max 0 (sc_MaxFlows (sr_cfg srv)) -> (forall k, dial = Ok k -> fresh_cell s k) ->
  sess_inv (open_udp_finish s srv p resolve dial).1 (open_udp_finish s srv p resolve dial).2 g.
Proof.
  intros Hinv Ho Hp Hc Hd. unfold open_udp_finish. destruct resolve as [e|].
  { cbn [fst snd]. eapply sess_inv_core; [done|apply writeFrame_core|apply open_failure_same]. }
  destruct dial as [k|e|m].
  2:{ cbn [fst snd]. eapply sess_inv_core; [done|apply writeFrame_core|apply open_failure_same]. }
  2:{ done. }
  destruct (Hd k eq_refl) as [Hk1 Hk2]. set (f := op_FlowID p) in *.
  destruct (udpFlows (qs_flows s) !! f) as [j|] eqn:Ef.
  { cbn [fst snd]. eapply sess_inv_core; [done|apply writeFrame_core|done]. }
  pose proof (insert_udp_table _ _ _ (qi_table _ _ _ Hinv) Ef Hp Hk1 Hk2) as Ht.
  set (t1 := mkFlowTable _ _ _ _ _ _) in *. set (s1 := qs_set_flows s t1).
  pose proof (writeFrame_core s1 FrameOPENUDPOK (EncodeOpenOKPayload (mkOpenOKPayload f 0))) as Hcore.
  pose proof (writeFrame_fails s1 FrameOPENUDPOK (EncodeOpenOKPayload (mkOpenOKPayload f 0))) as Hfail.
  destruct (writeFrame s1 _ _) as [s2 err]. cbn [fst snd] in *.
  assert (Hsz : size (<[f := k]> (udpFlows (qs_flows s))) = S (size (udpFlows (qs_flows s)))) by (by apply map_size_insert_None).
  destruct Hcore as [C1 C2 C3 C4 C5 C6 C7]. unfold flowCount in *.
  destruct err as [err|]; cbn [fst snd].
  - assert (Ht2 : table_inv (qs_flows s2)) by (by rewrite C1).
    destruct (closeFlow_table s2 f false Ht2) as (T1 & T2 & T3 & T4).
    destruct (closeFlow_keeps s2 f false) as (K1 & K2 & K3 & K4 & K5 & _). rewrite C1 in T2, T3, T4. cbn [s1 qs_set_flows qs_flows t1 tcpFlows udpFlows] in T2, T3.
    rewrite delete_insert_id in T3 by done.
    eapply sess_inv_table; [exact Hinv|exact T1|..]; unfold flowCount; rewrite ?T2, ?T3, ?T4, ?K1, ?K2, ?K3, ?K4, ?K5, ?C2, ?C3, ?C4, ?C5, ?C6; try done.
    + pose proof (size_delete_le (tcpFlows (qs_flows s)) f). lia.
    + intros Hcl. destruct (qi_closed _ _ _ Hinv Hcl) as [-> ->]. by rewrite delete_empty.
    + intros Hn f' k' Hf'. by eapply (qi_loops _ _ _ Hinv Hn).
    + intros w' Hw'. destruct (closeFlow_control _ _ _ _ Hw') as (w & Hw & Hr). destruct (C7 w Hw) as (w0 & Hw0 & Hr0). eauto.
  - assert (Hn : qs_once s = NotClosed).
    { destruct (qs_once s) eqn:En; [done|..]; exfalso; eapply Hfail; try done; eapply (qi_writes _ _ _ Hinv); congruence. }
    eapply sess_inv_table; [exact Hinv|..]; unfold flowCount; cbn [qs_set_udpLoops qs_flows qs_opening qs_once qs_attaching qs_pumps qs_udpLoops qs_control]; rewrite ?C1, ?C2, ?C3, ?C4, ?C5, ?C6; cbn [s1 qs_set_flows qs_flows t1 tcpFlows udpFlows]; try done.
    + rewrite Hsz. lia.
    + congruence.
    + intros _ f' k' Hf'. apply lookup_insert_Some in Hf' as [[<- <-]|[_ Hf']]; [set_solver|].
      apply elem_of_union_r. by eapply (qi_loops _ _ _ Hinv Hn).
Qed.

Lemma finish_open_inv s srv g resolve dial :
  sess_inv s srv g -> (forall k, dial = Ok k -> fresh_cell s k) ->
  sess_inv (finish_open s srv resolve dial).1 (finish_open s srv resolve dial).2 g.
Proof.
  intros Hinv Hd. unfold finish_open. destruct (qs_opening s) as [[u p]|] eqn:Eo; [|done].
  pose proof (qi_opening _ _ _ Hinv _ _ Eo) as Hp. pose proof (qi_count _ _ _ Hinv) as Hc.
  unfold opening_count in Hc. rewrite Eo in Hc.
  assert (Hinv' : sess_inv (qs_set_opening s None) srv g).
  { destruct Hinv. split; try done. unfold flowCount, opening_count in *. cbn. lia. }
  destruct u; [by apply open_udp_finish_inv|by apply open_tcp_finish_inv].
Qed.

Lemma touch_same' srv now (s : Session) : same_srv srv (qs_touch srv now s).
Proof. done. Qed.

Lemma controlLoop_inv s srv g now f :
  sess_inv s srv g -> qs_opening s = None ->
  sess_inv (controlLoop_turn s srv now f).1.1 (controlLoop_turn s srv now f).1.2 g.
Proof.
  intros Hinv Ho. assert (Hw : forall ty p, sess_inv (writeFrame s ty p).1 (qs_touch srv now s) g).
  { intros ty p. eapply sess_inv_core; [done|apply writeFrame_core|done]. }
  assert (Hs : sess_inv s (qs_touch srv now s) g) by (by eapply sess_inv_core).
  assert (Hopen : forall ft u p, sess_inv (let '(s, addr) := open_check s (qs_touch srv now s) ft p in
    match addr with Some _ => qs_set_opening s (Some (u, p)) | None => s end) (qs_touch srv now s) g).
  { intros ft u p. destruct (open_check s (qs_touch srv now s) ft p) as [s1 a] eqn:Ec.
    destruct (open_check_spec _ _ _ _ _ _ Ec) as [Hcore Ha]. destruct a as [a|].
    - destruct Ha as (-> & Hp & Hc); [done|]. by apply opening_inv.
    - by eapply sess_inv_core. }
  unfold controlLoop_turn. destruct f as [f|e|m]; [|by apply Close_inv'|done]. cbn zeta.
  repeat (case_match; cbn [fst snd]; try done); try apply Hw; try (by apply quic_closeFlow_inv); apply Hopen.
Qed.

(** ** Streams and pumps *)

Lemma waiting_same (pumps : gmap Z pump) k pm pm' :
  pumps !! k = Some pm -> pm_main pm' = pm_main pm -> size (waiting (<[k := pm']> pumps)) = size (waiting pumps).
Proof.
  intros Hk Hm. unfold waiting. destruct (pm_main pm) eqn:E.
  - rewrite map_filter_insert_True by done. apply map_size_insert_Some. rewrite map_lookup_filter, Hk. cbn.
    by rewrite option_guard_True.
  - rewrite map_filter_insert_False by (cbn; congruence). f_equal. apply map_filter_delete_not. intros x Hx. cbn. congruence.
Qed.

Lemma waiting_start (pumps : gmap Z pump) k pm :
  pumps !! k = None -> pm_main pm = true -> size (waiting (<[k := pm]> pumps)) = S (size (waiting pumps)).
Proof.
  intros Hk Hm. unfold waiting. rewrite map_filter_insert_True by done. apply map_size_insert_None.
  by rewrite map_lookup_filter, Hk.
Qed.

Lemma waiting_stop (pumps : gmap Z pump) k pm pm' :
  pumps !! k = Some pm -> pm_main pm = true -> pm_main pm' = false ->
  S (size (waiting (<[k := pm']> pumps))) = size (waiting pumps).
Proof.
  intros Hk Hm Hm'. unfold waiting. rewrite map_filter_insert_False by (cbn; congruence). rewrite map_filter_delete.
  assert (Hin : filter (fun kv : Z * pump => pm_main kv.2 = true) pumps !! k = Some pm).
  { rewrite map_lookup_filter, Hk. cbn. by rewrite option_guard_True. }
  rewrite map_size_delete_Some by eauto.
  assert (size (filter (fun kv : Z * pump => pm_main kv.2 = true) pumps) <> 0%nat) by (apply (map_size_ne_0_lookup_2 _ k); eauto).
  lia.
Qed.

(** The pumps changed, with the gauge following. *)
Lemma sess_inv_pumps s s' srv srv' g :
  sess_inv s srv g -> sr_cfg srv' = sr_cfg srv ->
  qs_flows s' = qs_flows s -> qs_opening s' = qs_opening s -> qs_once s' = qs_once s ->
  qs_udpLoops s' = qs_udpLoops s -> qs_attaching s' = qs_attaching s -> qs_control s' = qs_control s ->
  (forall k pm, qs_pumps s' !! k = Some pm ->
    (exists id, shape (qs_flows s) !! k = Some (id, Some (pm_stream pm))) /\ pump_ok pm) ->
  streams srv' - Z.of_nat (size (waiting (qs_pumps s'))) = streams srv - Z.of_nat (size (waiting (qs_pumps s))) ->
  sess_inv s' srv' g.
Proof.
  intros [] F1 E1 E2 E3 E4 E5 E6 Hp Hg. unfold flowCount, opening_count in *.
  split; unfold flowCount, opening_count; rewrite ?E1, ?E2, ?E3, ?E4, ?E5, ?E6, ?F1; try done. lia.
Qed.

Lemma pump_post_inv s srv g k (up : bool) err pm :
  sess_inv s srv g -> qs_pumps s !! k = Some pm -> (if up then pm_up pm else pm_down pm) = true ->
  sess_inv (pump_post s k up err) srv g.
Proof.
  intros Hinv Hk Hrun. unfold pump_post. rewrite Hk.
  destruct (qi_pumps _ _ _ Hinv _ _ Hk) as [[id Hid] [Hl Hm]].
  eapply sess_inv_pumps; [exact Hinv|done..| |].
  - cbn [qs_set_pumps qs_pumps]. intros j pj Hj. apply lookup_insert_Some in Hj as [[<- <-]|[_ Hj]]; [|by apply Hinv].
    split; [by exists id|]. split; cbn [pm_err pm_up pm_down pm_main].
    + rewrite zlen_app, Hl. change (zlen [err]) with 1. destruct up; rewrite Hrun; lia.
    + intros _ Hx. by destruct (pm_err pm).
  - cbn [qs_set_pumps qs_pumps]. by erewrite waiting_same by done.
Qed.

Lemma pump_turn_end_inv s srv g k (up : bool) err pm :
  sess_inv s srv g -> qs_pumps s !! k = Some pm -> (if up then pm_up pm else pm_down pm) = true ->
  sess_inv (pump_turn_end s k up err) srv g.
Proof. intros Hinv Hk Hrun. unfold pump_turn_end. destruct err; [by eapply pump_post_inv|done]. Qed.

Lemma limits_same srv l : same_srv srv (srv_limits srv l).
Proof. done. Qed.

Lemma pump_up_inv s srv g now k buf err write pm :
  sess_inv s srv g -> qs_pumps s !! k = Some pm -> pm_up pm = true ->
  sess_inv (pump_up_turn s srv now k buf err write).1 (pump_up_turn s srv now k buf err write).2 g.
Proof.
  intros Hinv Hk Hrun. unfold pump_up_turn. destruct (0 <? zlen buf); [|cbn [fst snd]; by eapply pump_turn_end_inv].
  destruct (AllowSessionBytes _ _ _ _) as [l lim].
  assert (Hl : sess_inv s (srv_limits srv l) g) by (by eapply sess_inv_core).
  destruct lim as [e|]; [cbn [fst snd]; by eapply pump_post_inv|].
  destruct write as [e|]; cbn [fst snd]; [by eapply pump_post_inv|].
  eapply pump_turn_end_inv; [|done|done].
  eapply sess_inv_core; [exact Hl|by split; eauto|].
  eapply same_srv_trans; [by apply (metric_other_same _ (BytesIn "session") (zlen buf))|apply touch_same'].
Qed.

Lemma pump_down_inv s srv g now k buf err write pm :
  sess_inv s srv g -> qs_pumps s !! k = Some pm -> pm_down pm = true ->
  sess_inv (pump_down_turn s srv now k buf err write).1 (pump_down_turn s srv now k buf err write).2 g.
Proof.
  intros Hinv Hk Hrun. unfold pump_down_turn. destruct (0 <? zlen buf); [|cbn [fst snd]; by eapply pump_turn_end_inv].
  destruct (AllowSessionBytes _ _ _ _) as [l lim].
  assert (Hl : sess_inv s (srv_limits srv l) g) by (by eapply sess_inv_core).
  destruct lim as [e|]; [cbn [fst snd]; by eapply pump_post_inv|].
  destruct write as [e|]; cbn [fst snd]; [by eapply pump_post_inv|]. rewrite Hk.
  eapply pump_turn_end_inv; [|done|done].
  eapply sess_inv_core; [exact Hl|by split; eauto|].
  eapply same_srv_trans; [by apply (metric_other_same _ (BytesOut "session") (zlen buf))|apply touch_same'].
Qed.

Lemma tcp_streams_gauge srv d : streams (tcp_streams srv d) = streams srv + d.
Proof. unfold streams, tcp_streams. cbn [srv_metrics sr_metrics]. apply metric_add_eq. Qed.

Lemma pump_finish_inv s srv g k :
  sess_inv s srv g -> sess_inv (pump_finish s srv k).1 (pump_finish s srv k).2 g.
Proof.
  intros Hinv. unfold pump_finish. destruct (qs_pumps s !! k) as [pm|] eqn:Hk; [|done].
  destruct (tcpHeap (qs_flows s) !! k) as [f|]; [|done]. destruct (pm_main pm) eqn:Em; [|done].
  destruct (pm_err pm) as [|err rest] eqn:Ee; [done|]. cbn [fst snd]. set (s1 := qs_set_pumps s _).
  assert (H1 : sess_inv s1 (tcp_streams srv (-1)) g).
  { destruct (qi_pumps _ _ _ Hinv _ _ Hk) as [[id Hid] [Hl _]].
    eapply sess_inv_pumps; [exact Hinv|done..| |].
    - cbn [s1 qs_set_pumps qs_pumps]. intros j pj Hj. apply lookup_insert_Some in Hj as [[<- <-]|[_ Hj]]; [|by apply Hinv].
      split; [by exists id|]. split; cbn [pm_err pm_up pm_down]; [by rewrite <- Ee|done].
    - rewrite tcp_streams_gauge. cbn [s1 qs_set_pumps qs_pumps].
      pose proof (waiting_stop (qs_pumps s) k pm _ Hk Em (eq_refl : pm_main (mkPump (pm_stream pm) (pm_up pm) (pm_down pm) false (err :: rest)) = false)). lia. }
  destruct err as [e|]; [destruct (err_is e _)|]; [by apply Close_inv'|by apply quic_closeFlow_inv..].
Qed.

Lemma handleFlowStream_lookup_inv s srv g st raw :
  sess_inv s srv g -> sess_inv (handleFlowStream_lookup s st raw) srv g.
Proof.
  intros Hinv. unfold handleFlowStream_lookup. destruct raw as [raw| |]; [|done..].
  destruct (tcpFlows (qs_flows s) !! be_get raw) as [k|] eqn:Ef; [|done].
  destruct (ft_tcp _ (qi_table _ _ _ Hinv) _ _ Ef) as [st0 Hk]. destruct Hinv. split; try done.
  - destruct qi_table0. by split.
  - cbn. intros st' k' Hst. apply lookup_insert_Some in Hst as [[<- <-]|[_ Hst]]; [|by eapply qi_attaching0].
    apply shape_some. cbn. by rewrite Hk.
Qed.

Lemma handleFlowStream_attach_inv s srv g st :
  sess_inv s srv g -> sess_inv (handleFlowStream_attach s srv st).1 (handleFlowStream_attach s srv st).2 g.
Proof.
  intros Hinv. unfold handleFlowStream_attach. destruct (qs_attaching s !! st) as [k|] eqn:Est; [|done].
  set (s1 := qs_set_attaching s _).
  assert (H1 : sess_inv s1 srv g).
  { destruct Hinv. split; try done. cbn. intros st' k' Hst. apply lookup_delete_Some in Hst as [_ Hst]. by eapply qi_attaching0. }
  clearbody s1. clear Hinv Est. destruct (tcpHeap (qs_flows s1) !! k) as [f|] eqn:Ek; [|done].
  destruct (tf_stream f) as [st0|] eqn:Ef; cbn [fst snd].
  - destruct H1. split; try done. destruct qi_table0. by split.
  - set (t := mkFlowTable _ _ _ _ _ _).
    assert (Hnone : qs_pumps s1 !! k = None).
    { destruct (qs_pumps s1 !! k) as [pm|] eqn:Ep; [|done]. destruct (qi_pumps _ _ _ H1 _ _ Ep) as [[id Hid] _].
      unfold shape in Hid. rewrite lookup_fmap, Ek in Hid. cbn in Hid. congruence. }
    assert (Hsh : forall j, j <> k -> shape t !! j = shape (qs_flows s1) !! j).
    { intros j Hj. unfold shape. cbn [t tcpHeap]. by rewrite fmap_insert, lookup_insert_ne. }
    assert (Hshk : shape t !! k = Some (tf_id f, Some st)).
    { unfold shape. cbn [t tcpHeap]. by rewrite fmap_insert, lookup_insert_eq. }
    destruct H1. split; try done.
    + cbn [qs_set_pumps qs_set_flows qs_flows]. destruct qi_table0. split; try done; cbn [t tcpFlows udpFlows tcpHeap udpHeap].
      * intros f' j Hf. destruct (decide (j = k)) as [->|Hj]; [|rewrite lookup_insert_ne by done; by apply ft_tcp0].
        rewrite lookup_insert_eq. destruct (ft_tcp0 _ _ Hf) as [st' E]. rewrite Ek in E. simplify_eq. cbn. eauto.
      * intros j Hj. apply ft_disjoint0. destruct (decide (j = k)) as [->|Hne]; [by rewrite Ek|by rewrite lookup_insert_ne in Hj].
    + cbn [qs_set_pumps qs_set_flows qs_flows qs_attaching]. intros st' j Hst. destruct (decide (j = k)) as [->|Hj]; [by rewrite Hshk|].
      rewrite Hsh by done. by eapply qi_attaching0.
    + cbn [qs_set_pumps qs_set_flows qs_flows qs_pumps]. intros j pm Hj. apply lookup_insert_Some in Hj as [[<- <-]|[Hne Hj]].
      * rewrite Hshk. split; [by eexists|]. by split.
      * rewrite Hsh by done. by apply qi_pumps0.
    + cbn [qs_set_pumps qs_pumps]. rewrite tcp_streams_gauge, waiting_start by done. lia.
Qed.

(** ** Datagrams *)

(** An observation that does not touch the stream gauge. *)
Definition quiet (f : Metrics -> Metrics) : Prop := forall m, mt_value (f m) TCPStreams = mt_value m TCPStreams.

Lemma observe_same srv f : quiet f -> same_srv srv (srv_observe srv f).
Proof. intros Hq. split; [done|]. apply Hq. Qed.

Lemma quiet_drop r : quiet (fun m => ObserveDroppedDatagram m r).
Proof. intros m. by apply metric_add_ne. Qed.
Lemma quiet_recv n : quiet (fun m => ObserveRecvDatagram m n).
Proof.
  intros m. unfold ObserveRecvDatagram. cbn zeta. destruct (0 <? n); [|by apply metric_add_ne].
  etrans; by apply metric_add_ne.
Qed.
Lemma quiet_queue d : quiet (fun m => AddDatagramQueue m d).
Proof. intros m. reflexivity. Qed.
Lemma quiet_forwarded now : quiet (fun m => ObserveUDPForwarded m now).
Proof. intros m. reflexivity. Qed.
Lemma quiet_processed : quiet ObserveProcessedDatagram.
Proof. by intros m. Qed.
Lemma quiet_dst : quiet ObserveUDPDstRX.
Proof. intros m. by apply metric_add_ne. Qed.
Lemma quiet_client : quiet ObserveUDPToClient.
Proof. intros m. by apply metric_add_ne. Qed.
Lemma quiet_client_fail : quiet ObserveUDPToClientFail.
Proof. intros m. by apply metric_add_ne. Qed.
#[local] Hint Resolve quiet_drop quiet_recv quiet_queue quiet_forwarded quiet_processed quiet_dst quiet_client
  quiet_client_fail : vlf.

(** A turn of the pipeline that only moves datagrams and counters. *)
Definition same_both s srv (r : Session * Server P) : Prop := same_core s r.1 /\ same_srv srv r.2.

Lemma set_pipe_core s p : same_core s (qs_set_pipe s p).
Proof. split; eauto. Qed.

Lemma drop_both s srv r : same_both s srv (observeDatagramDrop s srv r).
Proof.
  split; [|apply observe_same; auto with vlf]. unfold observeDatagramDrop. cbn [fst].
  case_match; [apply set_pipe_core|done].
Qed.

Lemma both_trans s srv s1 srv1 r : same_core s s1 -> same_srv srv srv1 -> same_both s1 srv1 r -> same_both s srv r.
Proof. intros Hs Hr [H1 H2]. split; [by etrans|by eapply same_srv_trans]. Qed.

Lemma read_both s srv now raw : same_both s srv (datagramReadLoop_turn s srv now raw).1.
Proof.
  unfold datagramReadLoop_turn. cbn zeta. set (srv1 := qs_touch (srv_observe srv _) now s).
  assert (H1 : same_srv srv srv1) by (eapply same_srv_trans; [apply observe_same, quiet_recv|apply touch_same']).
  destruct (DecodeDatagramPacket raw) as [pkt| |];
    [|cbn [fst]; eapply (both_trans _ _ s srv1); [done|done|apply drop_both]..].
  destruct (AllowUDPPacket _ _ _) as [l [e|]]; cbn [fst];
    [eapply (both_trans _ _ s (srv_limits srv1 l)); [done|done|apply drop_both]|].
  case_match; cbn [fst]; [split; [apply set_pipe_core|done]|].
  eapply (both_trans _ _ s (srv_limits srv1 l)); [done|done|apply drop_both].
Qed.

Lemma dequeue_both s srv i : same_both s srv (dequeue s srv i).1.
Proof.
  unfold dequeue. destruct (dg_queues (qs_pipe s) !! i) as [[|pkt q]|]; [done| |done]. cbn [fst].
  split; [apply set_pipe_core|apply observe_same, quiet_queue].
Qed.

Lemma process_inv s srv g now pkt write :
  sess_inv s srv g -> sess_inv (processDatagramTask s srv now pkt write).1 (processDatagramTask s srv now pkt write).2 g.
Proof.
  intros Hinv. unfold processDatagramTask. destruct (Add now _ pkt) as [r [payload done_]].
  set (s1 := qs_set_pipe s _). assert (H1 : sess_inv s1 srv g) by (eapply sess_inv_core; [done|apply set_pipe_core|done]).
  clearbody s1. destruct done_; cbn [negb]; [|done]. destruct (AllowSessionBytes _ _ _ _) as [l err].
  assert (H2 : sess_inv s1 (srv_limits srv l) g) by (by eapply sess_inv_core).
  assert (Hdrop : forall r, sess_inv (observeDatagramDrop s1 (srv_limits srv l) r).1
                                     (observeDatagramDrop s1 (srv_limits srv l) r).2 g).
  { intros r'. destruct (drop_both s1 (srv_limits srv l) r') as [D1 D2]. by eapply sess_inv_core. }
  destruct err as [e|].
  { specialize (Hdrop datagramDropBudget). destruct (observeDatagramDrop _ _ _). by apply Close_inv'. }
  destruct (udpFlows (qs_flows s1) !! dp_FlowID pkt) as [k|]; [|by apply Hdrop].
  destruct write as [e|].
  { specialize (Hdrop datagramDropWriteFail). destruct (observeDatagramDrop _ _ _). by apply quic_closeFlow_inv. }
  cbn [fst snd]. eapply sess_inv_core; [exact H2|by split; eauto|].
  eapply same_srv_trans; [by apply (metric_other_same _ (BytesIn "session") (zlen payload))|].
  eapply same_srv_trans; [apply observe_same, quiet_forwarded|].
  eapply same_srv_trans; [apply observe_same, quiet_processed|apply touch_same'].
Qed.

Lemma worker_inv s srv g now i write :
  sess_inv s srv g -> sess_inv (datagramWorkerLoop_turn s srv now i write).1 (datagramWorkerLoop_turn s srv now i write).2 g.
Proof.
  intros Hinv. unfold datagramWorkerLoop_turn. pose proof (dequeue_both s srv i) as [D1 D2].
  destruct (dequeue s srv i) as [[s1 srv1] [pkt|]]; cbn [fst snd] in *; [|by eapply sess_inv_core].
  apply process_inv. by eapply sess_inv_core.
Qed.

Lemma send_packets_both s srv pkts room : same_both s srv (send_packets s srv pkts room).1.
Proof.
  revert s srv room. induction pkts as [|p pkts IH]; intros s srv room; [done|]. cbn [send_packets].
  assert (Hgo : forall room, same_both s srv (send_packets (send_client s p) (srv_observe srv ObserveUDPToClient) pkts room).1).
  { intros r. eapply both_trans; [|apply observe_same, quiet_client|apply IH]. by split; eauto. }
  destruct room as [[|n]|]; [|apply Hgo..]. split; [done|]. apply observe_same, quiet_client_fail.
Qed.

(** [udpReadLoop] at [k] leaves: the invariant holds when its flow is gone or the session closes. *)
Lemma udp_loop_end_inv s srv g k :
  sess_inv s srv g -> (qs_once s = NotClosed -> forall f, udpFlows (qs_flows s) !! f <> Some k) ->
  sess_inv (udp_loop_end s k) srv g.
Proof.
  intros [] Hk. split; try done. cbn. intros Hn f j Hf. apply elem_of_difference. split; [by eapply qi_loops0|].
  intros ->%elem_of_singleton. by eapply Hk.
Qed.

Lemma udp_close_end_inv s srv g k f :
  sess_inv s srv g -> udpHeap (qs_flows s) !! k = Some f -> sess_inv (udp_loop_end (closeFlow s (uf_id f) true) k) srv g.
Proof.
  intros Hinv Hk. apply udp_loop_end_inv; [by apply quic_closeFlow_inv|]. intros _ f' Hf'.
  destruct (closeFlow_table s (uf_id f) true (qi_table _ _ _ Hinv)) as (_ & _ & E & _). rewrite E in Hf'.
  apply lookup_delete_Some in Hf' as [Hne Hf']. destruct (ft_udp _ (qi_table _ _ _ Hinv) _ _ Hf') as [q Hq].
  rewrite Hk in Hq. by simplify_eq.
Qed.

Lemma udp_turn_end_inv s srv g k f err :
  sess_inv s srv g -> (exists q c, udpHeap (qs_flows s) !! k = Some (mkUdpFlow (uf_id f) q c)) ->
  sess_inv (udp_turn_end s k f err) srv g.
Proof.
  intros Hinv (q & c & Hk). unfold udp_turn_end. destruct err; [|done]. unfold ctx_done.
  destruct (qs_once s) eqn:En; [by apply (udp_close_end_inv s srv g k _ Hinv Hk)|..]; apply udp_loop_end_inv; try done; congruence.
Qed.

(** The sequence number of a flow advances. *)
Lemma seq_inv s srv g k f q :
  sess_inv s srv g -> udpHeap (qs_flows s) !! k = Some f ->
  let t := qs_flows s in
  sess_inv (qs_set_flows s (mkFlowTable (tcpFlows t) (udpFlows t) (tcpHeap t)
    (<[k := mkUdpFlow (uf_id f) q (uf_closed f)]> (udpHeap t)) (sockets t) (flowStreams t))) srv g.
Proof.
  cbn zeta. intros [] Hk. split; try done. cbn [qs_set_flows qs_flows]. destruct qi_table0. split; try done; cbn.
  - intros f' j Hf. destruct (ft_udp0 _ _ Hf) as [q' Hj]. destruct (decide (j = k)) as [->|Hne]; [|rewrite lookup_insert_ne by done; eauto].
    rewrite lookup_insert_eq. rewrite Hk in Hj. simplify_eq. cbn. eauto.
  - intros j Hj. rewrite lookup_insert_ne; [by apply ft_disjoint0|]. intros <-. by rewrite (ft_disjoint0 _ Hj) in Hk.
Qed.

Lemma udp_read_inv s srv g now k buf err room :
  sess_inv s srv g ->
  sess_inv (udpReadLoop_turn s srv now k buf err room).1 (udpReadLoop_turn s srv now k buf err room).2 g.
Proof.
  intros Hinv. unfold udpReadLoop_turn. destruct (udpHeap (qs_flows s) !! k) as [f|] eqn:Hk; [|done].
  destruct (0 <? zlen buf).
  2:{ cbn [fst snd]. apply udp_turn_end_inv; [done|]. destruct f as [i q c]. cbn. eauto. }
  destruct (AllowSessionBytes _ _ _ _) as [l lim]. set (srv1 := srv_limits _ l).
  assert (H1 : sess_inv s srv1 g).
  { eapply sess_inv_core; [exact Hinv|done|]. eapply same_srv_trans; [apply observe_same, quiet_dst|apply limits_same]. }
  clearbody srv1. clear Hinv. destruct lim as [e|]; cbn [fst snd].
  { apply udp_loop_end_inv; [by apply Close_inv'|]. unfold Close. by destruct (qs_once s) eqn:En; cbn; rewrite ?En. }
  pose proof (seq_inv s srv1 g k f (u32 (uf_seq f + 1)) H1 Hk) as H2. cbn zeta in H2.
  set (s1 := qs_set_flows s _) in *.
  assert (Hk1 : udpHeap (qs_flows s1) !! k = Some (mkUdpFlow (uf_id f) (u32 (uf_seq f + 1)) (uf_closed f))) by apply lookup_insert_eq.
  clearbody s1. destruct (FragmentDatagram _ _ _ _) as [pkts| |].
  2,3: by apply (udp_close_end_inv s1 srv1 g k _ H2 Hk1).
  destruct (send_packets_both s1 srv1 pkts room) as [D1 D2].
  destruct (send_packets s1 srv1 pkts room) as [[s2 srv2] sent]. cbn [fst snd] in *.
  assert (H3 : sess_inv s2 srv2 g) by (by eapply sess_inv_core).
  rewrite <- (sc_flows _ _ D1) in Hk1. destruct sent; cbn [fst snd]; [|by apply (udp_close_end_inv s2 srv2 g k _ H3 Hk1)].
  apply udp_turn_end_inv; [|by eauto]. eapply sess_inv_core; [exact H3|done|].
  eapply same_srv_trans; [by apply (metric_other_same _ (BytesOut "session") (zlen buf))|apply touch_same'].
Qed.
(** ** Reachable sessions *)

(** One turn of one goroutine of the session, or of another session ([g] is the others' share of
    the stream gauge). A dialled socket and an accepted stream are new. *)
Inductive sess_step : Session * Server P * Z -> Session * Server P * Z -> Prop :=
| st_control s srv g now f s' srv' b :
    qs_opening s = None -> controlLoop_turn s srv now f = (s', srv', b) -> sess_step (s, srv, g) (s', srv', g)
| st_open s srv g resolve dial s' srv' :
    (forall k, dial = Ok k -> fresh_cell s k) -> finish_open s srv resolve dial = (s', srv') ->
    sess_step (s, srv, g) (s', srv', g)
| st_accept_err s srv g : sess_step (s, srv, g) (acceptFlowStreams_err s, srv, g)
| st_lookup s srv g st raw :
    st ∉ flowStreams (qs_flows s) -> qs_attaching s !! st = None ->
    sess_step (s, srv, g) (handleFlowStream_lookup s st raw, srv, g)
| st_attach s srv g st s' srv' : handleFlowStream_attach s srv st = (s', srv') -> sess_step (s, srv, g) (s', srv', g)
| st_up s srv g now k buf err write pm s' srv' :
    qs_pumps s !! k = Some pm -> pm_up pm = true -> pump_up_turn s srv now k buf err write = (s', srv') ->
    sess_step (s, srv, g) (s', srv', g)
| st_down s srv g now k buf err write pm s' srv' :
    qs_pumps s !! k = Some pm -> pm_down pm = true -> pump_down_turn s srv now k buf err write = (s', srv') ->
    sess_step (s, srv, g) (s', srv', g)
| st_pump_end s srv g k s' srv' : pump_finish s srv k = (s', srv') -> sess_step (s, srv, g) (s', srv', g)
| st_ping s srv g : sess_step (s, srv, g) (pingLoop_tick s, srv, g)
| st_read s srv g now raw s' srv' o :
    dg_uncounted (qs_pipe s) = false -> datagramReadLoop_turn s srv now raw = (s', srv', o) ->
    sess_step (s, srv, g) (s', srv', g)
| st_count s srv g s' srv' :
    dg_uncounted (qs_pipe s) = true -> datagramReadLoop_count s srv = (s', srv') -> sess_step (s, srv, g) (s', srv', g)
| st_worker s srv g now i write s' srv' :
    datagramWorkerLoop_turn s srv now i write = (s', srv') -> sess_step (s, srv, g) (s', srv', g)
| st_drain s srv g i s' srv' :
    ctx_done s = true -> drainDatagramQueue_turn s srv i = (s', srv') -> sess_step (s, srv, g) (s', srv', g)
| st_debug s srv g : sess_step (s, srv, g) (datagramDebugLoop_tick s, srv, g)
| st_udp s srv g now k buf err room s' srv' :
    k ∈ qs_udpLoops s -> udpReadLoop_turn s srv now k buf err room = (s', srv') -> sess_step (s, srv, g) (s', srv', g)
| st_close s srv g : sess_step (s, srv, g) (Close s, srv, g)
| st_close_flows s srv g : qs_once s = Closing -> sess_step (s, srv, g) (close_flows s, srv, g)
| st_others s srv g srv' d :
    sr_cfg srv' = sr_cfg srv -> streams srv' = streams srv + d -> sess_step (s, srv, g) (s, srv', g + d).

Inductive sess_steps : Session * Server P * Z -> Session * Server P * Z -> Prop :=
| ss_refl x : sess_steps x x
| ss_more x y z : sess_steps x y -> sess_step y z -> sess_steps x z.

(** Rewrite the lemma [lem] with the equation of the turn it is about. *)
Ltac turn lem := match goal with E : _ = (_, _) |- _ => pose proof lem as Hturn; rewrite E in Hturn; exact Hturn end.

Lemma sess_step_inv s srv g s' srv' g' :
  sess_step (s, srv, g) (s', srv', g') -> sess_inv s srv g -> sess_inv s' srv' g'.
Proof.
  intros Hstep Hinv. inversion Hstep; subst.
  - turn (controlLoop_inv s srv g' now f Hinv ltac:(done)).
  - turn (finish_open_inv s srv g' resolve dial Hinv ltac:(done)).
  - unfold acceptFlowStreams_err. destruct (ctx_done s); [done|by apply Close_inv'].
  - by apply handleFlowStream_lookup_inv.
  - turn (handleFlowStream_attach_inv s srv g' st Hinv).
  - turn (pump_up_inv s srv g' now k buf err write pm Hinv ltac:(done) ltac:(done)).
  - turn (pump_down_inv s srv g' now k buf err write pm Hinv ltac:(done) ltac:(done)).
  - turn (pump_finish_inv s srv g' k Hinv).
  - eapply sess_inv_core; [exact Hinv|apply writeFrame_core|done].
  - assert (Hb := read_both s srv now raw). match goal with E : _ = (_, _) |- _ => rewrite E in Hb end.
    destruct Hb as [B1 B2]. by eapply sess_inv_core.
  - match goal with E : _ = (_, _) |- _ => injection E as <- <- end.
    eapply sess_inv_core; [exact Hinv|apply set_pipe_core|apply observe_same, quiet_queue].
  - turn (worker_inv s srv g' now i write Hinv).
  - match goal with E : drainDatagramQueue_turn _ _ _ = _ |- _ => unfold drainDatagramQueue_turn in E;
      destruct (dequeue_both s srv i) as [B1 B2]; rewrite E in B1, B2 end. by eapply sess_inv_core.
  - eapply sess_inv_core; [exact Hinv|apply set_pipe_core|done].
  - turn (udp_read_inv s srv g' now k buf err room Hinv).
  - by apply Close_inv'.
  - by apply close_flows_inv.
  - destruct Hinv. split; try done; [congruence|lia].
Qed.

Lemma sess_steps_inv x y : sess_steps x y -> sess_inv x.1.1 x.1.2 x.2 -> sess_inv y.1.1 y.1.2 y.2.
Proof.
  induction 1 as [x|x [[s srv] g] [[s' srv'] g'] _ IH Hs]; intros Hinv; [done|].
  by apply (sess_step_inv _ _ _ _ _ _ Hs), IH.
Qed.

Lemma newSession_inv id srv : sess_inv (newSession id) srv (streams srv).
Proof.
  split; cbn; try done; try lia.
  - split; cbn; try done. intros k. unfold held. cbn. split; [set_solver|]. by intros [[f Hf%lookup_empty_Some]|[f Hf%lookup_empty_Some]].
  - unfold flowCount. cbn [newSession qs_flows tcpFlows udpFlows]. rewrite !map_size_empty. lia.
  - unfold waiting. rewrite map_filter_empty, map_size_empty. lia.
Qed.

(** What [run_begin] leaves when the loops start. *)
Lemma run_begin_core s srv now accept room first s' srv' :
  run_begin s srv now accept room first = (s', srv', true) -> qs_control s = None ->
  exists w c p, accept = None /\ s' = qs_set_pipe (qs_set_auth (qs_set_control s (Some w)) c) p
    /\ streams srv' = streams srv /\ sr_cfg srv' = sr_cfg srv
    /\ p = mkPipeline (replicate (Z.to_nat (pipeline_workers (sr_cfg srv))) []) (pipeline_per_worker (sr_cfg srv))
             (dg_qlen (qs_pipe s)) false (udpProcessedSec (qs_pipe s)) (udpDropSec (qs_pipe s)) (dg_reassembly (qs_pipe s))
    /\ exists srv1, check_first_frame srv now first = (srv1, AuthOK c).
Proof.
  unfold run_begin. intros E Hn. destruct accept; [done|].
  destruct (check_first_frame srv now first) as [srv1 r] eqn:Ec. destruct (check_first_frame_frame _ _ _ _ _ Ec) as [v Hv].
  destruct r as [[fr|] e| |c]; try done. unfold writeFrame in E. cbn [qs_control qs_set_auth qs_set_control] in E.
  destruct (WriteFrame _ _ _) as [w [err|]] eqn:Ew; [done|]. unfold startDatagramPipeline in E.
  injection E as <- <-. exists w, c. eexists. split; [done|]. split; [reflexivity|]. subst srv1.
  split; [reflexivity|]. split; [reflexivity|]. split; [reflexivity|]. eauto.
Qed.

(** A state of a session that authenticated. *)
Definition sess_reachable s srv (g : Z) : Prop :=
  exists id srv0 now room first s0 srv1,
    run_begin (newSession id) srv0 now None room first = (s0, srv1, true)
    /\ sess_steps (s0, srv1, streams srv1) (s, srv, g).

Lemma sess_reachable_inv s srv g : sess_reachable s srv g -> sess_inv s srv g.
Proof.
  intros (id & srv0 & now & room & first & s0 & srv1 & Hrun & Hsteps). apply sess_steps_inv in Hsteps; [exact Hsteps|].
  destruct (run_begin_core _ _ _ _ _ _ _ _ Hrun eq_refl) as (w & c & p & _ & -> & Hs & Hc & _).
  cbn [fst snd]. destruct (newSession_inv id srv1). by split.
Qed.

(** ** Theorems *)


(** C10: Closing a QUIC session leaves nothing open: once [Close] is through, in every later state,
    also when a dial that was under way ends only then, the session has no flow and no open target
    socket, and no control frame is written any more. *)
Theorem quic_session_close_releases s srv g :
  sess_reachable s srv g -> qs_once s = SessionClosed ->
  flowCount s = 0 /\ sockets (qs_flows s) = ∅ /\ (forall t p, (writeFrame s t p).2 <> None).
Proof.
  intros Hr Ho. destruct (sess_reachable_inv s srv g Hr) as [Ht _ _ Hw Hcl _ _ _ _].
  destruct (Hcl Ho) as [E1 E2]. split_and!.
  - unfold flowCount. by rewrite E1, E2.
  - apply set_eq. intros k. rewrite (ft_sockets _ Ht). unfold held. rewrite E1, E2.
    split; [|by intros Hk%not_elem_of_empty]. by intros [[f Hf%lookup_empty_Some]|[f Hf%lookup_empty_Some]].
  - intros t p. apply writeFrame_fails, Hw. congruence.
Qed.

(** C31: No goroutine of a pump is left waiting: [errCh], of capacity 2, never holds more than one
    result per copying goroutine, so their sends never block; the caller waits on an empty channel
    only while both copy; and as soon as one has ended the caller can leave, after which the
    pump no longer counts in the stream gauge. *)
Theorem quic_pump_never_blocks s srv g k pm :
  sess_reachable s srv g -> qs_pumps s !! k = Some pm ->
  zlen (pm_err pm) <= 2
  /\ (pm_main pm = true -> pm_err pm = [] -> pm_up pm = true /\ pm_down pm = true)
  /\ (pm_main pm = true -> pm_err pm <> [] ->
        streams (pump_finish s srv k).2 = streams srv - 1
        /\ pm_main <$> (qs_pumps (pump_finish s srv k).1 !! k) = Some false).
Proof.
  intros Hr Hk. pose proof (sess_reachable_inv s srv g Hr) as Hinv.
  destruct (qi_pumps _ _ _ Hinv _ _ Hk) as [[id Hid] [Hl Hm]]. split_and!.
  - destruct (pm_up pm), (pm_down pm); lia.
  - intros _ He. rewrite He in Hl. change (zlen []) with 0 in Hl. destruct (pm_up pm), (pm_down pm); try done; lia.
  - intros Hmain Herr. unfold pump_finish. rewrite Hk, Hmain. destruct (pm_err pm) as [|err rest] eqn:Ee; [done|].
    unfold shape in Hid. rewrite lookup_fmap in Hid. destruct (tcpHeap (qs_flows s) !! k) as [f|]; [|done].
    cbn [fst snd]. split; [rewrite tcp_streams_gauge; lia|].
    match goal with |- context [closeFlow ?s1 ?i true] =>
      destruct (closeFlow_keeps s1 i true) as (_ & _ & E & _);
      assert (Hp : forall b : bool, qs_pumps (if b then Close s1 else closeFlow s1 i true) = qs_pumps s1)
        by (intros []; [unfold Close; by destruct (qs_once s1)|exact E]) end.
    rewrite Hp. cbn [qs_set_pumps qs_pumps]. by rewrite lookup_insert_eq.
Qed.

(** A stream that is attached after its flow was closed is never closed by the session: the flow's
    [closeOnce] has run, the pump ends at once because the target is closed, and its [closeFlow]
    finds no flow of that id. *)
Theorem quic_late_stream_leaks s srv st k id e :
  qs_attaching s !! st = Some k -> st ∈ flowStreams (qs_flows s) ->
  tcpHeap (qs_flows s) !! k = Some (mkTcpFlow id None true) ->
  tcpFlows (qs_flows s) !! id = None -> udpFlows (qs_flows s) !! id = None ->
  err_is e ErrMaxBytesPerMinuteSess = false ->
  let s1 := (handleFlowStream_attach s srv st).1 in
  let s2 := (pump_down_turn s1 srv 0 k [] (Some e) None).1 in
  let s3 := (pump_finish s2 srv k).1 in
  pm_main <$> (qs_pumps s3 !! k) = Some false /\ st ∈ flowStreams (qs_flows s3).
Proof.
  intros Ha Hst Hk Ht Hu He. unfold handleFlowStream_attach. rewrite Ha. cbn [qs_set_attaching qs_flows]. rewrite Hk. cbn [tf_stream fst tf_id tf_closed].
  cbn zeta. unfold pump_down_turn. change (0 <? zlen []) with false. cbv iota. cbn [fst]. unfold pump_turn_end.
  unfold pump_post. cbn [qs_set_pumps qs_pumps]. rewrite lookup_insert_eq. cbn [pm_stream pm_up pm_down pm_main pm_err app].
  unfold pump_finish. cbn [qs_set_pumps qs_pumps qs_set_flows qs_flows tcpHeap]. rewrite !lookup_insert_eq.
  cbn [pm_main pm_err fst tf_id].
  assert (Hlim : forall o : option goerr, (o = None \/ o = Some e) ->
    match o with Some e => err_is e ErrMaxBytesPerMinuteSess | None => false end = false) by (intros o [->|Eo]; [done|by subst o]).
  rewrite Hlim by (destruct (err_is e EEOF); auto).
  unfold closeFlow. cbn [qs_flows tcpFlows udpFlows qs_set_pumps qs_set_flows qs_set_attaching]. rewrite Ht, Hu. cbn [qs_pumps qs_flows flowStreams].
  cbn [qs_pumps qs_set_pumps qs_set_flows qs_flows flowStreams]. by rewrite lookup_insert_eq.
Qed.
End SessionFacts.

(** *** Witnesses *)

(** An authenticated session: it opens TCP flow 7 on socket 10, stream 3 is attached to it, the
    target ends; or the session is closed. *)
Definition ex_first_frame : res Frame := Ok (mkFrame FrameAUTH (EncodeAuthPayload ex_auth)).
Definition ex_run := run_begin (newSession 1) ex_auth_server (UnixMilli 1000000) None None ex_first_frame.
Definition ex_q0 : Session := Eval vm_compute in ex_run.1.1.
Definition ex_v0 : Server StaticSecretProvider := Eval vm_compute in ex_run.1.2.
Definition ex_q1 := (controlLoop_turn ex_q0 ex_v0 0 (Ok ex_open_frame)).1.
Definition ex_q2 := finish_open ex_q1.1 ex_q1.2 None (Ok 10).
Definition ex_q3 := handleFlowStream_lookup ex_q2.1 3 (Ok (be_put 8 7)).
Definition ex_q4 := handleFlowStream_attach ex_q3 ex_q2.2 3.
Definition ex_q5 := pump_down_turn ex_q4.1 ex_q4.2 0 10 [] (Some EEOF) None.
Definition ex_q6 := close_flows (Close ex_q5.1).

Lemma ex_run_started : ex_run = (ex_q0, ex_v0, true).
Proof. vm_compute. reflexivity. Defined.

Lemma ex_q5_reachable : sess_reachable ex_q5.1 ex_q5.2 (streams ex_v0).
Proof.
  exists 1, ex_auth_server, (UnixMilli 1000000), None, ex_first_frame, ex_q0, ex_v0. split; [exact ex_run_started|].
  eapply ss_more; [eapply ss_more; [eapply ss_more; [eapply ss_more; [eapply ss_more; [apply ss_refl|]|]|]|]|].
  - apply (st_control ex_q0 ex_v0 (streams ex_v0) 0 (Ok ex_open_frame) ex_q1.1 ex_q1.2 true); vm_compute; reflexivity.
  - apply (st_open ex_q1.1 ex_q1.2 (streams ex_v0) None (Ok 10) ex_q2.1 ex_q2.2); [|apply surjective_pairing].
    intros k [= <-]. split; vm_compute; reflexivity.
  - apply (st_lookup ex_q2.1 ex_q2.2 (streams ex_v0) 3 (Ok (be_put 8 7))); [|vm_compute; reflexivity].
    apply (bool_decide_unpack _). vm_compute. exact I.
  - apply (st_attach ex_q3 ex_q2.2 (streams ex_v0) 3 ex_q4.1 ex_q4.2). apply surjective_pairing.
  - apply (st_down ex_q4.1 ex_q4.2 (streams ex_v0) 0 10 [] (Some EEOF) None (mkPump 3 true true true [])); vm_compute; reflexivity.
Defined.


Lemma quic_session_close_releases_witness :
  flowCount ex_q6 = 0 /\ sockets (qs_flows ex_q6) = ∅ /\ (forall t p, (writeFrame ex_q6 t p).2 <> None).
Proof.
  apply (quic_session_close_releases ex_q6 ex_q5.2 (streams ex_v0)); [|reflexivity].
  destruct ex_q5_reachable as (id & srv0 & now & room & first & s0 & srv1 & Hrun & Hsteps).
  exists id, srv0, now, room, first, s0, srv1. split; [exact Hrun|].
  eapply ss_more; [eapply ss_more; [exact Hsteps|apply st_close]|apply st_close_flows; reflexivity].
Defined.

Lemma quic_pump_never_blocks_witness :
  let pm := mkPump 3 true false true [None] in
  zlen (pm_err pm) <= 2
  /\ (pm_main pm = true -> pm_err pm = [] -> pm_up pm = true /\ pm_down pm = true)
  /\ (pm_main pm = true -> pm_err pm <> [] ->
        streams (pump_finish ex_q5.1 ex_q5.2 10).2 = streams ex_q5.2 - 1
        /\ pm_main <$> (qs_pumps (pump_finish ex_q5.1 ex_q5.2 10).1 !! 10) = Some false).
Proof.
  apply (quic_pump_never_blocks ex_q5.1 ex_q5.2 (streams ex_v0) 10 (mkPump 3 true false true [None]));
    [exact ex_q5_reachable|vm_compute; reflexivity].
Defined.

(** Between the lookup of stream 3 and its attachment the client closes flow 7. *)
Definition ex_q_late : Session := closeFlow ex_q3 7 false.

Lemma quic_late_stream_leaks_witness :
  let s1 := (handleFlowStream_attach ex_q_late ex_v0 3).1 in
  let s2 := (pump_down_turn s1 ex_v0 0 10 [] (Some ENetClosed) None).1 in
  let s3 := (pump_finish s2 ex_v0 10).1 in
  pm_main <$> (qs_pumps s3 !! 10) = Some false /\ 3 ∈ flowStreams (qs_flows s3).
Proof.
  apply (quic_late_stream_leaks ex_q_late ex_v0 3 10 7 ENetClosed); try (vm_compute; reflexivity).
Defined.
