(* ===== verification/SessionPipe.v ===== *)
(** * Sessions over QUIC: what the datagram pipeline guarantees

    Order, bounds and routing of the queues between reader and workers, the delivery of a UDP
    payload in both directions, and the drift of the queue length counter. *)

From S2P Require Import Prelude Wire Frame Datagram GoString Crypto Auth Limits Wheel Store Metrics Server Handshake TCPSession Session SessionUDP SessionInv.

(** ** Histories *)

(** The packets the reader put on a queue and the packets taken from the queues, in order. *)
Record traffic := mkTraffic { tr_in : list DatagramPacket; tr_out : list DatagramPacket }.

Definition of_flow (f : Z) (l : list DatagramPacket) : list DatagramPacket :=
  List.filter (fun p => dp_FlowID p =? f) l.

(** The packets that a queue operation moved. *)
Definition outcome_in (o : read_outcome) : list DatagramPacket :=
  match o with Queued pkt => [pkt] | Dropped _ => [] end.
Definition outcome_out (o : option DatagramPacket) : list DatagramPacket :=
  match o with Some pkt => [pkt] | None => [] end.

(** The total length of the queues. *)
Definition queued (p : pipeline) : Z := Z.of_nat (sum_list_with length (dg_queues p)).

Record pipe_inv (p : pipeline) (h : traffic) : Prop := {
  pv_workers : 0 < zlen (dg_queues p);
  pv_cap : forall i q, dg_queues p !! i = Some q -> zlen q <= dg_cap p;
  pv_route : forall i q pkt, dg_queues p !! i = Some q -> pkt ∈ q ->
    i = Z.to_nat (dp_FlowID pkt mod zlen (dg_queues p));
  pv_order : forall f, of_flow f (tr_in h) = of_flow f (tr_out h)
    ++ of_flow f (default [] (dg_queues p !! Z.to_nat (f mod zlen (dg_queues p))));
  pv_qlen : 0 <= dg_qlen p /\ queued p <= dg_qlen p + (if dg_uncounted p then 1 else 0) }.

(** The pipeline as far as [pipe_inv] reads it. *)
Definition same_pipe (p p' : pipeline) : Prop :=
  dg_queues p' = dg_queues p /\ dg_cap p' = dg_cap p /\ dg_qlen p' = dg_qlen p /\ dg_uncounted p' = dg_uncounted p.

#[local] Instance same_pipe_refl : Reflexive same_pipe.
Proof. by intros p. Qed.
#[local] Instance same_pipe_trans : Transitive same_pipe.
Proof. intros a b c (A1 & A2 & A3 & A4) (B1 & B2 & B3 & B4). split_and!; congruence. Qed.

Lemma pipe_inv_same p p' h : pipe_inv p h -> same_pipe p p' -> pipe_inv p' h.
Proof. intros [] (E1 & E2 & E3 & E4). unfold queued in *. split; unfold queued; rewrite ?E1, ?E2, ?E3, ?E4; done. Qed.

Lemma of_flow_app f l k : of_flow f (l ++ k) = of_flow f l ++ of_flow f k.
Proof. apply List.filter_app. Qed.

Lemma of_flow_nil f (l : list DatagramPacket) : (forall p, p ∈ l -> dp_FlowID p <> f) -> of_flow f l = [].
Proof.
  induction l as [|p l IH]; intros Hl; [done|]. unfold of_flow. cbn. rewrite (proj2 (Z.eqb_neq _ _)) by (apply Hl; by left).
  apply IH. intros q Hq. apply Hl. by right.
Qed.

Lemma sum_insert (l : list (list DatagramPacket)) i q q' :
  l !! i = Some q ->
  Z.of_nat (sum_list_with length (<[i := q']> l)) = Z.of_nat (sum_list_with length l) - zlen q + zlen q'.
Proof.
  revert i. induction l as [|x l IH]; intros [|i] Hi; [done..| |].
  - injection Hi as ->. change (<[0%nat := q']> (q :: l)) with (q' :: l). cbn [sum_list_with]. unfold zlen. lia.
  - change (<[S i := q']> (x :: l)) with (x :: <[i := q']> l). cbn [sum_list_with].
    rewrite !Nat2Z.inj_add, (IH i Hi). lia.
Qed.

(** Appending a packet to the queue of its flow. *)
Lemma enqueue_pipe p h pkt :
  let i := Z.to_nat (dp_FlowID pkt mod zlen (dg_queues p)) in
  let q := default [] (dg_queues p !! i) in
  pipe_inv p h -> dg_uncounted p = false -> zlen q < dg_cap p ->
  pipe_inv (pp_set_queues p (<[i := q ++ [pkt]]> (dg_queues p)) true) (mkTraffic (tr_in h ++ [pkt]) (tr_out h)).
Proof.
  cbn zeta. intros Hinv Hun Hq. set (n := zlen (dg_queues p)). set (i := Z.to_nat (dp_FlowID pkt mod n)).
  pose proof (pv_workers _ _ Hinv) as Hn. fold n in Hn.
  assert (Hi : is_Some (dg_queues p !! i)).
  { apply lookup_lt_is_Some. pose proof (Z.mod_pos_bound (dp_FlowID pkt) n Hn). unfold n, zlen in *. lia. }
  destruct Hi as [q Eq]. fold n i in Hq |- *. rewrite Eq in Hq |- *. change (default [] (Some q)) with q in *.
  destruct Hinv as [_ Hc Hr Ho Hl]. fold n in Hr, Ho.
  assert (Hlen : zlen (<[i := q ++ [pkt]]> (dg_queues p)) = n) by (unfold zlen; by rewrite length_insert).
  split; cbn [pp_set_queues dg_queues dg_cap dg_qlen dg_uncounted tr_in tr_out]; rewrite ?Hlen; try done.
  - intros j x Hj. apply list_lookup_insert_Some in Hj as [(-> & <- & _)|[Hne Hj]]; [|by eapply Hc].
    rewrite zlen_app. change (zlen [pkt]) with 1. lia.
  - intros j x y Hj Hy. apply list_lookup_insert_Some in Hj as [(Ei & <- & _)|[Hne Hj]]; [|by eapply Hr]. rewrite <- Ei.
    apply elem_of_app in Hy as [Hy|Hy%list_elem_of_singleton]; [by eapply Hr|by subst y].
  - intros f. rewrite of_flow_app, (Ho f), <- app_assoc. f_equal. set (j := Z.to_nat (f mod n)).
    destruct (decide (j = i)) as [Eji|Hne].
    + rewrite Eji, list_lookup_insert_eq by (apply lookup_lt_is_Some; eauto). rewrite Eq.
      change (of_flow f q ++ of_flow f [pkt] = of_flow f (q ++ [pkt])). by rewrite of_flow_app.
    + rewrite list_lookup_insert_ne by done. rewrite (of_flow_nil f [pkt]); [apply app_nil_r|].
      intros y Hy%list_elem_of_singleton. subst y. intros <-. done.
  - unfold queued in *. cbn [pp_set_qlen pp_set_queues dg_queues]. rewrite (sum_insert _ _ _ _ Eq), zlen_app. change (zlen [pkt]) with 1.
    rewrite Hun in Hl. lia.
Qed.

(** Taking the first packet of a queue, with the clamped decrement. *)
Lemma dequeue_pipe p h i pkt q :
  pipe_inv p h -> dg_queues p !! i = Some (pkt :: q) ->
  pipe_inv (pp_set_qlen (pp_set_queues p (<[i := q]> (dg_queues p)) (dg_uncounted p))
              (if dg_qlen p - 1 <? 0 then 0 else dg_qlen p - 1) (dg_uncounted p))
           (mkTraffic (tr_in h) (tr_out h ++ [pkt])).
Proof.
  intros Hinv Eq. destruct Hinv as [Hn Hc Hr Ho Hl]. set (n := zlen (dg_queues p)) in *.
  assert (Hlen : zlen (<[i := q]> (dg_queues p)) = n) by (unfold zlen; by rewrite length_insert).
  split; cbn [pp_set_queues pp_set_qlen dg_queues dg_cap dg_qlen dg_uncounted tr_in tr_out]; rewrite ?Hlen; try done.
  - intros j x Hj. apply list_lookup_insert_Some in Hj as [(-> & <- & _)|[Hne Hj]]; [|by eapply Hc].
    specialize (Hc _ _ Eq). rewrite zlen_cons in Hc. lia.
  - intros j x y Hj Hy. apply list_lookup_insert_Some in Hj as [(-> & <- & _)|[Hne Hj]]; [|by eapply Hr].
    eapply Hr; [exact Eq|by right].
  - intros f. rewrite (Ho f), of_flow_app, <- app_assoc. f_equal. set (j := Z.to_nat (f mod n)).
    destruct (decide (j = i)) as [Eji|Hne].
    + rewrite Eji, Eq, list_lookup_insert_eq by (apply lookup_lt_is_Some; eauto). cbn. by destruct (_ =? f).
    + rewrite list_lookup_insert_ne by done. rewrite (of_flow_nil f [pkt]); [done|].
      intros y Hy%list_elem_of_singleton. subst y. intros <-. apply Hne. symmetry. by apply (Hr _ _ pkt Eq); left.
  - unfold queued in *. cbn [pp_set_qlen pp_set_queues dg_queues]. rewrite (sum_insert _ _ _ _ Eq). rewrite zlen_cons.
    destruct (dg_qlen p - 1 <? 0) eqn:E; zbool; destruct (dg_uncounted p); lia.
Qed.

(** ** Turns and the pipeline *)

Lemma closeFlow_pipe s f n : qs_pipe (closeFlow s f n) = qs_pipe s.
Proof. by destruct (closeFlow_keeps s f n) as (_ & _ & _ & _ & _ & -> & _). Qed.
Lemma writeFrame_pipe s t p : qs_pipe (writeFrame s t p).1 = qs_pipe s.
Proof. by destruct (writeFrame_keeps s t p) as (_ & _ & _ & _ & _ & _ & -> & _). Qed.
Lemma Close_pipe s : qs_pipe (Close s) = qs_pipe s.
Proof. unfold Close. by destruct (qs_once s). Qed.
Lemma pump_post_pipe s k up e : qs_pipe (pump_post s k up e) = qs_pipe s.
Proof. unfold pump_post. by destruct (qs_pumps s !! k). Qed.
Lemma pump_end_pipe s k up e : qs_pipe (pump_turn_end s k up e) = qs_pipe s.
Proof. unfold pump_turn_end. destruct e; [apply pump_post_pipe|done]. Qed.

Section PipeFacts.
  Context {P : Type} `{SecretProvider P}.
  Implicit Types srv : Server P.

Lemma open_pipe s srv ft p : qs_pipe (open_check s srv ft p).1 = qs_pipe s.
Proof. unfold open_check. repeat case_match; cbn [fst]; rewrite ?writeFrame_pipe; done. Qed.

Lemma control_pipe s srv now f : qs_pipe (controlLoop_turn s srv now f).1.1 = qs_pipe s.
Proof.
  unfold controlLoop_turn. destruct f as [f|e|m]; [|apply Close_pipe|done]. cbn zeta.
  repeat (case_match; cbn [fst]; try done); rewrite ?writeFrame_pipe, ?closeFlow_pipe; try done;
    unfold handleOpenTCP, handleOpenUDP;
    match goal with |- context [open_check ?a ?b ?c ?d] => pose proof (open_pipe a b c d) as Hp; destruct (open_check a b c d) as [s1 []] end;
    exact Hp.
Qed.

Lemma finish_open_pipe s srv r d : qs_pipe (finish_open s srv r d).1 = qs_pipe s.
Proof.
  unfold finish_open. destruct (qs_opening s) as [[u p]|]; [|done].
  assert (Hc : forall s1 ty pl f, qs_pipe s1 = qs_pipe s ->
    forall s2 err, writeFrame s1 ty pl = (s2, err) -> qs_pipe s2 = qs_pipe s /\ qs_pipe (closeFlow s2 f false) = qs_pipe s).
  { intros s1 ty pl f E s2 err Ew. pose proof (writeFrame_pipe s1 ty pl) as Hp. rewrite Ew in Hp. cbn in Hp.
    rewrite closeFlow_pipe. split; congruence. }
  destruct u; unfold open_udp_finish, open_tcp_finish; repeat (case_match; cbn [fst]; rewrite ?writeFrame_pipe; try done);
    match goal with E : writeFrame ?s1 _ _ = _ |- _ => destruct (Hc s1 _ _ (op_FlowID p) eq_refl _ _ E) as [? ?] end; done.
Qed.

Lemma streams_pipe s srv st raw k now buf e w :
  qs_pipe (acceptFlowStreams_err s) = qs_pipe s /\ qs_pipe (handleFlowStream_lookup s st raw) = qs_pipe s
  /\ qs_pipe (handleFlowStream_attach s srv st).1 = qs_pipe s /\ qs_pipe (pump_up_turn s srv now k buf e w).1 = qs_pipe s
  /\ qs_pipe (pump_down_turn s srv now k buf e w).1 = qs_pipe s /\ qs_pipe (pump_finish s srv k).1 = qs_pipe s.
Proof.
  unfold acceptFlowStreams_err, handleFlowStream_lookup, handleFlowStream_attach, pump_up_turn, pump_down_turn, pump_finish.
  split_and!; repeat (case_match; cbn [fst]; rewrite ?pump_post_pipe, ?pump_end_pipe, ?Close_pipe, ?closeFlow_pipe; try done).
Qed.

Lemma send_pipe pkts : forall s srv room, qs_pipe (send_packets s srv pkts room).1.1 = qs_pipe s.
Proof.
  induction pkts as [|p pkts IH]; intros s srv room; [done|]. cbn [send_packets].
  destruct room as [[|n]|]; [done|by rewrite IH..].
Qed.

Lemma udp_loop_end_pipe s k : qs_pipe (udp_loop_end s k) = qs_pipe s.
Proof. done. Qed.

Lemma udp_end_pipe s k f e : qs_pipe (udp_turn_end s k f e) = qs_pipe s.
Proof. unfold udp_turn_end. destruct e; [|done]. destruct (ctx_done s); [done|apply closeFlow_pipe]. Qed.

Lemma udp_pipe s srv now k buf e room : qs_pipe (udpReadLoop_turn s srv now k buf e room).1 = qs_pipe s.
Proof.
  unfold udpReadLoop_turn. destruct (udpHeap (qs_flows s) !! k) as [f|]; [|done].
  destruct (0 <? zlen buf); [|apply udp_end_pipe]. destruct (AllowSessionBytes _ _ _ _) as [l [e1|]]; [apply Close_pipe|].
  destruct (FragmentDatagram _ _ _ _) as [pkts| |]; [|cbn [fst]; by rewrite udp_loop_end_pipe, closeFlow_pipe..].
  match goal with |- context [send_packets ?a ?b ?c ?d] => pose proof (send_pipe c a b d) as Hp; destruct (send_packets a b c d) as [[s2 srv2] sent] end.
  cbn [fst] in Hp. destruct sent; cbn [fst]; [by rewrite udp_end_pipe|by rewrite udp_loop_end_pipe, closeFlow_pipe].
Qed.

Lemma drop_pipe s srv r : same_pipe (qs_pipe s) (qs_pipe (observeDatagramDrop s srv r).1).
Proof. unfold observeDatagramDrop. cbn [fst]. by case_match. Qed.

Lemma process_pipe s srv now pkt w : same_pipe (qs_pipe s) (qs_pipe (processDatagramTask s srv now pkt w).1).
Proof.
  unfold processDatagramTask. destruct (Add _ _ _) as [r [pl d]]. set (s1 := qs_set_pipe s _).
  assert (H1 : same_pipe (qs_pipe s) (qs_pipe s1)) by done. clearbody s1. destruct d; cbn [negb]; [|done].
  destruct (AllowSessionBytes _ _ _ _) as [l err].
  assert (Hd : forall r, same_pipe (qs_pipe s) (qs_pipe (observeDatagramDrop s1 (srv_limits srv l) r).1))
    by (intros r'; etrans; [exact H1|apply drop_pipe]).
  destruct err.
  { specialize (Hd datagramDropBudget). destruct (observeDatagramDrop _ _ _). cbn [fst] in *. by rewrite Close_pipe. }
  destruct (udpFlows _ !! _); [|apply Hd]. destruct w; [|done].
  specialize (Hd datagramDropWriteFail). destruct (observeDatagramDrop _ _ _). cbn [fst] in *. by rewrite closeFlow_pipe.
Qed.

(** What a turn of the reader and a receive do to the queues. *)
Lemma read_pipe s srv now raw h :
  pipe_inv (qs_pipe s) h -> dg_uncounted (qs_pipe s) = false ->
  let '(s', _, o) := datagramReadLoop_turn s srv now raw in
  pipe_inv (qs_pipe s') (mkTraffic (tr_in h ++ outcome_in o) (tr_out h)).
Proof.
  intros Hinv Hun.
  assert (Hsame : forall p', same_pipe (qs_pipe s) p' -> pipe_inv p' (mkTraffic (tr_in h ++ []) (tr_out h))).
  { intros p' Hp. rewrite app_nil_r. destruct h. by eapply pipe_inv_same. }
  unfold datagramReadLoop_turn. destruct (DecodeDatagramPacket raw) as [pkt| |];
    [|destruct (observeDatagramDrop _ _ _) eqn:E; apply Hsame; pose proof (drop_pipe s (qs_touch (srv_observe srv (fun m => ObserveRecvDatagram m (zlen raw))) now s) datagramDropParseFail) as Hd; by rewrite E in Hd..].
  destruct (AllowUDPPacket _ _ _) as [l [e|]].
  { pose proof (drop_pipe s (srv_limits (qs_touch (srv_observe srv (fun m => ObserveRecvDatagram m (zlen raw))) now s) l) datagramDropBudget) as Hd.
    destruct (observeDatagramDrop _ _ _). by apply Hsame. }
  cbn zeta. unfold queue_index. destruct (_ <? dg_cap (qs_pipe s)) eqn:Ec.
  - zbool. cbn [outcome_in]. apply enqueue_pipe; done.
  - pose proof (drop_pipe s (srv_limits (qs_touch (srv_observe srv (fun m => ObserveRecvDatagram m (zlen raw))) now s) l) datagramDropQueueFull) as Hd.
    destruct (observeDatagramDrop _ _ _). by apply Hsame.
Qed.

Lemma take_pipe s srv i h :
  pipe_inv (qs_pipe s) h ->
  let '(s', _, o) := dequeue s srv i in pipe_inv (qs_pipe s') (mkTraffic (tr_in h) (tr_out h ++ outcome_out o)).
Proof.
  intros Hinv. unfold dequeue. destruct (dg_queues (qs_pipe s) !! i) as [[|pkt q]|] eqn:Eq;
    [cbn; rewrite app_nil_r; by destruct h| |cbn; rewrite app_nil_r; by destruct h].
  exact (dequeue_pipe _ _ _ _ _ Hinv Eq).
Qed.

(** ** Runs with their traffic *)

(** A run of a session that authenticated, with the packets that went into and out of its queues. *)
Inductive sess_run : Session -> Server P -> Z -> traffic -> Prop :=
| run_start id srv0 now room first s srv :
    run_begin (newSession id) srv0 now None room first = (s, srv, true) ->
    sess_run s srv (streams srv) (mkTraffic [] [])
| run_read s srv g h now raw s' srv' o :
    sess_run s srv g h -> dg_uncounted (qs_pipe s) = false -> datagramReadLoop_turn s srv now raw = (s', srv', o) ->
    sess_run s' srv' g (mkTraffic (tr_in h ++ outcome_in o) (tr_out h))
| run_count s srv g h s' srv' :
    sess_run s srv g h -> dg_uncounted (qs_pipe s) = true -> datagramReadLoop_count s srv = (s', srv') ->
    sess_run s' srv' g h
| run_worker s srv g h now i write s' srv' :
    sess_run s srv g h -> datagramWorkerLoop_turn s srv now i write = (s', srv') ->
    sess_run s' srv' g (mkTraffic (tr_in h) (tr_out h ++ outcome_out (dequeue s srv i).2))
| run_drain s srv g h i s' srv' :
    sess_run s srv g h -> ctx_done s = true -> drainDatagramQueue_turn s srv i = (s', srv') ->
    sess_run s' srv' g (mkTraffic (tr_in h) (tr_out h ++ outcome_out (dequeue s srv i).2))
| run_other s srv g h s' srv' g' :
    sess_run s srv g h -> sess_step (s, srv, g) (s', srv', g') -> same_pipe (qs_pipe s) (qs_pipe s') ->
    sess_run s' srv' g' h.

(** Every reachable state is reached by such a run. *)
Lemma reachable_run s srv g : sess_reachable s srv g -> exists h, sess_run s srv g h.
Proof.
  intros (id & srv0 & now & room & first & s0 & srv1 & Hrun & Hsteps).
  remember (s0, srv1, streams srv1) as x eqn:Ex. remember (s, srv, g) as y eqn:Ey. revert s srv g Ey.
  induction Hsteps as [x|x [[s1 srv2] g1] z Hs IH Hstep]; intros s srv g Ey; subst.
  { simplify_eq. eexists. by eapply run_start. }
  destruct (IH eq_refl _ _ _ eq_refl) as [h Hh].
  assert (Hother : qs_pipe s = qs_pipe s1 -> exists h, sess_run s srv g h).
  { intros E. exists h. eapply run_other; [exact Hh|exact Hstep|by rewrite E]. }
  assert (Hp := fun st raw k now buf e w => streams_pipe s1 srv2 st raw k now buf e w).
  inversion Hstep; subst.
  - match goal with E : _ = (_, _) |- _ => pose proof (control_pipe s1 srv2 now0 f) as Hq; rewrite E in Hq end. by apply Hother.
  - match goal with E : _ = (_, _) |- _ => pose proof (finish_open_pipe s1 srv2 resolve dial) as Hq; rewrite E in Hq end. by apply Hother.
  - apply Hother. by destruct (Hp 0 (Ok []) 0 0 [] None None) as (-> & _).
  - apply Hother. by destruct (Hp st raw 0 0 [] None None) as (_ & -> & _).
  - apply Hother. destruct (Hp st (Ok []) 0 0 [] None None) as (_ & _ & Hq & _). by match goal with E : _ = (_, _) |- _ => rewrite E in Hq end.
  - apply Hother. destruct (Hp 0 (Ok []) k now0 buf err write) as (_ & _ & _ & Hq & _). by match goal with E : _ = (_, _) |- _ => rewrite E in Hq end.
  - apply Hother. destruct (Hp 0 (Ok []) k now0 buf err write) as (_ & _ & _ & _ & Hq & _). by match goal with E : _ = (_, _) |- _ => rewrite E in Hq end.
  - apply Hother. destruct (Hp 0 (Ok []) k 0 [] None None) as (_ & _ & _ & _ & _ & Hq). by match goal with E : _ = (_, _) |- _ => rewrite E in Hq end.
  - apply Hother. apply writeFrame_pipe.
  - eexists. by eapply run_read.
  - eexists. by eapply run_count.
  - eexists. by eapply run_worker.
  - eexists. by eapply run_drain.
  - exists h. by eapply run_other.
  - apply Hother. match goal with E : _ = (_, _) |- _ => pose proof (udp_pipe s1 srv2 now0 k buf err room0) as Hq; by rewrite E in Hq end.
  - apply Hother, Close_pipe.
  - by apply Hother.
  - by apply Hother.
Qed.

Lemma sess_run_inv s srv g h : sess_run s srv g h -> pipe_inv (qs_pipe s) h.
Proof.
  induction 1 as [id srv0 now room first s srv Hrun|s srv g h now raw s' srv' o _ IH Hun E|s srv g h s' srv' _ IH Hun E
                 |s srv g h now i write s' srv' _ IH E|s srv g h i s' srv' _ IH _ E|s srv g h s' srv' g' _ IH _ Hp].
  - destruct (run_begin_core _ _ _ _ _ _ _ _ Hrun eq_refl) as (w & c & p & _ & -> & _ & _ & -> & _). cbn [qs_set_pipe qs_pipe].
    assert (Hw : 0 < pipeline_workers (sr_cfg srv0)) by (unfold pipeline_workers; destruct (_ <=? 0) eqn:E; zbool; lia).
    assert (Hl : forall i q, replicate (Z.to_nat (pipeline_workers (sr_cfg srv0))) (@nil DatagramPacket) !! i = Some q -> q = [])
      by (by intros i q [-> _]%lookup_replicate).
    split; cbn [dg_queues dg_cap dg_qlen dg_uncounted newSession qs_pipe tr_in tr_out].
    + unfold zlen. rewrite length_replicate. lia.
    + intros i q ->%Hl. unfold pipeline_per_worker. change (zlen []) with 0. case_match; zbool; lia.
    + intros i q pkt ->%Hl Hin. by apply elem_of_nil in Hin.
    + intros f. destruct (_ !! Z.to_nat _) eqn:E; [|done]. by apply Hl in E as ->.
    + unfold queued. cbn [dg_queues]. split; [lia|]. clear. induction (Z.to_nat _); cbn; lia.
  - pose proof (read_pipe s srv now raw h IH Hun) as Hp. by rewrite E in Hp.
  - injection E as <- <-. destruct IH as [A B C D [E1 E2]]. rewrite Hun in E2. split; try done. unfold queued in *. cbn. lia.
  - pose proof (take_pipe s srv i h IH) as Hp. unfold datagramWorkerLoop_turn in E. destruct (dequeue s srv i) as [[s1 srv1] o].
    cbn [snd]. destruct o as [pkt|]; [|by simplify_eq]. pose proof (process_pipe s1 srv1 now pkt write) as Hq. rewrite E in Hq.
    by eapply pipe_inv_same.
  - pose proof (take_pipe s srv i h IH) as Hp. unfold drainDatagramQueue_turn in E. destruct (dequeue s srv i) as [[s1 srv1] o].
    cbn [fst snd] in *. by simplify_eq.
  - by eapply pipe_inv_same.
Qed.

(** ** Theorems *)


(** The queue length counter can drift up for good: when a worker takes a packet between the
    reader's send and the reader's increment, the worker's decrement is clamped at 0 and the
    increment is kept, so that all queues are empty and the counter is 1. *)
Theorem queue_length_drifts s srv now raw pkt s1 srv1 s2 srv2 :
  (forall i q, dg_queues (qs_pipe s) !! i = Some q -> q = []) -> dg_qlen (qs_pipe s) = 0 ->
  0 < zlen (dg_queues (qs_pipe s)) ->
  datagramReadLoop_turn s srv now raw = (s1, srv1, Queued pkt) ->
  drainDatagramQueue_turn s1 srv1 (queue_index s (dp_FlowID pkt)) = (s2, srv2) ->
  let s3 := (datagramReadLoop_count s2 srv2).1 in
  (forall i q, dg_queues (qs_pipe s3) !! i = Some q -> q = []) /\ dg_qlen (qs_pipe s3) = 1.
Proof.
  intros Hem Hq Hn E1 E2. set (i := queue_index s (dp_FlowID pkt)) in *.
  assert (Hi : dg_queues (qs_pipe s) !! i = Some []).
  { assert (is_Some (dg_queues (qs_pipe s) !! i)) as [q Hi].
    { apply lookup_lt_is_Some. unfold i, queue_index. pose proof (Z.mod_pos_bound (dp_FlowID pkt) _ Hn). unfold zlen in *. lia. }
    by rewrite (Hem _ _ Hi) in Hi. }
  assert (Hs1 : qs_pipe s1 = pp_set_queues (qs_pipe s) (<[i := [pkt]]> (dg_queues (qs_pipe s))) true).
  { unfold datagramReadLoop_turn in E1. destruct (DecodeDatagramPacket raw) as [p| |]; [|by destruct (observeDatagramDrop _ _ _)..].
    destruct (AllowUDPPacket _ _ _) as [l [e|]]; [by destruct (observeDatagramDrop _ _ _)|].
    cbn zeta in E1. case_match; [|by destruct (observeDatagramDrop _ _ _)]. injection E1 as <- _ <-. fold i. by rewrite Hi. }
  unfold drainDatagramQueue_turn, dequeue in E2. rewrite Hs1 in E2. cbn [pp_set_queues dg_queues] in E2.
  rewrite list_lookup_insert_eq in E2 by (apply lookup_lt_is_Some; eauto). cbn [fst dg_qlen pp_set_qlen pp_set_queues] in E2. rewrite Hq in E2.
  injection E2 as <- _. cbn [datagramReadLoop_count fst qs_set_pipe qs_pipe pp_set_qlen pp_set_queues dg_queues dg_qlen].
  split; [|done]. intros j q Hj. rewrite list_insert_insert_eq in Hj.
  apply list_lookup_insert_Some in Hj as [(_ & <- & _)|[_ Hj]]; [done|by eapply Hem].
Qed.
(** ** Payloads end to end *)

(** A worker processes packets of one queue at the given times; the target takes every write. *)
Fixpoint process_all (s : Session) srv (tr : list (Z * DatagramPacket)) : Session * Server P :=
  match tr with
  | [] => (s, srv)
  | (now, pkt) :: tr => let '(s, srv) := processDatagramTask s srv now pkt None in process_all s srv tr
  end.

(** The packet that completes a payload delivers it. *)
Lemma process_done s srv now pkt k r payload :
  Add now (dg_reassembly (qs_pipe s)) pkt = (r, (payload, true)) ->
  udpFlows (qs_flows s) !! dp_FlowID pkt = Some k ->
  (AllowSessionBytes (sr_limits srv) now (qs_id s) (zlen payload)).2 = None ->
  qs_toTarget (processDatagramTask s srv now pkt None).1 !! k = Some (default [] (qs_toTarget s !! k) ++ [payload]).
Proof.
  intros Ea Hf Hl. unfold processDatagramTask. rewrite Ea. cbn [negb].
  cbn [qs_set_pipe qs_id qs_flows]. destruct (AllowSessionBytes _ _ _ _) as [l err]. cbn [snd] in Hl. subst err.
  rewrite Hf. cbn [fst]. cbn [qs_set_pipe write_target qs_toTarget]. apply lookup_insert_eq.
Qed.

(** A packet that does not only fills the reassembly buffer. *)
Lemma process_more s srv now pkt r x :
  Add now (dg_reassembly (qs_pipe s)) pkt = (r, (x, false)) ->
  processDatagramTask s srv now pkt None = (qs_set_pipe s (pp_set_reassembly (qs_pipe s) r), srv).
Proof. intros Ea. unfold processDatagramTask. by rewrite Ea. Qed.

Lemma process_train f seq k t0 tr : forall s srv,
  Forall (fun tp => t0 <= tp.1 <= t0 + reassemblyTTL) tr ->
  fresh_key t0 (dg_reassembly (qs_pipe s)) (f, seq) -> train (f, seq) (map snd tr) ->
  udpFlows (qs_flows s) !! f = Some k ->
  Forall (fun tp => (AllowSessionBytes (sr_limits srv) tp.1 (qs_id s)
     (zlen (key_data (dg_reassembly (qs_pipe s)) (f, seq) ++ train_payload (map snd tr)))).2 = None) tr ->
  qs_toTarget (process_all s srv tr).1 !! k
  = Some (default [] (qs_toTarget s !! k) ++ [key_data (dg_reassembly (qs_pipe s)) (f, seq) ++ train_payload (map snd tr)]).
Proof.
  induction tr as [|[now pkt] tr IH]; intros s srv Ht Hfr Htr Hf Hl; [done|].
  apply Forall_cons in Ht as [Hnow Ht], Hl as [Hl0 Hl]. cbn [fst] in Hnow, Hl0. cbn [map snd] in *.
  set (r := dg_reassembly (qs_pipe s)) in *.
  destruct (cleanup_key_data t0 now r (f, seq) Hfr) as [Hkd _]; [lia|].
  assert (Hp : pkt_key pkt = (f, seq) /\ fragmented pkt = true) by (destruct (map snd tr); by destruct Htr as (? & ? & _)).
  destruct Hp as [Hkey Hfrag]. pose proof (Add_own now r pkt Hfrag) as Hown. cbn zeta in Hown. rewrite Hkey, Hkd in Hown.
  assert (Hid : dp_FlowID pkt = f) by (by injection Hkey).
  cbn [process_all]. destruct tr as [|tp tr]; cbn [map] in *.
  - destruct Htr as (_ & _ & Hlast). rewrite Hlast in Hown. destruct Hown as [Ho _].
    unfold train_payload in *. cbn [map concat] in *. rewrite app_nil_r in *.
    destruct (Add now r pkt) as [r' [pl d]] eqn:Ea. cbn [snd] in Ho. injection Ho as -> ->.
    pose proof (process_done s srv now pkt k r' _ Ea ltac:(by rewrite Hid) Hl0) as Hd.
    by destruct (processDatagramTask s srv now pkt None).
  - destruct Htr as (_ & _ & Hnl & Htr). rewrite Hnl in Hown. destruct Hown as [Ho Hlk].
    destruct (Add now r pkt) as [r' [pl d]] eqn:Ea. cbn [fst snd] in *. injection Ho as -> ->.
    rewrite (process_more s srv now pkt r' _ Ea). set (s1 := qs_set_pipe s _).
    assert (Hkd1 : key_data r' (f, seq) ++ train_payload (tp.2 :: map snd tr) = key_data r (f, seq) ++ train_payload (pkt :: tp.2 :: map snd tr)).
    { unfold key_data at 1. rewrite Hlk. cbn. by rewrite <- app_assoc. }
    rewrite <- Hkd1 in Hl |- *.
    apply (IH s1 srv Ht); [|exact Htr|exact Hf|exact Hl].
    intros st. cbn [s1 qs_set_pipe qs_pipe pp_set_reassembly dg_reassembly]. rewrite Hlk. intros [= <-]. cbn. lia.
Qed.

Lemma decode_functional raws ps ps' :
  Forall2 (fun raw p => DecodeDatagramPacket raw = Ok p) raws ps ->
  Forall2 (fun raw p => DecodeDatagramPacket raw = Ok p) raws ps' -> ps = ps'.
Proof.
  intros H1. revert ps'. induction H1 as [|raw p raws ps Hp _ IH]; intros ps' H2; inversion H2; subst; [done|].
  f_equal; [congruence|by apply IH].
Qed.

(** A UDP payload of the client reaches the target unchanged and once: when the client cut it into
    datagrams for an open flow and the worker of that flow handles them in order within one
    reassembly window, the socket of the flow is given exactly that payload. *)
Theorem udp_payload_reaches_target s srv f k seq payload limit raws ps tr t0 :
  is_u64 f -> is_u32 seq -> datagramHeaderSize < limit ->
  FragmentDatagram f seq payload limit = Ok raws ->
  Forall2 (fun raw p => DecodeDatagramPacket raw = Ok p) raws ps -> map snd tr = ps ->
  Forall (fun tp => t0 <= tp.1 <= t0 + reassemblyTTL) tr ->
  udpFlows (qs_flows s) !! f = Some k -> lookup_key (dg_reassembly (qs_pipe s)) (f, seq) = None ->
  Forall (fun tp => (AllowSessionBytes (sr_limits srv) tp.1 (qs_id s) (zlen payload)).2 = None) tr ->
  qs_toTarget (process_all s srv tr).1 !! k = Some (default [] (qs_toTarget s !! k) ++ [payload]).
Proof.
  intros Hf Hseq Hlim Hfrag Hdec <- Ht Hk Hn Hl.
  destruct (FragmentDatagram_ok f seq payload limit Hf Hseq Hlim) as (raws' & ps' & E & _ & Hdec' & Hpay & Hcase).
  rewrite Hfrag in E. injection E as <-. pose proof (decode_functional _ _ _ Hdec Hdec') as <-.
  destruct Hcase as [Hone|Htrain].
  - destruct tr as [|[now pkt] [|]]; try done. cbn in Hone. injection Hone as ->. cbn [process_all].
    assert (Ha : Add now (dg_reassembly (qs_pipe s)) (mkPacket f 0 seq payload) = (dg_reassembly (qs_pipe s), (payload, true))) by done.
    pose proof (process_done s srv now _ k _ _ Ha Hk (Forall_inv Hl)) as Hd. by destruct (processDatagramTask _ _ _ _ _).
  - assert (Hkd : key_data (dg_reassembly (qs_pipe s)) (f, seq) = []) by (unfold key_data; by rewrite Hn).
    rewrite (process_train f seq k t0 tr s srv Ht); [by rewrite Hkd, Hpay|intros st; by rewrite Hn|done|done|].
    rewrite Hkd, Hpay. exact Hl.
Qed.

Lemma send_all pkts : forall s srv, exists s' srv', send_packets s srv pkts None = (s', srv', true)
  /\ qs_toClient s' = qs_toClient s ++ pkts /\ qs_flows s' = qs_flows s.
Proof.
  induction pkts as [|p pkts IH]; intros s srv; cbn [send_packets fmap option_fmap option_map].
  - exists s, srv. by rewrite app_nil_r.
  - destruct (IH (send_client s p) (srv_observe srv ObserveUDPToClient)) as (s' & srv' & -> & Hc & Hf).
    exists s', srv'. split; [done|]. split; [|done]. rewrite Hc. cbn. by rewrite <- app_assoc.
Qed.

(** A UDP payload of a target reaches the client: what [udpReadLoop] read goes out as datagrams
    within the configured size that carry the flow's id and its next sequence number and decode
    to one packet with the payload, or to a train of fragments that concatenates to it. *)
Theorem udp_payload_reaches_client s srv now k fl buf :
  udpHeap (qs_flows s) !! k = Some fl -> is_u64 (uf_id fl) -> 0 < zlen buf ->
  datagramHeaderSize < MaxDgramPayload (sr_cfg srv) ->
  (AllowSessionBytes (sr_limits srv) now (qs_id s) (zlen buf)).2 = None ->
  let s' := (udpReadLoop_turn s srv now k buf None None).1 in
  let seq := u32 (uf_seq fl + 1) in
  udpHeap (qs_flows s') !! k = Some (mkUdpFlow (uf_id fl) seq (uf_closed fl))
  /\ exists raws ps, qs_toClient s' = qs_toClient s ++ raws
     /\ Forall (fun raw => zlen raw <= MaxDgramPayload (sr_cfg srv)) raws
     /\ Forall2 (fun raw p => DecodeDatagramPacket raw = Ok p) raws ps
     /\ train_payload ps = buf
     /\ (ps = [mkPacket (uf_id fl) 0 seq buf] \/ train (uf_id fl, seq) ps).
Proof.
  intros Hk Hid Hb Hm Hl. cbn zeta. unfold udpReadLoop_turn. rewrite Hk. rewrite (proj2 (Z.ltb_lt _ _)) by done.
  cbn [srv_observe srv_metrics sr_limits]. destruct (AllowSessionBytes _ _ _ _) as [l err]. cbn [snd] in Hl. subst err.
  cbn [srv_limits sr_cfg srv_metrics srv_observe].
  destruct (FragmentDatagram_ok (uf_id fl) (u32 (uf_seq fl + 1)) buf (MaxDgramPayload (sr_cfg srv)) Hid) as (raws & ps & -> & Hfit & Hdec & Hpay & Hcase);
    [apply Z.mod_pos_bound; lia|done|].
  match goal with |- context [send_packets ?a ?b raws None] => destruct (send_all raws a b) as (s2 & srv2 & -> & Hc & Hf) end.
  cbn [fst udp_turn_end]. split; [rewrite Hf; apply lookup_insert_eq|]. exists raws, ps. by rewrite Hc.
Qed.
End PipeFacts.

(** *** Witnesses *)

(** UDP flow 8 on socket 11 beside the flow of [ex_q2]; the client sends two bytes and the target
    answers with six, in fragments. *)
Definition ex_open_udp : Frame := mkFrame FrameOPENUDP (EncodeOpenPayload (mkOpenPayload 8 "example.org" [] 53)).
Definition ex_u1 := (controlLoop_turn ex_q0 ex_v0 0 (Ok ex_open_udp)).1.
Definition ex_u2 := finish_open ex_u1.1 ex_u1.2 None (Ok 11).
Definition ex_datagram : list byte := EncodeDatagramPacket (mkPacket 8 0 1 [x41; x42]).
Definition ex_u3 := datagramReadLoop_turn ex_u2.1 ex_u2.2 0 ex_datagram.
Definition ex_u4 := drainDatagramQueue_turn ex_u3.1.1 ex_u3.1.2 0.

Lemma ex_u2_run : sess_run ex_u2.1 ex_u2.2 (streams ex_v0) (mkTraffic [] []).
Proof.
  eapply run_other; [eapply run_other; [eapply (run_start 1 ex_auth_server (UnixMilli 1000000) None ex_first_frame); exact ex_run_started|..]|..].
  - apply (st_control ex_q0 ex_v0 (streams ex_v0) 0 (Ok ex_open_udp) ex_u1.1 ex_u1.2 true); vm_compute; reflexivity.
  - vm_compute. auto.
  - apply (st_open ex_u1.1 ex_u1.2 (streams ex_v0) None (Ok 11) ex_u2.1 ex_u2.2); [|apply surjective_pairing].
    intros k [= <-]. split; vm_compute; reflexivity.
  - vm_compute. auto.
Defined.


Lemma queue_length_drifts_witness :
  let s3 := (datagramReadLoop_count ex_u4.1 ex_u4.2).1 in
  (forall i q, dg_queues (qs_pipe s3) !! i = Some q -> q = []) /\ dg_qlen (qs_pipe s3) = 1.
Proof.
  apply (queue_length_drifts ex_u2.1 ex_u2.2 0 ex_datagram (mkPacket 8 0 1 [x41; x42]) ex_u3.1.1 ex_u3.1.2 ex_u4.1 ex_u4.2);
    [|vm_compute; reflexivity..].
  intros [|[|i]] q E; vm_compute in E; congruence.
Defined.

Lemma udp_payload_reaches_target_witness :
  qs_toTarget (process_all ex_u2.1 ex_u2.2 [(0, mkPacket 8 1 1 [x41]); (5, mkPacket 8 3 1 [x42])]).1 !! 11
  = Some (default [] (qs_toTarget ex_u2.1 !! 11) ++ [[x41; x42]]).
Proof.
  apply (udp_payload_reaches_target ex_u2.1 ex_u2.2 8 11 1 [x41; x42] 14
           [EncodeDatagramPacket (mkPacket 8 1 1 [x41]); EncodeDatagramPacket (mkPacket 8 3 1 [x42])]
           [mkPacket 8 1 1 [x41]; mkPacket 8 3 1 [x42]] [(0, mkPacket 8 1 1 [x41]); (5, mkPacket 8 3 1 [x42])] 0);
    [split; vm_compute; congruence|split; vm_compute; congruence|reflexivity|reflexivity| |reflexivity| |
     vm_compute; reflexivity|vm_compute; reflexivity|].
  - repeat constructor.
  - repeat constructor; vm_compute; congruence.
  - repeat constructor; vm_compute; reflexivity.
Defined.

Lemma udp_payload_reaches_client_witness :
  let s' := (udpReadLoop_turn ex_u2.1 ex_u2.2 0 11 [x41] None None).1 in
  udpHeap (qs_flows s') !! 11 = Some (mkUdpFlow 8 1 false)
  /\ exists raws ps, qs_toClient s' = qs_toClient ex_u2.1 ++ raws
     /\ Forall (fun raw => zlen raw <= MaxDgramPayload (sr_cfg ex_u2.2)) raws
     /\ Forall2 (fun raw p => DecodeDatagramPacket raw = Ok p) raws ps
     /\ train_payload ps = [x41]
     /\ (ps = [mkPacket 8 0 1 [x41]] \/ train (8, 1) ps).
Proof.
  apply (udp_payload_reaches_client ex_u2.1 ex_u2.2 0 11 (mkUdpFlow 8 0 false) [x41]);
    [vm_compute; reflexivity|split; vm_compute; congruence|vm_compute; reflexivity..].
Defined.
