(* ===== verification/Config.v ===== *)
(** * The gateway's configuration and assembly ([internal/config/config.go], [cmd/gateway/main.go])

    Defaults, validation and loading of the YAML file, and the parts that [main] builds from a
    loaded configuration. Reading the file and decoding YAML are parameters of [Load]. *)

From S2P Require Import Prelude Wire Frame Datagram GoString Crypto Auth Limits Wheel Store Metrics RelayConn RelayManager RelayHTTP Server Handshake TCPSession Session SessionUDP.

(** ** The configuration *)

Record TLSConfig := mkTLSConfig { CertPath : string; KeyPath : string; AutoGenerate : bool }.

Record LimitsConfig := mkLimitsConfig {
  gl_MaxConnsPerClient : Z; gl_MaxTotalConns : Z; gl_MaxBytesPerMinutePerClient : Z;
  gl_MaxRecvWindowBytes : Z; gl_RelaySendWindowBytes : Z; gl_MaxFlowsPerSession : Z; gl_MaxUDPPPS : Z;
  gl_SessionDatagramWorkers : Z; gl_SessionDatagramQueue : Z; gl_MaxBytesPerMinutePerSession : Z;
  gl_SessionUpKbps : Z; gl_SessionDownKbps : Z }.

Record TimeoutsConfig := mkTimeoutsConfig { RelayIdle : Z; SessionIdle : Z; gt_DialTimeout : Z }.
Record AuthConfig := mkAuthConfig { ClockSkew : Z; ReplayTTL : Z }.

(** [gc_ClientSecrets] is [None] for a nil map. *)
Record GatewayConfig := mkGatewayConfig {
  gc_ListenHTTP : string; gc_ListenQUIC : string; gc_ListenTCP : string; AllowInsecureHTTP : bool;
  ProtocolID : string; LogLevel : string; gc_MaxDgramPayload : Z;
  gc_ClientSecrets : option (gmap string string);
  gc_TLS : TLSConfig; gc_Limits : LimitsConfig; gc_Timeouts : TimeoutsConfig; gc_Auth : AuthConfig }.

Definition Default : GatewayConfig :=
  mkGatewayConfig ":8080" ":443" ":443" true "vlf-runtime/0.1" "info" 1200
    (Some {[ "smoke-client" := "smoke-secret" ]})
    (mkTLSConfig "certs/dev.crt" "certs/dev.key" true)
    (mkLimitsConfig 64 2048 (32 * 1024 * 1024) (64 * 1024) (64 * 1024) 128 2000 4 4096 (64 * 1024 * 1024) 20000 20000)
    (mkTimeoutsConfig (20 * Second) (60 * Second) (10 * Second))
    (mkAuthConfig (60 * Second) (60 * Second)).

(** The assignments of [applyDefaults]: an empty string, a zero. *)
Definition or_string (s def : string) : string := if String.eqb s "" then def else s.
Definition or_int (n def : Z) : Z := if n =? 0 then def else n.

Definition applyDefaults (c : GatewayConfig) : GatewayConfig :=
  let d := Default in
  mkGatewayConfig
    (or_string (gc_ListenHTTP c) (gc_ListenHTTP d)) (or_string (gc_ListenQUIC c) (gc_ListenQUIC d))
    (or_string (gc_ListenTCP c) (gc_ListenTCP d)) (AllowInsecureHTTP c)
    (or_string (ProtocolID c) (ProtocolID d)) (or_string (LogLevel c) (LogLevel d))
    (or_int (gc_MaxDgramPayload c) (gc_MaxDgramPayload d))
    (match gc_ClientSecrets c with None => gc_ClientSecrets d | Some m => Some m end)
    (let t := gc_TLS c in
     mkTLSConfig (or_string (CertPath t) (CertPath (gc_TLS d))) (or_string (KeyPath t) (KeyPath (gc_TLS d))) (AutoGenerate t))
    (let l := gc_Limits c in let dl := gc_Limits d in
     mkLimitsConfig
       (or_int (gl_MaxConnsPerClient l) (gl_MaxConnsPerClient dl)) (or_int (gl_MaxTotalConns l) (gl_MaxTotalConns dl))
       (or_int (gl_MaxBytesPerMinutePerClient l) (gl_MaxBytesPerMinutePerClient dl))
       (or_int (gl_MaxRecvWindowBytes l) (gl_MaxRecvWindowBytes dl))
       (or_int (gl_RelaySendWindowBytes l) (gl_RelaySendWindowBytes dl))
       (or_int (gl_MaxFlowsPerSession l) (gl_MaxFlowsPerSession dl)) (or_int (gl_MaxUDPPPS l) (gl_MaxUDPPPS dl))
       (or_int (gl_SessionDatagramWorkers l) (gl_SessionDatagramWorkers dl))
       (or_int (gl_SessionDatagramQueue l) (gl_SessionDatagramQueue dl))
       (or_int (gl_MaxBytesPerMinutePerSession l) (gl_MaxBytesPerMinutePerSession dl))
       (or_int (gl_SessionUpKbps l) (gl_SessionUpKbps dl)) (or_int (gl_SessionDownKbps l) (gl_SessionDownKbps dl)))
    (let t := gc_Timeouts c in let dt := gc_Timeouts d in
     mkTimeoutsConfig (or_int (RelayIdle t) (RelayIdle dt)) (or_int (SessionIdle t) (SessionIdle dt))
       (or_int (gt_DialTimeout t) (gt_DialTimeout dt)))
    (let a := gc_Auth c in let da := gc_Auth d in
     mkAuthConfig (or_int (ClockSkew a) (ClockSkew da)) (or_int (ReplayTTL a) (ReplayTTL da))).

(** [len] of the secrets, 0 for a nil map. *)
Definition secret_count (c : GatewayConfig) : Z :=
  match gc_ClientSecrets c with None => 0 | Some m => Z.of_nat (size m) end.

Definition Validate (c : GatewayConfig) : option goerr :=
  if secret_count c =? 0 then Some (ENew "client_secrets is required")
  else if gc_MaxDgramPayload c <? 256 then Some (ENew "max_dgram_payload must be >= 256")
  else if gl_MaxRecvWindowBytes (gc_Limits c) <=? 0 then Some (ENew "limits.max_recv_window_bytes must be > 0")
  else if gl_RelaySendWindowBytes (gc_Limits c) <=? 0 then Some (ENew "limits.relay_send_window_bytes must be > 0")
  else if gl_SessionDatagramWorkers (gc_Limits c) <=? 0 then Some (ENew "limits.session_datagram_workers must be > 0")
  else if gl_SessionDatagramQueue (gc_Limits c) <=? 0 then Some (ENew "limits.session_datagram_queue must be > 0")
  else if RelayIdle (gc_Timeouts c) <=? 0 then Some (ENew "timeouts.relay_idle must be > 0")
  else if SessionIdle (gc_Timeouts c) <=? 0 then Some (ENew "timeouts.session_idle must be > 0")
  else if gt_DialTimeout (gc_Timeouts c) <=? 0 then Some (ENew "timeouts.dial_timeout must be > 0")
  else if ClockSkew (gc_Auth c) <=? 0 then Some (ENew "auth.clock_skew must be > 0")
  else if ReplayTTL (gc_Auth c) <=? 0 then Some (ENew "auth.replay_ttl must be > 0")
  else None.

(** [yaml.Unmarshal] decodes into the configuration it is given. *)
Definition Load (ReadFile : string -> res (list byte)) (Unmarshal : list byte -> GatewayConfig -> res GatewayConfig)
    (path : string) : res GatewayConfig :=
  raw ← wrap_err "read config" (ReadFile path);
  cfg ← wrap_err "unmarshal yaml" (Unmarshal raw Default);
  let cfg := applyDefaults cfg in
  match Validate cfg with
  | Some e => Err e
  | None => Ok cfg
  end.

(** ** The parts [main] builds *)

(** [resolveUDPPPSHoldWindow], with the value of the environment variable. *)
Definition resolveUDPPPSHoldWindow (env : string) : Z :=
  let def := 3 * Second in
  let raw := TrimSpace env in
  if String.eqb raw "" then def
  else match Atoi raw with
  | Ok secs => if secs <? 0 then def else int64 (secs * Second)
  | _ => def
  end.

(** [appendOne] and [resolveALPNList]. *)
Definition appendOne (out : list string) (v : string) : list string :=
  let v := TrimSpace v in
  if String.eqb v "" then out else if bool_decide (v ∈ out) then out else out ++ [v].
Definition Split_comma (s : string) : list string := map string_of_bytes (split_byte x2c (bytes_of_string s)).
Definition resolveALPNList (primary compatRaw : string) : list string :=
  let out := appendOne [] primary in
  let out := foldl appendOne out (Split_comma (TrimSpace compatRaw)) in
  let out := appendOne out "vlf-runtime/0.1" in
  let out := appendOne out "vlf-session/0.1" in
  match out with [] => ["vlf-runtime/0.1"] | _ => out end.

Definition gateway_limits (c : GatewayConfig) : Limits.Config :=
  Limits.mkConfig (gl_MaxConnsPerClient (gc_Limits c)) (gl_MaxTotalConns (gc_Limits c))
    (gl_MaxBytesPerMinutePerClient (gc_Limits c)) (gl_MaxBytesPerMinutePerSession (gc_Limits c))
    (gl_MaxUDPPPS (gc_Limits c)).
Definition gateway_relay (c : GatewayConfig) : ManagerConfig :=
  mkManagerConfig (gt_DialTimeout (gc_Timeouts c)) (RelayIdle (gc_Timeouts c))
    (gl_MaxRecvWindowBytes (gc_Limits c)) (gl_RelaySendWindowBytes (gc_Limits c)).
Definition gateway_session (c : GatewayConfig) : SessionConfig :=
  mkSessionConfig (gc_ListenQUIC c) (gc_ListenTCP c) true (SessionIdle (gc_Timeouts c)) (gt_DialTimeout (gc_Timeouts c))
    (gl_MaxFlowsPerSession (gc_Limits c)) (gc_MaxDgramPayload c) (gl_SessionUpKbps (gc_Limits c))
    (gl_SessionDownKbps (gc_Limits c)) (gl_MaxUDPPPS (gc_Limits c)) (12 * Second)
    (gl_SessionDatagramWorkers (gc_Limits c)) (gl_SessionDatagramQueue (gc_Limits c)).

(** What [main] holds before it serves: the relay server and the session server, which share the
    limits, the metrics and the verifier. *)
Record gateway := mkGateway { gw_relay : RelayServer (P := StaticSecretProvider); gw_session : Server StaticSecretProvider }.

Definition build_gateway (c : GatewayConfig) (holdEnv : string) : res gateway :=
  let m := NewWithConfig (mkMetricsConfig (resolveUDPPPSHoldWindow holdEnv) 0) in
  secrets ← NewStaticSecretProvider (default ∅ (gc_ClientSecrets c));
  let verifier := NewVerifier secrets (NewReplayCache (ReplayTTL (gc_Auth c))) (ClockSkew (gc_Auth c)) true in
  let limiter := NewManager (gateway_limits c) in
  Ok (mkGateway (mkRelayServer (NewRelayManager (gateway_relay c) limiter m) verifier)
        (NewServer (gateway_session c) verifier limiter m)).

(** ** Lemmas *)

Lemma or_string_idem s d : or_string (or_string s d) d = or_string s d.
Proof. unfold or_string. destruct (String.eqb s "") eqn:E; [by destruct (String.eqb d "")|by rewrite E]. Qed.

Lemma or_int_idem n d : or_int (or_int n d) d = or_int n d.
Proof. unfold or_int. destruct (n =? 0) eqn:E; [by destruct (d =? 0)|by rewrite E]. Qed.

Lemma or_string_nonempty s d : d <> "" -> or_string s d <> "".
Proof. unfold or_string. destruct (String.eqb s "") eqn:E; [done|]. by apply String.eqb_neq in E. Qed.

(** What a configuration that passes the checks satisfies. *)
Record valid_config (c : GatewayConfig) : Prop := {
  vc_secrets : 0 < secret_count c;
  vc_dgram : 256 <= gc_MaxDgramPayload c;
  vc_windows : 0 < gl_MaxRecvWindowBytes (gc_Limits c) /\ 0 < gl_RelaySendWindowBytes (gc_Limits c);
  vc_pipeline : 0 < gl_SessionDatagramWorkers (gc_Limits c) /\ 0 < gl_SessionDatagramQueue (gc_Limits c);
  vc_timeouts : 0 < RelayIdle (gc_Timeouts c) /\ 0 < SessionIdle (gc_Timeouts c) /\ 0 < gt_DialTimeout (gc_Timeouts c);
  vc_auth : 0 < ClockSkew (gc_Auth c) /\ 0 < ReplayTTL (gc_Auth c) }.

Lemma secret_count_nonneg c : 0 <= secret_count c.
Proof. unfold secret_count. destruct (gc_ClientSecrets c); lia. Qed.

Lemma Validate_valid c : Validate c = None <-> valid_config c.
Proof.
  pose proof (secret_count_nonneg c). unfold Validate. split.
  - intros Hv. repeat (case_match; [done|]). zbool. split; lia.
  - intros [? ? [] [] (? & ? & ?) []]. by zdecide.
Qed.

Lemma Load_inv RF UM path c :
  Load RF UM path = Ok c ->
  exists raw cfg, RF path = Ok raw /\ UM raw Default = Ok cfg /\ c = applyDefaults cfg /\ valid_config c.
Proof.
  unfold Load. intros E. apply res_bind_Ok in E as (raw & E1 & E). apply res_bind_Ok in E as (cfg & E2 & E).
  rewrite wrap_err_Ok in E1. rewrite wrap_err_Ok in E2. cbn zeta in E. destruct (Validate (applyDefaults cfg)) eqn:Ev; [done|].
  injection E as <-. exists raw, cfg. split_and!; try done. by apply Validate_valid.
Qed.

(** The secrets that [NewStaticSecretProvider] keeps. *)
Lemma parse_secrets_lookup l : forall cp m k v,
  parse_secrets l cp = Ok m -> NoDup l.*1 -> (k, v) ∈ l ->
  exists secret, ParseSecretString v = Ok secret /\ m !! k = Some secret.
Proof.
  assert (Hkeep : forall l cp m k x, parse_secrets l cp = Ok m -> k ∉ l.*1 -> cp !! k = Some x -> m !! k = Some x).
  { clear. induction l as [|[k' v'] l IH]; intros cp m k x E Hn Hk; cbn in E; [congruence|].
    apply res_bind_Ok in E as (s & _ & E). cbn in Hn. apply not_elem_of_cons in Hn as [Hne Hn].
    eapply IH; [exact E|done|]. by rewrite lookup_insert_ne. }
  induction l as [|[k' v'] l IH]; intros cp m k v E Hd Hin; cbn in *; [by apply not_elem_of_nil in Hin|].
  apply res_bind_Ok in E as (s & Es & E). rewrite wrap_err_Ok in Es. apply NoDup_cons in Hd as [Hn Hd].
  apply elem_of_cons in Hin as [[= -> ->]|Hin]; [|by eapply IH].
  exists s. split; [done|]. eapply Hkeep; [exact E|done|]. apply lookup_insert_eq.
Qed.

Lemma NewStaticSecretProvider_lookup secrets p k v :
  NewStaticSecretProvider secrets = Ok p -> secrets !! k = Some v ->
  exists secret, ParseSecretString v = Ok secret /\ StaticSecretFor p k = Ok secret.
Proof.
  unfold NewStaticSecretProvider. intros E Hk. apply res_bind_Ok in E as (m & E & [= <-]).
  destruct (parse_secrets_lookup _ _ _ k v E) as (s & Hs & Hm).
  - apply NoDup_fst_map_to_list.
  - by apply elem_of_map_to_list.
  - exists s. split; [done|]. unfold StaticSecretFor. cbn. by rewrite Hm.
Qed.

(** Names added to the protocol list. *)
Lemma appendOne_spec out v :
  NoDup out -> NoDup (appendOne out v) /\ out `prefix_of` appendOne out v
  /\ (TrimSpace v <> "" -> TrimSpace v ∈ appendOne out v)
  /\ (forall x, x ∈ appendOne out v -> x ∈ out \/ (x = TrimSpace v /\ x <> "")).
Proof.
  intros Hd. unfold appendOne. cbn zeta. destruct (String.eqb (TrimSpace v) "") eqn:E.
  { apply String.eqb_eq in E. split_and!; [done..|by left]. }
  apply String.eqb_neq in E. case_bool_decide as Hin; [split_and!; [done..|by left]|].
  split; [|split; [by eexists|split]].
  - apply NoDup_app. split; [done|]. split; [|apply NoDup_singleton]. intros x Hx Hx'%list_elem_of_singleton. by subst x.
  - intros _. apply elem_of_app. right. by apply list_elem_of_singleton.
  - intros x [Hx|Hx%list_elem_of_singleton]%elem_of_app; [by left|right; by subst x].
Qed.

Lemma append_all_spec vs : forall out,
  NoDup out -> NoDup (foldl appendOne out vs) /\ out `prefix_of` foldl appendOne out vs
  /\ (forall v, v ∈ vs -> TrimSpace v <> "" -> TrimSpace v ∈ foldl appendOne out vs)
  /\ (forall x, x ∈ foldl appendOne out vs -> x ∈ out \/ (exists v, v ∈ vs /\ x = TrimSpace v /\ x <> "")).
Proof.
  induction vs as [|v vs IH]; intros out Hd; cbn [foldl].
  { split_and!; [done..|by intros v Hv%not_elem_of_nil|by left]. }
  destruct (appendOne_spec out v Hd) as (A1 & A2 & A3 & A4). destruct (IH _ A1) as (B1 & B2 & B3 & B4).
  split_and!; [done|by etrans| |].
  - intros x [->|Hx]%elem_of_cons Hne; [|by apply B3]. eapply elem_of_prefix; [by apply A3|done].
  - intros x [Hx|(u & Hu & Hx)]%B4; [|right; exists u; split; [by right|done]].
    destruct (A4 _ Hx) as [|[]]; [by left|right]. exists v. split; [by left|done].
Qed.

(** ** Theorems *)

(** C32: A configuration that loads is one that every part can run with: the limits, windows and
    durations it must have are positive; the session server starts and keeps the numbers as they
    are; every datagram queue has room for 64 packets; and no UDP payload, of any flow, is ever too
    large to be cut into datagrams of the configured size. *)
Theorem config_load_sound ReadFile Unmarshal path c v lim m :
  Load ReadFile Unmarshal path = Ok c ->
  valid_config c
  /\ start_check (NewServer (P := StaticSecretProvider) (gateway_session c) v lim m) = None
  /\ normalize_session_config (gateway_session c) = gateway_session c
  /\ 64 <= pipeline_per_worker (gateway_session c)
  /\ (forall flowID seq payload, is_u64 flowID -> is_u32 seq ->
        exists raws, FragmentDatagram flowID seq payload (MaxDgramPayload (gateway_session c)) = Ok raws
          /\ Forall (fun raw => zlen raw <= gc_MaxDgramPayload c) raws).
Proof.
  intros E. apply Load_inv in E as (raw & cfg & _ & _ & -> & Hv). split; [done|].
  destruct Hv as [_ Hdg _ [Hw Hq] _ _]. split_and!.
  - unfold start_check. cbn [NewServer sr_cfg normalize_session_config HasTLS gateway_session ListenQUIC negb].
    rewrite (proj2 (String.eqb_neq _ _)); [done|]. by apply or_string_nonempty.
  - unfold normalize_session_config. cbn [gateway_session DatagramWorkers DatagramQueue]. by zdecide.
  - unfold pipeline_per_worker. cbn zeta. case_match; zbool; lia.
  - intros f q pl Hf Hs. cbn [gateway_session MaxDgramPayload].
    destruct (FragmentDatagram_ok f q pl (gc_MaxDgramPayload (applyDefaults cfg)) Hf Hs) as (raws & ps & Hr & Hfit & _); eauto.
    unfold datagramHeaderSize. lia.
Qed.

(** [applyDefaults] fills exactly what is missing: applied again it changes nothing, the default
    configuration is unchanged by it and passes validation, and a value that is set is kept. *)
Theorem apply_defaults_idempotent c :
  applyDefaults (applyDefaults c) = applyDefaults c
  /\ applyDefaults Default = Default /\ Validate Default = None
  /\ (gc_MaxDgramPayload c <> 0 -> gc_MaxDgramPayload (applyDefaults c) = gc_MaxDgramPayload c)
  /\ (forall secrets, gc_ClientSecrets c = Some secrets -> gc_ClientSecrets (applyDefaults c) = Some secrets).
Proof.
  split_and!.
  - unfold applyDefaults.
    cbn [gc_ListenHTTP gc_ListenQUIC gc_ListenTCP AllowInsecureHTTP ProtocolID LogLevel gc_MaxDgramPayload gc_ClientSecrets
      gc_TLS gc_Limits gc_Timeouts gc_Auth CertPath KeyPath AutoGenerate gl_MaxConnsPerClient gl_MaxTotalConns
      gl_MaxBytesPerMinutePerClient gl_MaxRecvWindowBytes gl_RelaySendWindowBytes gl_MaxFlowsPerSession gl_MaxUDPPPS
      gl_SessionDatagramWorkers gl_SessionDatagramQueue gl_MaxBytesPerMinutePerSession gl_SessionUpKbps gl_SessionDownKbps
      RelayIdle SessionIdle gt_DialTimeout ClockSkew ReplayTTL].
    rewrite !or_string_idem, !or_int_idem. by destruct (gc_ClientSecrets c).
  - vm_compute. reflexivity.
  - reflexivity.
  - intros Hn. cbn [applyDefaults gc_MaxDgramPayload]. unfold or_int. by rewrite (proj2 (Z.eqb_neq _ _)).
  - intros m Hm. cbn [applyDefaults gc_ClientSecrets]. by rewrite Hm.
Qed.

(** The credentials of the default configuration stay valid in every deployment whose file does not
    name them: the file is decoded into the defaults, and decoding into a map that exists adds to
    it. A gateway built from such a file takes smoke-client with the secret smoke-secret. *)
Theorem default_client_stays ReadFile Unmarshal path (mentions : list byte -> string -> bool) raw c holdEnv gw :
  (forall raw cfg cfg' secrets k v, Unmarshal raw cfg = Ok cfg' -> mentions raw k = false ->
     gc_ClientSecrets cfg = Some secrets -> secrets !! k = Some v ->
     exists secrets', gc_ClientSecrets cfg' = Some secrets' /\ secrets' !! k = Some v) ->
  ReadFile path = Ok raw -> mentions raw "smoke-client" = false ->
  Load ReadFile Unmarshal path = Ok c -> build_gateway c holdEnv = Ok gw ->
  StaticSecretFor (v_secrets (sr_verifier (gw_session gw))) "smoke-client" = Ok (bytes_of_string "smoke-secret").
Proof.
  intros Hy Hr Hm E Eb. apply Load_inv in E as (raw' & cfg & Hr' & Hu & -> & _). rewrite Hr in Hr'. injection Hr' as <-.
  destruct (Hy raw Default cfg _ "smoke-client" "smoke-secret" Hu Hm eq_refl (lookup_singleton_eq _ _)) as (s & Hs & Hk).
  unfold build_gateway in Eb. cbn [applyDefaults gc_ClientSecrets] in Eb. rewrite Hs in Eb. cbn [default] in Eb.
  apply res_bind_Ok in Eb as (p & Ep & [= <-]).
  destruct (NewStaticSecretProvider_lookup _ _ _ _ Ep Hk) as (sec & Hsec & Hfor).
  cbn [gw_session NewServer sr_verifier NewVerifier v_secrets]. rewrite Hfor, <- Hsec. vm_compute. reflexivity.
Qed.

(** The protocols offered to TLS: no name twice, the configured one first, every compatibility name
    and both built-in names included, and nothing else. *)
Theorem alpn_list_spec primary compat :
  let out := resolveALPNList primary compat in
  NoDup out /\ (TrimSpace primary <> "" -> head out = Some (TrimSpace primary))
  /\ "vlf-runtime/0.1" ∈ out /\ "vlf-session/0.1" ∈ out
  /\ (forall v, v ∈ Split_comma (TrimSpace compat) -> TrimSpace v <> "" -> TrimSpace v ∈ out)
  /\ (forall x, x ∈ out -> x = "vlf-runtime/0.1" \/ x = "vlf-session/0.1" \/ x = TrimSpace primary
        \/ exists v, v ∈ Split_comma (TrimSpace compat) /\ x = TrimSpace v).
Proof.
  cbn zeta. unfold resolveALPNList. cbn zeta. set (o1 := appendOne [] primary).
  destruct (appendOne_spec [] primary (NoDup_nil_2)) as (A1 & _ & A3 & A4). fold o1 in A1, A3, A4.
  set (o2 := foldl appendOne o1 _). destruct (append_all_spec (Split_comma (TrimSpace compat)) o1 A1) as (B1 & B2 & B3 & B4). fold o2 in B1, B2, B3, B4.
  set (o3 := appendOne o2 "vlf-runtime/0.1"). destruct (appendOne_spec o2 "vlf-runtime/0.1" B1) as (C1 & C2 & C3 & C4). fold o3 in C1, C2, C3, C4.
  set (o4 := appendOne o3 "vlf-session/0.1"). destruct (appendOne_spec o3 "vlf-session/0.1" C1) as (D1 & D2 & D3 & D4). fold o4 in D1, D2, D3, D4.
  change (TrimSpace "vlf-runtime/0.1") with "vlf-runtime/0.1" in *. change (TrimSpace "vlf-session/0.1") with "vlf-session/0.1" in *.
  specialize (C3 ltac:(done)). specialize (D3 ltac:(done)).
  assert (Hne : match o4 with [] => ["vlf-runtime/0.1"] | _ => o4 end = o4) by (destruct o4; [by apply not_elem_of_nil in D3|done]).
  rewrite Hne. split_and!; [done| | |done| |].
  - intros Hp. assert (Ho1 : o1 = [TrimSpace primary]).
    { unfold o1, appendOne. cbn zeta. rewrite (proj2 (String.eqb_neq _ _)) by done. by rewrite bool_decide_false by (by apply not_elem_of_nil). }
    assert (Hpre : [TrimSpace primary] `prefix_of` o4) by (rewrite <- Ho1; etrans; [exact B2|etrans; [exact C2|exact D2]]).
    by destruct Hpre as [r ->].
  - by eapply elem_of_prefix.
  - intros v Hv Hvn. eapply elem_of_prefix; [|exact D2]. eapply elem_of_prefix; [|exact C2]. by apply B3.
  - intros x Hx. apply D4 in Hx as [Hx|[-> _]]; [|by right; left]. apply C4 in Hx as [Hx|[-> _]]; [|by left].
    right; right. apply B4 in Hx as [Hx|(v & Hv & -> & _)]; [left|right; eauto].
    apply A4 in Hx as [Hx%not_elem_of_nil|[Hx _]]; done.
Qed.

(** *** Witnesses *)

(** A file that sets the secret of one client and nothing else. *)
Definition ex_ReadFile (path : string) : res (list byte) := Ok (bytes_of_string "client_secrets: {alice: wonderland}").
Definition ex_Unmarshal (raw : list byte) (c : GatewayConfig) : res GatewayConfig :=
  Ok (mkGatewayConfig (gc_ListenHTTP c) (gc_ListenQUIC c) (gc_ListenTCP c) (AllowInsecureHTTP c) (ProtocolID c) (LogLevel c)
        (gc_MaxDgramPayload c) (Some (<["alice" := "wonderland"]> (default ∅ (gc_ClientSecrets c)))) (gc_TLS c) (gc_Limits c)
        (gc_Timeouts c) (gc_Auth c)).
Definition ex_mentions (raw : list byte) (k : string) : bool := String.eqb k "alice".
Definition ex_config : GatewayConfig := match ex_Unmarshal [] Default with Ok c => c | _ => Default end.
Definition ex_gateway : res gateway := build_gateway ex_config "".

Lemma config_load_sound_witness :
  valid_config ex_config
  /\ start_check (NewServer (gateway_session ex_config) (ex_verifier (60 * Second) (60 * Second)) (NewManager ex_limits) NewMetrics) = None
  /\ normalize_session_config (gateway_session ex_config) = gateway_session ex_config
  /\ 64 <= pipeline_per_worker (gateway_session ex_config)
  /\ (forall flowID seq payload, is_u64 flowID -> is_u32 seq ->
        exists raws, FragmentDatagram flowID seq payload (MaxDgramPayload (gateway_session ex_config)) = Ok raws
          /\ Forall (fun raw => zlen raw <= gc_MaxDgramPayload ex_config) raws).
Proof. apply (config_load_sound ex_ReadFile ex_Unmarshal "config.yaml"). vm_compute. reflexivity. Defined.

Lemma default_client_stays_witness :
  exists gw, ex_gateway = Ok gw
  /\ StaticSecretFor (v_secrets (sr_verifier (gw_session gw))) "smoke-client" = Ok (bytes_of_string "smoke-secret").
Proof.
  destruct ex_gateway as [gw| |] eqn:E; [|vm_compute in E; discriminate E..]. exists gw. split; [reflexivity|].
  refine (default_client_stays ex_ReadFile ex_Unmarshal "config.yaml" ex_mentions _ ex_config "" gw _ eq_refl eq_refl _ E);
    [|vm_compute; reflexivity].
  intros raw cfg cfg' secrets k v [= <-] Hm Hs Hk. cbn [gc_ClientSecrets]. rewrite Hs. eexists. split; [reflexivity|].
  cbn [default]. rewrite lookup_insert_ne; [exact Hk|]. intros <-. discriminate Hm.
Defined.
