(* ===== verification/Transit.v ===== *)
(** * The transit proxy: configuration and UDP lanes ([internal/transit])

    A lane forwards the datagrams of each client address through a socket of its own to the
    backend and sends the answers back. The steps are the turns of [Run] (up to the backend write,
    and the write), the turns of the goroutine of each session, and [Close]. A session struct is a
    cell addressed by its backend socket; a client address is its [String()]. *)

From S2P Require Import Prelude GoString.

(** ** Configuration *)

Record TransitTimeouts := mkTransitTimeouts { tt_DialTimeout : Z; UDPIdle : Z; ShutdownTimeout : Z }.

Record TransitConfig := mkTransitConfig {
  tc_LogLevel : string; tc_ListenTCP : string; BackendTCP : string; ListenUDP : string; ListenUDPAlt : string;
  BackendUDP : string; EnableRelay : bool; ListenRelay : string; BackendRelay : string;
  EnableMetrics : bool; MetricsListen : string; tc_Timeouts : TransitTimeouts }.

Definition DefaultConfig : TransitConfig :=
  mkTransitConfig "info" "0.0.0.0:443" "127.0.0.1:443" "0.0.0.0:443" "0.0.0.0:8443" "127.0.0.1:443" true
    "0.0.0.0:8080" "127.0.0.1:8080" true "127.0.0.1:9091"
    (mkTransitTimeouts (10 * Second) (60 * Second) (10 * Second)).

Definition transit_or (s def : string) : string := if String.eqb s "" then def else s.
Definition transit_or_dur (n def : Z) : Z := if n =? 0 then def else n.

Definition transit_applyDefaults (c : TransitConfig) : TransitConfig :=
  let d := DefaultConfig in
  mkTransitConfig (transit_or (tc_LogLevel c) (tc_LogLevel d)) (transit_or (tc_ListenTCP c) (tc_ListenTCP d))
    (transit_or (BackendTCP c) (BackendTCP d)) (transit_or (ListenUDP c) (ListenUDP d)) (ListenUDPAlt c)
    (transit_or (BackendUDP c) (BackendUDP d)) (EnableRelay c)
    (if EnableRelay c then transit_or (ListenRelay c) (ListenRelay d) else ListenRelay c)
    (if EnableRelay c then transit_or (BackendRelay c) (BackendRelay d) else BackendRelay c)
    (EnableMetrics c) (if EnableMetrics c then transit_or (MetricsListen c) (MetricsListen d) else MetricsListen c)
    (let t := tc_Timeouts c in let dt := tc_Timeouts d in
     mkTransitTimeouts (transit_or_dur (tt_DialTimeout t) (tt_DialTimeout dt)) (transit_or_dur (UDPIdle t) (UDPIdle dt))
       (transit_or_dur (ShutdownTimeout t) (ShutdownTimeout dt))).

Definition validateAddr (addr : string) : option goerr :=
  match SplitHostPort (bytes_of_string addr) with
  | Err e => Some e
  | Panic _ => Some (ENew "panic")
  | Ok (host, port) =>
      match ParseInt port with
      | Ok parsedPort => if (parsedPort <? 1) || (65535 <? parsedPort) then Some (ENew "port out of range") else None
      | Err e => Some (EWrap "invalid port" e)
      | Panic _ => Some (ENew "panic")
      end
  end.

Definition checkAddr (ctx addr : string) : option goerr := EWrap ctx <$> validateAddr addr.

(** The first error of a list of checks. *)
Fixpoint first_error (l : list (option goerr)) : option goerr :=
  match l with [] => None | Some e :: _ => Some e | None :: l => first_error l end.

Definition transit_Validate (c : TransitConfig) : option goerr :=
  first_error
    [ checkAddr "invalid listen_tcp" (tc_ListenTCP c); checkAddr "invalid backend_tcp" (BackendTCP c);
      checkAddr "invalid listen_udp" (ListenUDP c); checkAddr "invalid backend_udp" (BackendUDP c);
      (if String.eqb (ListenUDPAlt c) "" then None else checkAddr "invalid listen_udp_alt" (ListenUDPAlt c));
      (if EnableRelay c then checkAddr "invalid listen_relay" (ListenRelay c) else None);
      (if EnableRelay c then checkAddr "invalid backend_relay" (BackendRelay c) else None);
      (if EnableMetrics c then checkAddr "invalid metrics_listen" (MetricsListen c) else None);
      (if tt_DialTimeout (tc_Timeouts c) <=? 0 then Some (ENew "dial_timeout must be positive") else None);
      (if UDPIdle (tc_Timeouts c) <=? 0 then Some (ENew "udp_idle must be positive") else None);
      (if ShutdownTimeout (tc_Timeouts c) <=? 0 then Some (ENew "shutdown_timeout must be positive") else None) ].

Definition transit_Load (ReadFile : string -> res (list byte)) (Unmarshal : list byte -> TransitConfig -> res TransitConfig)
    (path : string) : res TransitConfig :=
  raw ← wrap_err "read transit config" (ReadFile path);
  cfg ← wrap_err "unmarshal transit config" (Unmarshal raw DefaultConfig);
  let cfg := transit_applyDefaults cfg in
  match transit_Validate cfg with
  | Some e => Err e
  | None => Ok cfg
  end.

(** The lanes that [start] opens, in order: kind, name, listen address, backend address. *)
Inductive lane_kind := LaneTCP | LaneUDP | LaneMetrics.
Definition start_lanes (c : TransitConfig) : list (lane_kind * string * string * string) :=
  [(LaneTCP, "session_tcp", tc_ListenTCP c, BackendTCP c); (LaneUDP, "session_udp", ListenUDP c, BackendUDP c)]
  ++ (if negb (String.eqb (ListenUDPAlt c) "") && negb (String.eqb (ListenUDPAlt c) (ListenUDP c))
      then [(LaneUDP, "session_udp_alt", ListenUDPAlt c, BackendUDP c)] else [])
  ++ (if EnableRelay c then [(LaneTCP, "relay_tcp", ListenRelay c, BackendRelay c)] else [])
  ++ (if EnableMetrics c then [(LaneMetrics, "metrics", MetricsListen c, "")] else []).

(** ** Metrics *)

Inductive tmetric :=
| ActiveTCPConns (lane : string) | ActiveUDPSessions (lane : string)
| TBytesIn (lane : string) | TBytesOut (lane : string) | PacketsIn (lane : string) | PacketsOut (lane : string)
| AcceptErrors (lane : string) | DialFailures (lane : string)
| SessionsOpened (lane : string) | SessionsClosed (lane reason : string).

#[global] Instance tmetric_eq_dec : EqDecision tmetric.
Proof. solve_decision. Defined.

Definition tmetrics : Type := tmetric -> Z.
Definition t_add (m : tmetrics) (k : tmetric) (d : Z) : tmetrics := fun k' => if decide (k' = k) then m k + d else m k'.

Lemma t_add_eq m k d : t_add m k d k = m k + d.
Proof. unfold t_add. by rewrite decide_True. Qed.
Lemma t_add_ne m k k' d : k' <> k -> t_add m k d k' = m k'.
Proof. intros Hk. unfold t_add. by rewrite decide_False. Qed.

(** ** UDP lanes *)

Record udpSession := mkUdpSession { us_client : string; us_lastSeen : Z; us_closed : bool }.

(** [ul_pending] is the datagram that [Run] holds between [getOrCreateSession] and the write to the
    backend; [ul_pipes] are the running [pipeBackendToClient] goroutines. *)
Record udpLane := mkUdpLane {
  ul_name : string; ul_idle : Z; ul_closed : bool;
  ul_sessions : gmap string Z; ul_heap : gmap Z udpSession; ul_pipes : gset Z;
  ul_pending : option (string * Z * list byte); ul_metrics : tmetrics;
  ul_toBackend : list (Z * list byte); ul_toClient : list (string * list byte) }.

Definition newUDPLane (name : string) (idle : Z) (m : tmetrics) : udpLane :=
  mkUdpLane name idle false ∅ ∅ ∅ None m [] [].

Definition ul_set_metrics (l : udpLane) (m : tmetrics) : udpLane :=
  mkUdpLane (ul_name l) (ul_idle l) (ul_closed l) (ul_sessions l) (ul_heap l) (ul_pipes l) (ul_pending l) m
    (ul_toBackend l) (ul_toClient l).
Definition ul_set_table (l : udpLane) (s : gmap string Z) (h : gmap Z udpSession) : udpLane :=
  mkUdpLane (ul_name l) (ul_idle l) (ul_closed l) s h (ul_pipes l) (ul_pending l) (ul_metrics l)
    (ul_toBackend l) (ul_toClient l).
Definition ul_set_pipes (l : udpLane) (p : gset Z) : udpLane :=
  mkUdpLane (ul_name l) (ul_idle l) (ul_closed l) (ul_sessions l) (ul_heap l) p (ul_pending l) (ul_metrics l)
    (ul_toBackend l) (ul_toClient l).
Definition ul_set_pending (l : udpLane) (p : option (string * Z * list byte)) : udpLane :=
  mkUdpLane (ul_name l) (ul_idle l) (ul_closed l) (ul_sessions l) (ul_heap l) (ul_pipes l) p (ul_metrics l)
    (ul_toBackend l) (ul_toClient l).
Definition ul_set_out (l : udpLane) (b : list (Z * list byte)) (c : list (string * list byte)) : udpLane :=
  mkUdpLane (ul_name l) (ul_idle l) (ul_closed l) (ul_sessions l) (ul_heap l) (ul_pipes l) (ul_pending l) (ul_metrics l) b c.
Definition ul_set_closed (l : udpLane) : udpLane :=
  mkUdpLane (ul_name l) (ul_idle l) true (ul_sessions l) (ul_heap l) (ul_pipes l) (ul_pending l) (ul_metrics l)
    (ul_toBackend l) (ul_toClient l).

Definition ul_count (l : udpLane) (k : tmetric) (d : Z) : udpLane := ul_set_metrics l (t_add (ul_metrics l) k d).

Definition us_touch (l : udpLane) (k : Z) (now : Z) : udpLane :=
  match ul_heap l !! k with
  | None => l
  | Some s => ul_set_table l (ul_sessions l) (<[k := mkUdpSession (us_client s) now (us_closed s)]> (ul_heap l))
  end.

Definition idleFor (s : udpSession) (now : Z) : Z := if us_lastSeen s =? 0 then 0 else time_Sub now (us_lastSeen s).

(** [finalizeSession]; the socket of the cell is closed. *)
Definition finalizeSession (l : udpLane) (k : Z) (s : udpSession) (reason : string) : udpLane :=
  let l := ul_set_table l (ul_sessions l) (<[k := mkUdpSession (us_client s) (us_lastSeen s) true]> (ul_heap l)) in
  ul_count (ul_count l (ActiveUDPSessions (ul_name l)) (-1)) (SessionsClosed (ul_name l) reason) 1.

(** [closeSession]: the body of [closeOnce]. *)
Definition closeSession (l : udpLane) (key : string) (k : Z) (reason : string) : udpLane :=
  match ul_heap l !! k with
  | None => l
  | Some s =>
      if us_closed s then l
      else finalizeSession (ul_set_table l (delete key (ul_sessions l)) (ul_heap l)) k s reason
  end.

(** [dial] is the new backend socket or the error of [DialUDP]. *)
Definition getOrCreateSession (l : udpLane) (now : Z) (key : string) (dial : res Z) : udpLane * res Z :=
  match ul_sessions l !! key with
  | Some k => (l, Ok k)
  | None =>
      match dial with
      | Ok k =>
          let l := ul_set_table l (<[key := k]> (ul_sessions l)) (<[k := mkUdpSession key now false]> (ul_heap l)) in
          let l := ul_count (ul_count l (ActiveUDPSessions (ul_name l)) 1) (SessionsOpened (ul_name l)) 1 in
          (ul_set_pipes l ({[k]} ∪ ul_pipes l), Ok k)
      | Err e => (l, Err e)
      | Panic m => (l, Panic m)
      end
  end.

(** One turn of [Run] up to the write: what [ReadFromUDP] returned; [false] when [Run] returns. *)
Definition Run_read (l : udpLane) (now : Z) (ctxDone : bool) (r : res (list byte * string)) (dial : res Z)
  : udpLane * bool :=
  match r with
  | Panic _ => (l, false)
  | Err e =>
      if ctxDone || ul_closed l || err_is e ENetClosed then (l, false)
      else (ul_count l (AcceptErrors (ul_name l)) 1, true)
  | Ok (data, addr) =>
      let l := ul_count (ul_count l (TBytesIn (ul_name l)) (zlen data)) (PacketsIn (ul_name l)) 1 in
      match getOrCreateSession l now addr dial with
      | (l, Ok k) => (ul_set_pending (us_touch l k now) (Some (addr, k, data)), true)
      | (l, _) => (ul_count l (DialFailures (ul_name l)) 1, true)
      end
  end.

(** The write to the backend and what follows its error. *)
Definition Run_write (l : udpLane) (write : option goerr) : udpLane :=
  match ul_pending l with
  | None => l
  | Some (addr, k, data) =>
      let l := ul_set_pending l None in
      match write with
      | None => ul_set_out l (ul_toBackend l ++ [(k, data)]) (ul_toClient l)
      | Some _ => closeSession l addr k "backend_write_error"
      end
  end.

(** What a read from the backend gives. *)
Inductive backend_read := BackendData (data : list byte) | BackendTimeout | BackendErr (e : goerr).

(** [pipeBackendToClient] returns. *)
Definition pipe_exit (l : udpLane) (k : Z) : udpLane := ul_set_pipes l (ul_pipes l ∖ {[k]}).

(** One turn of [pipeBackendToClient] of the session at [k]; [write] is the error of the write to the client. *)
Definition pipe_turn (l : udpLane) (now : Z) (ctxDone : bool) (k : Z) (r : backend_read) (write : option goerr) : udpLane :=
  match ul_heap l !! k with
  | None => l
  | Some s =>
      match r with
      | BackendErr e =>
          if ctxDone || ul_closed l || err_is e ENetClosed then pipe_exit (closeSession l (us_client s) k "shutdown") k
          else pipe_exit (closeSession l (us_client s) k "backend_read_error") k
      | BackendTimeout =>
          if ctxDone || ul_closed l then pipe_exit (closeSession l (us_client s) k "shutdown") k
          else if ul_idle l <=? idleFor s now then pipe_exit (closeSession l (us_client s) k "idle_timeout") k
          else l
      | BackendData data =>
          let l := us_touch l k now in
          match write with
          | Some _ => pipe_exit (closeSession l (us_client s) k "client_write_error") k
          | None =>
              let l := ul_set_out l (ul_toBackend l) (ul_toClient l ++ [(us_client s, data)]) in
              ul_count (ul_count l (TBytesOut (ul_name l)) (zlen data)) (PacketsOut (ul_name l)) 1
          end
      end
  end.

(** [Close] up to [waitGroup.Wait]: the flag, the swap of the map and the sessions it held. *)
Definition finalize_if_open (l : udpLane) (k : Z) : udpLane :=
  match ul_heap l !! k with
  | Some s => if us_closed s then l else finalizeSession l k s "shutdown"
  | None => l
  end.
Definition lane_Close (l : udpLane) : udpLane :=
  if ul_closed l then l
  else
    let l := ul_set_closed l in
    let sessions := (map_to_list (ul_sessions l)).*2 in
    foldl finalize_if_open (ul_set_table l ∅ (ul_heap l)) sessions.

(** ** Reachable lanes *)

(** What arrived from clients and from the backend. *)
Record arrivals := mkArrivals { ar_clients : list (string * list byte); ar_backend : list (Z * list byte) }.

Inductive lane_step : udpLane * arrivals -> udpLane * arrivals -> Prop :=
| ls_read l h now ctxDone r dial l' b :
    ul_pending l = None -> (forall k, dial = Ok k -> ul_heap l !! k = None) ->
    Run_read l now ctxDone r dial = (l', b) ->
    lane_step (l, h) (l', mkArrivals (ar_clients h ++ match r with Ok (d, a) => [(a, d)] | _ => [] end) (ar_backend h))
| ls_write l h write : lane_step (l, h) (Run_write l write, h)
| ls_pipe l h now ctxDone k r write :
    k ∈ ul_pipes l ->
    lane_step (l, h) (pipe_turn l now ctxDone k r write,
      mkArrivals (ar_clients h) (ar_backend h ++ match r with BackendData d => [(k, d)] | _ => [] end))
| ls_close l h : lane_step (l, h) (lane_Close l, h)
| ls_others l h m' :
    (forall q, match q with
       | ActiveUDPSessions n | SessionsOpened n | SessionsClosed n _ => n = ul_name l -> m' q = ul_metrics l q
       | _ => True end) -> lane_step (l, h) (ul_set_metrics l m', h).

Inductive lane_steps : udpLane * arrivals -> udpLane * arrivals -> Prop :=
| lss_refl x : lane_steps x x
| lss_more x y z : lane_steps x y -> lane_step y z -> lane_steps x z.

(** ** The invariant of a lane *)

Definition close_reasons : list string :=
  ["shutdown"; "backend_write_error"; "idle_timeout"; "backend_read_error"; "client_write_error"].

(** All closes of a lane, whatever the reason. *)
Definition closed_total (m : tmetrics) (name : string) : Z :=
  foldr (fun r n => m (SessionsClosed name r) + n) 0 close_reasons.

Definition live_gauge (l : udpLane) : Z := ul_metrics l (ActiveUDPSessions (ul_name l)).
Definition open_balance (l : udpLane) : Z :=
  ul_metrics l (SessionsOpened (ul_name l)) - closed_total (ul_metrics l) (ul_name l).

Lemma closed_total_close m name r : r ∈ close_reasons ->
  closed_total (t_add m (SessionsClosed name r) 1) name = closed_total m name + 1.
Proof.
  intros Hr. unfold closed_total, close_reasons in *. cbn [foldr].
  repeat (apply elem_of_cons in Hr as [->|Hr];
    [rewrite t_add_eq; repeat rewrite t_add_ne by (intros [=]); lia|]).
  by apply not_elem_of_nil in Hr.
Qed.

Lemma closed_total_other m name k d : (forall r, k <> SessionsClosed name r) ->
  closed_total (t_add m k d) name = closed_total m name.
Proof. intros Hk. unfold closed_total, close_reasons. cbn [foldr]. by rewrite !t_add_ne by (intros E; by eapply Hk). Qed.

(** A count that concerns neither the sessions gauge nor the open and close counters. *)
Definition traffic_count (k : tmetric) : Prop :=
  match k with ActiveUDPSessions _ | SessionsOpened _ | SessionsClosed _ _ => False | _ => True end.

Lemma traffic_live l k d : traffic_count k -> live_gauge (ul_count l k d) = live_gauge l.
Proof. intros Hk. unfold live_gauge. cbn. apply t_add_ne. by intros <-. Qed.

Lemma traffic_balance l k d : traffic_count k -> open_balance (ul_count l k d) = open_balance l.
Proof.
  intros Hk. unfold open_balance. cbn [ul_count ul_set_metrics ul_metrics ul_name]. rewrite t_add_ne by (by intros <-).
  rewrite closed_total_other; [done|]. by intros r ->.
Qed.

(** [g] and [b]: what the gauge and the balance of opens and closes were before the lane. *)
Record lane_inv (g b : Z) (l : udpLane) (h : arrivals) : Prop := {
  li_map : forall a k, ul_sessions l !! a = Some k -> exists t, ul_heap l !! k = Some (mkUdpSession a t false);
  li_live : forall k s, ul_heap l !! k = Some s -> us_closed s = false ->
    ul_sessions l !! us_client s = Some k /\ k ∈ ul_pipes l;
  li_gauge : live_gauge l = g + Z.of_nat (size (ul_sessions l));
  li_balance : open_balance l = b + Z.of_nat (size (ul_sessions l));
  li_pending : forall a k d, ul_pending l = Some (a, k, d) ->
    us_client <$> (ul_heap l !! k) = Some a /\ (a, d) ∈ ar_clients h;
  li_backend : forall k d, (k, d) ∈ ul_toBackend l ->
    exists a, us_client <$> (ul_heap l !! k) = Some a /\ (a, d) ∈ ar_clients h;
  li_client : forall a d, (a, d) ∈ ul_toClient l ->
    exists k, us_client <$> (ul_heap l !! k) = Some a /\ (k, d) ∈ ar_backend h }.

(** Cells keep their client. *)
Definition heap_keeps (m m' : gmap Z udpSession) : Prop :=
  forall k a, us_client <$> (m !! k) = Some a -> us_client <$> (m' !! k) = Some a.

Lemma heap_keeps_same m k s s' : m !! k = Some s -> us_client s' = us_client s -> heap_keeps m (<[k := s']> m).
Proof.
  intros Hk Hc j a Hj. destruct (decide (j = k)) as [->|Hne]; [|by rewrite lookup_insert_ne].
  rewrite lookup_insert_eq. rewrite Hk in Hj. cbn in *. congruence.
Qed.

Lemma heap_keeps_new m k s : m !! k = None -> heap_keeps m (<[k := s]> m).
Proof. intros Hk j a Hj. rewrite lookup_insert_ne; [done|]. intros <-. by rewrite Hk in Hj. Qed.

(** A step that changes the table, the pipes and the session counters, but moves no datagram. *)
Lemma lane_inv_table g b l l' h :
  lane_inv g b l h -> heap_keeps (ul_heap l) (ul_heap l') ->
  ul_pending l' = ul_pending l -> ul_toBackend l' = ul_toBackend l -> ul_toClient l' = ul_toClient l ->
  (forall a k, ul_sessions l' !! a = Some k -> exists t, ul_heap l' !! k = Some (mkUdpSession a t false)) ->
  (forall k s, ul_heap l' !! k = Some s -> us_closed s = false -> ul_sessions l' !! us_client s = Some k /\ k ∈ ul_pipes l') ->
  live_gauge l' = g + Z.of_nat (size (ul_sessions l')) -> open_balance l' = b + Z.of_nat (size (ul_sessions l')) ->
  lane_inv g b l' h.
Proof.
  intros [] Hk E1 E2 E3 Hm Hl Hg Hb. split; rewrite ?E1, ?E2, ?E3; try done.
  - intros a k d Hp. destruct (li_pending0 _ _ _ Hp). split; [by apply Hk|done].
  - intros k d Hd. destruct (li_backend0 _ _ Hd) as (a & Ha & Hin). exists a. split; [by apply Hk|done].
  - intros a d Hd. destruct (li_client0 _ _ Hd) as (k & Ha & Hin). exists k. split; [by apply Hk|done].
Qed.

(** Metrics of traffic change nothing. *)
Lemma lane_inv_count g b l h k d : lane_inv g b l h -> traffic_count k -> lane_inv g b (ul_count l k d) h.
Proof.
  intros Hinv Hk. destruct Hinv. split; try done.
  - by rewrite traffic_live.
  - by rewrite traffic_balance.
Qed.

Lemma lane_inv_arrivals g b l h h' :
  lane_inv g b l h -> (forall x, x ∈ ar_clients h -> x ∈ ar_clients h') -> (forall x, x ∈ ar_backend h -> x ∈ ar_backend h') ->
  lane_inv g b l h'.
Proof.
  intros [] Hc Hb. split; try done.
  - intros a k d Hp. destruct (li_pending0 _ _ _ Hp). auto.
  - intros k d Hd. destruct (li_backend0 _ _ Hd) as (a & Ha & Hin). eauto.
  - intros a d Hd. destruct (li_client0 _ _ Hd) as (k & Ha & Hin). eauto.
Qed.

Lemma touch_inv g b l h k now : lane_inv g b l h -> lane_inv g b (us_touch l k now) h.
Proof.
  intros Hinv. unfold us_touch. destruct (ul_heap l !! k) as [s|] eqn:Ek; [|done].
  eapply lane_inv_table; [exact Hinv|by eapply heap_keeps_same|done..| | |apply Hinv|apply Hinv]; cbn.
  - intros a j Hj. destruct (li_map _ _ _ _ Hinv _ _ Hj) as [t Ht]. destruct (decide (j = k)) as [->|Hne].
    + rewrite lookup_insert_eq. rewrite Ek in Ht. simplify_eq. cbn. eauto.
    + rewrite lookup_insert_ne by done. eauto.
  - intros j s' Hj. apply lookup_insert_Some in Hj as [[<- <-]|[Hne Hj]]; cbn; [|by apply Hinv]. by apply (li_live _ _ _ _ Hinv).
Qed.

Lemma closeSession_inv g b l h k s reason :
  lane_inv g b l h -> ul_heap l !! k = Some s -> reason ∈ close_reasons ->
  lane_inv g b (closeSession l (us_client s) k reason) h
  /\ us_closed <$> (ul_heap (closeSession l (us_client s) k reason) !! k) = Some true
  /\ ul_pipes (closeSession l (us_client s) k reason) = ul_pipes l.
Proof.
  intros Hinv Hk Hr. unfold closeSession. rewrite Hk. destruct (us_closed s) eqn:Ec.
  { split; [done|]. rewrite Hk. cbn. by rewrite Ec. }
  destruct (li_live _ _ _ _ Hinv _ _ Hk Ec) as [Hs _].
  split; [|split; [cbn; by rewrite lookup_insert_eq|done]].
  assert (Hsz : Z.of_nat (size (delete (us_client s) (ul_sessions l))) = Z.of_nat (size (ul_sessions l)) - 1).
  { rewrite map_size_delete_Some by eauto.
    assert (size (ul_sessions l) <> 0%nat) by (apply (map_size_ne_0_lookup_2 _ (us_client s)); eauto). lia. }
  eapply lane_inv_table; [exact Hinv|by eapply heap_keeps_same|done..| | | |]; cbn [finalizeSession ul_count ul_set_metrics ul_set_table ul_sessions ul_heap ul_pipes].
  - intros a j Hj. apply lookup_delete_Some in Hj as [Hne Hj]. destruct (li_map _ _ _ _ Hinv _ _ Hj) as [t Ht].
    exists t. rewrite lookup_insert_ne; [done|]. intros <-. rewrite Hk in Ht. by simplify_eq.
  - intros j s' Hj Hc. apply lookup_insert_Some in Hj as [[<- <-]|[Hne Hj]]; [done|].
    destruct (li_live _ _ _ _ Hinv _ _ Hj Hc) as [H1 H2]. split; [|done].
    rewrite lookup_delete_ne; [done|]. intros E. rewrite E in Hs. congruence.
  - unfold live_gauge. cbn [finalizeSession ul_count ul_set_metrics ul_set_table ul_metrics ul_name].
    rewrite t_add_ne, t_add_eq by done. rewrite Hsz. pose proof (li_gauge _ _ _ _ Hinv) as Hg. unfold live_gauge in Hg. lia.
  - unfold open_balance. cbn [finalizeSession ul_count ul_set_metrics ul_set_table ul_metrics ul_name].
    rewrite t_add_ne, t_add_ne by done. rewrite closed_total_close by done. rewrite closed_total_other by done.
    rewrite Hsz. pose proof (li_balance _ _ _ _ Hinv) as Hg. unfold open_balance in Hg. lia.
Qed.

(** A goroutine may leave once its session is closed. *)
Lemma pipe_exit_inv g b l h k :
  lane_inv g b l h -> us_closed <$> (ul_heap l !! k) = Some true -> lane_inv g b (pipe_exit l k) h.
Proof.
  intros [] Hk. split; try done. cbn. intros j s Hj Hc. destruct (li_live0 _ _ Hj Hc) as [H1 H2]. split; [done|].
  apply elem_of_difference. split; [done|]. intros ->%elem_of_singleton. rewrite Hj in Hk. cbn in Hk. congruence.
Qed.

Lemma close_exit_inv g b l h k s reason :
  lane_inv g b l h -> ul_heap l !! k = Some s -> reason ∈ close_reasons ->
  lane_inv g b (pipe_exit (closeSession l (us_client s) k reason) k) h.
Proof. intros Hinv Hk Hr. destruct (closeSession_inv g b l h k s reason Hinv Hk Hr) as (H1 & H2 & _). by apply pipe_exit_inv. Qed.

Lemma getOrCreate_inv g b l h now a dial l' r :
  lane_inv g b l h -> (forall k, dial = Ok k -> ul_heap l !! k = None) -> getOrCreateSession l now a dial = (l', r) ->
  lane_inv g b l' h /\ ul_pending l' = ul_pending l /\ ul_name l' = ul_name l
  /\ (forall k, r = Ok k -> us_client <$> (ul_heap l' !! k) = Some a).
Proof.
  intros Hinv Hd. unfold getOrCreateSession. destruct (ul_sessions l !! a) as [k|] eqn:Ea.
  { intros [= <- <-]. split_and!; try done. intros k' [= <-]. destruct (li_map _ _ _ _ Hinv _ _ Ea) as [t Ht]. by rewrite Ht. }
  destruct dial as [k|e|m]; [|intros [= <- <-]; by split_and!..].
  intros [= <- <-]. specialize (Hd k eq_refl).
  split; [|split; [done|split; [done|intros k' [= <-]; cbn; by rewrite lookup_insert_eq]]].
  assert (Hsz : size (<[a := k]> (ul_sessions l)) = S (size (ul_sessions l))) by (by apply map_size_insert_None).
  eapply lane_inv_table; [exact Hinv|by apply heap_keeps_new|done..| | | |]; cbn [ul_count ul_set_metrics ul_set_table ul_set_pipes ul_sessions ul_heap ul_pipes].
  - intros a' j Hj. apply lookup_insert_Some in Hj as [[<- <-]|[Hne Hj]]; [rewrite lookup_insert_eq; eauto|].
    destruct (li_map _ _ _ _ Hinv _ _ Hj) as [t Ht]. exists t. rewrite lookup_insert_ne; [done|]. intros <-. congruence.
  - intros j s Hj Hc. apply lookup_insert_Some in Hj as [[<- <-]|[Hne Hj]].
    + cbn. rewrite lookup_insert_eq. split; [done|set_solver].
    + destruct (li_live _ _ _ _ Hinv _ _ Hj Hc) as [H1 H2]. split; [|set_solver].
      rewrite lookup_insert_ne; [done|]. intros E. rewrite E in Ea. congruence.
  - unfold live_gauge. cbn [ul_count ul_set_metrics ul_set_table ul_set_pipes ul_metrics ul_name].
    rewrite t_add_ne, t_add_eq by done. rewrite Hsz. pose proof (li_gauge _ _ _ _ Hinv) as Hg. unfold live_gauge in Hg. lia.
  - unfold open_balance. cbn [ul_count ul_set_metrics ul_set_table ul_set_pipes ul_metrics ul_name].
    rewrite t_add_eq, t_add_ne by done. rewrite !closed_total_other by done. rewrite Hsz.
    pose proof (li_balance _ _ _ _ Hinv) as Hg. unfold open_balance in Hg. lia.
Qed.

Lemma touch_client l k now j a : us_client <$> (ul_heap l !! j) = Some a -> us_client <$> (ul_heap (us_touch l k now) !! j) = Some a.
Proof.
  intros Hj. unfold us_touch. destruct (ul_heap l !! k) as [s|] eqn:Ek; [|done]. by apply (heap_keeps_same (ul_heap l) k s).
Qed.

Lemma Run_read_inv g b l h now ctx r dial l' ok :
  lane_inv g b l h -> ul_pending l = None -> (forall k, dial = Ok k -> ul_heap l !! k = None) ->
  Run_read l now ctx r dial = (l', ok) ->
  lane_inv g b l' (mkArrivals (ar_clients h ++ match r with Ok (d, a) => [(a, d)] | _ => [] end) (ar_backend h)).
Proof.
  intros Hinv Hp Hd. assert (Hnil : lane_inv g b l (mkArrivals (ar_clients h ++ []) (ar_backend h))) by (rewrite app_nil_r; by destruct h).
  unfold Run_read. destruct r as [[d a]|e|m].
  - set (l1 := ul_count (ul_count l _ _) _ _). set (h' := mkArrivals _ _).
    assert (H1 : lane_inv g b l1 h').
    { apply (lane_inv_arrivals g b l1 h); [by apply lane_inv_count; [apply lane_inv_count|]| |done]. cbn. intros x Hx. apply elem_of_app. by left. }
    destruct (getOrCreateSession l1 now a dial) as [l2 r] eqn:Eg.
    destruct (getOrCreate_inv g b l1 h' now a dial l2 r H1 Hd Eg) as (H2 & Hp2 & _ & Hk).
    destruct r as [k|e|m]; intros [= <- <-]; [|by apply lane_inv_count..].
    pose proof (touch_inv _ _ _ _ k now H2) as H3. pose proof (touch_client l2 k now k a (Hk k eq_refl)) as H4.
    destruct H3. split; try done. cbn. intros a' k' d' [= <- <- <-]. split; [done|]. apply elem_of_app. right. by left.
  - case_match; intros [= <- <-]; [done|by apply lane_inv_count].
  - by intros [= <- <-].
Qed.

Lemma Run_write_inv g b l h write : lane_inv g b l h -> lane_inv g b (Run_write l write) h.
Proof.
  intros Hinv. unfold Run_write. destruct (ul_pending l) as [[[a k] d]|] eqn:Ep; [|done].
  destruct (li_pending _ _ _ _ Hinv _ _ _ Ep) as [Hk Hin].
  assert (H1 : lane_inv g b (ul_set_pending l None) h) by (destruct Hinv; by split).
  destruct write as [e|].
  - destruct (ul_heap l !! k) as [s|] eqn:Es; [|done]. cbn in Hk. injection Hk as <-.
    apply (closeSession_inv g b (ul_set_pending l None) h k s); [done|done|]. repeat constructor.
  - destruct H1. split; try done. cbn. intros k' d' [Hd|Hd%list_elem_of_singleton]%elem_of_app; [by apply li_backend0|].
    injection Hd as -> ->. eauto.
Qed.

Lemma pipe_turn_inv g b l h now ctx k r write :
  lane_inv g b l h ->
  lane_inv g b (pipe_turn l now ctx k r write)
    (mkArrivals (ar_clients h) (ar_backend h ++ match r with BackendData d => [(k, d)] | _ => [] end)).
Proof.
  intros Hinv. set (h' := mkArrivals _ _).
  assert (H1 : lane_inv g b l h').
  { eapply lane_inv_arrivals; [exact Hinv|done|]. cbn. intros x Hx. apply elem_of_app. by left. }
  unfold pipe_turn. destruct (ul_heap l !! k) as [s|] eqn:Ek; [|done].
  assert (Hcl : forall reason, reason ∈ close_reasons -> lane_inv g b (pipe_exit (closeSession l (us_client s) k reason) k) h')
    by (intros reason Hr; by apply close_exit_inv).
  destruct r as [d| |e].
  - pose proof (touch_inv _ _ _ _ k now H1) as H2.
    assert (Hk : us_client <$> (ul_heap (us_touch l k now) !! k) = Some (us_client s)) by (apply touch_client; by rewrite Ek).
    destruct (ul_heap (us_touch l k now) !! k) as [s'|] eqn:Es'; [|done]. cbn in Hk. injection Hk as Hk.
    destruct write as [e|].
    + rewrite <- Hk. apply close_exit_inv; [done|done|]. repeat constructor.
    + do 2 (apply lane_inv_count; [|done]). destruct H2. split; try done. cbn.
      intros a d' [Hd|Hd%list_elem_of_singleton]%elem_of_app; [by apply li_client0|]. injection Hd as -> ->.
      exists k. split; [by rewrite Es'; cbn; rewrite Hk|]. apply elem_of_app. right. by left.
  - repeat case_match; try done; apply Hcl; repeat constructor.
  - case_match; apply Hcl; repeat constructor.
Qed.

(** Finalising sessions that are open and distinct. *)
Lemma finalize_all ks : forall l,
  NoDup ks -> (forall k, k ∈ ks -> exists s, ul_heap l !! k = Some s /\ us_closed s = false) ->
  let l' := foldl finalize_if_open l ks in
  ul_sessions l' = ul_sessions l /\ ul_pipes l' = ul_pipes l /\ ul_pending l' = ul_pending l
  /\ ul_toBackend l' = ul_toBackend l /\ ul_toClient l' = ul_toClient l /\ heap_keeps (ul_heap l) (ul_heap l')
  /\ (forall k, k ∈ ks -> us_closed <$> (ul_heap l' !! k) = Some true)
  /\ (forall k, k ∉ ks -> ul_heap l' !! k = ul_heap l !! k)
  /\ live_gauge l' = live_gauge l - Z.of_nat (length ks) /\ open_balance l' = open_balance l - Z.of_nat (length ks).
Proof.
  induction ks as [|k ks IH]; intros l Hd Hopen; cbn zeta; cbn [foldl].
  { split_and!; try done; [by intros k a|by intros k Hk%not_elem_of_nil|cbn [length]; lia..]. }
  apply NoDup_cons in Hd as [Hk Hd]. destruct (Hopen k ltac:(by left)) as (s & Hs & Hc).
  set (l1 := finalize_if_open l k).
  assert (E1 : l1 = finalizeSession l k s "shutdown") by (unfold l1, finalize_if_open; by rewrite Hs, Hc).
  destruct (IH l1 Hd) as (A1 & A2 & A3 & A4 & A5 & A6 & A7 & A8 & A9 & A10).
  { intros j Hj. rewrite E1. cbn. rewrite lookup_insert_ne by (intros ->; done). apply Hopen. by right. }
  assert (Hg : live_gauge l1 = live_gauge l - 1).
  { rewrite E1. unfold live_gauge. cbn [finalizeSession ul_count ul_set_metrics ul_set_table ul_metrics ul_name].
    rewrite t_add_ne, t_add_eq by done. lia. }
  assert (Hb : open_balance l1 = open_balance l - 1).
  { rewrite E1. unfold open_balance. cbn [finalizeSession ul_count ul_set_metrics ul_set_table ul_metrics ul_name].
    rewrite t_add_ne, t_add_ne by done. rewrite closed_total_close by (repeat constructor). rewrite closed_total_other by done. lia. }
  split_and!; try (by rewrite E1 in *).
  - intros j a Hj. apply A6. rewrite E1. by apply (heap_keeps_same _ k s).
  - intros j [->|Hj]%elem_of_cons; [|by apply A7]. rewrite A8 by done. rewrite E1. cbn. by rewrite lookup_insert_eq.
  - intros j Hj. apply not_elem_of_cons in Hj as [Hne Hj]. rewrite A8 by done. rewrite E1. cbn. by rewrite lookup_insert_ne.
  - rewrite A9, Hg. cbn [length]. lia.
  - rewrite A10, Hb. cbn [length]. lia.
Qed.

Lemma lane_Close_inv g b l h : lane_inv g b l h -> lane_inv g b (lane_Close l) h
  /\ (ul_closed l = false -> ul_sessions (lane_Close l) = ∅).
Proof.
  intros Hinv. unfold lane_Close. destruct (ul_closed l) eqn:Ec; [done|]. set (ks := (map_to_list (ul_sessions (ul_set_closed l))).*2).
  set (l1 := ul_set_table _ ∅ _).
  assert (Hin : forall k, k ∈ ks <-> exists a, ul_sessions l !! a = Some k).
  { intros k. unfold ks. rewrite list_elem_of_fmap. split.
    - intros [[a x] [-> Hx]]. apply elem_of_map_to_list in Hx. eauto.
    - intros [a Ha]. exists (a, k). split; [done|]. by apply elem_of_map_to_list. }
  assert (Hlen : length ks = size (ul_sessions l)) by (unfold ks; rewrite length_fmap; apply length_map_to_list).
  destruct (finalize_all ks l1) as (A1 & A2 & A3 & A4 & A5 & A6 & A7 & A8 & A9 & A10).
  { unfold ks. apply NoDup_fmap_2_strong; [|apply NoDup_map_to_list]. intros [a x] [a' x'] Ha Ha' E. cbn in E. subst x'.
    apply elem_of_map_to_list in Ha, Ha'. destruct (li_map _ _ _ _ Hinv _ _ Ha) as [t Ht], (li_map _ _ _ _ Hinv _ _ Ha') as [t' Ht'].
    congruence. }
  { intros k [a Ha]%Hin. destruct (li_map _ _ _ _ Hinv _ _ Ha) as [t Ht]. eauto. }
  split; [|by rewrite A1].
  eapply lane_inv_table; [exact Hinv|exact A6|by rewrite A3|by rewrite A4|by rewrite A5| | | |].
  - rewrite A1. cbn. by intros a k Hk%lookup_empty_Some.
  - intros k s Hk Hcl. exfalso. destruct (decide (k ∈ ks)) as [Hks|Hks].
    + specialize (A7 _ Hks). rewrite Hk in A7. cbn in A7. congruence.
    + rewrite A8 in Hk by done. apply Hks, Hin. destruct (li_live _ _ _ _ Hinv _ _ Hk Hcl). eauto.
  - rewrite A9, A1. cbn [l1 ul_set_table ul_sessions]. rewrite map_size_empty, Hlen. change (live_gauge l1) with (live_gauge l). pose proof (li_gauge _ _ _ _ Hinv). lia.
  - rewrite A10, A1. cbn [l1 ul_set_table ul_sessions]. rewrite map_size_empty, Hlen. change (open_balance l1) with (open_balance l). pose proof (li_balance _ _ _ _ Hinv). lia.
Qed.

Lemma lane_step_inv g b x y : lane_step x y -> lane_inv g b x.1 x.2 -> lane_inv g b y.1 y.2.
Proof.
  intros Hs Hinv. inversion Hs; subst; cbn [fst snd] in *.
  - by eapply Run_read_inv.
  - by apply Run_write_inv.
  - by apply pipe_turn_inv.
  - by apply lane_Close_inv.
  - match goal with Hm : forall q, _ |- _ => rename Hm into Hq end. destruct Hinv. split; try done.
    + unfold live_gauge in *. cbn. by rewrite (Hq (ActiveUDPSessions (ul_name l))).
    + unfold open_balance, closed_total, close_reasons in *. cbn [foldr ul_set_metrics ul_metrics ul_name] in *.
      rewrite (Hq (SessionsOpened (ul_name l))) by done.
      rewrite (Hq (SessionsClosed (ul_name l) "shutdown")), (Hq (SessionsClosed (ul_name l) "backend_write_error")),
        (Hq (SessionsClosed (ul_name l) "idle_timeout")), (Hq (SessionsClosed (ul_name l) "backend_read_error")),
        (Hq (SessionsClosed (ul_name l) "client_write_error")) by done. done.
Qed.

Lemma lane_steps_inv g b x y : lane_steps x y -> lane_inv g b x.1 x.2 -> lane_inv g b y.1 y.2.
Proof. induction 1 as [|x y z _ IH Hs]; [done|]. intros Hinv. by apply (lane_step_inv g b y z Hs), IH. Qed.

Lemma newUDPLane_inv name idle m :
  lane_inv (m (ActiveUDPSessions name)) (m (SessionsOpened name) - closed_total m name) (newUDPLane name idle m) (mkArrivals [] []).
Proof.
  split; cbn; try done; try (by intros k d Hd%not_elem_of_nil).
  - unfold live_gauge. cbn [newUDPLane ul_metrics ul_name]. rewrite map_size_empty. lia.
  - unfold open_balance, closed_total, close_reasons. cbn [newUDPLane ul_metrics ul_name foldr]. rewrite map_size_empty. lia.
Qed.

(** ** Theorems *)


(** No datagram crosses between clients: whatever was written to the backend socket of a session
    came from the client address of that session, and whatever a client was sent was read from
    the backend socket of a session of that client. *)
Theorem transit_lane_isolation name idle m l h :
  lane_steps (newUDPLane name idle m, mkArrivals [] []) (l, h) ->
  (forall k d, (k, d) ∈ ul_toBackend l -> exists a, us_client <$> (ul_heap l !! k) = Some a /\ (a, d) ∈ ar_clients h)
  /\ (forall a d, (a, d) ∈ ul_toClient l -> exists k, us_client <$> (ul_heap l !! k) = Some a /\ (k, d) ∈ ar_backend h).
Proof. intros Hs. destruct (lane_steps_inv _ _ _ _ Hs (newUDPLane_inv name idle m)) as [_ _ _ _ _ H6 H7]. done. Qed.

(** Closing a lane closes every session it has, once; and an idle session is closed at the first
    read timeout that finds it idle for the configured time, and not before. *)
Theorem transit_lane_closes name idle m l h :
  lane_steps (newUDPLane name idle m, mkArrivals [] []) (l, h) ->
  (ul_closed l = false -> ul_sessions (lane_Close l) = ∅ /\ live_gauge (lane_Close l) = m (ActiveUDPSessions name))
  /\ (forall k s now, ul_heap l !! k = Some s -> us_closed s = false -> ul_closed l = false ->
        us_closed <$> (ul_heap (pipe_turn l now false k BackendTimeout None) !! k) = Some (ul_idle l <=? idleFor s now)).
Proof.
  intros Hs. pose proof (lane_steps_inv _ _ _ _ Hs (newUDPLane_inv name idle m)) as Hinv. cbn [fst snd] in Hinv. split.
  - intros Hc. destruct (lane_Close_inv _ _ _ _ Hinv) as [H1 H2]. rewrite (H2 Hc). split; [done|].
    rewrite (li_gauge _ _ _ _ H1), (H2 Hc), map_size_empty. lia.
  - intros k s now Hk Hc Hcl. unfold pipe_turn. rewrite Hk, Hcl. cbn [orb]. destruct (ul_idle l <=? idleFor s now).
    + destruct (closeSession_inv _ _ l h k s "idle_timeout" Hinv Hk) as (_ & H2 & _); [repeat constructor|]. exact H2.
    + rewrite Hk. cbn. by rewrite Hc.
Qed.

(** The checks of a transit configuration. *)
Definition good_addr (addr : string) : Prop :=
  exists host port n, SplitHostPort (bytes_of_string addr) = Ok (host, port) /\ ParseInt port = Ok n /\ 1 <= n <= 65535.

Lemma validateAddr_good addr : validateAddr addr = None -> good_addr addr.
Proof.
  unfold validateAddr. destruct (SplitHostPort _) as [[host port]| |] eqn:E1; [|done..].
  destruct (ParseInt port) as [n| |] eqn:E2; [|done..]. case_match eqn:E3; [done|]. intros _. exists host, port, n. zbool.
  split_and!; done || lia.
Qed.

Lemma checkAddr_good ctx addr : checkAddr ctx addr = None -> good_addr addr.
Proof. unfold checkAddr. intros E. apply validateAddr_good. by destruct (validateAddr addr). Qed.

Lemma first_error_None l : first_error l = None -> Forall (fun e => e = None) l.
Proof. induction l as [|[e|] l IH]; intros E; [constructor|done|constructor; [done|by apply IH]]. Qed.

(** A transit configuration that loads is one the proxy can start with: every lane it opens has a
    listen address with a port between 1 and 65535, every forwarding lane such a backend address,
    no two UDP lanes share a listen address, and the timeouts are positive. *)
Theorem transit_config_sound ReadFile Unmarshal path c :
  transit_Load ReadFile Unmarshal path = Ok c ->
  Forall (fun '(kind, name, listen, backend) => good_addr listen /\ (kind <> LaneMetrics -> good_addr backend)) (start_lanes c)
  /\ NoDup (omap (fun '(kind, name, listen, backend) => match kind with LaneUDP => Some listen | _ => None end) (start_lanes c))
  /\ 0 < tt_DialTimeout (tc_Timeouts c) /\ 0 < UDPIdle (tc_Timeouts c) /\ 0 < ShutdownTimeout (tc_Timeouts c).
Proof.
  unfold transit_Load. intros E. apply res_bind_Ok in E as (raw & _ & E). apply res_bind_Ok in E as (cfg & _ & E). cbn zeta in E.
  destruct (transit_Validate (transit_applyDefaults cfg)) eqn:Ev; [done|]. injection E as <-.
  set (c := transit_applyDefaults cfg) in *. clearbody c. clear cfg raw. apply first_error_None in Ev.
  repeat (apply Forall_cons in Ev as [? Ev]).
  assert (Hlt : forall n (e : goerr), (if n <=? 0 then Some e else None) = None -> 0 < n) by (intros n e; destruct (n <=? 0) eqn:E; zbool; [done|lia]).
  assert (Ha : forall x y, checkAddr x y = None -> good_addr y) by (intros x y; apply checkAddr_good).
  split; [|split; [|by split_and!; eapply Hlt]].
  - unfold start_lanes. repeat (apply Forall_app; split); repeat constructor; try (intros; by eapply Ha); repeat case_match; zbool;
      repeat constructor; try done; try (intros; by eapply Ha); subst; simplify_eq; try congruence.
  - unfold start_lanes. destruct (String.eqb (ListenUDPAlt c) "") eqn:E1, (String.eqb (ListenUDPAlt c) (ListenUDP c)) eqn:E2;
      destruct (EnableRelay c), (EnableMetrics c); cbn; repeat constructor; try (intros Hx; repeat (apply elem_of_cons in Hx as [Hx|Hx]); try (by apply not_elem_of_nil in Hx));
      try (by apply not_elem_of_nil); apply String.eqb_neq in E2; congruence.
Qed.

(** *** Witnesses *)

(** One client sends a datagram through a lane and the backend answers. *)
Definition ex_lane0 : udpLane := newUDPLane "session_udp" (60 * Second) (fun _ => 0).
Definition ex_lane1 : udpLane := (Run_read ex_lane0 (5 * Second) false (Ok ([x41], "10.0.0.1:5000")) (Ok 1)).1.
Definition ex_lane2 : udpLane := Run_write ex_lane1 None.
Definition ex_lane3 : udpLane := pipe_turn ex_lane2 (6 * Second) false 1 (BackendData [x42]) None.
Definition ex_arrivals : arrivals := mkArrivals [("10.0.0.1:5000", [x41])] [(1, [x42])].

Lemma ex_lane3_steps : lane_steps (ex_lane0, mkArrivals [] []) (ex_lane3, ex_arrivals).
Proof.
  eapply lss_more; [eapply lss_more; [eapply lss_more; [apply lss_refl|]|]|].
  - apply (ls_read ex_lane0 (mkArrivals [] []) (5 * Second) false (Ok ([x41], "10.0.0.1:5000")) (Ok 1) ex_lane1 true);
      [reflexivity|intros k [= <-]; reflexivity|vm_compute; reflexivity].
  - apply (ls_write ex_lane1 _ None).
  - apply (ls_pipe ex_lane2 (mkArrivals [("10.0.0.1:5000", [x41])] []) (6 * Second) false 1 (BackendData [x42]) None). apply (bool_decide_unpack _). vm_compute. exact I.
Defined.


Lemma transit_lane_isolation_witness :
  (forall k d, (k, d) ∈ ul_toBackend ex_lane3 -> exists a, us_client <$> (ul_heap ex_lane3 !! k) = Some a /\ (a, d) ∈ ar_clients ex_arrivals)
  /\ (forall a d, (a, d) ∈ ul_toClient ex_lane3 -> exists k, us_client <$> (ul_heap ex_lane3 !! k) = Some a /\ (k, d) ∈ ar_backend ex_arrivals).
Proof. apply (transit_lane_isolation "session_udp" (60 * Second) (fun _ => 0) ex_lane3 ex_arrivals ex_lane3_steps). Defined.

Lemma transit_lane_closes_witness :
  (ul_closed ex_lane3 = false -> ul_sessions (lane_Close ex_lane3) = ∅ /\ live_gauge (lane_Close ex_lane3) = 0)
  /\ (forall k s now, ul_heap ex_lane3 !! k = Some s -> us_closed s = false -> ul_closed ex_lane3 = false ->
        us_closed <$> (ul_heap (pipe_turn ex_lane3 now false k BackendTimeout None) !! k) = Some (ul_idle ex_lane3 <=? idleFor s now)).
Proof. apply (transit_lane_closes "session_udp" (60 * Second) (fun _ => 0) ex_lane3 ex_arrivals ex_lane3_steps). Defined.

Lemma transit_config_sound_witness :
  Forall (fun '(kind, name, listen, backend) => good_addr listen /\ (kind <> LaneMetrics -> good_addr backend)) (start_lanes DefaultConfig)
  /\ NoDup (omap (fun '(kind, name, listen, backend) => match kind with LaneUDP => Some listen | _ => None end) (start_lanes DefaultConfig))
  /\ 0 < tt_DialTimeout (tc_Timeouts DefaultConfig) /\ 0 < UDPIdle (tc_Timeouts DefaultConfig)
  /\ 0 < ShutdownTimeout (tc_Timeouts DefaultConfig).
Proof. apply (transit_config_sound (fun _ => Ok []) (fun _ c => Ok c) "config.yaml"). vm_compute. reflexivity. Defined.
