(* ===== verification/TransitTCP.v ===== *)
(** * The transit proxy: TCP lanes ([internal/transit/proxy.go])

    [handleTCPConn] of every accepted connection, its two copying goroutines, and the part of
    [Shutdown] that closes connections. Connections are numbered; a handler is known by its
    client connection. [io.Copy] is taken turn by turn: a read from one side and the write of
    what it gave to the other. The half-close at the end of a copy has no effect of its own here:
    the handler closes both connections as soon as it receives the result. *)

From S2P Require Import Prelude GoString Transit.

(** Where [handleTCPConn] waits. *)
Inductive hphase := HDialing | HWaitFirst | HWaitSecond | HReturned.

#[global] Instance hphase_eq_dec : EqDecision hphase.
Proof. solve_decision. Defined.

(** [h_up] and [h_down]: the goroutine still copies; [h_nup], [h_ndown]: what it copied so far;
    [h_results]: what was sent on [errCh]. *)
Record handler := mkHandler {
  h_lane : string; h_backend : option Z; h_phase : hphase;
  h_up : bool; h_down : bool; h_nup : Z; h_ndown : Z; h_results : list (option goerr) }.

Record proxy := mkProxy {
  px_handlers : gmap Z handler; px_tracked : gset Z; px_open : gset Z; px_metrics : tmetrics;
  px_received : gmap Z (list byte) }.

Definition px_set (p : proxy) (c : Z) (h : handler) : proxy :=
  mkProxy (<[c := h]> (px_handlers p)) (px_tracked p) (px_open p) (px_metrics p) (px_received p).
Definition px_conns (p : proxy) (tracked open : gset Z) : proxy :=
  mkProxy (px_handlers p) tracked open (px_metrics p) (px_received p).
Definition px_count (p : proxy) (k : tmetric) (d : Z) : proxy :=
  mkProxy (px_handlers p) (px_tracked p) (px_open p) (t_add (px_metrics p) k d) (px_received p).
Definition px_deliver (p : proxy) (c : Z) (data : list byte) : proxy :=
  mkProxy (px_handlers p) (px_tracked p) (px_open p) (px_metrics p)
    (<[c := default [] (px_received p !! c) ++ data]> (px_received p)).

(** [handleTCPConn] up to the dial. *)
Definition handle_begin (p : proxy) (lane : string) (c : Z) : proxy :=
  let p := px_conns p ({[c]} ∪ px_tracked p) ({[c]} ∪ px_open p) in
  let p := px_count (px_count p (ActiveTCPConns lane) 1) (SessionsOpened lane) 1 in
  px_set p c (mkHandler lane None HDialing false false 0 0 []).

(** The deferred calls of [handleTCPConn], for the connections it holds. *)
Definition handle_return (p : proxy) (c : Z) (h : handler) : proxy :=
  let conns : gset Z := match h_backend h with Some b => {[b; c]} | None => {[c]} end in
  let p := px_count (px_count p (SessionsClosed (h_lane h) "closed") 1) (ActiveTCPConns (h_lane h)) (-1) in
  let p := px_conns p (px_tracked p ∖ conns) (px_open p ∖ conns) in
  px_set p c (mkHandler (h_lane h) (h_backend h) HReturned (h_up h) (h_down h) (h_nup h) (h_ndown h) (h_results h)).

(** After the dial. *)
Definition handle_dialed (p : proxy) (c : Z) (dial : res Z) : proxy :=
  match px_handlers p !! c with
  | Some h =>
      match h_phase h, dial with
      | HDialing, Ok b =>
          let p := px_conns p ({[b]} ∪ px_tracked p) ({[b]} ∪ px_open p) in
          px_set p c (mkHandler (h_lane h) (Some b) HWaitFirst true true 0 0 [])
      | HDialing, Err _ => handle_return (px_count p (DialFailures (h_lane h)) 1) c h
      | _, _ => p
      end
  | None => p
  end.

(** The end of [copyStream] and of its goroutine: the count, and the result on [errCh]. *)
Definition copy_end (p : proxy) (c : Z) (h : handler) (up : bool) (err : option goerr) : proxy :=
  let n := if up then h_nup h else h_ndown h in
  let p := if 0 <? n then px_count p (if up then TBytesIn (h_lane h) else TBytesOut (h_lane h)) n else p in
  px_set p c (mkHandler (h_lane h) (h_backend h) (h_phase h) (if up then false else h_up h) (if up then h_down h else false)
                (h_nup h) (h_ndown h) (h_results h ++ [err])).

(** One turn of [io.Copy] towards the backend ([up]) or the client: the bytes and the error of the
    read, and the error of the write. A closed connection gives [net.ErrClosed]. *)
Definition copy_turn (p : proxy) (c : Z) (up : bool) (data : list byte) (rerr werr : option goerr) : proxy :=
  match px_handlers p !! c with
  | Some h =>
      match h_backend h with
      | Some b =>
          let src := if up then c else b in
          let dst := if up then b else c in
          if negb (if up then h_up h else h_down h) then p
          else if negb (bool_decide (src ∈ px_open p)) then copy_end p c h up (Some ENetClosed)
          else
            let after := fun p h =>
              match rerr with
              | None => px_set p c h
              | Some e => copy_end p c h up (if err_is e EEOF then None else Some e)
              end in
            if zlen data =? 0 then after p h
            else if negb (bool_decide (dst ∈ px_open p)) then copy_end p c h up (Some ENetClosed)
            else match werr with
            | Some e => copy_end p c h up (Some e)
            | None =>
                after (px_deliver p dst data)
                  (mkHandler (h_lane h) (h_backend h) (h_phase h) (h_up h) (h_down h)
                     (if up then h_nup h + zlen data else h_nup h) (if up then h_ndown h else h_ndown h + zlen data)
                     (h_results h))
            end
      | None => p
      end
  | None => p
  end.

(** [firstErr := <-errCh] and the two closes after it. *)
Definition handle_first (p : proxy) (c : Z) : proxy :=
  match px_handlers p !! c with
  | Some h =>
      match h_phase h, h_results h, h_backend h with
      | HWaitFirst, _ :: _, Some b =>
          let p := px_conns p (px_tracked p) (px_open p ∖ {[b; c]}) in
          px_set p c (mkHandler (h_lane h) (h_backend h) HWaitSecond (h_up h) (h_down h) (h_nup h) (h_ndown h) (h_results h))
      | _, _, _ => p
      end
  | None => p
  end.

(** [secondErr := <-errCh] and the return. *)
Definition handle_second (p : proxy) (c : Z) : proxy :=
  match px_handlers p !! c with
  | Some h =>
      match h_phase h, h_results h with
      | HWaitSecond, _ :: _ :: _ => handle_return p c h
      | _, _ => p
      end
  | None => p
  end.

(** [Shutdown] closes what [activeConns] holds. *)
Definition shutdown_conns (p : proxy) : proxy := px_conns p (px_tracked p) (px_open p ∖ px_tracked p).

(** [firstMeaningfulError] and [isMeaningfulNetErr]; they only choose a log line. [reset] says that
    an error is a connection reset or a broken pipe of the network layer. *)
Definition isMeaningfulNetErr (reset : goerr -> bool) (e : option goerr) : bool :=
  match e with
  | None => false
  | Some e => negb (err_is e ENetClosed || err_is e EEOF || reset e)
  end.
Definition firstMeaningfulError (reset : goerr -> bool) (errs : list (option goerr)) : option goerr :=
  mjoin (head (List.filter (isMeaningfulNetErr reset) errs)).

(** ** Reachable states *)

(** Numbers that were never used for a connection. *)
Definition fresh_conn (p : proxy) (c : Z) : Prop :=
  px_handlers p !! c = None /\ (forall d h, px_handlers p !! d = Some h -> h_backend h <> Some c).

Inductive proxy_step : proxy -> proxy -> Prop :=
| pst_accept p lane c : fresh_conn p c -> proxy_step p (handle_begin p lane c)
| pst_dial p c dial :
    (forall b, dial = Ok b -> fresh_conn p b) -> proxy_step p (handle_dialed p c dial)
| pst_copy p c up data rerr werr : proxy_step p (copy_turn p c up data rerr werr)
| pst_first p c : proxy_step p (handle_first p c)
| pst_second p c : proxy_step p (handle_second p c)
| pst_shutdown p : proxy_step p (shutdown_conns p).

Inductive proxy_steps : proxy -> proxy -> Prop :=
| psts_refl p : proxy_steps p p
| psts_more p q r : proxy_steps p q -> proxy_step q r -> proxy_steps p r.

Definition NewProxy (m : tmetrics) : proxy := mkProxy ∅ ∅ ∅ m ∅.

(** ** The invariant *)

(** The handlers that have not returned, of one lane. *)
Definition active (p : proxy) (lane : string) : gmap Z handler :=
  filter (fun kv => h_phase kv.2 <> HReturned /\ h_lane kv.2 = lane) (px_handlers p).

(** A connection belongs to a handler that has not returned. *)
Definition owned (p : proxy) (x : Z) : Prop :=
  exists c h, px_handlers p !! c = Some h /\ h_phase h <> HReturned /\ (x = c \/ h_backend h = Some x).

Definition handler_ok (p : proxy) (c : Z) (h : handler) : Prop :=
  zlen (h_results h) = match h_backend h with None => 0 | Some _ => (if h_up h then 0 else 1) + (if h_down h then 0 else 1) end
  /\ (h_phase h = HDialing <-> h_backend h = None /\ h_phase h <> HReturned)
  /\ (h_phase h = HWaitSecond \/ h_phase h = HReturned -> c ∉ px_open p /\ (forall b, h_backend h = Some b -> b ∉ px_open p)).

Record proxy_inv (base : string -> Z) (p : proxy) : Prop := {
  pi_handlers : forall c h, px_handlers p !! c = Some h -> handler_ok p c h;
  pi_apart : forall c h b, px_handlers p !! c = Some h -> h_backend h = Some b -> px_handlers p !! b = None;
  pi_once : forall c d h h' b, px_handlers p !! c = Some h -> px_handlers p !! d = Some h' ->
    h_backend h = Some b -> h_backend h' = Some b -> c = d;
  pi_tracked : forall x, x ∈ px_tracked p <-> owned p x;
  pi_open : px_open p ⊆ px_tracked p;
  pi_gauge : forall lane, px_metrics p (ActiveTCPConns lane) = base lane + Z.of_nat (size (active p lane));
  pi_copies : forall c h, px_handlers p !! c = Some h -> h_backend h = None \/ h_phase h = HReturned ->
    h_up h = false /\ h_down h = false }.

(** ** Counting the handlers of a lane *)

Definition is_active (lane : string) (h : handler) : bool :=
  bool_decide (h_phase h <> HReturned /\ h_lane h = lane).

(** What one entry of the handler map contributes to the count. *)
Lemma active_insert p c h lane :
  Z.of_nat (size (active (px_set p c h) lane)) =
    Z.of_nat (size (filter (fun kv => h_phase kv.2 <> HReturned /\ h_lane kv.2 = lane) (delete c (px_handlers p))))
    + (if is_active lane h then 1 else 0).
Proof.
  unfold active, px_set; cbn [px_handlers]. rewrite <- insert_delete_eq. unfold is_active. case_bool_decide as Ha.
  - rewrite map_filter_insert_True by done. rewrite map_size_insert_None by (apply map_lookup_filter_None; left; apply lookup_delete_eq). lia.
  - rewrite map_filter_insert_False by done. rewrite delete_id by apply lookup_delete_eq. lia.
Qed.

Lemma active_same p c h lane :
  px_handlers p !! c = Some h ->
  Z.of_nat (size (active p lane)) =
    Z.of_nat (size (filter (fun kv => h_phase kv.2 <> HReturned /\ h_lane kv.2 = lane) (delete c (px_handlers p))))
    + (if is_active lane h then 1 else 0).
Proof. intros Hc. rewrite <- active_insert. unfold active, px_set; cbn [px_handlers]. by rewrite insert_id. Qed.

Lemma active_new p c h lane :
  px_handlers p !! c = None ->
  Z.of_nat (size (active (px_set p c h) lane)) = Z.of_nat (size (active p lane)) + (if is_active lane h then 1 else 0).
Proof. intros Hc. rewrite active_insert. by rewrite delete_id. Qed.

Lemma active_cong p q lane : px_handlers q = px_handlers p -> active q lane = active p lane.
Proof. intros E. unfold active. by rewrite E. Qed.

(** ** Preservation *)

Lemma handler_ok_mono p q c h : px_open q ⊆ px_open p -> handler_ok p c h -> handler_ok q c h.
Proof.
  intros Ho (Hr & Hp & Hc). split_and!; [done..|]. intros Hph. destruct (Hc Hph) as [H1 H2]. split; [set_solver|].
  intros b Hb. specialize (H2 b Hb). set_solver.
Qed.

(** A handler moves on without returning: it keeps its connections, some may be closed. *)
Lemma inv_move base p q c h h' :
  proxy_inv base p -> px_handlers p !! c = Some h -> h_phase h <> HReturned ->
  px_handlers q = <[c := h']> (px_handlers p) ->
  h_lane h' = h_lane h -> h_backend h' = h_backend h -> h_phase h' <> HReturned ->
  px_tracked q = px_tracked p -> px_open q ⊆ px_open p ->
  (forall lane, px_metrics q (ActiveTCPConns lane) = px_metrics p (ActiveTCPConns lane)) ->
  (h_backend h' = None -> h_up h' = false /\ h_down h' = false) ->
  handler_ok q c h' -> proxy_inv base q.
Proof.
  intros [Hh Ha Hon Ht Ho Hg Hcp] Hc Hph Hq Hl Hb Hph' Htq Hoq Hm Hu Hok.
  assert (Hlk : forall d g, px_handlers q !! d = Some g -> exists g', px_handlers p !! d = Some g' /\ h_backend g = h_backend g').
  { intros d g. rewrite Hq. destruct (decide (d = c)) as [->|Hne].
    - rewrite lookup_insert_eq. intros [= <-]. eauto.
    - rewrite lookup_insert_ne by done. eauto. }
  split.
  - intros d g. rewrite Hq. destruct (decide (d = c)) as [->|Hne].
    + rewrite lookup_insert_eq. by intros [= <-].
    + rewrite lookup_insert_ne by done. intros Hd. eapply handler_ok_mono; eauto.
  - intros d g b Hd Hbb. destruct (Hlk _ _ Hd) as (g' & Hd' & E). rewrite Hq.
    assert (px_handlers p !! b = None) as Hn by (eapply Ha; [done|by rewrite <- E]).
    rewrite lookup_insert_ne; [done|]. by intros ->; rewrite Hc in Hn.
  - intros d d' g g' b Hd Hd' E E'. destruct (Hlk _ _ Hd) as (k & ? & ?). destruct (Hlk _ _ Hd') as (k' & ? & ?).
    eapply (Hon d d' k k' b); congruence.
  - intros x. rewrite Htq, Ht. unfold owned. rewrite Hq. split; intros (d & g & Hd & Hpg & Hx);
      (destruct (decide (d = c)) as [->|Hne];
        [rewrite ?lookup_insert_eq in Hd; simplify_eq|rewrite ?lookup_insert_ne in Hd by done; exists d, g; by rewrite ?lookup_insert_ne by done]).
    + exists c, h'. rewrite lookup_insert_eq, Hb. eauto.
    + exists c, h. rewrite <- Hb. eauto.
  - rewrite Htq. set_solver.
  - intros lane. rewrite Hm, Hg. f_equal. rewrite (active_cong (px_set p c h') q) by done.
    rewrite active_insert, (active_same p c h) by done. unfold is_active. rewrite Hl.
    rewrite (bool_decide_ext (h_phase h' <> HReturned /\ h_lane h = lane) (h_phase h <> HReturned /\ h_lane h = lane)) by tauto. done.
  - intros d g. rewrite Hq. destruct (decide (d = c)) as [->|Hne].
    + rewrite lookup_insert_eq. intros [= <-] [?|?]; [auto|done].
    + rewrite lookup_insert_ne by done. eauto.
Qed.

(** The return of a handler. *)
Lemma handle_return_inv base p c h :
  proxy_inv base p -> px_handlers p !! c = Some h -> h_phase h <> HReturned ->
  h_up h = false /\ h_down h = false -> proxy_inv base (handle_return p c h).
Proof.
  intros [Hh Ha Hon Ht Ho Hg Hcp] Hc Hph Hud. destruct (Hh _ _ Hc) as (Hr & Hp & Hcl).
  set (conns := match h_backend h with Some b => {[b; c]} | None => {[c]} end : gset Z).
  assert (Hin : forall x, x ∈ conns <-> x = c \/ h_backend h = Some x).
  { intros x. unfold conns. destruct (h_backend h) as [b|]; set_unfold; naive_solver. }
  set (h' := mkHandler (h_lane h) (h_backend h) HReturned (h_up h) (h_down h) (h_nup h) (h_ndown h) (h_results h)).
  assert (Hq : px_handlers (handle_return p c h) = <[c := h']> (px_handlers p)) by done.
  assert (Htr : px_tracked (handle_return p c h) = px_tracked p ∖ conns) by done.
  assert (Hop : px_open (handle_return p c h) = px_open p ∖ conns) by done.
  assert (Hlk : forall d g, px_handlers (handle_return p c h) !! d = Some g -> exists g', px_handlers p !! d = Some g' /\ h_backend g = h_backend g').
  { intros d g. rewrite Hq. destruct (decide (d = c)) as [->|Hne].
    - rewrite lookup_insert_eq. intros [= <-]. eauto.
    - rewrite lookup_insert_ne by done. eauto. }
  split.
  - intros d g. rewrite Hq. destruct (decide (d = c)) as [->|Hne].
    + rewrite lookup_insert_eq. intros [= <-]. split_and!; [done|cbn; split; [done|tauto]|].
      intros _. rewrite Hop. split; [set_solver|]. intros b Hb. cbn in Hb. assert (b ∈ conns) by (apply Hin; auto). set_solver.
    + rewrite lookup_insert_ne by done. intros Hd. apply (handler_ok_mono p); [rewrite Hop; set_solver|auto].
  - intros d g b Hd Hbb. destruct (Hlk _ _ Hd) as (g' & Hd' & E). rewrite Hq.
    assert (px_handlers p !! b = None) as Hn by (eapply Ha; [done|by rewrite <- E]).
    rewrite lookup_insert_ne; [done|]. by intros ->; rewrite Hc in Hn.
  - intros d d' g g' b Hd Hd' E E'. destruct (Hlk _ _ Hd) as (k & ? & ?). destruct (Hlk _ _ Hd') as (k' & ? & ?).
    eapply (Hon d d' k k' b); congruence.
  - intros x. rewrite Htr, elem_of_difference, Ht, Hin. unfold owned. rewrite Hq. split.
    + intros [(d & g & Hd & Hpg & Hx) Hnx]. exists d, g. rewrite lookup_insert_ne; [done|]. intros <-. naive_solver.
    + intros (d & g & Hd & Hpg & Hx). destruct (decide (d = c)) as [->|Hne].
      { rewrite lookup_insert_eq in Hd. by injection Hd as <-. }
      rewrite lookup_insert_ne in Hd by done. split; [eauto|]. intros [->|Hbx].
      * destruct Hx as [->|Hx]; [done|]. by rewrite (Ha _ _ _ Hd Hx) in Hc.
      * destruct Hx as [->|Hx]; [by rewrite (Ha _ _ _ Hc Hbx) in Hd|]. apply Hne. eauto.
  - rewrite Htr, Hop. set_solver.
  - intros lane. rewrite (active_cong (px_set p c h') (handle_return p c h)) by done.
    rewrite active_insert. specialize (Hg lane). rewrite (active_same p c h) in Hg by done.
    assert (is_active lane h' = false) as -> by (unfold is_active; apply bool_decide_eq_false_2; cbn; tauto).
    cbn [handle_return px_set px_conns px_count px_metrics]. unfold is_active in Hg.
    destruct (decide (h_lane h = lane)) as [<-|Hne].
    + rewrite t_add_eq, t_add_ne by done. rewrite bool_decide_eq_true_2 in Hg by done. lia.
    + rewrite !t_add_ne by congruence. rewrite bool_decide_eq_false_2 in Hg by tauto. lia.
  - intros d g. rewrite Hq. destruct (decide (d = c)) as [->|Hne].
    + rewrite lookup_insert_eq. by intros [= <-] _.
    + rewrite lookup_insert_ne by done. eauto.
Qed.

Lemma fresh_unowned base p c : proxy_inv base p -> fresh_conn p c -> c ∉ px_tracked p /\ c ∉ px_open p.
Proof.
  intros [_ _ _ Ht Ho _ _] [Hn Hb]. assert (c ∉ px_tracked p); [|set_solver].
  rewrite Ht. intros (d & h & Hd & _ & [->|Hx]); [by rewrite Hn in Hd|]. by eapply Hb.
Qed.

Lemma handle_begin_inv base p lane c :
  proxy_inv base p -> fresh_conn p c -> proxy_inv base (handle_begin p lane c).
Proof.
  intros Hinv Hf. destruct (fresh_unowned _ _ _ Hinv Hf) as [Hnt Hno]. destruct Hinv as [Hh Ha Hon Ht Ho Hg Hcp]. destruct Hf as [Hn Hb].
  set (h := mkHandler lane None HDialing false false 0 0 []).
  assert (Hq : px_handlers (handle_begin p lane c) = <[c := h]> (px_handlers p)) by done.
  assert (Hop : px_open (handle_begin p lane c) = {[c]} ∪ px_open p) by done.
  assert (Htr : px_tracked (handle_begin p lane c) = {[c]} ∪ px_tracked p) by done.
  assert (Hold : forall d g, d <> c -> px_handlers (handle_begin p lane c) !! d = Some g -> px_handlers p !! d = Some g).
  { intros d g Hne. by rewrite Hq, lookup_insert_ne. }
  split.
  - intros d g. destruct (decide (d = c)) as [->|Hne].
    + rewrite Hq, lookup_insert_eq. intros [= <-]. split_and!; [done|cbn; naive_solver|]. by intros [[=]|[=]].
    + intros Hd%Hold; [|done]. destruct (Hh _ _ Hd) as (Hr & Hp & Hc). split_and!; [done..|]. rewrite Hop. intros Hph.
      destruct (Hc Hph) as [Hc1 Hc2]. split; [set_solver|]. intros b Hbb. specialize (Hc2 b Hbb). specialize (Hb _ _ Hd). set_unfold.
      intros [->|?]; auto.
  - intros d g b. destruct (decide (d = c)) as [->|Hne]; [rewrite Hq, lookup_insert_eq; by intros [= <-]|].
    intros Hd%Hold Hbb; [|done]. rewrite Hq, lookup_insert_ne; [by eapply Ha|]. intros <-. by eapply Hb.
  - intros d d' g g' b. destruct (decide (d = c)) as [->|Hne]; [rewrite Hq, lookup_insert_eq; by intros [= <-]|].
    destruct (decide (d' = c)) as [->|Hne']; [rewrite Hq, lookup_insert_eq; by intros _ [= <-]|].
    intros Hd%Hold Hd'%Hold; [eauto|done..].
  - intros x. rewrite Htr, elem_of_union, elem_of_singleton, Ht. split.
    + intros [->|(d & g & Hd & Hx)].
      * exists c, h. rewrite Hq, lookup_insert_eq. auto.
      * exists d, g. rewrite Hq, lookup_insert_ne; [done|]. intros <-. by rewrite Hn in Hd.
    + intros (d & g & Hd & Hpg & Hx). destruct (decide (d = c)) as [->|Hne].
      * rewrite Hq, lookup_insert_eq in Hd. injection Hd as <-. destruct Hx as [->|[=]]. auto.
      * right. exists d, g. auto.
  - rewrite Htr, Hop. set_solver.
  - intros ln. rewrite (active_cong (px_set p c h) (handle_begin p lane c)) by done. rewrite active_new by done. specialize (Hg ln).
    cbn [handle_begin px_set px_conns px_count px_metrics]. rewrite t_add_ne by done. unfold is_active; cbn [h h_phase h_lane].
    destruct (decide (lane = ln)) as [<-|Hne].
    + rewrite t_add_eq, bool_decide_eq_true_2 by done. lia.
    + rewrite t_add_ne, bool_decide_eq_false_2 by (congruence || tauto). lia.
  - intros d g. destruct (decide (d = c)) as [->|Hne].
    + rewrite Hq, lookup_insert_eq. by intros [= <-] _.
    + intros Hd%Hold; [eauto|done].
Qed.

(** The connection the dial gave joins the handler's. *)
Lemma dial_ok_inv base p c h b :
  proxy_inv base p -> px_handlers p !! c = Some h -> h_phase h = HDialing -> fresh_conn p b ->
  proxy_inv base (handle_dialed p c (Ok b)).
Proof.
  intros Hinv Hc Hph Hf. destruct (fresh_unowned _ _ _ Hinv Hf) as [Hnt Hno]. destruct Hinv as [Hh Ha Hon Ht Ho Hg Hcp]. destruct Hf as [Hn Hb].
  set (h' := mkHandler (h_lane h) (Some b) HWaitFirst true true 0 0 []).
  assert (Hbn : h_backend h = None) by (destruct (Hh _ _ Hc) as (_ & Hp & _); tauto).
  assert (Hq : px_handlers (handle_dialed p c (Ok b)) = <[c := h']> (px_handlers p)) by (unfold handle_dialed; by rewrite Hc, Hph).
  assert (Hop : px_open (handle_dialed p c (Ok b)) = {[b]} ∪ px_open p) by (unfold handle_dialed; by rewrite Hc, Hph).
  assert (Htr : px_tracked (handle_dialed p c (Ok b)) = {[b]} ∪ px_tracked p) by (unfold handle_dialed; by rewrite Hc, Hph).
  assert (Hm : px_metrics (handle_dialed p c (Ok b)) = px_metrics p) by (unfold handle_dialed; by rewrite Hc, Hph).
  assert (Hbc : b <> c) by (intros ->; by rewrite Hn in Hc).
  split.
  - intros d g. rewrite Hq. destruct (decide (d = c)) as [->|Hne].
    + rewrite lookup_insert_eq. intros [= <-]. split_and!; [done|cbn; naive_solver|]. by intros [[=]|[=]].
    + rewrite lookup_insert_ne by done. intros Hd. destruct (Hh _ _ Hd) as (Hr & Hp & Hcl). split_and!; [done..|]. rewrite Hop. intros Hpg.
      destruct (Hcl Hpg) as [Hc1 Hc2]. split.
      { apply not_elem_of_union. split; [|done]. apply not_elem_of_singleton. intros ->. by rewrite Hn in Hd. }
      intros b' Hb'. specialize (Hc2 _ Hb'). apply not_elem_of_union. split; [|done]. apply not_elem_of_singleton. intros ->. by eapply Hb.
  - intros d g b' Hd Hb'. rewrite Hq in Hd |- *. destruct (decide (d = c)) as [->|Hne].
    + rewrite lookup_insert_eq in Hd. injection Hd as <-. injection Hb' as <-. by rewrite lookup_insert_ne.
    + rewrite lookup_insert_ne in Hd by done. pose proof (Ha _ _ _ Hd Hb') as Hnb. rewrite lookup_insert_ne; [done|].
      intros <-. by rewrite Hc in Hnb.
  - intros d d' g g' b' Hd Hd' E E'. rewrite Hq in Hd, Hd'.
    destruct (decide (d = c)) as [->|Hne], (decide (d' = c)) as [->|Hne']; [done|..].
    + rewrite lookup_insert_eq in Hd. rewrite lookup_insert_ne in Hd' by done. simplify_eq/=. by destruct (Hb _ _ Hd').
    + rewrite lookup_insert_eq in Hd'. rewrite lookup_insert_ne in Hd by done. simplify_eq/=. by destruct (Hb _ _ Hd).
    + rewrite lookup_insert_ne in Hd, Hd' by done. eauto.
  - intros x. rewrite Htr, elem_of_union, elem_of_singleton, Ht. split.
    + intros [->|(d & g & Hd & Hpg & Hx)].
      * exists c, h'. rewrite Hq, lookup_insert_eq. auto.
      * destruct (decide (d = c)) as [->|Hne]; [|exists d, g; by rewrite Hq, lookup_insert_ne].
        exists c, h'. rewrite Hq, lookup_insert_eq. simplify_eq. destruct Hx as [->|Hx]; [auto|congruence].
    + intros (d & g & Hd & Hpg & Hx). rewrite Hq in Hd. destruct (decide (d = c)) as [->|Hne].
      * rewrite lookup_insert_eq in Hd. injection Hd as <-. destruct Hx as [->|[= <-]]; [|auto]. right. exists c, h. rewrite Hph. auto.
      * rewrite lookup_insert_ne in Hd by done. right. exists d, g. auto.
  - rewrite Htr, Hop. set_solver.
  - intros ln. rewrite Hm, (Hg ln). f_equal. rewrite (active_cong (px_set p c h') (handle_dialed p c (Ok b))) by done.
    rewrite active_insert, (active_same p c h) by done. unfold is_active; cbn [h' h_phase h_lane]. rewrite Hph.
    f_equal. by rewrite (bool_decide_ext (HWaitFirst <> HReturned /\ h_lane h = ln) (HDialing <> HReturned /\ h_lane h = ln)) by naive_solver.
  - intros d g. rewrite Hq. destruct (decide (d = c)) as [->|Hne].
    + rewrite lookup_insert_eq. by intros [= <-] [[=]|[=]].
    + rewrite lookup_insert_ne by done. eauto.
Qed.


Lemma px_count_inv base p k d :
  (forall lane, k <> ActiveTCPConns lane) -> proxy_inv base p -> proxy_inv base (px_count p k d).
Proof.
  intros Hk [Hh Ha Hon Ht Ho Hg Hcp]. split; try done. intros lane. cbn [px_count px_metrics].
  rewrite t_add_ne by (intros E; by eapply Hk). apply Hg.
Qed.

Lemma px_deliver_inv base p c data : proxy_inv base p -> proxy_inv base (px_deliver p c data).
Proof. intros [Hh Ha Hon Ht Ho Hg Hcp]. by split. Qed.

Lemma copy_end_inv base p c h (up : bool) err :
  proxy_inv base p -> h_phase h <> HReturned -> is_Some (h_backend h) ->
  (exists h0, px_handlers p !! c = Some h0 /\ h_phase h0 = h_phase h /\ h_lane h0 = h_lane h /\ h_backend h0 = h_backend h
     /\ h_up h0 = h_up h /\ h_down h0 = h_down h /\ h_results h0 = h_results h) ->
  (if up then h_up h else h_down h) = true -> proxy_inv base (copy_end p c h up err).
Proof.
  intros Hinv Hph [b Hb] (h0 & Hc & Eph & Elane & Eb & Eu & Ed & Er) Hrun. destruct (pi_handlers _ _ Hinv _ _ Hc) as (Hr & Hp & Hcl).
  rewrite Er, Eb, Hb, Eu, Ed in Hr. rewrite Eph, Eb, Hb in Hp. rewrite Eph, Eb in Hcl.
  apply (inv_move base p _ c h0 (mkHandler (h_lane h) (h_backend h) (h_phase h) (if up then false else h_up h) (if up then h_down h else false)
           (h_nup h) (h_ndown h) (h_results h ++ [err]))); try done; unfold copy_end; try (set (n := if up then h_nup h else h_ndown h)).
  - by rewrite Eph.
  - by destruct (0 <? n).
  - by destruct (0 <? n).
  - by destruct (0 <? n).
  - intros lane. destruct (0 <? n); [|done]. cbn [px_set px_count px_metrics]. by rewrite t_add_ne by by destruct up.
  - cbn. by rewrite Hb.
  - split_and!; cbn [h_results h_backend h_up h_down h_phase].
    + rewrite zlen_app, Hr, Hb. destruct up; rewrite Hrun; change (zlen [err]) with 1; lia.
    + by rewrite Hb.
    + by destruct (0 <? n).
Qed.

Lemma copy_turn_inv base p c up data rerr werr : proxy_inv base p -> proxy_inv base (copy_turn p c up data rerr werr).
Proof.
  intros Hinv. unfold copy_turn. destruct (px_handlers p !! c) as [h|] eqn:Hc; [|done].
  destruct (h_backend h) as [b|] eqn:Hb; [|done]. destruct (if up then h_up h else h_down h) eqn:Hrun; [|done]. cbn [negb].
  assert (Hph : h_phase h <> HReturned).
  { intros E. destruct (pi_copies _ _ Hinv _ _ Hc (or_intror E)) as [? ?]. by destruct up; congruence. }
  assert (Hend : forall err, proxy_inv base (copy_end p c h up err)).
  { intros err. apply copy_end_inv; eauto 10. }
  destruct (bool_decide (_ ∈ px_open p)); [|apply Hend]. cbn [negb]. destruct (zlen data =? 0).
  { destruct rerr; [apply Hend|]. unfold px_set. by rewrite insert_id by done; destruct p. }
  destruct (bool_decide (_ ∈ px_open p)); [|apply Hend]. cbn [negb]. destruct werr; [apply Hend|].
  set (h' := mkHandler _ _ _ _ _ _ _ _). pose proof (px_deliver_inv base p (if up then b else c) data Hinv) as Hd.
  destruct rerr as [e|].
  - apply copy_end_inv; [done|done|by eexists| |by destruct up]. exists h. split_and!; done.
  - eapply (inv_move base _ _ c h h' Hd); try done.
    destruct (pi_handlers _ _ Hinv _ _ Hc) as (Hr & Hp & Hcl). rewrite Hb in Hr, Hp, Hcl. by split_and!.
Qed.

Lemma shut_inv base p gone : proxy_inv base p -> proxy_inv base (px_conns p (px_tracked p) (px_open p ∖ gone)).
Proof.
  intros [Hh Ha Hon Ht Ho Hg Hcp]. split; try done; [|cbn; set_solver].
  intros d g Hd. apply (handler_ok_mono p); [cbn; set_solver|auto].
Qed.

Lemma handle_first_inv base p c : proxy_inv base p -> proxy_inv base (handle_first p c).
Proof.
  intros Hinv. unfold handle_first. destruct (px_handlers p !! c) as [h|] eqn:Hc; [|done].
  destruct (h_phase h) eqn:Hph; try done. destruct (h_results h) as [|r rs] eqn:Hres; [done|].
  destruct (h_backend h) as [b|] eqn:Hb; [|done]. destruct (pi_handlers _ _ Hinv _ _ Hc) as (Hr & Hp & Hcl).
  eapply (inv_move base _ _ c h _ (shut_inv base p {[b; c]} Hinv)); try done; [by rewrite Hph|].
  split_and!; cbn [h_results h_backend h_up h_down h_phase].
  - by rewrite <- Hres, Hr, Hb.
  - naive_solver.
  - intros _. cbn. split; [set_solver|]. intros b' [= <-]. set_solver.
Qed.

Lemma two_results h :
  zlen (h_results h) = (if h_up h then 0 else 1) + (if h_down h then 0 else 1) -> 2 <= zlen (h_results h) ->
  h_up h = false /\ h_down h = false.
Proof. intros ->. destruct (h_up h), (h_down h); lia || done. Qed.

Lemma handle_second_inv base p c : proxy_inv base p -> proxy_inv base (handle_second p c).
Proof.
  intros Hinv. unfold handle_second. destruct (px_handlers p !! c) as [h|] eqn:Hc; [|done].
  destruct (h_phase h) eqn:Hph; try done. destruct (h_results h) as [|r [|r' rs]] eqn:Hres; [done..|].
  destruct (pi_handlers _ _ Hinv _ _ Hc) as (Hr & Hp & Hcl).
  assert (Hz : 2 <= zlen (h_results h)) by (rewrite Hres, !zlen_cons; pose proof (zlen_nonneg rs); lia).
  apply handle_return_inv; [done..|by rewrite Hph|]. apply two_results; [|done].
  rewrite Hr in Hz |- *. destruct (h_backend h); [done|lia].
Qed.

Lemma handle_dialed_inv base p c dial :
  (forall b, dial = Ok b -> fresh_conn p b) -> proxy_inv base p -> proxy_inv base (handle_dialed p c dial).
Proof.
  intros Hf Hinv. destruct (px_handlers p !! c) as [h|] eqn:Hc; [|unfold handle_dialed; by rewrite Hc].
  destruct (decide (h_phase h = HDialing)) as [Hph|Hph]; [|unfold handle_dialed; rewrite Hc; by destruct (h_phase h)].
  destruct dial as [b|e|e]; [by eapply dial_ok_inv; eauto| |unfold handle_dialed; by rewrite Hc, Hph].
  unfold handle_dialed. rewrite Hc, Hph. apply handle_return_inv; [by apply px_count_inv|done|by rewrite Hph|].
  eapply (pi_copies _ _ Hinv); [done|]. left. destruct (pi_handlers _ _ Hinv _ _ Hc) as (_ & Hp & _). tauto.
Qed.

Lemma proxy_step_inv base p q : proxy_step p q -> proxy_inv base p -> proxy_inv base q.
Proof.
  intros [ | | | | | ] Hinv; auto using handle_begin_inv, handle_dialed_inv, copy_turn_inv, handle_first_inv, handle_second_inv.
  by apply shut_inv.
Qed.

Lemma proxy_steps_inv m p : proxy_steps (NewProxy m) p -> proxy_inv (fun lane => m (ActiveTCPConns lane)) p.
Proof.
  intros Hs. remember (NewProxy m) as p0 eqn:E. induction Hs as [p|p q r Hs IH Hst]; [|eauto using proxy_step_inv].
  subst p. split; cbn; try done.
  - intros x. split; [set_solver|]. intros (c & h & Hc & _). cbn in Hc. by apply lookup_empty_Some in Hc.
  - intros lane. change (size (active (NewProxy m) lane)) with 0%nat. lia.
Qed.

(** What a closed source does to a running copy. *)
Lemma copy_turn_closed p c h b (up : bool) data rerr werr :
  px_handlers p !! c = Some h -> h_backend h = Some b -> (if up then c else b) ∉ px_open p ->
  exists h', px_handlers (copy_turn p c up data rerr werr) !! c = Some h' /\ h_backend h' = Some b /\ h_phase h' = h_phase h
    /\ h_up h' = (if up then false else h_up h) /\ h_down h' = (if up then h_down h else false)
    /\ zlen (h_results h') = zlen (h_results h) + (if (if up then h_up h else h_down h) then 1 else 0)
    /\ px_open (copy_turn p c up data rerr werr) = px_open p
    /\ px_received (copy_turn p c up data rerr werr) = px_received p.
Proof.
  intros Hc Hb Hcl. unfold copy_turn. rewrite Hc, Hb. destruct (if up then h_up h else h_down h) eqn:Hrun; cbn [negb].
  - rewrite bool_decide_eq_false_2 by done. cbn [negb]. unfold copy_end. set (n := if up then h_nup h else h_ndown h).
    eexists. split; [destruct (0 <? n); apply lookup_insert_eq|]. cbn [h_backend h_phase h_up h_down h_results].
    split_and!; try done; [by rewrite zlen_app|by destruct (0 <? n)..].
  - exists h. split_and!; [done..|by destruct up|by destruct up|lia|done|done].
Qed.

(** The last part of [handleTCPConn] once both connections are closed: a turn of each copy, and
    the two receives. *)
Definition handler_drain (p : proxy) (c : Z) (d1 d2 : list byte) (r1 w1 r2 w2 : option goerr) : proxy :=
  handle_second (handle_first (copy_turn (copy_turn p c true d1 r1 w1) c false d2 r2 w2) c) c.

Lemma drain_returns p c h b d1 d2 r1 w1 r2 w2 :
  px_handlers p !! c = Some h -> h_backend h = Some b -> h_phase h = HWaitFirst \/ h_phase h = HWaitSecond ->
  zlen (h_results h) = (if h_up h then 0 else 1) + (if h_down h then 0 else 1) ->
  c ∉ px_open p -> b ∉ px_open p ->
  exists h', px_handlers (handler_drain p c d1 d2 r1 w1 r2 w2) !! c = Some h' /\ h_phase h' = HReturned.
Proof.
  intros Hc Hb Hph Hr Ho1 Ho2. unfold handler_drain.
  destruct (copy_turn_closed p c h b true d1 r1 w1 Hc Hb Ho1) as (h1 & Hc1 & Hb1 & Hp1 & Hu1 & Hd1 & Hr1 & Hop1 & _).
  set (p1 := copy_turn p c true d1 r1 w1) in *.
  destruct (copy_turn_closed p1 c h1 b false d2 r2 w2 Hc1 Hb1 ltac:(by rewrite Hop1)) as (h2 & Hc2 & Hb2 & Hp2 & Hu2 & Hd2 & Hr2 & Hop2 & _).
  set (p2 := copy_turn p1 c false d2 r2 w2) in *.
  assert (Hz : zlen (h_results h2) = 2). { rewrite Hr2, Hr1, Hr, Hd1. destruct (h_up h), (h_down h); lia. }
  destruct (h_results h2) as [|e1 [|e2 rs]] eqn:Hres; [done..|].
  rewrite Hp1 in Hp2. destruct Hph as [E|E]; rewrite E in Hp2; unfold handle_first; rewrite Hc2, Hp2, ?Hres, ?Hb2; unfold handle_second.
  - cbn [px_set px_handlers]. rewrite lookup_insert_eq. cbn [h_phase h_results]. eexists. split; [apply lookup_insert_eq|done].
  - rewrite Hc2, Hp2, Hres. eexists. split; [apply lookup_insert_eq|done].
Qed.

(** In every reachable state of the transit proxy's TCP side, whatever is dialled, read and
    written: the connections it tracks are exactly those of the handlers that have not returned,
    each open connection is tracked, so [Shutdown] leaves none open; a handler that returned has
    closed both its connections; and the gauge of active connections of a lane has moved by the
    number of its handlers that have not returned. *)
Theorem transit_tcp_no_leak (m : tmetrics) (p : proxy) (Hreach : proxy_steps (NewProxy m) p) :
  (forall x, x ∈ px_tracked p <-> owned p x) /\ px_open p ⊆ px_tracked p /\ px_open (shutdown_conns p) = ∅
  /\ (forall c h, px_handlers p !! c = Some h -> h_phase h = HReturned ->
        c ∉ px_open p /\ (forall b, h_backend h = Some b -> b ∉ px_open p))
  /\ (forall lane, px_metrics p (ActiveTCPConns lane) = m (ActiveTCPConns lane) + Z.of_nat (size (active p lane))).
Proof.
  destruct (proxy_steps_inv m p Hreach) as [Hh Ha Hon Ht Ho Hg Hcp]. split_and!; [done|done| |  |done].
  - apply set_eq. cbn. set_solver.
  - intros c h Hc Hph. destruct (Hh _ _ Hc) as (_ & _ & Hcl). auto.
Qed.

(** C36: The handlers of the transit proxy end after [Shutdown]: from any reachable state, a handler
    whose dial is over returns once each of its copies had one more turn, whatever that turn
    reads or writes; so does, without [Shutdown], a handler whose first copy ended. *)
Theorem transit_tcp_handlers_end (m : tmetrics) (p : proxy) (c : Z) (h : handler) d1 d2 r1 w1 r2 w2
    (Hreach : proxy_steps (NewProxy m) p) (Hc : px_handlers p !! c = Some h) :
  (h_phase h = HWaitFirst \/ h_phase h = HWaitSecond ->
    exists h', px_handlers (handler_drain (shutdown_conns p) c d1 d2 r1 w1 r2 w2) !! c = Some h' /\ h_phase h' = HReturned)
  /\ (h_phase h = HWaitSecond ->
    exists h', px_handlers (handler_drain p c d1 d2 r1 w1 r2 w2) !! c = Some h' /\ h_phase h' = HReturned).
Proof.
  pose proof (proxy_steps_inv m p Hreach) as Hinv. destruct (pi_handlers _ _ Hinv _ _ Hc) as (Hr & Hp & Hcl).
  assert (Hs : forall x, x ∉ px_open (shutdown_conns p)) by (pose proof (pi_open _ _ Hinv); cbn; set_solver).
  assert (Hbk : h_phase h = HWaitFirst \/ h_phase h = HWaitSecond -> exists b, h_backend h = Some b).
  { intros Hph. destruct (h_backend h) as [b|]; [eauto|]. destruct Hph as [E|E]; rewrite E in Hp; naive_solver. }
  split; intros Hph.
  - destruct (Hbk Hph) as [b Hb]. rewrite Hb in Hr. by eapply drain_returns; eauto.
  - destruct (Hbk (or_intror Hph)) as [b Hb]. rewrite Hb in Hr. destruct (Hcl (or_introl Hph)) as [? Hcb]. eapply drain_returns; eauto.
Qed.

(** The first direction that ends cuts the other: when the client half-closes after its request,
    and [handleTCPConn] takes that result, nothing the backend sends afterwards is delivered,
    though the copy back to the client is still running. *)
Theorem transit_half_close_cuts_reply (m : tmetrics) (p : proxy) (c b : Z) (h : handler) reply rerr werr
    (Hreach : proxy_steps (NewProxy m) p) (Hc : px_handlers p !! c = Some h) (Hph : h_phase h = HWaitFirst)
    (Hb : h_backend h = Some b) (Hup : h_up h = true) (Hdown : h_down h = true) (Hopen : c ∈ px_open p) :
  let p1 := handle_first (copy_turn p c true [] (Some EEOF) None) c in
  (exists h1, px_handlers p1 !! c = Some h1 /\ h_phase h1 = HWaitSecond /\ h_down h1 = true)
  /\ px_received (copy_turn p1 c false reply rerr werr) = px_received p.
Proof.
  cbv zeta. pose proof (proxy_steps_inv m p Hreach) as Hinv. destruct (pi_handlers _ _ Hinv _ _ Hc) as (Hr & _).
  rewrite Hb, Hup, Hdown in Hr. apply zlen_zero in Hr.
  set (h1 := mkHandler (h_lane h) (h_backend h) HWaitSecond false (h_down h) (h_nup h) (h_ndown h) [None]).
  assert (E : exists p1, copy_turn p c true [] (Some EEOF) None = px_set p1 c
      (mkHandler (h_lane h) (h_backend h) (h_phase h) false (h_down h) (h_nup h) (h_ndown h) [None])
      /\ px_open p1 = px_open p /\ px_received p1 = px_received p).
  { unfold copy_turn. rewrite Hc, Hb, Hup. cbn [negb]. rewrite bool_decide_eq_true_2 by done. cbn [negb]. change (zlen (@nil byte) =? 0) with true.
    cbn match. unfold copy_end. rewrite Hr, Hb. eexists. split; [reflexivity|]. by destruct (0 <? h_nup h). }
  destruct E as (p1 & -> & Ho & Hrec).
  assert (E2 : handle_first (px_set p1 c (mkHandler (h_lane h) (h_backend h) (h_phase h) false (h_down h) (h_nup h) (h_ndown h) [None])) c
    = px_set (px_conns (px_set p1 c (mkHandler (h_lane h) (h_backend h) (h_phase h) false (h_down h) (h_nup h) (h_ndown h) [None]))
        (px_tracked p1) (px_open p1 ∖ {[b; c]})) c h1).
  { unfold handle_first. cbn [px_set px_handlers]. rewrite lookup_insert_eq. cbn [h_phase h_results h_backend]. unfold h1. by rewrite Hph, Hb. }
  rewrite E2. split.
  - exists h1. split; [apply lookup_insert_eq|by rewrite <- Hdown].
  - destruct (copy_turn_closed (px_set (px_conns (px_set p1 c (mkHandler (h_lane h) (h_backend h) (h_phase h) false (h_down h) (h_nup h) (h_ndown h) [None]))
        (px_tracked p1) (px_open p1 ∖ {[b; c]})) c h1) c h1 b false reply rerr werr) as (? & _ & _ & _ & _ & _ & _ & _ & Hr').
    + apply lookup_insert_eq.
    + done.
    + cbn. set_solver.
    + rewrite Hr'. by cbn.
Qed.

(** ** Witnesses *)

Definition ex_px0 : proxy := NewProxy (fun _ => 0).
Definition ex_px1 : proxy := handle_begin ex_px0 "session_tcp" 1.
Definition ex_px2 : proxy := handle_dialed ex_px1 1 (Ok 2).
Definition ex_px3 : proxy := copy_turn ex_px2 1 true [Byte.x61] None None.
Definition ex_px4 : proxy := handle_first (copy_turn ex_px3 1 true [] (Some EEOF) None) 1.

Lemma ex_fresh (p : proxy) (c : Z) :
  forallb (fun kv => negb (bool_decide (kv.1 = c \/ h_backend kv.2 = Some c))) (map_to_list (px_handlers p)) = true -> fresh_conn p c.
Proof.
  intros H. rewrite forallb_forall in H.
  assert (Hk : forall d h, px_handlers p !! d = Some h -> d <> c /\ h_backend h <> Some c).
  { intros d h Hd. specialize (H (d, h)). rewrite <- list_elem_of_In, elem_of_map_to_list in H. specialize (H Hd).
    apply negb_true_iff, bool_decide_eq_false in H. cbn in H. tauto. }
  split; [|intros d h Hd; by apply (Hk d h)]. destruct (px_handlers p !! c) as [h|] eqn:E; [|done]. by destruct (Hk _ _ E).
Qed.

Lemma ex_px3_reach : proxy_steps (NewProxy (fun _ => 0)) ex_px3.
Proof.
  unfold ex_px3. eapply psts_more; [|apply pst_copy]. unfold ex_px2. eapply psts_more; [|apply pst_dial; intros b [= <-]; apply ex_fresh; by vm_compute].
  unfold ex_px1. eapply psts_more; [|apply pst_accept, ex_fresh; by vm_compute]. apply psts_refl.
Qed.

Lemma ex_px4_reach : proxy_steps (NewProxy (fun _ => 0)) ex_px4.
Proof. unfold ex_px4. eapply psts_more; [|apply pst_first]. eapply psts_more; [|apply pst_copy]. apply ex_px3_reach. Qed.

Lemma transit_tcp_no_leak_witness :
  px_open ex_px3 ⊆ px_tracked ex_px3 /\ px_open (shutdown_conns ex_px3) = ∅
  /\ px_metrics ex_px3 (ActiveTCPConns "session_tcp") = 0 + Z.of_nat (size (active ex_px3 "session_tcp")).
Proof.
  destruct (transit_tcp_no_leak (fun _ => 0) ex_px3 ex_px3_reach) as (_ & H1 & H2 & _ & H3).
  split; [exact H1|]. split; [exact H2|]. exact (H3 "session_tcp").
Defined.

Lemma transit_tcp_handlers_end_witness :
  exists h', px_handlers (handler_drain ex_px4 1 [] [Byte.x62] None None None None) !! 1 = Some h' /\ h_phase h' = HReturned.
Proof.
  eapply (transit_tcp_handlers_end (fun _ => 0) ex_px4 1 _ [] [Byte.x62] None None None None ex_px4_reach); vm_compute; reflexivity.
Defined.

Lemma transit_half_close_cuts_reply_witness :
  px_received (copy_turn ex_px4 1 false [Byte.x62] None None) = px_received ex_px3.
Proof.
  eapply (transit_half_close_cuts_reply (fun _ => 0) ex_px3 1 2 _ [Byte.x62] None None ex_px3_reach);
    [vm_compute; reflexivity..|apply (bool_decide_unpack _); vm_compute; exact I].
Defined.
