(* ===== verification/ClientConfig.v ===== *)
(** * The client library: configuration ([internal/sessionclient/config.go])

    The environment is a function from names to values, the empty string when a name is not set,
    which is what [os.Getenv] gives. Also here: the TLS settings with the pin check, and the list of
    addresses that [dialTCPTLS] ([tcp_session_client.go]) tries. *)

From S2P Require Import Prelude GoString Crypto Auth Config.

(** ** Reading the environment *)

Section Environment.
  Context (Getenv : string -> string).

Definition envOr (name fallback : string) : string :=
  let v := Getenv name in if String.eqb v "" then TrimSpace fallback else TrimSpace v.

Fixpoint envAny (names : list string) (fallback : string) : string :=
  match names with
  | [] => TrimSpace fallback
  | name :: names => let v := Getenv name in if String.eqb v "" then envAny names fallback else TrimSpace v
  end.

Definition envOrInt (name : string) (fallback : Z) : Z :=
  let v := Getenv name in
  if String.eqb v "" then fallback else match Atoi v with Ok n => n | _ => fallback end.

Definition envBool (name : string) (fallback : bool) : bool :=
  let v := TrimSpace (ToLower (Getenv name)) in
  if String.eqb v "" then fallback
  else if bool_decide (v ∈ ["1"; "true"; "yes"; "on"; "y"]) then true
  else if bool_decide (v ∈ ["0"; "false"; "no"; "off"; "n"]) then false
  else fallback.

Definition splitCSVEnv (name : string) : list string :=
  let raw := TrimSpace (Getenv name) in
  if String.eqb raw "" then []
  else List.filter (fun part => negb (String.eqb part "")) (map TrimSpace (Split_comma raw)).
End Environment.

Definition splitHostPort (addr : string) : res (string * Z) :=
  '(host, portRaw) ← SplitHostPort (bytes_of_string addr);
  port ← ParseInt portRaw;
  Ok (string_of_bytes host, port).

Definition defaultProtoIDCompat : list string := ["vlf-runtime/0.1"; "vlf-session/0.1"].

(** [appendOne] is the closure of the same name of the gateway's [resolveALPNList]. *)
Definition buildProtoIDList (primary : string) (extra : list string) : list string :=
  let out := appendOne [] primary in
  let out := foldl appendOne out extra in
  let out := foldl appendOne out defaultProtoIDCompat in
  match out with [] => ["vlf-runtime/0.1"] | _ => out end.

Record ClientConfig := mkClientConfig {
  GatewayHost : string; GatewayDialHost : string; GatewayUDP : Z; GatewayTCP : Z; RelayBase : string;
  cc_ClientID : string; cc_Secret : list byte; ProtoID : string; ProtoIDs : list string; PinSPKI : string;
  TLSServerName : string; cc_MaxDgramPayload : Z; QUICTimeout : Z; TCPTimeout : Z;
  PreferQUIC : bool; DisableQUIC : bool; DisableTCPSession : bool; AllowRelay : bool; ForceIPv4 : bool; cc_Debug : bool }.

(** A timeout given in milliseconds, at least half a second. *)
Definition env_timeout (ms : Z) : Z :=
  let d := int64 (ms * Millisecond) in if d <? 500 * Millisecond then 500 * Millisecond else d.

(** What SESSION_ADDR says about the host and the port. *)
Definition session_addr (Getenv : string -> string) (gatewayHost : string) (defaultPort : Z) : string * Z :=
  let sessionAddr := envOr Getenv "SESSION_ADDR" "" in
  if String.eqb sessionAddr "" then (gatewayHost, defaultPort)
  else match splitHostPort sessionAddr with
  | Ok (h, p) =>
      (if String.eqb gatewayHost "" then h else gatewayHost,
       if String.eqb (Getenv "GATEWAY_PORT_UDP") "" && String.eqb (Getenv "GATEWAY_PORT") "" then p else defaultPort)
  | _ => (gatewayHost, defaultPort)
  end.

Definition LoadConfigFromEnv (Getenv : string -> string) : res ClientConfig :=
  let clientID := envAny Getenv ["VLF_CLIENT_ID"; "VLF_CLIENT"] "smoke-client" in
  let secretRaw := envOr Getenv "VLF_SECRET" "smoke-secret" in
  secret ← wrap_err "parse VLF_SECRET" (ParseSecretString secretRaw);
  let protoID := envOr Getenv "VLF_PROTO_ID" "vlf-runtime/0.1" in
  let protoCompat := splitCSVEnv Getenv "VLF_PROTO_ID_COMPAT" in
  let protoIDs := buildProtoIDList protoID protoCompat in
  let pin := envOr Getenv "VLF_PIN_SPKI" "" in
  let defaultPort := envOrInt Getenv "GATEWAY_PORT" 443 in
  let gatewayHost := envOr Getenv "GATEWAY_HOST" "" in
  let '(gatewayHost, defaultPort) := session_addr Getenv gatewayHost defaultPort in
  let gatewayHost := if String.eqb gatewayHost "" then "localhost" else gatewayHost in
  let gatewayDialHost := envAny Getenv ["GATEWAY_DIAL_HOST"; "GATEWAY_IP"] gatewayHost in
  let tlsServerName := envOr Getenv "VLF_TLS_SERVER_NAME" gatewayHost in
  let relayHost := if String.eqb gatewayDialHost "" then gatewayHost else gatewayDialHost in
  let relayBase := envOr Getenv "RELAY_BASE"
    ("http://" ++ string_of_bytes (JoinHostPort (bytes_of_string relayHost) (bytes_of_string "8080")))%string in
  match protoIDs with
  | [] => Panic "index out of range"
  | first :: _ =>
      Ok (mkClientConfig gatewayHost gatewayDialHost (envOrInt Getenv "GATEWAY_PORT_UDP" defaultPort)
            (envOrInt Getenv "GATEWAY_PORT_TCP" defaultPort) relayBase clientID secret first protoIDs pin tlsServerName
            (envOrInt Getenv "MAX_DGRAM_PAYLOAD" 1200)
            (env_timeout (envOrInt Getenv "QUIC_CONNECT_TIMEOUT_MS" 1800))
            (env_timeout (envOrInt Getenv "TCP_CONNECT_TIMEOUT_MS" 1800))
            (envBool Getenv "VLF_PREFER_QUIC" true) (envBool Getenv "VLF_DISABLE_QUIC" false)
            (envBool Getenv "VLF_DISABLE_TCP_SESSION" false) (negb (envBool Getenv "VLF_DISABLE_RELAY_FALLBACK" false))
            (envBool Getenv "VLF_FORCE_IPV4" false) (envBool Getenv "VLF_DEBUG" false))
  end.

(** ** Addresses *)

Definition dial_host (c : ClientConfig) : string :=
  if String.eqb (GatewayDialHost c) "" then GatewayHost c else GatewayDialHost c.
Definition join_port (host : string) (port : Z) : string :=
  string_of_bytes (JoinHostPort (bytes_of_string host) (FormatInt port)).
Definition QUICAddr (c : ClientConfig) : string := join_port (dial_host c) (GatewayUDP c).
Definition TCPAddr (c : ClientConfig) : string := join_port (dial_host c) (GatewayTCP c).

(** ** TLS *)

(** [crypto.SHA256.Size()]. *)
Definition pin_size : Z := 32.

Definition decodeSPKIPin (raw : string) : res (list byte) :=
  let pin := TrimSpace (TrimPrefix (TrimSpace raw) "sha256/") in
  if String.eqb pin "" then Err (ENew "empty pin")
  else
    let decoded := match b64_decode true (bytes_of_string pin) with
                   | Some d => Some d
                   | None => b64_decode false (bytes_of_string pin)
                   end in
    match decoded with
    | None => Err (EWrap "base64 decode" (ENew "illegal base64 data"))
    | Some d => if negb (zlen d =? pin_size) then Err (ENew "pin length must be 32 bytes") else Ok d
    end.

(** [out |= a[i] ^ b[i]] over both slices. *)
Definition constantTimeEqual (a b : list byte) : bool :=
  if negb (zlen a =? zlen b) then false
  else foldl (fun out xy => Z.lor out (Z.lxor (bz xy.1) (bz xy.2))) 0 (zip a b) =? 0.

(** The fields of [tls.Config] that depend on the configuration. [InsecureSkipVerify] is always set:
    the pin, when there is one, is the only check of the certificate. *)
Record tlsClient := mkTLS { ServerName : string; NextProtos : list string; expectedPin : option (list byte) }.

Definition client_TLSConfig (c : ClientConfig) : res tlsClient :=
  let alpn := match ProtoIDs c with [] => buildProtoIDList (ProtoID c) [] | l => l end in
  let serverName := TLSServerName c in
  let serverName := if String.eqb serverName "" then GatewayHost c else serverName in
  let serverName := if String.eqb serverName "" then GatewayDialHost c else serverName in
  if String.eqb (TrimSpace (PinSPKI c)) "" then Ok (mkTLS serverName alpn None)
  else
    pin ← wrap_err "invalid VLF_PIN_SPKI" (decodeSPKIPin (PinSPKI c));
    Ok (mkTLS serverName alpn (Some pin)).

(** The verification callback. [ParseCertificate] gives the raw subject public key info. *)
Definition VerifyPeerCertificate (ParseCertificate : list byte -> res (list byte)) (t : tlsClient)
    (rawCerts : list (list byte)) : option goerr :=
  match expectedPin t with
  | None => None
  | Some pin =>
      match rawCerts with
      | [] => Some (ENew "tls pinning failed: no server certificate")
      | cert :: _ =>
          match ParseCertificate cert with
          | Ok spki => if constantTimeEqual (Sum256 spki) pin then None else Some (ENew "tls pin mismatch")
          | Err e => Some (EWrap "tls pinning parse cert" e)
          | Panic m => Some (ENew m)
          end
      end
  end.

(** ** The addresses of a TCP dial *)

(** [net.ParseIP] with [To4]: not an address, an IPv6 address, or the four bytes. *)
Inductive parsed_ip := NotIP | IPv6Only | IPv4 (ip : list byte).

Definition ip4_target (port : Z) (ip : list byte) : string * string :=
  ("tcp4", string_of_bytes (JoinHostPort (ip_string ip) (FormatInt port))).

Definition append_target (targets : list (string * string)) (t : string * string) : list (string * string) :=
  if String.eqb t.2 "" then targets else targets ++ [t].

Definition dial_targets (ParseIP : string -> parsed_ip) (LookupIP4 : string -> res (list (option (list byte))))
    (c : ClientConfig) : list (string * string) :=
  let targets :=
    if ForceIPv4 c then
      match ParseIP (GatewayHost c) with
      | IPv4 ip => append_target [] (ip4_target (GatewayTCP c) ip)
      | IPv6Only => []
      | NotIP =>
          match LookupIP4 (GatewayHost c) with
          | Ok ips => foldl (fun ts ip => match ip with Some ip4 => append_target ts (ip4_target (GatewayTCP c) ip4) | None => ts end) [] ips
          | _ => []
          end
      end
    else [] in
  append_target targets ("tcp", TCPAddr c).

(** The loop of [dialTCPTLS]: the connection, with the raw connections it closed on the way. *)
Fixpoint try_targets (dial : string * string -> res Z) (handshake : Z -> option goerr) (targets : list (string * string))
    (lastErr : option goerr) (closed : list Z) : res Z * list Z :=
  match targets with
  | [] => (Err (default (ENew "no dial targets available") lastErr), closed)
  | t :: targets =>
      match dial t with
      | Err e => try_targets dial handshake targets (Some e) closed
      | Panic m => (Panic m, closed)
      | Ok raw =>
          match handshake raw with
          | Some e => try_targets dial handshake targets (Some e) (closed ++ [raw])
          | None => (Ok raw, closed)
          end
      end
  end.

Definition dialTCPTLS ParseIP LookupIP4 dial handshake (c : ClientConfig) : res Z * list Z :=
  try_targets dial handshake (dial_targets ParseIP LookupIP4 c) None [].

(** ** Lemmas *)

Lemma lxor_bytes_zero a b : Z.lxor (bz a) (bz b) = 0 <-> a = b.
Proof. rewrite Z.lxor_eq_0_iff. split; [apply bz_inj|by intros ->]. Qed.

Lemma or_of_xors l : forall out,
  foldl (fun out (xy : byte * byte) => Z.lor out (Z.lxor (bz xy.1) (bz xy.2))) out l = 0 <->
  out = 0 /\ Forall (fun xy => xy.1 = xy.2) l.
Proof.
  induction l as [|[a b] l IH]; intros out; cbn [foldl]; [by rewrite Forall_nil; tauto|].
  rewrite IH, Z.lor_eq_0_iff, Forall_cons, lxor_bytes_zero. tauto.
Qed.

(** The comparison without early exit is equality. *)
Lemma constantTimeEqual_eq a b : constantTimeEqual a b = true <-> a = b.
Proof.
  unfold constantTimeEqual. destruct (zlen a =? zlen b) eqn:E; cbn [negb].
  - zbool. rewrite Z.eqb_eq, or_of_xors. unfold zlen in E. apply Nat2Z.inj in E. split.
    + intros [_ H]. revert b E H. induction a as [|x a IH]; intros [|y b] E H; try done.
      cbn [zip zip_with] in H. apply Forall_cons in H as [H1 H2]. cbn in H1, E. rewrite H1. f_equal. apply IH; [lia|done].
    + intros ->. split; [done|]. clear E. induction b; constructor; done.
  - zbool. split; [done|]. by intros ->.
Qed.

Lemma decodeSPKIPin_size raw pin : decodeSPKIPin raw = Ok pin -> zlen pin = 32.
Proof.
  unfold decodeSPKIPin. cbn zeta. intros E. repeat case_in E; try done; simplify_eq; zbool; done.
Qed.

Lemma buildProtoIDList_spec primary extra :
  NoDup (buildProtoIDList primary extra) /\ buildProtoIDList primary extra <> []
  /\ (forall p, p ∈ defaultProtoIDCompat -> p ∈ buildProtoIDList primary extra)
  /\ (forall v, v ∈ primary :: extra -> TrimSpace v <> "" -> TrimSpace v ∈ buildProtoIDList primary extra).
Proof.
  unfold buildProtoIDList. cbn zeta. set (o1 := appendOne [] primary).
  destruct (appendOne_spec [] primary (NoDup_nil_2)) as (A1 & _ & A3 & _). fold o1 in A1, A3.
  destruct (append_all_spec extra o1 A1) as (B1 & B2 & B3 & _). set (o2 := foldl appendOne o1 extra) in *.
  destruct (append_all_spec defaultProtoIDCompat o2 B1) as (C1 & C2 & C3 & _). set (o3 := foldl appendOne o2 defaultProtoIDCompat) in *.
  assert (H0 : "vlf-runtime/0.1" ∈ o3) by (apply (C3 "vlf-runtime/0.1"); [by left|done]).
  assert (H1 : "vlf-session/0.1" ∈ o3) by (apply (C3 "vlf-session/0.1"); [by right; left|done]).
  assert (E : match o3 with [] => ["vlf-runtime/0.1"] | _ => o3 end = o3) by (destruct o3; [by apply not_elem_of_nil in H0|done]).
  rewrite E. split_and!; [done|intros ->; by apply not_elem_of_nil in H0| |].
  - intros p Hp. apply elem_of_cons in Hp as [->|Hp%list_elem_of_singleton]; [done|by subst p].
  - intros v Hv Hne. eapply elem_of_prefix; [|exact C2]. apply elem_of_cons in Hv as [->|Hv]; [|by apply B3].
    eapply elem_of_prefix; [|exact B2]. by apply A3.
Qed.

Lemma alpn_both_builtin primary compat : "vlf-runtime/0.1" ∈ resolveALPNList primary compat.
Proof.
  unfold resolveALPNList. cbn zeta.
  destruct (appendOne_spec [] primary (NoDup_nil_2)) as (A1 & _). destruct (append_all_spec (Split_comma (TrimSpace compat)) _ A1) as (B1 & _).
  destruct (appendOne_spec _ "vlf-runtime/0.1" B1) as (C1 & _ & C3 & _). destruct (appendOne_spec _ "vlf-session/0.1" C1) as (_ & D2 & _).
  specialize (C3 ltac:(done)). change (TrimSpace "vlf-runtime/0.1") with "vlf-runtime/0.1" in C3.
  pose proof (elem_of_prefix _ _ _ C3 D2) as H. case_match; [by apply not_elem_of_nil in H|exact H].
Qed.

Lemma LoadConfigFromEnv_inv Getenv c :
  LoadConfigFromEnv Getenv = Ok c ->
  ParseSecretString (envOr Getenv "VLF_SECRET" "smoke-secret") = Ok (cc_Secret c)
  /\ ProtoIDs c = buildProtoIDList (envOr Getenv "VLF_PROTO_ID" "vlf-runtime/0.1") (splitCSVEnv Getenv "VLF_PROTO_ID_COMPAT")
  /\ head (ProtoIDs c) = Some (ProtoID c) /\ GatewayHost c <> ""
  /\ 500 * Millisecond <= QUICTimeout c /\ 500 * Millisecond <= TCPTimeout c.
Proof.
  unfold LoadConfigFromEnv. intros E. apply res_bind_Ok in E as (secret & Es & E). rewrite wrap_err_Ok in Es.
  destruct (session_addr _ _ _) as [h p]. destruct (buildProtoIDList _ _) as [|first rest] eqn:Hl; [done|].
  injection E as <-. cbn [cc_Secret ProtoIDs ProtoID GatewayHost QUICTimeout TCPTimeout]. split_and!; [done..| | |].
  - destruct (String.eqb h "") eqn:Eh; [done|]. by apply String.eqb_neq.
  - unfold env_timeout. cbn zeta. case_match; zbool; lia.
  - unfold env_timeout. cbn zeta. case_match; zbool; lia.
Qed.

Lemma append_target_last ts t : t.2 <> "" -> append_target ts t = ts ++ [t].
Proof. intros H. unfold append_target. by rewrite (proj2 (String.eqb_neq _ _)). Qed.

Lemma string_of_bytes_nonempty l : l <> [] -> string_of_bytes l <> "".
Proof. intros Hl E. apply Hl. rewrite <- (bytes_string_bytes l), E. done. Qed.

Lemma join_port_nonempty host port : join_port host port <> "".
Proof. apply string_of_bytes_nonempty. unfold JoinHostPort. case_match; intros E0; apply (f_equal length) in E0; rewrite ?length_app, ?length_cons, ?length_app in E0; cbn in E0; lia. Qed.

Lemma try_targets_spec dial handshake targets : forall lastErr closed r closed',
  try_targets dial handshake targets lastErr closed = (r, closed') ->
  closed `prefix_of` closed'
  /\ (forall raw, r = Ok raw -> handshake raw = None /\ exists t, t ∈ targets /\ dial t = Ok raw)
  /\ (forall x, x ∈ closed' -> x ∈ closed \/ (handshake x <> None /\ exists t, t ∈ targets /\ dial t = Ok x))
  /\ (forall e, r = Err e -> forall t raw, t ∈ targets -> dial t = Ok raw -> raw ∈ closed').
Proof.
  induction targets as [|t ts IH]; intros le cl r cl' E; cbn [try_targets] in E.
  { injection E as <- <-. split_and!; [done|done|by left|]. intros e _ t raw Ht. by apply not_elem_of_nil in Ht. }
  destruct (dial t) as [raw|e|m] eqn:Ed.
  - destruct (handshake raw) as [e|] eqn:Eh.
    + destruct (IH _ _ _ _ E) as (P1 & P2 & P3 & P4). split_and!.
      * etrans; [|exact P1]. by eexists.
      * intros x Hx. destruct (P2 x Hx) as (? & t' & ? & ?). split; [done|]. exists t'. split; [by right|done].
      * intros x [Hx|(Hx & t' & ? & ?)]%P3; [|right; split; [done|]; exists t'; split; [by right|done]].
        apply elem_of_app in Hx as [Hx|Hx%list_elem_of_singleton]; [by left|]. subst x. right. split; [by rewrite Eh|].
        exists t. split; [by left|done].
      * intros e' He t' raw' Ht' Hd. apply elem_of_cons in Ht' as [->|Ht']; [|by eapply P4].
        rewrite Ed in Hd. injection Hd as <-. eapply elem_of_prefix; [|exact P1]. apply elem_of_app. right. by apply list_elem_of_singleton.
    + injection E as <- <-. split_and!; [done| |by left|done]. intros x [= <-]. split; [done|]. exists t. split; [by left|done].
  - destruct (IH _ _ _ _ E) as (P1 & P2 & P3 & P4). split_and!; [done|..].
    + intros x Hx. destruct (P2 x Hx) as (? & t' & ? & ?). split; [done|]. exists t'. split; [by right|done].
    + intros x [Hx|(Hx & t' & ? & ?)]%P3; [by left|right; split; [done|]; exists t'; split; [by right|done]].
    + intros e' He t' raw' Ht' Hd. apply elem_of_cons in Ht' as [->|Ht']; [by rewrite Ed in Hd|by eapply P4].
  - injection E as <- <-. split_and!; [done|done|by left|done].
Qed.

(** ** Theorems *)

(** C37: The pin is the identity of the gateway: with a pin configured, the TLS settings exist only when
    it decodes to 32 bytes, and then a certificate chain is accepted exactly when the SHA-256 of the
    public key of its first certificate is the pin. *)
Theorem pin_check_exact ParseCertificate c t certs :
  client_TLSConfig c = Ok t -> TrimSpace (PinSPKI c) <> "" ->
  exists pin, decodeSPKIPin (PinSPKI c) = Ok pin /\ zlen pin = 32
    /\ (VerifyPeerCertificate ParseCertificate t certs = None <->
        exists cert rest spki, certs = cert :: rest /\ ParseCertificate cert = Ok spki /\ Sum256 spki = pin).
Proof.
  unfold client_TLSConfig. cbn zeta. intros E Hp. rewrite (proj2 (String.eqb_neq _ _)) in E by done.
  apply res_bind_Ok in E as (pin & Ed & [= <-]). rewrite wrap_err_Ok in Ed. exists pin. split; [done|]. split; [by eapply decodeSPKIPin_size|].
  unfold VerifyPeerCertificate. cbn [expectedPin]. destruct certs as [|cert rest]; [split; [done|by intros (? & ? & ? & ? & _)]|].
  destruct (ParseCertificate cert) as [spki|e|m] eqn:Ec.
  - destruct (constantTimeEqual (Sum256 spki) pin) eqn:Eq.
    + apply constantTimeEqual_eq in Eq. split; [|done]. intros _. by exists cert, rest, spki.
    + split; [done|]. intros (cert' & rest' & spki' & [= <- <-] & Hc & Hs). rewrite Ec in Hc. injection Hc as <-.
      apply constantTimeEqual_eq in Hs. by rewrite Hs in Eq.
  - split; [done|]. intros (cert' & rest' & spki' & [= <- <-] & Hc & _). by rewrite Ec in Hc.
  - split; [done|]. intros (cert' & rest' & spki' & [= <- <-] & Hc & _). by rewrite Ec in Hc.
Qed.

(** A client configured from any environment and a gateway started with any protocol settings have
    a TLS protocol name in common; and a configuration that loads has a secret to sign with, a
    host, the preferred protocol first, and connection timeouts of at least half a second. *)
Theorem client_gateway_alpn Getenv c t primary compat :
  LoadConfigFromEnv Getenv = Ok c -> client_TLSConfig c = Ok t ->
  (exists p, p ∈ NextProtos t /\ p ∈ resolveALPNList primary compat)
  /\ NoDup (NextProtos t) /\ head (NextProtos t) = Some (ProtoID c)
  /\ cc_Secret c <> [] /\ GatewayHost c <> "" /\ 500 * Millisecond <= QUICTimeout c /\ 500 * Millisecond <= TCPTimeout c.
Proof.
  intros El Et. apply LoadConfigFromEnv_inv in El as (Hs & Hl & Hh & Hg & Hq & Htc).
  destruct (buildProtoIDList_spec (envOr Getenv "VLF_PROTO_ID" "vlf-runtime/0.1") (splitCSVEnv Getenv "VLF_PROTO_ID_COMPAT"))
    as (Hd & Hne & Hin & _). rewrite <- Hl in Hd, Hne, Hin.
  assert (Hn : NextProtos t = ProtoIDs c).
  { unfold client_TLSConfig in Et. cbn zeta in Et. destruct (ProtoIDs c) as [|x l] eqn:E; [done|].
    case_in Et; [by injection Et as <-|]. by apply res_bind_Ok in Et as (? & _ & [= <-]). }
  rewrite Hn. split_and!; try done; [|by eapply zlen_nonempty, parse_secret_nonempty].
  exists "vlf-runtime/0.1". split; [apply Hin; by left|apply alpn_both_builtin].
Qed.

(** The TCP dial of the client: it returns a connection only after a handshake succeeded on it,
    every connection it closed had failed its handshake, when it fails nothing it opened stays
    open, and a failing dial reports an error. With [ForceIPv4] the IPv4 addresses come first, and the
    configured address is still tried last over any address family. *)
Theorem tcp_dial_spec ParseIP LookupIP4 dial handshake c r closed :
  dialTCPTLS ParseIP LookupIP4 dial handshake c = (r, closed) ->
  last (dial_targets ParseIP LookupIP4 c) = Some ("tcp", TCPAddr c)
  /\ (forall raw, r = Ok raw -> handshake raw = None /\ exists t, t ∈ dial_targets ParseIP LookupIP4 c /\ dial t = Ok raw)
  /\ (forall x, x ∈ closed -> handshake x <> None)
  /\ (forall e, r = Err e -> forall t raw, t ∈ dial_targets ParseIP LookupIP4 c -> dial t = Ok raw -> raw ∈ closed).
Proof.
  intros E. destruct (try_targets_spec _ _ _ _ _ _ _ E) as (_ & P2 & P3 & P4). split_and!.
  - unfold dial_targets. cbn zeta. rewrite append_target_last by apply join_port_nonempty. apply last_snoc.
  - exact P2.
  - intros x [Hx%not_elem_of_nil|[Hx _]]%P3; done.
  - exact P4.
Qed.

(** ** Witnesses *)

Definition ex_spki : list byte := bytes_of_string "public key".
Definition ex_env (name : string) : string :=
  if String.eqb name "VLF_PIN_SPKI" then "sha256/AAAAAAAAAAAAAAAAAAAAAAAAAAAAAAAAAAAAAAAAAAA=" else if String.eqb name "GATEWAY_HOST" then "gw.example" else "".
Definition ex_client_config : ClientConfig :=
  Eval vm_compute in match LoadConfigFromEnv ex_env with Ok c => c | _ => mkClientConfig "" "" 0 0 "" "" [] "" [] "" "" 0 0 0 false false false false false false end.
Definition ex_tls : tlsClient := Eval vm_compute in match client_TLSConfig ex_client_config with Ok t => t | _ => mkTLS "" [] None end.

Lemma pin_check_exact_witness :
  exists pin, decodeSPKIPin (PinSPKI ex_client_config) = Ok pin /\ zlen pin = 32
    /\ (VerifyPeerCertificate (fun c => Ok c) ex_tls [ex_spki] = None <->
        exists cert rest spki, [ex_spki] = cert :: rest /\ Ok cert = Ok spki /\ Sum256 spki = pin).
Proof. apply (pin_check_exact (fun c => Ok c) ex_client_config ex_tls [ex_spki]); [vm_compute; reflexivity|vm_compute; congruence]. Defined.

Lemma client_gateway_alpn_witness :
  exists p, p ∈ NextProtos ex_tls /\ p ∈ resolveALPNList "custom/1" "".
Proof.
  apply (client_gateway_alpn ex_env ex_client_config ex_tls "custom/1" ""); vm_compute; reflexivity.
Defined.

Lemma tcp_dial_spec_witness :
  last (dial_targets (fun _ => IPv4 [x7f; x00; x00; x01]) (fun _ => Ok []) ex_client_config) = Some ("tcp", TCPAddr ex_client_config).
Proof.
  eapply (tcp_dial_spec (fun _ => IPv4 [x7f; x00; x00; x01]) (fun _ => Ok []) (fun t => Ok 7) (fun _ => None) ex_client_config).
  vm_compute. reflexivity.
Defined.
