(* ===== verification/Client.v ===== *)
(** * The client library: choice of transport and authentication
      ([internal/sessionclient/client.go], and [auth] of [quic_client.go] and [tcp_session_client.go])

    [Dial] tries the transports in order; a transport is represented by what its dial function
    returned. The clients of both session transports authenticate with the same code, apart from
    the capabilities they announce. *)

From S2P Require Import Prelude Wire Frame GoString Crypto Auth Limits Metrics Server Handshake Config ClientConfig.

(** ** [Dial] *)

Inductive Transport := TransportQUIC | TransportTCPSession | TransportRelay.

#[global] Instance transport_eq_dec : EqDecision Transport.
Proof. solve_decision. Defined.

Record DialError := mkDialError { QUICErr : option goerr; TCPErr : option goerr; RelayErr : option goerr }.

Definition dial_err_of (de : DialError) (t : Transport) : option goerr :=
  match t with TransportQUIC => QUICErr de | TransportTCPSession => TCPErr de | TransportRelay => RelayErr de end.
Definition set_dial_err (de : DialError) (t : Transport) (e : goerr) : DialError :=
  match t with
  | TransportQUIC => mkDialError (Some e) (TCPErr de) (RelayErr de)
  | TransportTCPSession => mkDialError (QUICErr de) (Some e) (RelayErr de)
  | TransportRelay => mkDialError (QUICErr de) (TCPErr de) (Some e)
  end.

(** [DialError.Error]. *)
Definition DialError_Error (de : DialError) : string :=
  let part name e := match e with Some e => [(name ++ err_text e)%string] | None => [] end in
  ("all transports failed: " ++
   String.concat "; " (part "quic=" (QUICErr de) ++ part "tcp=" (TCPErr de) ++ part "relay=" (RelayErr de)))%string.

Record Client (I : Type) := mkClient { cl_transport : Transport; cl_inner : I; nextFlow : Z }.
Arguments mkClient {I} _ _ _.
Arguments cl_transport {I} _.
Arguments cl_inner {I} _.
Arguments nextFlow {I} _.

Section Dial.
  Context {I : Type}.

Definition newClient (t : Transport) (inner : I) : Client I := mkClient t inner 1000.

Definition dial_order (cfg : ClientConfig) : list Transport :=
  if PreferQUIC cfg then [TransportQUIC; TransportTCPSession; TransportRelay]
  else [TransportTCPSession; TransportQUIC; TransportRelay].
Definition enabled (cfg : ClientConfig) (t : Transport) : bool :=
  match t with
  | TransportQUIC => negb (DisableQUIC cfg)
  | TransportTCPSession => negb (DisableTCPSession cfg)
  | TransportRelay => AllowRelay cfg
  end.

(** The loop over the order, with the transports whose dial function was called. *)
Fixpoint dial_loop (cfg : ClientConfig) (dial : Transport -> res I) (order : list Transport) (de : DialError)
    (tried : list Transport) : (Client I + DialError + string) * list Transport :=
  match order with
  | [] => (inl (inr de), tried)
  | t :: order =>
      if negb (enabled cfg t) then dial_loop cfg dial order de tried
      else match dial t with
      | Ok inner => (inl (inl (newClient t inner)), tried ++ [t])
      | Err e => dial_loop cfg dial order (set_dial_err de t e) (tried ++ [t])
      | Panic m => (inr m, tried ++ [t])
      end
  end.

Definition Dial (cfg : ClientConfig) (dial : Transport -> res I) : (Client I + DialError + string) * list Transport :=
  dial_loop cfg dial (dial_order cfg) (mkDialError None None None) [].

(** [c.nextFlow.Add(1)] of [OpenTCPFlow] and [OpenUDPFlow]. *)
Definition take_flow_id (c : Client I) : Client I * Z :=
  let id := u64 (nextFlow c + 1) in (mkClient (cl_transport c) (cl_inner c) id, id).

Fixpoint take_flow_ids (n : nat) (c : Client I) : list Z :=
  match n with
  | O => []
  | S n => let '(c, id) := take_flow_id c in id :: take_flow_ids n c
  end.
End Dial.

(** [expectTimeout]: the deadline of the caller, or the fallback from now. *)
Definition expectTimeout (deadline : option Z) (now fallback : Z) : Z :=
  match deadline with Some d => d | None => now + fallback end.

(** ** Failure payloads *)

(** [int(ln)] of a length read from the wire may be negative. *)
Definition decodeAuthFailReason (payload : list byte) : res string :=
  if zlen payload =? 0 then Ok ""
  else
    let '(ln, n) := Uvarint payload in
    if (n <=? 0) || (zlen payload <? int64 (int64 ln + n)) then Ok (string_of_bytes payload)
    else raw ← slice payload n (int64 (n + int64 ln)); Ok (string_of_bytes raw).

Definition decodeFailPayload (payload : list byte) : res (Z * string) :=
  if zlen payload <? 8 then Ok (0, string_of_bytes payload)
  else
    let flowID := be_get (ztake 8 payload) in
    if zlen payload =? 8 then Ok (flowID, "")
    else
      let '(ln, n) := Uvarint (zdrop 8 payload) in
      if n <=? 0 then Ok (flowID, "")
      else
        let start := 8 + n in
        let end_ := int64 (start + int64 ln) in
        if (zlen payload <? start) || (zlen payload <? end_) then Ok (flowID, "")
        else raw ← slice payload start end_; Ok (flowID, string_of_bytes raw).

(** ** Authentication *)

Definition signSession (secret payload : list byte) : list byte := hmac_sha256 secret payload.

(** The capabilities announced over QUIC and over TCP. *)
Definition quic_caps : Z := 15.
Definition tcp_caps : Z := 3.

Definition client_auth_payload (cfg : ClientConfig) (caps now : Z) (nonce : list byte) : AuthPayload :=
  let ts := u64 (now / Millisecond) in
  mkAuthPayload (cc_ClientID cfg) ts nonce (signSession (cc_Secret cfg) (SessionAuthMaterial (cc_ClientID cfg) ts nonce caps)) caps.

Definition auth_reply (reply : res Frame) : res unit :=
  match reply with
  | Err e => Err (EWrap "read AUTH response" e)
  | Panic m => Panic m
  | Ok frame =>
      if frame_type frame =? FrameAUTHFAIL then
        reason ← decodeAuthFailReason (frame_payload frame); Err (ENew ("AUTH failed: " ++ reason)%string)
      else if negb (frame_type frame =? FrameAUTHOK) then Err (ENew "expected AUTH_OK")
      else Ok tt
  end.

(** [auth]: [nonce] is what the random source gave, [reply] what the read of the response gives. *)
Definition client_auth (cfg : ClientConfig) (caps now : Z) (nonce : res (list byte)) (w : writer) (reply : res Frame)
  : writer * res unit :=
  match nonce with
  | Err e => (w, Err (EWrap "nonce generation" e))
  | Panic m => (w, Panic m)
  | Ok nonce =>
      let '(w, err) := WriteFrame w FrameAUTH (EncodeAuthPayload (client_auth_payload cfg caps now nonce)) in
      match err with
      | Some e => (w, Err (EWrap "write AUTH" e))
      | None => (w, auth_reply reply)
      end
  end.

(** ** Lemmas *)

Lemma slice_exact {A} (l1 l2 l3 : list A) : slice (l1 ++ l2 ++ l3) (zlen l1) (zlen l1 + zlen l2) = Ok l2.
Proof. apply slice_mid; lia. Qed.

Lemma int64_len l : small_bytes l -> int64 (zlen l) = zlen l.
Proof. intros H. apply int64_small. unfold small_bytes, maxAlloc in H. pose proof (zlen_nonneg l). unfold is_int64. lia. Qed.

Lemma decodeAuthFailReason_encode reason :
  small_bytes (bytes_of_string reason) -> decodeAuthFailReason (EncodeAuthFail reason) = Ok reason.
Proof.
  intros Hs. unfold EncodeAuthFail, writeString. rewrite writeBytes_eq. unfold decodeAuthFailReason.
  set (d := bytes_of_string reason) in *. pose proof (zlen_PutUvarint (zlen d)) as Hp. pose proof (zlen_nonneg d) as Hd.
  rewrite Uvarint_Put by (by apply small_bytes_u64). rewrite !zlen_app, int64_len by done.
  unfold small_bytes, maxAlloc in Hs. rewrite !int64_small by (unfold is_int64; lia). zdecide. cbn [orb].
  pose proof (slice_exact (PutUvarint (zlen d)) d []) as Hsl. rewrite app_nil_r in Hsl. rewrite Hsl.
  cbn. unfold d. by rewrite string_bytes_string.
Qed.

Lemma decodeFailPayload_encode p :
  is_u64 (fp_FlowID p) -> small_bytes (bytes_of_string (Reason p)) ->
  decodeFailPayload (EncodeFailPayload p) = Ok (fp_FlowID p, Reason p).
Proof.
  intros Hf Hs. unfold EncodeFailPayload, writeString. rewrite writeBytes_eq. unfold decodeFailPayload.
  set (d := bytes_of_string (Reason p)) in *. pose proof (zlen_PutUvarint (zlen d)) as Hp. pose proof (zlen_nonneg d) as Hd.
  set (h := be_put 8 (fp_FlowID p)). assert (Hh : zlen h = 8) by apply zlen_be_put.
  rewrite !zlen_app, Hh. zdecide. pose proof (ztake_app_exact h (PutUvarint (zlen d) ++ d)) as Ht. pose proof (zdrop_app_exact h (PutUvarint (zlen d) ++ d)) as Hz.
  rewrite Hh in Ht, Hz. rewrite Ht, Hz. unfold h at 1 2 3. rewrite be_get_put_u64 by done.
  rewrite Uvarint_Put by (by apply small_bytes_u64). rewrite int64_len by done. zdecide.
  unfold small_bytes, maxAlloc in Hs. rewrite int64_small by (unfold is_int64; lia). zdecide. cbn [orb].
  pose proof (slice_exact (h ++ PutUvarint (zlen d)) d []) as Hsl. rewrite app_nil_r, <- app_assoc, zlen_app, Hh in Hsl. rewrite Hsl.
  cbn. unfold d. by rewrite string_bytes_string.
Qed.

Section DialFacts.
  Context {I : Type}.

Lemma dial_loop_spec cfg (dial : Transport -> res I) order : forall de tried,
  NoDup order -> (forall t, t ∈ order -> dial_err_of de t = None) ->
  match dial_loop cfg dial order de tried with
  | (inl (inl c), tried') => exists pre t post inner, order = pre ++ t :: post /\ enabled cfg t = true /\ dial t = Ok inner
      /\ c = newClient t inner /\ Forall (fun u => enabled cfg u = true -> exists e, dial u = Err e) pre
      /\ tried' = tried ++ List.filter (enabled cfg) pre ++ [t]
  | (inl (inr de'), tried') => (forall t, t ∈ order -> if enabled cfg t then exists e, dial t = Err e /\ dial_err_of de' t = Some e
                                    else dial_err_of de' t = None)
      /\ (forall t, t ∉ order -> dial_err_of de' t = dial_err_of de t) /\ tried' = tried ++ List.filter (enabled cfg) order
  | (inr m, _) => exists t, t ∈ order /\ dial t = Panic m
  end.
Proof.
  induction order as [|t order IH]; intros de tried Hd Hn; cbn [dial_loop].
  { split_and!; [by intros t Ht%not_elem_of_nil|done|by rewrite app_nil_r]. }
  apply NoDup_cons in Hd as [Hnt Hd]. destruct (enabled cfg t) eqn:Ee; cbn [negb].
  - destruct (dial t) as [inner|e|m] eqn:Edial.
    + exists [], t, order, inner. split_and!; done.
    + assert (Hn' : forall u, u ∈ order -> dial_err_of (set_dial_err de t e) u = None).
      { intros u Hu. assert (u <> t) by (by intros ->). specialize (Hn u ltac:(by right)). by destruct t, u. }
      specialize (IH (set_dial_err de t e) (tried ++ [t]) Hd Hn').
      destruct (dial_loop _ _ _ _ _) as [[[c|de']|m] tr].
      * destruct IH as (pre & u & post & inner & -> & ? & ? & -> & ? & ->). exists (t :: pre), u, post, inner.
        split_and!; try done; [constructor; eauto|]. cbn [List.filter]. rewrite Ee. by rewrite <- app_assoc.
      * destruct IH as (H1 & H2 & ->). split_and!.
        -- intros u [->|Hu]%elem_of_cons; [|by apply H1]. rewrite Ee. exists e. split; [done|]. rewrite H2 by done. by destruct t.
        -- intros u Hu%not_elem_of_cons. destruct Hu as [Hu1 Hu2]. rewrite H2 by done. by destruct t, u.
        -- cbn [List.filter]. rewrite Ee. by rewrite <- app_assoc.
      * destruct IH as (u & Hu & ?). exists u. split; [by right|done].
    + exists t. split; [by left|done].
  - specialize (IH de tried Hd ltac:(intros u Hu; apply Hn; by right)).
    destruct (dial_loop _ _ _ _ _) as [[[c|de']|m] tr].
    + destruct IH as (pre & u & post & inner & -> & ? & ? & -> & ? & ->). exists (t :: pre), u, post, inner.
      split_and!; try done; [constructor; [by rewrite Ee|done]|]. cbn [List.filter]. by rewrite Ee.
    + destruct IH as (H1 & H2 & ->). split_and!.
      * intros u [->|Hu]%elem_of_cons; [|by apply H1]. rewrite Ee, H2 by done. apply Hn. by left.
      * intros u Hu%not_elem_of_cons. apply H2. tauto.
      * cbn [List.filter]. by rewrite Ee.
    + destruct IH as (u & Hu & ?). exists u. split; [by right|done].
Qed.

Lemma dial_order_all cfg : NoDup (dial_order cfg) /\ forall t, t ∈ dial_order cfg.
Proof.
  unfold dial_order. destruct (PreferQUIC cfg); (split; [apply (bool_decide_unpack _); by vm_compute|]);
    intros []; apply (bool_decide_unpack _); by vm_compute.
Qed.

(** The ids handed out, from the one after the last. *)
Lemma take_flow_ids_seq n : forall c : Client I,
  0 <= nextFlow c -> nextFlow c + Z.of_nat n < 2 ^ 64 -> take_flow_ids n c = seqZ (nextFlow c + 1) (Z.of_nat n).
Proof.
  induction n as [|n IH]; intros c H0 Hn; [done|]. cbn [take_flow_ids take_flow_id].
  rewrite (u64_small (nextFlow c + 1)) by (unfold is_u64; lia). rewrite IH by (cbn [nextFlow]; lia). cbn [nextFlow].
  rewrite (seqZ_cons _ (Z.of_nat (S n))) by lia. f_equal. f_equal; lia.
Qed.

(** ** Theorems *)

(** [Dial] uses the transport its configuration prefers among those that work: it returns a client
    on the first enabled transport, in order of preference, whose dial succeeds, after every
    enabled transport before it failed, and it dials nothing else; when it fails, every enabled
    transport failed and the error names exactly those; a disabled transport is never dialled. *)
Theorem dial_fallback cfg (dial : Transport -> res I) :
  match Dial cfg dial with
  | (inl (inl c), tried) => exists pre t post inner, dial_order cfg = pre ++ t :: post /\ enabled cfg t = true /\ dial t = Ok inner
      /\ c = newClient t inner /\ Forall (fun u => enabled cfg u = true -> exists e, dial u = Err e) pre
      /\ tried = List.filter (enabled cfg) pre ++ [t]
  | (inl (inr de), tried) => (forall t, if enabled cfg t then exists e, dial t = Err e /\ dial_err_of de t = Some e
                                    else dial_err_of de t = None)
      /\ tried = List.filter (enabled cfg) (dial_order cfg)
  | (inr m, _) => exists t, dial t = Panic m
  end.
Proof.
  destruct (dial_order_all cfg) as [Hd Hall]. unfold Dial.
  pose proof (dial_loop_spec cfg dial (dial_order cfg) (mkDialError None None None) [] Hd ltac:(by intros [] _)) as H.
  destruct (dial_loop _ _ _ _ _) as [[[c|de]|m] tr].
  - exact H.
  - destruct H as (H1 & _ & ->). split; [|done]. intros t. apply H1, Hall.
  - destruct H as (t & _ & ?). by exists t.
Qed.

(** The flow ids of a client are never used twice: they count up from 1001. *)
Theorem client_flow_ids_distinct n (t : Transport) (inner : I) :
  Z.of_nat n < 2 ^ 64 - 1000 ->
  take_flow_ids n (newClient t inner) = seqZ 1001 (Z.of_nat n) /\ NoDup (take_flow_ids n (newClient t inner)).
Proof.
  intros Hn. assert (E : take_flow_ids n (newClient t inner) = seqZ 1001 (Z.of_nat n)) by (apply take_flow_ids_seq; cbn; lia).
  split; [exact E|]. rewrite E. apply NoDup_seqZ.
Qed.
End DialFacts.

Section ClientAuth.
  Context {P : Type} `{SecretProvider P}.
  Implicit Types srv : Server P.

Lemma client_auth_payload_wf cfg caps now nonce :
  is_u64 caps -> zlen nonce = 16 -> small_bytes (bytes_of_string (cc_ClientID cfg)) ->
  wf_auth (client_auth_payload cfg caps now nonce).
Proof.
  intros Hc Hn Hs. unfold wf_auth, client_auth_payload. cbn [TSMS Caps Frame.ClientID Nonce Sig]. split_and!; [apply u64_range|done|done| |].
  - unfold small_bytes, maxAlloc. lia.
  - unfold small_bytes, maxAlloc, signSession, zlen. rewrite length_hmac_sha256. lia.
Qed.

Lemma auth_payload_small cfg caps now nonce :
  zlen nonce = 16 -> zlen (bytes_of_string (cc_ClientID cfg)) <= 4096 ->
  small_bytes (EncodeAuthPayload (client_auth_payload cfg caps now nonce)).
Proof.
  intros Hn Hs. unfold small_bytes, EncodeAuthPayload, writeString, client_auth_payload. cbn [TSMS Caps Frame.ClientID Nonce Sig].
  rewrite !writeBytes_eq, !zlen_app, !zlen_be_put, Hn. unfold signSession.
  assert (Hsig : zlen (hmac_sha256 (cc_Secret cfg) (SessionAuthMaterial (cc_ClientID cfg) (u64 (now / Millisecond)) nonce caps)) = 32)
    by (unfold zlen; by rewrite length_hmac_sha256).
  rewrite Hsig. pose proof (zlen_PutUvarint (zlen (bytes_of_string (cc_ClientID cfg)))). pose proof (zlen_PutUvarint 16). pose proof (zlen_PutUvarint 32).
  unfold maxAlloc. lia.
Qed.

(** C7: A configured client gets in: what [auth] writes on a new connection, read by the gateway from a
    stream that continues with anything, authenticates the client when the gateway holds the same
    secret, the clocks agree within the allowed skew and the random nonce was not used lately; and
    the AUTH_OK the gateway answers completes [auth] without error. *)
Theorem client_authenticates srv cfg caps now_c now_s nonce rest fin id :
  wf_ttl (rc_ttl (v_replay (sr_verifier srv))) -> 0 <= v_clockSkew (sr_verifier srv) < maxDuration ->
  caps = quic_caps \/ caps = tcp_caps -> zlen nonce = 16 ->
  cc_ClientID cfg <> "" -> zlen (bytes_of_string (cc_ClientID cfg)) <= 4096 ->
  SecretFor (v_secrets (sr_verifier srv)) (cc_ClientID cfg) = Ok (cc_Secret cfg) ->
  0 <= now_c -> now_c / Millisecond < 2 ^ 63 ->
  Z.abs (now_s - UnixMilli (now_c / Millisecond)) <= v_clockSkew (sr_verifier srv) ->
  fresh_nonce (v_replay (sr_verifier srv)) (cc_ClientID cfg) (string_of_bytes (hex_encode nonce)) now_s ->
  exists f, ReadFrame (Reader (w_out (client_auth cfg caps now_c (Ok nonce) (Writer [] None) (Err EEOF)).1 ++ rest) fin) = Ok (f, Reader rest fin)
    /\ (check_first_frame srv now_s (Ok f)).2 = AuthOK (cc_ClientID cfg)
    /\ (client_auth cfg caps now_c (Ok nonce) (Writer [] None) (Ok (mkFrame FrameAUTHOK (auth_ok_payload srv id)))).2 = Ok tt.
Proof.
  intros Ht Hk Hcaps Hn Hid Hlen Hsec Hnow0 Hnow Hskew Hfresh. set (p := client_auth_payload cfg caps now_c nonce).
  assert (Hts : u64 (now_c / Millisecond) = now_c / Millisecond).
  { apply u64_small. unfold is_u64. pose proof (Z.div_pos now_c Millisecond Hnow0 ltac:(done)). lia. }
  exists (mkFrame FrameAUTH (EncodeAuthPayload p)).
  destruct (AUTH_frame_accepted srv now_s p rest fin (Sig p) Ht Hk) as [Hr Hc].
  - apply client_auth_payload_wf; [destruct Hcaps as [->| ->]; unfold is_u64, quic_caps, tcp_caps; lia|done|].
    unfold small_bytes, maxAlloc. lia.
  - by apply auth_payload_small.
  - done.
  - cbn [p client_auth_payload Nonce]. lia.
  - unfold SignSession. cbn [p client_auth_payload Frame.ClientID TSMS Nonce Caps Sig]. by rewrite Hsec.
  - done.
  - cbn [p client_auth_payload TSMS]. rewrite Hts, int64_small; [done|]. unfold is_int64. pose proof (Z.div_pos now_c Millisecond Hnow0 ltac:(done)). lia.
  - done.
  - unfold client_auth. fold p. rewrite WriteFrame_unbounded in Hr |- *. cbn [fst snd] in Hr |- *. split_and!; [exact Hr|exact Hc|done].
Qed.

(** A refused client learns why: whatever the gateway answers to a first frame it does not accept,
    [auth] returns an error with the reason the gateway sent. *)
Theorem client_sees_refusal srv now first srv' f err :
  check_first_frame srv now first = (srv', AuthFailed (Some f) err) ->
  exists reason, auth_reply (Ok f) = Err (ENew ("AUTH failed: " ++ reason)%string)
    /\ reason ∈ ["first frame must be AUTH"; "invalid AUTH payload"; "AUTH verification failed"].
Proof.
  assert (Hd : forall reason, reason ∈ ["first frame must be AUTH"; "invalid AUTH payload"; "AUTH verification failed"] ->
    auth_reply (Ok (mkFrame FrameAUTHFAIL (EncodeAuthFail reason))) = Err (ENew ("AUTH failed: " ++ reason)%string)).
  { intros reason Hr. unfold auth_reply. cbn [frame_type frame_payload]. change (FrameAUTHFAIL =? FrameAUTHFAIL) with true. cbn match.
    rewrite decodeAuthFailReason_encode; [done|]. unfold small_bytes.
    repeat (apply elem_of_cons in Hr as [->|Hr]; [vm_compute; congruence|]). by apply not_elem_of_nil in Hr. }
  unfold check_first_frame, auth_fail. intros E. repeat case_in E; simplify_eq; (eexists; split; [apply Hd|]); set_solver.
Qed.
End ClientAuth.

(** A length of 2^64 - 1 in a failure reply makes the client slice backwards: ten bytes of AUTH_FAIL
    payload, or eighteen of OPEN_TCP_FAIL, end the client process. *)
Theorem hostile_reply_panics_client :
  is_panic (auth_reply (Ok (mkFrame FrameAUTHFAIL (PutUvarint (2 ^ 64 - 1))))) = true
  /\ is_panic (decodeFailPayload (be_put 8 1001 ++ PutUvarint (2 ^ 64 - 1))) = true.
Proof. split; vm_compute; reflexivity. Qed.

(** ** Witnesses *)

Lemma client_flow_ids_distinct_witness :
  take_flow_ids 3 (newClient TransportQUIC tt) = [1001; 1002; 1003] /\ NoDup (take_flow_ids 3 (newClient TransportQUIC tt)).
Proof. apply (client_flow_ids_distinct 3 TransportQUIC tt). vm_compute. reflexivity. Defined.

Definition ex_nonce16 : list byte := bytes_of_string "0123456789abcdef".
Definition ex_dev_config : ClientConfig :=
  mkClientConfig "gw.example" "gw.example" 443 443 "http://gw.example:8080" "dev" (bytes_of_string "s3cret") "vlf-runtime/0.1"
    ["vlf-runtime/0.1"] "" "gw.example" 1200 (1800 * Millisecond) (1800 * Millisecond) true false false true false false.

Lemma client_authenticates_witness :
  exists f, ReadFrame (Reader (w_out (client_auth ex_dev_config quic_caps (UnixMilli 1000001) (Ok ex_nonce16) (Writer [] None) (Err EEOF)).1 ++ []) EEOF)
      = Ok (f, Reader [] EEOF)
    /\ (check_first_frame ex_auth_server (UnixMilli 1000000) (Ok f)).2 = AuthOK "dev"
    /\ (client_auth ex_dev_config quic_caps (UnixMilli 1000001) (Ok ex_nonce16) (Writer [] None)
          (Ok (mkFrame FrameAUTHOK (auth_ok_payload ex_auth_server 1)))).2 = Ok tt.
Proof.
  refine (client_authenticates ex_auth_server ex_dev_config quic_caps (UnixMilli 1000001) (UnixMilli 1000000) ex_nonce16 [] EEOF 1
            _ _ _ _ _ _ _ _ _ _ _).
  - split; vm_compute; congruence.
  - split; vm_compute; congruence.
  - by left.
  - reflexivity.
  - discriminate.
  - vm_compute. congruence.
  - vm_compute. reflexivity.
  - vm_compute. congruence.
  - vm_compute. reflexivity.
  - vm_compute. congruence.
  - intros t Hs. vm_compute in Hs. discriminate Hs.
Defined.

Lemma client_sees_refusal_witness :
  exists reason, auth_reply (Ok (mkFrame FrameAUTHFAIL (EncodeAuthFail "first frame must be AUTH"))) = Err (ENew ("AUTH failed: " ++ reason)%string)
    /\ reason ∈ ["first frame must be AUTH"; "invalid AUTH payload"; "AUTH verification failed"].
Proof. eapply (client_sees_refusal ex_auth_server 0 (Ok (mkFrame FramePING []))). reflexivity. Defined.
