(* ===== verification/ClientRelay.v ===== *)
(** * The client library: the HTTP relay transport ([internal/sessionclient/relay_client.go])

    A request is what the client hands to [net/http]: method, path with query, headers and body. What
    [httpClient.Do] returns, the status and the body, is an argument. The gateway sees the request
    through [as_received]. JSON texts are left to [encoding/json]: [Unmarshal] is what the decoder
    makes of a body. *)

From S2P Require Import Prelude GoString Crypto Auth RingBuffer RelayConn RelayManager RelayHTTP ClientConfig.

Record client_request := mkClientRequest {
  cr_method : string; cr_url : string; cr_fullPath : string; cr_headers : list (string * string); cr_body : list byte }.

Record relayClient := mkRelayClient { rl_cfg : ClientConfig; rl_baseURL : string }.

(** [strings.TrimRight(s, "/")]. *)
Definition TrimRight_slash (s : string) : string :=
  string_of_bytes (rev (drop_while (ch 47) (rev (bytes_of_string s)))).

Definition dialRelay (cfg : ClientConfig) : relayClient :=
  let baseURL := TrimRight_slash (RelayBase cfg) in
  let baseURL := if String.eqb baseURL "" then ("http://" ++ GatewayHost cfg ++ ":8080")%string else baseURL in
  mkRelayClient cfg baseURL.

(** [url.QueryEscape]. *)
Definition unreserved (c : byte) : bool :=
  is_digit c || is_upper c || is_lower c || ch 45 c || ch 46 c || ch 95 c || ch 126 c.
Definition escape_byte (c : byte) : list byte :=
  if unreserved c then [c] else if ch 32 c then [x2b] else x25 :: map upper_byte (hex_byte c).
Definition QueryEscape (s : string) : string := string_of_bytes (concat (map escape_byte (bytes_of_string s))).

(** [newRelayNonce], with the counter after the increment. *)
Definition newRelayNonce (seq now : Z) (random : option (list byte)) : string :=
  string_of_bytes (match random with
                   | Some buf => hex_encode buf
                   | None => FormatInt now
                   end ++ x2d :: FormatHex seq).

Definition signHex (secret payload : list byte) : string := string_of_bytes (hex_encode (hmac_sha256 secret payload)).

(** The path before the query. *)
Definition signed_path (fullPath : string) : string :=
  match index_byte x3f (bytes_of_string fullPath) with
  | Some idx => string_of_bytes (take idx (bytes_of_string fullPath))
  | None => fullPath
  end.

(** [fmt.Sprintf("%s|%s|%d|%s|%s", ...)]. *)
Definition client_material (method path : string) (ts : Z) (nonce : string) (bodyHash : list byte) : list byte :=
  bytes_of_string method ++ bar :: bytes_of_string path ++ bar :: FormatInt ts ++ bar :: bytes_of_string nonce ++ bar :: bodyHash.

(** The headers [signedRequest] sets. *)
Definition signed_headers (clientID ts nonce sig method : string) : list (string * string) :=
  [("X-VLF-Client", clientID); ("X-VLF-TS", ts); ("X-VLF-Nonce", nonce); ("X-VLF-Sig", sig)]
  ++ if String.eqb method "POST" then [("Content-Type", "application/octet-stream")] else [].

Section RelayClient.
  (** [http.NewRequestWithContext] refuses an URL that does not parse. *)
  Context (bad_url : string -> option goerr).

(** What one request takes from outside: the time and the random bytes. *)
Record occasion := mkOccasion { oc_now : Z; oc_random : option (list byte) }.

(** [signedRequest], with the nonce counter. *)
Definition signedRequest (c : relayClient) (seq : Z) (at_ : occasion) (method fullPath : string) (body : list byte)
  : Z * res client_request :=
  let signedPath := signed_path fullPath in
  let ts := oc_now at_ / Millisecond in
  let seq := u64 (seq + 1) in
  let nonce := newRelayNonce seq (oc_now at_) (oc_random at_) in
  let bodyHash := HashBody body in
  let sig := signHex (cc_Secret (rl_cfg c)) (client_material method signedPath ts nonce bodyHash) in
  let url := (rl_baseURL c ++ fullPath)%string in
  match bad_url url with
  | Some e => (seq, Err e)
  | None =>
      (seq, Ok (mkClientRequest method url fullPath
        (signed_headers (cc_ClientID (rl_cfg c)) (string_of_bytes (FormatInt ts)) nonce sig method) body))
  end.

Definition http_answer : Type := res (Z * list byte).

Definition doRaw (c : relayClient) (seq : Z) (at_ : occasion) (method fullPath : string) (body : list byte)
    (Do : client_request -> http_answer) : Z * res (list byte) :=
  let '(seq, req) := signedRequest c seq at_ method fullPath body in
  (seq, req ← req; '(status, raw) ← Do req;
        if (status <? 200) || (300 <=? status) then Err (ENew "status") else Ok raw).

Definition doJSON {A} (Unmarshal : list byte -> res A) (c : relayClient) (seq : Z) (at_ : occasion) (method fullPath : string)
    (body : list byte) (Do : client_request -> http_answer) : Z * res A :=
  let '(seq, raw) := doRaw c seq at_ method fullPath body Do in
  (seq, raw ← raw; wrap_err "decode json" (Unmarshal raw)).

(** A flow of the relay. *)
Record relayTCPFlow := mkRelayFlow { rf_id : Z; rf_connID : string; rf_readBuf : list byte; rf_closed : bool }.

(** [openTCPFlow]: [request_body] is the JSON text of the request, [conn_id] what the answer names. *)
Definition relay_openTCPFlow (conn_id : list byte -> res string) (c : relayClient) (seq : Z) (at_ : occasion) (flowID : Z)
    (request_body : list byte) (Do : client_request -> http_answer) : Z * res relayTCPFlow :=
  let '(seq, resp) := doJSON conn_id c seq at_ "POST" "/v1/relay/open" request_body Do in
  (seq, connID ← resp;
        if String.eqb connID "" then Err (ENew "relay open returned empty conn_id") else Ok (mkRelayFlow flowID connID [] false)).

(** [relayTCPFlow.Write]: the number of bytes it says it wrote. *)
Definition relay_Write (accepted : list byte -> res Z) (c : relayClient) (seq : Z) (at_ : occasion) (f : relayTCPFlow) (p : list byte)
    (Do : client_request -> http_answer) : Z * res Z :=
  if zlen p =? 0 then (seq, Ok 0)
  else
    let '(seq, resp) := doJSON accepted c seq at_ "POST" ("/v1/relay/send?conn_id=" ++ QueryEscape (rf_connID f))%string p Do in
    (seq, accepted ← resp; if accepted <=? 0 then Err (ENew "relay send accepted=0") else Ok (zlen p)).

(** [bytes.Buffer.Read] into [n] bytes; the error of an empty buffer is ignored by the code. *)
Definition buf_read (f : relayTCPFlow) (n : Z) : relayTCPFlow * list byte :=
  (mkRelayFlow (rf_id f) (rf_connID f) (zdrop n (rf_readBuf f)) (rf_closed f), ztake n (rf_readBuf f)).

Definition recv_path (f : relayTCPFlow) : string :=
  ("/v1/relay/recv?conn_id=" ++ QueryEscape (rf_connID f) ++ "&max=32768")%string.

(** The attempts of [relayTCPFlow.Read], at most 100, [fuel] left. *)
Fixpoint read_attempts (fuel : nat) (c : relayClient) (seq : Z) (at_ : nat -> occasion) (f : relayTCPFlow) (n : Z)
    (Do : nat -> client_request -> http_answer) : Z * relayTCPFlow * res (list byte) :=
  match fuel with
  | O => (seq, f, Err EEOF)
  | S fuel =>
      let '(seq, req) := signedRequest c seq (at_ fuel) "GET" (recv_path f) [] in
      match req ≫= Do fuel with
      | Err e => (seq, f, Err e)
      | Panic m => (seq, f, Panic m)
      | Ok (status, raw) =>
          if status =? 204 then read_attempts fuel c seq at_ f n Do
          else if negb (status =? 200) then (seq, f, Err (ENew "relay recv status"))
          else
            let f := mkRelayFlow (rf_id f) (rf_connID f) (rf_readBuf f ++ raw) (rf_closed f) in
            let '(f, out) := buf_read f n in (seq, f, Ok out)
      end
  end.

Definition relay_Read (c : relayClient) (seq : Z) (at_ : nat -> occasion) (f : relayTCPFlow) (n : Z)
    (Do : nat -> client_request -> http_answer) : Z * relayTCPFlow * res (list byte) :=
  if 0 <? zlen (rf_readBuf f) then let '(f, out) := buf_read f n in (seq, f, Ok out)
  else read_attempts 100 c seq at_ f n Do.

(** [relayTCPFlow.Close]: at most one request, its outcome ignored. *)
Definition relay_Close (c : relayClient) (seq : Z) (at_ : occasion) (f : relayTCPFlow) (Do : client_request -> http_answer)
  : Z * relayTCPFlow :=
  if rf_closed f then (seq, f)
  else
    let '(seq, _) := doRaw c seq at_ "POST" ("/v1/relay/close?conn_id=" ++ QueryEscape (rf_connID f))%string (bytes_of_string "{}") Do in
    (seq, mkRelayFlow (rf_id f) (rf_connID f) (rf_readBuf f) true).
End RelayClient.

(** [openUDPFlow], [probeRTT] and [close] of the relay client. *)
Definition relay_openUDPFlow : res unit := Err (ENew "udp is not supported in relay transport").
Definition relay_probeRTT : res Z := Err (ESentinel "rtt probe unsupported for current transport").

(** The request as the gateway's handler sees it, for a base URL without a path: the path before
    the query, and the first header of a name. *)
Definition header_of (headers : list (string * string)) (h : string) : string :=
  default "" (snd <$> find (fun kv => String.eqb kv.1 h) headers).
Definition as_received (query : string -> string) (r : client_request) : http_request :=
  mkRequest (cr_method r) (signed_path (cr_fullPath r)) query (header_of (cr_headers r)).

(** The answer of the gateway as [Do] returns it. *)
Definition answer_of (encode : json_payload -> list byte) (r : http_response) : http_answer :=
  Ok (hr_status r, match hr_body r with BEmpty => [] | BBytes b => b | BJson p => encode p | BLibrary _ => [] end).

(** ** Lemmas *)

Lemma newRelayNonce_bytes seq now random :
  is_u64 seq -> is_int64 now ->
  exists pre, newRelayNonce seq now random = string_of_bytes (pre ++ x2d :: FormatHex seq) /\ all_visible (pre ++ x2d :: FormatHex seq).
Proof.
  intros Hs Hn. destruct (FormatHex_spec seq Hs) as (H1 & _ & _). unfold newRelayNonce.
  eexists. split; [reflexivity|]. apply Forall_app. split.
  - destruct random; [apply hex_encode_visible|by apply FormatInt_visible].
  - constructor; done.
Qed.

Lemma newRelayNonce_inj s1 n1 r1 s2 n2 r2 :
  is_u64 s1 -> is_u64 s2 -> newRelayNonce s1 n1 r1 = newRelayNonce s2 n2 r2 -> s1 = s2.
Proof.
  intros H1 H2 E. unfold newRelayNonce in E. apply string_of_bytes_inj in E.
  destruct (FormatHex_spec s1 H1) as (_ & A1 & V1). destruct (FormatHex_spec s2 H2) as (_ & A2 & V2).
  apply last_separator_unique in E as [_ E]; [|done..]. by rewrite <- V1, <- V2, E.
Qed.

Lemma client_material_http method path ts nonce h :
  method = "GET" \/ method = "POST" -> client_material method path ts nonce h = http_material method path ts nonce h.
Proof. intros [-> | ->]; reflexivity. Qed.

Lemma signed_headers_lookup id ts nonce sig method :
  let h := header_of (signed_headers id ts nonce sig method) in
  h "X-VLF-Client" = id /\ h "X-VLF-TS" = ts /\ h "X-VLF-Nonce" = nonce /\ h "X-VLF-Sig" = sig.
Proof. split_and!; reflexivity. Qed.

Lemma nonempty_string_of_bytes l : l <> [] -> String.eqb (string_of_bytes l) "" = false.
Proof. intros Hl. apply String.eqb_neq. intros E. apply Hl. change ""%string with (string_of_bytes []) in E. by apply string_of_bytes_inj in E. Qed.

Section RelayClientFacts.
  Context {P : Type} `{SecretProvider P}.
  Implicit Types v : Verifier P.

Lemma check_replay_fresh v c n now :
  wf_ttl (rc_ttl (v_replay v)) -> fresh_nonce (v_replay v) c n now -> (check_replay v c n now).2 = None.
Proof.
  intros Ht Hf. rewrite check_replay_err, CheckAndStore_result by done. unfold fresh_nonce in Hf.
  destruct (seen (v_replay v) c n) as [t|]; [|done]. specialize (Hf t eq_refl). destruct (_ <? t) eqn:E; zbool; [lia|done].
Qed.

(** A request whose headers carry the signature over its own method, path, time, nonce and body
    authenticates, whatever else it carries. *)
Lemma signed_headers_verify v now (r : http_request) id secret ts nonce body :
  wf_ttl (rc_ttl (v_replay v)) -> 0 <= v_clockSkew v < maxDuration -> rq_method r = "GET" \/ rq_method r = "POST" ->
  TrimSpace id = id -> id <> "" -> SecretFor (v_secrets v) id = Ok secret -> is_int64 ts -> Z.abs (now - UnixMilli ts) <= v_clockSkew v ->
  nonce <> [] -> all_visible nonce -> fresh_nonce (v_replay v) id (string_of_bytes nonce) now ->
  rq_header r "X-VLF-Client" = id -> rq_header r "X-VLF-TS" = string_of_bytes (FormatInt ts) -> rq_header r "X-VLF-Nonce" = string_of_bytes nonce ->
  rq_header r "X-VLF-Sig" = signHex secret (client_material (rq_method r) (rq_path r) ts (string_of_bytes nonce) (HashBody body)) ->
  (VerifyHTTP v now r body).2 = Ok id.
Proof.
  intros Ht Hk Hm Htrim Hid Hsec Hts Hskew Hne Hv Hfresh Hh1 Hh2 Hh3 Hh4. unfold VerifyHTTP. set (sig := signHex _ _) in *. cbn zeta.
  rewrite Hh1, Hh2, Hh3, Hh4, Htrim. rewrite (TrimSpace_visible (FormatInt ts)) by (by apply FormatInt_visible). rewrite (TrimSpace_visible nonce) by done.
  assert (Hst : TrimSpace sig = sig) by (apply TrimSpace_visible, hex_encode_visible). rewrite Hst.
  rewrite (proj2 (String.eqb_neq _ _) Hid), (nonempty_string_of_bytes nonce) by done. rewrite (nonempty_string_of_bytes (FormatInt ts)).
  2: { intros E. pose proof (ParseInt_FormatInt ts Hts) as Hp. by rewrite E in Hp. }
  assert (String.eqb sig "" = false) as ->.
  { apply nonempty_string_of_bytes. intros E. apply (f_equal (fun l => hex_decode l)) in E. rewrite hex_decode_encode in E. injection E as E.
    apply (f_equal length) in E. by rewrite length_hmac_sha256 in E. }
  cbn [orb]. rewrite bytes_string_bytes, ParseInt_FormatInt by done. rewrite skew_within by (done || lia). rewrite Hsec.
  unfold sig, signHex. rewrite bytes_string_bytes, hex_decode_encode. rewrite client_material_http by done.
  unfold computeHMAC. rewrite hmac_Equal_refl. cbn [negb]. pose proof (check_replay_fresh v _ _ _ Ht Hfresh) as Hc.
  destruct (check_replay v _ _ now) as [v' err]. cbn [snd] in Hc. by subst err.
Qed.

(** The relay requests of a client authenticate at the gateway: the request that [signedRequest]
    builds, for any path, query and body, passes [VerifyHTTP] when the gateway holds the same secret,
    the clocks agree and the nonce was not used lately; and two requests of one process
    never use the same nonce, even when the random source repeats itself or fails. *)
Theorem relay_request_accepted bad_url v c seq at_ method fullPath body query now seq' req :
  wf_ttl (rc_ttl (v_replay v)) -> 0 <= v_clockSkew v < maxDuration ->
  signedRequest bad_url c seq at_ method fullPath body = (seq', Ok req) ->
  method = "GET" \/ method = "POST" ->
  TrimSpace (cc_ClientID (rl_cfg c)) = cc_ClientID (rl_cfg c) -> cc_ClientID (rl_cfg c) <> "" ->
  SecretFor (v_secrets v) (cc_ClientID (rl_cfg c)) = Ok (cc_Secret (rl_cfg c)) ->
  is_int64 (oc_now at_) -> Z.abs (now - UnixMilli (oc_now at_ / Millisecond)) <= v_clockSkew v ->
  fresh_nonce (v_replay v) (cc_ClientID (rl_cfg c)) (newRelayNonce seq' (oc_now at_) (oc_random at_)) now ->
  (VerifyHTTP v now (as_received query req) body).2 = Ok (cc_ClientID (rl_cfg c))
  /\ (forall seq2 now2 random2, is_u64 seq2 -> seq2 <> seq' ->
        newRelayNonce seq2 now2 random2 <> newRelayNonce seq' (oc_now at_) (oc_random at_)).
Proof.
  intros Ht Hk E Hm Htrim Hid Hsec Hnow Hskew Hfresh. unfold signedRequest in E. cbn zeta in E. destruct (bad_url _); [done|]. injection E as <- <-.
  assert (Hs : is_u64 (u64 (seq + 1))) by apply u64_range. set (s := u64 (seq + 1)) in *.
  split; [|intros seq2 now2 random2 H2 Hne Heq; apply Hne; by eapply newRelayNonce_inj].
  set (ts := oc_now at_ / Millisecond) in *. set (nonce := newRelayNonce s (oc_now at_) (oc_random at_)) in *.
  assert (Hts : is_int64 ts).
  { unfold ts, is_int64, Millisecond in *. split; [apply Z.div_le_lower_bound; lia|apply Z.div_lt_upper_bound; lia]. }
  destruct (newRelayNonce_bytes s (oc_now at_) (oc_random at_) Hs Hnow) as (pre & En & Hv).
  destruct (signed_headers_lookup (cc_ClientID (rl_cfg c)) (string_of_bytes (FormatInt ts)) nonce
    (signHex (cc_Secret (rl_cfg c)) (client_material method (signed_path fullPath) ts nonce (HashBody body))) method) as (Hh1 & Hh2 & Hh3 & Hh4).
  unfold nonce in *. rewrite En in *. apply (signed_headers_verify v now _ _ (cc_Secret (rl_cfg c)) ts (pre ++ x2d :: FormatHex s)); try done. by destruct pre.
Qed.
End RelayClientFacts.

(** ** Reading and writing *)

Section RelayFlows.
  Context (bad_url : string -> option goerr).

Lemma read_attempts_spec c at_ n Do fuel : forall seq f seq' f' out,
  read_attempts bad_url fuel c seq at_ f n Do = (seq', f', Ok out) ->
  exists k req raw, (k < fuel)%nat /\ Do k req = Ok (200, raw) /\ out = ztake n (rf_readBuf f ++ raw) /\ rf_readBuf f' = zdrop n (rf_readBuf f ++ raw).
Proof.
  induction fuel as [|fuel IH]; intros seq f seq' f' out E; cbn [read_attempts] in E; [done|].
  destruct (signedRequest _ _ _ _ _ _ _) as [s1 req]. destruct (req ≫= Do fuel) as [[status raw]| |] eqn:Ed; [|done..].
  apply res_bind_Ok in Ed as (rq & -> & Ed). destruct (status =? 204) eqn:E4; zbool.
  - subst status. destruct (IH _ _ _ _ _ E) as (k & rq' & raw' & Hk & Hd & Ho & Hb). exists k, rq', raw'. split_and!; [lia|done..].
  - destruct (status =? 200) eqn:E2; cbn [negb] in E; [|done]. zbool. subst status. injection E as <- <- <-.
    exists fuel, rq, raw. cbn [buf_read rf_readBuf]. split_and!; [lia|done..].
Qed.

(** Bytes come out of a relay flow as the gateway sent them: a successful [Read] returns at most
    the bytes asked for; what it returns and what it keeps are together what it had before followed
    by the body of one answer, or by nothing when it had bytes left; and it polls at most 100 times. *)
Theorem relay_read_stream c seq at_ f n Do seq' f' out :
  0 <= n -> relay_Read bad_url c seq at_ f n Do = (seq', f', Ok out) ->
  zlen out <= n /\ exists received, out ++ rf_readBuf f' = rf_readBuf f ++ received
    /\ (received = [] \/ rf_readBuf f = [] /\ exists k req, (k < 100)%nat /\ Do k req = Ok (200, received)).
Proof.
  intros Hn E. unfold relay_Read in E. destruct (0 <? zlen (rf_readBuf f)) eqn:Eb; zbool.
  - injection E as <- <- <-. split; [rewrite zlen_ztake by done; lia|]. exists []. cbn [rf_readBuf]. rewrite ztake_zdrop, app_nil_r. auto.
  - assert (Hb : rf_readBuf f = []) by (apply zlen_zero; pose proof (zlen_nonneg (rf_readBuf f)); lia).
    destruct (read_attempts_spec _ _ _ _ _ _ _ _ _ _ E) as (k & req & raw & Hk & Hd & -> & ->).
    split; [rewrite zlen_ztake by done; lia|]. exists raw. rewrite ztake_zdrop. split; [done|]. right. eauto.
Qed.

(** At the end of the stream the client reads nothing, for ever: the gateway answers a finished
    connection with status 200, an empty body and the X-VLF-EOS header, the client does not look at
    the header, and [Read] returns no bytes and no error, never [io.EOF]. *)
Theorem relay_client_misses_eof {P} `{SecretProvider P} encode (s : RelayServer (P := P)) where_ clientID r body max m c seq at_ f n Do :
  rq_method r = "GET" -> query_conn_id r <> "" -> query_max r = Ok max ->
  Manager_Recv (sv_manager s) (at_now where_) clientID (query_conn_id r) max = Some (m, Ok ([], true)) ->
  (forall u, bad_url u = None) -> rf_readBuf f = [] ->
  (forall req s' resp, handleRecv s where_ clientID r body = Some (s', resp) -> Do 99%nat req = answer_of encode resp) ->
  (exists s' resp, handleRecv s where_ clientID r body = Some (s', resp) /\ hr_status resp = 200 /\ header_of (hr_headers resp) "X-VLF-EOS" = "1")
  /\ exists seq', relay_Read bad_url c seq at_ f n Do = (seq', f, Ok []).
Proof.
  intros Hm Hq Hmax Hrecv Hu Hb HDo.
  assert (Hh : exists resp, handleRecv s where_ clientID r body = Some (with_manager s m, resp)
    /\ hr_status resp = 200 /\ hr_body resp = BEmpty /\ header_of (hr_headers resp) "X-VLF-EOS" = "1").
  { unfold handleRecv. rewrite Hm. cbn [String.eqb negb]. change (negb (String.eqb "GET" "GET")) with false. cbn match.
    rewrite (proj2 (String.eqb_neq _ _) Hq), Hmax, Hrecv. cbn. eexists. split; [reflexivity|done]. }
  destruct Hh as (resp & Hh & Hst & Hbody & Heos). split; [eauto|].
  unfold relay_Read. rewrite Hb. change (0 <? zlen (@nil byte)) with false. cbn match.
  change 100%nat with (S 99). cbn [read_attempts]. unfold signedRequest. cbn zeta. rewrite Hu.
  set (req := mkClientRequest _ _ _ _ _). change (Ok req ≫= Do 99%nat) with (Do 99%nat req). rewrite (HDo req _ _ Hh).
  unfold answer_of. rewrite Hst, Hbody. cbn [Z.eqb Pos.eqb negb]. eexists. unfold buf_read. cbn [rf_readBuf rf_id rf_connID rf_closed].
  rewrite Hb. cbn [app]. unfold zdrop, ztake. rewrite drop_nil, take_nil. destruct f; cbn in *; by subst.
Qed.

(** A write over the relay reports more than was taken: when the gateway accepts only a part of the
    payload, because its send window is full, [Write] still returns the whole length and no error, so
    the caller never sends the rest. *)
Theorem relay_write_overreports accepted encode c seq at_ f p Do resp :
  accepted (encode (JSend resp)) = Ok (Accepted resp) ->
  (forall u, bad_url u = None) -> (forall req, Do req = answer_of encode (writeJSON StatusOK (JSend resp))) ->
  0 < Accepted resp < zlen p ->
  exists seq', relay_Write bad_url accepted c seq at_ f p Do = (seq', Ok (zlen p)).
Proof.
  intros Hj Hu HDo Ha. unfold relay_Write. zdecide. unfold doJSON, doRaw, signedRequest. cbn zeta. rewrite Hu.
  set (req := mkClientRequest _ _ _ _ _). cbn [mbind res_bind]. rewrite (HDo req). unfold answer_of. cbn.
  rewrite Hj. cbn. zdecide. by eexists.
Qed.
End RelayFlows.

(** ** Witnesses *)

Definition ex_relay_config : ClientConfig :=
  mkClientConfig "gw.example" "gw.example" 443 443 "http://gw.example:8080/" "dev" (bytes_of_string "s3cret") "vlf-runtime/0.1"
    ["vlf-runtime/0.1"] "" "gw.example" 1200 (1800 * Millisecond) (1800 * Millisecond) true false false true false false.
Definition ex_relay_client : relayClient := dialRelay ex_relay_config.
Definition ex_occasion : occasion := mkOccasion (UnixMilli 1000001) (Some ex_nonce).
Definition ex_signed : client_request :=
  Eval vm_compute in match (signedRequest (fun _ => None) ex_relay_client 0 ex_occasion "POST" "/v1/relay/send?conn_id=c_1" [x68; x69]).2 with
                     | Ok r => r | _ => mkClientRequest "" "" "" [] [] end.

Lemma relay_request_accepted_witness :
  (VerifyHTTP ex_http_verifier (UnixMilli 1000000) (as_received (fun _ => "c_1") ex_signed) [x68; x69]).2 = Ok "dev".
Proof.
  refine (proj1 (relay_request_accepted (fun _ => None) ex_http_verifier ex_relay_client 0 ex_occasion "POST" "/v1/relay/send?conn_id=c_1"
    [x68; x69] (fun _ => "c_1") (UnixMilli 1000000) 1 ex_signed _ _ _ _ _ _ _ _ _ _)).
  - split; vm_compute; congruence.
  - split; vm_compute; congruence.
  - vm_compute. reflexivity.
  - by right.
  - vm_compute. reflexivity.
  - discriminate.
  - vm_compute. reflexivity.
  - split; vm_compute; congruence.
  - vm_compute. congruence.
  - intros t Hs. vm_compute in Hs. discriminate Hs.
Defined.

Definition ex_rflow : relayTCPFlow := mkRelayFlow 1001 "c_1" [] false.

Lemma relay_read_stream_witness :
  zlen [x68; x69] <= 2 /\ exists received, [x68; x69] ++ [x21] = rf_readBuf ex_rflow ++ received
    /\ (received = [] \/ rf_readBuf ex_rflow = [] /\ exists (k : nat) (req : client_request), (k < 100)%nat
         /\ (if Nat.eqb k 99 then Ok (204, []) else Ok (200, [x68; x69; x21]) : http_answer) = Ok (200, received)).
Proof.
  refine (relay_read_stream (fun _ => None) ex_relay_client 0 (fun _ => ex_occasion) ex_rflow 2
    (fun k _ => if Nat.eqb k 99 then Ok (204, []) else Ok (200, [x68; x69; x21])) 2 (mkRelayFlow 1001 "c_1" [x21] false) [x68; x69] _ _);
    [vm_compute; congruence|vm_compute; reflexivity].
Defined.

Definition ex_mgr_eos : RelayManager := set_conn_map ex_mgr2 (MarkEOS <$> mg_conns ex_mgr2).
Definition ex_recv_request : http_request := mkRequest "GET" "/v1/relay/recv" (fun q => if String.eqb q "conn_id" then "c_1" else "") (fun _ => "").
Definition ex_eos_server : RelayServer := mkRelayServer ex_mgr_eos ex_http_verifier.
Definition ex_eos_resp : http_response :=
  Eval vm_compute in match handleRecv ex_eos_server ex_surroundings "dev" ex_recv_request [] with Some (_, r) => r | None => writeStatus 0 end.

Lemma relay_client_misses_eof_witness :
  exists seq', relay_Read (fun _ => None) ex_relay_client 0 (fun _ => ex_occasion) ex_rflow 4096
                 (fun _ _ => answer_of (fun _ => []) ex_eos_resp) = (seq', ex_rflow, Ok []).
Proof.
  eapply (relay_client_misses_eof (fun _ => None) (fun _ => []) ex_eos_server ex_surroundings "dev" ex_recv_request [] 32768);
    [reflexivity|discriminate|reflexivity|vm_compute; reflexivity|reflexivity|reflexivity|].
  intros req s' resp E. vm_compute in E. injection E as <- <-. reflexivity.
Defined.

Definition ex_json (j : json_payload) : list byte := match j with JSend r => FormatInt (Accepted r) | _ => [] end.

Lemma relay_write_overreports_witness :
  exists seq', relay_Write (fun _ => None) ParseInt ex_relay_client 0 ex_occasion ex_rflow [x68; x69]
                 (fun _ => answer_of ex_json (writeJSON StatusOK (JSend (mkSendResponse 1 65536)))) = (seq', Ok 2).
Proof.
  apply (relay_write_overreports (fun _ => None) ParseInt ex_json ex_relay_client 0 ex_occasion ex_rflow [x68; x69]
           (fun _ => answer_of ex_json (writeJSON StatusOK (JSend (mkSendResponse 1 65536)))) (mkSendResponse 1 65536));
    [vm_compute; reflexivity|reflexivity|reflexivity|split; vm_compute; reflexivity].
Defined.
