(* ===== verification/ClientTCP.v ===== *)
(** * The client library: sessions over TCP ([internal/sessionclient/tcp_session_client.go])

    The client of one TLS connection: openers that wait for an answer, round-trip probes, the loop
    that reads frames and hands data to the flows, and the flows the application reads and writes.
    A channel of capacity one is a [chan]; sending on a full channel blocks and on a closed one
    panics, which [outcome] tells apart. [readLoop] is two steps for a data frame, since the flow is
    looked up under the lock and the data is pushed after it: in between the data is in
    [tc_hand]. [ff_recv], [ff_read] and [ff_dropped] record what a flow was sent, what the
    application got, and whether a push found the queue full. *)

From S2P Require Import Prelude Wire Frame GoString Crypto Auth Limits Metrics Server Handshake Config ClientConfig Client.

Inductive outcome (A : Type) := Done (a : A) | Blocked | Crashed (msg : string).
Arguments Done {A} _.
Arguments Blocked {A}.
Arguments Crashed {A} _.

#[global] Instance outcome_bind : MBind outcome := fun A B f m =>
  match m with Done a => f a | Blocked => Blocked | Crashed s => Crashed s end.

(** A channel of capacity one. *)
Record chan (A : Type) := mkChan { ch_value : option A; ch_closed : bool }.
Arguments mkChan {A} _ _.
Arguments ch_value {A} _.
Arguments ch_closed {A} _.

Record openResult := mkOpenResult { or_ok : bool; or_err : option goerr }.

(** [dataCh] holds at most 1024 slices, [errCh] one error. *)
Record tcpFramedFlow := mkFlow {
  ff_buf : list byte; ff_data : list (list byte); ff_err : option goerr; ff_closed : bool;
  ff_recv : list byte; ff_read : list byte; ff_dropped : bool }.

(** Openers are keyed by kind ([true] for TCP) and flow id, probes by their token. *)
Record tcpSessionClient := mkTC {
  tc_out : writer; tc_done : bool;
  tc_opens : gmap (bool * Z) (chan openResult); tc_pending : gset (bool * Z);
  tc_pings : gmap string (chan (option goerr)); tc_pendingPing : gset string;
  tc_ready : gset Z; tc_flows : gset Z; tc_objs : gmap Z tcpFramedFlow; tc_hand : option (Z * list byte) }.

Definition tc_set_out (c : tcpSessionClient) (w : writer) : tcpSessionClient :=
  mkTC w (tc_done c) (tc_opens c) (tc_pending c) (tc_pings c) (tc_pendingPing c) (tc_ready c) (tc_flows c) (tc_objs c) (tc_hand c).
Definition tc_set_opens (c : tcpSessionClient) (m : gmap (bool * Z) (chan openResult)) (p : gset (bool * Z)) : tcpSessionClient :=
  mkTC (tc_out c) (tc_done c) m p (tc_pings c) (tc_pendingPing c) (tc_ready c) (tc_flows c) (tc_objs c) (tc_hand c).
Definition tc_set_pings (c : tcpSessionClient) (m : gmap string (chan (option goerr))) (p : gset string) : tcpSessionClient :=
  mkTC (tc_out c) (tc_done c) (tc_opens c) (tc_pending c) m p (tc_ready c) (tc_flows c) (tc_objs c) (tc_hand c).
Definition tc_set_flows (c : tcpSessionClient) (ready flows : gset Z) (objs : gmap Z tcpFramedFlow) : tcpSessionClient :=
  mkTC (tc_out c) (tc_done c) (tc_opens c) (tc_pending c) (tc_pings c) (tc_pendingPing c) ready flows objs (tc_hand c).
Definition tc_set_hand (c : tcpSessionClient) (h : option (Z * list byte)) : tcpSessionClient :=
  mkTC (tc_out c) (tc_done c) (tc_opens c) (tc_pending c) (tc_pings c) (tc_pendingPing c) (tc_ready c) (tc_flows c) (tc_objs c) h.
Definition tc_set_done (c : tcpSessionClient) : tcpSessionClient :=
  mkTC (Writer (w_out (tc_out c)) (Some 0)) true (tc_opens c) (tc_pending c) (tc_pings c) (tc_pendingPing c) (tc_ready c) (tc_flows c)
    (tc_objs c) (tc_hand c).
Definition tc_set_obj (c : tcpSessionClient) (id : Z) (f : tcpFramedFlow) : tcpSessionClient :=
  tc_set_flows c (tc_ready c) (tc_flows c) (<[id := f]> (tc_objs c)).

(** The client after [auth], before [readLoop] runs. *)
Definition new_tcp_client (w : writer) : tcpSessionClient := mkTC w false ∅ ∅ ∅ ∅ ∅ ∅ ∅ None.

Definition tc_writeFrame (c : tcpSessionClient) (frameType : Z) (payload : list byte) : tcpSessionClient * option goerr :=
  let '(w, err) := WriteFrame (tc_out c) frameType payload in (tc_set_out c w, err).

(** ** Channels of waiting callers *)

(** [ch <- v; close(ch)]. *)
Definition send_close {A} (ch : chan A) (v : A) : outcome (chan A) :=
  if ch_closed ch then Crashed "send on closed channel"
  else match ch_value ch with Some _ => Blocked | None => Done (mkChan (Some v) true) end.

(** [select { case ch <- v: default: }; close(ch)]. *)
Definition offer_close {A} (ch : chan A) (v : A) : outcome (chan A) :=
  if ch_closed ch then Crashed "send on closed channel"
  else Done (mkChan (Some (default v (ch_value ch))) true).

(** [resolvePendingTCP] and [resolvePendingUDP]. *)
Definition resolvePending (c : tcpSessionClient) (k : bool * Z) (out : openResult) : outcome tcpSessionClient :=
  if negb (bool_decide (k ∈ tc_pending c)) then Done c
  else match tc_opens c !! k with
  | None => Done c
  | Some ch => ch ← send_close ch out; Done (tc_set_opens c (<[k := ch]> (tc_opens c)) (tc_pending c ∖ {[k]}))
  end.

(** [unregisterPendingTCP] and [unregisterPendingUDP]. *)
Definition unregisterPending (c : tcpSessionClient) (k : bool * Z) : tcpSessionClient :=
  if negb (bool_decide (k ∈ tc_pending c)) then c
  else match tc_opens c !! k with
  | None => c
  | Some ch => tc_set_opens c (<[k := mkChan (ch_value ch) true]> (tc_opens c)) (tc_pending c ∖ {[k]})
  end.

Definition resolvePendingPing (c : tcpSessionClient) (key : string) : outcome tcpSessionClient :=
  if negb (bool_decide (key ∈ tc_pendingPing c)) then Done c
  else match tc_pings c !! key with
  | None => Done c
  | Some ch => ch ← offer_close ch None; Done (tc_set_pings c (<[key := ch]> (tc_pings c)) (tc_pendingPing c ∖ {[key]}))
  end.

Definition unregisterPendingPing (c : tcpSessionClient) (key : string) : tcpSessionClient :=
  if negb (bool_decide (key ∈ tc_pendingPing c)) then c
  else match tc_pings c !! key with
  | None => c
  | Some ch => tc_set_pings c (<[key := mkChan (ch_value ch) true]> (tc_pings c)) (tc_pendingPing c ∖ {[key]})
  end.

(** ** Opening flows *)

Definition open_register (c : tcpSessionClient) (k : bool * Z) : tcpSessionClient :=
  tc_set_opens c (<[k := mkChan None false]> (tc_opens c)) ({[k]} ∪ tc_pending c).

Definition open_write (c : tcpSessionClient) (k : bool * Z) (dstHost : string) (dstPort : Z) : tcpSessionClient * option goerr :=
  let payload := EncodeOpenPayload (mkOpenPayload k.2 dstHost [] (u16 dstPort)) in
  let '(c, err) := tc_writeFrame c (if k.1 then FrameOPENTCP else FrameOPENUDP) payload in
  match err with
  | Some e => (unregisterPending c k, Some (EWrap (if k.1 then "write OPEN_TCP" else "write OPEN_UDP") e))
  | None => (c, None)
  end.

(** The receive from [respCh]; [None] when there is nothing to receive. A TCP opener that got its
    OK goes on to register the flow; a UDP opener fails in any case. *)
Definition open_receive (c : tcpSessionClient) (k : bool * Z) : option (tcpSessionClient * res unit) :=
  match tc_opens c !! k with
  | None => None
  | Some ch =>
      let failed := ENew (if k.1 then "OPEN_TCP failed" else "OPEN_UDP failed") in
      match ch_value ch with
      | Some out =>
          let c := tc_set_opens c (<[k := mkChan None (ch_closed ch)]> (tc_opens c)) (tc_pending c) in
          if negb (or_ok out) then Some (c, Err (default failed (or_err out)))
          else if k.1 then Some (tc_set_flows c ({[k.2]} ∪ tc_ready c) (tc_flows c) (tc_objs c), Ok tt)
          else Some (c, Err (ENew "udp on tcp transport is not supported"))
      | None => if ch_closed ch then Some (c, Err failed) else None
      end
  end.

(** The context of the opener ends first. *)
Definition open_expire (c : tcpSessionClient) (k : bool * Z) (err : goerr) : tcpSessionClient * res unit :=
  (unregisterPending c k, Err err).

Definition new_framed_flow : tcpFramedFlow := mkFlow [] [] None false [] [] false.

(** The end of [openTCPFlow]: the flow is put where [readLoop] finds it. *)
Definition open_enlist (c : tcpSessionClient) (id : Z) : tcpSessionClient :=
  if bool_decide (id ∈ tc_ready c)
  then tc_set_flows c (tc_ready c ∖ {[id]}) ({[id]} ∪ tc_flows c) (<[id := new_framed_flow]> (tc_objs c))
  else c.

(** ** Round-trip probes *)

Definition probe_register (c : tcpSessionClient) (key : string) : tcpSessionClient :=
  tc_set_pings c (<[key := mkChan None false]> (tc_pings c)) ({[key]} ∪ tc_pendingPing c).
Definition probe_write (c : tcpSessionClient) (key : string) : tcpSessionClient * option goerr :=
  let '(c, err) := tc_writeFrame c FramePING (bytes_of_string key) in
  match err with
  | Some e => (unregisterPendingPing c key, Some e)
  | None => (c, None)
  end.
(** The receive from [waitCh], [elapsed] after the start. *)
Definition probe_receive (c : tcpSessionClient) (key : string) (elapsed : Z) : option (tcpSessionClient * res Z) :=
  match tc_pings c !! key with
  | None => None
  | Some ch =>
      match ch_value ch with
      | Some err =>
          Some (tc_set_pings c (<[key := mkChan None (ch_closed ch)]> (tc_pings c)) (tc_pendingPing c),
                match err with Some e => Err e | None => Ok elapsed end)
      | None => if ch_closed ch then Some (c, Err EEOF) else None
      end
  end.
Definition probe_expire (c : tcpSessionClient) (key : string) (err : goerr) : tcpSessionClient * res Z :=
  (unregisterPendingPing c key, Err err).

(** ** Flows *)

Definition dataCh_cap : Z := 1024.

(** [pushData]: the send panics when the application closed the flow meanwhile. *)
Definition pushData (f : tcpFramedFlow) (data : list byte) : outcome tcpFramedFlow :=
  if ff_closed f then Crashed "send on closed channel"
  else if zlen (ff_data f) <? dataCh_cap
  then Done (mkFlow (ff_buf f) (ff_data f ++ [data]) (ff_err f) (ff_closed f) (ff_recv f ++ data) (ff_read f) (ff_dropped f))
  else Done (mkFlow (ff_buf f) (ff_data f) (ff_err f) (ff_closed f) (ff_recv f ++ data) (ff_read f) true).

Definition pushErr (f : tcpFramedFlow) (err : goerr) : tcpFramedFlow :=
  mkFlow (ff_buf f) (ff_data f) (Some (default err (ff_err f))) (ff_closed f) (ff_recv f) (ff_read f) (ff_dropped f).

(** The case that the [select] of [Read] takes. *)
Inductive read_case := FromData | FromErr | FromDone.

(** [Read] into a buffer of [n] bytes; [None] when the chosen case is not ready. *)
Definition flow_Read (c : tcpSessionClient) (id n : Z) (pick : read_case) : option (tcpSessionClient * res (list byte)) :=
  match tc_objs c !! id with
  | None => None
  | Some f =>
      let take buf data err :=
        let out := ztake n buf in
        Some (tc_set_obj c id (mkFlow (zdrop n buf) data err (ff_closed f) (ff_recv f) (ff_read f ++ out) (ff_dropped f)), Ok out) in
      if 0 <? zlen (ff_buf f) then take (ff_buf f) (ff_data f) (ff_err f)
      else match pick with
      | FromData =>
          match ff_data f with
          | [] => if ff_closed f then Some (c, Err EEOF) else None
          | data :: rest =>
              if zlen data =? 0
              then Some (tc_set_obj c id (mkFlow (ff_buf f) rest (ff_err f) (ff_closed f) (ff_recv f) (ff_read f) (ff_dropped f)), Err EEOF)
              else take (ff_buf f ++ data) rest (ff_err f)
          end
      | FromErr =>
          match ff_err f with
          | Some e => Some (tc_set_obj c id (mkFlow (ff_buf f) (ff_data f) None (ff_closed f) (ff_recv f) (ff_read f) (ff_dropped f)), Err e)
          | None => None
          end
      | FromDone => if tc_done c then Some (c, Err EEOF) else None
      end
  end.

Definition flow_Write (c : tcpSessionClient) (id : Z) (p : list byte) : tcpSessionClient * res Z :=
  if zlen p =? 0 then (c, Ok 0)
  else
    let '(c, err) := tc_writeFrame c FrameTCPDATA (EncodeTCPDataPayload id p) in
    match err with Some e => (c, Err e) | None => (c, Ok (zlen p)) end.

Definition flow_Close (c : tcpSessionClient) (id : Z) : tcpSessionClient :=
  match tc_objs c !! id with
  | None => c
  | Some f =>
      if ff_closed f then c
      else
        let c := tc_set_flows c (tc_ready c) (tc_flows c ∖ {[id]}) (tc_objs c) in
        let '(c, _) := tc_writeFrame c FrameCLOSEFLOW (EncodeCloseFlowPayload (mkCloseFlowPayload id)) in
        tc_set_obj c id (mkFlow (ff_buf f) (ff_data f) (ff_err f) true (ff_recv f) (ff_read f) (ff_dropped f))
  end.

(** ** The end of the session and the read loop *)

Definition fail_opens (ks : list (bool * Z)) (err : goerr) (m : gmap (bool * Z) (chan openResult)) : outcome (gmap (bool * Z) (chan openResult)) :=
  foldl (fun m k => m ← m; match m !! k with
                         | None => Done m
                         | Some ch => ch ← send_close ch (mkOpenResult false (Some err)); Done (<[k := ch]> m)
                         end) (Done m) ks.
Definition fail_pings (ks : list string) (err : goerr) (m : gmap string (chan (option goerr))) : outcome (gmap string (chan (option goerr))) :=
  foldl (fun m k => m ← m; match m !! k with
                         | None => Done m
                         | Some ch => ch ← offer_close ch (Some err); Done (<[k := ch]> m)
                         end) (Done m) ks.

Definition closeWithError (c : tcpSessionClient) (err : goerr) : outcome tcpSessionClient :=
  if tc_done c then Done c
  else
    let c := tc_set_done c in
    opens ← fail_opens (elements (tc_pending c)) err (tc_opens c);
    pings ← fail_pings (elements (tc_pendingPing c)) err (tc_pings c);
    let c := tc_set_pings (tc_set_opens c opens ∅) pings ∅ in
    Done (tc_set_flows c (tc_ready c) ∅ (map_imap (fun id f => Some (if bool_decide (id ∈ tc_flows c) then pushErr f err else f)) (tc_objs c))).

Definition tc_close (c : tcpSessionClient) : outcome tcpSessionClient := closeWithError c EEOF.

(** The answer to an open request that failed. *)
Definition open_failed (c : tcpSessionClient) (tcp : bool) (payload : list byte) : outcome tcpSessionClient :=
  match decodeFailPayload payload with
  | Ok (flowID, reason) =>
      let reason := if String.eqb reason "" then (if tcp then "OPEN_TCP failed" else "OPEN_UDP failed") else reason in
      resolvePending c (tcp, flowID) (mkOpenResult false (Some (ENew reason)))
  | Err _ => Done c
  | Panic m => Crashed m
  end.
Definition open_ok (c : tcpSessionClient) (tcp : bool) (payload : list byte) : outcome tcpSessionClient :=
  match DecodeOpenOKPayload payload with
  | Ok p => resolvePending c (tcp, ok_FlowID p) (mkOpenResult true None)
  | _ => Done c
  end.

(** One frame of [readLoop]; [true] when the loop goes on. *)
Definition readLoop_frame (c : tcpSessionClient) (r : res Frame) : outcome (tcpSessionClient * bool) :=
  let go m := c ← m; Done (c, true) in
  match r with
  | Err e => c ← closeWithError c e; Done (c, false)
  | Panic m => Crashed m
  | Ok frame =>
      let t := frame_type frame in
      let payload := frame_payload frame in
      if t =? FramePING then Done ((tc_writeFrame c FramePONG payload).1, true)
      else if t =? FramePONG then go (resolvePendingPing c (string_of_bytes payload))
      else if t =? FrameOPENTCPOK then go (open_ok c true payload)
      else if t =? FrameOPENTCPFAIL then go (open_failed c true payload)
      else if t =? FrameOPENUDPOK then go (open_ok c false payload)
      else if t =? FrameOPENUDPFAIL then go (open_failed c false payload)
      else if t =? FrameTCPDATA then
        match DecodeTCPDataPayload payload with
        | Ok (flowID, data) => Done (if bool_decide (flowID ∈ tc_flows c) then tc_set_hand c (Some (flowID, data)) else c, true)
        | _ => Done (c, true)
        end
      else if t =? FrameCLOSEFLOW then
        match DecodeCloseFlowPayload payload with
        | Ok p =>
            Done (match tc_objs c !! cf_FlowID p with
                  | Some f => if bool_decide (cf_FlowID p ∈ tc_flows c) then tc_set_obj c (cf_FlowID p) (pushErr f EEOF) else c
                  | None => c
                  end, true)
        | _ => Done (c, true)
        end
      else Done (c, true)
  end.

(** The push after the lookup. *)
Definition readLoop_push (c : tcpSessionClient) : outcome tcpSessionClient :=
  match tc_hand c with
  | None => Done c
  | Some (id, data) =>
      match tc_objs c !! id with
      | None => Done (tc_set_hand c None)
      | Some f => f ← pushData f data; Done (tc_set_hand (tc_set_obj c id f) None)
      end
  end.

(** [dialTCPSession]: [connect] is [dialTCPTLS] for the TLS settings, [w] the new connection. The
    second component says whether the connection was closed again. *)
Definition dialTCPSession (cfg : ClientConfig) (connect : tlsClient -> res writer) (now : Z) (nonce : res (list byte)) (reply : res Frame)
  : res tcpSessionClient * bool :=
  match client_TLSConfig cfg with
  | Err e => (Err e, false)
  | Panic m => (Panic m, false)
  | Ok tls =>
      match connect tls with
      | Err e => (Err (EWrap "dial tcp session" e), false)
      | Panic m => (Panic m, false)
      | Ok w =>
          match client_auth cfg tcp_caps now nonce w reply with
          | (w, Ok _) => (Ok (new_tcp_client w), false)
          | (_, Err e) => (Err e, true)
          | (_, Panic m) => (Panic m, true)
          end
      end
  end.

(** ** Reachable states *)

Inductive tc_step : tcpSessionClient -> tcpSessionClient -> Prop :=
| tcs_register c k : tc_opens c !! k = None -> tc_step c (open_register c k)
| tcs_write c k host port : tc_step c (open_write c k host port).1
| tcs_receive c k c' r : open_receive c k = Some (c', r) -> tc_step c c'
| tcs_expire c k e : tc_step c (open_expire c k e).1
| tcs_finish c id : tc_step c (open_enlist c id)
| tcs_probe c key : tc_pings c !! key = None -> tc_step c (probe_register c key)
| tcs_probe_write c key : tc_step c (probe_write c key).1
| tcs_probe_receive c key t c' r : probe_receive c key t = Some (c', r) -> tc_step c c'
| tcs_probe_expire c key e : tc_step c (probe_expire c key e).1
| tcs_read c id n pick c' r : flow_Read c id n pick = Some (c', r) -> tc_step c c'
| tcs_flow_write c id p : tc_step c (flow_Write c id p).1
| tcs_flow_close c id : tc_step c (flow_Close c id)
| tcs_frame c r c' b : tc_hand c = None -> readLoop_frame c r = Done (c', b) -> tc_step c c'
| tcs_push c c' : readLoop_push c = Done c' -> tc_step c c'
| tcs_close c c' : tc_close c = Done c' -> tc_step c c'.

Inductive tc_steps : tcpSessionClient -> tcpSessionClient -> Prop :=
| tcss_refl c : tc_steps c c
| tcss_more a b c : tc_steps a b -> tc_step b c -> tc_steps a c.

(** ** The invariant *)

Definition flow_ok (f : tcpFramedFlow) : Prop :=
  zlen (ff_data f) <= dataCh_cap /\ (ff_dropped f = false -> ff_read f ++ ff_buf f ++ concat (ff_data f) = ff_recv f).

(** The opener of a flow has its answer. *)
Definition answered (c : tcpSessionClient) (id : Z) : Prop := tc_opens c !! (true, id) = Some (mkChan None true).

Record tc_inv (c : tcpSessionClient) : Prop := {
  tv_pending : forall k, k ∈ tc_pending c -> tc_opens c !! k = Some (mkChan None false);
  tv_pings : forall k, k ∈ tc_pendingPing c -> tc_pings c !! k = Some (mkChan None false);
  tv_done : tc_done c = true -> w_room (tc_out c) = Some 0;
  tv_ready : forall id, id ∈ tc_ready c -> answered c id /\ tc_objs c !! id = None;
  tv_objs : forall id f, tc_objs c !! id = Some f -> answered c id /\ flow_ok f;
  tv_flows : forall id, id ∈ tc_flows c -> is_Some (tc_objs c !! id);
  tv_value : forall k ch, tc_opens c !! k = Some ch -> ch_value ch <> None -> ch_closed ch = true }.

Lemma tc_inv_new w : tc_inv (new_tcp_client w).
Proof. by split; cbn. Qed.

(** A write on the connection. *)
Lemma tc_writeFrame_spec c t p : exists w, (tc_writeFrame c t p).1 = tc_set_out c w /\ (w_room (tc_out c) = Some 0 -> w_room w = Some 0).
Proof.
  unfold tc_writeFrame. destruct (WriteFrame (tc_out c) t p) as [w e] eqn:E. exists w. split; [done|].
  intros Hr. unfold WriteFrame in E. pose proof (PutUvarint_nonempty t) as Hne.
  revert Hne E. generalize (PutUvarint t) as q. intros q Hne E.
  assert (Hw : w_write (tc_out c) q = (Writer (w_out (tc_out c) ++ ztake 0 q) (Some 0), Some ENetClosed)).
  { unfold w_write. rewrite Hr. rewrite (proj2 (Z.leb_gt _ _)) by (by apply nonempty_pos). done. }
  rewrite Hw in E. by simplify_eq.
Qed.

Lemma tc_set_out_inv c w : tc_inv c -> (w_room (tc_out c) = Some 0 -> w_room w = Some 0) -> tc_inv (tc_set_out c w).
Proof. intros [] Hw. split; try done. cbn. auto. Qed.

Lemma tc_writeFrame_inv c t p : tc_inv c -> tc_inv (tc_writeFrame c t p).1.
Proof. intros Hinv. destruct (tc_writeFrame_spec c t p) as (w & -> & Hw). by apply tc_set_out_inv. Qed.

(** A channel that is not waited for any more. *)
Lemma tc_opens_inv c k ch :
  tc_inv c -> tc_opens c !! k = Some (mkChan None false) -> ch_closed ch = true ->
  tc_inv (tc_set_opens c (<[k := ch]> (tc_opens c)) (tc_pending c ∖ {[k]})).
Proof.
  intros [Hp Hpg Hd Hr Ho Hf Hv] Hk Hch.
  assert (Hne : forall id, answered c id -> (true, id) <> k) by (intros id Ha E; unfold answered in Ha; congruence).
  split; cbn [tc_set_opens tc_pending tc_opens tc_pings tc_pendingPing tc_done tc_out tc_ready tc_objs tc_flows]; try done.
  - intros k' [Hk' Hn%not_elem_of_singleton]%elem_of_difference. rewrite lookup_insert_ne by done. auto.
  - intros id Hid. destruct (Hr id Hid) as [Ha Hn]. split; [|done]. unfold answered. cbn. by rewrite lookup_insert_ne by (symmetry; auto).
  - intros id f Hid. destruct (Ho id f Hid) as [Ha Hn]. split; [|done]. unfold answered. cbn. by rewrite lookup_insert_ne by (symmetry; auto).
  - intros k' ch'. destruct (decide (k' = k)) as [->|Hn]; [rewrite lookup_insert_eq; by intros [= <-]|]. rewrite lookup_insert_ne by done. apply Hv.
Qed.

Lemma resolvePending_spec c k out :
  tc_inv c -> exists c', resolvePending c k out = Done c' /\ tc_inv c'.
Proof.
  intros Hinv. unfold resolvePending. case_bool_decide as Hk; cbn [negb]; [|eauto].
  pose proof (tv_pending c Hinv k Hk) as E. rewrite E. cbn. eexists. split; [reflexivity|]. by apply tc_opens_inv.
Qed.

Lemma unregisterPending_inv c k : tc_inv c -> tc_inv (unregisterPending c k).
Proof.
  intros Hinv. unfold unregisterPending. case_bool_decide as Hk; cbn [negb]; [|done].
  pose proof (tv_pending c Hinv k Hk) as E. rewrite E. by apply tc_opens_inv.
Qed.

Lemma tc_pings_inv c key ch :
  tc_inv c -> tc_inv (tc_set_pings c (<[key := ch]> (tc_pings c)) (tc_pendingPing c ∖ {[key]})).
Proof.
  intros [Hp Hpg Hd Hr Ho Hf Hv]. split; try done. cbn. intros k [Hk Hn%not_elem_of_singleton]%elem_of_difference.
  rewrite lookup_insert_ne by done. auto.
Qed.

Lemma resolvePendingPing_spec c key : tc_inv c -> exists c', resolvePendingPing c key = Done c' /\ tc_inv c'.
Proof.
  intros Hinv. unfold resolvePendingPing. case_bool_decide as Hk; cbn [negb]; [|eauto].
  pose proof (tv_pings c Hinv key Hk) as E. rewrite E. cbn. eexists. split; [reflexivity|]. by apply tc_pings_inv.
Qed.

Lemma unregisterPendingPing_inv c key : tc_inv c -> tc_inv (unregisterPendingPing c key).
Proof.
  intros Hinv. unfold unregisterPendingPing. case_bool_decide as Hk; cbn [negb]; [|done].
  pose proof (tv_pings c Hinv key Hk) as E. rewrite E. by apply tc_pings_inv.
Qed.

(** A flow object changes. *)
Lemma tc_set_obj_inv c id f f' : tc_inv c -> tc_objs c !! id = Some f -> flow_ok f' -> tc_inv (tc_set_obj c id f').
Proof.
  intros [Hp Hpg Hd Hr Ho Hf Hv] Hid Hok. split; try done; cbn [tc_set_obj tc_set_flows tc_ready tc_objs tc_flows].
  - intros j Hj. destruct (Hr j Hj) as [Ha Hn]. split; [done|]. rewrite lookup_insert_ne; [done|]. congruence.
  - intros j g. destruct (decide (j = id)) as [->|Hne].
    + rewrite lookup_insert_eq. intros [= <-]. split; [|done]. by destruct (Ho _ _ Hid).
    + rewrite lookup_insert_ne by done. apply Ho.
  - intros j Hj. destruct (decide (j = id)) as [->|Hne]; [rewrite lookup_insert_eq; eauto|]. rewrite lookup_insert_ne by done. auto.
Qed.

Lemma open_register_inv c k : tc_inv c -> tc_opens c !! k = None -> tc_inv (open_register c k).
Proof.
  intros [Hp Hpg Hd Hr Ho Hf Hv] Hk. unfold open_register.
  assert (Hne : forall id, answered c id -> (true, id) <> k) by (intros id Ha E; unfold answered in Ha; congruence).
  split; cbn [tc_set_opens tc_pending tc_opens tc_pings tc_pendingPing tc_done tc_out tc_ready tc_objs tc_flows]; try done.
  - intros k' Hk'. destruct (decide (k' = k)) as [->|Hn]; [apply lookup_insert_eq|]. rewrite lookup_insert_ne by done. apply Hp. set_solver.
  - intros id Hid. destruct (Hr id Hid) as [Ha Hn]. split; [|done]. unfold answered. cbn. by rewrite lookup_insert_ne by (symmetry; auto).
  - intros id f Hid. destruct (Ho id f Hid) as [Ha Hn]. split; [|done]. unfold answered. cbn. by rewrite lookup_insert_ne by (symmetry; auto).
  - intros k' ch'. destruct (decide (k' = k)) as [->|Hn]; [rewrite lookup_insert_eq; by intros [= <-]|]. rewrite lookup_insert_ne by done. apply Hv.
Qed.

Lemma open_receive_inv c k c' r : tc_inv c -> open_receive c k = Some (c', r) -> tc_inv c'.
Proof.
  intros Hinv E. unfold open_receive in E. destruct (tc_opens c !! k) as [ch|] eqn:Ek; [|done].
  destruct (ch_value ch) as [out|] eqn:Ev; [|destruct (ch_closed ch); by simplify_eq].
  destruct Hinv as [Hp Hpg Hd Hr Ho Hf Hv].
  assert (Hcl : ch_closed ch = true) by (apply (Hv k); [done|by rewrite Ev]). rewrite Hcl in E.
  assert (Hnp : k ∉ tc_pending c) by (intros Hk; specialize (Hp k Hk); rewrite Ek in Hp; by injection Hp as ->).
  assert (Hne : forall id, answered c id -> (true, id) <> k).
  { intros id Ha E'. unfold answered in Ha. rewrite E', Ek in Ha. by injection Ha as ->. }
  set (c1 := tc_set_opens c (<[k := mkChan None true]> (tc_opens c)) (tc_pending c)) in *.
  assert (Hkeep : forall id, answered c id -> answered c1 id).
  { intros id Ha. unfold answered. cbn. by rewrite lookup_insert_ne by (symmetry; auto). }
  assert (H1 : tc_inv c1).
  { split; cbn [c1 tc_set_opens tc_pending tc_opens tc_pings tc_pendingPing tc_done tc_out tc_ready tc_objs tc_flows]; try done.
    - intros k' Hk'. rewrite lookup_insert_ne by (intros <-; done). auto.
    - intros id Hid. destruct (Hr id Hid) as [Ha Hn]. auto.
    - intros id f Hid. destruct (Ho id f Hid) as [Ha Hn]. auto.
    - intros k' ch'. destruct (decide (k' = k)) as [->|Hn]; [rewrite lookup_insert_eq; by intros [= <-]|]. rewrite lookup_insert_ne by done. apply Hv. }
  destruct (or_ok out); cbn [negb] in E; [|by simplify_eq]. destruct k as [[|] id]; cbn [fst snd] in E; [|by simplify_eq].
  injection E as <- <-. destruct H1 as [Hp1 Hpg1 Hd1 Hr1 Ho1 Hf1 Hv1].
  split; try done. cbn [tc_set_flows tc_ready tc_objs]. intros j [->%elem_of_singleton|Hj]%elem_of_union; [|by apply Hr1].
  split; [unfold answered; cbn; apply lookup_insert_eq|]. destruct (tc_objs c1 !! id) as [f|] eqn:Eo; [|done].
  destruct (Ho id f Eo) as [Ha _]. by destruct (Hne _ Ha).
Qed.

Lemma open_enlist_inv c id : tc_inv c -> tc_inv (open_enlist c id).
Proof.
  intros [Hp Hpg Hd Hr Ho Hf Hv]. unfold open_enlist. case_bool_decide as Hid; [|done]. destruct (Hr id Hid) as [Ha Hn].
  split; try done; cbn [tc_set_flows tc_ready tc_objs tc_flows].
  - intros j [Hj Hne%not_elem_of_singleton]%elem_of_difference. destruct (Hr j Hj). split; [done|]. by rewrite lookup_insert_ne.
  - intros j g. destruct (decide (j = id)) as [->|Hne]; [|rewrite lookup_insert_ne by done; apply Ho].
    rewrite lookup_insert_eq. intros [= <-]. by split; [|split].
  - intros j [->%elem_of_singleton|Hj]%elem_of_union; [rewrite lookup_insert_eq; eauto|].
    destruct (decide (j = id)) as [->|Hne]; [rewrite lookup_insert_eq; eauto|]. rewrite lookup_insert_ne by done. auto.
Qed.

Lemma probe_register_inv c key : tc_inv c -> tc_inv (probe_register c key).
Proof.
  intros [Hp Hpg Hd Hr Ho Hf Hv]. split; try done. cbn. intros k Hk.
  destruct (decide (k = key)) as [->|Hn]; [apply lookup_insert_eq|]. rewrite lookup_insert_ne by done. apply Hpg. set_solver.
Qed.

Lemma probe_receive_inv c key t c' r : tc_inv c -> probe_receive c key t = Some (c', r) -> tc_inv c'.
Proof.
  intros Hinv E. unfold probe_receive in E. destruct (tc_pings c !! key) as [ch|] eqn:Ek; [|done].
  destruct (ch_value ch) as [err|] eqn:Ev; [|destruct (ch_closed ch); by simplify_eq]. injection E as <- <-.
  destruct Hinv as [Hp Hpg Hd Hr Ho Hf Hv]. split; try done. cbn. intros k Hk. rewrite lookup_insert_ne; [auto|].
  intros <-. specialize (Hpg _ Hk). rewrite Ek in Hpg. by injection Hpg as ->.
Qed.

Lemma flow_Read_inv c id n pick c' r : tc_inv c -> flow_Read c id n pick = Some (c', r) -> tc_inv c'.
Proof.
  intros Hinv E. unfold flow_Read in E. destruct (tc_objs c !! id) as [f|] eqn:Ef; [|done].
  destruct (tv_objs c Hinv id f Ef) as [_ [Hlen Hs]].
  destruct (0 <? zlen (ff_buf f)) eqn:Eb.
  { injection E as <- <-. eapply tc_set_obj_inv; [done..|]. split; [done|]. cbn. intros Hd. rewrite <- Hs by done.
    rewrite <- (ztake_zdrop n (ff_buf f)) at 3. by rewrite <- !app_assoc. }
  destruct pick.
  - destruct (ff_data f) as [|data rest] eqn:Ed; [destruct (ff_closed f); by simplify_eq|]. rewrite zlen_cons in Hlen.
    destruct (zlen data =? 0) eqn:Ez; zbool.
    + apply zlen_zero in Ez as ->. injection E as <- <-. eapply tc_set_obj_inv; [done..|]. split; [cbn; lia|exact Hs].
    + injection E as <- <-. eapply tc_set_obj_inv; [done..|]. split; [cbn; lia|]. cbn. intros Hd. rewrite <- Hs by done. cbn [concat].
      rewrite <- !app_assoc. f_equal. rewrite app_assoc, ztake_zdrop, <- app_assoc. done.
  - destruct (ff_err f); [|done]. injection E as <- <-. by eapply tc_set_obj_inv.
  - destruct (tc_done c); by simplify_eq.
Qed.

Lemma flow_Close_inv c id : tc_inv c -> tc_inv (flow_Close c id).
Proof.
  intros Hinv. unfold flow_Close. destruct (tc_objs c !! id) as [f|] eqn:Ef; [|done]. destruct (ff_closed f); [done|].
  set (c1 := tc_set_flows _ _ _ _).
  assert (H1 : tc_inv c1) by (destruct Hinv as [Hp Hpg Hd Hr Ho Hf Hv]; split; try done; cbn; intros j Hj; apply Hf; set_solver).
  pose proof (tc_writeFrame_inv c1 FrameCLOSEFLOW (EncodeCloseFlowPayload (mkCloseFlowPayload id)) H1) as H2.
  destruct (tc_writeFrame_spec c1 FrameCLOSEFLOW (EncodeCloseFlowPayload (mkCloseFlowPayload id))) as (w & Ew & _).
  destruct (tc_writeFrame c1 _ _) as [c2 e]. cbn [fst] in *. subst c2.
  eapply tc_set_obj_inv; [done|exact Ef|]. by destruct (tv_objs c Hinv id f Ef) as [_ Hok].
Qed.

Lemma pushErr_ok f e : flow_ok f -> flow_ok (pushErr f e).
Proof. done. Qed.

Lemma readLoop_push_inv c c' : tc_inv c -> readLoop_push c = Done c' -> tc_inv c'.
Proof.
  intros Hinv E. unfold readLoop_push in E. destruct (tc_hand c) as [[id data]|]; [|by injection E as <-].
  assert (Hh : forall d h, tc_inv d -> tc_inv (tc_set_hand d h)) by (intros d h []; by split).
  destruct (tc_objs c !! id) as [f|] eqn:Ef; [|injection E as <-; auto].
  destruct (tv_objs c Hinv id f Ef) as [_ [Hlen Hs]]. unfold pushData in E.
  destruct (ff_closed f); [done|]. destruct (zlen (ff_data f) <? dataCh_cap) eqn:El; zbool; injection E as <-; apply Hh; (eapply tc_set_obj_inv; [done..|]).
  - split; [cbn; rewrite zlen_app; change (zlen [data]) with 1; lia|]. cbn. intros Hd. rewrite <- Hs by done.
    rewrite concat_app. cbn [concat]. rewrite app_nil_r. by rewrite <- !app_assoc.
  - split; [done|]. by intros [=].
Qed.

(** Every waiting opener gets the error. *)
Lemma fail_opens_spec ks err : forall m,
  NoDup ks -> (forall k, k ∈ ks -> m !! k = Some (mkChan None false)) ->
  exists m', fail_opens ks err m = Done m'
    /\ (forall k, k ∈ ks -> m' !! k = Some (mkChan (Some (mkOpenResult false (Some err))) true))
    /\ (forall k, k ∉ ks -> m' !! k = m !! k).
Proof.
  induction ks as [|k ks IH]; intros m Hd Hm; [exists m; split_and!; [done|by intros k Hk%not_elem_of_nil|done]|].
  apply NoDup_cons in Hd as [Hk Hd].
  destruct (IH (<[k := mkChan (Some (mkOpenResult false (Some err))) true]> m) Hd) as (m' & E & H1 & H2).
  { intros k' Hk'. rewrite lookup_insert_ne by (intros <-; done). apply Hm. by right. }
  exists m'. unfold fail_opens in E |- *. cbn [foldl mbind outcome_bind]. rewrite (Hm k) by (by left). cbn [send_close ch_closed ch_value mbind outcome_bind]. rewrite E.
  split_and!; [done| |].
  - intros k' [->|Hk']%elem_of_cons; [|by apply H1]. rewrite H2 by done. apply lookup_insert_eq.
  - intros k' [Hne Hk']%not_elem_of_cons. rewrite H2 by done. by apply lookup_insert_ne.
Qed.

Lemma fail_pings_spec ks err : forall m,
  NoDup ks -> (forall k, k ∈ ks -> m !! k = Some (mkChan None false)) ->
  exists m', fail_pings ks err m = Done m' /\ (forall k, k ∈ ks -> m' !! k = Some (mkChan (Some (Some err)) true)).
Proof.
  enough (H : forall m, NoDup ks -> (forall k, k ∈ ks -> m !! k = Some (mkChan None false)) ->
    exists m', fail_pings ks err m = Done m' /\ (forall k, k ∈ ks -> m' !! k = Some (mkChan (Some (Some err)) true))
      /\ (forall k, k ∉ ks -> m' !! k = m !! k)).
  { intros m Hd Hm. destruct (H m Hd Hm) as (m' & ? & ? & _). eauto. }
  induction ks as [|k ks IH]; intros m Hd Hm; [exists m; split_and!; [done|by intros k Hk%not_elem_of_nil|done]|].
  apply NoDup_cons in Hd as [Hk Hd]. destruct (IH (<[k := mkChan (Some (Some err)) true]> m) Hd) as (m' & E & H1 & H2).
  { intros k' Hk'. rewrite lookup_insert_ne by (intros <-; done). apply Hm. by right. }
  exists m'. unfold fail_pings in E |- *. cbn [foldl mbind outcome_bind]. rewrite (Hm k) by (by left). cbn [offer_close ch_closed ch_value mbind outcome_bind default]. rewrite E.
  split_and!; [done| |].
  - intros k' [->|Hk']%elem_of_cons; [|by apply H1]. rewrite H2 by done. apply lookup_insert_eq.
  - intros k' [Hne Hk']%not_elem_of_cons. rewrite H2 by done. by apply lookup_insert_ne.
Qed.

Lemma closeWithError_spec c err :
  tc_inv c -> exists c', closeWithError c err = Done c' /\ tc_inv c' /\ tc_done c' = true
    /\ (tc_done c = false -> tc_pending c' = ∅ /\ tc_pendingPing c' = ∅ /\ tc_flows c' = ∅
        /\ (forall k, k ∈ tc_pending c -> tc_opens c' !! k = Some (mkChan (Some (mkOpenResult false (Some err))) true))
        /\ (forall key, key ∈ tc_pendingPing c -> tc_pings c' !! key = Some (mkChan (Some (Some err)) true))).
Proof.
  intros Hinv. unfold closeWithError. destruct (tc_done c) eqn:Edone; [exists c; by split_and!|].
  destruct Hinv as [Hp Hpg Hd Hr Ho Hf Hv].
  destruct (fail_opens_spec (elements (tc_pending c)) err (tc_opens c)) as (m & Em & M1 & M2);
    [apply NoDup_elements|intros k Hk; apply Hp; by apply elem_of_elements|].
  destruct (fail_pings_spec (elements (tc_pendingPing c)) err (tc_pings c)) as (g & Eg & G1);
    [apply NoDup_elements|intros k Hk; apply Hpg; by apply elem_of_elements|].
  cbn [tc_set_done tc_pending tc_opens tc_pendingPing tc_pings tc_flows tc_objs tc_ready]. rewrite Em. cbn [mbind outcome_bind]. rewrite Eg. cbn [mbind outcome_bind].
  eexists. split; [reflexivity|]. set (fl := fun id f => _).
  assert (Hans : forall id, answered c id -> m !! (true, id) = Some (mkChan None true)).
  { intros id Ha. rewrite M2; [exact Ha|]. intros Hk%elem_of_elements. specialize (Hp _ Hk). unfold answered in Ha. congruence. }
  assert (Hlk : forall id, map_imap fl (tc_objs c) !! id = (fun f => if bool_decide (id ∈ tc_flows c) then pushErr f err else f) <$> tc_objs c !! id).
  { intros id. rewrite map_lookup_imap. by destruct (tc_objs c !! id). }
  split; [|split; [done|intros _; split_and!; try done]].
  - split; cbn; try done; rewrite ?Hlk.
    + intros id Hid. destruct (Hr id Hid) as [Ha Hn]. split; [unfold answered; cbn; auto|]. by rewrite Hlk, Hn.
    + intros id f. rewrite Hlk. destruct (tc_objs c !! id) as [f0|] eqn:Ef; [|done]. cbn. intros [= <-]. destruct (Ho _ _ Ef) as [Ha Hok].
      split; [unfold answered; cbn; auto|]. by case_bool_decide.
    + intros k ch Hk Hval. destruct (decide (k ∈ tc_pending c)) as [Hin|Hni].
      * rewrite M1 in Hk by (by apply elem_of_elements). by injection Hk as <-.
      * rewrite M2 in Hk by (by rewrite elem_of_elements). eauto.
  - intros k Hk. apply M1. by apply elem_of_elements.
  - intros k Hk. apply G1. by apply elem_of_elements.
Qed.

(** What the read loop does with a frame: it goes on, unless the frame, or the failure payload in
    it, makes the decoder panic. *)
Lemma readLoop_frame_spec c r :
  tc_inv c ->
  match readLoop_frame c r with
  | Done (c', b) => tc_inv c' /\ (b = false <-> exists e, r = Err e)
  | Blocked => False
  | Crashed m => r = Panic m \/ exists f, r = Ok f /\ (frame_type f = FrameOPENTCPFAIL \/ frame_type f = FrameOPENUDPFAIL)
                   /\ decodeFailPayload (frame_payload f) = Panic m
  end.
Proof.
  intros Hinv. unfold readLoop_frame. destruct r as [f|e|m]; [|destruct (closeWithError_spec c e Hinv) as (c' & -> & Hi & _); cbn; split; [done|]; by split; eauto|by left].
  assert (Hgo : forall m : outcome tcpSessionClient, (exists c', m = Done c' /\ tc_inv c') ->
    match c ← m; Done (c, true) with Done (c', b) => tc_inv c' /\ (b = false <-> exists e, Ok f = Err e) | Blocked => False
      | Crashed s => Ok f = Panic s \/ exists f0, Ok f = Ok f0 /\ (frame_type f0 = FrameOPENTCPFAIL \/ frame_type f0 = FrameOPENUDPFAIL)
                   /\ decodeFailPayload (frame_payload f0) = Panic s end).
  { intros m (c' & -> & Hi). cbn. split; [done|]. split; [done|]. by intros []. }
  assert (Hd : forall c', tc_inv c' -> tc_inv c' /\ (true = false <-> exists e, Ok f = Err e)) by (intros c' Hc'; split; [done|]; split; [done|by intros []]).
  assert (Hfail : forall tcp, (frame_type f = FrameOPENTCPFAIL \/ frame_type f = FrameOPENUDPFAIL) ->
    match c ← open_failed c tcp (frame_payload f); Done (c, true) with Done (c', b) => tc_inv c' /\ (b = false <-> exists e, Ok f = Err e) | Blocked => False
      | Crashed s => Ok f = Panic s \/ exists f0, Ok f = Ok f0 /\ (frame_type f0 = FrameOPENTCPFAIL \/ frame_type f0 = FrameOPENUDPFAIL)
                   /\ decodeFailPayload (frame_payload f0) = Panic s end).
  { intros tcp Ht. unfold open_failed. destruct (decodeFailPayload (frame_payload f)) as [[id reason]| |m] eqn:Ed.
    - apply Hgo. by apply resolvePending_spec.
    - by apply Hgo; eauto.
    - cbn. right. by exists f. }
  cbn zeta. destruct (frame_type f =? FramePING) eqn:E1; [apply Hd; by apply tc_writeFrame_inv|].
  destruct (frame_type f =? FramePONG) eqn:E2; [apply Hgo; by apply resolvePendingPing_spec|].
  destruct (frame_type f =? FrameOPENTCPOK) eqn:E3.
  { apply Hgo. unfold open_ok. destruct (DecodeOpenOKPayload _); [by apply resolvePending_spec|eauto..]. }
  destruct (frame_type f =? FrameOPENTCPFAIL) eqn:E4; [apply Hfail; zbool; by left|].
  destruct (frame_type f =? FrameOPENUDPOK) eqn:E5.
  { apply Hgo. unfold open_ok. destruct (DecodeOpenOKPayload _); [by apply resolvePending_spec|eauto..]. }
  destruct (frame_type f =? FrameOPENUDPFAIL) eqn:E6; [apply Hfail; zbool; by right|].
  destruct (frame_type f =? FrameTCPDATA) eqn:E7.
  { destruct (DecodeTCPDataPayload _) as [[id data]| |]; [|by apply Hd..]. apply Hd. case_bool_decide; [|done]. by destruct Hinv. }
  destruct (frame_type f =? FrameCLOSEFLOW) eqn:E8; [|by apply Hd].
  destruct (DecodeCloseFlowPayload _) as [p| |]; [|by apply Hd..]. apply Hd. destruct (tc_objs c !! cf_FlowID p) as [fl|] eqn:Ef; [|done].
  case_bool_decide; [|done]. eapply tc_set_obj_inv; [done..|]. apply pushErr_ok. by destruct (tv_objs c Hinv _ _ Ef).
Qed.

Lemma tc_step_inv c c' : tc_step c c' -> tc_inv c -> tc_inv c'.
Proof.
  intros Hs Hinv. destruct Hs.
  - by apply open_register_inv.
  - unfold open_write. pose proof (tc_writeFrame_inv c (if k.1 then FrameOPENTCP else FrameOPENUDP) (EncodeOpenPayload (mkOpenPayload k.2 host [] (u16 port))) Hinv) as H1.
    destruct (tc_writeFrame _ _ _) as [c1 [e|]]; cbn [fst] in *; [by apply unregisterPending_inv|done].
  - by eapply open_receive_inv.
  - by apply unregisterPending_inv.
  - by apply open_enlist_inv.
  - by apply probe_register_inv.
  - unfold probe_write. pose proof (tc_writeFrame_inv c FramePING (bytes_of_string key) Hinv) as H1.
    destruct (tc_writeFrame _ _ _) as [c1 [e|]]; cbn [fst] in *; [by apply unregisterPendingPing_inv|done].
  - by eapply probe_receive_inv.
  - by apply unregisterPendingPing_inv.
  - by eapply flow_Read_inv.
  - unfold flow_Write. destruct (zlen p =? 0); [done|]. pose proof (tc_writeFrame_inv c FrameTCPDATA (EncodeTCPDataPayload id p) Hinv) as H1.
    destruct (tc_writeFrame _ _ _) as [c1 [e|]]; done.
  - by apply flow_Close_inv.
  - pose proof (readLoop_frame_spec c r Hinv) as H1. rewrite H0 in H1. by destruct H1.
  - by eapply readLoop_push_inv.
  - destruct (closeWithError_spec c EEOF Hinv) as (c1 & E & Hi & _). unfold tc_close in H. rewrite E in H. by injection H as <-.
Qed.

Lemma tc_steps_inv w c : tc_steps (new_tcp_client w) c -> tc_inv c.
Proof.
  intros Hs. remember (new_tcp_client w) as c0 eqn:E. induction Hs as [c|a b c Hs IH Hst]; [subst; apply tc_inv_new|].
  eauto using tc_step_inv.
Qed.

(** ** Theorems *)


(** What the application reads from a flow is what the gateway sent for it: in every reachable
    state the queue of a flow holds at most 1024 slices, and as long as no push found it full the
    bytes the application got, followed by those buffered and queued, are exactly the bytes of the
    data frames pushed to the flow, in order. *)
Theorem tcp_client_stream w c id f :
  tc_steps (new_tcp_client w) c -> tc_objs c !! id = Some f ->
  zlen (ff_data f) <= 1024
  /\ (ff_dropped f = false -> ff_read f ++ ff_buf f ++ concat (ff_data f) = ff_recv f)
  /\ (forall n pick c' out, flow_Read c id n pick = Some (c', Ok out) -> exists f',
        tc_objs c' !! id = Some f' /\ ff_read f' = ff_read f ++ out /\ ff_recv f' = ff_recv f /\ ff_dropped f' = ff_dropped f).
Proof.
  intros Hs Hf. apply tc_steps_inv in Hs as Hinv. destruct (tv_objs c Hinv id f Hf) as [_ [Hl Hst]]. split_and!; [done|done|].
  intros n pick c' out E. unfold flow_Read in E. rewrite Hf in E.
  destruct (0 <? zlen (ff_buf f)); [injection E as <- <-; eexists; split; [apply lookup_insert_eq|done]|].
  destruct pick; repeat case_in E; try done; injection E as <- <-; (eexists; split; [apply lookup_insert_eq|done]).
Qed.

(** Data that follows an OPEN_TCP_OK at once is lost: the flow is put where the read loop finds it
    only after the opener woke up, and data frames that arrive in between are discarded, without
    any trace in the flow. *)
Theorem tcp_client_early_data_lost w c id data :
  tc_steps (new_tcp_client w) c -> (true, id) ∈ tc_pending c -> is_u64 id ->
  exists c1 c2 c3,
    readLoop_frame c (Ok (mkFrame FrameOPENTCPOK (EncodeOpenOKPayload (mkOpenOKPayload id 3)))) = Done (c1, true)
    /\ readLoop_frame c1 (Ok (mkFrame FrameTCPDATA (EncodeTCPDataPayload id data))) = Done (c2, true)
    /\ open_receive c2 (true, id) = Some (c3, Ok tt)
    /\ tc_objs (open_enlist c3 id) !! id = Some new_framed_flow /\ id ∈ tc_flows (open_enlist c3 id)
    /\ tc_hand (open_enlist c3 id) = tc_hand c.
Proof.
  intros Hs Hp Hid. apply tc_steps_inv in Hs as Hinv. pose proof (tv_pending c Hinv _ Hp) as Ech.
  assert (Hnf : id ∉ tc_flows c).
  { intros [f Hf]%(tv_flows c Hinv). destruct (tv_objs c Hinv id f Hf) as [Ha _]. unfold answered in Ha. congruence. }
  set (c1 := tc_set_opens c (<[(true, id) := mkChan (Some (mkOpenResult true None)) true]> (tc_opens c)) (tc_pending c ∖ {[(true, id)]})).
  exists c1, c1. eexists. split_and!.
  - unfold readLoop_frame. cbn [frame_type frame_payload]. cbn [Z.eqb Pos.eqb FrameOPENTCPOK FramePING FramePONG].
    unfold open_ok. rewrite open_ok_roundtrip by (done || cbn; lia). unfold resolvePending. cbn [ok_FlowID].
    rewrite bool_decide_eq_true_2 by done. cbn [negb]. rewrite Ech. done.
  - unfold readLoop_frame. cbn [frame_type frame_payload].
    cbn [Z.eqb Pos.eqb FrameTCPDATA FramePING FramePONG FrameOPENTCPOK FrameOPENTCPFAIL FrameOPENUDPOK FrameOPENUDPFAIL].
    rewrite tcp_data_roundtrip by done. by rewrite bool_decide_eq_false_2.
  - unfold open_receive. cbn [c1 tc_set_opens tc_opens]. rewrite lookup_insert_eq. cbn. reflexivity.
  - unfold open_enlist. rewrite bool_decide_eq_true_2 by set_solver. apply lookup_insert_eq.
  - unfold open_enlist. rewrite bool_decide_eq_true_2 by set_solver. cbn. set_solver.
  - unfold open_enlist. by rewrite bool_decide_eq_true_2 by set_solver.
Qed.

(** Closing a flow can end the process: when the application closes a flow between the read loop's
    lookup and its push, the push sends on the closed channel and panics. *)
Theorem tcp_client_close_race w c id f data :
  tc_steps (new_tcp_client w) c -> is_u64 id -> id ∈ tc_flows c -> tc_objs c !! id = Some f -> ff_closed f = false ->
  exists c1, readLoop_frame c (Ok (mkFrame FrameTCPDATA (EncodeTCPDataPayload id data))) = Done (c1, true)
    /\ readLoop_push (flow_Close c1 id) = Crashed "send on closed channel".
Proof.
  intros Hs Hid Hin Hf Hcl. exists (tc_set_hand c (Some (id, data))). split.
  - unfold readLoop_frame. cbn [frame_type frame_payload].
    cbn [Z.eqb Pos.eqb FrameTCPDATA FramePING FramePONG FrameOPENTCPOK FrameOPENTCPFAIL FrameOPENUDPOK FrameOPENUDPFAIL].
    rewrite tcp_data_roundtrip by done. by rewrite bool_decide_eq_true_2.
  - unfold flow_Close. cbn [tc_set_hand tc_objs]. rewrite Hf, Hcl. set (c1 := tc_set_flows _ _ _ _).
    destruct (tc_writeFrame_spec c1 FrameCLOSEFLOW (EncodeCloseFlowPayload (mkCloseFlowPayload id))) as (w1 & Ew & _).
    destruct (tc_writeFrame c1 _ _) as [c2 e]. cbn [fst] in Ew. subst c2. unfold readLoop_push.
    cbn [tc_set_obj tc_set_flows tc_set_out tc_hand tc_objs c1 tc_set_hand]. rewrite lookup_insert_eq. done.
Qed.

(** The end of a flow can overtake its data: with data queued and the close of the gateway noticed,
    [Read] may report the end of the stream and leave the data unread. *)
Theorem tcp_client_close_truncates c id f n e :
  tc_objs c !! id = Some f -> ff_buf f = [] -> ff_err f = Some e ->
  exists c' f', flow_Read c id n FromErr = Some (c', Err e) /\ tc_objs c' !! id = Some f' /\ ff_data f' = ff_data f.
Proof.
  intros Hf Hb He. unfold flow_Read. rewrite Hf, Hb, He. change (0 <? zlen (@nil byte)) with false. cbn match.
  eexists _, _. split; [reflexivity|]. split; [apply lookup_insert_eq|done].
Qed.

(** ** Witnesses *)

Definition ex_tc0 : tcpSessionClient := new_tcp_client (Writer [] None).
Definition ex_tc1 : tcpSessionClient := open_register ex_tc0 (true, 1001).

Definition ex_done {A} (d : A) (o : outcome (A * bool)) : A := match o with Done (a, _) => a | _ => d end.
Definition ex_tc2 : tcpSessionClient :=
  Eval vm_compute in ex_done ex_tc1 (readLoop_frame ex_tc1 (Ok (mkFrame FrameOPENTCPOK (EncodeOpenOKPayload (mkOpenOKPayload 1001 3))))).
Definition ex_tc3 : tcpSessionClient :=
  Eval vm_compute in match open_receive ex_tc2 (true, 1001) with Some (c, _) => c | None => ex_tc2 end.
Definition ex_tc4 : tcpSessionClient := Eval vm_compute in open_enlist ex_tc3 1001.
Definition ex_tc5 : tcpSessionClient :=
  Eval vm_compute in ex_done ex_tc4 (readLoop_frame ex_tc4 (Ok (mkFrame FrameTCPDATA (EncodeTCPDataPayload 1001 [x68; x69])))).
Definition ex_tc6 : tcpSessionClient := Eval vm_compute in match readLoop_push ex_tc5 with Done c => c | _ => ex_tc5 end.

Lemma ex_tc1_reach : tc_steps (new_tcp_client (Writer [] None)) ex_tc1.
Proof. eapply tcss_more; [apply tcss_refl|]. by apply tcs_register. Qed.
Lemma ex_tc4_reach : tc_steps (new_tcp_client (Writer [] None)) ex_tc4.
Proof.
  eapply tcss_more; [eapply tcss_more; [eapply tcss_more; [apply ex_tc1_reach|]|]|].
  - apply (tcs_frame ex_tc1 (Ok (mkFrame FrameOPENTCPOK (EncodeOpenOKPayload (mkOpenOKPayload 1001 3)))) ex_tc2 true); by vm_compute.
  - apply (tcs_receive ex_tc2 (true, 1001) ex_tc3 (Ok tt)). by vm_compute.
  - apply (tcs_finish ex_tc3 1001).
Qed.
Lemma ex_tc6_reach : tc_steps (new_tcp_client (Writer [] None)) ex_tc6.
Proof.
  eapply tcss_more; [eapply tcss_more; [apply ex_tc4_reach|]|].
  - apply (tcs_frame ex_tc4 (Ok (mkFrame FrameTCPDATA (EncodeTCPDataPayload 1001 [x68; x69]))) ex_tc5 true); by vm_compute.
  - apply tcs_push. by vm_compute.
Qed.


Definition ex_framed : tcpFramedFlow := mkFlow [] [[x68; x69]] None false [x68; x69] [] false.

Lemma tcp_client_stream_witness : ff_read ex_framed ++ ff_buf ex_framed ++ concat (ff_data ex_framed) = ff_recv ex_framed.
Proof.
  refine (proj1 (proj2 (tcp_client_stream (Writer [] None) ex_tc6 1001 ex_framed ex_tc6_reach _)) eq_refl). vm_compute. reflexivity.
Defined.

Lemma tcp_client_early_data_lost_witness :
  exists c1 c2 c3,
    readLoop_frame ex_tc1 (Ok (mkFrame FrameOPENTCPOK (EncodeOpenOKPayload (mkOpenOKPayload 1001 3)))) = Done (c1, true)
    /\ readLoop_frame c1 (Ok (mkFrame FrameTCPDATA (EncodeTCPDataPayload 1001 [x68; x69]))) = Done (c2, true)
    /\ open_receive c2 (true, 1001) = Some (c3, Ok tt)
    /\ tc_objs (open_enlist c3 1001) !! 1001 = Some new_framed_flow /\ 1001 ∈ tc_flows (open_enlist c3 1001)
    /\ tc_hand (open_enlist c3 1001) = tc_hand ex_tc1.
Proof.
  apply (tcp_client_early_data_lost (Writer [] None) ex_tc1 1001 [x68; x69] ex_tc1_reach).
  - apply (bool_decide_unpack _). vm_compute. exact I.
  - split; vm_compute; congruence.
Defined.

Lemma tcp_client_close_race_witness :
  exists c1, readLoop_frame ex_tc4 (Ok (mkFrame FrameTCPDATA (EncodeTCPDataPayload 1001 [x68]))) = Done (c1, true)
    /\ readLoop_push (flow_Close c1 1001) = Crashed "send on closed channel".
Proof.
  apply (tcp_client_close_race (Writer [] None) ex_tc4 1001 new_framed_flow [x68] ex_tc4_reach).
  - split; vm_compute; congruence.
  - apply (bool_decide_unpack _). vm_compute. exact I.
  - vm_compute. reflexivity.
  - reflexivity.
Defined.

Definition ex_tc7 : tcpSessionClient := tc_set_obj ex_tc6 1001 (pushErr ex_framed EEOF).

Lemma tcp_client_close_truncates_witness :
  exists c' f', flow_Read ex_tc7 1001 4096 FromErr = Some (c', Err EEOF) /\ tc_objs c' !! 1001 = Some f' /\ ff_data f' = [[x68; x69]].
Proof.
  apply (tcp_client_close_truncates ex_tc7 1001 (pushErr ex_framed EEOF) 4096 EEOF); vm_compute; reflexivity.
Defined.
