(* ===== verification/ClientQUIC.v ===== *)
(** * The client library: sessions over QUIC ([internal/sessionclient/quic_client.go])

    The control stream is a writer and the list of frames its reads give; the requests that wait
    for an answer hold [ctrlMu], so one at a time reads them. Datagrams arrive at the loop, which
    looks the flow up under [udpMu] and hands the payload over after it: in between the packet is in
    [qc_hand]. [udpMu] is not reentrant: a lock taken by the goroutine that holds it blocks. *)

From S2P Require Import Prelude Wire Frame Datagram GoString Crypto Auth ClientConfig Client ClientTCP.

(** [incoming] holds at most 8192 payloads, [errCh] one error. *)
Record quicUDPFlow := mkQF {
  uq_seq : Z; uq_reassembly : Reassembly; uq_incoming : list (list byte); uq_err : option goerr; uq_closed : bool }.

Record quicClient := mkQC {
  qc_cfg : ClientConfig; qc_out : writer; qc_flows : gset Z; qc_objs : gmap Z quicUDPFlow;
  qc_sent : list (list byte); qc_hand : option (Z * DatagramPacket); qc_done : bool }.

Definition qc_set_out (c : quicClient) (w : writer) : quicClient :=
  mkQC (qc_cfg c) w (qc_flows c) (qc_objs c) (qc_sent c) (qc_hand c) (qc_done c).
Definition qc_set_flows (c : quicClient) (fl : gset Z) (objs : gmap Z quicUDPFlow) : quicClient :=
  mkQC (qc_cfg c) (qc_out c) fl objs (qc_sent c) (qc_hand c) (qc_done c).
Definition qc_set_hand (c : quicClient) (h : option (Z * DatagramPacket)) : quicClient :=
  mkQC (qc_cfg c) (qc_out c) (qc_flows c) (qc_objs c) (qc_sent c) h (qc_done c).
Definition qc_set_sent (c : quicClient) (l : list (list byte)) : quicClient :=
  mkQC (qc_cfg c) (qc_out c) (qc_flows c) (qc_objs c) l (qc_hand c) (qc_done c).

(** The client after [auth]. *)
Definition new_quic_client (cfg : ClientConfig) (w : writer) : quicClient := mkQC cfg w ∅ ∅ [] None false.

(** [dialQUIC]: [connect] is the QUIC dial with the opening of the control stream. The second
    component says whether the connection was closed again. *)
Definition dialQUIC (cfg : ClientConfig) (connect : tlsClient -> res Z) (control : Z -> res writer) (now : Z) (nonce : res (list byte))
    (reply : res Frame) : res quicClient * bool :=
  match client_TLSConfig cfg with
  | Err e => (Err e, false)
  | Panic m => (Panic m, false)
  | Ok tls =>
      match connect tls with
      | Err e => (Err (EWrap "dial quic" e), false)
      | Panic m => (Panic m, false)
      | Ok conn =>
          match control conn with
          | Err e => (Err (EWrap "open control stream" e), true)
          | Panic m => (Panic m, true)
          | Ok w =>
              match client_auth cfg quic_caps now nonce w reply with
              | (w, Ok _) => (Ok (new_quic_client cfg w), false)
              | (_, Err e) => (Err e, true)
              | (_, Panic m) => (Panic m, true)
              end
          end
      end
  end.

(** ** Requests on the control stream *)

Definition pong (w : writer) (f : Frame) : writer :=
  if frame_type f =? FramePING then (WriteFrame w FramePONG (frame_payload f)).1 else w.

(** The loop of [openFlow]: what is left to read, the writer and the result; [None] while it still
    waits. *)
Fixpoint await_open (okType failType flowID : Z) (frames : list (res Frame)) (w : writer) : option (list (res Frame) * writer * res unit) :=
  match frames with
  | [] => None
  | Err e :: rest => Some (rest, w, Err (EWrap "read open response" e))
  | Panic m :: rest => Some (rest, w, Panic m)
  | Ok f :: rest =>
      if frame_type f =? okType then
        match DecodeOpenOKPayload (frame_payload f) with
        | Err e => Some (rest, w, Err (EWrap "decode open ok payload" e))
        | Panic m => Some (rest, w, Panic m)
        | Ok p => if negb (ok_FlowID p =? flowID) then await_open okType failType flowID rest w else Some (rest, w, Ok tt)
        end
      else if frame_type f =? failType then
        match decodeFailPayload (frame_payload f) with
        | Err e => Some (rest, w, Err e)
        | Panic m => Some (rest, w, Panic m)
        | Ok (failFlowID, reason) =>
            if negb (failFlowID =? flowID) && negb (failFlowID =? 0) then await_open okType failType flowID rest w
            else Some (rest, w, Err (ENew (if String.eqb reason "" then "open flow rejected" else reason)))
        end
      else await_open okType failType flowID rest (pong w f)
  end.

Definition openFlow (reqType okType failType : Z) (payload : list byte) (flowID : Z) (frames : list (res Frame)) (w : writer)
  : option (list (res Frame) * writer * res unit) :=
  let '(w, err) := WriteFrame w reqType payload in
  match err with
  | Some e => Some (frames, w, Err (EWrap "write open frame" e))
  | None => await_open okType failType flowID frames w
  end.

Definition open_request (flowID : Z) (dstHost : string) (dstPort : Z) : list byte :=
  EncodeOpenPayload (mkOpenPayload flowID dstHost [] (u16 dstPort)).

(** [openTCPFlow]: [stream] is the result of opening a stream and [write] the error of writing its
    header; the result is the header that was written. *)
Definition quic_openTCPFlow (c : quicClient) (flowID : Z) (dstHost : string) (dstPort : Z) (frames : list (res Frame))
    (stream : res Z) (write : option goerr) : option (list (res Frame) * quicClient * res (Z * list byte)) :=
  match openFlow FrameOPENTCP FrameOPENTCPOK FrameOPENTCPFAIL (open_request flowID dstHost dstPort) flowID frames (qc_out c) with
  | None => None
  | Some (rest, w, r) =>
      Some (rest, qc_set_out c w,
        _ ← r; st ← wrap_err "open tcp flow stream" stream;
        match write with
        | Some e => Err (EWrap "write tcp flow header" e)
        | None => Ok (st, be_put 8 flowID)
        end)
  end.

Definition quic_openUDPFlow (c : quicClient) (flowID : Z) (dstHost : string) (dstPort : Z) (frames : list (res Frame))
  : option (list (res Frame) * quicClient * res unit) :=
  match openFlow FrameOPENUDP FrameOPENUDPOK FrameOPENUDPFAIL (open_request flowID dstHost dstPort) flowID frames (qc_out c) with
  | None => None
  | Some (rest, w, r) =>
      let c := qc_set_out c w in
      match r with
      | Ok _ => Some (rest, qc_set_flows c ({[flowID]} ∪ qc_flows c) (<[flowID := mkQF 0 NewReassembly [] None false]> (qc_objs c)), Ok tt)
      | Err e => Some (rest, c, Err e)
      | Panic m => Some (rest, c, Panic m)
      end
  end.

(** The loop of [probeRTT]; the time it took is left out. *)
Fixpoint await_pong (token : list byte) (frames : list (res Frame)) (w : writer) : option (list (res Frame) * writer * res unit) :=
  match frames with
  | [] => None
  | Err e :: rest => Some (rest, w, Err e)
  | Panic m :: rest => Some (rest, w, Panic m)
  | Ok f :: rest =>
      if (frame_type f =? FramePONG) && bool_decide (frame_payload f = token) then Some (rest, w, Ok tt)
      else await_pong token rest (pong w f)
  end.
Definition quic_probeRTT (c : quicClient) (token : list byte) (frames : list (res Frame)) : option (list (res Frame) * quicClient * res unit) :=
  let '(w, err) := WriteFrame (qc_out c) FramePING token in
  match err with
  | Some e => Some (frames, qc_set_out c w, Err e)
  | None =>
      match await_pong token frames w with
      | None => None
      | Some (rest, w, r) => Some (rest, qc_set_out c w, r)
      end
  end.

Definition ctrlCloseFlow (c : quicClient) (flowID : Z) : quicClient :=
  qc_set_out c (WriteFrame (qc_out c) FrameCLOSEFLOW (EncodeCloseFlowPayload (mkCloseFlowPayload flowID))).1.

(** ** TCP flows *)

(** The two directions of the flow's stream; [qt_closed]: [closeOnce] was used. *)
Record quicTCPFlow := mkQT { qt_id : Z; qt_in : reader; qt_out : writer; qt_closed : bool }.

(** A read into [n] bytes when the stream has [ready] bytes at hand or has ended. *)
Definition qt_Read (f : quicTCPFlow) (n ready : Z) : quicTCPFlow * res (list byte) :=
  let l := rd_bytes (qt_in f) in
  if bool_decide (l = []) then (f, Err (rd_fin (qt_in f)))
  else
    let k := Z.min n ready in
    (mkQT (qt_id f) (Reader (zdrop k l) (rd_fin (qt_in f))) (qt_out f) (qt_closed f), Ok (ztake k l)).
Definition qt_Write (f : quicTCPFlow) (p : list byte) : quicTCPFlow * option goerr :=
  let '(w, err) := w_write (qt_out f) p in (mkQT (qt_id f) (qt_in f) w (qt_closed f), err).
(** The stream's [Close] ends its sending direction only; [closeErr] is its result. *)
Definition qt_Close (c : quicClient) (f : quicTCPFlow) (closeErr : option goerr) : quicClient * quicTCPFlow * option goerr :=
  if qt_closed f then (c, f, None)
  else (ctrlCloseFlow c (qt_id f), mkQT (qt_id f) (qt_in f) (Writer (w_out (qt_out f)) (Some 0)) true, closeErr).

(** ** UDP flows *)

Definition incoming_cap : Z := 8192.

Definition pushPayload (f : quicUDPFlow) (payload : list byte) : outcome quicUDPFlow :=
  if uq_closed f then Crashed "send on closed channel"
  else if zlen (uq_incoming f) <? incoming_cap
  then Done (mkQF (uq_seq f) (uq_reassembly f) (uq_incoming f ++ [payload]) (uq_err f) (uq_closed f))
  else Done f.
Definition uq_pushErr (f : quicUDPFlow) (err : goerr) : quicUDPFlow :=
  mkQF (uq_seq f) (uq_reassembly f) (uq_incoming f) (Some (default err (uq_err f))) (uq_closed f).

(** [datagramLoop] up to the lookup; [false] when the loop ends. *)
Definition datagramLoop_lookup (c : quicClient) (raw : res (list byte)) : quicClient * bool :=
  match raw with
  | Ok raw =>
      match DecodeDatagramPacket raw with
      | Ok pkt => (if bool_decide (dp_FlowID pkt ∈ qc_flows c) then qc_set_hand c (Some (dp_FlowID pkt, pkt)) else c, true)
      | _ => (c, true)
      end
  | Err e => (qc_set_flows c (qc_flows c) (map_imap (fun id f => Some (if bool_decide (id ∈ qc_flows c) then uq_pushErr f e else f)) (qc_objs c)), false)
  | Panic _ => (c, false)
  end.
(** The rest of the turn. *)
Definition datagramLoop_push (c : quicClient) (now : Z) : outcome quicClient :=
  match qc_hand c with
  | None => Done c
  | Some (id, pkt) =>
      let c := qc_set_hand c None in
      match qc_objs c !! id with
      | None => Done c
      | Some f =>
          let '(r, (payload, done)) := Add now (uq_reassembly f) pkt in
          let f := mkQF (uq_seq f) r (uq_incoming f) (uq_err f) (uq_closed f) in
          if negb done then Done (qc_set_flows c (qc_flows c) (<[id := f]> (qc_objs c)))
          else f ← pushPayload f payload; Done (qc_set_flows c (qc_flows c) (<[id := f]> (qc_objs c)))
      end
  end.

(** [Send]: [stop k] is the error that ends the loop before the [k]-th datagram is sent. *)
Fixpoint send_loop (k : nat) (pkts : list (list byte)) (stop : nat -> option goerr) (sent : list (list byte)) : list (list byte) * option goerr :=
  match pkts with
  | [] => (sent, None)
  | p :: pkts => match stop k with Some e => (sent, Some e) | None => send_loop (S k) pkts stop (sent ++ [p]) end
  end.
Definition udp_Send (c : quicClient) (id : Z) (payload : list byte) (stop : nat -> option goerr) : quicClient * option goerr :=
  match qc_objs c !! id with
  | None => (c, None)
  | Some f =>
      let seq := u32 (uq_seq f + 1) in
      let c := qc_set_flows c (qc_flows c) (<[id := mkQF seq (uq_reassembly f) (uq_incoming f) (uq_err f) (uq_closed f)]> (qc_objs c)) in
      match FragmentDatagram id seq payload (cc_MaxDgramPayload (qc_cfg c)) with
      | Ok pkts => let '(sent, err) := send_loop 0 pkts stop (qc_sent c) in (qc_set_sent c sent, err)
      | Err e => (c, Some e)
      | Panic m => (c, Some (ENew m))
      end
  end.

(** The case that the [select] of [Recv] takes; [CtxDone] is the caller's context. *)
Inductive recv_case := FromIncoming | FromErrCh | CtxDone (err : goerr).
Definition udp_Recv (c : quicClient) (id : Z) (pick : recv_case) : option (quicClient * res (list byte)) :=
  match qc_objs c !! id with
  | None => None
  | Some f =>
      let put f := qc_set_flows c (qc_flows c) (<[id := f]> (qc_objs c)) in
      match pick with
      | FromIncoming =>
          match uq_incoming f with
          | [] => if uq_closed f then Some (c, Err EEOF) else None
          | p :: rest => Some (put (mkQF (uq_seq f) (uq_reassembly f) rest (uq_err f) (uq_closed f)), Ok p)
          end
      | FromErrCh =>
          match uq_err f with
          | Some e => Some (put (mkQF (uq_seq f) (uq_reassembly f) (uq_incoming f) None (uq_closed f)), Err e)
          | None => None
          end
      | CtxDone e => Some (c, Err e)
      end
  end.

(** [Close] of a flow; [locked]: the caller holds [udpMu]. *)
Definition udp_Close (locked : bool) (c : quicClient) (id : Z) : outcome quicClient :=
  match qc_objs c !! id with
  | None => Done c
  | Some f =>
      if uq_closed f then Done c
      else if locked then Blocked
      else
        let f := mkQF (uq_seq f) (uq_reassembly f) (uq_incoming f) (uq_err f) true in
        Done (ctrlCloseFlow (qc_set_flows c (qc_flows c ∖ {[id]}) (<[id := f]> (qc_objs c))) id)
  end.

(** [close] of the client: it calls [Close] of every flow with [udpMu] held. The control stream and
    the connection are closed at the end. *)
Definition quic_close (c : quicClient) : outcome quicClient :=
  if qc_done c then Done c
  else
    let c := mkQC (qc_cfg c) (qc_out c) (qc_flows c) (qc_objs c) (qc_sent c) (qc_hand c) true in
    c ← foldl (fun c id => c ← c; udp_Close true c id) (Done c) (elements (qc_flows c));
    Done (qc_set_out (qc_set_flows c ∅ (qc_objs c)) (Writer (w_out (qc_out c)) (Some 0))).

(** ** Lemmas *)

(** A frame that is not the answer for the flow. *)
Definition other_frame (okType failType flowID : Z) (f : Frame) : Prop :=
  if frame_type f =? okType then exists p, DecodeOpenOKPayload (frame_payload f) = Ok p /\ ok_FlowID p <> flowID
  else if frame_type f =? failType then exists id reason, decodeFailPayload (frame_payload f) = Ok (id, reason) /\ id <> flowID /\ id <> 0
  else True.

Lemma await_open_skips okType failType flowID pre rest : forall w,
  okType <> FramePING -> failType <> FramePING -> Forall (other_frame okType failType flowID) pre ->
  await_open okType failType flowID (map Ok pre ++ rest) w = await_open okType failType flowID rest (foldl pong w pre).
Proof.
  induction pre as [|f pre IH]; intros w Ho Hf Hp; [done|]. apply Forall_cons in Hp as [Hfr Hp]. cbn [map app await_open foldl].
  unfold other_frame in Hfr. destruct (frame_type f =? okType) eqn:E1.
  - destruct Hfr as (p & -> & Hne). rewrite (proj2 (Z.eqb_neq _ _) Hne). cbn [negb]. rewrite IH by done. f_equal. f_equal.
    unfold pong. rewrite (proj2 (Z.eqb_neq _ _)); [done|]. zbool. congruence.
  - destruct (frame_type f =? failType) eqn:E2; [|by apply IH].
    destruct Hfr as (id & reason & -> & Hne & Hn0). rewrite (proj2 (Z.eqb_neq _ _) Hne), (proj2 (Z.eqb_neq _ _) Hn0). cbn [negb andb].
    rewrite IH by done. f_equal. f_equal. unfold pong. rewrite (proj2 (Z.eqb_neq _ _)); [done|]. zbool. congruence.
Qed.

Lemma close_loop_blocked c l :
  (exists id f, id ∈ l /\ qc_objs c !! id = Some f /\ uq_closed f = false) ->
  foldl (fun c id => c ← c; udp_Close true c id) (Done c) l = Blocked.
Proof.
  assert (Hb : forall l, foldl (fun (c : outcome quicClient) id => c ← c; udp_Close true c id) Blocked l = Blocked) by (clear; induction l; done).
  induction l as [|x l IH]; intros (id & f & Hin & Hf & Hc); [by apply not_elem_of_nil in Hin|].
  cbn [foldl mbind outcome_bind]. unfold udp_Close at 2. destruct (qc_objs c !! x) as [g|] eqn:Ex.
  - destruct (uq_closed g) eqn:Eg; [|apply Hb]. apply IH. exists id, f. split; [|done].
    apply elem_of_cons in Hin as [->|Hin]; [congruence|done].
  - apply IH. exists id, f. split; [|done]. apply elem_of_cons in Hin as [->|Hin]; [congruence|done].
Qed.

(** A turn of the datagram loop without anything in between. *)
Definition datagram_turn (c : quicClient) (now : Z) (raw : list byte) : outcome quicClient :=
  datagramLoop_push (datagramLoop_lookup c (Ok raw)).1 now.
Fixpoint datagram_turns (c : quicClient) (tr : list (Z * list byte)) : outcome quicClient :=
  match tr with
  | [] => Done c
  | (now, raw) :: tr => c ← datagram_turn c now raw; datagram_turns c tr
  end.

(** The packets of a flow in what arrives. *)
Fixpoint own_packets (id : Z) (tr : list (Z * list byte)) : list (Z * DatagramPacket) :=
  match tr with
  | [] => []
  | (now, raw) :: tr =>
      match DecodeDatagramPacket raw with
      | Ok pkt => if decide (dp_FlowID pkt = id) then (now, pkt) :: own_packets id tr else own_packets id tr
      | _ => own_packets id tr
      end
  end.

(** Open flows with room for [room] more payloads. *)
Definition roomy (room : Z) (f : quicUDPFlow) : Prop := uq_closed f = false /\ zlen (uq_incoming f) + room <= incoming_cap.

Lemma datagram_turn_spec c now raw id f room :
  (forall j, j ∈ qc_flows c -> exists g, qc_objs c !! j = Some g /\ roomy (1 + room) g) -> 0 <= room -> qc_hand c = None ->
  id ∈ qc_flows c -> qc_objs c !! id = Some f ->
  exists c' f', datagram_turn c now raw = Done c' /\ qc_flows c' = qc_flows c /\ qc_hand c' = None
    /\ (forall j, j ∈ qc_flows c -> exists g, qc_objs c' !! j = Some g /\ roomy room g)
    /\ qc_objs c' !! id = Some f'
    /\ match DecodeDatagramPacket raw with
       | Ok pkt => if decide (dp_FlowID pkt = id)
                   then let '(r, (payload, done)) := Add now (uq_reassembly f) pkt in
                        uq_reassembly f' = r /\ uq_incoming f' = uq_incoming f ++ (if done then [payload] else [])
                   else f' = f
       | _ => f' = f
       end.
Proof.
  intros Hroom H0 Hh Hid Hf.
  assert (Hweak : forall j, j ∈ qc_flows c -> exists g, qc_objs c !! j = Some g /\ roomy room g).
  { intros j Hj. destruct (Hroom j Hj) as (g & Hg & Hc & Hz). exists g. split; [done|]. split; [done|]. lia. }
  unfold datagram_turn, datagramLoop_lookup. destruct (DecodeDatagramPacket raw) as [pkt| |]; cbn [fst].
  2,3: exists c, f; unfold datagramLoop_push; rewrite Hh; by split_and!.
  case_bool_decide as Hin; cycle 1.
  { exists c, f. unfold datagramLoop_push. rewrite Hh. split_and!; try done. destruct (decide _) as [<-|]; done. }
  unfold datagramLoop_push. cbn [qc_set_hand qc_hand qc_objs qc_flows]. destruct (Hroom _ Hin) as (g & Hg & Hgc & Hgz). rewrite Hg.
  destruct (Add now (uq_reassembly g) pkt) as [r [payload done]] eqn:Ea.
  assert (Hpush : exists g', (if negb done then Done (mkQF (uq_seq g) r (uq_incoming g) (uq_err g) (uq_closed g)) else
      pushPayload (mkQF (uq_seq g) r (uq_incoming g) (uq_err g) (uq_closed g)) payload) = Done g'
      /\ uq_reassembly g' = r /\ uq_incoming g' = uq_incoming g ++ (if done then [payload] else []) /\ roomy room g').
  { destruct done; cbn [negb].
    - unfold pushPayload. cbn [uq_closed uq_incoming]. rewrite Hgc. rewrite (proj2 (Z.ltb_lt _ _)) by lia.
      eexists. split; [reflexivity|]. cbn. split_and!; [done|done|]. split; [done|]. cbn. rewrite zlen_app. change (zlen [payload]) with 1. lia.
    - eexists. split; [reflexivity|]. cbn. rewrite app_nil_r. split_and!; [done|done|]. split; [done|]. cbn. lia. }
  destruct Hpush as (g' & Hp & Hr & Hi & Hro).
  exists (qc_set_flows (qc_set_hand (qc_set_hand c (Some (dp_FlowID pkt, pkt))) None) (qc_flows c) (<[dp_FlowID pkt := g']> (qc_objs c))).
  exists (if decide (dp_FlowID pkt = id) then g' else f). split_and!; [|done|done| | |].
  - destruct done; cbn [negb] in *; [rewrite Hp; done|by injection Hp as <-].
  - intros j Hj. cbn. destruct (decide (j = dp_FlowID pkt)) as [->|Hne]; [rewrite lookup_insert_eq; eauto|]. rewrite lookup_insert_ne by done. auto.
  - cbn. destruct (decide (dp_FlowID pkt = id)) as [->|Hne]; [apply lookup_insert_eq|by rewrite lookup_insert_ne].
  - destruct (decide (dp_FlowID pkt = id)) as [E|Hne]; [|done]. rewrite E in Hg. assert (g = f) as -> by congruence. rewrite Ea. done.
Qed.

Lemma datagram_turns_spec id tr : forall c f,
  (forall j, j ∈ qc_flows c -> exists g, qc_objs c !! j = Some g /\ roomy (zlen tr) g) -> qc_hand c = None ->
  id ∈ qc_flows c -> qc_objs c !! id = Some f ->
  exists c' f', datagram_turns c tr = Done c' /\ qc_objs c' !! id = Some f'
    /\ uq_incoming f' = uq_incoming f ++ map snd (run_adds (uq_reassembly f) (own_packets id tr)).2.
Proof.
  induction tr as [|[now raw] tr IH]; intros c f Hroom Hh Hid Hf; cbn [datagram_turns own_packets].
  { exists c, f. cbn. by rewrite app_nil_r. }
  rewrite zlen_cons in Hroom.
  destruct (datagram_turn_spec c now raw id f (zlen tr) Hroom (zlen_nonneg tr) Hh Hid Hf) as (c1 & f1 & E & Hfl & Hh1 & Hr1 & Hf1 & Hcase).
  rewrite E. cbn [mbind outcome_bind].
  destruct (IH c1 f1) as (c' & f' & E' & Hf' & Hi); [by rewrite Hfl|done|by rewrite Hfl|done|].
  exists c', f'. split; [done|]. split; [done|]. rewrite Hi.
  destruct (DecodeDatagramPacket raw) as [pkt| |]; [|by subst f1..]. destruct (decide (dp_FlowID pkt = id)); [|by subst f1].
  cbn [run_adds]. destruct (Add now (uq_reassembly f) pkt) as [r [payload done]]. destruct Hcase as [-> ->].
  destruct (run_adds r (own_packets id tr)) as [r2 out]. cbn [snd map]. destruct done; cbn [map snd]; by rewrite <- ?app_assoc, ?app_nil_r.
Qed.

(** ** Theorems *)

(** An opener takes exactly its own answer: whatever frames for other flows, pings and unknown
    frames come before it, [openFlow] answers the pings in order and returns without error on the
    gateway's OK for its flow, and with the gateway's reason on its refusal, leaving the frames that
    follow unread. *)
Theorem quic_open_answer okType failType flowID pre rest w reason :
  okType <> failType -> okType <> FramePING -> failType <> FramePING -> is_u64 flowID -> small_bytes (bytes_of_string reason) ->
  Forall (other_frame okType failType flowID) pre ->
  await_open okType failType flowID (map Ok pre ++ Ok (mkFrame okType (EncodeOpenOKPayload (mkOpenOKPayload flowID 3))) :: rest) w
    = Some (rest, foldl pong w pre, Ok tt)
  /\ await_open okType failType flowID (map Ok pre ++ Ok (mkFrame failType (EncodeFailPayload (mkFailPayload flowID reason))) :: rest) w
    = Some (rest, foldl pong w pre, Err (ENew (if String.eqb reason "" then "open flow rejected" else reason))).
Proof.
  intros Hof Ho Hf Hid Hs Hp. rewrite !await_open_skips by done. cbn [await_open frame_type frame_payload].
  rewrite !Z.eqb_refl, (proj2 (Z.eqb_neq failType okType)) by congruence.
  rewrite open_ok_roundtrip by (done || cbn; lia). cbn [ok_FlowID]. rewrite Z.eqb_refl. cbn [negb].
  rewrite decodeFailPayload_encode by done. cbn [fp_FlowID Reason]. rewrite Z.eqb_refl. done.
Qed.

(** UDP payloads of the gateway reach the application: a client that processes any sequence of
    datagrams, of all its flows and undecodable ones, with room in its queues, does not fail, keeps
    the payloads of a flow in the order they were completed, and delivers every payload whose
    fragments arrive in order within one reassembly window, exactly once. *)
Theorem quic_udp_delivers id tr c f seq t0 ps :
  (forall j, j ∈ qc_flows c -> exists g, qc_objs c !! j = Some g /\ roomy (zlen tr) g) -> qc_hand c = None ->
  id ∈ qc_flows c -> qc_objs c !! id = Some f ->
  Forall (fun tp => t0 <= tp.1 <= t0 + reassemblyTTL) (own_packets id tr) ->
  lookup_key (uq_reassembly f) (id, seq) = None -> train (id, seq) ps -> key_packets (id, seq) (own_packets id tr) = ps ->
  exists c' f', datagram_turns c tr = Done c' /\ qc_objs c' !! id = Some f'
    /\ exists out, uq_incoming f' = uq_incoming f ++ map snd out /\ key_deliveries (id, seq) out = [train_payload ps].
Proof.
  intros Hroom Hh Hid Hf Ht Hl Htr Hk. destruct (datagram_turns_spec id tr c f Hroom Hh Hid Hf) as (c' & f' & E & Hf' & Hi).
  exists c', f'. split; [done|]. split; [done|]. eexists. split; [exact Hi|].
  rewrite (run_adds_train (id, seq) t0 _ _ ps Ht); [|by intros st; rewrite Hl|done|done]. unfold key_data. by rewrite Hl.
Qed.

(** Closing a QUIC client with an open UDP flow never returns: [close] holds [udpMu] and calls
    [Close] of the flow, which locks it again. Without UDP flows it closes the connection. *)
Theorem quic_close_deadlock c :
  qc_done c = false ->
  ((exists id f, id ∈ qc_flows c /\ qc_objs c !! id = Some f /\ uq_closed f = false) -> quic_close c = Blocked)
  /\ (qc_flows c = ∅ -> exists c', quic_close c = Done c' /\ qc_done c' = true /\ w_room (qc_out c') = Some 0).
Proof.
  intros Hd. unfold quic_close. rewrite Hd. split.
  - intros (id & f & Hin & Hf & Hc). rewrite close_loop_blocked; [done|]. exists id, f. split; [by apply elem_of_elements|done].
  - intros E. cbn [qc_flows]. rewrite E, elements_empty. cbn. eauto.
Qed.

(** Closing a UDP flow while the datagram loop holds a packet for it panics, like a TCP flow. *)
Theorem quic_udp_close_race c now id f payload seq raw :
  DecodeDatagramPacket raw = Ok (mkPacket id 0 seq payload) -> id ∈ qc_flows c -> qc_objs c !! id = Some f -> uq_closed f = false ->
  exists c1, udp_Close false (datagramLoop_lookup c (Ok raw)).1 id = Done c1
    /\ datagramLoop_push c1 now = Crashed "send on closed channel".
Proof.
  intros Hr Hid Hf Hc. unfold datagramLoop_lookup. rewrite Hr. cbn [dp_FlowID]. rewrite bool_decide_eq_true_2 by done.
  unfold udp_Close. cbn [fst qc_set_hand qc_objs]. rewrite Hf, Hc. eexists. split; [reflexivity|].
  unfold datagramLoop_push, ctrlCloseFlow. cbn [qc_set_out qc_set_flows qc_set_hand qc_hand qc_objs]. rewrite lookup_insert_eq. done.
Qed.

(** Calls of [Close] one after the other. *)
Fixpoint qt_closes (c : quicClient) (f : quicTCPFlow) (errs : list (option goerr)) : quicClient * quicTCPFlow :=
  match errs with
  | [] => (c, f)
  | e :: errs => let '(c, f, _) := qt_Close c f e in qt_closes c f errs
  end.
Lemma qt_closes_closed errs : forall c f, qt_closed f = true -> qt_closes c f errs = (c, f).
Proof. induction errs as [|e errs IH]; intros c f Hf; [done|]. cbn. unfold qt_Close. rewrite Hf. by apply IH. Qed.

(** A TCP flow over QUIC is closed once: however often [Close] is called, the gateway is sent one
    message more, which it reads as the close of this flow, and nothing else of the session changes;
    what was written before is on the stream and nothing is written after; what the gateway sent can
    still be read. *)
Theorem quic_tcp_close_once c f out e errs p :
  is_u64 (qt_id f) -> qt_closed f = false -> qc_out c = Writer out None -> p <> [] ->
  let '(c', f') := qt_closes c f (e :: errs) in
  (exists msg, c' = qc_set_out c (Writer (out ++ msg) None)
     /\ forall fin, exists fr, ReadFrame (Reader msg fin) = Ok (fr, Reader [] fin)
        /\ frame_type fr = FrameCLOSEFLOW /\ DecodeCloseFlowPayload (frame_payload fr) = Ok (mkCloseFlowPayload (qt_id f)))
  /\ (exists err, (qt_Write f' p).2 = Some err) /\ w_out (qt_out (qt_Write f' p).1) = w_out (qt_out f)
  /\ (forall n ready, (qt_Read f' n ready).2 = (qt_Read f n ready).2).
Proof.
  intros Hid Hcl Hout Hp. cbn [qt_closes]. unfold qt_Close. rewrite Hcl, qt_closes_closed by done. split; [|split_and!].
  - eexists. split; [unfold ctrlCloseFlow; rewrite Hout, WriteFrame_unbounded; reflexivity|]. intros fin. eexists. split_and!.
    + rewrite <- (app_nil_r (frame_bytes _)). apply ReadFrame_frame. split; [by compute|]. unfold small_bytes. cbn [frame_payload]. unfold EncodeCloseFlowPayload. rewrite zlen_be_put. by compute.
    + done.
    + by apply close_flow_roundtrip.
  - unfold qt_Write, w_write. cbn. rewrite (proj2 (Z.leb_gt _ _)) by (by apply nonempty_pos). by exists ENetClosed.
  - unfold qt_Write, w_write. cbn. rewrite (proj2 (Z.leb_gt _ _)) by (by apply nonempty_pos). cbn. by rewrite app_nil_r.
  - intros n ready. unfold qt_Read. cbn. by case_bool_decide.
Qed.

(** ** Witnesses *)

Lemma quic_open_answer_witness :
  await_open FrameOPENTCPOK FrameOPENTCPFAIL 1001
    (map Ok [mkFrame FramePING [x01]; mkFrame FrameOPENTCPOK (EncodeOpenOKPayload (mkOpenOKPayload 1000 3))]
       ++ Ok (mkFrame FrameOPENTCPOK (EncodeOpenOKPayload (mkOpenOKPayload 1001 3))) :: []) (Writer [] None)
    = Some ([], foldl pong (Writer [] None) [mkFrame FramePING [x01]; mkFrame FrameOPENTCPOK (EncodeOpenOKPayload (mkOpenOKPayload 1000 3))], Ok tt).
Proof.
  refine (proj1 (quic_open_answer FrameOPENTCPOK FrameOPENTCPFAIL 1001 _ [] (Writer [] None) "" _ _ _ _ _ _)).
  - discriminate.
  - discriminate.
  - discriminate.
  - split; vm_compute; congruence.
  - vm_compute. congruence.
  - constructor; [exact I|]. constructor; [|constructor]. vm_compute. eexists. split; [reflexivity|]. discriminate.
Defined.

Definition ex_qc : quicClient :=
  mkQC ex_dev_config (Writer [] None) {[7; 8]} {[7 := mkQF 0 NewReassembly [] None false; 8 := mkQF 0 NewReassembly [] None false]} [] None false.
Definition ex_arrivals : list (Z * list byte) :=
  [(10, EncodeDatagramPacket (mkPacket 7 1 3 [x61])); (11, EncodeDatagramPacket (mkPacket 8 0 1 [x7a])); (12, [x00]);
   (13, EncodeDatagramPacket (mkPacket 7 3 3 [x62]))].

Lemma ex_qc_roomy : forall j, j ∈ qc_flows ex_qc -> exists g, qc_objs ex_qc !! j = Some g /\ roomy (zlen ex_arrivals) g.
Proof.
  intros j Hj. exists (mkQF 0 NewReassembly [] None false). apply elem_of_union in Hj as [Hj|Hj]; apply elem_of_singleton in Hj; subst j;
    (split; [vm_compute; reflexivity|split; [reflexivity|vm_compute; congruence]]).
Qed.

Lemma quic_udp_delivers_witness :
  exists c' f', datagram_turns ex_qc ex_arrivals = Done c' /\ qc_objs c' !! 7 = Some f'
    /\ exists out, uq_incoming f' = [] ++ map snd out /\ key_deliveries (7, 3) out = [[x61; x62]].
Proof.
  apply (quic_udp_delivers 7 ex_arrivals ex_qc (mkQF 0 NewReassembly [] None false) 3 10 [mkPacket 7 1 3 [x61]; mkPacket 7 3 3 [x62]]).
  - exact ex_qc_roomy.
  - reflexivity.
  - apply (bool_decide_unpack _). vm_compute. exact I.
  - vm_compute. reflexivity.
  - assert (E : own_packets 7 ex_arrivals = [(10, mkPacket 7 1 3 [x61]); (13, mkPacket 7 3 3 [x62])]) by (vm_compute; reflexivity).
    rewrite E. unfold reassemblyTTL, Second. repeat constructor; cbn; lia.
  - vm_compute. reflexivity.
  - cbn. split_and!; vm_compute; reflexivity.
  - vm_compute. reflexivity.
Defined.

Lemma quic_close_deadlock_witness : quic_close ex_qc = Blocked.
Proof.
  apply (quic_close_deadlock ex_qc eq_refl). exists 7, (mkQF 0 NewReassembly [] None false).
  split; [apply (bool_decide_unpack _); vm_compute; exact I|]. split; vm_compute; reflexivity.
Defined.

Lemma quic_udp_close_race_witness :
  exists c1, udp_Close false (datagramLoop_lookup ex_qc (Ok (EncodeDatagramPacket (mkPacket 7 0 1 [x61])))).1 7 = Done c1
    /\ datagramLoop_push c1 10 = Crashed "send on closed channel".
Proof.
  apply (quic_udp_close_race ex_qc 10 7 (mkQF 0 NewReassembly [] None false) [x61] 1 (EncodeDatagramPacket (mkPacket 7 0 1 [x61])));
    [vm_compute; reflexivity|apply (bool_decide_unpack _); vm_compute; exact I|vm_compute; reflexivity|reflexivity].
Defined.

Lemma quic_tcp_close_once_witness :
  let f := mkQT 7 (Reader [x61] EEOF) (Writer [x41] None) false in
  (forall n ready, (qt_Read (qt_closes ex_qc f [None; None]).2 n ready).2 = (qt_Read f n ready).2)
  /\ w_out (qc_out (qt_closes ex_qc f [None; None]).1) = frame_bytes (mkFrame FrameCLOSEFLOW (be_put 8 7)).
Proof.
  pose proof (quic_tcp_close_once ex_qc (mkQT 7 (Reader [x61] EEOF) (Writer [x41] None) false) [] None [None] [x42]) as H.
  specialize (H ltac:(by compute) eq_refl eq_refl ltac:(done)). cbn zeta. split; [exact (proj2 (proj2 (proj2 H)))|vm_compute; reflexivity].
Defined.
