(* ===== verification/ClientCalls.v ===== *)
(** * The client library: whole calls, and the interface of the transports ([internal/sessionclient])

    A call of the TCP session client gives up its locks and waits, and the file ClientTCP has one
    step for each of its parts. Here the parts are put together in the order of the code:
    [others n] is what the other goroutines of the client do at the [n]-th point where the call lets
    them. Above, [Client] hands every call to its transport through the interface [clientInner],
    which is a class with the three transports as instances. *)

From S2P Require Import Prelude Wire Frame GoString Crypto Auth ClientConfig Client ClientRelay ClientTCP ClientQUIC.

(** ** Reading the answer to the handshake *)

(** What ends the wait of [readFrameWithContext]: the goroutine that reads, the timer, the context. *)
Inductive frame_race := FRead (r : res Frame) | FTimer | FCtx (e : goerr).
Definition readFrameWithContext (x : frame_race) : res Frame :=
  match x with FRead r => r | FTimer => Err EDeadlineExceeded | FCtx e => Err e end.
Definition tcp_auth (cfg : ClientConfig) (now : Z) (nonce : res (list byte)) (w : writer) (x : frame_race) : writer * res unit :=
  client_auth cfg tcp_caps now nonce w (readFrameWithContext x).

(** [readControlFrameLocked] of the QUIC client: the deadline of the read, and its result, where
    [timeout] says that the error of the read is a timeout and [ctx] is the error of the context. *)
Definition control_deadline (now timeout : Z) (d : option Z) : Z :=
  match d with Some d => if d <? now + timeout then d else now + timeout | None => now + timeout end.
Definition readControlFrameLocked (timeout : goerr -> bool) (ctx : option goerr) (r : res Frame) : res Frame :=
  match r with
  | Err e => if timeout e then Err (default EDeadlineExceeded ctx) else Err e
  | r => r
  end.

(** ** The calls of the TCP session client *)

(** What the [select] of a call takes: the answer, or the end of its context. *)
Inductive wait := WAnswer | WCtx (e : goerr).

Definition tcp_openTCPFlow (others : nat -> tcpSessionClient -> outcome tcpSessionClient) (wt : wait)
    (c : tcpSessionClient) (flowID : Z) (dstHost : string) (dstPort : Z) : outcome (tcpSessionClient * res Z) :=
  let k := (true, flowID) in
  c ← others 0%nat (open_register c k);
  let '(c, err) := open_write c k dstHost dstPort in
  match err with
  | Some e => Done (c, Err e)
  | None =>
      c ← others 1%nat c;
      match wt with
      | WCtx e => Done ((open_expire c k e).1, Err e)
      | WAnswer =>
          match open_receive c k with
          | None => Blocked
          | Some (c, Err e) => Done (c, Err e)
          | Some (_, Panic m) => Crashed m
          | Some (c, Ok _) => c ← others 2%nat c; Done (open_enlist c flowID, Ok flowID)
          end
      end
  end.

Definition tcp_openUDPFlow (others : nat -> tcpSessionClient -> outcome tcpSessionClient) (wt : wait)
    (c : tcpSessionClient) (flowID : Z) (dstHost : string) (dstPort : Z) : outcome (tcpSessionClient * res Z) :=
  let k := (false, flowID) in
  c ← others 0%nat (open_register c k);
  let '(c, err) := open_write c k dstHost dstPort in
  match err with
  | Some e => Done (c, Err e)
  | None =>
      c ← others 1%nat c;
      match wt with
      | WCtx e => Done ((open_expire c k e).1, Err e)
      | WAnswer =>
          match open_receive c k with
          | None => Blocked
          | Some (c, Err e) => Done (c, Err e)
          | Some (_, Panic m) => Crashed m
          | Some (c, Ok _) => Done (c, Ok flowID)
          end
      end
  end.

(** [token] is what the random source gave, [elapsed] the time from the start to the answer. *)
Definition tcp_probeRTT (others : nat -> tcpSessionClient -> outcome tcpSessionClient) (wt : wait) (token : res (list byte)) (elapsed : Z)
    (c : tcpSessionClient) : outcome (tcpSessionClient * res Z) :=
  match token with
  | Err e => Done (c, Err (EWrap "random ping token" e))
  | Panic m => Crashed m
  | Ok token =>
      let key := string_of_bytes token in
      c ← others 0%nat (probe_register c key);
      let '(c, err) := probe_write c key in
      match err with
      | Some e => Done (c, Err e)
      | None =>
          c ← others 1%nat c;
          match wt with
          | WCtx e => Done (probe_expire c key e)
          | WAnswer => match probe_receive c key elapsed with None => Blocked | Some r => Done r end
          end
      end
  end.

(** ** The interface of the transports *)

(** A transport is a state [I]; a call also gets what it meets outside, an [E]. A flow is its number. *)
Class clientInner (I E : Type) := mkInner {
  inner_openTCPFlow : E -> I -> Z -> string -> Z -> outcome (I * res Z);
  inner_openUDPFlow : E -> I -> Z -> string -> Z -> outcome (I * res Z);
  inner_probeRTT : E -> I -> outcome (I * res Z);
  inner_close : I -> outcome I }.

(** A transport names the flow it opens as it was told to. *)
Class clientInnerLaws (I E : Type) `{clientInner I E} : Prop := mkInnerLaws {
  open_tcp_id e i id host port i' f : inner_openTCPFlow e i id host port = Done (i', Ok f) -> f = id;
  open_udp_id e i id host port i' f : inner_openUDPFlow e i id host port = Done (i', Ok f) -> f = id }.

Record tcpEnv := mkTcpEnv {
  te_others : nat -> tcpSessionClient -> outcome tcpSessionClient; te_wait : wait; te_token : res (list byte); te_elapsed : Z }.
#[global] Instance tcp_inner : clientInner tcpSessionClient tcpEnv := {
  inner_openTCPFlow e := tcp_openTCPFlow (te_others e) (te_wait e);
  inner_openUDPFlow e := tcp_openUDPFlow (te_others e) (te_wait e);
  inner_probeRTT e := tcp_probeRTT (te_others e) (te_wait e) (te_token e) (te_elapsed e);
  inner_close := tc_close }.

(** The state of the QUIC transport includes the frames that its control stream will deliver. *)
Record quicEnv := mkQuicEnv { qe_stream : res Z; qe_write : option goerr; qe_token : res (list byte); qe_elapsed : Z }.
Definition quic_result {A} (id : Z) (r : option (list (res Frame) * quicClient * res A)) : outcome (quicClient * list (res Frame) * res Z) :=
  match r with
  | None => Blocked
  | Some (_, _, Panic m) => Crashed m
  | Some (rest, c, Err e) => Done (c, rest, Err e)
  | Some (rest, c, Ok _) => Done (c, rest, Ok id)
  end.
#[global] Instance quic_inner : clientInner (quicClient * list (res Frame)) quicEnv := {
  inner_openTCPFlow e i id host port := quic_result id (quic_openTCPFlow i.1 id host port i.2 (qe_stream e) (qe_write e));
  inner_openUDPFlow e i id host port := quic_result id (quic_openUDPFlow i.1 id host port i.2);
  inner_probeRTT e i :=
    match qe_token e with
    | Ok token => quic_result (qe_elapsed e) (quic_probeRTT i.1 token i.2)
    | Err e => Done (i, Err (EWrap "random ping token" e))
    | Panic m => Crashed m
    end;
  inner_close i := c ← quic_close i.1; Done (c, i.2) }.

(** The state of the relay transport includes the counter of its nonces. *)
Record relayEnv := mkRelayEnv {
  re_bad_url : string -> option goerr; re_conn_id : list byte -> res string; re_body : string -> Z -> list byte; re_at : occasion;
  re_Do : client_request -> http_answer }.
Definition relay_result (c : relayClient) (r : Z * res relayTCPFlow) : outcome (relayClient * Z * res Z) :=
  match r with
  | (seq, Ok f) => Done (c, seq, Ok (rf_id f))
  | (seq, Err e) => Done (c, seq, Err e)
  | (_, Panic m) => Crashed m
  end.
#[global] Instance relay_inner : clientInner (relayClient * Z) relayEnv := {
  inner_openTCPFlow e i id host port := relay_result i.1 (relay_openTCPFlow (re_bad_url e) (re_conn_id e) i.1 i.2 (re_at e) id (re_body e host port) (re_Do e));
  inner_openUDPFlow e i id host port := Done (i, _ ← relay_openUDPFlow; Ok id);
  inner_probeRTT e i := Done (i, relay_probeRTT);
  inner_close i := Done i }.

(** ** [Client] *)

Section Calls.
  Context {I E : Type} `{clientInner I E}.

Definition with_inner (c : Client I) (i : I) : Client I := mkClient (cl_transport c) i (nextFlow c).

Definition OpenTCPFlow (e : E) (c : Client I) (dstHost : string) (dstPort : Z) : outcome (Client I * res Z) :=
  let '(c, flowID) := take_flow_id c in
  '(i, r) ← inner_openTCPFlow e (cl_inner c) flowID dstHost dstPort; Done (with_inner c i, r).
Definition OpenUDPFlow (e : E) (c : Client I) (dstHost : string) (dstPort : Z) : outcome (Client I * res Z) :=
  let '(c, flowID) := take_flow_id c in
  '(i, r) ← inner_openUDPFlow e (cl_inner c) flowID dstHost dstPort; Done (with_inner c i, r).
(** A client that [Dial] made has a transport, so that the tests for nil are left out. *)
Definition ProbeRTT (e : E) (c : Client I) : outcome (Client I * res Z) :=
  '(i, r) ← inner_probeRTT e (cl_inner c); Done (with_inner c i, r).
Definition Client_Close (c : Client I) : outcome (Client I) := i ← inner_close (cl_inner c); Done (with_inner c i).

(** The calls of an application, one after the other, and the flows that it got. *)
Inductive call := CallTCP (e : E) (host : string) (port : Z) | CallUDP (e : E) (host : string) (port : Z) | CallProbe (e : E).
Definition opened_flow (r : res Z) : list Z := match r with Ok f => [f] | _ => [] end.
Fixpoint run_calls (calls : list call) (c : Client I) : outcome (Client I * list Z) :=
  match calls with
  | [] => Done (c, [])
  | CallTCP e host port :: calls =>
      '(c, r) ← OpenTCPFlow e c host port; '(c, l) ← run_calls calls c; Done (c, opened_flow r ++ l)
  | CallUDP e host port :: calls =>
      '(c, r) ← OpenUDPFlow e c host port; '(c, l) ← run_calls calls c; Done (c, opened_flow r ++ l)
  | CallProbe e :: calls => '(c, _) ← ProbeRTT e c; run_calls calls c
  end.

(** ** Flow numbers are never used twice *)

Context `{!clientInnerLaws I E}.

Lemma outcome_bind_Done {A B} (m : outcome A) (f : A -> outcome B) b : (m ≫= f) = Done b -> exists a, m = Done a /\ f a = Done b.
Proof. destruct m as [a| |]; cbn; [eauto|discriminate..]. Qed.

Lemma take_flow_id_next (c c1 : Client I) id : 0 <= nextFlow c -> nextFlow c + 1 < 2 ^ 64 -> take_flow_id c = (c1, id) -> id = nextFlow c + 1 /\ nextFlow c1 = nextFlow c + 1.
Proof. intros H0 Hb. unfold take_flow_id. rewrite (u64_small (nextFlow c + 1)) by (unfold is_u64; lia). intros E0. by simplify_eq. Qed.

Lemma open_next (op : E -> I -> Z -> string -> Z -> outcome (I * res Z)) e c host port c' r :
  (forall e i id host port i' f, op e i id host port = Done (i', Ok f) -> f = id) ->
  0 <= nextFlow c -> nextFlow c + 1 < 2 ^ 64 ->
  (let '(c, flowID) := take_flow_id c in '(i, r) ← op e (cl_inner c) flowID host port; Done (with_inner c i, r)) = Done (c', r) ->
  nextFlow c' = nextFlow c + 1 /\ Forall (fun f => f = nextFlow c + 1) (opened_flow r).
Proof.
  intros Hop H0 Hb. destruct (take_flow_id c) as [c1 id] eqn:Et. destruct (take_flow_id_next _ _ _ H0 Hb Et) as [-> E1].
  intros ([i r'] & E2 & E3)%outcome_bind_Done. injection E3 as <- <-. split; [done|]. destruct r' as [f|e0|m]; cbn; constructor; [|constructor].
  by apply Hop in E2.
Qed.

Lemma run_calls_above calls : forall c c' l,
  0 <= nextFlow c -> nextFlow c + zlen calls < 2 ^ 64 -> run_calls calls c = Done (c', l) -> NoDup l /\ Forall (fun f => nextFlow c < f) l.
Proof.
  induction calls as [|k calls IH]; intros c c' l H0 Hb; cbn [run_calls].
  - intros E0. injection E0 as <- <-. split; constructor.
  - unfold zlen in Hb. cbn [length] in Hb. rewrite Nat2Z.inj_succ in Hb. fold (zlen calls) in Hb. assert (Hlt : nextFlow c + 1 < 2 ^ 64) by (unfold zlen in Hb; lia).
    assert (Hgo : forall r c1 l1, nextFlow c1 = nextFlow c + 1 -> Forall (fun f => f = nextFlow c + 1) (opened_flow r) ->
      run_calls calls c1 = Done (c', l1) -> NoDup (opened_flow r ++ l1) /\ Forall (fun f => nextFlow c < f) (opened_flow r ++ l1)).
    { intros r c1 l1 En Hr El. destruct (IH c1 c' l1) as [Hn Hf]; [lia|unfold zlen in *; lia|done|]. assert (Hf' : Forall (fun f => nextFlow c < f) l1).
      { eapply Forall_impl; [exact Hf|]. cbn. lia. }
      destruct r as [f|e|m]; cbn; [|by split..]. apply Forall_cons in Hr as [-> _]. split; constructor; try done; [|lia].
      intros Hin. rewrite Forall_forall in Hf. specialize (Hf _ Hin). lia. }
    destruct k as [e host port|e host port|e].
    + intros ([c1 r] & E1 & ([c2 l1] & E2 & E3)%outcome_bind_Done)%outcome_bind_Done. injection E3 as <- <-.
      destruct (open_next _ _ _ _ _ _ _ open_tcp_id H0 Hlt E1) as [En Hr]. by eapply Hgo.
    + intros ([c1 r] & E1 & ([c2 l1] & E2 & E3)%outcome_bind_Done)%outcome_bind_Done. injection E3 as <- <-.
      destruct (open_next _ _ _ _ _ _ _ open_udp_id H0 Hlt E1) as [En Hr]. by eapply Hgo.
    + intros ([c1 r] & ([i r'] & E1 & E2)%outcome_bind_Done & E3)%outcome_bind_Done. injection E2 as <- <-.
      eapply (IH (with_inner c i)); [done|cbn; unfold zlen in *; lia|done].
Qed.

(** Whatever transport a client has and whatever it meets, the flows that its calls open have
    different numbers, all above those that the protocol keeps for itself. *)
Theorem client_flows_distinct t (i : I) calls c' l :
  zlen calls < 2 ^ 64 - 1000 -> run_calls calls (newClient t i) = Done (c', l) -> NoDup l /\ Forall (fun f => 1000 < f) l.
Proof. intros Hb E0. eapply run_calls_above in E0; [exact E0|done|cbn; lia]. Qed.
End Calls.
Arguments call E : clear implicits.

#[global] Instance tcp_laws : clientInnerLaws tcpSessionClient tcpEnv.
Proof.
  split; intros e i id host port i' f; cbn; unfold tcp_openTCPFlow, tcp_openUDPFlow.
  all: intros (c1 & _ & E1)%outcome_bind_Done; destruct (open_write c1 _ host port) as [c2 [e2|]]; [discriminate|].
  all: apply outcome_bind_Done in E1 as (c3 & _ & E1); destruct (te_wait e); [|discriminate]; destruct (open_receive c3 _) as [[c4 [u|e4|m]]|]; try discriminate.
  - apply outcome_bind_Done in E1 as (c5 & _ & E1). congruence.
  - congruence.
Qed.
#[global] Instance quic_laws : clientInnerLaws (quicClient * list (res Frame)) quicEnv.
Proof.
  split; intros e i id host port i' f; cbn; unfold quic_result.
  - destruct (quic_openTCPFlow _ _ _ _ _ _ _) as [[[rest c] [u|e1|m]]|]; congruence.
  - destruct (quic_openUDPFlow _ _ _ _ _) as [[[rest c] [u|e1|m]]|]; congruence.
Qed.
#[global] Instance relay_laws : clientInnerLaws (relayClient * Z) relayEnv.
Proof.
  split; intros e i id host port i' f; cbn; [|discriminate]. unfold relay_openTCPFlow.
  destruct (doJSON _ _ _ _ _ _ _ _ _) as [seq [connID|e1|m]]; cbn; [|discriminate..]. destruct (String.eqb connID ""); cbn; congruence.
Qed.

(** ** A call of the TCP session client is answered or forgotten *)

Lemma tc_steps_trans a b c : tc_steps a b -> tc_steps b c -> tc_steps a c.
Proof. intros Ha Hb. induction Hb as [|x y z Hb IH Hs]; [done|]. eapply tcss_more; [by apply IH|done]. Qed.

Lemma unregister_gone c k : tc_inv c -> k ∉ tc_pending (unregisterPending c k).
Proof.
  intros Hi. unfold unregisterPending. case_bool_decide as Hk; cbn [negb]; [|done]. rewrite (tv_pending c Hi k Hk). cbn. set_solver.
Qed.
Lemma received_gone c k c' r : tc_inv c -> open_receive c k = Some (c', r) -> k ∉ tc_pending c'.
Proof.
  intros Hi E0 Hk. assert (Hp : tc_pending c' = tc_pending c).
  { unfold open_receive in E0. destruct (tc_opens c !! k) as [ch|]; [|done].
    destruct (ch_value ch) as [out|]; [destruct (or_ok out), k.1; cbn in E0; by simplify_eq|destruct (ch_closed ch); by simplify_eq]. }
  rewrite Hp in Hk. unfold open_receive in E0. rewrite (tv_pending c Hi k Hk) in E0. discriminate E0.
Qed.
Lemma received_ready c id c' u : open_receive c (true, id) = Some (c', Ok u) -> id ∈ tc_ready c'.
Proof.
  unfold open_receive. destruct (tc_opens c !! _) as [ch|]; [|done]. destruct (ch_value ch) as [out|]; [|by destruct (ch_closed ch)].
  destruct (or_ok out); cbn; intros E0; simplify_eq. cbn. set_solver.
Qed.
Lemma open_write_fails c k host port c' e : open_write c k host port = (c', Some e) -> exists w, c' = unregisterPending (tc_set_out c w) k /\ (w_room (tc_out c) = Some 0 -> w_room w = Some 0).
Proof.
  unfold open_write. destruct (tc_writeFrame_spec c (if k.1 then FrameOPENTCP else FrameOPENUDP) (EncodeOpenPayload (mkOpenPayload k.2 host [] (u16 port)))) as (w & E1 & E3).
  destruct (tc_writeFrame _ _ _) as [c1 [e1|]]; intros E2; simplify_eq. cbn in E1. subst c1. by exists w.
Qed.

Lemma receive_no_panic c k c' m : open_receive c k <> Some (c', Panic m).
Proof.
  unfold open_receive. destruct (tc_opens c !! k) as [ch|]; [|done]. destruct (ch_value ch) as [out|]; [|by destruct (ch_closed ch)].
  destruct (or_ok out), k.1; cbn; congruence.
Qed.
Lemma WriteFrame_closed w t p : w_room w = Some 0 -> (WriteFrame w t p).2 <> None.
Proof.
  intros Hr. unfold WriteFrame. pose proof (PutUvarint_nonempty t) as Hne. revert Hne. generalize (PutUvarint t) as q. intros q Hne.
  assert (Hw : w_write w q = (Writer (w_out w ++ ztake 0 q) (Some 0), Some ENetClosed)).
  { unfold w_write. rewrite Hr. rewrite (proj2 (Z.leb_gt _ _)) by (by apply nonempty_pos). done. }
  by rewrite Hw.
Qed.

(** [openTCPFlow] as a whole, among any other goroutines of the client: when it returns a flow, the
    flow is new and is where the read loop finds it; when it returns an error, nothing is left
    registered for it; it waits only as long as there is no answer for it, and it does not panic;
    and on a session that has ended it fails at once. *)
Theorem tcp_open_call w others wt c id host port :
  tc_steps (new_tcp_client w) c -> tc_opens c !! (true, id) = None ->
  (forall n a b, others n a = Done b -> tc_steps a b /\ (id ∈ tc_ready a -> id ∈ tc_ready b)) ->
  match tcp_openTCPFlow others wt c id host port with
  | Done (c', Ok f) => f = id /\ id ∈ tc_flows c' /\ tc_objs c' !! id = Some new_framed_flow /\ tc_steps (new_tcp_client w) c'
  | Done (c', Err _) => (true, id) ∉ tc_pending c' /\ tc_steps (new_tcp_client w) c'
  | Done (_, Panic _) => False
  | Blocked => (exists n a, others n a = Blocked) \/ exists a, tc_steps (new_tcp_client w) a /\ wt = WAnswer /\ open_receive a (true, id) = None
  | Crashed m => exists n a, others n a = Crashed m
  end
  /\ (tc_done c = true -> exists c' e, tcp_openTCPFlow (fun _ a => Done a) wt c id host port = Done (c', Err e)).
Proof.
  intros Hc Hk Ho. assert (H0 : tc_steps (new_tcp_client w) (open_register c (true, id))) by (eapply tcss_more; [done|by apply tcs_register]). split.
  - unfold tcp_openTCPFlow. destruct (others 0%nat _) as [c1| |m] eqn:E1; cbn; [|eauto..].
    destruct (Ho _ _ _ E1) as [S1 _]. pose proof (tc_steps_trans _ _ _ H0 S1) as H1.
    destruct (open_write c1 (true, id) host port) as [c2 err] eqn:E2.
    assert (H2 : tc_steps (new_tcp_client w) c2) by (eapply tcss_more; [exact H1|]; change c2 with (c2, err).1; rewrite <- E2; apply tcs_write).
    destruct err as [e|].
    + split; [|done]. apply open_write_fails in E2 as (w' & -> & Hw). apply unregister_gone, tc_set_out_inv; [by eapply tc_steps_inv|done].
    + destruct (others 1%nat c2) as [c3| |m] eqn:E3; cbn; [|eauto..]. destruct (Ho _ _ _ E3) as [S3 _]. pose proof (tc_steps_trans _ _ _ H2 S3) as H3.
      pose proof (tc_steps_inv _ _ H3) as I3. destruct wt as [|e].
      * destruct (open_receive c3 (true, id)) as [[c4 [u|e|m]]|] eqn:E4; cbn; [| |by apply receive_no_panic in E4|right; eauto].
        -- assert (H4 : tc_steps (new_tcp_client w) c4) by (eapply tcss_more; [exact H3|by eapply tcs_receive]).
           destruct (others 2%nat c4) as [c5| |m] eqn:E5; cbn; [|eauto..]. destruct (Ho _ _ _ E5) as [S5 R5]. pose proof (tc_steps_trans _ _ _ H4 S5) as H5.
           pose proof (R5 (received_ready _ _ _ _ E4)) as Hr. split; [done|]. assert (H6 : tc_steps (new_tcp_client w) (open_enlist c5 id)) by (eapply tcss_more; [exact H5|apply tcs_finish]).
           unfold open_enlist in *. rewrite bool_decide_eq_true_2 in * by done. cbn. split_and!; [set_solver|by rewrite lookup_insert_eq|done].
        -- split; [by eapply received_gone|]. eapply tcss_more; [exact H3|by eapply tcs_receive].
      * split; [by apply unregister_gone|]. eapply tcss_more; [exact H3|exact (tcs_expire c3 (true, id) e)].
  - intros Hd. unfold tcp_openTCPFlow. cbn [mbind outcome_bind]. destruct (open_write _ _ _ _) as [c2 [e|]] eqn:E2; [eauto|]. exfalso. revert E2.
    unfold open_write, tc_writeFrame. pose proof (tv_done _ (tc_steps_inv _ _ H0) Hd) as Hr. pose proof (WriteFrame_closed _ FrameOPENTCP (EncodeOpenPayload (mkOpenPayload id host [] (u16 port))) Hr) as Hw. cbn in *.
    destruct (WriteFrame _ _ _) as [w' [e|]]; cbn in *; congruence.
Qed.

(** ** UDP needs QUIC *)

Definition failed {A} (x : outcome (A * res Z)) : Prop := match x with Done (_, Ok _) => False | _ => True end.

(** A client whose transport is a TCP session or the relay never opens a UDP flow, whatever the
    gateway answers and whatever happens meanwhile; so a configuration that asks for UDP has to
    disable both, as [dialConfigUDP] does. *)
Theorem udp_needs_quic (e : tcpEnv) (c : Client tcpSessionClient) (e' : relayEnv) (c' : Client (relayClient * Z)) host port :
  failed (OpenUDPFlow e c host port) /\ failed (OpenUDPFlow e' c' host port).
Proof.
  split; [|done]. unfold OpenUDPFlow, take_flow_id, failed. cbn [inner_openUDPFlow tcp_inner]. unfold tcp_openUDPFlow.
  destruct (te_others e 0%nat _) as [c1| |m]; cbn; try done. destruct (open_write c1 _ host port) as [c2 [e2|]]; cbn; [done|].
  destruct (te_others e 1%nat c2) as [c3| |m]; cbn; try done. destruct (te_wait e) as [|e3]; cbn; [|done].
  unfold open_receive. destruct (tc_opens c3 !! _) as [ch|]; [|done]. destruct (ch_value ch) as [out|]; [|by destruct (ch_closed ch)].
  by destruct (or_ok out); cbn.
Qed.

(** ** An open that times out *)

Lemma readLoop_open_ok c p : readLoop_frame c (Ok (mkFrame FrameOPENTCPOK p)) = (c ← open_ok c true p; Done (c, true)).
Proof. reflexivity. Qed.
Lemma resolve_absent c k out : k ∉ tc_pending c -> resolvePending c k out = Done c.
Proof. intros Hk. unfold resolvePending. by rewrite bool_decide_eq_false_2. Qed.
Lemma unregister_keeps c k : tc_out (unregisterPending c k) = tc_out c /\ tc_flows (unregisterPending c k) = tc_flows c.
Proof. unfold unregisterPending. case_bool_decide; cbn [negb]; [|done]. by destruct (tc_opens c !! k). Qed.

(** The answer to an open whose caller gave up is dropped: the flow that the gateway opened for it
    is neither used nor closed, since no frame is written to say that nobody wants it. *)
Theorem expired_open_leaves_flow w c id e :
  tc_steps (new_tcp_client w) c -> (true, id) ∈ tc_pending c -> is_u64 id ->
  let c' := (open_expire c (true, id) e).1 in
  readLoop_frame c' (Ok (mkFrame FrameOPENTCPOK (EncodeOpenOKPayload (mkOpenOKPayload id 0)))) = Done (c', true)
  /\ tc_out c' = tc_out c /\ id ∉ tc_flows c'.
Proof.
  intros Hc Hp Hid. pose proof (tc_steps_inv _ _ Hc) as Hi. pose proof (tv_pending c Hi _ Hp) as Ek. intros c'. unfold open_expire in c'. cbn [fst] in c'.
  destruct (unregister_keeps c (true, id)) as [E1 E2]. split_and!; [|done|].
  - rewrite readLoop_open_ok. unfold open_ok. rewrite open_ok_roundtrip by (cbn [ok_FlowID ok_Mode]; unfold is_u64 in *; lia). cbn [ok_FlowID].
    rewrite resolve_absent by (by apply unregister_gone). done.
  - unfold c'. rewrite E2. intros Hf. destruct (tv_flows c Hi _ Hf) as [f Hf']. destruct (tv_objs c Hi _ _ Hf') as [Ha _]. unfold answered in Ha. congruence.
Qed.

(** ** Examples *)

Definition ex_env (wt : wait) : tcpEnv := mkTcpEnv (fun _ c => Done c) wt (Ok ex_nonce16) 5.
(** The read loop gets the gateway's answer while the call waits. *)
Definition ex_ok_payload : list byte := EncodeOpenOKPayload (mkOpenOKPayload 1001 0).
Definition ex_answered (n : nat) (c : tcpSessionClient) : outcome tcpSessionClient :=
  match n, tc_hand c with 1%nat, None => open_ok c true ex_ok_payload | _, _ => Done c end.
Definition ex_client : Client tcpSessionClient := newClient TransportTCPSession (new_tcp_client (Writer [] None)).
Definition ex_calls : list (call tcpEnv) :=
  [CallTCP (mkTcpEnv ex_answered WAnswer (Ok ex_nonce16) 5) "example.org" 443; CallUDP (ex_env (WCtx EDeadlineExceeded)) "example.org" 53; CallProbe (ex_env (WCtx ECanceled))].
Definition ex_run : outcome (Client tcpSessionClient * list Z) := Eval vm_compute in run_calls ex_calls ex_client.

Lemma client_flows_distinct_witness : exists c', run_calls ex_calls ex_client = Done (c', [1001]) /\ NoDup [1001] /\ Forall (fun f => 1000 < f) [1001].
Proof.
  assert (E0 : exists c', run_calls ex_calls ex_client = Done (c', [1001])) by (eexists; vm_compute; reflexivity). destruct E0 as [c' E0].
  exists c'. split; [exact E0|]. exact (client_flows_distinct TransportTCPSession (new_tcp_client (Writer [] None)) ex_calls c' [1001] eq_refl E0).
Defined.

Definition ex_opened : tcpSessionClient :=
  match tcp_openTCPFlow ex_answered WAnswer (new_tcp_client (Writer [] None)) 1001 "example.org" 443 with Done (c, _) => c | _ => new_tcp_client (Writer [] None) end.


Lemma resolve_ready c k out a : resolvePending c k out = Done a -> tc_ready a = tc_ready c.
Proof.
  unfold resolvePending. case_bool_decide; cbn [negb]; [|by intros [= <-]]. destruct (tc_opens c !! k); [|by intros [= <-]].
  intros (ch & _ & E1)%outcome_bind_Done. by injection E1 as <-.
Qed.
Lemma ex_answered_steps n a b : ex_answered n a = Done b -> tc_steps a b /\ (1001 ∈ tc_ready a -> 1001 ∈ tc_ready b).
Proof.
  unfold ex_answered. destruct n as [|[|n]]; [by intros [= <-]; split; [constructor|]| |by intros [= <-]; split; [constructor|]].
  destruct (tc_hand a) eqn:Eh; [by intros [= <-]; split; [constructor|]|]. intros E0. split.
  - eapply tcss_more; [constructor|]. apply (tcs_frame a (Ok (mkFrame FrameOPENTCPOK ex_ok_payload)) b true); [done|]. by rewrite readLoop_open_ok, E0.
  - revert E0. unfold open_ok, ex_ok_payload. rewrite open_ok_roundtrip by (cbn; unfold is_u64; lia). intros E0%resolve_ready. by rewrite E0.
Qed.

Lemma tcp_open_call_witness : 1001 ∈ tc_flows ex_opened /\ tc_objs ex_opened !! 1001 = Some new_framed_flow.
Proof.
  pose proof (tcp_open_call (Writer [] None) ex_answered WAnswer (new_tcp_client (Writer [] None)) 1001 "example.org" 443
    (tcss_refl _) eq_refl ex_answered_steps) as [H1 _].
  assert (E0 : tcp_openTCPFlow ex_answered WAnswer (new_tcp_client (Writer [] None)) 1001 "example.org" 443 = Done (ex_opened, Ok 1001)) by (vm_compute; reflexivity).
  rewrite E0 in H1. split; [exact (proj1 (proj2 H1))|exact (proj1 (proj2 (proj2 H1)))].
Defined.

Definition ex_waiting : tcpSessionClient := open_register (new_tcp_client (Writer [] None)) (true, 1001).
Lemma expired_open_leaves_flow_witness : 1001 ∉ tc_flows (open_expire ex_waiting (true, 1001) EDeadlineExceeded).1.
Proof.
  refine (proj2 (proj2 (expired_open_leaves_flow (Writer [] None) ex_waiting 1001 EDeadlineExceeded _ _ _))).
  - eapply tcss_more; [constructor|]. by apply tcs_register.
  - apply (bool_decide_unpack _). vm_compute. exact I.
  - split; [discriminate|reflexivity].
Defined.
