(* ===== verification/EndToEnd.v ===== *)
(** * Client and gateway together

    The client library's operations composed with the gateway's: what one side writes is what the
    other side reads. The network in between delivers the bytes of a stream in order; datagrams of
    one payload arrive in order. *)

From S2P Require Import Prelude Wire Frame Datagram GoString Crypto Auth Limits Wheel Store Metrics Server Handshake TCPSession Session SessionUDP SessionInv SessionPipe Config ClientConfig Client ClientTCP ClientQUIC.

Section EndToEnd.
  Context {P : Type} `{SecretProvider P}.
  Implicit Types srv : Server P.

(** The read loop of the client on the next frame of its connection, with the push after it. *)
Definition client_reads (c : tcpSessionClient) (bs : list byte) : outcome (tcpSessionClient * bool) :=
  match ReadFrame (Reader bs EEOF) with
  | Ok (f, _) => '(c, go) ← readLoop_frame c (Ok f); c ← readLoop_push c; Done (c, go)
  | Err e => readLoop_frame c (Err e)
  | Panic m => Crashed m
  end.

(** The gateway's loop on the next frame of the connection. *)
Definition gateway_reads (s : TCPSession) srv (now : Z) (bs : list byte) : option (TCPSession * Server P) :=
  match ReadFrame (Reader bs EEOF) with
  | Ok (f, _) => Some (ts_handle_frame s srv now f (fun _ => Err EEOF) None).1
  | _ => None
  end.

(** The gateway on datagrams with their times of arrival: each is decoded and handled by the worker;
    one that does not decode is dropped by the read loop. *)
Fixpoint gateway_datagrams (s : Session) srv (tr : list (Z * list byte)) : Session * Server P :=
  match tr with
  | [] => (s, srv)
  | (now, raw) :: tr =>
      match DecodeDatagramPacket raw with
      | Ok pkt => let '(s, srv) := processDatagramTask s srv now pkt None in gateway_datagrams s srv tr
      | _ => gateway_datagrams s srv tr
      end
  end.

Lemma gateway_datagrams_decoded times raws ps :
  Forall2 (fun raw p => DecodeDatagramPacket raw = Ok p) raws ps ->
  forall s srv, gateway_datagrams s srv (zip times raws) = process_all s srv (zip times ps).
Proof.
  intros Hf. revert times. induction Hf as [|raw p raws ps Hd Hf IH]; intros [|t times] s srv; try done.
  cbn. rewrite Hd. destruct (processDatagramTask s srv t p None). apply IH.
Qed.

Lemma ReadFrame_one f : wf_frame f -> ReadFrame (Reader (frame_bytes f) EEOF) = Ok (f, Reader [] EEOF).
Proof. intros Hf. rewrite <- (app_nil_r (frame_bytes f)). by apply ReadFrame_frame. Qed.

Lemma data_frame_wf f data : is_u64 f -> small_bytes (EncodeTCPDataPayload f data) -> wf_frame (mkFrame FrameTCPDATA (EncodeTCPDataPayload f data)).
Proof. intros Hf Hs. split; [cbn; unfold is_u64, FrameTCPDATA; lia|done]. Qed.


(** Sending a payload that is not cut short. *)
Lemma send_loop_all pkts : forall k sent, send_loop k pkts (fun _ => None) sent = (sent ++ pkts, None).
Proof. induction pkts as [|p pkts IH]; intros k sent; cbn; [by rewrite app_nil_r|]. rewrite IH. by rewrite <- app_assoc. Qed.

End EndToEnd.

(** ** Witnesses *)

Definition ex_ts : TCPSession := ts_set_flows (newTCPSession 1) {[1001 := 5]} {[5]}.


Definition ex_udp_client : quicClient :=
  mkQC ex_dev_config (Writer [] None) {[8]} {[8 := mkQF 0 NewReassembly [] None false]} [] None false.

