(* ===== verification/Ownership.v ===== *)
(** * Tables of owners

    Shared by the models in which many goroutines, kept in a map, own resources that are kept in a
    set: which owners a set of resources has, and how many owners have a property. *)

From S2P Require Import Prelude.

Section Ownership.
  Context {K H : Type} `{Countable K}.
  Implicit Types (m : gmap K H) (R : gset Z) (own : H -> option Z).

(** The resources of the set are exactly those that the owners in the map own, each one's own. *)
Definition owned own m R : Prop :=
  (forall x, x ∈ R <-> exists i h, m !! i = Some h /\ own h = Some x)
  /\ (forall i j h k x, m !! i = Some h -> m !! j = Some k -> own h = Some x -> own k = Some x -> i = j).

Lemma owned_empty own : owned own ∅ ∅.
Proof. split; [set_solver|]. intros i j h k x E. by rewrite lookup_empty in E. Qed.

Lemma owned_in own m R i h x : owned own m R -> m !! i = Some h -> own h = Some x -> x ∈ R.
Proof. intros [H1 _] Hi Hx. apply H1. eauto. Qed.

(** An owner changes and owns what it owned. *)
Lemma owned_keep own m R i h h' : owned own m R -> m !! i = Some h -> own h' = own h -> owned own (<[i := h']> m) R.
Proof.
  intros [H1 H2] Hi Ho. split.
  - intros x. rewrite H1. split.
    + intros (j & k & Hj & Hk). destruct (decide (j = i)) as [->|Hne].
      * exists i, h'. split; [apply lookup_insert_eq|]. rewrite Hi in Hj. injection Hj as <-. congruence.
      * exists j, k. by rewrite lookup_insert_ne.
    + intros (j & k & Hj & Hk). destruct (decide (j = i)) as [->|Hne].
      * rewrite lookup_insert_eq in Hj. injection Hj as <-. exists i, h. split; [done|congruence].
      * rewrite lookup_insert_ne in Hj by done. eauto.
  - intros a b ha hb x Ha Hb Xa Xb.
    assert (Hget : forall j k, <[i := h']> m !! j = Some k -> own k = Some x -> exists k', m !! j = Some k' /\ own k' = Some x).
    { intros j k Hj Hk. destruct (decide (j = i)) as [->|Hne].
      - rewrite lookup_insert_eq in Hj. injection Hj as <-. exists h. split; [done|congruence].
      - rewrite lookup_insert_ne in Hj by done. eauto. }
    destruct (Hget _ _ Ha Xa) as (ka & ? & ?), (Hget _ _ Hb Xb) as (kb & ? & ?). eauto.
Qed.

(** A new owner, with nothing. *)
Lemma owned_new own m R i h' : owned own m R -> m !! i = None -> own h' = None -> owned own (<[i := h']> m) R.
Proof.
  intros [H1 H2] Hi Ho.
  assert (Hget : forall j k x, <[i := h']> m !! j = Some k -> own k = Some x -> m !! j = Some k).
  { intros j k x Hj Hk. destruct (decide (j = i)) as [->|Hne].
    - rewrite lookup_insert_eq in Hj. injection Hj as <-. congruence.
    - by rewrite lookup_insert_ne in Hj. }
  split.
  - intros x. rewrite H1. split; intros (j & k & Hj & Hk); exists j, k; split; try done.
    + rewrite lookup_insert_ne; [done|]. intros <-. congruence.
    + by apply (Hget _ _ x).
  - intros a b ha hb x Ha Hb Xa Xb. eapply H2; eauto.
Qed.

(** An owner that has nothing takes a resource nobody has. *)
Lemma owned_take own m R i h h' x :
  owned own m R -> m !! i = Some h -> own h = None -> own h' = Some x -> x ∉ R -> owned own (<[i := h']> m) ({[x]} ∪ R).
Proof.
  intros [H1 H2] Hi Ho Ho' Hx.
  assert (Hget : forall j k y, <[i := h']> m !! j = Some k -> own k = Some y -> (j = i /\ y = x) \/ (j <> i /\ m !! j = Some k /\ y ∈ R)).
  { intros j k y Hj Hk. destruct (decide (j = i)) as [->|Hne].
    - rewrite lookup_insert_eq in Hj. injection Hj as <-. left. split; [done|congruence].
    - rewrite lookup_insert_ne in Hj by done. right. split_and!; [done..|]. apply H1. eauto. }
  split.
  - intros y. rewrite elem_of_union, elem_of_singleton. split.
    + intros [->|Hy]; [exists i, h'; split; [apply lookup_insert_eq|done]|].
      apply H1 in Hy as (j & k & Hj & Hk). exists j, k. split; [|done]. rewrite lookup_insert_ne; [done|]. intros <-. congruence.
    + intros (j & k & Hj & Hk). destruct (Hget _ _ _ Hj Hk) as [[_ ->]|(_ & _ & ?)]; auto.
  - intros a b ha hb y Ha Hb Xa Xb. destruct (Hget _ _ _ Ha Xa) as [[-> ->]|(N1 & M1 & R1)], (Hget _ _ _ Hb Xb) as [[-> ?]|(N2 & M2 & R2)]; try done; [congruence|]. eauto.
Qed.

(** An owner gives its resource up. *)
Lemma owned_drop own m R i h h' x :
  owned own m R -> m !! i = Some h -> own h = Some x -> own h' = None -> owned own (<[i := h']> m) (R ∖ {[x]}).
Proof.
  intros [H1 H2] Hi Ho Ho'.
  assert (Hget : forall j k y, <[i := h']> m !! j = Some k -> own k = Some y -> j <> i /\ m !! j = Some k).
  { intros j k y Hj Hk. destruct (decide (j = i)) as [->|Hne].
    - rewrite lookup_insert_eq in Hj. injection Hj as <-. congruence.
    - by rewrite lookup_insert_ne in Hj. }
  split.
  - intros y. rewrite elem_of_difference, elem_of_singleton, H1. split.
    + intros [(j & k & Hj & Hk) Hne]. exists j, k. split; [|done]. rewrite lookup_insert_ne; [done|]. intros <-. congruence.
    + intros (j & k & Hj & Hk). destruct (Hget _ _ _ Hj Hk) as [Hne Hm]. split; [eauto|]. intros ->. by apply Hne, (H2 _ _ _ _ _ Hm Hi Hk).
  - intros a b ha hb y Ha Hb Xa Xb. destruct (Hget _ _ _ Ha Xa), (Hget _ _ _ Hb Xb). eauto.
Qed.

(** The number of owners with a property. *)
Definition how_many (P : H -> bool) m : Z := Z.of_nat (size (filter (fun kv => P kv.2 = true) m)).

Lemma how_many_empty P : how_many P ∅ = 0.
Proof. done. Qed.

Lemma how_many_insert P m i h' :
  how_many P (<[i := h']> m) = how_many P (delete i m) + (if P h' then 1 else 0).
Proof.
  unfold how_many. destruct (P h') eqn:Eh.
  - rewrite map_filter_insert_True by done. rewrite <- insert_delete_eq, <- map_filter_delete. rewrite map_size_insert_None by (apply map_lookup_filter_None; left; apply lookup_delete_eq). lia.
  - rewrite map_filter_insert_False by (cbn; congruence). lia.
Qed.

Lemma how_many_update P m i h h' :
  m !! i = Some h -> how_many P (<[i := h']> m) = how_many P m + (if P h' then 1 else 0) - (if P h then 1 else 0).
Proof. intros Hi. rewrite how_many_insert. rewrite <- (insert_id m i h Hi) at 2. rewrite how_many_insert. lia. Qed.

Lemma how_many_new P m i h' : m !! i = None -> how_many P (<[i := h']> m) = how_many P m + (if P h' then 1 else 0).
Proof. intros Hi. rewrite how_many_insert. by rewrite delete_id. Qed.

Lemma how_many_nonneg P m : 0 <= how_many P m.
Proof. unfold how_many. lia. Qed.

Lemma how_many_pos P m i h : m !! i = Some h -> P h = true -> 1 <= how_many P m.
Proof.
  intros Hi Hp. pose proof (how_many_insert P m i h) as E. rewrite (insert_id m i h Hi), Hp in E.
  pose proof (how_many_nonneg P (delete i m)). lia.
Qed.

Lemma how_many_zero P m : (forall i h, m !! i = Some h -> P h = false) -> how_many P m = 0.
Proof.
  intros Hn. unfold how_many. replace (filter (fun kv => P kv.2 = true) m) with (∅ : gmap K H); [done|].
  symmetry. apply map_empty. intros i. apply map_lookup_filter_None. right. intros h Hi. cbn. rewrite (Hn _ _ Hi). done.
Qed.
End Ownership.

(** What every step preserves holds in every state that is reached. *)
Lemma rtc_preserves {A} (R : A -> A -> Prop) (P : A -> Prop) x y : (forall a b, P a -> R a b -> P b) -> rtc R x y -> P x -> P y.
Proof. intros H. induction 1; eauto. Qed.
