(* ===== verification/TransitRun.v ===== *)
(** * The transit proxy: start, accept loops and shutdown ([internal/transit/proxy.go])

    [Run] starts one goroutine per lane and waits for the context or an error; [acceptLoop] starts a
    handler for every connection; [Shutdown] closes the sockets and the connections that are
    tracked and waits for the goroutines. The handlers are those of the file TransitTCP and the UDP
    lanes those of Transit; here a lane is its socket and its goroutine. A connection that was
    accepted and whose handler has not run yet is in [rn_accepted]: the [waitGroup] counts it, and
    [activeConns] does not know it. *)

From S2P Require Import Prelude Ownership GoString Transit TransitTCP.

(** How far [Shutdown] is. *)
Inductive rstage := Serving | ClosedSockets | Waiting | Returned (err : option goerr).

(** [rn_services]: the goroutines of the lanes, by the number of their socket; [rn_registered]: the
    sockets in [tcpListeners] and [udpLanes]; [rn_errCh]: the error in the channel. *)
Record run := mkRun {
  rn_px : proxy; rn_services : gmap Z (lane_kind * string); rn_sockets : gset Z; rn_registered : gset Z;
  rn_accepted : gmap Z string; rn_wg : Z; rn_ctx : bool; rn_errCh : option goerr; rn_stage : rstage }.

Definition newRun (m : tmetrics) : run := mkRun (NewProxy m) ∅ ∅ ∅ ∅ 0 false None Serving.

Definition with_px (r : run) (p : proxy) (wg : Z) : run :=
  mkRun p (rn_services r) (rn_sockets r) (rn_registered r) (rn_accepted r) wg (rn_ctx r) (rn_errCh r) (rn_stage r).
Definition with_accepted (r : run) (m : gmap Z string) (wg : Z) : run :=
  mkRun (rn_px r) (rn_services r) (rn_sockets r) (rn_registered r) m wg (rn_ctx r) (rn_errCh r) (rn_stage r).
Definition with_stage (r : run) (p : proxy) (sockets : gset Z) (st : rstage) : run :=
  mkRun p (rn_services r) sockets (rn_registered r) (rn_accepted r) (rn_wg r) (rn_ctx r) (rn_errCh r) st.

(** ** Start *)

(** The socket is opened and registered, and its goroutine started. *)
Definition serve (r : run) (n : Z) (kind : lane_kind) (lane : string) : run :=
  mkRun (rn_px r) (<[n := (kind, lane)]> (rn_services r)) ({[n]} ∪ rn_sockets r) ({[n]} ∪ rn_registered r)
    (rn_accepted r) (rn_wg r + 1) (rn_ctx r) (rn_errCh r) (rn_stage r).

(** What the calls of one lane return: the two resolutions of a UDP lane, and the listen. *)
Record laneResult := mkLaneResult { lr_resolveListen : option goerr; lr_resolveBackend : option goerr; lr_listen : option goerr }.

Definition startTCPListener (r : run) (n : Z) (lane listenAddr : string) (res : laneResult) : run * option goerr :=
  match lr_listen res with
  | Some e => (r, Some (EWrap ("listen " ++ lane ++ " on " ++ listenAddr)%string e))
  | None => (serve r n LaneTCP lane, None)
  end.
Definition startUDPLane (r : run) (n : Z) (lane listenAddr backendAddr : string) (res : laneResult) : run * option goerr :=
  match lr_resolveListen res, lr_resolveBackend res, lr_listen res with
  | Some e, _, _ => (r, Some (EWrap ("resolve " ++ lane ++ " listen addr " ++ listenAddr)%string e))
  | None, Some e, _ => (r, Some (EWrap ("resolve " ++ lane ++ " backend addr " ++ backendAddr)%string e))
  | None, None, Some e => (r, Some (EWrap ("listen " ++ lane ++ " on " ++ listenAddr)%string e))
  | None, None, None => (serve r n LaneUDP lane, None)
  end.
Definition startMetricsServer (r : run) (n : Z) (listenAddr : string) (res : laneResult) : run * option goerr :=
  match lr_listen res with
  | Some e => (r, Some (EWrap ("listen metrics on " ++ listenAddr)%string e))
  | None => (serve r n LaneMetrics "metrics", None)
  end.
Definition start_lane (r : run) (n : Z) (lane : lane_kind * string * string * string) (res : laneResult) : run * option goerr :=
  let '(kind, name, listen, backend) := lane in
  match kind with
  | LaneTCP => startTCPListener r n name listen res
  | LaneUDP => startUDPLane r n name listen backend res
  | LaneMetrics => startMetricsServer r n listen res
  end.
(** [start]: the lanes in order, up to the first that fails. *)
Fixpoint start (r : run) (lanes : list (lane_kind * string * string * string)) (results : list (Z * laneResult)) : run * option goerr :=
  match lanes, results with
  | lane :: lanes, (n, res) :: results =>
      match start_lane r n lane res with
      | (r, Some e) => (r, Some e)
      | (r, None) => start r lanes results
      end
  | _, _ => (r, None)
  end.

(** ** The goroutines *)

(** The return of the goroutine of a lane, with its deferred [waitGroup.Done]. *)
Definition service_return (r : run) (n : Z) : run :=
  mkRun (rn_px r) (delete n (rn_services r)) (rn_sockets r) (rn_registered r) (rn_accepted r) (rn_wg r - 1) (rn_ctx r) (rn_errCh r) (rn_stage r).

(** One turn of [acceptLoop]: the result of [Accept], which is [net.ErrClosed] on a closed socket. *)
Definition accept_turn (r : run) (n : Z) (res : Z + goerr) : run :=
  match rn_services r !! n with
  | Some (LaneTCP, lane) =>
      match (if bool_decide (n ∈ rn_sockets r) then res else inr ENetClosed) with
      | inr e =>
          if rn_ctx r || err_is e ENetClosed then service_return r n
          else with_px r (px_count (rn_px r) (AcceptErrors lane) 1) (rn_wg r)
      | inl c => with_accepted r (<[c := lane]> (rn_accepted r)) (rn_wg r + 1)
      end
  | _ => r
  end.
(** The read error that ends [udpLane.Run]; other errors are counted. *)
Definition lane_read_error (r : run) (n : Z) (e : goerr) : run :=
  match rn_services r !! n with
  | Some (LaneUDP, lane) =>
      if rn_ctx r || negb (bool_decide (n ∈ rn_sockets r)) || err_is e ENetClosed then service_return r n
      else with_px r (px_count (rn_px r) (AcceptErrors lane) 1) (rn_wg r)
  | _ => r
  end.
(** The return of [Serve] of the metrics server: [e] is its error. The channel holds one error. *)
Definition metrics_return (r : run) (n : Z) (e : goerr) : run :=
  match rn_services r !! n with
  | Some (LaneMetrics, _) =>
      let closed := err_is e (ESentinel "http: Server closed") in
      let r := service_return r n in
      if closed || rn_ctx r then r
      else mkRun (rn_px r) (rn_services r) (rn_sockets r) (rn_registered r) (rn_accepted r) (rn_wg r) (rn_ctx r)
             (Some (default (EWrap "metrics server" e) (rn_errCh r))) (rn_stage r)
  | _ => r
  end.

(** The first part of a handler: from here on its connection is tracked. *)
Definition handler_begin (r : run) (c : Z) : run :=
  match rn_accepted r !! c with
  | Some lane => with_accepted (with_px r (handle_begin (rn_px r) lane c) (rn_wg r)) (delete c (rn_accepted r)) (rn_wg r)
  | None => r
  end.
(** A later part of the handler of [c]; its return ends with [waitGroup.Done]. *)
Definition finished (p : proxy) (c : Z) : bool :=
  match px_handlers p !! c with Some h => bool_decide (h_phase h = HReturned) | None => false end.
Definition handler_on (r : run) (c : Z) (f : proxy -> proxy) : run :=
  let p := f (rn_px r) in with_px r p (if negb (finished (rn_px r) c) && finished p c then rn_wg r - 1 else rn_wg r).

(** ** [Shutdown] *)

Definition shutdown_sockets (r : run) : run :=
  match rn_stage r with Serving => with_stage r (rn_px r) (rn_sockets r ∖ rn_registered r) ClosedSockets | _ => r end.
Definition shutdown_range (r : run) : run :=
  match rn_stage r with ClosedSockets => with_stage r (shutdown_conns (rn_px r)) (rn_sockets r) Waiting | _ => r end.
(** The end of the wait: [None] is [done], which needs the counter to be zero. *)
Definition shutdown_wait (r : run) (ctx : option goerr) : option run :=
  match rn_stage r with
  | Waiting =>
      match ctx with
      | None => if rn_wg r =? 0 then Some (with_stage r (rn_px r) (rn_sockets r) (Returned None)) else None
      | Some e => Some (with_stage r (rn_px r) (rn_sockets r) (Returned (Some e)))
      end
  | _ => None
  end.
(** A call of [Shutdown] while no other goroutine runs. *)
Definition Shutdown (r : run) (ctx : option goerr) : option run := shutdown_wait (shutdown_range (shutdown_sockets r)) ctx.
(** [Run] after [start]: what its [select] received ([None]: the context is done), the deadline of the
    shutdown ([None]: it has none) and the result. *)
Definition Run_end (started : option goerr) (shutdownTimeout : Z) (got : option goerr) (shutdownErr : option goerr) : option Z * option goerr :=
  match started, got with
  | Some e, _ => (None, Some e)
  | None, None => (Some shutdownTimeout, shutdownErr)
  | None, Some e => (Some shutdownTimeout, Some e)
  end.
(** The [select] can receive it. *)
Definition select_ready (r : run) (got : option goerr) : Prop :=
  match got with None => rn_ctx r = true | Some e => rn_errCh r = Some e end.

(** ** Reachable states *)

Definition new_conn (r : run) (c : Z) : Prop := fresh_conn (rn_px r) c /\ rn_accepted r !! c = None.

(** The steps of everybody but the handlers that [ok] excludes. *)
Inductive run_step (ok : Z -> Prop) : run -> run -> Prop :=
| rs_serve r n kind lane : rn_stage r = Serving -> rn_services r !! n = None -> run_step ok r (serve r n kind lane)
| rs_accept r n res : (forall c, res = inl c -> new_conn r c) -> run_step ok r (accept_turn r n res)
| rs_lane r n e : run_step ok r (lane_read_error r n e)
| rs_metrics r n e : run_step ok r (metrics_return r n e)
| rs_begin r c : ok c -> run_step ok r (handler_begin r c)
| rs_dial r c dial :
    ok c -> (forall b, dial = Ok b -> new_conn r b) -> (rn_ctx r = true -> exists e, dial = Err e) ->
    run_step ok r (handler_on r c (fun p => handle_dialed p c dial))
| rs_copy r c up data rerr werr : ok c -> run_step ok r (handler_on r c (fun p => copy_turn p c up data rerr werr))
| rs_first r c : ok c -> run_step ok r (handler_on r c (fun p => handle_first p c))
| rs_second r c : ok c -> run_step ok r (handler_on r c (fun p => handle_second p c))
| rs_cancel r : run_step ok r (mkRun (rn_px r) (rn_services r) (rn_sockets r) (rn_registered r) (rn_accepted r) (rn_wg r) true (rn_errCh r) (rn_stage r))
| rs_sockets r : run_step ok r (shutdown_sockets r)
| rs_range r : run_step ok r (shutdown_range r)
| rs_wait r ctx r' : shutdown_wait r ctx = Some r' -> run_step ok r r'.

Definition anyone (_ : Z) : Prop := True.

(** ** What the steps of a handler change *)

(** Only the handler of [c] moves on, and the backends it gets are in [new]. *)
Definition moved (new : Z -> Prop) (c : Z) (p q : proxy) : Prop :=
  px_handlers q = px_handlers p
  \/ exists h h', px_handlers p !! c = Some h /\ px_handlers q = <[c := h']> (px_handlers p)
      /\ (h_phase h = HReturned -> h_phase h' = HReturned) /\ (forall b, h_backend h' = Some b -> h_backend h = Some b \/ new b).

Definition running (h : handler) : bool := negb (bool_decide (h_phase h = HReturned)).

Lemma moved_return new c p q h : px_handlers q = px_handlers p -> px_handlers p !! c = Some h -> moved new c p (handle_return q c h).
Proof. intros E Hc. right. exists h. eexists. split; [done|]. cbn. rewrite E. split; [reflexivity|]. split; [done|]. intros b. cbn. auto. Qed.
Lemma moved_copy_end new c p q h up e : px_handlers q = px_handlers p -> px_handlers p !! c = Some h -> moved new c p (copy_end q c h up e).
Proof.
  intros E Hc. right. exists h. eexists. split; [done|]. unfold copy_end. split; [cbn; destruct (0 <? _); cbn; rewrite E; reflexivity|]. cbn. auto.
Qed.
Lemma moved_dialed c p dial : moved (fun b => dial = Ok b) c p (handle_dialed p c dial).
Proof.
  unfold handle_dialed. destruct (px_handlers p !! c) as [h|] eqn:Hc; [|by left]. destruct (h_phase h) eqn:Hp; try (by left). destruct dial as [b|e|m]; [| |by left].
  - right. exists h. eexists. split; [done|]. split; [reflexivity|]. cbn. split; [congruence|]. intros b' [= <-]. auto.
  - by apply moved_return.
Qed.
Lemma moved_first new c p : moved new c p (handle_first p c).
Proof.
  unfold handle_first. destruct (px_handlers p !! c) as [h|] eqn:Hc; [|by left]. destruct (h_phase h) eqn:Hp; try (by left).
  destruct (h_results h); [by left|]. destruct (h_backend h) as [b|] eqn:Hb; [|by left].
  right. exists h. eexists. split; [done|]. split; [reflexivity|]. cbn. split; [congruence|]. intros b' E. left. congruence.
Qed.
Lemma moved_second new c p : moved new c p (handle_second p c).
Proof.
  unfold handle_second. destruct (px_handlers p !! c) as [h|] eqn:Hc; [|by left]. destruct (h_phase h) eqn:Hp; try (by left).
  destruct (h_results h) as [|? [|]]; try (by left). by apply moved_return.
Qed.
Lemma moved_copy new c p up data rerr werr : moved new c p (copy_turn p c up data rerr werr).
Proof.
  unfold copy_turn. destruct (px_handlers p !! c) as [h|] eqn:Hc; [|by left]. destruct (h_backend h) as [b|] eqn:Hb; [|by left].
  destruct (negb (if up then h_up h else h_down h)); [by left|]. destruct (negb (bool_decide ((if up then c else b) ∈ px_open p))); [by apply moved_copy_end|].
  assert (Hset : forall q h', px_handlers q = px_handlers p -> h_phase h' = h_phase h -> h_backend h' = h_backend h -> moved new c p (px_set q c h')).
  { intros q h' E1 E2 E3. right. exists h, h'. split; [done|]. cbn. rewrite E1. split; [done|]. rewrite E2, E3. auto. }
  assert (Hend : forall q h' e, px_handlers q = px_handlers p -> h_phase h' = h_phase h -> h_backend h' = h_backend h -> moved new c p (copy_end q c h' up e)).
  { intros q h' e E1 E2 E3. unfold copy_end. apply Hset; [|done..]. by destruct (0 <? _). }
  destruct (zlen data =? 0); [destruct rerr; [by apply Hend|by apply Hset]|]. destruct (negb (bool_decide ((if up then b else c) ∈ px_open p))); [by apply Hend|]. destruct werr; [by apply Hend|]. destruct rerr; [by apply Hend|by apply Hset].
Qed.

(** The counter goes down exactly when a handler returns. *)
Lemma moved_count new c p q :
  moved new c p q -> how_many running (px_handlers q) = how_many running (px_handlers p) - (if negb (finished p c) && finished q c then 1 else 0).
Proof.
  unfold finished. intros [E|(h & h' & Hc & E & Hr & _)]; rewrite E.
  - destruct (px_handlers p !! c) as [h|]; [destruct (bool_decide _)|]; cbn; lia.
  - rewrite Hc, lookup_insert_eq, (how_many_update _ _ _ _ _ Hc). unfold running. repeat case_bool_decide; cbn; try lia. tauto.
Qed.
Lemma moved_fresh new c p q x : moved new c p q -> ~ new x -> fresh_conn p x -> fresh_conn q x.
Proof.
  intros [E|(h & h' & Hc & E & _ & Hb)] Hx [F1 F2]; split; rewrite E; try done.
  - rewrite lookup_insert_ne; [done|]. congruence.
  - intros d g Hd E1. apply lookup_insert_Some in Hd as [[<- <-]|[Hne Hd]]; [|by eapply F2]. destruct (Hb _ E1); [by eapply F2|done].
Qed.

(** ** The invariant *)

Record run_inv (base : string -> Z) (r : run) : Prop := mkRunInv {
  ri_px : proxy_inv base (rn_px r);
  ri_wg : rn_wg r = Z.of_nat (size (rn_services r)) + Z.of_nat (size (rn_accepted r)) + how_many running (px_handlers (rn_px r));
  ri_accepted : forall c lane, rn_accepted r !! c = Some lane -> fresh_conn (rn_px r) c;
  ri_sockets : rn_sockets r ⊆ rn_registered r /\ (rn_stage r <> Serving -> rn_sockets r = ∅);
  ri_returned : rn_stage r = Returned None -> rn_wg r = 0 }.

Lemma nobody base r :
  run_inv base r -> rn_wg r = 0 -> rn_services r = ∅ /\ rn_accepted r = ∅ /\ (forall c h, px_handlers (rn_px r) !! c = Some h -> h_phase h = HReturned).
Proof.
  intros Hi H0. pose proof (ri_wg _ _ Hi) as E. pose proof (how_many_nonneg running (px_handlers (rn_px r))). split_and!.
  - apply map_size_empty_inv. lia.
  - apply map_size_empty_inv. lia.
  - intros c h Hc. destruct (decide (h_phase h = HReturned)) as [|Hn]; [done|]. assert (1 <= how_many running (px_handlers (rn_px r))); [|lia].
    eapply how_many_pos; [exact Hc|]. unfold running. by rewrite bool_decide_eq_false_2.
Qed.

Lemma inv_service_return base r n k : run_inv base r -> rn_services r !! n = Some k -> run_inv base (service_return r n).
Proof.
  intros Hi Hn. pose proof Hi as [H1 H2 H3 H4 H5]. split; cbn; try done.
  - rewrite H2, map_size_delete, Hn. assert (size (rn_services r) <> 0%nat) by (intros E; apply map_size_empty_inv in E; by rewrite E in Hn). lia.
  - intros Hs. destruct (nobody _ _ Hi (H5 Hs)) as (E & _). by rewrite E in Hn.
Qed.
Lemma inv_count base r k d : (forall lane, k <> ActiveTCPConns lane) -> run_inv base r -> run_inv base (with_px r (px_count (rn_px r) k d) (rn_wg r)).
Proof. intros Hk [H1 H2 H3 H4 H5]. split; cbn; try done. by apply px_count_inv. Qed.

Lemma inv_serve base r n kind lane : run_inv base r -> rn_stage r = Serving -> rn_services r !! n = None -> run_inv base (serve r n kind lane).
Proof.
  intros [H1 H2 H3 [H4 H4'] H5] Hs Hn. split; cbn; try done; [rewrite H2, map_size_insert, Hn; lia| |congruence]. split; [set_solver|congruence].
Qed.
Lemma inv_accept base r n res : run_inv base r -> (forall c, res = inl c -> new_conn r c) -> run_inv base (accept_turn r n res).
Proof.
  intros Hi Hres. unfold accept_turn. destruct (rn_services r !! n) as [[[] lane]|] eqn:Hn; try done. destruct (bool_decide _).
  - destruct res as [c|e]; [|case_on; [by eapply inv_service_return|by apply inv_count]]. destruct (Hres c eq_refl) as [Hf Ha].
    pose proof Hi as [H1 H2 H3 H4 H5]. split; cbn; try done; [rewrite H2, map_size_insert, Ha; lia| |].
    + intros d l Hd. apply lookup_insert_Some in Hd as [[<- <-]|[_ Hd]]; eauto.
    + intros Hs. destruct (nobody _ _ Hi (H5 Hs)) as (E & _). by rewrite E in Hn.
  - cbn. rewrite orb_true_r. by eapply inv_service_return.
Qed.
Lemma inv_lane base r n e : run_inv base r -> run_inv base (lane_read_error r n e).
Proof.
  intros Hi. unfold lane_read_error. destruct (rn_services r !! n) as [[[] lane]|] eqn:Hn; try done. case_on; [by eapply inv_service_return|by apply inv_count].
Qed.
Lemma inv_metrics base r n e : run_inv base r -> run_inv base (metrics_return r n e).
Proof.
  intros Hi. unfold metrics_return. destruct (rn_services r !! n) as [[[] lane]|] eqn:Hn; try done. pose proof (inv_service_return _ _ _ _ Hi Hn) as Hi'. case_on; [done|].
  destruct Hi' as [H1 H2 H3 H4 H5]. by split.
Qed.
Lemma inv_begin base r c : run_inv base r -> run_inv base (handler_begin r c).
Proof.
  intros Hi. unfold handler_begin. destruct (rn_accepted r !! c) as [lane|] eqn:Ha; [|done]. pose proof Hi as [H1 H2 H3 H4 H5]. pose proof (H3 _ _ Ha) as Hf.
  assert (Hsz : size (rn_accepted r) <> 0%nat) by (intros E; apply map_size_empty_inv in E; by rewrite E in Ha). split; cbn; try done.
  - by apply handle_begin_inv.
  - rewrite H2, map_size_delete, Ha. rewrite how_many_new by apply Hf. set (k := mkHandler _ _ _ _ _ _ _ _). assert (Hk : running k = true) by (unfold running; by rewrite bool_decide_eq_false_2). rewrite Hk. lia.
  - intros d l Hd. apply lookup_delete_Some in Hd as [Hne Hd]. destruct (H3 _ _ Hd) as [F1 F2]. split; cbn; [by rewrite lookup_insert_ne|].
    intros x h Hx. apply lookup_insert_Some in Hx as [[<- <-]|[_ Hx]]; [done|by eapply F2].
Qed.
Lemma inv_handler base r c f new :
  run_inv base r -> proxy_step (rn_px r) (f (rn_px r)) -> moved new c (rn_px r) (f (rn_px r)) -> (forall x, new x -> rn_accepted r !! x = None) ->
  run_inv base (handler_on r c f).
Proof.
  intros Hi Hs Hm Hnew. pose proof Hi as [H1 H2 H3 H4 H5]. pose proof (moved_count _ _ _ _ Hm) as Hc. split; cbn; try done.
  - by eapply proxy_step_inv.
  - rewrite Hc. destruct (_ && _); lia.
  - intros x l Hx. eapply moved_fresh; [exact Hm| |by eapply H3]. intros Hn. apply Hnew in Hn. congruence.
  - intros Hst. rewrite (H5 Hst). destruct (nobody _ _ Hi (H5 Hst)) as (_ & _ & Hall). destruct (finished (rn_px r) c) eqn:Ef; [done|]. cbn.
    unfold finished in Ef |- *. destruct Hm as [E|(h & h' & Hc' & _)].
    + rewrite E. destruct (px_handlers (rn_px r) !! c) as [h|]; [|done]. by rewrite Ef.
    + rewrite Hc' in Ef. rewrite (Hall _ _ Hc') in Ef. done.
Qed.
Lemma inv_shutdown base r :
  run_inv base r -> run_inv base (shutdown_sockets r) /\ run_inv base (shutdown_range r) /\ (forall ctx r', shutdown_wait r ctx = Some r' -> run_inv base r').
Proof.
  intros Hi. pose proof Hi as [H1 H2 H3 [H4 H4'] H5]. split_and!.
  - unfold shutdown_sockets. destruct (rn_stage r) eqn:Es; try done. split; cbn; try done. split; set_solver.
  - unfold shutdown_range. destruct (rn_stage r) eqn:Es; try done. split; cbn; try done; [by apply shut_inv|]. split; [done|]. intros _. by apply H4'.
  - intros ctx r'. unfold shutdown_wait. destruct (rn_stage r) eqn:Es; try done. specialize (H4' ltac:(done)).
    destruct ctx as [e|]; [|destruct (Z.eqb_spec (rn_wg r) 0); [|done]]; intros [= <-]; by split; cbn.
Qed.

Lemma run_step_inv base ok r r' : run_step ok r r' -> run_inv base r -> run_inv base r'.
Proof.
  intros Hs Hi. destruct Hs.
  - by apply inv_serve.
  - by apply inv_accept.
  - by apply inv_lane.
  - by apply inv_metrics.
  - by apply inv_begin.
  - eapply inv_handler; [done| |apply moved_dialed|]; [constructor; intros b Hb; by apply H0|]. intros x Hx. by apply H0.
  - eapply (inv_handler _ _ _ _ (fun _ => False)); [done|constructor|apply moved_copy|done].
  - eapply (inv_handler _ _ _ _ (fun _ => False)); [done|constructor|apply moved_first|done].
  - eapply (inv_handler _ _ _ _ (fun _ => False)); [done|constructor|apply moved_second|done].
  - destruct Hi as [H1 H2 H3 H4 H5]. by split.
  - by apply inv_shutdown.
  - by apply inv_shutdown.
  - by eapply (inv_shutdown _ r).
Qed.
Lemma run_reach_inv ok m r : rtc (run_step ok) (newRun m) r -> run_inv (fun lane => m (ActiveTCPConns lane)) r.
Proof.
  intros Hr. eapply (rtc_preserves (run_step ok)); [|exact Hr|].
  - intros a b Ha Hs. by eapply run_step_inv.
  - split; cbn; try done. by apply (proxy_steps_inv m), psts_refl.
Qed.

(** What is left when [Shutdown] has returned without an error. *)
Lemma returned_clean base r :
  run_inv base r -> rn_stage r = Returned None ->
  rn_services r = ∅ /\ rn_accepted r = ∅ /\ rn_sockets r = ∅ /\ px_open (rn_px r) = ∅ /\ px_tracked (rn_px r) = ∅
  /\ (forall lane, px_metrics (rn_px r) (ActiveTCPConns lane) = base lane).
Proof.
  intros Hi Hs. destruct (nobody _ _ Hi (ri_returned _ _ Hi Hs)) as (E1 & E2 & E3). assert (E4 : px_tracked (rn_px r) = ∅).
  { apply elem_of_equiv_empty_L. intros x. rewrite (pi_tracked _ _ (ri_px _ _ Hi)). intros (c & h & Hc & Hp & _). by rewrite (E3 _ _ Hc) in Hp. }
  split_and!; [done|done|apply (proj2 (ri_sockets _ _ Hi)); congruence| |done|].
  - pose proof (pi_open _ _ (ri_px _ _ Hi)). set_solver.
  - intros lane. rewrite (pi_gauge _ _ (ri_px _ _ Hi)). replace (active (rn_px r) lane) with (∅ : gmap Z handler); [by rewrite map_size_empty, Z.add_0_r|].
    symmetry. apply map_empty. intros c. apply map_lookup_filter_None. right. intros h Hc [Hp _]. cbn in Hp. by rewrite (E3 _ _ Hc) in Hp.
Qed.

(** ** Theorems *)


(** ** A connection that Shutdown does not see *)

(** The steps of the other handlers leave a connection open. *)
Lemma return_keeps_open base p d h c g :
  proxy_inv base p -> px_handlers p !! d = Some h -> px_handlers p !! c = Some g -> c <> d -> c ∈ px_open p ->
  forall q, px_open q = px_open p -> c ∈ px_open (handle_return q d h).
Proof.
  intros Hi Hd Hc Hne Ho q E. cbn. rewrite E. apply elem_of_difference. split; [done|]. destruct (h_backend h) as [b|] eqn:Hb; [|set_solver].
  assert (c <> b); [|set_solver]. intros ->. by rewrite (pi_apart _ _ Hi _ _ _ Hd Hb) in Hc.
Qed.
Lemma others_keep_open base p c d g f :
  proxy_inv base p -> px_handlers p !! c = Some g -> c <> d -> c ∈ px_open p ->
  (exists dial, f = fun p => handle_dialed p d dial) \/ (exists up data rerr werr, f = fun p => copy_turn p d up data rerr werr)
  \/ f = (fun p => handle_first p d) \/ f = (fun p => handle_second p d) ->
  c ∈ px_open (f p).
Proof.
  intros Hi Hc Hne Ho [[dial ->]|[(up & data & rerr & werr & ->)|[->| ->]]].
  - unfold handle_dialed. destruct (px_handlers p !! d) as [h|] eqn:Hd; [|done]. destruct (h_phase h); try done. destruct dial; [cbn; set_solver| |done].
    by eapply return_keeps_open.
  - unfold copy_turn. destruct (px_handlers p !! d) as [h|]; [|done]. destruct (h_backend h) as [b|]; [|done].
    assert (He : forall q h' e, px_open q = px_open p -> c ∈ px_open (copy_end q d h' up e)).
    { intros q h' e E. unfold copy_end. destruct (0 <? _); cbn; by rewrite E. }
    destruct (negb (if up then h_up h else h_down h)); [done|]. destruct (negb (bool_decide ((if up then d else b) ∈ px_open p))); [by apply He|].
    destruct (zlen data =? 0); [destruct rerr; [by apply He|done]|]. destruct (negb (bool_decide ((if up then b else d) ∈ px_open p))); [by apply He|].
    destruct werr; [by apply He|]. destruct rerr; [by apply He|done].
  - unfold handle_first. destruct (px_handlers p !! d) as [h|] eqn:Hd; [|done]. destruct (h_phase h); try done. destruct (h_results h); [done|].
    destruct (h_backend h) as [b|] eqn:Hb; [|done]. cbn. apply elem_of_difference. split; [done|]. assert (c <> b); [|set_solver].
    intros ->. by rewrite (pi_apart _ _ Hi _ _ _ Hd Hb) in Hc.
  - unfold handle_second. destruct (px_handlers p !! d) as [h|] eqn:Hd; [|done]. destruct (h_phase h); try done. destruct (h_results h) as [|? [|]]; try done.
    by eapply return_keeps_open.
Qed.

(** [Shutdown] is past its closes, and the handler of [c] runs on an open connection. *)
Definition overlooked (c : Z) (r : run) : Prop :=
  (rn_stage r = Waiting \/ exists e, rn_stage r = Returned (Some e)) /\ c ∈ px_open (rn_px r) /\ exists h, px_handlers (rn_px r) !! c = Some h /\ h_phase h <> HReturned.

Lemma overlooked_wg base c r : run_inv base r -> overlooked c r -> 0 < rn_wg r.
Proof.
  intros Hi (_ & _ & h & Hc & Hp). pose proof (ri_wg _ _ Hi). pose proof (how_many_pos running _ _ _ Hc) as Hpos. unfold running in Hpos at 1.
  rewrite bool_decide_eq_false_2 in Hpos by done. specialize (Hpos eq_refl). lia.
Qed.
Lemma overlooked_moved new d c r f :
  overlooked c r -> c <> d -> moved new d (rn_px r) (f (rn_px r)) -> c ∈ px_open (f (rn_px r)) -> overlooked c (handler_on r d f).
Proof.
  intros (E & _ & h & Hc & Hp) Hne Hm Ho. split_and!; [done|done|]. exists h. split; [|done]. cbn. destruct Hm as [Em|(? & ? & _ & Em & _)]; rewrite Em; [done|].
  by rewrite lookup_insert_ne.
Qed.

Lemma overlooked_step base c r r' : run_inv base r -> overlooked c r -> run_step (fun d => d <> c) r r' -> overlooked c r'.
Proof.
  intros Hi Ho Hs. pose proof Ho as (Est & Hop & h & Hc & Hp).
  assert (Hon : forall d f new, d <> c -> moved new d (rn_px r) (f (rn_px r)) -> c ∈ px_open (f (rn_px r)) -> overlooked c (handler_on r d f)).
  { intros d f new Hne. apply overlooked_moved; [done|congruence]. }
  assert (Hret : forall n, overlooked c (service_return r n)) by (intros n; split_and!; [done..|by exists h]).
  assert (Hcnt : forall k z, overlooked c (with_px r (px_count (rn_px r) k z) (rn_wg r))) by (intros k z; split_and!; [done..|by exists h]).
  assert (Hkeep : forall d f, d <> c -> _ -> c ∈ px_open (f (rn_px r))) by (intros d f Hne; eapply (others_keep_open base _ c d); [apply Hi|done|congruence|done]).
  destruct Hs as [r n kind lane Hst|r n res Hres|r n e|r n e|r d Hd|r d dial Hd Hb Hx|r d up data rerr werr Hd|r d Hd|r d Hd|r|r|r|r ctx r' Hw].
  - destruct Est as [Est|[e Est]]; congruence.
  - unfold accept_turn. destruct (rn_services r !! n) as [[[] lane]|]; try done. destruct (if bool_decide _ then res else inr ENetClosed); [by split_and!; [done..|exists h]|].
    case_on; [apply Hret|apply Hcnt].
  - unfold lane_read_error. destruct (rn_services r !! n) as [[[] lane]|]; try done. case_on; [apply Hret|apply Hcnt].
  - unfold metrics_return. destruct (rn_services r !! n) as [[[] lane]|]; try done. case_on; [apply Hret|]. split_and!; [done..|by exists h].
  - unfold handler_begin. destruct (rn_accepted r !! d) as [lane|] eqn:Ha; [|done]. split_and!; [done|cbn; set_solver|]. exists h. split; [|done]. cbn. by rewrite lookup_insert_ne.
  - eapply Hon; [done|apply moved_dialed|]. apply (Hkeep d (fun p => handle_dialed p d dial) Hd). eauto.
  - eapply (Hon _ _ (fun _ => False)); [done|apply moved_copy|]. apply (Hkeep d (fun p => copy_turn p d up data rerr werr) Hd). right; left. eauto 6.
  - eapply (Hon _ _ (fun _ => False)); [done|apply moved_first|]. apply (Hkeep d (fun p => handle_first p d) Hd). auto.
  - eapply (Hon _ _ (fun _ => False)); [done|apply moved_second|]. apply (Hkeep d (fun p => handle_second p d) Hd). auto.
  - split_and!; [done..|by exists h].
  - unfold shutdown_sockets. destruct Est as [->|[e ->]]; done.
  - unfold shutdown_range. destruct Est as [->|[e ->]]; done.
  - pose proof (overlooked_wg _ _ _ Hi Ho) as Hwg. unfold shutdown_wait in Hw. destruct Est as [Est|[e Est]]; rewrite Est in Hw; [|done].
    destruct ctx as [e|]; [injection Hw as <-; split_and!; [eauto|done|by exists h]|]. rewrite (proj2 (Z.eqb_neq _ _)) in Hw by lia. done.
Qed.

(** A connection that was accepted and whose handler has not run when [Shutdown] goes through the
    connections is not closed by it: the handler goes on with it, and until that handler ends by
    itself the connection is open and the wait for the goroutines does not end, whatever everybody
    else does. When a lane cannot be started, [Run] waits like this without a deadline. *)
Theorem transit_late_connection m r c lane r' :
  rtc (run_step anyone) (newRun m) r -> rn_stage r = Serving -> rn_accepted r !! c = Some lane ->
  rtc (run_step (fun d => d <> c)) (handler_begin (shutdown_range (shutdown_sockets r)) c) r' ->
  c ∈ px_open (rn_px r') /\ 0 < rn_wg r' /\ shutdown_wait r' None = None /\ (forall e t got err, (Run_end (Some e) t got err).1 = None).
Proof.
  intros Hr Hst Ha Hr'. set (base := fun lane => m (ActiveTCPConns lane)). pose proof (run_reach_inv _ _ _ Hr) as Hi. fold base in Hi.
  set (r1 := handler_begin _ c) in *. assert (H1 : run_inv base r1 /\ overlooked c r1).
  { split; [by apply inv_begin, inv_shutdown, inv_shutdown|]. unfold r1, handler_begin, shutdown_range, shutdown_sockets. rewrite Hst. cbn. rewrite Ha. cbn.
    split_and!; [by left|set_solver|]. cbn. rewrite lookup_insert_eq. eauto. }
  assert (H2 : run_inv base r' /\ overlooked c r').
  { eapply (rtc_preserves _ (fun x => run_inv base x /\ overlooked c x)); [|exact Hr'|exact H1]. intros a b [Ia Oa] Hs. split; [by eapply run_step_inv|by eapply overlooked_step]. }
  destruct H2 as [Hi' Ho']. pose proof (overlooked_wg _ _ _ Hi' Ho') as Hwg. split_and!; [apply Ho'|done| |done].
  unfold shutdown_wait. destruct (rn_stage r'); try done. by rewrite (proj2 (Z.eqb_neq _ _)) by lia.
Qed.

(** ** Start *)

Lemma start_lane_cases r n lane res : start_lane r n lane res = (serve r n lane.1.1.1 (match lane.1.1.1 with LaneMetrics => "metrics" | _ => lane.1.1.2 end), None) \/ exists e, start_lane r n lane res = (r, Some e).
Proof.
  destruct lane as [[[[] name] listen] backend], res as [[e1|] [e2|] [e3|]]; cbn; eauto.
Qed.

(** [start] is a sequence of steps that open the lanes in order; it stops at the first lane that
    fails and returns its error, and then exactly the lanes before it serve. *)
Theorem transit_start lanes : forall r results,
  rn_stage r = Serving -> length results = length lanes -> NoDup results.*1 -> (forall n, n ∈ results.*1 -> rn_services r !! n = None) ->
  let '(r', err) := start r lanes results in
  rtc (run_step anyone) r r'
  /\ exists k : nat, (k <= length lanes)%nat /\ rn_wg r' = rn_wg r + Z.of_nat k /\ (err = None <-> k = length lanes)
     /\ rn_sockets r' = list_to_set (take k results.*1) ∪ rn_sockets r.
Proof.
  induction lanes as [|lane lanes IH]; intros r [|[n res] results] Hs Hlen Hnd Hfr; try done; cbn [start].
  - split; [constructor|]. exists 0%nat. cbn. split_and!; [lia|lia|done|set_solver].
  - cbn in Hnd, Hlen. apply NoDup_cons in Hnd as [Hn Hnd]. destruct (start_lane_cases r n lane res) as [E|[e E]]; rewrite E.
    + set (r1 := serve r n _ _). assert (Hstep : run_step anyone r r1) by (apply rs_serve; [done|apply Hfr; cbn; by apply elem_of_cons; left]).
      specialize (IH r1 results). destruct (start r1 lanes results) as [r2 err]. destruct IH as (H1 & k & Hk1 & Hk2 & Hk3 & Hk4); [done|lia|done| |].
      { intros x Hx. cbn. rewrite lookup_insert_ne by (intros <-; done). apply Hfr. cbn. apply elem_of_cons. by right. }
      split; [by eapply rtc_l|]. exists (S k). cbn [take fmap list_fmap length]. split_and!; [lia|rewrite Hk2; cbn; lia|rewrite Hk3; lia|].
      rewrite Hk4. cbn. set_solver.
    + split; [constructor|]. exists 0%nat. cbn. split_and!; [lia|lia|split; [done|lia]|set_solver].
Qed.

(** ** Examples *)

Definition lane_ok : laneResult := mkLaneResult None None None.
Definition lane_busy : laneResult := mkLaneResult None None (Some (EExt "address already in use")).
Definition ex_lanes : list (lane_kind * string * string * string) := ztake 2 (start_lanes DefaultConfig).
(** The UDP port is taken; meanwhile a client has connected to the TCP port. *)
Definition ex_started : run * option goerr := start (newRun (fun _ => 0)) ex_lanes [(1, lane_ok); (2, lane_busy)].
Definition ex_late : run := accept_turn ex_started.1 1 (inl 100).

Lemma ex_started_reach : rtc (run_step anyone) (newRun (fun _ => 0)) ex_started.1.
Proof. eapply rtc_l; [|constructor]. apply (rs_serve anyone (newRun (fun _ => 0)) 1 LaneTCP "session_tcp"); by vm_compute. Qed.
Lemma ex_late_reach : rtc (run_step anyone) (newRun (fun _ => 0)) ex_late.
Proof.
  eapply rtc_r; [apply ex_started_reach|]. apply rs_accept. intros c [= <-]. split; [|by vm_compute]. split; [by vm_compute|].
  intros d h Hd. change (px_handlers (rn_px ex_started.1)) with (∅ : gmap Z handler) in Hd. by rewrite lookup_empty in Hd.
Qed.

Lemma transit_start_witness : (let '(r', err) := ex_started in rtc (run_step anyone) (newRun (fun _ => 0)) r' /\ err <> None /\ rn_wg r' = 1).
Proof.
  pose proof (transit_start ex_lanes (newRun (fun _ => 0)) [(1, lane_ok); (2, lane_busy)] eq_refl eq_refl) as H.
  specialize (H ltac:(apply (bool_decide_unpack _); vm_compute; exact I)). specialize (H (fun n _ => eq_refl)).
  fold ex_started in H. destruct ex_started as [r' err] eqn:E. split; [exact (proj1 H)|]. unfold ex_started in E. vm_compute in E. injection E as <- <-. done.
Defined.

Lemma transit_late_connection_witness : 0 < rn_wg (handler_begin (shutdown_range (shutdown_sockets ex_late)) 100).
Proof.
  refine (proj1 (proj2 (transit_late_connection (fun _ => 0) ex_late 100 "session_tcp" _ ex_late_reach _ _ (rtc_refl _ _)))); vm_compute; reflexivity.
Defined.

(** The lane is closed, its goroutine returns and [Shutdown] ends. *)
Definition ex_down : run := service_return (shutdown_range (shutdown_sockets ex_started.1)) 1.
Definition ex_ended : run := with_stage ex_down (rn_px ex_down) (rn_sockets ex_down) (Returned None).
Lemma ex_ended_reach : rtc (run_step anyone) (newRun (fun _ => 0)) ex_ended.
Proof.
  eapply rtc_r; [|apply (rs_wait anyone ex_down None); vm_compute; reflexivity].
  eapply rtc_r; [eapply rtc_r; [eapply rtc_r; [apply ex_started_reach|apply rs_sockets]|apply rs_range]|].
  assert (E : ex_down = accept_turn (shutdown_range (shutdown_sockets ex_started.1)) 1 (inr ENetClosed)) by (vm_compute; reflexivity).
  rewrite E. apply rs_accept. by intros c [=].
Qed.
