(* ===== verification/ServerRun.v ===== *)
(** * The session server: start, accept loops and shutdown ([internal/session/server.go])

    [Start] runs one goroutine per lane and waits for the context or for their results; each lane
    accepts connections and starts a goroutine for each, which takes a session number and runs the
    session; [Shutdown] closes the listeners and then the sessions that are registered. The
    sessions themselves are those of the files Session and TCPSession; here a session is its number. *)

From S2P Require Import Prelude Ownership GoString Crypto Auth Limits Wheel Store Metrics Server.

(** ** [Start] *)

(** The lanes that are started. *)
Definition lanes_of (c : SessionConfig) : list bool :=
  (if String.eqb (ListenQUIC c) "" then [] else [true]) ++ (if String.eqb (ListenTCP c) "" then [] else [false]).

(** What the [select] of [Start] takes next: the end of the context, or the result of a lane. *)
Inductive start_event := SDone | SLane (err : option goerr).
(** The loop of [Start]: its result, and whether it cancelled the lanes; [None] while it waits. *)
Fixpoint start_loop (remaining : nat) (evs : list start_event) : option (option goerr) :=
  match remaining, evs with
  | O, _ => Some None
  | S _, [] => None
  | S _, SDone :: _ => Some None
  | S _, SLane (Some e) :: _ => Some (Some e)
  | S n, SLane None :: evs => start_loop n evs
  end.
Definition Start {P} `{SecretProvider P} (s : Server P) (evs : list start_event) : option (option goerr) :=
  match start_check s with
  | Some e => Some (Some e)
  | None => start_loop (length (lanes_of (sr_cfg s))) evs
  end.

(** ** The accept loops *)

Definition keep_alive (c : SessionConfig) : Z := if KeepAlive c =? 0 then 12 * Second else KeepAlive c.

Inductive accept_next := ANext | AReturn | AHandle (conn : Z).
Definition ErrServerClosed : goerr := ESentinel "quic: server closed".
Definition serveQUIC_accept (ctx : bool) (res : Z + goerr) : accept_next :=
  match res with
  | inl conn => AHandle conn
  | inr e => if ctx || err_is e ErrServerClosed then AReturn else ANext
  end.
Definition serveTCP_accept (temporary : goerr -> bool) (ctx : bool) (res : Z + goerr) : accept_next :=
  match res with
  | inl conn => AHandle conn
  | inr e =>
      if ctx then AReturn
      else if temporary e then ANext
      else if err_is e ENetClosed then AReturn
      else ANext
  end.
(** A lane as a whole: what listening gave, and what it accepts. The connections that are handled,
    and the result of the lane, [None] while it runs. *)
Fixpoint accept_loop (accept : bool -> Z + goerr -> accept_next) (results : list (bool * (Z + goerr))) : list Z * option (option goerr) :=
  match results with
  | [] => ([], None)
  | (ctx, res) :: results =>
      match accept ctx res with
      | AReturn => ([], Some None)
      | ANext => accept_loop accept results
      | AHandle conn => let '(l, r) := accept_loop accept results in (conn :: l, r)
      end
  end.
Definition serveQUIC (addr : string) (listen : option goerr) (results : list (bool * (Z + goerr))) : list Z * option (option goerr) :=
  match listen with
  | Some e => ([], Some (Some (EWrap ("listen quic " ++ addr)%string e)))
  | None => accept_loop serveQUIC_accept results
  end.
Definition serveTCP (temporary : goerr -> bool) (addr : string) (listen : option goerr) (results : list (bool * (Z + goerr))) : list Z * option (option goerr) :=
  match listen with
  | Some e => ([], Some (Some (EWrap ("listen tcp " ++ addr)%string e)))
  | None => accept_loop (serveTCP_accept temporary) results
  end.

Definition accepted_of (r : bool * (Z + goerr)) : option Z := match r.2 with inl c => Some c | inr _ => None end.

(** An accept loop ends only because the server ends: while the context is live and the listener
    open, no error of [Accept] ends it, and every connection is handled, in order; and once the
    listener is closed, the loop returns without an error. *)
Theorem accept_loops_serve temporary addr results :
  (forall r, r ∈ results -> r.1 = false /\ (forall e, r.2 = inr e -> err_is e ErrServerClosed = false /\ (temporary e = false -> err_is e ENetClosed = false))) ->
  (forall rest, serveQUIC addr None (results ++ (true, inr ErrServerClosed) :: rest) = (omap accepted_of results, Some None)
             /\ serveTCP temporary addr None (results ++ (true, inr ENetClosed) :: rest) = (omap accepted_of results, Some None))
  /\ serveQUIC addr None results = (omap accepted_of results, None)
  /\ serveTCP temporary addr None results = (omap accepted_of results, None).
Proof.
  intros Hr. cbn [serveQUIC serveTCP]. assert (Hgo : forall accept stop,
    (forall r, r ∈ results -> accept r.1 r.2 = match r.2 with inl c => AHandle c | inr _ => ANext end) -> accept true stop = AReturn ->
    (forall rest, accept_loop accept (results ++ (true, stop) :: rest) = (omap accepted_of results, Some None))
    /\ accept_loop accept results = (omap accepted_of results, None)).
  { clear Hr. intros accept stop Ha Hs. induction results as [|[ctx res] results IH]; cbn; [by rewrite Hs|].
    pose proof (Ha (ctx, res) (list_elem_of_here _ _)) as E. cbn in E. rewrite E. destruct IH as [H1 H2]; [intros r Hin; apply Ha; apply elem_of_cons; by right|].
    destruct res as [c|e]; cbn; [|done]. split; [intros rest|]; by rewrite ?H1, ?H2. }
  destruct (Hgo serveQUIC_accept (inr ErrServerClosed)) as [Q1 Q2]; [|done|].
  { intros [ctx [c|e]] Hin; [done|]. destruct (Hr _ Hin) as [E He]. cbn in E. subst ctx. cbn. by rewrite (proj1 (He e eq_refl)). }
  destruct (Hgo (serveTCP_accept temporary) (inr ENetClosed)) as [T1 T2]; [|done|].
  { intros [ctx [c|e]] Hin; [done|]. destruct (Hr _ Hin) as [E He]. cbn in E. subst ctx. cbn. destruct (temporary e) eqn:Et; [done|]. by rewrite (proj2 (He e eq_refl) Et). }
  split_and!; [|done|done]. intros rest. by rewrite Q1, T1.
Qed.

Definition lane_ended (e : start_event) : bool := match e with SLane None => true | _ => false end.

Lemma start_loop_spec evs : forall n,
  (forall r, start_loop n evs = Some r ->
     match r with None => SDone ∈ evs \/ (n <= length (List.filter lane_ended evs))%nat | Some e => SLane (Some e) ∈ evs end)
  /\ ((n <= length evs)%nat -> start_loop n evs <> None).
Proof.
  induction evs as [|ev evs IH]; intros [|n]; cbn [start_loop].
  - split; [|done]. intros r [= <-]. right. cbn. lia.
  - split; [done|cbn; lia].
  - split; [|done]. intros r [= <-]. right. lia.
  - destruct ev as [|[e|]].
    + split; [|done]. intros r [= <-]. left. constructor.
    + split; [|done]. intros r [= <-]. constructor.
    + destruct (IH n) as [H1 H2]. split; [|intros Hl; apply H2; cbn in Hl; lia]. intros r Hr. specialize (H1 r Hr). cbn.
      destruct r; [by constructor|]. destruct H1; [left; by constructor|right; lia].
Qed.

(** [Start] does not end before the lanes unless the context does: without an error it returns only
    when the context is done or when every lane has returned; an error it returns is that of a lane
    or of its own checks; and it returns at the latest with the result of the last lane. There are
    at most two lanes, so that the channel holds all their results and no lane waits to deliver. *)
Theorem start_waits {P} `{SecretProvider P} (s : Server P) evs :
  (length (lanes_of (sr_cfg s)) <= 2)%nat
  /\ (forall r, Start s evs = Some r ->
      match r with
      | None => SDone ∈ evs \/ (0 < length (lanes_of (sr_cfg s)) <= length (List.filter lane_ended evs))%nat
      | Some e => start_check s = Some e \/ SLane (Some e) ∈ evs
      end)
  /\ ((length (lanes_of (sr_cfg s)) <= length evs)%nat -> Start s evs <> None).
Proof.
  destruct (start_loop_spec evs (length (lanes_of (sr_cfg s)))) as [H1 H2]. unfold Start. split_and!.
  - unfold lanes_of. destruct (String.eqb (ListenQUIC _) _), (String.eqb (ListenTCP _) _); cbn; lia.
  - intros r. destruct (start_check s) as [e|] eqn:Ec; [intros [= <-]; by left|]. intros Hr. specialize (H1 r Hr). destruct r; [by right|].
    destruct H1 as [H1|H1]; [by left|right]. split; [|done]. revert Ec. unfold start_check, lanes_of. destruct (HasTLS _); cbn; [|done].
    destruct (String.eqb (ListenQUIC _) _), (String.eqb (ListenTCP _) _); cbn; intros; try lia. done.
  - destruct (start_check s); [done|]. exact H2.
Qed.

(** ** Sessions and [Shutdown] *)

Section Run.
  Context {P : Type} `{SecretProvider P}.
  Implicit Types s : Server P.

(** How far [Shutdown] is: the sessions of its snapshot that it has not closed yet. *)
Inductive sstage := SServing | SClosing (rest : list Z) | SStopped.

(** [sv_handling]: the sessions that have a number and are not registered yet; [sv_closed]: those
    whose [Close] was called; [sv_late]: those that registered after the snapshot. *)
Record srvRun := mkSrvRun {
  sv_srv : Server P; sv_listening : bool; sv_handling : gset Z; sv_closed : gset Z; sv_late : gset Z; sv_stage : sstage }.

Definition sv_new (s : Server P) : srvRun := mkSrvRun s true ∅ ∅ ∅ SServing.

(** [handleConn] and [handleTCPConn] up to the session's [Run]. *)
Definition session_handleConn (r : srvRun) : srvRun :=
  let '(s, id) := newSessionID (sv_srv r) in
  mkSrvRun s (sv_listening r) ({[id]} ∪ sv_handling r) (sv_closed r) (sv_late r) (sv_stage r).
(** The session authenticates and registers, or its handshake fails. *)
Definition sv_register (r : srvRun) (now id : Z) (clientID : string) : srvRun :=
  let late := match sv_stage r with SServing => sv_late r | _ => {[id]} ∪ sv_late r end in
  mkSrvRun (registerSession (sv_srv r) now id clientID) (sv_listening r) (sv_handling r ∖ {[id]}) (sv_closed r) late (sv_stage r).
Definition sv_refused (r : srvRun) (id : Z) : srvRun :=
  mkSrvRun (sv_srv r) (sv_listening r) (sv_handling r ∖ {[id]}) (sv_closed r) (sv_late r) (sv_stage r).
(** The session's [Run] returns. *)
Definition sv_end (r : srvRun) (id : Z) : srvRun :=
  mkSrvRun (unregisterSession (sv_srv r) id) (sv_listening r) (sv_handling r) (sv_closed r) (sv_late r) (sv_stage r).
Definition sv_touch (r : srvRun) (now id : Z) : srvRun :=
  mkSrvRun (touchSession (sv_srv r) now id) (sv_listening r) (sv_handling r) (sv_closed r) (sv_late r) (sv_stage r).
(** A tick of the wheel closes the idle sessions. *)
Definition sv_tick (r : srvRun) : srvRun :=
  let '(s, fired) := server_tick (sv_srv r) in
  mkSrvRun s (sv_listening r) (sv_handling r) (list_to_set fired ∪ sv_closed r) (sv_late r) (sv_stage r).

(** [Shutdown]: the listeners and the snapshot, the sessions one by one, the store. *)
Definition shutdown_begin (r : srvRun) : srvRun :=
  match sv_stage r with
  | SServing => mkSrvRun (sv_srv r) false (sv_handling r) (sv_closed r) (sv_late r) (SClosing (map_to_list (sr_sessions (sv_srv r))).*1)
  | _ => r
  end.
Definition shutdown_next (r : srvRun) : srvRun :=
  match sv_stage r with
  | SClosing (id :: rest) => mkSrvRun (sv_srv r) (sv_listening r) (sv_handling r) ({[id]} ∪ sv_closed r) (sv_late r) (SClosing rest)
  | SClosing [] => mkSrvRun (sv_srv r) (sv_listening r) (sv_handling r) (sv_closed r) (sv_late r) SStopped
  | _ => r
  end.
(** A call of [Shutdown] with no other goroutine in between. *)
Fixpoint close_sessions (fuel : nat) (r : srvRun) : srvRun := match fuel with O => r | S n => close_sessions n (shutdown_next r) end.
Definition server_Shutdown (r : srvRun) : srvRun := close_sessions (S (size (sr_sessions (sv_srv r)))) (shutdown_begin r).

Inductive srv_step : srvRun -> srvRun -> Prop :=
| svs_conn r : sv_listening r = true -> sr_nextID (sv_srv r) + 1 < 2 ^ 64 -> srv_step r (session_handleConn r)
| svs_register r now id clientID : id ∈ sv_handling r -> srv_step r (sv_register r now id clientID)
| svs_refused r id : srv_step r (sv_refused r id)
| svs_end r id : srv_step r (sv_end r id)
| svs_touch r now id : srv_step r (sv_touch r now id)
| svs_tick r : srv_step r (sv_tick r)
| svs_shutdown r : srv_step r (shutdown_begin r)
| svs_next r : srv_step r (shutdown_next r).

Record srv_inv (r : srvRun) : Prop := mkSrvInv {
  vi_srv : server_inv (sv_srv r);
  vi_handling : forall id, id ∈ sv_handling r -> sr_sessions (sv_srv r) !! id = None /\ 0 < id <= sr_nextID (sv_srv r);
  vi_listening : sv_stage r <> SServing -> sv_listening r = false;
  vi_closing : match sv_stage r with
               | SServing => True
               | SClosing l => forall id, is_Some (sr_sessions (sv_srv r) !! id) -> id ∈ sv_closed r \/ id ∈ l \/ id ∈ sv_late r
               | SStopped => forall id, is_Some (sr_sessions (sv_srv r) !! id) -> id ∈ sv_closed r \/ id ∈ sv_late r
               end }.

(** The registry only loses sessions, the rest of the run stays or gains closed sessions. *)
Lemma srv_inv_fewer r s' closed :
  srv_inv r -> server_inv s' -> sr_nextID s' = sr_nextID (sv_srv r) -> sr_sessions s' ⊆ sr_sessions (sv_srv r) -> sv_closed r ⊆ closed ->
  srv_inv (mkSrvRun s' (sv_listening r) (sv_handling r) closed (sv_late r) (sv_stage r)).
Proof.
  intros [H1 H2 H3 H4] Hs En Hsub Hc. assert (Hin : forall id, is_Some (sr_sessions s' !! id) -> is_Some (sr_sessions (sv_srv r) !! id)).
  { intros id [c E]. exists c. by eapply lookup_weaken. }
  split; cbn; try done.
  - intros id Hid. destruct (H2 id Hid) as [E Hb]. split; [|by rewrite En]. by eapply lookup_weaken_None.
  - destruct (sv_stage r); [done|..]; intros id Hid; specialize (H4 id (Hin id Hid)); set_solver.
Qed.
Lemma srv_inv_unreg s id : server_inv s -> server_inv (unregisterSession s id) /\ sr_nextID (unregisterSession s id) = sr_nextID s /\ sr_sessions (unregisterSession s id) ⊆ sr_sessions s.
Proof.
  intros Hi. split; [by apply unregisterSession_inv|]. unfold unregisterSession. destruct (sr_sessions s !! id); [|done]. cbn. split; [done|apply delete_subseteq].
Qed.

Lemma srv_step_inv r r' : srv_inv r -> srv_step r r' -> srv_inv r'.
Proof.
  intros Hi Hs. pose proof Hi as [H1 H2 H3 H4]. destruct Hs as [r Hl Hn|r now id cl Hid|r id|r id|r now id|r|r|r].
  - unfold session_handleConn, newSessionID. rewrite (u64_small (sr_nextID (sv_srv r) + 1)) by (pose proof (si_next _ H1); unfold is_u64; lia).
    pose proof (si_next _ H1) as Hn0. split; cbn; try done.
    + destruct H1 as [S1 S2 S3 S4 S5]. split; cbn; try done; [lia|]. intros i Hx. specialize (S5 i Hx). lia.
    + intros i Hx. apply elem_of_union in Hx as [->%elem_of_singleton|Hx]; [|destruct (H2 i Hx); split; [done|lia]]. split; [|lia].
      destruct (sr_sessions (sv_srv r) !! (sr_nextID (sv_srv r) + 1)) eqn:E; [|done]. assert (is_Some (sr_sessions (sv_srv r) !! (sr_nextID (sv_srv r) + 1))) as Hx%(si_ids _ H1) by eauto. lia.
  - destruct (H2 id Hid) as [En Hb]. split; cbn; try done.
    + by apply registerSession_inv.
    + intros i Hx. apply elem_of_difference in Hx as [Hx Hne%not_elem_of_singleton]. rewrite lookup_insert_ne by done. by apply H2.
    + destruct (sv_stage r); [done|..]; intros i Hx; (destruct (decide (i = id)) as [->|Hne]; [set_solver|]);
        rewrite lookup_insert_ne in Hx by done; specialize (H4 i Hx); set_solver.
  - split; cbn; try done. intros i Hx. apply H2. set_solver.
  - destruct (srv_inv_unreg _ id H1) as (? & ? & ?). by apply srv_inv_fewer.
  - apply srv_inv_fewer; try done. by apply touchSession_inv.
  - unfold sv_tick. pose proof (server_tick_inv _ H1) as Ht. unfold server_tick in *. destruct (SessionStore_tick _) as [st fired]. cbn in Ht. apply srv_inv_fewer; try done. set_solver.
  - unfold shutdown_begin. destruct (sv_stage r); [|done..]. split; cbn; try done. intros i [c Hx]. right. left. apply list_elem_of_fmap. exists (i, c). split; [done|]. by apply elem_of_map_to_list.
  - unfold shutdown_next. destruct (sv_stage r) as [|[|i l]|] eqn:Es; try done.
    + split; cbn; try done. { intros _. apply H3. congruence. } intros x Hx. specialize (H4 x Hx). set_solver.
    + split; cbn; try done. { intros _. apply H3. congruence. } intros x Hx. specialize (H4 x Hx). set_solver.
Qed.

(** [Shutdown] closes every session that was registered: when it has returned, the lanes accept no
    connection, and [Close] was called for every session that is still registered, except those
    that registered after the snapshot; all along the gauge is the number of registered sessions
    and a session that has its number but not yet registered is not in the registry. *)
Theorem server_shutdown_closes (s : Server P) r :
  server_inv s -> rtc srv_step (sv_new s) r ->
  mt_value (sr_metrics (sv_srv r)) ActiveSessions = Z.of_nat (size (sr_sessions (sv_srv r)))
  /\ (forall id, id ∈ sv_handling r -> sr_sessions (sv_srv r) !! id = None)
  /\ (sv_stage r = SStopped ->
      sv_listening r = false /\ forall id, is_Some (sr_sessions (sv_srv r) !! id) -> id ∉ sv_late r -> id ∈ sv_closed r).
Proof.
  intros Hs Hr. assert (Hi : srv_inv r).
  { eapply (rtc_preserves srv_step); [exact srv_step_inv|exact Hr|]. by split; cbn. }
  destruct Hi as [H1 H2 H3 H4]. split_and!; [apply H1|intros id Hid; by apply H2|]. intros E. rewrite E in H3, H4. split; [by apply H3|].
  intros id Hid Hl. destruct (H4 id Hid); [done|]. by destruct Hl.
Qed.

(** A call of [Shutdown] that nothing interrupts ends, with [Close] called for every session. *)
Lemma close_sessions_spec l : forall r, sv_stage r = SClosing l ->
  sv_stage (close_sessions (S (length l)) r) = SStopped /\ list_to_set l ⊆ sv_closed (close_sessions (S (length l)) r)
  /\ sv_closed r ⊆ sv_closed (close_sessions (S (length l)) r) /\ rtc srv_step r (close_sessions (S (length l)) r).
Proof.
  induction l as [|i l IH]; intros r E.
  - cbn. unfold shutdown_next. rewrite E. cbn. split_and!; [done|set_solver|done|]. eapply rtc_l; [apply svs_next|]. unfold shutdown_next. rewrite E. constructor.
  - change (close_sessions (S (length (i :: l))) r) with (close_sessions (S (length l)) (shutdown_next r)).
    assert (E1 : sv_stage (shutdown_next r) = SClosing l /\ sv_closed (shutdown_next r) = {[i]} ∪ sv_closed r) by (unfold shutdown_next; by rewrite E).
    destruct E1 as [E1 E2]. destruct (IH _ E1) as (I1 & I2 & I3 & I4). rewrite E2 in I3. split_and!; [done|cbn; set_solver|set_solver|].
    eapply rtc_l; [apply svs_next|done].
Qed.
Theorem server_shutdown_ends (s : Server P) r :
  server_inv s -> rtc srv_step (sv_new s) r -> sv_stage r = SServing ->
  let r' := server_Shutdown r in
  sv_stage r' = SStopped /\ rtc srv_step r r' /\ (forall id, is_Some (sr_sessions (sv_srv r) !! id) -> id ∈ sv_closed r').
Proof.
  intros Hs Hr E. cbn zeta. unfold server_Shutdown. set (r1 := shutdown_begin r). set (l := (map_to_list (sr_sessions (sv_srv r))).*1).
  assert (E1 : sv_stage r1 = SClosing l) by (unfold r1, shutdown_begin; by rewrite E). destruct (close_sessions_spec l r1 E1) as (I1 & I2 & I3 & I4).
  assert (El : length l = size (sr_sessions (sv_srv r))) by (unfold l; rewrite length_fmap; by apply length_map_to_list). rewrite El in *.
  split_and!; [done|eapply rtc_l; [apply svs_shutdown|done]|]. intros id [c Hc]. apply I2, elem_of_list_to_set, list_elem_of_fmap. exists (id, c).
  split; [done|]. by apply elem_of_map_to_list.
Qed.
End Run.
Arguments srvRun P : clear implicits.

(** ** Examples *)

(** A server with one session that is shut down. *)
Definition ex_srv : srvRun StaticSecretProvider := sv_new ex_server.
Definition ex_srv_down : srvRun StaticSecretProvider := server_Shutdown ex_srv.
Lemma ex_server_inv : server_inv ex_server.
Proof. eapply server_reach_inv, ex_server_reach. Qed.
Lemma ex_srv_down_reach : rtc srv_step (sv_new ex_server) ex_srv_down.
Proof. eapply rtc_l; [apply svs_shutdown|]. eapply rtc_l; [apply svs_next|]. eapply rtc_l; [apply svs_next|]. apply rtc_refl. Qed.

Lemma server_shutdown_closes_witness : sv_listening ex_srv_down = false /\ 1 ∈ sv_closed ex_srv_down.
Proof.
  destruct (proj2 (proj2 (server_shutdown_closes ex_server ex_srv_down ex_server_inv ex_srv_down_reach)) eq_refl) as [E Hc].
  split; [exact E|]. apply Hc; [vm_compute; eauto|]. apply (bool_decide_unpack _). vm_compute. exact I.
Defined.
Lemma server_shutdown_ends_witness : sv_stage ex_srv_down = SStopped /\ 1 ∈ sv_closed ex_srv_down.
Proof.
  destruct (server_shutdown_ends ex_server ex_srv ex_server_inv (rtc_refl _ _) eq_refl) as (E & _ & Hc). split; [exact E|]. apply Hc. vm_compute. eauto.
Defined.

Definition ex_accepts : list (bool * (Z + goerr)) := [(false, inl 7); (false, inr (EExt "too many open files")); (false, inl 8)].
Lemma accept_loops_serve_witness :
  serveQUIC ":443" None (ex_accepts ++ [(true, inr ErrServerClosed)]) = ([7; 8], Some None).
Proof.
  destruct (accept_loops_serve (fun _ => false) ":443" ex_accepts) as [H _]; [|exact (proj1 (H []))].
  intros r Hr. unfold ex_accepts in Hr. repeat (apply elem_of_cons in Hr as [->|Hr]); [| | |by apply not_elem_of_nil in Hr]; (split; [reflexivity|]);
    intros e He; try discriminate He; injection He as <-; split; reflexivity.
Defined.
