(* ===== verification/Socks.v ===== *)
(** * The SOCKS5 client: the protocol ([cmd/socks_client/main.go])

    The negotiation with the local application, and the codec of addresses and UDP datagrams. The
    negotiation runs in a small monad over the connection: what is left to read, what was written,
    and the counter of failed authentications. [net.ParseIP] is defined here for IPv4; its IPv6 part
    is the argument [parse6]. *)

From S2P Require Import Prelude Wire GoString.

Definition socksVer5 : byte := x05.
Definition socksMethodNoAuth : byte := x00.
Definition socksMethodUserPass : byte := x02.
Definition socksMethodNoAcceptable : byte := xff.
Definition socksCmdConnect : byte := x01.
Definition socksCmdBind : byte := x02.
Definition socksCmdUDP : byte := x03.
Definition socksAtypIPv4 : byte := x01.
Definition socksAtypDomain : byte := x03.
Definition socksAtypIPv6 : byte := x04.
Definition socksUserAuthVer : byte := x01.
Definition socksReplySuccess : byte := x00.
Definition socksReplyGeneralFailure : byte := x01.
Definition socksReplyHostUnreachable : byte := x04.
Definition socksReplyCommandUnsupported : byte := x07.
Definition socksReplyAddrUnsupported : byte := x08.

Record socksTarget := mkTarget { Atyp : byte; Host : string; Port : Z }.
Record socksRequest := mkSocksRequest { Cmd : byte; Target : socksTarget }.

Inductive authMode := authModeNone | authModeUserPass.
Record authConfig := mkAuth { ac_mode : authMode; ac_username : string; ac_password : string }.

Definition parseAuthConfig (modeRaw username password : string) : res authConfig :=
  let mode := ToLower (TrimSpace modeRaw) in
  if String.eqb mode "none" then Ok (mkAuth authModeNone "" "")
  else if String.eqb mode "userpass" then
    if String.eqb username "" || String.eqb password ""
    then Err (ENew "username and password are required for --auth userpass")
    else Ok (mkAuth authModeUserPass username password)
  else Err (ENew "unsupported mode").

(** ** [net.ParseIP] *)

(** A field of a dotted address: one to three digits without a leading zero, at most 255. *)
Definition parse_octet (l : list byte) : option byte :=
  match l with
  | [] => None
  | c :: tl =>
      if negb (forallb is_digit l) || (3 <? zlen l) || (ch 48 c && (0 <? zlen tl)) then None
      else match parse_digits l 0 with
      | Some n => if n <=? 255 then Some (zb n) else None
      | None => None
      end
  end.
Definition parse4 (l : list byte) : option (list byte) :=
  match map parse_octet (split_byte x2e l) with
  | [Some a; Some b; Some c; Some d] => Some [a; b; c; d]
  | _ => None
  end.

Definition mapped_prefix : list byte := replicate 10 x00 ++ [xff; xff].

Section ParseIP.
  Context (parse6 : list byte -> option (list byte)).

(** The result has 16 bytes, an IPv4 address in its mapped form. *)
Definition ParseIP (s : string) : option (list byte) :=
  let l := bytes_of_string s in
  let v4 := (fun ip => mapped_prefix ++ ip) <$> parse4 l in
  match index_byte x3a l, index_byte x2e l with
  | Some i, Some j => if decide (i < j)%nat then parse6 l else v4
  | Some _, None => parse6 l
  | None, _ => v4
  end.
Definition To4 (ip : list byte) : option (list byte) :=
  if decide (length ip = 4%nat) then Some ip
  else if bool_decide (length ip = 16%nat /\ take 12 ip = mapped_prefix) then Some (drop 12 ip)
  else None.
Definition To16 (ip : list byte) : option (list byte) :=
  if decide (length ip = 4%nat) then Some (mapped_prefix ++ ip)
  else if decide (length ip = 16%nat) then Some ip
  else None.
Definition ip_text (ip : list byte) : string := string_of_bytes (ip_string ip).

(** ** Addresses *)

Definition encode_ipv4 (host : string) : res (list byte) :=
  match ParseIP host ≫= To4 with
  | Some ip => Ok (socksAtypIPv4 :: ip)
  | None => Err (ENew "invalid ipv4 addr")
  end.
Definition encode_ipv6 (host : string) : res (list byte) :=
  match ParseIP host ≫= To16 with
  | Some ip => Ok (socksAtypIPv6 :: ip)
  | None => Err (ENew "invalid ipv6 addr")
  end.
Definition encode_domain (host : string) : res (list byte) :=
  let host := bytes_of_string (TrimSpace host) in
  if (zlen host =? 0) || (255 <? zlen host) then Err (ENew "invalid domain addr")
  else Ok (socksAtypDomain :: zb (zlen host) :: host).

Definition encodeTargetAddr (t : socksTarget) : res (list byte) :=
  if bool_decide (Atyp t = socksAtypIPv4) then encode_ipv4 (Host t)
  else if bool_decide (Atyp t = socksAtypIPv6) then encode_ipv6 (Host t)
  else if bool_decide (Atyp t = socksAtypDomain) then encode_domain (Host t)
  else match ParseIP (Host t) with
  | Some ip => match To4 ip with
               | Some ip4 => encode_ipv4 (ip_text ip4)
               | None => encode_ipv6 (ip_text ip)
               end
  | None => encode_domain (Host t)
  end.

(** The two bytes of a port; a port outside the range becomes 0. *)
Definition port_bytes (port : Z) : list byte := be_put 2 (if (port <? 0) || (65535 <? port) then 0 else port).

(** [udpAddrToSocksTarget], for an address and a port. *)
Definition udpAddrToSocksTarget (addr : option (list byte * Z)) : socksTarget :=
  match addr with
  | None => mkTarget socksAtypIPv4 "0.0.0.0" 0
  | Some (ip, port) =>
      match To4 ip with
      | Some ip4 => mkTarget socksAtypIPv4 (ip_text ip4) port
      | None => match To16 ip with
                | Some ip16 => mkTarget socksAtypIPv6 (ip_text ip16) port
                | None => mkTarget socksAtypIPv4 "0.0.0.0" port
                end
      end
  end.

(** ** UDP datagrams of the application *)

Definition parse_udp_addr (atyp : byte) (raw : list byte) : res (string * Z) :=
  if bool_decide (atyp = socksAtypIPv4) then
    if zlen raw <? 4 + 4 + 2 then Err (ENew "short udp ipv4 header")
    else ip ← slice raw 4 (4 + 4); Ok (ip_text ip, 8)
  else if bool_decide (atyp = socksAtypIPv6) then
    if zlen raw <? 4 + 16 + 2 then Err (ENew "short udp ipv6 header")
    else ip ← slice raw 4 (4 + 16); Ok (ip_text ip, 20)
  else if bool_decide (atyp = socksAtypDomain) then
    if zlen raw <? 4 + 1 then Err (ENew "short udp domain length")
    else
      lnb ← slice raw 4 5;
      let ln := be_get lnb in
      if (ln <=? 0) || (zlen raw <? 5 + ln + 2) then Err (ENew "invalid udp domain length")
      else host ← slice raw 5 (5 + ln); Ok (string_of_bytes host, 5 + ln)
  else Err (ENew "unsupported udp atyp").

(** The fragment number, the target and the payload. *)
Definition parseSocksUDPDatagram (raw : list byte) : res (byte * socksTarget * list byte) :=
  match raw with
  | r0 :: r1 :: frag :: atyp :: _ =>
      if negb (bool_decide (r0 = x00)) || negb (bool_decide (r1 = x00)) then Err (ENew "invalid udp rsv")
      else
        '(host, offset) ← parse_udp_addr atyp raw;
        portRaw ← slice raw offset (offset + 2);
        payload ← slice raw (offset + 2) (zlen raw);
        let port := be_get portRaw in
        if (port <? 0) || (65535 <? port) then Err (ENew "invalid udp target port")
        else Ok (frag, mkTarget atyp host port, payload)
  | _ => Err (ENew "udp datagram too short")
  end.

Definition buildSocksUDPDatagram (t : socksTarget) (payload : list byte) : res (list byte) :=
  addrRaw ← encodeTargetAddr t;
  Ok ([x00; x00; x00] ++ addrRaw ++ port_bytes (Port t) ++ payload).

(** [fmt.Sprintf("%d|%s|%d", ...)]. *)
Definition targetKey (t : socksTarget) : string :=
  let host := ToLower (TrimSpace (Host t)) in
  string_of_bytes (FormatInt (bz (Atyp t)) ++ x7c :: bytes_of_string host ++ x7c :: FormatInt (Port t)).

(** ** The negotiation *)

Record sconn := mkConn { sc_in : reader; sc_out : writer; sc_authFailures : Z }.

Definition socks (A : Type) : Type := sconn -> sconn * res A.
#[global] Instance socks_bind : MBind socks := fun A B f m c =>
  match m c with
  | (c, Ok a) => f a c
  | (c, Err e) => (c, Err e)
  | (c, Panic s) => (c, Panic s)
  end.
Definition sret {A} (r : res A) : socks A := fun c => (c, r).

(** [io.ReadFull] of [n] bytes. *)
Definition sread (what : string) (n : Z) : socks (list byte) := fun c =>
  match ReadFull (sc_in c) n with
  | Ok (b, r) => (mkConn r (sc_out c) (sc_authFailures c), Ok b)
  | Err e => (c, Err (EWrap what e))
  | Panic s => (c, Panic s)
  end.
Definition swrite (b : list byte) : socks unit := fun c =>
  let '(w, err) := w_write (sc_out c) b in
  (mkConn (sc_in c) w (sc_authFailures c), match err with Some e => Err e | None => Ok tt end).
(** A write whose error is ignored. *)
Definition swrite_ (b : list byte) : socks unit := fun c => ((swrite b c).1, Ok tt).

Definition swrap {A} (ctx : string) (m : socks A) : socks A := fun c => let '(c, r) := m c in (c, wrap_err ctx r).

Definition writeMethodSelection (method : byte) : socks unit := swrite [socksVer5; method].

Definition writeSocksReplyAddr (reply : byte) (bind : socksTarget) : socks unit :=
  addrRaw ← sret (encodeTargetAddr bind);
  swrite ([socksVer5; reply; x00] ++ addrRaw ++ port_bytes (Port bind)).
Definition writeSocksReply (reply : byte) : socks unit := writeSocksReplyAddr reply (mkTarget socksAtypIPv4 "0.0.0.0" 0).
Definition writeSocksReply_ (reply : byte) : socks unit := fun c => ((writeSocksReply reply c).1, Ok tt).

Definition pickMethod (methods : list byte) (mode : authMode) : byte :=
  match mode with
  | authModeNone => if existsb (fun m => bool_decide (m = socksMethodNoAuth)) methods then socksMethodNoAuth else socksMethodNoAcceptable
  | authModeUserPass => if existsb (fun m => bool_decide (m = socksMethodUserPass)) methods then socksMethodUserPass else socksMethodNoAcceptable
  end.

(** A length byte. *)
Definition sread_len (what : string) : socks Z := b ← sread what 1; sret (Ok (be_get b)).

Definition verifyUserPassAuth (cfg : authConfig) : socks unit :=
  let refuse msg := _ ← swrite_ [socksUserAuthVer; x01]; sret (Err (ENew msg)) in
  ver ← sread "read user/pass version" 1;
  if negb (bool_decide (ver = [socksUserAuthVer])) then refuse "invalid user/pass version"
  else
    uln ← sread_len "read username length";
    if uln <=? 0 then refuse "empty username"
    else
      userRaw ← sread "read username" uln;
      pln ← sread_len "read password length";
      if pln <=? 0 then refuse "empty password"
      else
        passRaw ← sread "read password" pln;
        if negb (String.eqb (string_of_bytes userRaw) (ac_username cfg)) || negb (String.eqb (string_of_bytes passRaw) (ac_password cfg))
        then refuse "invalid username/password"
        else swrite [socksUserAuthVer; x00].

Definition read_host (atyp : byte) : socks string :=
  if bool_decide (atyp = socksAtypIPv4) then ip ← sread "read ipv4" 4; sret (Ok (ip_text ip))
  else if bool_decide (atyp = socksAtypIPv6) then ip ← sread "read ipv6" 16; sret (Ok (ip_text ip))
  else if bool_decide (atyp = socksAtypDomain) then
    ln ← sread_len "read domain length";
    if ln <=? 0 then sret (Err (ENew "empty domain"))
    else host ← sread "read domain" ln; sret (Ok (string_of_bytes host))
  else sret (Err (ENew "unsupported atyp")).

Definition readTarget (atyp : byte) : socks socksTarget :=
  host ← read_host atyp;
  portRaw ← sread "read target port" 2;
  let port := be_get portRaw in
  if (port <? 0) || (65535 <? port) then sret (Err (ENew "invalid target port"))
  else sret (Ok (mkTarget atyp host port)).

(** An error of the user and password check is counted. *)
Definition count_auth_failure (m : socks unit) : socks unit := fun c =>
  match m c with
  | (c, Err e) => (mkConn (sc_in c) (sc_out c) (sc_authFailures c + 1), Err e)
  | r => r
  end.

(** An error is answered with a reply before it is returned. *)
Definition or_reply {A} (reply : byte) (m : socks A) : socks A := fun c =>
  match m c with
  | (c, Err e) => ((writeSocksReply reply c).1, Err e)
  | r => r
  end.

Definition read_request : socks socksRequest :=
  reqHdr ← sread "read request header" 4;
  match reqHdr with
  | [ver; cmd; _; atyp] =>
      if negb (bool_decide (ver = socksVer5)) then sret (Err (ENew "invalid request version"))
      else if negb (bool_decide (cmd = socksCmdConnect)) && negb (bool_decide (cmd = socksCmdBind)) && negb (bool_decide (cmd = socksCmdUDP))
      then _ ← writeSocksReply_ socksReplyCommandUnsupported; sret (Err (ENew "unsupported cmd"))
      else target ← or_reply socksReplyAddrUnsupported (readTarget atyp); sret (Ok (mkSocksRequest cmd target))
  | _ => sret (Panic "index out of range")
  end.

Definition negotiateSOCKS5 (cfg : authConfig) : socks socksRequest :=
  greetHdr ← sread "read greeting header" 2;
  match greetHdr with
  | [ver; nb] =>
      if negb (bool_decide (ver = socksVer5)) then sret (Err (ENew "unsupported SOCKS version"))
      else
        let nMethods := bz nb in
        if nMethods <=? 0 then sret (Err (ENew "no auth methods provided"))
        else
          methods ← sread "read methods" nMethods;
          let selectedMethod := pickMethod methods (ac_mode cfg) in
          if bool_decide (selectedMethod = socksMethodNoAcceptable)
          then _ ← swrite_ [socksVer5; socksMethodNoAcceptable]; sret (Err (ENew "client does not support configured auth method"))
          else
            _ ← swrap "write method selection" (writeMethodSelection selectedMethod);
            _ ← (if bool_decide (selectedMethod = socksMethodUserPass) then count_auth_failure (verifyUserPassAuth cfg) else sret (Ok tt));
            read_request
  | _ => sret (Panic "index out of range")
  end.
End ParseIP.

(** ** Lemmas *)

Section SocksFacts.
  Context (parse6 : list byte -> option (list byte)).

Lemma be_get_1 b : be_get [b] = bz b.
Proof. unfold be_get. cbn [foldl]. rewrite be_step_arith. lia. Qed.

Lemma socks_bind_Ok {A B} (m : socks A) (f : A -> socks B) c c' b :
  (x ← m; f x) c = (c', Ok b) -> exists c1 a, m c = (c1, Ok a) /\ f a c1 = (c', Ok b).
Proof. unfold mbind, socks_bind. destruct (m c) as [c1 [a|e|s]]; [eauto|done..]. Qed.

Lemma sread_Ok what n c c' b :
  sread what n c = (c', Ok b) -> rd_bytes (sc_in c) = b ++ rd_bytes (sc_in c') /\ zlen b = Z.max 0 n.
Proof.
  unfold sread. destruct (ReadFull (sc_in c) n) as [[b' r]| |] eqn:E; [|done..]. intros [= <- <-].
  by apply ReadFull_inv in E as (E & _ & Hl).
Qed.

Lemma sread_app what n b rest fin w k :
  zlen b = n -> sread what n (mkConn (Reader (b ++ rest) fin) w k) = (mkConn (Reader rest fin) w k, Ok b).
Proof.
  intros <-. unfold sread. cbn [sc_in sc_out sc_authFailures]. by rewrite ReadFull_app.
Qed.

Lemma sread_len_app what b rest fin w k :
  sread_len what (mkConn (Reader (b :: rest) fin) w k) = (mkConn (Reader rest fin) w k, Ok (bz b)).
Proof.
  change (b :: rest) with ([b] ++ rest). unfold sread_len, mbind, socks_bind. rewrite (sread_app what 1 [b]) by done. unfold sret. by rewrite be_get_1.
Qed.

Lemma sread_len_Ok what c c' n :
  sread_len what c = (c', Ok n) -> exists b, rd_bytes (sc_in c) = b :: rd_bytes (sc_in c') /\ n = bz b.
Proof.
  unfold sread_len. intros (c1 & l & E & E2)%socks_bind_Ok. apply sread_Ok in E as [E Hl]. injection E2 as <- <-.
  destruct l as [|b [|b' l]]; [done| |rewrite !zlen_cons in Hl; pose proof (zlen_nonneg l); lia]. exists b. split; [done|apply be_get_1].
Qed.

Lemma swrite_in b c c' u : swrite b c = (c', u) -> sc_in c' = sc_in c.
Proof. unfold swrite. destruct (w_write (sc_out c) b). by intros [= <- <-]. Qed.

(** Credentials that pass the check are the configured ones. *)
Lemma verifyUserPassAuth_Ok cfg c c' :
  verifyUserPassAuth cfg c = (c', Ok tt) ->
  exists ul pl, rd_bytes (sc_in c) = socksUserAuthVer :: ul :: bytes_of_string (ac_username cfg) ++ pl :: bytes_of_string (ac_password cfg) ++ rd_bytes (sc_in c')
    /\ bz ul = zlen (bytes_of_string (ac_username cfg)) /\ bz pl = zlen (bytes_of_string (ac_password cfg)).
Proof.
  unfold verifyUserPassAuth. intros (c1 & ver & E1 & E)%socks_bind_Ok. apply sread_Ok in E1 as [B1 _].
  case_bool_decide as Hv; cbn [negb] in E; [|by apply socks_bind_Ok in E as (? & ? & _ & [=])].
  apply socks_bind_Ok in E as (c2 & ul & E2 & E). apply sread_len_Ok in E2 as (u & B2 & ->).
  destruct (bz u <=? 0) eqn:Hu; [by apply socks_bind_Ok in E as (? & ? & _ & [=])|].
  apply socks_bind_Ok in E as (c3 & user & E3 & E). apply sread_Ok in E3 as [B3 L3].
  apply socks_bind_Ok in E as (c4 & pl & E4 & E). apply sread_len_Ok in E4 as (p & B4 & ->).
  destruct (bz p <=? 0) eqn:Hp; [by apply socks_bind_Ok in E as (? & ? & _ & [=])|].
  apply socks_bind_Ok in E as (c5 & pass & E5 & E). apply sread_Ok in E5 as [B5 L5].
  destruct (String.eqb (string_of_bytes user) (ac_username cfg)) eqn:Eu; cbn [negb orb] in E; [|by apply socks_bind_Ok in E as (? & ? & _ & [=])].
  destruct (String.eqb (string_of_bytes pass) (ac_password cfg)) eqn:Ep; cbn [negb orb] in E; [|by apply socks_bind_Ok in E as (? & ? & _ & [=])].
  apply String.eqb_eq in Eu, Ep. apply swrite_in in E. rewrite <- Eu, <- Ep, !bytes_string_bytes. zbool.
  exists u, p. rewrite B1, Hv, B2, B3, B4, B5, E. cbn [app]. split_and!; [done|lia|lia].
Qed.

Lemma split_byte_avoid c l r : avoids c l -> split_byte c (l ++ c :: r) = l :: split_byte c r.
Proof.
  induction 1 as [|x l Hx Hl IH]; cbn [app split_byte]; [by rewrite bool_decide_eq_true_2|].
  rewrite bool_decide_eq_false_2 by congruence. by rewrite IH.
Qed.
Lemma split_byte_last c l : avoids c l -> split_byte c l = [l].
Proof.
  induction 1 as [|x l Hx Hl IH]; [done|]. cbn [split_byte]. rewrite bool_decide_eq_false_2 by congruence. by rewrite IH.
Qed.

Lemma avoids_index c l : avoids c l -> index_byte c l = None.
Proof. induction 1 as [|x l Hx Hl IH]; [done|]. cbn [index_byte]. rewrite bool_decide_eq_false_2 by done. by rewrite IH. Qed.

Lemma octet_roundtrip b : parse_octet (FormatUint (bz b)) = Some b /\ avoids x2e (FormatUint (bz b)) /\ avoids x3a (FormatUint (bz b)).
Proof.
  assert (Hb : is_u64 (bz b)) by (pose proof (bz_range b); unfold is_u64; lia).
  destruct (parse_FormatUint (bz b) Hb) as (_ & _ & Hd). split; [destruct b; vm_compute; reflexivity|].
  split; (eapply Forall_impl; [exact Hd|]; intros c Hc ->; done).
Qed.

(** The text of an IPv4 address parses back. *)
Lemma parse4_dotted a b c d : parse4 (dotted [a; b; c; d]) = Some [a; b; c; d] /\ avoids x3a (dotted [a; b; c; d]).
Proof.
  destruct (octet_roundtrip a) as (Pa & Da & Ca), (octet_roundtrip b) as (Pb & Db & Cb), (octet_roundtrip c) as (Pc & Dc & Cc), (octet_roundtrip d) as (Pd & Dd & Cd).
  unfold dotted. cbn [map concat]. rewrite app_nil_r. split.
  - unfold parse4. cbn [app]. rewrite split_byte_avoid, split_byte_avoid, split_byte_avoid, split_byte_last by done.
    cbn [map]. by rewrite Pa, Pb, Pc, Pd.
  - cbn [app]. repeat (apply avoids_app; split; [done|]; try (constructor; [done|])). done.
Qed.

Lemma ParseIP_dotted ip : length ip = 4%nat -> ParseIP parse6 (ip_text ip) = Some (mapped_prefix ++ ip).
Proof.
  intros Hl. destruct ip as [|a [|b [|c [|d [|]]]]]; try done. unfold ip_text, ParseIP.
  change (ip_string [a; b; c; d]) with (dotted [a; b; c; d]). rewrite bytes_string_bytes. destruct (parse4_dotted a b c d) as [Hp Ha].
  rewrite avoids_index by done. by rewrite Hp.
Qed.
End SocksFacts.

(** ** Addresses as an application writes them *)

Inductive socks_addr := A4 (ip : list byte) | A6 (ip : list byte) | ADomain (name : list byte).

Definition addr_ok (a : socks_addr) : Prop :=
  match a with A4 ip => length ip = 4%nat | A6 ip => length ip = 16%nat | ADomain name => 0 < zlen name <= 255 end.
Definition addr_atyp (a : socks_addr) : byte :=
  match a with A4 _ => socksAtypIPv4 | A6 _ => socksAtypIPv6 | ADomain _ => socksAtypDomain end.
Definition addr_host (a : socks_addr) : string :=
  match a with A4 ip | A6 ip => ip_text ip | ADomain name => string_of_bytes name end.
Definition addr_wire (a : socks_addr) : list byte :=
  match a with A4 ip | A6 ip => ip | ADomain name => zb (zlen name) :: name end.
Definition addr_target (a : socks_addr) (port : Z) : socksTarget := mkTarget (addr_atyp a) (addr_host a) port.

(** What the application sends: the greeting, the credentials when they are asked for, the request. *)
Definition hello (methods : list byte) : list byte := socksVer5 :: zb (zlen methods) :: methods.
Definition credentials (user pass : list byte) : list byte :=
  socksUserAuthVer :: zb (zlen user) :: user ++ zb (zlen pass) :: pass.
Definition request (cmd : byte) (a : socks_addr) (port : Z) : list byte :=
  [socksVer5; cmd; x00; addr_atyp a] ++ addr_wire a ++ be_put 2 port.

Section SocksTheorems.
  Context (parse6 : list byte -> option (list byte)).

Lemma bz_len (l : list byte) : 0 <= zlen l < 256 -> bz (zb (zlen l)) = zlen l.
Proof. intros H. by apply bz_zb_small. Qed.

Lemma read_host_app a rest fin w k :
  addr_ok a -> read_host (addr_atyp a) (mkConn (Reader (addr_wire a ++ rest) fin) w k) = (mkConn (Reader rest fin) w k, Ok (addr_host a)).
Proof.
  intros Ha. destruct a as [ip|ip|name]; cbn [addr_atyp addr_wire addr_host addr_ok] in *; unfold read_host.
  - rewrite bool_decide_eq_true_2 by done. unfold mbind, socks_bind. rewrite sread_app by (unfold zlen; by rewrite Ha). done.
  - rewrite bool_decide_eq_false_2 by done. rewrite bool_decide_eq_true_2 by done. unfold mbind, socks_bind. rewrite sread_app by (unfold zlen; by rewrite Ha). done.
  - rewrite !bool_decide_eq_false_2 by done. rewrite bool_decide_eq_true_2 by done. cbn [app]. unfold mbind, socks_bind. rewrite sread_len_app.
    rewrite bz_len by lia. rewrite (proj2 (Z.leb_gt _ _)) by lia. by rewrite sread_app.
Qed.

Lemma readTarget_app a port rest fin w k :
  addr_ok a -> is_u16 port ->
  readTarget (addr_atyp a) (mkConn (Reader (addr_wire a ++ be_put 2 port ++ rest) fin) w k) = (mkConn (Reader rest fin) w k, Ok (addr_target a port)).
Proof.
  intros Ha Hp. unfold readTarget, mbind, socks_bind. rewrite read_host_app by done. rewrite sread_app by done.
  rewrite be_get_put_u16 by done. unfold is_u16 in Hp. rewrite (proj2 (Z.ltb_ge port 0)), (proj2 (Z.ltb_ge 65535 port)) by lia. done.
Qed.

Lemma read_request_app cmd a port rest fin w k :
  cmd ∈ [socksCmdConnect; socksCmdBind; socksCmdUDP] -> addr_ok a -> is_u16 port ->
  read_request parse6 (mkConn (Reader (request cmd a port ++ rest) fin) w k) = (mkConn (Reader rest fin) w k, Ok (mkSocksRequest cmd (addr_target a port))).
Proof.
  intros Hc Ha Hp. unfold request. rewrite <- !app_assoc. unfold read_request. unfold mbind at 1, socks_bind at 1. rewrite sread_app by done.
  rewrite bool_decide_eq_true_2 by done. cbn [negb].
  assert (negb (bool_decide (cmd = socksCmdConnect)) && negb (bool_decide (cmd = socksCmdBind)) && negb (bool_decide (cmd = socksCmdUDP)) = false) as ->.
  { rewrite !elem_of_cons in Hc. destruct Hc as [->|[->|[->|Hc]]]; [done..|by apply not_elem_of_nil in Hc]. }
  unfold mbind, socks_bind, or_reply. by rewrite readTarget_app.
Qed.

Lemma swrite_all b r out k : swrite b (mkConn r (Writer out None) k) = (mkConn r (Writer (out ++ b) None) k, Ok tt).
Proof. unfold swrite. cbn [sc_out sc_in sc_authFailures]. by rewrite w_write_unbounded. Qed.

Lemma verifyUserPassAuth_app cfg rest fin out k :
  let user := bytes_of_string (ac_username cfg) in let pass := bytes_of_string (ac_password cfg) in
  0 < zlen user < 256 -> 0 < zlen pass < 256 ->
  verifyUserPassAuth cfg (mkConn (Reader (credentials user pass ++ rest) fin) (Writer out None) k)
    = (mkConn (Reader rest fin) (Writer (out ++ [socksUserAuthVer; x00]) None) k, Ok tt).
Proof.
  cbn zeta. set (user := bytes_of_string (ac_username cfg)). set (pass := bytes_of_string (ac_password cfg)). intros Hu Hp.
  unfold credentials. change (socksUserAuthVer :: zb (zlen user) :: user ++ zb (zlen pass) :: pass)
    with ([socksUserAuthVer] ++ zb (zlen user) :: user ++ zb (zlen pass) :: pass).
  rewrite <- app_assoc. cbn [app]. rewrite <- app_assoc. cbn [app]. unfold verifyUserPassAuth.
  unfold mbind, socks_bind. change (socksUserAuthVer :: ?x) with ([socksUserAuthVer] ++ x).
  rewrite (sread_app _ 1 [socksUserAuthVer]) by done. rewrite bool_decide_eq_true_2 by done. cbn [negb].
  rewrite sread_len_app, bz_len by lia. rewrite (proj2 (Z.leb_gt _ _)) by lia. rewrite sread_app by done.
  rewrite sread_len_app, bz_len by lia. rewrite (proj2 (Z.leb_gt _ _)) by lia. rewrite sread_app by done.
  unfold user, pass. rewrite !string_bytes_string, !String.eqb_refl. cbn [negb orb]. apply swrite_all.
Qed.

(** ** Theorems *)

(** An application that speaks SOCKS5 gets through: for every request (connect, bind or UDP), every
    address form and every port, with whatever other methods it offers, the negotiation reads
    exactly the handshake, answers with the method and, when a password is asked for, with success,
    and yields the command, the host and the port; what follows on the connection stays unread. *)
Theorem socks_negotiation_complete cfg methods cmd a port rest fin out n :
  0 < zlen methods < 256 -> cmd ∈ [socksCmdConnect; socksCmdBind; socksCmdUDP] -> addr_ok a -> is_u16 port ->
  let user := bytes_of_string (ac_username cfg) in let pass := bytes_of_string (ac_password cfg) in
  let result w := (mkConn (Reader rest fin) (Writer (out ++ w) None) n, Ok (mkSocksRequest cmd (addr_target a port))) in
  (ac_mode cfg = authModeNone -> socksMethodNoAuth ∈ methods ->
     negotiateSOCKS5 parse6 cfg (mkConn (Reader (hello methods ++ request cmd a port ++ rest) fin) (Writer out None) n)
       = result [socksVer5; socksMethodNoAuth])
  /\ (ac_mode cfg = authModeUserPass -> socksMethodUserPass ∈ methods -> 0 < zlen user < 256 -> 0 < zlen pass < 256 ->
     negotiateSOCKS5 parse6 cfg (mkConn (Reader (hello methods ++ credentials user pass ++ request cmd a port ++ rest) fin) (Writer out None) n)
       = result [socksVer5; socksMethodUserPass; socksUserAuthVer; x00]).
Proof.
  intros Hm Hcmd Ha Hp. cbn zeta.
  assert (Hex : forall x, x ∈ methods -> existsb (fun m => bool_decide (m = x)) methods = true).
  { intros x Hx. apply existsb_exists. exists x. split; [by apply list_elem_of_In|by apply bool_decide_eq_true_2]. }
  assert (Hstart : forall k tail, negotiateSOCKS5 parse6 cfg (mkConn (Reader (hello methods ++ tail) fin) (Writer out None) k) =
    (let sel := pickMethod methods (ac_mode cfg) in
     if bool_decide (sel = socksMethodNoAcceptable)
     then _ ← swrite_ [socksVer5; socksMethodNoAcceptable]; sret (Err (ENew "client does not support configured auth method"))
     else _ ← swrap "write method selection" (writeMethodSelection sel);
          _ ← (if bool_decide (sel = socksMethodUserPass) then count_auth_failure (verifyUserPassAuth cfg) else sret (Ok tt));
          read_request parse6) (mkConn (Reader tail fin) (Writer out None) k)).
  { intros k tail. unfold negotiateSOCKS5, hello. unfold mbind at 1, socks_bind at 1.
    change ((socksVer5 :: zb (zlen methods) :: methods) ++ tail) with ([socksVer5; zb (zlen methods)] ++ methods ++ tail).
    rewrite sread_app by done. rewrite bool_decide_eq_true_2 by done. cbn [negb]. cbn zeta. rewrite bz_len by lia.
    rewrite (proj2 (Z.leb_gt _ _)) by lia. unfold mbind at 1, socks_bind at 1. by rewrite sread_app by done. }
  split.
  - intros Hmode Hin. rewrite Hstart. cbn zeta. unfold pickMethod. rewrite Hmode, Hex by done. rewrite bool_decide_eq_false_2 by done.
    unfold mbind at 1, socks_bind at 1, swrap, writeMethodSelection. rewrite swrite_all. cbn [wrap_err].
    rewrite bool_decide_eq_false_2 by done. unfold mbind, socks_bind, sret. by rewrite read_request_app.
  - intros Hmode Hin Hu Hpw. rewrite Hstart. cbn zeta. unfold pickMethod. rewrite Hmode, Hex by done. rewrite bool_decide_eq_false_2 by done.
    unfold mbind at 1, socks_bind at 1, swrap, writeMethodSelection. rewrite swrite_all. cbn [wrap_err].
    rewrite bool_decide_eq_true_2 by done. unfold mbind, socks_bind, count_auth_failure. rewrite verifyUserPassAuth_app by done.
    rewrite read_request_app by done. by rewrite <- app_assoc.
Qed.

(** C38: With a password configured, no request gets past the negotiation without it: whenever it
    succeeds, the application offered the method and sent exactly the configured name and password
    before its request. *)
Theorem socks_auth_enforced cfg c c' req :
  ac_mode cfg = authModeUserPass -> negotiateSOCKS5 parse6 cfg c = (c', Ok req) ->
  exists nb methods ul pl tail,
    rd_bytes (sc_in c) = socksVer5 :: nb :: methods ++ socksUserAuthVer :: ul :: bytes_of_string (ac_username cfg)
                           ++ pl :: bytes_of_string (ac_password cfg) ++ tail
    /\ bz nb = zlen methods /\ socksMethodUserPass ∈ methods
    /\ bz ul = zlen (bytes_of_string (ac_username cfg)) /\ bz pl = zlen (bytes_of_string (ac_password cfg)).
Proof.
  intros Hmode E. unfold negotiateSOCKS5 in E. apply socks_bind_Ok in E as (c1 & hdr & E1 & E). apply sread_Ok in E1 as [B1 L1].
  destruct hdr as [|ver [|nb [|]]]; try done. case_bool_decide as Hv; [|done]. cbn [negb] in E. subst ver.
  cbn zeta in E. destruct (bz nb <=? 0) eqn:Hn; [done|]. zbool.
  apply socks_bind_Ok in E as (c2 & methods & E2 & E). apply sread_Ok in E2 as [B2 L2].
  unfold pickMethod in E. rewrite Hmode in E.
  destruct (existsb _ methods) eqn:Hex; [|rewrite bool_decide_eq_true_2 in E by done; by apply socks_bind_Ok in E as (? & ? & _ & [=])].
  rewrite bool_decide_eq_false_2 in E by done. apply socks_bind_Ok in E as (c3 & u & E3 & E).
  assert (Hin3 : sc_in c3 = sc_in c2).
  { unfold swrap, writeMethodSelection in E3. destruct (swrite _ c2) as [c4 r] eqn:Ew. apply swrite_in in Ew. by injection E3 as <- _. }
  rewrite bool_decide_eq_true_2 in E by done. apply socks_bind_Ok in E as (c4 & [] & E4 & E).
  unfold count_auth_failure in E4. destruct (verifyUserPassAuth cfg c3) as [c5 [[]| |]] eqn:Ev; [|done..].
  apply verifyUserPassAuth_Ok in Ev as (ul & pl & B3 & Hul & Hpl).
  apply existsb_exists in Hex as (m & Hm & Hm2). apply bool_decide_eq_true_1 in Hm2. subst m.
  exists nb, methods, ul, pl, (rd_bytes (sc_in c5)). rewrite B1, B2, <- Hin3, B3. split_and!; [done|lia|by apply list_elem_of_In|done|done].
Qed.
(** The header of a datagram with the address [a]. *)
Definition datagram_header (a : socks_addr) : list byte := [x00; x00; x00; addr_atyp a] ++ addr_wire a.

Lemma parse_udp_addr_wire a rest :
  addr_ok a -> 2 <= zlen rest ->
  parse_udp_addr (addr_atyp a) (datagram_header a ++ rest) = Ok (addr_host a, zlen (datagram_header a)).
Proof.
  intros Ha Hr. unfold datagram_header, parse_udp_addr. rewrite <- app_assoc.
  destruct a as [ip|ip|name]; cbn [addr_atyp addr_wire addr_host addr_ok] in *.
  - rewrite bool_decide_eq_true_2 by done. assert (Hl : zlen ip = 4) by (unfold zlen; by rewrite Ha).
    rewrite !zlen_app, Hl. change (zlen [x00; x00; x00; socksAtypIPv4]) with 4. rewrite (proj2 (Z.ltb_ge _ _)) by lia.
    rewrite slice_mid by (rewrite ?Hl; done). done.
  - rewrite bool_decide_eq_false_2 by done. rewrite bool_decide_eq_true_2 by done. assert (Hl : zlen ip = 16) by (unfold zlen; by rewrite Ha).
    rewrite !zlen_app, Hl. change (zlen [x00; x00; x00; socksAtypIPv6]) with 4. rewrite (proj2 (Z.ltb_ge _ _)) by lia.
    rewrite slice_mid by (rewrite ?Hl; done). done.
  - rewrite !bool_decide_eq_false_2 by done. rewrite bool_decide_eq_true_2 by done.
    rewrite !zlen_app. rewrite !(zlen_cons _ name). pose proof (zlen_nonneg name). change (zlen [x00; x00; x00; socksAtypDomain]) with 4. rewrite (proj2 (Z.ltb_ge _ _)) by lia.
    change ((zb (zlen name) :: name) ++ rest) with ([zb (zlen name)] ++ name ++ rest).
    rewrite (slice_mid _ [zb (zlen name)]) by done. unfold mbind at 1, res_bind at 1. rewrite be_get_1, bz_len by lia.
    rewrite (proj2 (Z.leb_gt _ _)), (proj2 (Z.ltb_ge _ _)) by lia. cbn [orb].
    rewrite app_assoc. rewrite slice_mid by (rewrite ?zlen_app; change (zlen [x00; x00; x00; socksAtypDomain]) with 4; change (zlen [zb (zlen name)]) with 1; lia). unfold mbind, res_bind. do 2 f_equal. lia.
Qed.

Lemma parseSocksUDPDatagram_wire a port payload :
  addr_ok a -> is_u16 port ->
  parseSocksUDPDatagram (datagram_header a ++ be_put 2 port ++ payload) = Ok (x00, addr_target a port, payload).
Proof.
  intros Ha Hp. unfold parseSocksUDPDatagram. unfold datagram_header at 1. cbn [app]. rewrite bool_decide_eq_true_2 by done. cbn [negb orb].
  change (x00 :: x00 :: x00 :: addr_atyp a :: addr_wire a ++ be_put 2 port ++ payload) with (datagram_header a ++ be_put 2 port ++ payload).
  assert (H2 : zlen (be_put 2 port) = 2) by done.
  rewrite parse_udp_addr_wire by (done || rewrite zlen_app, H2; pose proof (zlen_nonneg payload); lia). unfold mbind at 1, res_bind at 1.
  rewrite (slice_mid _ _ _ (zlen (datagram_header a)) (zlen (datagram_header a) + 2)) by (rewrite ?H2; lia). unfold mbind at 1, res_bind at 1.
  assert (Hs : slice (datagram_header a ++ be_put 2 port ++ payload) (zlen (datagram_header a) + 2) (zlen (datagram_header a ++ be_put 2 port ++ payload)) = Ok payload).
  { pose proof (slice_mid (datagram_header a ++ be_put 2 port) payload [] (zlen (datagram_header a) + 2) (zlen (datagram_header a ++ be_put 2 port ++ payload))) as H.
    rewrite app_nil_r, <- app_assoc in H. apply H; rewrite ?zlen_app, ?H2; lia. }
  rewrite Hs. unfold mbind, res_bind. rewrite be_get_put_u16 by done. unfold is_u16 in Hp.
  rewrite (proj2 (Z.ltb_ge port 0)), (proj2 (Z.ltb_ge 65535 port)) by lia. done.
Qed.

(** The host of an address parses back to the address; for IPv6 this is [net.ParseIP] undoing
    [net.IP.String]. *)
Definition addr_canonical (a : socks_addr) : Prop :=
  match a with
  | A4 _ => True
  | A6 ip => ParseIP parse6 (ip_text ip) = Some ip
  | ADomain name => TrimSpace (string_of_bytes name) = string_of_bytes name
  end.

Lemma encodeTargetAddr_wire a port :
  addr_ok a -> addr_canonical a -> encodeTargetAddr parse6 (addr_target a port) = Ok (addr_atyp a :: addr_wire a).
Proof.
  intros Ha Hc. unfold encodeTargetAddr, addr_target. destruct a as [ip|ip|name]; cbn [Atyp Host addr_atyp addr_wire addr_host addr_ok addr_canonical] in *.
  - rewrite bool_decide_eq_true_2 by done. unfold encode_ipv4. rewrite ParseIP_dotted by done. cbn [mbind option_bind].
    unfold To4. rewrite decide_False by (rewrite length_app; cbn; lia).
    rewrite bool_decide_eq_true_2; [done|]. split; [by rewrite length_app, Ha|]. by rewrite take_app_le by (cbn; lia).
  - rewrite bool_decide_eq_false_2 by done. rewrite bool_decide_eq_true_2 by done. unfold encode_ipv6. rewrite Hc. cbn [mbind option_bind].
    unfold To16. by rewrite decide_False, decide_True by lia.
  - rewrite !bool_decide_eq_false_2 by done. rewrite bool_decide_eq_true_2 by done. unfold encode_domain. cbn zeta. rewrite Hc, bytes_string_bytes.
    rewrite (proj2 (Z.eqb_neq _ _)), (proj2 (Z.ltb_ge _ _)) by lia. done.
Qed.

(** The datagrams of a SOCKS association round trip: for every address form, port and payload, the
    datagram that carries a reply back to the application parses, with the parser of the
    application's own datagrams, to that target and that payload, unfragmented. *)
Theorem socks_udp_roundtrip a port payload :
  addr_ok a -> addr_canonical a -> is_u16 port ->
  exists raw, buildSocksUDPDatagram parse6 (addr_target a port) payload = Ok raw
    /\ parseSocksUDPDatagram raw = Ok (x00, addr_target a port, payload).
Proof.
  intros Ha Hc Hp. exists (datagram_header a ++ be_put 2 port ++ payload). split; [|by apply parseSocksUDPDatagram_wire].
  unfold buildSocksUDPDatagram. rewrite encodeTargetAddr_wire by done. unfold mbind, res_bind, port_bytes. cbn [Port addr_target].
  unfold is_u16 in Hp. rewrite (proj2 (Z.ltb_ge port 0)), (proj2 (Z.ltb_ge 65535 port)) by lia. done.
Qed.

Lemma slice_in_bounds (l : list byte) i j : 0 <= i <= j /\ j <= zlen l -> exists r, slice l i j = Ok r.
Proof. intros H. unfold slice. zdecide. cbn [andb]. eauto. Qed.

Lemma parse_udp_addr_safe atyp raw :
  match parse_udp_addr atyp raw with Ok (_, off) => 0 <= off /\ off + 2 <= zlen raw | Err _ => True | Panic _ => False end.
Proof.
  unfold parse_udp_addr. do 2 (case_bool_decide; [case_on; [done|]; zbool; match goal with |- context[slice raw ?i ?j] => destruct (slice_in_bounds raw i j) as [? ->]; [lia|] end; cbn; lia|]).
  case_bool_decide; [|done]. case_on; [done|]. zbool. destruct (slice_in_bounds raw 4 5) as [lnb ->]; [lia|]. cbn [mbind res_bind].
  case_on; [done|]. zbool. destruct (slice_in_bounds raw 5 (5 + be_get lnb)) as [h ->]; [lia|]. cbn. lia.
Qed.

(** No datagram of an application makes the parser of [cmd/socks_client] panic: every slice it
    takes is inside the datagram, whatever the bytes. *)
Theorem socks_udp_parse_safe raw msg : parseSocksUDPDatagram raw <> Panic msg.
Proof.
  unfold parseSocksUDPDatagram. destruct raw as [|r0 [|r1 [|frag [|atyp tl]]]]; try done. set (raw := r0 :: r1 :: frag :: atyp :: tl).
  case_on; [done|]. pose proof (parse_udp_addr_safe atyp raw) as Hs.
  destruct (parse_udp_addr atyp raw) as [[host off]|e|m]; [|done..]. unfold mbind, res_bind.
  destruct (slice_in_bounds raw off (off + 2)) as [p ->]; [lia|]. destruct (slice_in_bounds raw (off + 2) (zlen raw)) as [q ->]; [lia|].
  by case_on.
Qed.
End SocksTheorems.

(** ** The key of a target *)

Lemma FormatInt_inj m n : is_int64 m -> is_int64 n -> FormatInt m = FormatInt n -> m = n.
Proof.
  intros Hm Hn E. pose proof (ParseInt_FormatInt m Hm) as Em. rewrite E, ParseInt_FormatInt in Em by done. by injection Em.
Qed.

Lemma byte_is_int64 b : is_int64 (bz b).
Proof. pose proof (bz_range b). unfold is_int64. lia. Qed.

(** Two targets share a key exactly when they have the same address type, the same port and, up to
    surrounding space and letter case, the same host; a [|] inside a host confuses nothing. *)
Theorem targetKey_identifies t1 t2 :
  is_int64 (Port t1) -> is_int64 (Port t2) ->
  (targetKey t1 = targetKey t2
   <-> Atyp t1 = Atyp t2 /\ ToLower (TrimSpace (Host t1)) = ToLower (TrimSpace (Host t2)) /\ Port t1 = Port t2).
Proof.
  intros H1 H2. unfold targetKey. split; [|by intros (-> & -> & ->)]. intros E. apply string_of_bytes_inj in E.
  apply first_separator_unique in E as [Ea E]; [|apply FormatInt_avoid_bar, byte_is_int64..].
  apply last_separator_unique in E as [Eh Ep]; [|by apply FormatInt_avoid_bar..].
  apply FormatInt_inj in Ea; [|apply byte_is_int64..]. apply FormatInt_inj in Ep; [|done..].
  split_and!; [by apply bz_inj|by apply bytes_of_string_inj|done].
Qed.

(** ** Witnesses *)

Lemma socks_negotiation_complete_witness :
  let cfg := mkAuth authModeUserPass "user" "pw" in
  let a := ADomain (bytes_of_string "example.org") in
  negotiateSOCKS5 (fun _ => None) cfg
    (mkConn (Reader (hello [x00; x02] ++ credentials (bytes_of_string "user") (bytes_of_string "pw") ++ request socksCmdConnect a 443 ++ [x16]) EEOF)
            (Writer [] None) 0)
  = (mkConn (Reader [x16] EEOF) (Writer [x05; x02; x01; x00] None) 0, Ok (mkSocksRequest socksCmdConnect (mkTarget x03 "example.org" 443))).
Proof.
  intros cfg a. refine (proj2 (socks_negotiation_complete (fun _ => None) cfg [x00; x02] socksCmdConnect a 443 [x16] EEOF [] 0 _ _ _ _) _ _ _ _).
  all: first [reflexivity | cbn; lia | unfold is_u16; lia | apply (bool_decide_unpack _); vm_compute; exact I].
Defined.

Definition socks_login : list byte :=
  hello [x02] ++ credentials (bytes_of_string "user") (bytes_of_string "pw") ++ request socksCmdConnect (A4 [x7f; x00; x00; x01]) 80.

Lemma socks_auth_enforced_witness :
  exists nb methods ul pl tail,
    socks_login = socksVer5 :: nb :: methods ++ socksUserAuthVer :: ul :: bytes_of_string "user" ++ pl :: bytes_of_string "pw" ++ tail
    /\ bz nb = zlen methods /\ socksMethodUserPass ∈ methods
    /\ bz ul = zlen (bytes_of_string "user") /\ bz pl = zlen (bytes_of_string "pw").
Proof.
  refine (socks_auth_enforced (fun _ => None) (mkAuth authModeUserPass "user" "pw") (mkConn (Reader socks_login EEOF) (Writer [] None) 0) _ _ _ _);
    [reflexivity|vm_compute; reflexivity].
Defined.

Lemma socks_udp_roundtrip_witness :
  exists raw, buildSocksUDPDatagram (fun _ => None) (mkTarget x03 "example.org" 53) [x2a] = Ok raw
    /\ parseSocksUDPDatagram raw = Ok (x00, mkTarget x03 "example.org" 53, [x2a]).
Proof.
  refine (socks_udp_roundtrip (fun _ => None) (ADomain (bytes_of_string "example.org")) 53 [x2a] _ _ _).
  - split; vm_compute; congruence.
  - vm_compute. reflexivity.
  - unfold is_u16. lia.
Defined.

Lemma targetKey_identifies_witness :
  targetKey (mkTarget x03 " Example.org" 53) = targetKey (mkTarget x03 "example.ORG " 53).
Proof.
  apply (proj2 (targetKey_identifies (mkTarget x03 " Example.org" 53) (mkTarget x03 "example.ORG " 53) ltac:(unfold is_int64; cbn; lia) ltac:(unfold is_int64; cbn; lia))).
  vm_compute. split_and!; reflexivity.
Defined.
