(* ===== verification/Certs.v ===== *)
(** * The gateway's certificates ([internal/config/certs.go])

    [EnsureSelfSigned] as a program over a disk that can fail at every call, and
    [tls.LoadX509KeyPair], by which the gateway reads the pair back. Keys are symbolic: a key is a
    number and its public part is marked as such; a PEM file is the list of its complete blocks.
    The disk keeps every state it went through, so that what another process can read while the
    files are written can be stated. *)

From S2P Require Import Prelude GoString Socks.

(** ** Paths *)

(** [filepath.Clean] on the parts between the slashes; [out] is reversed. *)
Fixpoint clean_parts (rooted : bool) (out parts : list string) : list string :=
  match parts with
  | [] => reverse out
  | p :: parts =>
      if String.eqb p "" || String.eqb p "." then clean_parts rooted out parts
      else if String.eqb p ".." then
        match out with
        | [] => clean_parts rooted (if rooted then [] else [p]) parts
        | q :: up => clean_parts rooted (if String.eqb q ".." then p :: out else up) parts
        end
      else clean_parts rooted (p :: out) parts
  end.
Definition path_parts (s : string) : list string := map string_of_bytes (split_byte x2f (bytes_of_string s)).
Definition Clean (s : string) : string :=
  let rooted := HasPrefix s "/" in
  let body := String.concat "/" (clean_parts rooted [] (path_parts s)) in
  if rooted then ("/" ++ body)%string else if String.eqb body "" then "." else body.
(** [filepath.Dir]: what comes before the last slash. *)
Definition Dir (s : string) : string :=
  let l := bytes_of_string s in
  match last_index_byte x2f l with
  | None => "."
  | Some i => Clean (string_of_bytes (take (S i) l))
  end.

(** ** Certificates and keys *)

Inductive pubkey := Public (k : Z).
#[global] Instance pubkey_eq_dec : EqDecision pubkey.
Proof. solve_decision. Defined.

(** The fields of [x509.Certificate] that the template sets, and the key it is for. *)
Record certificate := mkCertificate {
  SerialNumber : Z; Organization : list string; CommonName : string; NotBefore : Z; NotAfter : Z;
  KeyUsage : Z; ExtKeyUsage : list string; BasicConstraintsValid : bool;
  IPAddresses : list (list byte); DNSNames : list string; PublicKey : option pubkey }.

Definition Hour : Z := 60 * Minute.
Definition KeyUsageDigitalSignature : Z := 1.
Definition KeyUsageKeyEncipherment : Z := 4.

Definition template (serial now1 now2 : Z) : certificate :=
  mkCertificate serial ["VLF Runtime Dev"] "vlf-gateway.local" (now1 - Hour) (now2 + 365 * 24 * Hour)
    (Z.lor KeyUsageDigitalSignature KeyUsageKeyEncipherment) ["ServerAuth"] true [] [] None.

Definition set_names (c : certificate) (ips : list (list byte)) (names : list string) : certificate :=
  mkCertificate (SerialNumber c) (Organization c) (CommonName c) (NotBefore c) (NotAfter c) (KeyUsage c)
    (ExtKeyUsage c) (BasicConstraintsValid c) ips names (PublicKey c).
Definition set_public (c : certificate) (k : pubkey) : certificate :=
  mkCertificate (SerialNumber c) (Organization c) (CommonName c) (NotBefore c) (NotAfter c) (KeyUsage c)
    (ExtKeyUsage c) (BasicConstraintsValid c) (IPAddresses c) (DNSNames c) (Some k).

Definition default_hosts : list string := ["localhost"; "gateway"; "127.0.0.1"].

Section Hosts.
  Context (parse6 : list byte -> option (list byte)).
(** The loop over the hosts: an address goes to one list, any other name to the other. *)
Definition add_host (c : certificate) (h : string) : certificate :=
  match ParseIP parse6 h with
  | Some ip => set_names c (IPAddresses c ++ [ip]) (DNSNames c)
  | None => set_names c (IPAddresses c) (DNSNames c ++ [h])
  end.
Definition with_hosts (c : certificate) (hosts : list string) : certificate :=
  foldl add_host c (match hosts with [] => default_hosts | _ => hosts end).
End Hosts.

(** ** The disk *)

(** The PEM blocks of a file; [BOther] is a block of another type. *)
Inductive block := BCert (c : certificate) | BKey (k : Z) | BOther (type : string).
Record file := mkFile { fl_blocks : list block; fl_mode : Z }.
(** [dk_past]: the states of the files before the current one, the latest first. *)
Record disk := mkDisk { dk_files : gmap string file; dk_dirs : list (string * Z); dk_past : list (gmap string file) }.

(** What the system answers to each call. [ce_hidden]: [Stat] fails although the file exists. *)
Record certEnv := mkCertEnv {
  ce_hidden : string -> bool; ce_mkdir : string -> option goerr; ce_key : res Z; ce_rand : Z -> res Z; ce_now1 : Z; ce_now2 : Z;
  ce_sign : certificate -> option goerr; ce_create : string -> option goerr; ce_write : string -> option goerr;
  ce_marshal : option goerr; ce_chmod : string -> option goerr; ce_umask : Z }.

(** Programs that change the disk and can fail. *)
Definition DM (A : Type) : Type := disk -> disk * res A.
#[global] Instance DM_ret : MRet DM := fun A a d => (d, Ok a).
#[global] Instance DM_bind : MBind DM := fun A B f m d =>
  match m d with
  | (d, Ok a) => f a d
  | (d, Err e) => (d, Err e)
  | (d, Panic s) => (d, Panic s)
  end.
Definition lift {A} (r : res A) : DM A := fun d => (d, r).
Definition failing (ctx : string) {A} (m : DM A) : DM A := fun d => let '(d, r) := m d in (d, wrap_err ctx r).

Definition file_at (d : disk) (p : string) : option file := dk_files d !! Clean p.
Definition set_file (d : disk) (p : string) (f : file) : disk :=
  mkDisk (<[Clean p := f]> (dk_files d)) (dk_dirs d) (dk_files d :: dk_past d).

Definition stat_ok (env : certEnv) (d : disk) (p : string) : bool := negb (ce_hidden env p) && bool_decide (is_Some (file_at d p)).
Definition MkdirAll (env : certEnv) (p : string) (mode : Z) : DM unit := fun d =>
  match ce_mkdir env p with
  | Some e => (d, Err e)
  | None => (mkDisk (dk_files d) ((p, Z.ldiff mode (ce_umask env)) :: dk_dirs d) (dk_past d), Ok tt)
  end.
(** [os.Create] empties a file that exists, which keeps its permissions; a new file gets 0666 less the mask. *)
Definition os_Create (env : certEnv) (p : string) : DM unit := fun d =>
  match ce_create env p with
  | Some e => (d, Err e)
  | None => (set_file d p (mkFile [] (match file_at d p with Some f => fl_mode f | None => Z.ldiff 438 (ce_umask env) end)), Ok tt)
  end.
(** [pem.Encode] to a file that was opened: a block that is not written completely is not one. *)
Definition pem_Encode (env : certEnv) (p : string) (b : block) : DM unit := fun d =>
  match file_at d p with
  | None => (d, Err (EExt "no such file"))
  | Some f =>
      match ce_write env p with
      | Some e => (d, Err e)
      | None => (set_file d p (mkFile (fl_blocks f ++ [b]) (fl_mode f)), Ok tt)
      end
  end.
Definition os_Chmod (env : certEnv) (p : string) (mode : Z) : DM unit := fun d =>
  match ce_chmod env p, file_at d p with
  | Some e, _ => (d, Err e)
  | None, None => (d, Err (EExt "no such file"))
  | None, Some f => (set_file d p (mkFile (fl_blocks f) mode), Ok tt)
  end.
Definition CreateCertificate (env : certEnv) (tmpl : certificate) (priv : Z) : DM certificate := fun d =>
  match ce_sign env tmpl with
  | Some e => (d, Err e)
  | None => (d, Ok (set_public tmpl (Public priv)))
  end.
Definition MarshalECPrivateKey (env : certEnv) (priv : Z) : DM block := fun d =>
  match ce_marshal env with
  | Some e => (d, Err e)
  | None => (d, Ok (BKey priv))
  end.

(** ** [EnsureSelfSigned] *)

Section Ensure.
  Context (parse6 : list byte -> option (list byte)).

(** The part that makes the key and the certificate, and the part that writes them. *)
Definition make_pair (env : certEnv) (certPath keyPath : string) (hosts : list string) : DM (Z * certificate) :=
  _ ← failing "create cert dir" (MkdirAll env (Dir certPath) 493);
  _ ← failing "create key dir" (MkdirAll env (Dir keyPath) 493);
  priv ← failing "generate private key" (lift (ce_key env));
  serial ← failing "generate serial" (lift (ce_rand env (Z.shiftl 1 128)));
  let tmpl := with_hosts parse6 (template serial (ce_now1 env) (ce_now2 env)) hosts in
  der ← failing "create certificate" (CreateCertificate env tmpl priv);
  mret (priv, der).
Definition write_pair (env : certEnv) (certPath keyPath : string) (priv : Z) (der : certificate) : DM unit :=
  _ ← failing "create cert file" (os_Create env certPath);
  _ ← failing "encode cert pem" (pem_Encode env certPath (BCert der));
  keyBytes ← failing "marshal private key" (MarshalECPrivateKey env priv);
  _ ← failing "create key file" (os_Create env keyPath);
  _ ← failing "encode key pem" (pem_Encode env keyPath keyBytes);
  failing "chmod key file" (os_Chmod env keyPath 384).
Definition EnsureSelfSigned (env : certEnv) (certPath keyPath : string) (hosts : list string) : DM unit := fun d =>
  if stat_ok env d certPath && stat_ok env d keyPath then (d, Ok tt)
  else (kc ← make_pair env certPath keyPath hosts; write_pair env certPath keyPath kc.1 kc.2) d.
End Ensure.

(** [tls.LoadX509KeyPair]: the certificates of one file and the key of the other, which must match. *)
Definition block_cert (b : block) : option certificate := match b with BCert c => Some c | _ => None end.
Definition block_key (b : block) : option Z := match b with BKey k => Some k | _ => None end.
Definition LoadX509KeyPair (d : disk) (certPath keyPath : string) : res (certificate * Z) :=
  match file_at d certPath, file_at d keyPath with
  | Some cf, Some kf =>
      match omap block_cert (fl_blocks cf), omap block_key (fl_blocks kf) with
      | [], _ => Err (ENew "tls: failed to find any PEM data in certificate input")
      | _, [] => Err (ENew "tls: failed to find any PEM data in key input")
      | leaf :: _, k :: _ =>
          if bool_decide (PublicKey leaf = Some (Public k)) then Ok (leaf, k)
          else Err (ENew "tls: private key does not match public key")
      end
  | _, _ => Err (EExt "no such file or directory")
  end.

(** ** Lemmas *)

Lemma DM_bind_Ok {A B} (m : DM A) (f : A -> DM B) d d' b :
  (m ≫= f) d = (d', Ok b) <-> exists d1 a, m d = (d1, Ok a) /\ f a d1 = (d', Ok b).
Proof.
  unfold mbind, DM_bind. destruct (m d) as [d1 [a|e|s]]; split; [by eauto|by intros (? & ? & [= <- <-] & ?)|done| |done|]; by intros (? & ? & ? & ?).
Qed.
Lemma failing_Ok ctx {A} (m : DM A) d d' a : failing ctx m d = (d', Ok a) <-> m d = (d', Ok a).
Proof.
  unfold failing. destruct (m d) as [d1 r]. split.
  - intros [= <- H]. apply wrap_err_Ok in H. by subst.
  - by intros [= <- ->].
Qed.
(** A failing call has the error of the call with its context. *)
Lemma failing_Err ctx {A} (m : DM A) d d' e : failing ctx m d = (d', Err e) -> exists e0, e = EWrap ctx e0 /\ m d = (d', Err e0).
Proof. unfold failing. destruct (m d) as [d1 [a|e1|s]]; cbn; [done| |done]. intros [= <- <-]. by eauto. Qed.

Ltac dm_step H :=
  let d := fresh "d" in let a := fresh "a" in let H1 := fresh "H" in
  apply DM_bind_Ok in H as (d & a & H1 & H); apply failing_Ok in H1.

Lemma file_at_set d p f : file_at (set_file d p f) p = Some f.
Proof. unfold file_at, set_file. cbn. by rewrite lookup_insert_eq. Qed.
Lemma file_at_set_ne d p q f : Clean p <> Clean q -> file_at (set_file d p f) q = file_at d q.
Proof. intros H. unfold file_at, set_file. cbn. by rewrite lookup_insert_ne. Qed.

Lemma MkdirAll_Ok env p mode d d' : MkdirAll env p mode d = (d', Ok tt) -> dk_files d' = dk_files d /\ dk_past d' = dk_past d.
Proof. unfold MkdirAll. destruct (ce_mkdir env p); [done|]. by intros [= <-]. Qed.
Lemma MkdirAll_files env p mode d : dk_files (MkdirAll env p mode d).1 = dk_files d.
Proof. unfold MkdirAll. by destruct (ce_mkdir env p). Qed.
Lemma failing_state ctx {A} (m : DM A) d : (failing ctx m d).1 = (m d).1.
Proof. unfold failing. by destruct (m d). Qed.
Lemma DM_bind_files {A B} (m : DM A) (f : A -> DM B) d :
  dk_files (m d).1 = dk_files d -> (forall a d1, dk_files (f a d1).1 = dk_files d1) -> dk_files ((m ≫= f) d).1 = dk_files d.
Proof. intros Hm Hf. unfold mbind, DM_bind. destruct (m d) as [d1 [a|e|s]]; cbn in *; [by rewrite Hf|done..]. Qed.

(** What a pair that loads is. *)
Lemma LoadX509KeyPair_Ok d cp kp c k : LoadX509KeyPair d cp kp = Ok (c, k) ->
  PublicKey c = Some (Public k) /\ is_Some (file_at d cp) /\ is_Some (file_at d kp).
Proof.
  unfold LoadX509KeyPair. destruct (file_at d cp) as [cf|]; [|done]. destruct (file_at d kp) as [kf|]; [|done].
  destruct (omap block_cert _) as [|leaf l]; [done|]. destruct (omap block_key _) as [|k' l']; [done|]. case_bool_decide as E; [|done].
  intros [= <- <-]. by eauto.
Qed.

Section Pair.
  Context (parse6 : list byte -> option (list byte)).

(** Making the pair touches no file, and the certificate is for the key that was made. *)
Lemma make_pair_files env cp kp hosts d : dk_files (make_pair parse6 env cp kp hosts d).1 = dk_files d.
Proof.
  unfold make_pair. repeat (apply DM_bind_files; [rewrite failing_state|intros]);
    rewrite ?MkdirAll_files; try done. unfold CreateCertificate. by destruct (ce_sign _ _).
Qed.
Lemma make_pair_Ok env cp kp hosts d d' priv der :
  make_pair parse6 env cp kp hosts d = (d', Ok (priv, der)) ->
  dk_files d' = dk_files d /\ ce_key env = Ok priv
  /\ exists serial, ce_rand env (2 ^ 128) = Ok serial
     /\ der = set_public (with_hosts parse6 (template serial (ce_now1 env) (ce_now2 env)) hosts) (Public priv).
Proof.
  intros H. pose proof (make_pair_files env cp kp hosts d) as Hf. rewrite H in Hf. split; [exact Hf|]. clear Hf. unfold make_pair in H.
  dm_step H. dm_step H. dm_step H. dm_step H. dm_step H. unfold lift in *. injection H2 as <- H2. injection H3 as <- H3.
  injection H as <- -> ->. split; [done|]. exists a2. split; [done|]. revert H4. unfold CreateCertificate.
  destruct (ce_sign _ _); [done|]. by intros [= _ <-].
Qed.

(** The two files after the pair is written, and the state before the permissions were set. *)
Lemma write_pair_Ok env cp kp priv der d d' :
  Clean cp <> Clean kp -> write_pair env cp kp priv der d = (d', Ok tt) ->
  let mode p := match file_at d p with Some f => fl_mode f | None => Z.ldiff 438 (ce_umask env) end in
  let files m := <[Clean kp := mkFile [BKey priv] m]> (<[Clean cp := mkFile [BCert der] (mode cp)]> (dk_files d)) in
  dk_files d' = files 384 /\ files (mode kp) ∈ dk_past d'.
Proof.
  intros Hne H mode files. unfold write_pair in H.
  dm_step H. dm_step H. dm_step H. dm_step H. dm_step H. apply failing_Ok in H.
  revert H0. unfold os_Create at 1. destruct (ce_create env cp); [done|]. intros [= <-]. subst.
  revert H1. unfold pem_Encode at 1. rewrite file_at_set. destruct (ce_write env cp); [done|]. intros [= <-]. subst.
  revert H2. unfold MarshalECPrivateKey. destruct (ce_marshal env); [done|]. intros [= <- <-].
  revert H3. unfold os_Create at 1. destruct (ce_create env kp); [done|]. rewrite !file_at_set_ne by done. intros [= <-]. subst.
  revert H4. unfold pem_Encode at 1. rewrite file_at_set. destruct (ce_write env kp); [done|]. intros [= <-]. subst.
  revert H. unfold os_Chmod. destruct (ce_chmod env kp); [done|]. rewrite file_at_set. intros [= <-]. subst files mode. cbn -[Z.ldiff].
  rewrite !insert_insert_eq. split; [done|constructor].
Qed.

Lemma with_hosts_names c hosts :
  let hs := match hosts with [] => default_hosts | _ => hosts end in
  IPAddresses (with_hosts parse6 c hosts) = IPAddresses c ++ omap (ParseIP parse6) hs
  /\ DNSNames (with_hosts parse6 c hosts) = DNSNames c ++ filter (fun h => ParseIP parse6 h = None) hs
  /\ set_names (with_hosts parse6 c hosts) [] [] = set_names c [] [].
Proof.
  cbn zeta. unfold with_hosts. generalize (match hosts with [] => default_hosts | _ => hosts end) as hs. intros hs. revert c.
  induction hs as [|h hs IH]; intros c; cbn [foldl]; [by rewrite filter_nil, !app_nil_r|]. destruct (IH (add_host parse6 c h)) as (H1 & H2 & H3). rewrite H1, H2, H3.
  rewrite filter_cons. unfold add_host. cbn [omap list_omap]. destruct (ParseIP parse6 h) eqn:E; cbn; rewrite <- ?app_assoc; (split_and!; [done| |done]).
  - by rewrite decide_False.
  - by rewrite decide_True.
Qed.

(** ** Theorems *)


(** After a call that succeeded, another call, for whatever hosts, does nothing as long as the files
    can be looked at. *)
Theorem self_signed_once env env' cp kp hosts hosts' d d' :
  Clean cp <> Clean kp -> ce_hidden env' cp = false -> ce_hidden env' kp = false ->
  EnsureSelfSigned parse6 env cp kp hosts d = (d', Ok tt) ->
  EnsureSelfSigned parse6 env' cp kp hosts' d' = (d', Ok tt).
Proof.
  intros Hne Hc Hk H. assert (Hb : is_Some (file_at d' cp) /\ is_Some (file_at d' kp)).
  { revert H. unfold EnsureSelfSigned. destruct (stat_ok env d cp && stat_ok env d kp) eqn:Es.
    - intros [= <-]. apply andb_true_iff in Es as [[_ E1]%andb_true_iff [_ E2]%andb_true_iff]. by apply bool_decide_eq_true_1 in E1, E2.
    - intros H. apply DM_bind_Ok in H as (d1 & [priv der] & _ & H2). apply write_pair_Ok in H2 as [H2 _]; [|done].
      unfold file_at. rewrite H2, lookup_insert_eq, lookup_insert_ne, lookup_insert_eq by done. by eauto. }
  destruct Hb as [B1 B2]. unfold EnsureSelfSigned, stat_ok. rewrite Hc, Hk, !bool_decide_true by done. done.
Qed.

(** An error that comes before the files are written, of the random source or of the signature,
    leaves every file as it was. *)
Theorem self_signed_early_error env cp kp hosts d d' e :
  (forall k, ce_key env <> Ok k) \/ (forall z, ce_rand env (2 ^ 128) <> Ok z) \/ (forall t, ce_sign env t <> None) ->
  EnsureSelfSigned parse6 env cp kp hosts d = (d', Err e) -> dk_files d' = dk_files d.
Proof.
  intros Hf. unfold EnsureSelfSigned. destruct (_ && _); [done|]. pose proof (make_pair_files env cp kp hosts d) as Hm.
  unfold mbind at 1, DM_bind at 1. destruct (make_pair parse6 env cp kp hosts d) as [d1 [[priv der]|e1|s]] eqn:E; cbn in *; [|by intros [= <- _]|done].
  exfalso. pose proof E as E'. apply make_pair_Ok in E' as (_ & Hk & serial & Hs & _). destruct Hf as [Hf|[Hf|Hf]]; [by eapply Hf|by eapply Hf|].
  unfold make_pair in E. dm_step E. dm_step E. dm_step E. dm_step E. dm_step E. revert H3. unfold CreateCertificate. by destruct (ce_sign env _) eqn:Ec; [|by apply Hf in Ec].
Qed.

(** A failure between the two files is never repaired. When the certificate is missing, the key of
    the last pair is still there and the new key cannot be written, the new certificate stays next
    to the old key: every later call finds both files and returns without an error, and loading
    them fails each time. *)
Theorem self_signed_mixed_pair env cp kp hosts d priv der f d1 err old :
  Clean cp <> Clean kp -> file_at d cp = None -> file_at d kp = Some f -> omap block_key (fl_blocks f) = [old] -> old <> priv ->
  make_pair parse6 env cp kp hosts d = (d1, Ok (priv, der)) ->
  ce_create env cp = None -> ce_write env cp = None -> ce_marshal env = None -> ce_create env kp = Some err ->
  exists d', EnsureSelfSigned parse6 env cp kp hosts d = (d', Err (EWrap "create key file" err))
    /\ (forall env' hosts', ce_hidden env' cp = false -> ce_hidden env' kp = false -> EnsureSelfSigned parse6 env' cp kp hosts' d' = (d', Ok tt))
    /\ LoadX509KeyPair d' cp kp = Err (ENew "tls: private key does not match public key").
Proof.
  intros Hne Hc Hk Hold Hd Hm C1 W1 M1 C2. pose proof Hm as Hm'. apply make_pair_Ok in Hm' as (Hf & _ & serial & _ & Hder).
  assert (F1 : file_at d1 cp = None /\ file_at d1 kp = Some f) by (unfold file_at in *; by rewrite Hf). destruct F1 as [F1 F2].
  eexists. split; [|split].
  - unfold EnsureSelfSigned, stat_ok. rewrite Hc, (bool_decide_false (is_Some None)), andb_false_r by (by intros [? ?]). cbn [andb].
    unfold mbind at 1, DM_bind at 1. rewrite Hm. cbn [fst snd]. unfold write_pair, mbind, DM_bind, failing, os_Create. rewrite C1. cbn [wrap_err].
    unfold pem_Encode. rewrite file_at_set, W1. cbn [wrap_err]. unfold MarshalECPrivateKey. rewrite M1. cbn [wrap_err]. rewrite C2. reflexivity.
  - intros env' hosts' H1 H2. unfold EnsureSelfSigned, stat_ok. rewrite H1, H2, file_at_set, !file_at_set_ne, F2 by done. by rewrite !bool_decide_true by eauto.
  - unfold LoadX509KeyPair. rewrite file_at_set, !file_at_set_ne, F2 by done. cbn [fl_blocks app omap list_omap block_cert]. rewrite Hold, Hder. cbn. rewrite bool_decide_false; [done|]. by intros [= ->].
Qed.

(** The permissions of the key file are set after the key is in it: a new key file is created with
    the permissions the mask leaves, so that, unless the mask takes it away, every user can read
    the private key before [Chmod] runs. *)
Theorem key_readable_before_chmod env cp kp hosts d d' :
  Clean cp <> Clean kp -> file_at d kp = None -> Z.testbit (ce_umask env) 2 = false ->
  EnsureSelfSigned parse6 env cp kp hosts d = (d', Ok tt) ->
  exists files f k, files ∈ dk_past d' /\ files !! Clean kp = Some f /\ fl_blocks f = [BKey k] /\ ce_key env = Ok k /\ Z.testbit (fl_mode f) 2 = true.
Proof.
  intros Hne Hk Hu. unfold EnsureSelfSigned. unfold stat_ok at 2. rewrite Hk, (bool_decide_false (is_Some None)), !andb_false_r by (by intros [? ?]).
  intros H. apply DM_bind_Ok in H as (d1 & [priv der] & H1 & H2). apply make_pair_Ok in H1 as (Hf & Hkey & _).
  apply write_pair_Ok in H2 as [_ H2]; [|done]. assert (F : file_at d1 kp = None) by (unfold file_at in *; by rewrite Hf). rewrite F in H2.
  eexists _, _, priv. split; [exact H2|]. rewrite lookup_insert_eq. split_and!; try done. cbn [fl_mode]. by rewrite Z.ldiff_spec, Hu.
Qed.
End Pair.

(** ** Examples *)

Definition no_parse6 : list byte -> option (list byte) := fun _ => None.
Definition ex_cert_env : certEnv :=
  mkCertEnv (fun _ => false) (fun _ => None) (Ok 77) (fun max => if 5 <? max then Ok 5 else Err (EExt "rand")) (10 * Hour) (10 * Hour)
    (fun _ => None) (fun _ => None) (fun _ => None) None (fun _ => None) 18.
Definition ex_disk : disk := mkDisk ∅ [] [].
Definition ex_signed : disk := (EnsureSelfSigned no_parse6 ex_cert_env "certs/dev.crt" "certs/dev.key" [] ex_disk).1.

Example dir_of_cert : Dir "certs/dev.crt" = "certs" /\ Dir "dev.crt" = "." /\ Dir "/etc//tls/../vlf/x.key" = "/etc/vlf" /\ Dir "../a/./b" = "../a".
Proof. vm_compute. done. Qed.
Example self_signed_names : (fun ck => (map ip_text (IPAddresses ck.1), DNSNames ck.1)) <$> match LoadX509KeyPair ex_signed "certs/dev.crt" "./certs/dev.key" with Ok ck => Some ck | _ => None end
  = Some (["127.0.0.1"], ["localhost"; "gateway"]).
Proof. vm_compute. reflexivity. Qed.

Lemma self_signed_once_witness : EnsureSelfSigned no_parse6 ex_cert_env "certs/dev.crt" "certs/dev.key" ["other"] ex_signed = (ex_signed, Ok tt).
Proof. eapply (self_signed_once no_parse6 ex_cert_env); [vm_compute; discriminate|reflexivity|reflexivity|]. instantiate (1 := ex_disk). instantiate (1 := []). vm_compute. reflexivity. Defined.
Definition no_entropy : certEnv :=
  mkCertEnv (fun _ => false) (fun _ => None) (Err (EExt "rand")) (fun _ => Ok 5) 0 0 (fun _ => None) (fun _ => None) (fun _ => None) None (fun _ => None) 18.
Lemma self_signed_early_error_witness : dk_files (EnsureSelfSigned no_parse6 no_entropy "a.crt" "a.key" [] ex_disk).1 = ∅.
Proof.
  apply (self_signed_early_error no_parse6 no_entropy "a.crt" "a.key" [] ex_disk _ (EWrap "generate private key" (EExt "rand"))); [left; intros k; discriminate|].
  vm_compute. reflexivity.
Defined.
Definition ex_no_key_file : certEnv :=
  mkCertEnv (fun _ => false) (fun _ => None) (Ok 77) (fun _ => Ok 5) 0 0 (fun _ => None)
    (fun p => if String.eqb p "a.key" then Some (EExt "permission denied") else None) (fun _ => None) None (fun _ => None) 18.
Definition ex_old_key : disk := mkDisk {[ "a.key" := mkFile [BKey 3] 384 ]} [] [].
Lemma self_signed_mixed_pair_witness :
  exists d', EnsureSelfSigned no_parse6 ex_no_key_file "a.crt" "a.key" [] ex_old_key = (d', Err (EWrap "create key file" (EExt "permission denied")))
    /\ EnsureSelfSigned no_parse6 ex_cert_env "a.crt" "a.key" [] d' = (d', Ok tt) /\ is_ok (LoadX509KeyPair d' "a.crt" "a.key") = false.
Proof.
  edestruct (self_signed_mixed_pair no_parse6 ex_no_key_file "a.crt" "a.key" [] ex_old_key 77) as (d' & H1 & H2 & H3); try (vm_compute; reflexivity).
  - vm_compute. discriminate.
  - discriminate.
  - exists d'. split; [exact H1|]. split; [apply H2; reflexivity|]. rewrite H3. reflexivity.
Defined.
Lemma key_readable_before_chmod_witness : exists files f k, files ∈ dk_past ex_signed /\ files !! Clean "certs/dev.key" = Some f /\ fl_blocks f = [BKey k] /\ ce_key ex_cert_env = Ok k /\ Z.testbit (fl_mode f) 2 = true.
Proof. apply (key_readable_before_chmod no_parse6 ex_cert_env "certs/dev.crt" "certs/dev.key" [] ex_disk); [vm_compute; discriminate|reflexivity|reflexivity|vm_compute; reflexivity]. Defined.
