(* ===== verification/Gateway.v ===== *)
(** * The gateway program ([cmd/gateway/main.go])

    [main] in two parts: the start, which loads the configuration, makes and loads the certificate
    and builds the servers, and the run, in which the HTTP server and the session server serve in
    goroutines of their own until a signal or an error makes [main] stop them one after the other.
    The relay manager is that of the file RelayManager, with its requests and its goroutines
    interleaved, the session server that of the file ServerRun. The logging library is an argument. *)

From stdpp Require Import gmultiset.
From S2P Require Import Prelude Ownership GoString Crypto Auth Limits Wheel Store Metrics RelayConn RelayManager RelayHTTP Server Config ServerRun Socks Certs.

(** ** The start *)

(** The fields of [zap.Config] that [newLogger] sets. *)
Record zapConfig (Level : Type) := mkZapConfig {
  zc_Level : Level; zc_Development : bool; zc_Encoding : string; zc_keys : list (string * string); zc_Output : list string; zc_ErrorOutput : list string }.
Arguments mkZapConfig {Level}.

(** The server's TLS configuration and the HTTP server. *)
Definition VersionTLS13 : Z := 772.
Record serverTLS := mkServerTLS { st_MinVersion : Z; st_Certificates : list (certificate * Z); st_NextProtos : list string }.
Record httpServer := mkHTTPServer { hs_Addr : string; hs_ReadHeaderTimeout : Z; hs_IdleTimeout : Z; hs_TLS : option (string * string) }.

(** What [main] holds when it starts to serve, or where it ended with the exit code 1. *)
Record serving := mkServing { sg_tls : serverTLS; sg_http : httpServer; sg_gateway : gateway }.
Inductive started := StartExit (line : string) (e : goerr) | StartFatal (line : string) (e : goerr) | StartServing (s : serving) | StartPanic (msg : string).
Definition start_or {A} (fail : goerr -> started) (r : res A) (k : A -> started) : started :=
  match r with
  | Ok a => k a
  | Err e => fail e
  | Panic s => StartPanic s
  end.

Section Start.
  Context {Level Logger : Type} (InfoLevel : Level) (UnmarshalText : Level -> string -> res Level) (Build : zapConfig Level -> res Logger).
  Context (parse6 : list byte -> option (list byte)).
  Context (ReadFile : string -> res (list byte)) (Unmarshal : list byte -> GatewayConfig -> res GatewayConfig).

Definition newLogger (level : string) : res Logger :=
  zapLevel ← UnmarshalText InfoLevel level;
  Build (mkZapConfig zapLevel false "json"
           [("TimeKey", "ts"); ("LevelKey", "level"); ("NameKey", "logger"); ("CallerKey", "caller"); ("MessageKey", "msg"); ("StacktraceKey", "stacktrace")]
           ["stdout"] ["stderr"]).

Definition auto_generate (cfg : GatewayConfig) (env : certEnv) : DM unit := fun d =>
  let t := gc_TLS cfg in
  if AutoGenerate t then EnsureSelfSigned parse6 env (CertPath t) (KeyPath t) ["localhost"; "gateway"; "127.0.0.1"] d else (d, Ok tt).

(** The values of the two environment variables are arguments. *)
Definition main_serve (cfg : GatewayConfig) (d : disk) (compatEnv holdEnv : string) : started :=
  let t := gc_TLS cfg in
  start_or (StartFatal "load TLS cert failed") (LoadX509KeyPair d (CertPath t) (KeyPath t)) (fun tlsCert =>
  let alpn := resolveALPNList (ProtocolID cfg) compatEnv in
  let tlsConf := mkServerTLS VersionTLS13 [tlsCert] alpn in
  start_or (StartFatal "invalid client secret format") (build_gateway cfg holdEnv) (fun gw =>
  let httpSrv := mkHTTPServer (gc_ListenHTTP cfg) (10 * Second) (60 * Second)
                   (if AllowInsecureHTTP cfg then None else Some (CertPath t, KeyPath t)) in
  StartServing (mkServing tlsConf httpSrv gw))).
Definition gateway_main (cfgPath : string) (env : certEnv) (compatEnv holdEnv : string) (d : disk) : disk * started :=
  match Load ReadFile Unmarshal cfgPath with
  | Err e => (d, StartExit "load config" e)
  | Panic s => (d, StartPanic s)
  | Ok cfg =>
      match newLogger (LogLevel cfg) with
      | Err e => (d, StartExit "create logger" e)
      | Panic s => (d, StartPanic s)
      | Ok _ =>
          let '(d, r) := auto_generate cfg env d in
          (d, start_or (StartFatal "auto-generate TLS cert failed") r (fun _ => main_serve cfg d compatEnv holdEnv))
      end
  end.
End Start.

(** ** The run *)

(** The HTTP server's result [http.ErrServerClosed], after [Shutdown]. *)
Definition ErrHTTPClosed : goerr := ESentinel "http: Server closed".
(** What each goroutine sends to [errCh]. *)
Definition http_goroutine (insecure : bool) (err : option goerr) : option goerr :=
  match err with
  | None => None
  | Some e => if err_is e ErrHTTPClosed then None else Some (EWrap (if insecure then "relay http server" else "relay https server") e)
  end.
Definition session_goroutine (err : option goerr) : option goerr := EWrap "session server" <$> err.

Inductive goroutine := GoRunning | GoSending (e : goerr) | GoEnded.
Definition go_result (send : option goerr) : goroutine := match send with Some e => GoSending e | None => GoEnded end.

(** Where [main] is: in its [select], before the shutdown of the HTTP server, waiting in it, before
    the relay manager's, in the session server's, at the end. *)
Inductive gstage := GSelect | GHTTP | GWait | GRelay | GSession | GStopped.

(** [gr_handlers]: the HTTP requests that are being served; [gr_pending]: those of them that are
    opening a relay connection; [gr_timeout]: the HTTP shutdown ran into its deadline. *)
Record gwRun := mkGwRun {
  gr_ctx : bool; gr_http : goroutine; gr_sess : goroutine; gr_errCh : list goerr; gr_main : gstage; gr_error : option goerr;
  gr_httpdown : bool; gr_handlers : nat; gr_timeout : bool;
  gr_relay : RelayManager; gr_pending : gmultiset string; gr_srv : srvRun StaticSecretProvider }.

Definition errCap : nat := 2.
Definition gw_new (g : gateway) : gwRun :=
  mkGwRun false GoRunning GoRunning [] GSelect None false 0 false (sv_manager (gw_relay g)) ∅ (sv_new (gw_session g)).

(** The relay manager's operations; the flag says whether a request runs it or a goroutine. *)
Inductive relay_op (lc : Limits.Config) : bool -> RelayManager * gmultiset string -> RelayManager * gmultiset string -> Prop :=
| ro_open_begin m p clientID req m' : open_begin m clientID req = (m', None) -> relay_op lc true (m, p) (m', {[+ clientID +]} ⊎ p)
| ro_open_refused m p clientID req m' e : open_begin m clientID req = (m', Some e) -> relay_op lc true (m, p) (m', p)
| ro_open_finish m p now clientID dial connID :
    clientID ∈ p -> is_panic connID = false -> (forall id, connID = Ok id -> mg_conns m !! id = None) ->
    relay_op lc true (m, p) ((open_finish m now clientID dial connID).1, p ∖ {[+ clientID +]})
| ro_send m p now clientID connID payload : relay_op lc true (m, p) ((Manager_Send m now clientID connID payload).1, p)
| ro_recv m p now clientID connID max m' r : Manager_Recv m now clientID connID max = Some (m', r) -> relay_op lc true (m, p) (m', p)
| ro_ping m p now clientID connID : relay_op lc true (m, p) ((Manager_Ping m now clientID connID).1, p)
| ro_close m p connID clientID m' b : Manager_Close m connID clientID = Some (m', b) -> relay_op lc true (m, p) (m', p)
| ro_tick m p : relay_op lc false (m, p) (Manager_tick m, p)
| ro_reader m p now connID buf e m' : reader_turn m now connID buf e = Ok m' -> relay_op lc false (m, p) (m', p)
| ro_writer m p now connID ev : relay_op lc false (m, p) (writer_turn m now connID ev, p)
| ro_session m p l : conns_reach lc l (p ⊎ owners (mg_conns m)) -> relay_op lc false (m, p) (set_limits m l, p).

Definition gr_set_main (g : gwRun) (s : gstage) : gwRun :=
  mkGwRun (gr_ctx g) (gr_http g) (gr_sess g) (gr_errCh g) s (gr_error g) (gr_httpdown g) (gr_handlers g) (gr_timeout g) (gr_relay g) (gr_pending g) (gr_srv g).
Definition gr_set_relay (g : gwRun) (m : RelayManager) (p : gmultiset string) : gwRun :=
  mkGwRun (gr_ctx g) (gr_http g) (gr_sess g) (gr_errCh g) (gr_main g) (gr_error g) (gr_httpdown g) (gr_handlers g) (gr_timeout g) m p (gr_srv g).
Definition gr_set_srv (g : gwRun) (r : srvRun StaticSecretProvider) : gwRun :=
  mkGwRun (gr_ctx g) (gr_http g) (gr_sess g) (gr_errCh g) (gr_main g) (gr_error g) (gr_httpdown g) (gr_handlers g) (gr_timeout g) (gr_relay g) (gr_pending g) r.
Definition gr_set_handlers (g : gwRun) (n : nat) : gwRun :=
  mkGwRun (gr_ctx g) (gr_http g) (gr_sess g) (gr_errCh g) (gr_main g) (gr_error g) (gr_httpdown g) n (gr_timeout g) (gr_relay g) (gr_pending g) (gr_srv g).

(** The signal, the results of the goroutines and their delivery. *)
Definition gw_signal (g : gwRun) : gwRun :=
  mkGwRun true (gr_http g) (gr_sess g) (gr_errCh g) (gr_main g) (gr_error g) (gr_httpdown g) (gr_handlers g) (gr_timeout g) (gr_relay g) (gr_pending g) (gr_srv g).
Definition gw_http_returns (g : gwRun) (insecure : bool) (err : option goerr) : gwRun :=
  mkGwRun (gr_ctx g) (go_result (http_goroutine insecure err)) (gr_sess g) (gr_errCh g) (gr_main g) (gr_error g) (gr_httpdown g) (gr_handlers g) (gr_timeout g) (gr_relay g) (gr_pending g) (gr_srv g).
Definition gw_session_returns (g : gwRun) (err : option goerr) : gwRun :=
  mkGwRun (gr_ctx g) (gr_http g) (go_result (session_goroutine err)) (gr_errCh g) (gr_main g) (gr_error g) (gr_httpdown g) (gr_handlers g) (gr_timeout g) (gr_relay g) (gr_pending g) (gr_srv g).
Definition gw_http_sends (g : gwRun) (e : goerr) : gwRun :=
  mkGwRun (gr_ctx g) GoEnded (gr_sess g) (gr_errCh g ++ [e]) (gr_main g) (gr_error g) (gr_httpdown g) (gr_handlers g) (gr_timeout g) (gr_relay g) (gr_pending g) (gr_srv g).
Definition gw_session_sends (g : gwRun) (e : goerr) : gwRun :=
  mkGwRun (gr_ctx g) (gr_http g) GoEnded (gr_errCh g ++ [e]) (gr_main g) (gr_error g) (gr_httpdown g) (gr_handlers g) (gr_timeout g) (gr_relay g) (gr_pending g) (gr_srv g).

(** The two cases of the [select], with the call of [stop] that follows. *)
Definition gw_select_done (g : gwRun) : gwRun := gr_set_main g GHTTP.
Definition gw_select_error (g : gwRun) (e : goerr) (rest : list goerr) : gwRun :=
  mkGwRun true (gr_http g) (gr_sess g) rest GHTTP (Some e) (gr_httpdown g) (gr_handlers g) (gr_timeout g) (gr_relay g) (gr_pending g) (gr_srv g).
(** [httpSrv.Shutdown]: it closes the listener, then waits for the requests or for its deadline. *)
Definition gw_http_shutdown (g : gwRun) : gwRun :=
  mkGwRun (gr_ctx g) (gr_http g) (gr_sess g) (gr_errCh g) GWait (gr_error g) true (gr_handlers g) (gr_timeout g) (gr_relay g) (gr_pending g) (gr_srv g).
Definition gw_http_deadline (g : gwRun) : gwRun :=
  mkGwRun (gr_ctx g) (gr_http g) (gr_sess g) (gr_errCh g) GRelay (gr_error g) (gr_httpdown g) (gr_handlers g) true (gr_relay g) (gr_pending g) (gr_srv g).

Section Steps.
  Context (lc : Limits.Config).

Inductive gw_step : gwRun -> gwRun -> Prop :=
| gs_signal g : gw_step g (gw_signal g)
| gs_http g insecure err : gr_http g = GoRunning -> (err = Some ErrHTTPClosed -> gr_httpdown g = true) -> gw_step g (gw_http_returns g insecure err)
| gs_session g evs err : gr_sess g = GoRunning -> ServerRun.Start (sv_srv (gr_srv g)) evs = Some err -> (SDone ∈ evs -> gr_ctx g = true) ->
    gw_step g (gw_session_returns g err)
| gs_http_send g e : gr_http g = GoSending e -> (length (gr_errCh g) < errCap)%nat -> gw_step g (gw_http_sends g e)
| gs_session_send g e : gr_sess g = GoSending e -> (length (gr_errCh g) < errCap)%nat -> gw_step g (gw_session_sends g e)
| gs_request g : gr_httpdown g = false -> gw_step g (gr_set_handlers g (S (gr_handlers g)))
| gs_reply g n : gr_handlers g = S n -> (size (gr_pending g) <= n)%nat -> gw_step g (gr_set_handlers g n)
| gs_op g by_request m p : relay_op lc by_request (gr_relay g, gr_pending g) (m, p) ->
    (by_request = true -> (0 < gr_handlers g)%nat) -> (size p <= gr_handlers g)%nat -> gw_step g (gr_set_relay g m p)
| gs_srv g r : srv_step (gr_srv g) r -> sv_stage r = sv_stage (gr_srv g) -> gw_step g (gr_set_srv g r)
| gs_done g : gr_main g = GSelect -> gr_ctx g = true -> gw_step g (gw_select_done g)
| gs_error g e rest : gr_main g = GSelect -> gr_errCh g = e :: rest -> gw_step g (gw_select_error g e rest)
| gs_http_shutdown g : gr_main g = GHTTP -> gw_step g (gw_http_shutdown g)
| gs_drained g : gr_main g = GWait -> gr_handlers g = 0%nat -> gw_step g (gr_set_main g GRelay)
| gs_deadline g : gr_main g = GWait -> gw_step g (gw_http_deadline g)
| gs_relay g m : gr_main g = GRelay -> Manager_Shutdown (gr_relay g) = Some m -> gw_step g (gr_set_main (gr_set_relay g m (gr_pending g)) GSession)
| gs_close_begin g : gr_main g = GSession -> sv_stage (gr_srv g) = SServing -> gw_step g (gr_set_srv g (shutdown_begin (gr_srv g)))
| gs_close_next g l : gr_main g = GSession -> sv_stage (gr_srv g) = SClosing l -> gw_step g (gr_set_srv g (shutdown_next (gr_srv g)))
| gs_stopped g : gr_main g = GSession -> sv_stage (gr_srv g) = SStopped -> gw_step g (gr_set_main g GStopped).
End Steps.

(** ** The relay manager under shutdown *)

Lemma relay_op_reach lc mc b m p m' p' : mgr_reach lc mc m p -> relay_op lc b (m, p) (m', p') -> mgr_reach lc mc m' p'.
Proof. intros Hr Hop. inversion Hop; subst; [eapply mr_open_begin|eapply mr_open_refused|eapply mr_open_finish|eapply mr_send|eapply mr_recv|eapply mr_ping|eapply mr_close|eapply mr_tick|eapply mr_reader|eapply mr_writer|eapply mr_session]; eassumption. Qed.

(** What [Close] does to the connections: it removes one that its owner closes, and never returns
    for one whose reader is closing it. *)
Lemma Manager_Close_conns lc m p id cl m' b :
  mgr_inv lc m p -> Manager_Close m id cl = Some (m', b) ->
  match mg_conns m !! id with
  | Some c => if decide (rc_clientID c = cl) then mg_conns m' = delete id (mg_conns m) /\ in_own_close c = false else m' = m
  | None => m' = m
  end.
Proof.
  intros Hi. unfold Manager_Close, getOwnedConn. destruct (mg_conns m !! id) as [c|] eqn:E; [|by intros [= <- _]].
  destruct (mi_conn _ _ _ Hi _ _ E) as (Hid & _ & Ho). destruct (decide (rc_clientID c = cl)) as [<-|Hn].
  - rewrite String.eqb_refl. unfold conn_Close, in_own_close. destruct Ho as [Ho|Ho]; rewrite Ho; [|done]. rewrite Hid. intros [= <- _].
    unfold onConnClosed. by rewrite E.
  - rewrite (proj2 (String.eqb_neq _ _)) by done. by intros [= <- _].
Qed.
Lemma close_all_conns lc p l : forall m m', mgr_inv lc m p -> close_all m l = Some m' ->
  forall id c, mg_conns m' !! id = Some c -> mg_conns m !! id = Some c /\ (id, rc_clientID c) ∉ l.
Proof.
  induction l as [|[i cl] l IH]; intros m m' Hi; cbn [close_all]; [intros [= <-] id c Hc; split; [done|apply not_elem_of_nil]|].
  destruct (Manager_Close m i cl) as [[m1 b]|] eqn:E; [|done]. intros Hc id c Hl. pose proof (Manager_Close_inv _ _ _ _ _ _ _ Hi E) as Hi1.
  apply (Manager_Close_conns _ _ _ _ _ _ _ Hi) in E. destruct (IH _ _ Hi1 Hc id c Hl) as [H1 H2]. rewrite not_elem_of_cons.
  destruct (mg_conns m !! i) as [c0|] eqn:Ei; [destruct (decide (rc_clientID c0 = cl)) as [<-|Hn]|]; [destruct E as [E _]|..]; rewrite E in H1.
  - apply lookup_delete_Some in H1 as [Hd H1]. split_and!; [done| |done]. congruence.
  - split_and!; [done| |done]. intros [= -> <-]. congruence.
  - split_and!; [done| |done]. congruence.
Qed.
(** [Shutdown] closes every connection when it returns, and it returns unless a reader is closing
    its own connection. *)
Lemma Manager_Shutdown_empty lc m p m' : mgr_inv lc m p -> Manager_Shutdown m = Some m' -> mg_conns m' = ∅.
Proof.
  intros Hi H. apply map_empty. intros id. destruct (mg_conns m' !! id) as [c|] eqn:E; [|done]. exfalso.
  destruct (close_all_conns _ _ _ _ _ Hi H id c E) as [E1 Hn]. apply Hn. apply list_elem_of_fmap. exists (id, c). split; [done|]. by apply elem_of_map_to_list.
Qed.
Definition no_own_close (m : RelayManager) : Prop := forall id c, mg_conns m !! id = Some c -> in_own_close c = false.
Lemma close_all_total lc p l : forall m, mgr_inv lc m p -> no_own_close m -> exists m', close_all m l = Some m'.
Proof.
  induction l as [|[i cl] l IH]; intros m Hi Hn; cbn [close_all]; [by eauto|].
  assert (Hc : exists m1 b, Manager_Close m i cl = Some (m1, b)).
  { unfold Manager_Close, getOwnedConn. destruct (mg_conns m !! i) as [c|] eqn:E; [|by eauto]. specialize (Hn i c E). case_on; [|by eauto].
    destruct (mi_conn _ _ _ Hi _ _ E) as (_ & _ & Ho). unfold conn_Close. destruct Ho as [Ho|Ho]; unfold in_own_close in Hn; rewrite Ho in *; [by eauto|done]. }
  destruct Hc as (m1 & b & E). rewrite E. apply IH; [by eapply Manager_Close_inv|].
  apply (Manager_Close_conns _ _ _ _ _ _ _ Hi) in E. intros id c Hc. apply (Hn id).
  destruct (mg_conns m !! i) as [c0|]; [destruct (decide _); [destruct E as [E _]|]|]; rewrite E in Hc; try done. by apply lookup_delete_Some in Hc as [_ ?].
Qed.

(** A connection whose reader is closing it. *)
Definition running_at (m : RelayManager) (id : string) : Prop := exists c, mg_conns m !! id = Some c /\ in_own_close c = true.
Lemma Manager_Shutdown_hangs lc m p id : mgr_inv lc m p -> running_at m id -> Manager_Shutdown m = None.
Proof.
  intros Hi (c & Hc & Ho). unfold Manager_Shutdown. assert (Hin : (id, rc_clientID c) ∈ map (fun kv => (kv.1, rc_clientID kv.2)) (map_to_list (mg_conns m))).
  { apply list_elem_of_fmap. exists (id, c). split; [done|]. by apply elem_of_map_to_list. }
  revert Hin. generalize (map (fun kv : string * relayConn => (kv.1, rc_clientID kv.2)) (map_to_list (mg_conns m))) as l.
  intros l. revert m Hi Hc. induction l as [|[i cl] l IH]; intros m Hi Hc Hin; [by apply not_elem_of_nil in Hin|]. cbn [close_all].
  destruct (Manager_Close m i cl) as [[m1 b]|] eqn:E; [|done]. pose proof (Manager_Close_conns _ _ _ _ _ _ _ Hi E) as Hm.
  apply elem_of_cons in Hin as [[= <- <-]|Hin].
  { rewrite Hc, decide_True in Hm by done. destruct Hm as [_ Hm]. congruence. }
  apply IH; [by eapply Manager_Close_inv| |done]. destruct (mg_conns m !! i) as [c0|] eqn:Ei; [destruct (decide _); [destruct Hm as [Hm Hf]|]|]; rewrite Hm; try done.
  rewrite lookup_delete_ne; [done|]. intros ->. congruence.
Qed.

(** Nothing the manager does changes that. *)
Lemma running_insert m id id' c c' : running_at m id -> mg_conns m !! id' = Some c -> rc_once c' = rc_once c -> running_at (set_conn_map m (<[id' := c']> (mg_conns m))) id.
Proof.
  intros (c0 & Hc & Ho) Hc' E. unfold running_at. cbn. destruct (decide (id' = id)) as [->|Hne].
  - exists c'. rewrite lookup_insert_eq. split; [done|]. unfold in_own_close in *. rewrite E. assert (c0 = c) as -> by congruence. done.
  - exists c0. by rewrite lookup_insert_ne.
Qed.
Lemma running_close lc m p id i cl m' b : mgr_inv lc m p -> running_at m id -> Manager_Close m i cl = Some (m', b) -> running_at m' id.
Proof.
  intros Hi (c & Hc & Ho) E. pose proof (Manager_Close_conns _ _ _ _ _ _ _ Hi E) as Hm. exists c.
  destruct (mg_conns m !! i) as [c0|] eqn:Ei; [destruct (decide _); [destruct Hm as [Hm Hf]|]|]; rewrite Hm; try done.
  rewrite lookup_delete_ne; [done|]. intros ->. congruence.
Qed.
Lemma running_expiries lc p id fired : forall m, mgr_inv lc m p -> running_at m id -> running_at (run_expiries m fired) id.
Proof.
  induction fired as [|e fired IH]; intros m Hi Hr; cbn [run_expiries]; [done|]. destruct (we_callback e) as [[i cl]|]; [|by apply IH].
  destruct (Manager_Close m i cl) as [[m1 b]|] eqn:E; [|done]. apply IH; [by eapply Manager_Close_inv|by eapply running_close].
Qed.
Lemma running_same m m' id : mg_conns m' = mg_conns m -> running_at m id -> running_at m' id.
Proof. intros E (c & Hc & Ho). exists c. by rewrite E. Qed.
Lemma open_begin_conns m cl req : mg_conns (open_begin m cl req).1 = mg_conns m.
Proof. unfold open_begin. destruct (negb _); [done|]. destruct (_ || _); [done|]. by destruct (ReserveRelayConn _ _). Qed.
Lemma running_op lc b m p m' p' id : mgr_inv lc m p -> running_at m id -> relay_op lc b (m, p) (m', p') -> running_at m' id.
Proof.
  intros Hi Hr Hop. inversion Hop as [? ? cl req ? E|? ? cl req ? e E|? ? now cl dial connID Hin Hp Hfree|? ? now cl i payload|? ? now cl i max ? r E|? ? now cl i|? ? i cl ? b0 E| |? ? now i buf e ? E|? ? now i ev|? ? l Hl]; subst; cbn [fst].
  - eapply running_same; [|exact Hr]. pose proof (open_begin_conns m cl req) as Ec. by rewrite E in Ec.
  - eapply running_same; [|exact Hr]. pose proof (open_begin_conns m cl req) as Ec. by rewrite E in Ec.
  - unfold open_finish. destruct dial; [done|]. destruct connID as [i| |]; [|done..]. cbn. destruct Hr as (c & Hc & Ho). exists c. cbn. split; [|done].
    rewrite lookup_insert_ne; [done|]. intros ->. rewrite (Hfree id eq_refl) in Hc. done.
  - unfold Manager_Send. destruct (getOwnedConn m cl i) as [c| |] eqn:Eg; [|done..]. apply getOwnedConn_Ok in Eg as [Hc _].
    destruct (AllowRelayBytes _ _ _ _) as [l [e|]]; [done|]. destruct (Enqueue c _ _) as [[[[c' n] q] err]| |] eqn:E; [|done..]. apply Enqueue_same in E as (_ & _ & E).
    assert (Hx : running_at (set_conn_map (set_limits m l) (<[i := c']> (mg_conns (set_limits m l)))) id) by by eapply running_insert.
    destruct err; [done|]. cbn [fst]. by destruct (0 <? n).
  - revert E. unfold Manager_Recv. destruct (getOwnedConn m cl i) as [c| |] eqn:Eg; [|by intros [= <- _]..]. apply getOwnedConn_Ok in Eg as [Hc Hcl].
    set (mx := if RecvWindow (mg_cfg m) <? _ then _ else _). destruct (mi_conn _ _ _ Hi _ _ Hc) as (_ & (f & h & Hci) & Ho).
    destruct (Recv_inv c f h (ms_of now) mx Hci) as (c' & data & eos & err & f' & HE & Hci' & _). rewrite HE. apply Recv_same in HE as (H1 & H2 & H3).
    assert (Hx : running_at (set_conn_map m (<[i := c']> (mg_conns m))) id) by by eapply running_insert.
    assert (Hm : mgr_inv lc (set_conn_map m (<[i := c']> (mg_conns m))) p') by (eapply mgr_inv_conn; try done; by rewrite H3).
    destruct err as [err|]; [by intros [= <- _]|]. set (m1 := if 0 <? zlen data then _ else _).
    assert (Hx1 : running_at m1 id /\ mgr_inv lc m1 p'). { unfold m1. case_on; [|done]. split; [done|]. apply mgr_inv_touch, mgr_inv_metrics; [done|]. by apply metric_add_ne. }
    destruct Hx1 as [Hx1 Hm1]. clearbody m1. case_on; [|by intros [= <- _]]. destruct (Manager_Close m1 i cl) as [[m2 b2]|] eqn:Ec; [|done].
    intros [= <- _]. by eapply running_close.
  - unfold Manager_Ping. destruct (getOwnedConn m cl i) as [c| |] eqn:Eg; [|done..]. apply getOwnedConn_Ok in Eg as [Hc _]. cbn [fst].
    eapply (running_same (set_conn_map m (<[i := Ping c (ms_of now)]> (mg_conns m)))); [done|]. eapply running_insert; [done|done|]. unfold Ping. by destruct (negb _).
  - by eapply running_close.
  - unfold Manager_tick. destruct (mg_stuck m); [done|]. pose proof (RelayStore_tick_inv _ (mi_store _ _ _ Hi)) as Hs.
    assert (Hby : rs_byID (RelayStore_tick (mg_store m)).1 = rs_byID (mg_store m)) by (unfold RelayStore_tick; by destruct (tick _)).
    destruct (RelayStore_tick (mg_store m)) as [s fired]. cbn [fst] in *. eapply (running_expiries lc p'); [|done]. destruct Hi. split; try done. cbn. by rewrite Hby.
  - revert E. unfold reader_turn. destruct (mg_conns m !! i) as [c|] eqn:Hc; [|by intros [= <-]]. destruct (rc_reader c && _) eqn:Er; [|by intros [= <-]]. zbool.
    destruct (readLoop_turn _ _ _ _) as [c'| |] eqn:E; cbn [mbind res_bind]; [|done..]. intros [= <-]. destruct Hr as (c0 & Hc0 & Ho). exists c0. cbn.
    rewrite lookup_insert_ne; [done|]. intros ->. congruence.
  - unfold writer_turn. destruct (mg_conns m !! i) as [c|] eqn:Hc; [|done]. destruct (rc_writer c); [|done]. destruct (writeLoop_turn _ _ _) as [c'|] eqn:E; [|done].
    apply writeLoop_same in E as (_ & _ & E). by eapply running_insert.
  - done.
Qed.

(** Without a request nothing is opened. *)
Lemma empty_expiries fired : forall m, mg_conns m = ∅ -> mg_conns (run_expiries m fired) = ∅.
Proof.
  induction fired as [|e fired IH]; intros m Hm; cbn [run_expiries]; [done|]. destruct (we_callback e) as [[i cl]|]; [|by apply IH].
  unfold Manager_Close, getOwnedConn. rewrite Hm, lookup_empty. by apply IH.
Qed.
Lemma empty_op lc m p m' p' : relay_op lc false (m, p) (m', p') -> p' = p /\ (mg_conns m = ∅ -> mg_conns m' = ∅).
Proof.
  intros Hop. inversion Hop as [| | | | | | | |? ? now i buf e ? E|? ? now i ev|]; subst; (split; [done|]); intros Hm.
  - unfold Manager_tick. destruct (mg_stuck m); [done|]. destruct (RelayStore_tick _). by apply empty_expiries.
  - revert E. unfold reader_turn. rewrite Hm, lookup_empty. intros [= <-]. done.
  - unfold writer_turn. by rewrite Hm, lookup_empty.
  - done.
Qed.

(** ** The invariant of a run *)

Definition rank (s : gstage) : nat :=
  match s with GSelect => 0 | GHTTP => 1 | GWait => 2 | GRelay => 3 | GSession => 4 | GStopped => 5 end.
Definition go_weight (g : goroutine) : nat := match g with GoEnded => 1 | _ => 0 end.

Section Run.
  Context (lc : Limits.Config) (mc : ManagerConfig) (s0 : Server StaticSecretProvider).
  Hypothesis Hwindow : SendWindow mc < 2 ^ 62.

Record gw_inv (g : gwRun) : Prop := mkGwInv {
  gi_relay : mgr_reach lc mc (gr_relay g) (gr_pending g);
  gi_pending : (size (gr_pending g) <= gr_handlers g)%nat;
  gi_srv : rtc srv_step (sv_new s0) (gr_srv g);
  gi_ch : (length (gr_errCh g) <= go_weight (gr_http g) + go_weight (gr_sess g))%nat;
  gi_down : (2 <= rank (gr_main g))%nat <-> gr_httpdown g = true;
  gi_drained : (3 <= rank (gr_main g))%nat -> gr_timeout g = false -> gr_handlers g = 0%nat;
  gi_closed : (4 <= rank (gr_main g))%nat -> gr_timeout g = false -> mg_conns (gr_relay g) = ∅;
  gi_serving : (rank (gr_main g) < 4)%nat -> sv_stage (gr_srv g) = SServing;
  gi_stopped : gr_main g = GStopped -> sv_stage (gr_srv g) = SStopped;
  gi_ctx : (1 <= rank (gr_main g))%nat -> gr_ctx g = true }.

Lemma size_zero_empty (p : gmultiset string) : (size p <= 0)%nat -> p = ∅.
Proof. intros H. apply gmultiset_size_empty_inv. lia. Qed.

Lemma go_weight_result r : go_weight (go_result r) = match r with Some _ => 0%nat | None => 1%nat end.
Proof. by destruct r. Qed.

Lemma gw_step_inv g g' : gw_inv g -> gw_step lc g g' -> gw_inv g'.
Proof.
  intros [I1 I2 I3 I4 I5 I6 I7 I8 I9 I10] Hs.
  destruct Hs as [g|g ins err Hg He|g evs err Hg HE He|g e Hg Hl|g e Hg Hl|g Hd|g n Hn Hp|g b m p Hop Hb Hp|g r Hr Hst|g Hm Hc|g e rest Hm Hc|g Hm|g Hm Hh|g Hm|g m Hm HS|g Hm Hst|g l Hm Hst|g Hm Hst].
  - by split.
  - split; cbn; try done. rewrite Hg in I4. cbn in I4. lia.
  - split; cbn; try done. rewrite Hg in I4. cbn in I4. lia.
  - split; cbn; try done. rewrite Hg in I4. cbn in I4. rewrite length_app. cbn. lia.
  - split; cbn; try done. rewrite Hg in I4. cbn in I4. rewrite length_app. cbn. lia.
  - split; cbn; try done; [lia|]. intros H3. assert (gr_httpdown g = true) by (apply I5; lia). congruence.
  - split; cbn; try done. intros H3 Ht. specialize (I6 H3 Ht). lia.
  - split; cbn; try done; [by eapply relay_op_reach|]. intros H4 Ht. assert (H0 : gr_handlers g = 0%nat) by (apply I6; [lia|done]).
    destruct b; [specialize (Hb eq_refl); lia|]. by apply (empty_op _ _ _ _ _ Hop), I7.
  - split; cbn; try done; [by eapply rtc_r|intros H; rewrite Hst; by apply I8|intros H; rewrite Hst; by apply I9].
  - rewrite Hm in *. split; cbn in *; try done; try lia; try (by intros; apply I8; cbn; lia); try (split; [lia|]; intros H; by apply I5 in H as Hx; lia).
  - rewrite Hm in *. split; cbn in *; try done; try lia; [rewrite Hc in I4; cbn in I4; lia|split; [lia|]; intros H; apply I5 in H as Hx; lia|by intros; apply I8; lia].
  - rewrite Hm in *. split; cbn in *; try done; try lia; [by intros; apply I8; lia|by intros; apply I10; lia].
  - rewrite Hm in *. split; cbn in *; try done; try lia; [split; [by intros; apply I5; lia|lia]|by intros; apply I8; lia|by intros; apply I10; lia].
  - rewrite Hm in *. split; cbn in *; try done; try lia; [split; [by intros; apply I5; lia|lia]|by intros; apply I8; lia|by intros; apply I10; lia].
  - rewrite Hm in *. split; cbn in *; try done; try lia; [by eapply mr_shutdown|split; [by intros; apply I5; lia|lia]|intros _ Ht; apply I6; [lia|done]| |by intros; apply I10; lia].
    intros _ _. eapply Manager_Shutdown_empty; [eapply mgr_reach_inv; done|done].
  - split; cbn; try done; rewrite ?Hm; cbn; try done; [by eapply rtc_r; [done|apply svs_shutdown]|lia].
  - split; cbn; try done; rewrite ?Hm; cbn; try done; [by eapply rtc_r; [done|apply svs_next]|lia].
  - rewrite Hm in *. split; cbn in *; try done; try lia; [split; [by intros; apply I5; lia|lia]|by intros _; apply I6; lia|by intros _; apply I7; lia|by intros; apply I10; lia].
Qed.

Lemma gw_reach_inv g g' : gw_inv g -> rtc (gw_step lc) g g' -> gw_inv g'.
Proof. intros Hi Hr. eapply (rtc_preserves (gw_step lc)); [exact gw_step_inv|exact Hr|exact Hi]. Qed.

(** The session server's part of the stop. *)
Lemma gw_close_sessions l : forall g, gr_main g = GSession -> sv_stage (gr_srv g) = SClosing l ->
  exists g', rtc (gw_step lc) g g' /\ gr_main g' = GStopped.
Proof.
  induction l as [|i l IH]; intros g Hm Hs.
  - exists (gr_set_main (gr_set_srv g (shutdown_next (gr_srv g))) GStopped). split; [|done].
    eapply rtc_l; [by eapply gs_close_next|]. apply rtc_once, gs_stopped; [done|]. cbn. unfold shutdown_next. by rewrite Hs.
  - destruct (IH (gr_set_srv g (shutdown_next (gr_srv g)))) as (g' & Hr & Hg); [done|cbn; unfold shutdown_next; by rewrite Hs|].
    exists g'. split; [|done]. eapply rtc_l; [by eapply gs_close_next|done].
Qed.
Lemma gw_stop_sessions g : gr_main g = GSession -> exists g', rtc (gw_step lc) g g' /\ gr_main g' = GStopped.
Proof.
  intros Hm. destruct (sv_stage (gr_srv g)) as [|l|] eqn:Es.
  - destruct (gw_close_sessions (map_to_list (sr_sessions (sv_srv (gr_srv g)))).*1 (gr_set_srv g (shutdown_begin (gr_srv g)))) as (g' & Hr & Hg);
      [done|cbn; unfold shutdown_begin; by rewrite Es|]. exists g'. split; [|done]. eapply rtc_l; [by apply gs_close_begin|done].
  - by eapply gw_close_sessions.
  - exists (gr_set_main g GStopped). split; [|done]. by apply rtc_once, gs_stopped.
Qed.
(** From the HTTP shutdown on, main needs no other goroutine. *)
Lemma gw_stop_relay g : gw_inv g -> no_own_close (gr_relay g) -> gr_main g = GRelay -> exists g', rtc (gw_step lc) g g' /\ gr_main g' = GStopped.
Proof.
  intros Hi Hn Hm. destruct (close_all_total lc (gr_pending g) (map (fun kv => (kv.1, rc_clientID kv.2)) (map_to_list (mg_conns (gr_relay g)))) (gr_relay g)) as [m HS];
    [by eapply mgr_reach_inv, gi_relay|done|]. change (Manager_Shutdown (gr_relay g) = Some m) in HS.
  destruct (gw_stop_sessions (gr_set_main (gr_set_relay g m (gr_pending g)) GSession)) as (g' & Hr & Hg); [done|]. exists g'. split; [|done].
  eapply rtc_l; [by eapply gs_relay|done].
Qed.
Lemma gw_stop_wait g : gw_inv g -> no_own_close (gr_relay g) -> gr_main g = GWait -> exists g', rtc (gw_step lc) g g' /\ gr_main g' = GStopped.
Proof.
  intros Hi Hn Hm. pose proof (gs_deadline lc g Hm) as Hs. destruct (gw_stop_relay (gw_http_deadline g)) as (g' & Hr & Hg); [by eapply gw_step_inv|done|done|].
  exists g'. split; [by eapply rtc_l|done].
Qed.
Lemma gw_stop_http g : gw_inv g -> no_own_close (gr_relay g) -> gr_main g = GHTTP -> exists g', rtc (gw_step lc) g g' /\ gr_main g' = GStopped.
Proof.
  intros Hi Hn Hm. pose proof (gs_http_shutdown lc g Hm) as Hs. destruct (gw_stop_wait (gw_http_shutdown g)) as (g' & Hr & Hg); [by eapply gw_step_inv|done|done|].
  exists g'. split; [by eapply rtc_l|done].
Qed.
Lemma gw_stop_select g : gw_inv g -> no_own_close (gr_relay g) -> gr_main g = GSelect -> gr_ctx g = true \/ gr_errCh g <> [] ->
  exists g', rtc (gw_step lc) g g' /\ gr_main g' = GStopped.
Proof.
  intros Hi Hn Hm Hc. assert (Hs : exists g1, gw_step lc g g1 /\ gr_main g1 = GHTTP /\ gr_relay g1 = gr_relay g).
  { destruct Hc as [Hc|Hc]; [exists (gw_select_done g); split; [by apply gs_done|done]|].
    destruct (gr_errCh g) as [|e rest] eqn:Ee; [done|]. exists (gw_select_error g e rest). split; [by apply gs_error|done]. }
  destruct Hs as (g1 & Hs & Hm1 & Er). destruct (gw_stop_http g1) as (g' & Hr & Hg); [by eapply gw_step_inv|by rewrite Er|done|].
  exists g'. split; [by eapply rtc_l|done].
Qed.

(** The relay manager's shutdown does not return. *)
Lemma gw_hangs_step id g g' : gw_inv g -> running_at (gr_relay g) id -> (rank (gr_main g) < 4)%nat -> gw_step lc g g' ->
  running_at (gr_relay g') id /\ (rank (gr_main g') < 4)%nat.
Proof.
  intros Hi Hr Hm Hs. pose proof (mgr_reach_inv _ _ _ _ Hwindow (gi_relay _ Hi)) as Hmi.
  destruct Hs as [g|g ins err Hg He|g evs err Hg HE He|g e Hg Hl|g e Hg Hl|g Hd|g n Hn Hp|g b m p Hop Hb Hp|g r Hr' Hst|g Hm' Hc|g e rest Hm' Hc|g Hm'|g Hm' Hh|g Hm'|g m Hm' HS|g Hm' Hst|g l Hm' Hst|g Hm' Hst];
    try done; try (split; [done|cbn; lia]).
  - split; [by eapply running_op|done].
  - rewrite (Manager_Shutdown_hangs _ _ _ _ Hmi Hr) in HS. done.
  - rewrite Hm' in Hm. cbn in Hm. lia.
Qed.
End Run.

(** What the session server's shutdown leaves. *)
Lemma gi_srv_stopped (s : Server StaticSecretProvider) r : server_inv s -> rtc srv_step (sv_new s) r -> sv_stage r = SStopped ->
  sv_listening r = false /\ forall id, is_Some (sr_sessions (sv_srv r) !! id) -> id ∉ sv_late r -> id ∈ sv_closed r.
Proof.
  intros Hs Hr E. assert (Hi : srv_inv r) by (eapply (rtc_preserves srv_step); [exact srv_step_inv|exact Hr|by split; cbn]).
  destruct Hi as [H1 H2 H3 H4]. rewrite E in H3, H4. split; [by apply H3|]. intros id Hid Hl. by destruct (H4 id Hid).
Qed.
Lemma built_gateway c holdEnv gw : build_gateway c holdEnv = Ok gw ->
  gw_inv (gateway_limits c) (gateway_relay c) (gw_session gw) (gw_new gw) /\ server_inv (gw_session gw).
Proof.
  unfold build_gateway. intros H. apply res_bind_Ok in H as (p & _ & [= <-]). cbn [gw_session]. split.
  - split; cbn; try done; try lia; by apply mr_new.
  - eapply server_reach_inv, sr_new. done.
Qed.

(** ** Theorems *)

(** C12: The gateway stops in order. In every run of a gateway that was built from a configuration, with
    requests, relay connections, sessions, failures and signals interleaved in any way: a server
    that fails can always report it, because the channel has room; sessions are closed only after
    the HTTP server was shut down and, unless its deadline passed, after every relay connection is
    gone; and when [main] is at its end, the session listeners are closed and [Close] was called
    for every registered session that was there at the snapshot, and if the requests ended in time
    there is no relay connection, no reservation for one, and the gauge shows none. *)
Theorem gateway_stops_in_order c holdEnv gw g :
  SendWindow (gateway_relay c) < 2 ^ 62 -> 0 < MaxTotalConns (gateway_limits c) < 2 ^ 63 ->
  build_gateway c holdEnv = Ok gw -> rtc (gw_step (gateway_limits c)) (gw_new gw) g ->
  (forall e, gr_http g = GoSending e \/ gr_sess g = GoSending e -> (length (gr_errCh g) < errCap)%nat)
  /\ (sv_stage (gr_srv g) <> SServing -> gr_httpdown g = true /\ (gr_timeout g = false -> mg_conns (gr_relay g) = ∅))
  /\ (gr_main g = GStopped ->
      sv_listening (gr_srv g) = false
      /\ (forall id, is_Some (sr_sessions (sv_srv (gr_srv g)) !! id) -> id ∉ sv_late (gr_srv g) -> id ∈ sv_closed (gr_srv g))
      /\ (gr_timeout g = false ->
          mg_conns (gr_relay g) = ∅ /\ totalRelayConns (mg_limits (gr_relay g)) = 0 /\ mt_value (mg_metrics (gr_relay g)) ActiveRelayConns = 0)).
Proof.
  intros Hw Hcap Hb Hr. destruct (built_gateway _ _ _ Hb) as [Hi0 Hs0]. pose proof (gw_reach_inv _ _ _ Hw _ _ Hi0 Hr) as [I1 I2 I3 I4 I5 I6 I7 I8 I9 I10]. split_and!.
  - intros e He. unfold errCap. destruct He as [He|He]; rewrite He in I4; cbn in I4; [destruct (gr_sess g)|destruct (gr_http g)]; cbn in I4; lia.
  - intros Hs. assert (H4 : (4 <= rank (gr_main g))%nat) by (destruct (decide (rank (gr_main g) < 4)%nat) as [Hd|Hd]; [by apply I8 in Hd|lia]).
    split; [apply I5; lia|by apply I7].
  - intros Hm. rewrite Hm in *. cbn [rank] in *. pose proof (gi_srv_stopped _ _ Hs0 I3 (I9 eq_refl)) as [H1 H2]. split_and!; [done|done|].
    intros Ht. specialize (I7 ltac:(lia) Ht). specialize (I6 ltac:(lia) Ht). assert (Hp : gr_pending g = ∅) by (apply size_zero_empty; lia). rewrite Hp in I1.
    pose proof (mgr_reach_inv _ _ _ _ Hw I1) as Hmi. split_and!; [done| |].
    + destruct (conns_reach_inv _ _ _ Hcap (mi_limits _ _ _ Hmi)) as (_ & Hrep & _). by rewrite (rep_total _ _ Hrep), I7, owners_empty.
    + rewrite (mi_gauge _ _ _ Hmi), I7. done.
Qed.


(** One overflowed relay connection keeps the gateway from stopping: once the reader of a relay
    connection has entered its own [Close], the relay manager's [Shutdown] never returns, so that
    whatever happens afterwards [main] never comes to its end, and no session is closed. *)
Theorem gateway_hangs c holdEnv gw g g' id :
  SendWindow (gateway_relay c) < 2 ^ 62 -> build_gateway c holdEnv = Ok gw -> rtc (gw_step (gateway_limits c)) (gw_new gw) g ->
  running_at (gr_relay g) id -> (rank (gr_main g) < 4)%nat -> rtc (gw_step (gateway_limits c)) g g' ->
  gr_main g' <> GStopped /\ sv_stage (gr_srv g') = SServing.
Proof.
  intros Hw Hb Hr Hrun Hm Hr'. destruct (built_gateway _ _ _ Hb) as [Hi0 _]. pose proof (gw_reach_inv _ _ _ Hw _ _ Hi0 Hr) as Hi.
  assert (H : gw_inv (gateway_limits c) (gateway_relay c) (gw_session gw) g' /\ running_at (gr_relay g') id /\ (rank (gr_main g') < 4)%nat).
  { eapply (rtc_preserves (gw_step (gateway_limits c)) (fun g => gw_inv (gateway_limits c) (gateway_relay c) (gw_session gw) g /\ running_at (gr_relay g) id /\ (rank (gr_main g) < 4)%nat)); [|exact Hr'|done].
    intros a b (Ha & Hb' & Hc) Hs. split; [by eapply gw_step_inv|by eapply gw_hangs_step]. }
  destruct H as (Hi' & _ & Hm'). split; [intros E; rewrite E in Hm'; cbn in Hm'; lia|]. by eapply gi_serving.
Qed.

(** The start. When [main] serves, it has a valid configuration and a certificate whose key it has,
    TLS is at least version 1.3, the protocols are those of [resolveALPNList], the HTTP server uses
    the same pair or, if allowed, none; and a restart on the same disk, whatever the system answers
    meanwhile, serves with the same certificate and changes no file. *)
Theorem gateway_start_spec {Level Logger} (InfoLevel : Level) UnmarshalText (Build : zapConfig Level -> res Logger) parse6 ReadFile Unmarshal path env compatEnv holdEnv d d' s :
  gateway_main InfoLevel UnmarshalText Build parse6 ReadFile Unmarshal path env compatEnv holdEnv d = (d', StartServing s) ->
  exists cfg c k, Load ReadFile Unmarshal path = Ok cfg /\ Validate cfg = None
    /\ st_Certificates (sg_tls s) = [(c, k)] /\ PublicKey c = Some (Public k) /\ st_MinVersion (sg_tls s) = VersionTLS13
    /\ st_NextProtos (sg_tls s) = resolveALPNList (ProtocolID cfg) compatEnv
    /\ hs_TLS (sg_http s) = (if AllowInsecureHTTP cfg then None else Some (CertPath (gc_TLS cfg), KeyPath (gc_TLS cfg)))
    /\ build_gateway cfg holdEnv = Ok (sg_gateway s)
    /\ forall env', ce_hidden env' (CertPath (gc_TLS cfg)) = false -> ce_hidden env' (KeyPath (gc_TLS cfg)) = false ->
       gateway_main InfoLevel UnmarshalText Build parse6 ReadFile Unmarshal path env' compatEnv holdEnv d' = (d', StartServing s).
Proof.
  unfold gateway_main. destruct (Load ReadFile Unmarshal path) as [cfg|e|m] eqn:El; [|done..]. destruct (newLogger _ _ _ _) as [lg|e|m] eqn:Eg; [|done..].
  destruct (auto_generate parse6 cfg env d) as [d1 [[]|e|m]] eqn:Ee; cbn [start_or]; [|done..]. intros [= -> Hs]. pose proof Hs as Hs'. unfold main_serve in Hs.
  destruct (LoadX509KeyPair d' _ _) as [[c k]|e|m] eqn:Ec; [|done..]. cbn [start_or] in Hs.
  destruct (build_gateway cfg holdEnv) as [gw|e|m] eqn:Eb; [|done..]. cbn [start_or] in Hs. injection Hs as <-.
  destruct (LoadX509KeyPair_Ok _ _ _ _ _ Ec) as (Hk & B1 & B2).
  exists cfg, c, k. split_and!; try done.
  - unfold Load in El. apply res_bind_Ok in El as (raw & _ & El). apply res_bind_Ok in El as (cfg0 & _ & El). by destruct (Validate _) eqn:Ev; simplify_eq.
  - intros env' H1 H2. assert (E' : auto_generate parse6 cfg env' d' = (d', Ok tt)).
    { unfold auto_generate. destruct (AutoGenerate _); [|done]. unfold EnsureSelfSigned, stat_ok. by rewrite H1, H2, !bool_decide_true. }
    rewrite E'. cbn [start_or]. by rewrite Hs'.
Qed.

(** ** Examples *)

(** A gateway with small windows, started on an empty disk. *)
Definition ex_gw_config : GatewayConfig :=
  let l := gc_Limits Default in
  mkGatewayConfig ":8080" ":443" ":443" true "vlf-runtime/0.1" "info" 1200 (Some {[ "dev" := "secret" ]}) (gc_TLS Default)
    (mkLimitsConfig 4 8 (gl_MaxBytesPerMinutePerClient l) 4 8 (gl_MaxFlowsPerSession l) (gl_MaxUDPPPS l) 4 4096
       (gl_MaxBytesPerMinutePerSession l) (gl_SessionUpKbps l) (gl_SessionDownKbps l)) (gc_Timeouts Default) (gc_Auth Default).
Definition ex_gw_main (env : certEnv) (d : disk) : disk * started :=
  gateway_main 0 (fun _ t => if String.eqb t "info" then Ok 0 else Err (ENew "unrecognized level")) (fun c => Ok (zc_Level _ c)) no_parse6
    (fun _ => Ok []) (fun _ _ => Ok ex_gw_config) "config.yaml" env "" "" d.
Definition ex_gw : gateway := match build_gateway ex_gw_config "" with Ok g => g | _ => mkGateway (mkRelayServer ex_mgr0 (ex_verifier 0 0)) ex_server end.
Lemma ex_gw_built : build_gateway ex_gw_config "" = Ok ex_gw.
Proof. vm_compute. reflexivity. Qed.

Lemma gateway_start_spec_witness : exists s, ex_gw_main ex_cert_env ex_disk = ((ex_gw_main ex_cert_env ex_disk).1, StartServing s)
  /\ forall env', (forall p, ce_hidden env' p = false) -> ex_gw_main env' (ex_gw_main ex_cert_env ex_disk).1 = ((ex_gw_main ex_cert_env ex_disk).1, StartServing s).
Proof.
  destruct (ex_gw_main ex_cert_env ex_disk) as [d' [l e|l e|s|msg]] eqn:E; try (vm_compute in E; discriminate E). exists s. split; [reflexivity|].
  destruct (gateway_start_spec _ _ _ _ _ _ _ _ _ _ _ _ _ E) as (cfg & c & k & _ & _ & _ & _ & _ & _ & _ & _ & H). intros env' He. apply H; apply He.
Defined.

(** A run that a signal ends. *)
Definition ex_gw_stop1 : gwRun := gr_set_main (gw_http_shutdown (gw_select_done (gw_signal (gw_new ex_gw)))) GRelay.
Definition ex_gw_stop2 : gwRun :=
  let g := match Manager_Shutdown (gr_relay ex_gw_stop1) with Some m => gr_set_main (gr_set_relay ex_gw_stop1 m (gr_pending ex_gw_stop1)) GSession | None => ex_gw_stop1 end in
  let g := gr_set_srv g (shutdown_begin (gr_srv g)) in
  gr_set_main (gr_set_srv g (shutdown_next (gr_srv g))) GStopped.
Lemma ex_gw_stop_reach : rtc (gw_step (gateway_limits ex_gw_config)) (gw_new ex_gw) ex_gw_stop2.
Proof.
  eapply rtc_l; [apply gs_signal|]. eapply rtc_l; [apply gs_done; reflexivity|]. eapply rtc_l; [apply gs_http_shutdown; reflexivity|].
  eapply rtc_l; [apply gs_drained; reflexivity|]. eapply rtc_l; [eapply gs_relay; [reflexivity|vm_compute; reflexivity]|].
  eapply rtc_l; [apply gs_close_begin; reflexivity|]. eapply rtc_l; [eapply gs_close_next; [reflexivity|vm_compute; reflexivity]|].
  eapply rtc_l; [apply gs_stopped; vm_compute; reflexivity|]. match goal with |- rtc _ ?a ?b => replace a with b; [apply rtc_refl|vm_compute; reflexivity] end.
Qed.
Lemma gateway_stops_in_order_witness : gr_main ex_gw_stop2 = GStopped /\ sv_listening (gr_srv ex_gw_stop2) = false /\ mg_conns (gr_relay ex_gw_stop2) = ∅.
Proof.
  destruct (gateway_stops_in_order ex_gw_config "" ex_gw ex_gw_stop2) as (_ & _ & H); [reflexivity|split; reflexivity|exact ex_gw_built|exact ex_gw_stop_reach|].
  destruct (H eq_refl) as (H1 & _ & H2). split; [reflexivity|]. split; [exact H1|]. apply H2. reflexivity.
Defined.

(** A target sends five bytes into a window of four. *)
Definition ex_gw_request : gwRun := gr_set_handlers (gw_new ex_gw) 1.
Definition ex_gw_opening : gwRun := gr_set_relay ex_gw_request (open_begin (gr_relay ex_gw_request) "dev" ex_open_req).1 ({[+ "dev" +]} ⊎ ∅).
Definition ex_gw_opened : gwRun :=
  gr_set_relay ex_gw_opening (open_finish (gr_relay ex_gw_opening) (10 * Second) "dev" None (Ok "c_1")).1 (({[+ "dev" +]} ⊎ ∅) ∖ {[+ "dev" +]}).
Definition ex_gw_overflow : gwRun :=
  match reader_turn (gr_relay ex_gw_opened) (10 * Second) "c_1" [x01; x02; x03; x04; x05] ReadOK with
  | Ok m => gr_set_relay ex_gw_opened m (gr_pending ex_gw_opened) | _ => ex_gw_opened end.
Lemma ex_gw_overflow_reach : rtc (gw_step (gateway_limits ex_gw_config)) (gw_new ex_gw) ex_gw_overflow.
Proof.
  eapply rtc_l; [apply gs_request; reflexivity|]. change (gr_set_handlers (gw_new ex_gw) (S (gr_handlers (gw_new ex_gw)))) with ex_gw_request.
  eapply rtc_l; [apply (gs_op _ ex_gw_request true (open_begin (gr_relay ex_gw_request) "dev" ex_open_req).1 ({[+ "dev" +]} ⊎ ∅))|].
  - apply (ro_open_begin _ (gr_relay ex_gw_request) ∅ "dev" ex_open_req). vm_compute. reflexivity.
  - intros _. cbn. lia.
  - apply (bool_decide_unpack _). vm_compute. exact I.
  - eapply rtc_l; [apply (gs_op _ ex_gw_opening true (gr_relay ex_gw_opened) (({[+ "dev" +]} ⊎ ∅) ∖ {[+ "dev" +]}))|].
    + apply (ro_open_finish _ (gr_relay ex_gw_opening) ({[+ "dev" +]} ⊎ ∅) (10 * Second) "dev" None (Ok "c_1")); [|reflexivity|by intros id [= <-]].
      apply gmultiset_elem_of_disj_union. left. by apply gmultiset_elem_of_singleton.
    + intros _. cbn. lia.
    + apply (bool_decide_unpack _). vm_compute. exact I.
    + apply rtc_once. apply (gs_op _ ex_gw_opened false (gr_relay ex_gw_overflow) (gr_pending ex_gw_opened)).
      * apply (ro_reader _ (gr_relay ex_gw_opened) (gr_pending ex_gw_opened) (10 * Second) "c_1" [x01; x02; x03; x04; x05] ReadOK). vm_compute. reflexivity.
      * intros E. discriminate E.
      * apply (bool_decide_unpack _). vm_compute. exact I.
Qed.
Lemma gateway_hangs_witness : gr_main (gw_signal ex_gw_overflow) <> GStopped /\ sv_stage (gr_srv (gw_signal ex_gw_overflow)) = SServing.
Proof.
  apply (gateway_hangs ex_gw_config "" ex_gw ex_gw_overflow _ "c_1"); [reflexivity|exact ex_gw_built|exact ex_gw_overflow_reach| |apply (bool_decide_unpack _); vm_compute; exact I|apply rtc_once, gs_signal].
  eexists. split; [vm_compute; reflexivity|reflexivity].
Defined.
