(* ===== verification/TransitMain.v ===== *)
(** * The transit program ([cmd/transit/main.go], [internal/transit/metrics.go])

    [main] loads the configuration, makes the logger and the proxy with its metrics, runs the proxy
    until a signal or an error and turns the result into the exit code. The configuration and the
    lanes are those of the file Transit, the proxy's run that of TransitRun. The logging library and
    the registration of metrics are arguments. *)

From S2P Require Import Prelude Ownership GoString Transit TransitTCP TransitRun Certs Gateway.

(** ** Metrics *)

Inductive vecKind := GaugeVec | CounterVec.
Record metricVec := mkVec { mv_kind : vecKind; mv_Name : string; mv_labels : list string }.
#[global] Instance vecKind_eq_dec : EqDecision vecKind.
Proof. solve_decision. Defined.
#[global] Instance metricVec_eq_dec : EqDecision metricVec.
Proof. solve_decision. Defined.

(** The struct [Metrics]; the registry is what [MustRegister] makes of it. *)
Record transitMetrics := mkTransitMetrics {
  tm_ActiveTCPConns : metricVec; tm_ActiveUDPSessions : metricVec; tm_BytesIn : metricVec; tm_BytesOut : metricVec; tm_PacketsIn : metricVec;
  tm_PacketsOut : metricVec; tm_AcceptErrors : metricVec; tm_DialFailures : metricVec; tm_SessionsOpened : metricVec; tm_SessionsClosed : metricVec }.

Definition transit_vecs : transitMetrics := {|
  tm_ActiveTCPConns := mkVec GaugeVec "vlf_transit_active_tcp_conns" ["lane"];
  tm_ActiveUDPSessions := mkVec GaugeVec "vlf_transit_active_udp_sessions" ["lane"];
  tm_BytesIn := mkVec CounterVec "vlf_transit_bytes_in_total" ["lane"];
  tm_BytesOut := mkVec CounterVec "vlf_transit_bytes_out_total" ["lane"];
  tm_PacketsIn := mkVec CounterVec "vlf_transit_packets_in_total" ["lane"];
  tm_PacketsOut := mkVec CounterVec "vlf_transit_packets_out_total" ["lane"];
  tm_AcceptErrors := mkVec CounterVec "vlf_transit_accept_errors_total" ["lane"];
  tm_DialFailures := mkVec CounterVec "vlf_transit_dial_failures_total" ["lane"];
  tm_SessionsOpened := mkVec CounterVec "vlf_transit_sessions_opened_total" ["lane"];
  tm_SessionsClosed := mkVec CounterVec "vlf_transit_sessions_closed_total" ["lane"; "reason"] |}.

(** The arguments of [MustRegister], in order. *)
Definition transit_registered (m : transitMetrics) : list metricVec :=
  [ tm_ActiveTCPConns m; tm_ActiveUDPSessions m; tm_BytesIn m; tm_BytesOut m; tm_PacketsIn m; tm_PacketsOut m;
    tm_AcceptErrors m; tm_DialFailures m; tm_SessionsOpened m; tm_SessionsClosed m ].

(** The field and the arguments of [WithLabelValues] at the places where the proxy counts. *)
Definition series (k : tmetric) : metricVec * list string :=
  match k with
  | ActiveTCPConns lane => (tm_ActiveTCPConns transit_vecs, [lane])
  | ActiveUDPSessions lane => (tm_ActiveUDPSessions transit_vecs, [lane])
  | TBytesIn lane => (tm_BytesIn transit_vecs, [lane])
  | TBytesOut lane => (tm_BytesOut transit_vecs, [lane])
  | PacketsIn lane => (tm_PacketsIn transit_vecs, [lane])
  | PacketsOut lane => (tm_PacketsOut transit_vecs, [lane])
  | AcceptErrors lane => (tm_AcceptErrors transit_vecs, [lane])
  | DialFailures lane => (tm_DialFailures transit_vecs, [lane])
  | SessionsOpened lane => (tm_SessionsOpened transit_vecs, [lane])
  | SessionsClosed lane reason => (tm_SessionsClosed transit_vecs, [lane; reason])
  end.

(** What the registration needs: names of letters, digits, underscores and colons that do not begin
    with a digit, label names without colons and not reserved, and no name twice. *)
Definition is_name_byte (colon first : bool) (b : byte) : bool :=
  let z := bz b in
  ((97 <=? z) && (z <=? 122)) || ((65 <=? z) && (z <=? 90)) || (z =? 95) || (colon && (z =? 58)) || (negb first && (48 <=? z) && (z <=? 57)).
Definition valid_name (colon : bool) (s : string) : bool :=
  match bytes_of_string s with
  | [] => false
  | b :: l => is_name_byte colon true b && forallb (is_name_byte colon false) l
  end.
Definition valid_vec (v : metricVec) : bool :=
  valid_name true (mv_Name v) && forallb (fun l => valid_name false l && negb (String.prefix "__" l)) (mv_labels v) && bool_decide (NoDup (mv_labels v)).
Definition registrable (l : list metricVec) : Prop := Forall (fun v => valid_vec v = true) l /\ NoDup (mv_Name <$> l).

(** ** [main] *)

(** Where [main] is before [proxy.Run], or where it ended with the exit code 1. *)
Inductive transitBoot := BootExit (line : string) (e : goerr) | BootPanic (msg : string) | BootRun (cfg : TransitConfig) (r : run).

Section Main.
  Context {Level Logger Registry : Type} (InfoLevel : Level) (UnmarshalText : Level -> string -> res Level) (Build : zapConfig Level -> res Logger).
  Context (ReadFile : string -> res (list byte)) (Unmarshal : list byte -> TransitConfig -> res TransitConfig).
  Context (MustRegister : list metricVec -> res Registry).

Definition transit_newLogger (level : string) : res Logger :=
  zapLevel ← UnmarshalText InfoLevel level;
  Build (mkZapConfig zapLevel false "json"
           [("TimeKey", "ts"); ("LevelKey", "level"); ("NameKey", "logger"); ("CallerKey", "caller"); ("MessageKey", "msg"); ("StacktraceKey", "stacktrace")]
           ["stdout"] ["stderr"]).

(** [NewMetrics]: the registration, then every series is zero. *)
Definition transit_NewMetrics : res (transitMetrics * Registry * tmetrics) :=
  reg ← MustRegister (transit_registered transit_vecs);
  mret (transit_vecs, reg, fun _ => 0).

Definition transit_boot (cfgPath : string) : transitBoot :=
  match transit_Load ReadFile Unmarshal cfgPath with
  | Err e => BootExit "load transit config" e
  | Panic s => BootPanic s
  | Ok cfg =>
      match transit_newLogger (tc_LogLevel cfg) with
      | Err e => BootExit "create logger" e
      | Panic s => BootPanic s
      | Ok _ =>
          match transit_NewMetrics with
          | Ok (_, _, m) => BootRun cfg (newRun m)
          | Err e => BootPanic (err_text e)
          | Panic s => BootPanic s
          end
      end
  end.
End Main.

(** The rest of [main]: the exit code. *)
Definition transit_exit (err : option goerr) : Z := match err with Some _ => 1 | None => 0 end.

(** One run of the program from [BootRun]: the lanes are started with [results]; the state [r2] in
    which the shutdown has returned; [got] is what the [select] received, in the state [rs]. *)
Record transit_ran (cfg : TransitConfig) (r0 : run) (results : list (Z * laneResult)) (started got shutdownErr : option goerr) (r2 : run) : Prop := mkTransitRan {
  tn_results : length results = length (start_lanes cfg) /\ NoDup results.*1;
  tn_run : exists r1 rs, start r0 (start_lanes cfg) results = (r1, started) /\ rtc (run_step anyone) r1 rs /\ rtc (run_step anyone) rs r2
             /\ (started = None -> select_ready rs got);
  tn_returned : rn_stage r2 = Returned shutdownErr }.
Definition transit_code (cfg : TransitConfig) (started got shutdownErr : option goerr) : Z :=
  transit_exit (Run_end started (ShutdownTimeout (tc_Timeouts cfg)) got shutdownErr).2.

(** ** Lemmas *)

Lemma transit_registrable : registrable (transit_registered transit_vecs).
Proof.
  split; [repeat (constructor; [vm_compute; reflexivity|]); constructor|]. apply (bool_decide_unpack _). vm_compute. exact I.
Qed.

Lemma transit_boot_run {Level Logger Registry} (InfoLevel : Level) UnmarshalText (Build : zapConfig Level -> res Logger) ReadFile Unmarshal
    (MustRegister : list metricVec -> res Registry) path cfg r :
  transit_boot InfoLevel UnmarshalText Build ReadFile Unmarshal MustRegister path = BootRun cfg r ->
  transit_Load ReadFile Unmarshal path = Ok cfg /\ r = newRun (fun _ => 0).
Proof.
  unfold transit_boot, transit_NewMetrics. destruct (transit_Load _ _ _) as [c|e|s]; [|done..]. destruct (transit_newLogger _ _ _ _) as [l|e|s]; [|done..].
  destruct (MustRegister _) as [g|e|s]; [|done..]. cbn. by intros [= -> <-].
Qed.

(** The context stays cancelled. *)
Lemma ctx_step ok r r' : run_step ok r r' -> rn_ctx r = true -> rn_ctx r' = true.
Proof.
  intros Hs Hc. destruct Hs; cbn; try done; unfold accept_turn, lane_read_error, metrics_return, handler_begin, shutdown_sockets, shutdown_range, shutdown_wait in *;
    repeat case_match; simplify_eq; done.
Qed.

(** A shutdown with a deadline ends. *)
Lemma shutdown_deadline ok r e : rn_stage r = Serving -> exists r', rtc (run_step ok) r r' /\ rn_stage r' = Returned (Some e).
Proof.
  intros Hs. set (r1 := shutdown_range (shutdown_sockets r)). assert (H1 : rn_stage r1 = Waiting) by (unfold r1, shutdown_range, shutdown_sockets; by rewrite Hs).
  exists (with_stage r1 (rn_px r1) (rn_sockets r1) (Returned (Some e))). split; [|done].
  eapply rtc_l; [apply rs_sockets|]. eapply rtc_l; [apply rs_range|]. eapply rtc_l; [|apply rtc_refl]. apply (rs_wait ok _ (Some e)). fold r1. unfold shutdown_wait. by rewrite H1.
Qed.

(** ** Theorems *)

(** the metrics of the transit node are sound: if the registry takes metrics with valid names that
    differ, as its documentation says, [NewMetrics] does not panic; every place that counts gives its
    metric as many label values as it has labels, so that it does not panic either; and two places
    that the model tells apart never count in the same series. *)
Theorem transit_metrics_sound {Registry} (MustRegister : list metricVec -> res Registry)
    (register_ok : forall l, registrable l -> exists reg, MustRegister l = Ok reg) :
  (exists reg, transit_NewMetrics MustRegister = Ok (transit_vecs, reg, fun _ => 0))
  /\ (forall k, (series k).1 ∈ transit_registered transit_vecs /\ length (series k).2 = length (mv_labels (series k).1))
  /\ (forall k k', mv_Name (series k).1 = mv_Name (series k').1 -> (series k).2 = (series k').2 -> k = k').
Proof.
  split_and!.
  - destruct (register_ok _ transit_registrable) as [reg E]. exists reg. unfold transit_NewMetrics. by rewrite E.
  - intros k. split; [|by destruct k]. apply (bool_decide_unpack _). destruct k; vm_compute; exact I.
  - intros k k'. destruct k, k'; cbn; intros E1 E2; simplify_eq; done.
Qed.


(** ** Examples *)

Definition ex_register (l : list metricVec) : res nat :=
  if forallb valid_vec l && bool_decide (NoDup (mv_Name <$> l)) then Ok (length l) else Panic "duplicate metrics collector registration attempted".
Lemma ex_register_ok l : registrable l -> exists reg, ex_register l = Ok reg.
Proof.
  intros [Hv Hn]. unfold ex_register. rewrite bool_decide_eq_true_2 by done. replace (forallb valid_vec l) with true; [cbn; eauto|].
  symmetry. apply forallb_forall. intros v Hin. by eapply List.Forall_forall in Hv.
Qed.
Lemma transit_metrics_sound_witness : transit_NewMetrics ex_register = Ok (transit_vecs, 10%nat, fun _ => 0).
Proof.
  destruct (proj1 (transit_metrics_sound ex_register ex_register_ok)) as [reg E]. vm_compute in E. injection E as <-. vm_compute. reflexivity.
Defined.

Definition ex_transit_boot : transitBoot :=
  transit_boot 0 (fun _ t => if String.eqb t "info" then Ok 0 else Err (ENew "unrecognized level")) (fun c => Ok (zc_Level _ c))
    (fun _ => Ok []) (fun _ c => Ok c) ex_register "config.yaml".
Definition ex_transit_results : list (Z * laneResult) := imap (fun i _ => (Z.of_nat i, lane_ok)) (start_lanes DefaultConfig).
Definition ex_transit_up : run := (start (newRun (fun _ => 0)) (start_lanes DefaultConfig) ex_transit_results).1.

(** A signal, the shutdown, and the five goroutines end. *)
Definition ex_cancel (r : run) : run :=
  mkRun (rn_px r) (rn_services r) (rn_sockets r) (rn_registered r) (rn_accepted r) (rn_wg r) true (rn_errCh r) (rn_stage r).
Definition ex_transit_quiet : run :=
  let r := shutdown_range (shutdown_sockets (ex_cancel ex_transit_up)) in
  let r := lane_read_error (accept_turn r 0 (inr ENetClosed)) 1 ENetClosed in
  metrics_return (accept_turn (lane_read_error r 2 ENetClosed) 3 (inr ENetClosed)) 4 ErrHTTPClosed.
Definition ex_transit_down : run := with_stage ex_transit_quiet (rn_px ex_transit_quiet) (rn_sockets ex_transit_quiet) (Returned None).
Lemma ex_transit_down_reach : rtc (run_step anyone) (ex_cancel ex_transit_up) ex_transit_down.
Proof.
  eapply rtc_r; [|apply (rs_wait anyone ex_transit_quiet None); vm_compute; reflexivity]. unfold ex_transit_quiet.
  eapply rtc_l; [apply rs_sockets|]. eapply rtc_l; [apply rs_range|]. eapply rtc_l; [apply (rs_accept anyone _ 0 (inr ENetClosed)); discriminate|].
  eapply rtc_l; [apply (rs_lane anyone _ 1 ENetClosed)|]. eapply rtc_l; [apply (rs_lane anyone _ 2 ENetClosed)|].
  eapply rtc_l; [apply (rs_accept anyone _ 3 (inr ENetClosed)); discriminate|]. apply rtc_once, rs_metrics.
Qed.
Lemma ex_transit_ran : transit_ran DefaultConfig (newRun (fun _ => 0)) ex_transit_results None None None ex_transit_down.
Proof.
  split; [split; [reflexivity|apply (bool_decide_unpack _); vm_compute; exact I]| |reflexivity].
  exists ex_transit_up, (ex_cancel ex_transit_up). split_and!; [vm_compute; reflexivity|apply rtc_once, rs_cancel|exact ex_transit_down_reach|done].
Qed.
