(* ===== verification/SocksPolicy.v ===== *)
(** * The SOCKS5 client: the transport policy ([policyController] of [cmd/socks_client/main.go])

    The controller chooses the mode in which sessions are dialled, counts the flows and limits how
    fast new ones are opened when the round trip times are high. Every method holds the lock of the
    controller for its state changes, so that a method is one step, or one step for each time it
    takes the lock. Durations in seconds, rates and round trip times are [float64]: IEEE 754
    doubles, computed with the specification of floating point of the Standard Library. The order
    in which Go walks a map is an argument. *)

From Stdlib Require Import Floats.SpecFloat Sorted.
From stdpp Require Import sorting.
From S2P Require Import Prelude GoString ClientConfig Client.

(** ** Floating point *)

Definition float64 (z : Z) : spec_float := binary_normalize 53 1024 z 0 false.
Definition f_add : spec_float -> spec_float -> spec_float := SFadd 53 1024.
Definition f_sub : spec_float -> spec_float -> spec_float := SFsub 53 1024.
Definition f_mul : spec_float -> spec_float -> spec_float := SFmul 53 1024.
Definition f_div : spec_float -> spec_float -> spec_float := SFdiv 53 1024.
Definition f_ltb : spec_float -> spec_float -> bool := SFltb.
Definition f_leb : spec_float -> spec_float -> bool := SFleb.
(** [int(x)], towards zero. *)
Definition f_int (x : spec_float) : Z :=
  match x with
  | S754_finite s m e => let v := Z.shiftl (Zpos m) e in if s then - v else v
  | _ => 0
  end.
(** [Duration.Seconds]. *)
Definition Seconds (d : Z) : spec_float := f_add (float64 (Z.quot d Second)) (f_div (float64 (Z.rem d Second)) (float64 1000000000)).
Definition Microseconds (d : Z) : Z := Z.quot d 1000.

(** ** Constants and data *)

Definition fastFlowDurationThreshold : Z := 10 * Second.
Definition fastDownloadThreshold : Z := 64 * 1024 * 1024.
Definition fastDownrateThresholdMbps : spec_float := float64 20.
Definition fastDownrateWindow : Z := 5 * Second.
Definition failureWindowDuration : Z := 30 * Second.
Definition quicFailureThreshold : Z := 3.
Definition transportErrorThreshold : Z := 8.
Definition survivalRecoveryMinDelay : Z := 60 * Second.
Definition statsPrintInterval : Z := 10 * Second.
Definition capRTTHighMs : spec_float := float64 250.
Definition capRTTLowMs : spec_float := float64 150.
Definition capEnableConsecutive : Z := 2.
Definition capDisableConsecutive : Z := 3.
Definition capMaxNewFlowsPerSecond : Z := 2.
Definition capActiveFlowsMargin : Z := 4.

Inductive clientMode := modeAuto | modeNormal | modeFast | modeSurvival.
#[global] Instance clientMode_eq_dec : EqDecision clientMode.
Proof. solve_decision. Defined.

Inductive statsFormat := statsFormatText | statsFormatJSON.

Record flowState := mkFlowState {
  fs_id : Z; startedAt : Z; fs_transport : Transport; fs_client : option Z;
  fs_upBytes : Z; fs_downBytes : Z; downSamples : list (Z * Z) }.

Record capState := mkCapState { MaxNewFlowsPerSec : Z; MaxActiveFlows : Z }.

(** The fields of the controller that limit new flows. *)
Record capFields := mkCaps {
  capEnabled : bool; capMaxNewPerSec : Z; capMaxActiveFlows : Z; capOpenedThisSec : Z; capWindowSec : Z;
  highRTTTicks : Z; lowRTTTicks : Z }.
Definition caps0 : capFields := mkCaps false 0 0 0 0 0 0.

Record policyController := mkPolicy {
  baseCfg : ClientConfig; configured : clientMode; currentMode : clientMode; nextFlowID : Z;
  flows : gmap Z flowState; lastTransport : option Transport; switches : Z;
  quicFailTimes : list Z; errorSpikeTime : list Z; survivalSince : option Z; survivalUntil : option Z;
  rttSamples : list (Z * spec_float); lastStatsAt : Z; lastStatsUp : Z; lastStatsDown : Z;
  caps : capFields; pendingPermits : Z; totalUpBytes : Z; totalDownBytes : Z }.

Definition parseMode (raw : string) : res clientMode :=
  let m := ToLower (TrimSpace raw) in
  if String.eqb m "auto" then Ok modeAuto
  else if String.eqb m "normal" then Ok modeNormal
  else if String.eqb m "fast" then Ok modeFast
  else if String.eqb m "survival" then Ok modeSurvival
  else Err (ENew "allowed: auto|normal|fast|survival").
Definition parseStatsFormat (raw : string) : res statsFormat :=
  let m := ToLower (TrimSpace raw) in
  if String.eqb m "text" then Ok statsFormatText
  else if String.eqb m "json" then Ok statsFormatJSON
  else Err (ENew "allowed: text|json").

Definition newPolicyController (cfg : ClientConfig) (mode : clientMode) (now : Z) : policyController :=
  mkPolicy cfg mode (if bool_decide (mode = modeAuto) then modeNormal else mode) 0 ∅ None 0 [] [] None None [] now 0 0 caps0 0 0 0.

(** ** Setters *)

Definition set_mode (p : policyController) (m : clientMode) (sw : Z) (since until : option Z) : policyController :=
  mkPolicy (baseCfg p) (configured p) m (nextFlowID p) (flows p) (lastTransport p) sw (quicFailTimes p) (errorSpikeTime p)
    since until (rttSamples p) (lastStatsAt p) (lastStatsUp p) (lastStatsDown p) (caps p) (pendingPermits p) (totalUpBytes p) (totalDownBytes p).
Definition set_flows (p : policyController) (next : Z) (fl : gmap Z flowState) (lt : option Transport) (sw pending : Z) : policyController :=
  mkPolicy (baseCfg p) (configured p) (currentMode p) next fl lt sw (quicFailTimes p) (errorSpikeTime p)
    (survivalSince p) (survivalUntil p) (rttSamples p) (lastStatsAt p) (lastStatsUp p) (lastStatsDown p) (caps p) pending (totalUpBytes p) (totalDownBytes p).
Definition set_times (p : policyController) (quic errs : list Z) : policyController :=
  mkPolicy (baseCfg p) (configured p) (currentMode p) (nextFlowID p) (flows p) (lastTransport p) (switches p) quic errs
    (survivalSince p) (survivalUntil p) (rttSamples p) (lastStatsAt p) (lastStatsUp p) (lastStatsDown p) (caps p) (pendingPermits p) (totalUpBytes p) (totalDownBytes p).
Definition set_permits (p : policyController) (c : capFields) (pending : Z) : policyController :=
  mkPolicy (baseCfg p) (configured p) (currentMode p) (nextFlowID p) (flows p) (lastTransport p) (switches p) (quicFailTimes p) (errorSpikeTime p)
    (survivalSince p) (survivalUntil p) (rttSamples p) (lastStatsAt p) (lastStatsUp p) (lastStatsDown p) c pending (totalUpBytes p) (totalDownBytes p).
Definition set_rtt (p : policyController) (samples : list (Z * spec_float)) : policyController :=
  mkPolicy (baseCfg p) (configured p) (currentMode p) (nextFlowID p) (flows p) (lastTransport p) (switches p) (quicFailTimes p) (errorSpikeTime p)
    (survivalSince p) (survivalUntil p) samples (lastStatsAt p) (lastStatsUp p) (lastStatsDown p) (caps p) (pendingPermits p) (totalUpBytes p) (totalDownBytes p).
Definition set_stats (p : policyController) (at_ up down : Z) : policyController :=
  mkPolicy (baseCfg p) (configured p) (currentMode p) (nextFlowID p) (flows p) (lastTransport p) (switches p) (quicFailTimes p) (errorSpikeTime p)
    (survivalSince p) (survivalUntil p) (rttSamples p) at_ up down (caps p) (pendingPermits p) (totalUpBytes p) (totalDownBytes p).
Definition set_totals (p : policyController) (fl : gmap Z flowState) (up down : Z) : policyController :=
  mkPolicy (baseCfg p) (configured p) (currentMode p) (nextFlowID p) fl (lastTransport p) (switches p) (quicFailTimes p) (errorSpikeTime p)
    (survivalSince p) (survivalUntil p) (rttSamples p) (lastStatsAt p) (lastStatsUp p) (lastStatsDown p) (caps p) (pendingPermits p) up down.

(** ** The configuration of a dial *)

Definition set_transports (c : ClientConfig) (quicTimeout : Z) (prefer disQUIC disTCP relay : bool) : ClientConfig :=
  mkClientConfig (GatewayHost c) (GatewayDialHost c) (GatewayUDP c) (GatewayTCP c) (RelayBase c) (cc_ClientID c) (cc_Secret c)
    (ProtoID c) (ProtoIDs c) (PinSPKI c) (TLSServerName c) (cc_MaxDgramPayload c) quicTimeout (TCPTimeout c)
    prefer disQUIC disTCP relay (ForceIPv4 c) (cc_Debug c).

Definition maxDuration2 (a b : Z) : Z := if b <? a then a else b.

Definition configForMode (c : ClientConfig) (mode : clientMode) : ClientConfig :=
  match mode with
  | modeNormal => set_transports c (QUICTimeout c) true (DisableQUIC c) (DisableTCPSession c) (AllowRelay c)
  | modeFast => set_transports c (maxDuration2 (QUICTimeout c) (2200 * Millisecond)) true (DisableQUIC c) (DisableTCPSession c) (AllowRelay c)
  | modeSurvival =>
      set_transports c (QUICTimeout c) false
        (if negb (DisableTCPSession c) || AllowRelay c then true else DisableQUIC c) (DisableTCPSession c) (AllowRelay c)
  | modeAuto => c
  end.
Definition dialConfig (p : policyController) : ClientConfig * clientMode := (configForMode (baseCfg p) (currentMode p), currentMode p).
Definition dialConfigUDP (p : policyController) : ClientConfig * clientMode :=
  let '(cfg, mode) := dialConfig p in (set_transports cfg (QUICTimeout cfg) true false true false, mode).

(** ** Failures and the mode *)

(** The items before the first one that is not older than the cutoff are dropped. *)
Fixpoint pruneTimes (items : list Z) (cutoff : Z) : list Z :=
  match items with
  | [] => []
  | t :: tl => if t <? cutoff then pruneTimes tl cutoff else items
  end.

Definition switchMode (p : policyController) (now : Z) (next : clientMode) : policyController :=
  if bool_decide (currentMode p = next) then p
  else if bool_decide (next = modeSurvival)
  then set_mode p next (switches p + 1) (Some now) (Some (now + survivalRecoveryMinDelay))
  else set_mode p next (switches p + 1) (survivalSince p) (survivalUntil p).

(** The first critical section of [recordQUICFailure]; the mode to switch to afterwards. *)
Definition recordQUICFailure_locked (p : policyController) (now : Z) : policyController * option clientMode :=
  let times := pruneTimes (quicFailTimes p ++ [now]) (now - failureWindowDuration) in
  (set_times p times (errorSpikeTime p),
   if bool_decide (configured p = modeAuto) && negb (bool_decide (currentMode p = modeSurvival)) && (quicFailureThreshold <=? zlen times)
   then Some modeSurvival else None).
Definition recordTransportError_locked (p : policyController) (now : Z) : policyController * option clientMode :=
  let times := pruneTimes (errorSpikeTime p ++ [now]) (now - failureWindowDuration) in
  (set_times p (quicFailTimes p) times,
   if bool_decide (configured p = modeAuto) && negb (bool_decide (currentMode p = modeSurvival)) && (transportErrorThreshold <=? zlen times)
   then Some modeSurvival else None).
Definition switch_to (now : Z) (r : policyController * option clientMode) : policyController :=
  match r with
  | (p, Some m) => switchMode p now m
  | (p, None) => p
  end.
Definition recordQUICFailure (p : policyController) (now : Z) : policyController := switch_to now (recordQUICFailure_locked p now).
Definition recordTransportError (p : policyController) (now : Z) : policyController := switch_to now (recordTransportError_locked p now).

Definition onDialSuccess (p : policyController) (now : Z) (mode : clientMode) (cfg : ClientConfig) (t : Transport) : policyController :=
  if bool_decide (mode = modeSurvival) then p
  else if negb (DisableQUIC cfg) && PreferQUIC cfg && negb (bool_decide (t = TransportQUIC)) then recordQUICFailure p now
  else p.
(** [de]: the error is a [DialError] with a QUIC error. *)
Definition onDialError (p : policyController) (now : Z) (cfg : ClientConfig) (de : option DialError) : policyController :=
  let quic := match de with Some de => bool_decide (is_Some (QUICErr de)) | None => false end in
  let p := if quic && negb (DisableQUIC cfg) then recordQUICFailure p now else p in
  recordTransportError p now.
Definition onTransportError (p : policyController) (now : Z) : policyController := recordTransportError p now.

(** ** Flows and permits *)

Definition registerFlow (p : policyController) (now : Z) (client : option Z) (t : Transport) : policyController * Z :=
  let pending := if 0 <? pendingPermits p then pendingPermits p - 1 else pendingPermits p in
  let id := u64 (nextFlowID p + 1) in
  let fs := mkFlowState id now t client 0 0 [] in
  let sw := match lastTransport p with
            | None => switches p
            | Some last => if bool_decide (last = t) then switches p else switches p + 1
            end in
  (set_flows p id (<[id := fs]> (flows p)) (Some t) sw pending, id).
Definition unregisterFlow (p : policyController) (id : Z) : policyController :=
  set_flows p (nextFlowID p) (delete id (flows p)) (lastTransport p) (switches p) (pendingPermits p).

Definition Unix (now : Z) : Z := now / Second.

Definition active (p : policyController) : Z := Z.of_nat (size (flows p)) + pendingPermits p.

(** One round of the loop of [acquireFlowPermit]; without a permit the caller sleeps and tries
    again, until its context is done. *)
Definition acquireFlowPermit (p : policyController) (now : Z) : policyController * bool :=
  let c := caps p in
  if negb (bool_decide (configured p = modeAuto)) || negb (capEnabled c) then (set_permits p c (pendingPermits p + 1), true)
  else
    let c := if negb (Unix now =? capWindowSec c)
             then mkCaps (capEnabled c) (capMaxNewPerSec c) (capMaxActiveFlows c) 0 (Unix now) (highRTTTicks c) (lowRTTTicks c)
             else c in
    if (active p <? capMaxActiveFlows c) && (capOpenedThisSec c <? capMaxNewPerSec c)
    then (set_permits p (mkCaps (capEnabled c) (capMaxNewPerSec c) (capMaxActiveFlows c) (capOpenedThisSec c + 1) (capWindowSec c) (highRTTTicks c) (lowRTTTicks c))
            (pendingPermits p + 1), true)
    else (set_permits p c (pendingPermits p), false).
Definition releaseFlowPermit (p : policyController) : policyController :=
  set_permits p (caps p) (if 0 <? pendingPermits p then pendingPermits p - 1 else pendingPermits p).

(** [flowWriter.Write] after the [n] bytes its destination accepted. *)
Definition flowWriter_Write (p : policyController) (id : Z) (up : bool) (n : Z) : policyController :=
  if 0 <? n then
    let fl := alter (fun f => if up
                then mkFlowState (fs_id f) (startedAt f) (fs_transport f) (fs_client f) (fs_upBytes f + n) (fs_downBytes f) (downSamples f)
                else mkFlowState (fs_id f) (startedAt f) (fs_transport f) (fs_client f) (fs_upBytes f) (fs_downBytes f + n) (downSamples f)) id (flows p) in
    if up then set_totals p fl (totalUpBytes p + n) (totalDownBytes p) else set_totals p fl (totalUpBytes p) (totalDownBytes p + n)
  else p.

(** ** The download rate of a flow *)

Definition bytesToMbps (deltaBytes : Z) (secs : spec_float) : spec_float :=
  if (deltaBytes <=? 0) || f_leb secs (float64 0) then float64 0
  else f_div (f_div (f_mul (float64 deltaBytes) (float64 8)) secs) (float64 1000000).

(** The samples before the cutoff are dropped, except the last one. *)
Fixpoint prune_samples (l : list (Z * Z)) (cutoff : Z) : list (Z * Z) :=
  match l with
  | [] => []
  | s :: tl => match tl with
               | [] => l
               | _ :: _ => if s.1 <? cutoff then prune_samples tl cutoff else l
               end
  end.

Definition avgDownrateMbps (f : flowState) (now : Z) : flowState * spec_float :=
  let samples := prune_samples (downSamples f ++ [(now, fs_downBytes f)]) (now - fastDownrateWindow) in
  let f := mkFlowState (fs_id f) (startedAt f) (fs_transport f) (fs_client f) (fs_upBytes f) (fs_downBytes f) samples in
  match samples, last samples with
  | first :: _ :: _, Some lst =>
      let dt := Seconds (time_Sub lst.1 first.1) in
      if f_leb dt (float64 0) then (f, float64 0)
      else if lst.2 - first.2 <=? 0 then (f, float64 0)
      else (f, bytesToMbps (lst.2 - first.2) dt)
  | _, _ => (f, float64 0)
  end.

(** ** The automatic policy *)

Definition put_flow (p : policyController) (id : Z) (f : flowState) : policyController :=
  set_totals p (<[id := f]> (flows p)) (totalUpBytes p) (totalDownBytes p).

(** The loop over the flows, in the order [order]: is there one that calls for the fast mode? *)
Fixpoint wants_fast (p : policyController) (now : Z) (order : list Z) : policyController * bool :=
  match order with
  | [] => (p, false)
  | id :: tl =>
      match flows p !! id with
      | None => wants_fast p now tl
      | Some f =>
          if fastFlowDurationThreshold <=? time_Sub now (startedAt f) then (p, true)
          else if fastDownloadThreshold <=? fs_downBytes f then (p, true)
          else
            let '(f, rate) := avgDownrateMbps f now in
            let p := put_flow p id f in
            if f_leb fastDownrateThresholdMbps rate then (p, true) else wants_fast p now tl
      end
  end.

(** [now.After(t)]; the zero time is before every other. *)
Definition After (now : Z) (t : option Z) : bool := match t with Some t => t <? now | None => true end.

(** What [evaluateAutoPolicy] copies under the lock. *)
Record policyView := mkView { pv_mode : clientMode; pv_quic : Z; pv_errs : Z; pv_until : option Z }.

Definition evaluate_read (p : policyController) (now : Z) : policyController * option policyView :=
  if negb (bool_decide (configured p = modeAuto)) then (p, None)
  else
    let p := set_times p (pruneTimes (quicFailTimes p) (now - failureWindowDuration)) (pruneTimes (errorSpikeTime p) (now - failureWindowDuration)) in
    (p, Some (mkView (currentMode p) (zlen (quicFailTimes p)) (zlen (errorSpikeTime p)) (survivalUntil p))).
(** What it decides from the copy. *)
Definition evaluate_decide (p : policyController) (now : Z) (order : list Z) (v : policyView) : policyController * option clientMode :=
  let survival := bool_decide (pv_mode v = modeSurvival) in
  if negb survival && (quicFailureThreshold <=? pv_quic v) then (p, Some modeSurvival)
  else if negb survival && (transportErrorThreshold <=? pv_errs v) then (p, Some modeSurvival)
  else if survival then
    (p, if After now (pv_until v) && (pv_quic v =? 0) && (pv_errs v =? 0) then Some modeNormal else None)
  else if negb (bool_decide (pv_mode v = modeNormal)) then (p, None)
  else let '(p, fast) := wants_fast p now order in (p, if fast then Some modeFast else None).
Definition evaluateAutoPolicy (p : policyController) (now now' : Z) (order : list Z) : policyController :=
  match evaluate_read p now with
  | (p, None) => p
  | (p, Some v) => switch_to now' (evaluate_decide p now order v)
  end.

(** ** Round trip times *)

Fixpoint prune_rtt (l : list (Z * spec_float)) (cutoff : Z) : list (Z * spec_float) :=
  match l with
  | [] => []
  | s :: tl => if s.1 <? cutoff then prune_rtt tl cutoff else l
  end.
Definition pruneRTTSamplesLocked (p : policyController) (cutoff : Z) : policyController := set_rtt p (prune_rtt (rttSamples p) cutoff).
Definition appendRTTSampleLocked (p : policyController) (at_ : Z) (ms : spec_float) : policyController :=
  if f_leb ms (float64 0) then p
  else pruneRTTSamplesLocked (set_rtt p (rttSamples p ++ [(at_, ms)])) (at_ - 2 * Minute).
Definition collectRTTWindowLocked (p : policyController) (from now : Z) : policyController * list spec_float :=
  let p := pruneRTTSamplesLocked p (now - 2 * Minute) in
  (p, map snd (List.filter (fun s => negb (s.1 <? from)) (rttSamples p))).

(** [sort.Float64s], on numbers. *)
Fixpoint insert_float (x : spec_float) (l : list spec_float) : list spec_float :=
  match l with
  | [] => [x]
  | y :: tl => if f_ltb y x then y :: insert_float x tl else x :: l
  end.
Definition sort_floats (l : list spec_float) : list spec_float := foldr insert_float [] l.

Definition percentile (samples : list spec_float) (pc : spec_float) : spec_float :=
  let cp := sort_floats samples in
  let nth i := nth (Z.to_nat i) cp (float64 0) in
  if zlen samples =? 0 then float64 0
  else if f_leb pc (float64 0) then nth 0
  else if f_leb (float64 100) pc then nth (zlen cp - 1)
  else
    let pos := f_mul (f_div pc (float64 100)) (float64 (zlen cp - 1)) in
    let lo := f_int pos in
    let hi := lo + 1 in
    if zlen cp <=? hi then nth lo
    else
      let frac := f_sub pos (float64 lo) in
      f_add (f_mul (nth lo) (f_sub (float64 1) frac)) (f_mul (nth hi) frac).

Definition updateAdaptiveCap (auto : bool) (c : capFields) (now activeFlows pending : Z) (rttP95 : option spec_float) : capFields :=
  if negb auto then mkCaps false 0 0 0 (capWindowSec c) 0 0
  else match rttP95 with
  | None => mkCaps (capEnabled c) (capMaxNewPerSec c) (capMaxActiveFlows c) (capOpenedThisSec c) (capWindowSec c) 0 0
  | Some value =>
      if f_ltb capRTTHighMs value then
        let high := highRTTTicks c + 1 in
        if negb (capEnabled c) && (capEnableConsecutive <=? high)
        then mkCaps true capMaxNewFlowsPerSecond (activeFlows + pending + capActiveFlowsMargin) 0 (Unix now) high 0
        else mkCaps (capEnabled c) (capMaxNewPerSec c) (capMaxActiveFlows c) (capOpenedThisSec c) (capWindowSec c) high 0
      else if f_ltb value capRTTLowMs then
        let low := lowRTTTicks c + 1 in
        if capEnabled c && (capDisableConsecutive <=? low)
        then mkCaps false 0 0 0 (capWindowSec c) 0 low
        else mkCaps (capEnabled c) (capMaxNewPerSec c) (capMaxActiveFlows c) (capOpenedThisSec c) (capWindowSec c) 0 low
      else mkCaps (capEnabled c) (capMaxNewPerSec c) (capMaxActiveFlows c) (capOpenedThisSec c) (capWindowSec c) 0 0
  end.
Definition capSnapshot (c : capFields) : option capState :=
  if negb (capEnabled c) || (capMaxNewPerSec c <=? 0) || (capMaxActiveFlows c <=? 0) then None
  else Some (mkCapState (capMaxNewPerSec c) (capMaxActiveFlows c)).

(** What a line of statistics says; the text of the line is not modelled. *)
Record statsPayload := mkStats {
  st_configured : clientMode; st_mode : clientMode; st_transport : option Transport; st_active : Z;
  st_mbpsUp : spec_float; st_mbpsDown : spec_float; st_mbpsTotal : spec_float; st_bytesUp : Z; st_bytesDown : Z;
  st_rtt50 : option spec_float; st_rtt95 : option spec_float; st_switches : Z; st_caps : option capState }.

Definition printStats (p : policyController) (now : Z) : policyController * option statsPayload :=
  if time_Sub now (lastStatsAt p) <? statsPrintInterval then (p, None)
  else
    let prevAt := lastStatsAt p in let prevUp := lastStatsUp p in let prevDown := lastStatsDown p in
    let '(p, rttWindow) := collectRTTWindowLocked p prevAt now in
    let pct x := if 0 <? zlen rttWindow then Some (percentile rttWindow (float64 x)) else None in
    let p := set_permits p (updateAdaptiveCap (bool_decide (configured p = modeAuto)) (caps p) now (Z.of_nat (size (flows p))) (pendingPermits p) (pct 95)) (pendingPermits p) in
    let p := set_stats p now (totalUpBytes p) (totalDownBytes p) in
    let s := Seconds (time_Sub now prevAt) in
    let windowSec := if f_leb s (float64 0) then Seconds statsPrintInterval else s in
    let upMbps := bytesToMbps (totalUpBytes p - prevUp) windowSec in
    let downMbps := bytesToMbps (totalDownBytes p - prevDown) windowSec in
    (p, Some (mkStats (configured p) (currentMode p) (lastTransport p) (Z.of_nat (size (flows p))) upMbps downMbps (f_add upMbps downMbps)
                (totalUpBytes p) (totalDownBytes p) (pct 50) (pct 95) (switches p) (capSnapshot (caps p)))).

(** ** Probes *)

(** [strings.Contains]. *)
Definition Contains (s sub : string) : bool := match String.index 0 sub s with Some _ => true | None => false end.

Definition isExpectedPipeErr (e : option goerr) : bool :=
  match e with
  | None => true
  | Some e =>
      if err_is e EEOF || err_is e ENetClosed || err_is e ECanceled then true
      else
        let msg := ToLower (err_text e) in
        String.eqb msg "use of closed network connection" || String.eqb msg "eof" || Contains msg "connection reset by peer"
        || Contains msg "forcibly closed by the remote host" || Contains msg "broken pipe"
  end.
Definition isExpectedProbeErr (e : option goerr) : bool :=
  if isExpectedPipeErr e then true
  else match e with
  | None => true
  | Some e =>
      if err_is e ECanceled then true
      else let msg := ToLower (err_text e) in Contains msg "application error 0x0" || Contains msg "stream reset"
  end.

(** The first flow, in the order [order], on the last transport, or else the first with a client. *)
Definition pickProbeClient (p : policyController) (order : list Z) : option (Z * Transport) :=
  let cands := omap (fun id => f ← flows p !! id; c ← fs_client f; Some (c, fs_transport f)) order in
  match List.find (fun ct => bool_decide (Some ct.2 = lastTransport p)) cands with
  | Some ct => Some ct
  | None => head cands
  end.

Definition ErrRTTProbeUnsupported : goerr := ESentinel "rtt probe unsupported for current transport".

Definition probeRTT (p : policyController) (now now' : Z) (order : list Z) (probe : Z -> res Z) : policyController :=
  match pickProbeClient p order with
  | None => p
  | Some (c, _) =>
      match probe c with
      | Ok rtt => appendRTTSampleLocked p now (f_div (float64 (Microseconds rtt)) (float64 1000))
      | Err e =>
          if err_is e ErrRTTProbeUnsupported || isExpectedProbeErr (Some e) then p else recordTransportError p now'
      | Panic _ => p
      end
  end.

(** One tick of [policyController.loop]. *)
Definition loop_tick (p : policyController) (now now1 now2 : Z) (order1 order2 : list Z) (probe : Z -> res Z) : policyController * option statsPayload :=
  printStats (evaluateAutoPolicy (probeRTT p now now1 order1 probe) now now2 order2) now.

Example percentile_ex :
  percentile (map float64 [300; 100; 200; 400]) (float64 50) = float64 250.
Proof. vm_compute. reflexivity. Qed.
Example seconds_ex : Seconds 2500000000 = f_div (float64 5) (float64 2).
Proof. vm_compute. reflexivity. Qed.

(** ** Steps

    The controller with the decisions that were taken under the lock and not carried out yet, and
    the number of permits that are held. *)

Inductive policyTask := TSwitch (m : clientMode) | TView (v : policyView).
Record psys := mkPsys { ps_p : policyController; ps_todo : list policyTask; ps_held : Z }.

Definition tasks_of (m : option clientMode) : list policyTask := match m with Some m => [TSwitch m] | None => [] end.

Inductive policy_step : psys -> psys -> Prop :=
| pos_quic p todo n now :
    policy_step (mkPsys p todo n) (mkPsys (recordQUICFailure_locked p now).1 (todo ++ tasks_of (recordQUICFailure_locked p now).2) n)
| pos_error p todo n now :
    policy_step (mkPsys p todo n) (mkPsys (recordTransportError_locked p now).1 (todo ++ tasks_of (recordTransportError_locked p now).2) n)
| pos_switch p l1 m l2 n now :
    policy_step (mkPsys p (l1 ++ TSwitch m :: l2) n) (mkPsys (switchMode p now m) (l1 ++ l2) n)
| pos_read p todo n now :
    policy_step (mkPsys p todo n) (mkPsys (evaluate_read p now).1 (todo ++ match (evaluate_read p now).2 with Some v => [TView v] | None => [] end) n)
| pos_decide p l1 v l2 n now order :
    policy_step (mkPsys p (l1 ++ TView v :: l2) n) (mkPsys (evaluate_decide p now order v).1 (l1 ++ tasks_of (evaluate_decide p now order v).2 ++ l2) n)
| pos_rtt p todo n at_ ms : policy_step (mkPsys p todo n) (mkPsys (appendRTTSampleLocked p at_ ms) todo n)
| pos_stats p todo n now : policy_step (mkPsys p todo n) (mkPsys (printStats p now).1 todo n)
| pos_acquire p todo n now :
    policy_step (mkPsys p todo n) (mkPsys (acquireFlowPermit p now).1 todo (if (acquireFlowPermit p now).2 then n + 1 else n))
| pos_release p todo n : 0 < n -> policy_step (mkPsys p todo n) (mkPsys (releaseFlowPermit p) todo (n - 1))
| pos_register p todo n now c t : 0 < n -> policy_step (mkPsys p todo n) (mkPsys (registerFlow p now c t).1 todo (n - 1))
| pos_unregister p todo n id : policy_step (mkPsys p todo n) (mkPsys (unregisterFlow p id) todo n)
| pos_write p todo n id up k : policy_step (mkPsys p todo n) (mkPsys (flowWriter_Write p id up k) todo n).

(** ** Lemmas *)

(** The methods that leave the mode, the flows and the limits alone. *)
Definition same_core (p q : policyController) : Prop :=
  configured p = configured q /\ currentMode p = currentMode q /\ dom (flows p) = dom (flows q)
  /\ pendingPermits p = pendingPermits q /\ caps p = caps q /\ survivalUntil p = survivalUntil q /\ nextFlowID p = nextFlowID q.

#[global] Instance same_core_preorder : PreOrder same_core.
Proof. split; [by intros p|]. intros p q r (? & ? & ? & ? & ? & ? & ?) (? & ? & ? & ? & ? & ? & ?). unfold same_core. by split_and!; etransitivity. Qed.

Lemma same_core_rtt p a ms : same_core (appendRTTSampleLocked p a ms) p.
Proof. unfold appendRTTSampleLocked. by case_on. Qed.
Lemma same_core_write p id up n : same_core (flowWriter_Write p id up n) p.
Proof. unfold flowWriter_Write. case_on; [|done]. destruct up; unfold same_core; cbn; by rewrite dom_alter_L. Qed.
Lemma same_core_fast p now order : same_core (wants_fast p now order).1 p.
Proof.
  revert p. induction order as [|id order IH]; intros p; [done|]. cbn [wants_fast].
  destruct (flows p !! id) as [f|] eqn:Ef; [|apply IH]. case_on; [done|]. case_on; [done|].
  destruct (avgDownrateMbps f now) as [f' rate]. cbn zeta.
  assert (Hp : same_core (put_flow p id f') p).
  { unfold same_core, put_flow. cbn. split_and!; try done. rewrite dom_insert_lookup_L; [done|by rewrite Ef]. }
  case_on; [done|]. etransitivity; [apply IH|exact Hp].
Qed.
Lemma same_core_decide p now order v : same_core (evaluate_decide p now order v).1 p.
Proof.
  unfold evaluate_decide. repeat (case_on; [done|]). pose proof (same_core_fast p now order) as H.
  destruct (wants_fast p now order). done.
Qed.
Lemma same_core_read p now : same_core (evaluate_read p now).1 p.
Proof. unfold evaluate_read. by case_on. Qed.
Lemma same_core_quic p now : same_core (recordQUICFailure_locked p now).1 p.
Proof. done. Qed.
Lemma same_core_error p now : same_core (recordTransportError_locked p now).1 p.
Proof. done. Qed.

Definition task_ok (t : policyTask) : Prop := match t with TSwitch m => m <> modeAuto | TView _ => True end.

(** The limits hold for a number of flows and a number of permits. *)
Definition caps_ok (c : capFields) (nflows pending : Z) : Prop :=
  capEnabled c = true ->
  nflows + pending <= capMaxActiveFlows c /\ capMaxNewPerSec c = capMaxNewFlowsPerSecond /\ 0 <= capOpenedThisSec c <= capMaxNewPerSec c.

Record policy_inv (mode : clientMode) (s : psys) : Prop := mkPInv {
  pi_configured : configured (ps_p s) = mode;
  pi_held : pendingPermits (ps_p s) = ps_held s /\ 0 <= ps_held s;
  pi_fixed : mode <> modeAuto -> currentMode (ps_p s) = mode /\ capEnabled (caps (ps_p s)) = false /\ ps_todo s = [];
  pi_auto : mode = modeAuto -> currentMode (ps_p s) <> modeAuto;
  pi_tasks : Forall task_ok (ps_todo s);
  pi_caps : caps_ok (caps (ps_p s)) (Z.of_nat (size (flows (ps_p s)))) (pendingPermits (ps_p s)) }.

Lemma policy_inv_init cfg mode now : policy_inv mode (mkPsys (newPolicyController cfg mode now) [] 0).
Proof.
  split; cbn; try done.
  - intros H. by rewrite bool_decide_eq_false_2.
  - intros ->. by rewrite bool_decide_eq_true_2.
Qed.

(** A step that leaves the core alone and, in automatic mode only, changes the decisions. *)
Lemma policy_inv_core mode p todo n q todo' :
  policy_inv mode (mkPsys p todo n) -> same_core q p -> Forall task_ok todo' -> (mode <> modeAuto -> todo' = []) ->
  policy_inv mode (mkPsys q todo' n).
Proof.
  intros [H1 H2 H3 H4 H5 H6] (C1 & C2 & C3 & C4 & C5 & _) Ht Hf. cbn [ps_p ps_todo ps_held] in *.
  assert (Csz : size (flows q) = size (flows p)) by (rewrite <- !size_dom; by rewrite C3).
  split; cbn [ps_p ps_todo ps_held]; rewrite ?C1, ?C2, ?Csz, ?C4, ?C5; try done. intros Hm. destruct (H3 Hm) as (? & ? & ?). by split_and!; [| |apply Hf].
Qed.

Lemma record_tasks mode p m :
  configured p = mode ->
  (forall x, m = Some x -> configured p = modeAuto /\ x = modeSurvival) -> Forall task_ok (tasks_of m) /\ (mode <> modeAuto -> tasks_of m = []).
Proof.
  intros Hc Hm. destruct m as [x|]; cbn [tasks_of]; [|done]. destruct (Hm x eq_refl) as [H1 ->]. split; [|congruence]. by constructor.
Qed.

Lemma decide_not_auto p now order v m : (evaluate_decide p now order v).2 = Some m -> m <> modeAuto.
Proof.
  unfold evaluate_decide. repeat (case_on; cbn [snd]); try (intros [= <-]; done); try done.
Qed.

Lemma policy_inv_switch mode p todo n now m todo' :
  policy_inv mode (mkPsys p todo n) -> mode = modeAuto -> m <> modeAuto -> Forall task_ok todo' ->
  policy_inv mode (mkPsys (switchMode p now m) todo' n).
Proof.
  intros [H1 H2 H3 H4 H5 H6] Hm Hm2 Ht. cbn [ps_p ps_todo ps_held] in *.
  unfold switchMode. case_bool_decide; [by split|]. case_on; split; cbn; done.
Qed.

Lemma updateAdaptiveCap_ok auto c now nflows pending rtt :
  caps_ok c nflows pending -> caps_ok (updateAdaptiveCap auto c now nflows pending rtt) nflows pending
  /\ (auto = false -> capEnabled (updateAdaptiveCap auto c now nflows pending rtt) = false).
Proof.
  intros H. unfold updateAdaptiveCap, caps_ok in *. destruct auto; cbn [negb]; [|by split].
  split; [|done]. repeat case_on; cbn; try done.
  intros _. unfold capActiveFlowsMargin, capMaxNewFlowsPerSecond. lia.
Qed.

Lemma policy_inv_stats mode p todo n now :
  policy_inv mode (mkPsys p todo n) -> policy_inv mode (mkPsys (printStats p now).1 todo n).
Proof.
  intros [H1 H2 H3 H4 H5 H6]. cbn [ps_p ps_todo ps_held] in *. unfold printStats. case_on; [by split|].
  destruct (updateAdaptiveCap_ok (bool_decide (configured p = modeAuto)) (caps p) now (Z.of_nat (size (flows p))) (pendingPermits p)
    (if 0 <? zlen (collectRTTWindowLocked p (lastStatsAt p) now).2 then Some (percentile (collectRTTWindowLocked p (lastStatsAt p) now).2 (float64 95)) else None) H6) as [K1 K2].
  split; cbn; try done. intros Hm. destruct (H3 Hm) as (? & ? & ?). split_and!; [done| |done].
  apply K2. rewrite H1. by apply bool_decide_eq_false_2.
Qed.

Lemma policy_inv_acquire mode p todo n now :
  policy_inv mode (mkPsys p todo n) ->
  policy_inv mode (mkPsys (acquireFlowPermit p now).1 todo (if (acquireFlowPermit p now).2 then n + 1 else n)).
Proof.
  intros [H1 H2 H3 H4 H5 H6]. cbn [ps_p ps_todo ps_held] in *. unfold acquireFlowPermit. case_on.
  - split; cbn; try done; [lia|]. intros Hen. rewrite Hen in Heqb. cbn [negb] in Heqb. rewrite orb_false_r in Heqb.
    apply negb_true_iff, bool_decide_eq_false_1 in Heqb. destruct H3 as (_ & H3 & _); congruence.
  - apply orb_false_iff in Heqb as [Ha Hen]. apply negb_false_iff in Ha, Hen. apply bool_decide_eq_true_1 in Ha. rewrite Ha in H1. subst mode.
    destruct (H6 Hen) as (K1 & K2 & K3). set (c' := if negb (Unix now =? capWindowSec (caps p)) then _ else _).
    assert (Hc : capEnabled c' = true /\ capMaxActiveFlows c' = capMaxActiveFlows (caps p) /\ capMaxNewPerSec c' = capMaxNewFlowsPerSecond
                 /\ 0 <= capOpenedThisSec c' <= capMaxNewPerSec c').
    { unfold c'. rewrite K2 in K3. case_on; cbn; rewrite ?K2; unfold capMaxNewFlowsPerSecond in *; split_and!; try done; lia. }
    destruct Hc as (C1 & C2 & C3 & C4). cbn zeta. unfold active.
    destruct ((_ <? capMaxActiveFlows c') && _) eqn:Hgo; (split; cbn [fst snd ps_p ps_todo ps_held set_permits configured pendingPermits currentMode caps flows]; try done).
    + lia.
    + apply andb_true_iff in Hgo as [G1 G2]. zbool. intros _. cbn. lia.
    + intros _. lia.
Qed.

Lemma policy_inv_unregister mode p todo n id :
  policy_inv mode (mkPsys p todo n) -> policy_inv mode (mkPsys (unregisterFlow p id) todo n).
Proof.
  intros [H1 H2 H3 H4 H5 H6]. cbn [ps_p ps_todo ps_held] in *. split; cbn; try done. intros Hen. destruct (H6 Hen) as (K1 & K2 & K3).
  split_and!; try done; [|lia..]. cbn. rewrite map_size_delete. case_on; cbn; lia.
Qed.

Lemma policy_inv_register mode p todo n now c t :
  policy_inv mode (mkPsys p todo n) -> 0 < n -> policy_inv mode (mkPsys (registerFlow p now c t).1 todo (n - 1)).
Proof.
  intros [H1 H2 H3 H4 H5 H6] Hn. cbn [ps_p ps_todo ps_held] in *. destruct H2 as [H2 H2'].
  unfold registerFlow. rewrite (proj2 (Z.ltb_lt 0 (pendingPermits p))) by lia. split; cbn; try done; [lia|].
  intros Hen. destruct (H6 Hen) as (K1 & K2 & K3). split_and!; try done; [|lia..].
  rewrite map_size_insert. case_on; cbn; lia.
Qed.

Lemma policy_inv_release mode p todo n :
  policy_inv mode (mkPsys p todo n) -> 0 < n -> policy_inv mode (mkPsys (releaseFlowPermit p) todo (n - 1)).
Proof.
  intros [H1 H2 H3 H4 H5 H6] Hn. cbn [ps_p ps_todo ps_held] in *. destruct H2 as [H2 H2'].
  unfold releaseFlowPermit. rewrite (proj2 (Z.ltb_lt 0 (pendingPermits p))) by lia. split; cbn; try done; [lia|].
  intros Hen. destruct (H6 Hen) as (K1 & K2 & K3). split_and!; [lia|done|lia..].
Qed.

Lemma policy_inv_step mode s s' : policy_inv mode s -> policy_step s s' -> policy_inv mode s'.
Proof.
  intros Hi Hs. destruct Hs.
  - destruct (record_tasks mode p (recordQUICFailure_locked p now).2) as [K1 K2]; [apply Hi| |].
    { intros x. unfold recordQUICFailure_locked. cbn. case_on; [|done]. intros [= <-]. apply andb_true_iff in Heqb as [[Ha _]%andb_true_iff _]. by apply bool_decide_eq_true_1 in Ha. }
    eapply policy_inv_core; [done|apply same_core_quic|apply Forall_app; split; [apply Hi|done]|]. intros Hm. destruct (pi_fixed _ _ Hi Hm) as (_ & _ & Ht).
    cbn in Ht. by rewrite Ht, K2.
  - destruct (record_tasks mode p (recordTransportError_locked p now).2) as [K1 K2]; [apply Hi| |].
    { intros x. unfold recordTransportError_locked. cbn. case_on; [|done]. intros [= <-]. apply andb_true_iff in Heqb as [[Ha _]%andb_true_iff _]. by apply bool_decide_eq_true_1 in Ha. }
    eapply policy_inv_core; [done|apply same_core_error|apply Forall_app; split; [apply Hi|done]|]. intros Hm. destruct (pi_fixed _ _ Hi Hm) as (_ & _ & Ht).
    cbn in Ht. by rewrite Ht, K2.
  - pose proof (pi_tasks _ _ Hi) as Ht. cbn in Ht. rewrite Forall_app, Forall_cons in Ht. destruct Ht as (T1 & T2 & T3).
    eapply policy_inv_switch; [done| |done|by apply Forall_app].
    destruct (decide (mode = modeAuto)) as [|Hm]; [done|]. destruct (pi_fixed _ _ Hi Hm) as (_ & _ & Hnil). by destruct l1.
  - eapply policy_inv_core; [done|apply same_core_read| |].
    + apply Forall_app; split; [apply Hi|]. case_on; by repeat constructor.
    + intros Hm. destruct (pi_fixed _ _ Hi Hm) as (_ & _ & Ht). cbn in Ht. rewrite Ht. unfold evaluate_read.
      pose proof (pi_configured _ _ Hi) as Hc. cbn in Hc. rewrite bool_decide_eq_false_2 by congruence. done.
  - pose proof (pi_tasks _ _ Hi) as Ht. cbn in Ht. rewrite Forall_app, Forall_cons in Ht. destruct Ht as (T1 & T2 & T3).
    eapply policy_inv_core; [done|apply same_core_decide| |].
    + apply Forall_app; split; [done|]. apply Forall_app; split; [|done].
      destruct (evaluate_decide p now order v).2 as [m|] eqn:Em; cbn; [|done]. apply decide_not_auto in Em. by constructor.
    + intros Hm. destruct (pi_fixed _ _ Hi Hm) as (_ & _ & Hnil). by destruct l1.
  - eapply policy_inv_core; [done|apply same_core_rtt|apply Hi|]. intros Hm. by destruct (pi_fixed _ _ Hi Hm) as (_ & _ & Ht).
  - by apply policy_inv_stats.
  - by apply policy_inv_acquire.
  - by apply policy_inv_release.
  - by apply policy_inv_register.
  - by apply policy_inv_unregister.
  - eapply policy_inv_core; [done|apply same_core_write|apply Hi|]. intros Hm. by destruct (pi_fixed _ _ Hi Hm) as (_ & _ & Ht).
Qed.

Lemma policy_inv_reachable cfg mode now s :
  rtc policy_step (mkPsys (newPolicyController cfg mode now) [] 0) s -> policy_inv mode s.
Proof.
  intros H. assert (Hg : forall s0, rtc policy_step s0 s -> policy_inv mode s0 -> policy_inv mode s).
  { induction 1; eauto using policy_inv_step. }
  eapply Hg; [exact H|apply policy_inv_init].
Qed.

(** Sliding windows of failure times. *)
Lemma pruneTimes_sorted l cutoff : StronglySorted Z.le l -> pruneTimes l cutoff = List.filter (fun t => cutoff <=? t) l.
Proof.
  induction 1 as [|t l Hs IH Hf]; [done|]. cbn [pruneTimes List.filter]. destruct (t <? cutoff) eqn:E; zbool.
  - rewrite IH. by rewrite (proj2 (Z.leb_gt _ _)) by lia.
  - rewrite (proj2 (Z.leb_le _ _)) by lia. f_equal. symmetry. clear IH.
    induction Hf as [|u l Hu Hf IH]; [done|]. cbn [List.filter]. rewrite (proj2 (Z.leb_le _ _)) by lia. f_equal. apply IH. by inversion Hs.
Qed.
Lemma pruneTimes_suffix l cutoff : exists l1, l = l1 ++ pruneTimes l cutoff /\ Forall (fun t => t < cutoff) l1
  /\ match pruneTimes l cutoff with t :: _ => cutoff <= t | [] => True end.
Proof.
  induction l as [|t l IH]; [by exists []|]. cbn [pruneTimes]. destruct (t <? cutoff) eqn:E; zbool.
  - destruct IH as (l1 & E1 & E2 & E3). exists (t :: l1). split_and!; [cbn; congruence|by constructor|done].
  - exists []. by split_and!.
Qed.

(** ** The limit on new flows *)


(** ** Survival mode *)

Lemma last_three (l : list Z) : 3 <= zlen l -> exists k x y z, l = k ++ [x; y; z].
Proof.
  intros H. assert (Hr : (3 <= length (rev l))%nat) by (rewrite length_rev; unfold zlen in H; lia).
  rewrite <- (rev_involutive l). destruct (rev l) as [|z [|y [|x k]]]; cbn in Hr; [lia..|].
  exists (rev k), x, y, z. cbn [rev]. by rewrite <- !app_assoc.
Qed.

Lemma window_count ts c w :
  0 <= w -> StronglySorted Z.le (ts ++ [c]) ->
  (3 <= zlen (pruneTimes (ts ++ [c]) (c - w)) <-> exists l a b, ts = l ++ [a; b] /\ c - a <= w).
Proof.
  intros Hw Hs. split.
  - intros Hn. destruct (pruneTimes_suffix (ts ++ [c]) (c - w)) as (l1 & E & _ & Hh). destruct (last_three _ Hn) as (k & x & y & z & Ek).
    assert (Hx : c - w <= x).
    { rewrite Ek in Hh, E. destruct k as [|h k]; [done|]. cbn [app] in *. rewrite E in Hs. eapply StronglySorted_app_1_r in Hs.
      enough (h <= x) by lia. inversion Hs as [|? ? _ Hf]. rewrite Forall_app in Hf. destruct Hf as [_ Hf]. by inversion Hf. }
    rewrite Ek in E. change (k ++ [x; y; z]) with (k ++ [x; y] ++ [z]) in E. rewrite !app_assoc in E. apply app_inj_tail in E as [-> _].
    exists (l1 ++ k), x, y. split; [done|lia].
  - intros (l & x & y & -> & Hx). rewrite pruneTimes_sorted by done. rewrite <- app_assoc, List.filter_app.
    assert (Hxy : x <= y /\ y <= c).
    { rewrite <- app_assoc in Hs. eapply StronglySorted_app_1_r in Hs. inversion Hs as [|? ? Hs2 Hf]. inversion Hf. inversion Hs2 as [|? ? _ Hf2]. by inversion Hf2. }
    cbn [app List.filter]. rewrite !(proj2 (Z.leb_le _ _)) by lia. rewrite zlen_app. pose proof (zlen_nonneg (List.filter (fun t => c - w <=? t) l)). change (zlen [x; y; c]) with 3. lia.
Qed.

Lemma recordQUICFailure_core p now :
  configured (recordQUICFailure p now) = configured p
  /\ quicFailTimes (recordQUICFailure p now) = pruneTimes (quicFailTimes p ++ [now]) (now - failureWindowDuration)
  /\ (configured p = modeAuto ->
      currentMode (recordQUICFailure p now)
      = if bool_decide (currentMode p = modeSurvival) || (quicFailureThreshold <=? zlen (pruneTimes (quicFailTimes p ++ [now]) (now - failureWindowDuration)))
        then modeSurvival else currentMode p).
Proof.
  unfold recordQUICFailure, recordQUICFailure_locked. set (l := pruneTimes _ _). destruct (_ && _) eqn:E; cbn [switch_to]; unfold switchMode.
  - apply andb_true_iff in E as [[_ Es]%andb_true_iff ->]. apply negb_true_iff in Es. cbn. rewrite Es.
    rewrite (bool_decide_eq_true_2 (modeSurvival = modeSurvival)) by done. done.
  - cbn. split_and!; [done..|]. intros Ha. rewrite bool_decide_eq_true_2 in E by done. cbn [andb] in E.
    case_bool_decide as Hs; cbn in *; [done|]. by rewrite E.
Qed.

Lemma filter_filter_le c c' l : c <= c' -> List.filter (fun t => c' <=? t) (List.filter (fun t => c <=? t) l) = List.filter (fun t => c' <=? t) l.
Proof.
  intros H. induction l as [|t l IH]; [done|]. cbn [List.filter]. destruct (c <=? t) eqn:E; cbn [List.filter]; rewrite IH; [done|]. zbool.
  by rewrite (proj2 (Z.leb_gt _ _)) by lia.
Qed.

Definition quic_failures (cfg : ClientConfig) (t0 : Z) (ts : list Z) : policyController :=
  foldl recordQUICFailure (newPolicyController cfg modeAuto t0) ts.

Lemma quic_failures_times cfg t0 ts :
  StronglySorted Z.le ts ->
  configured (quic_failures cfg t0 ts) = modeAuto
  /\ quicFailTimes (quic_failures cfg t0 ts) = match last ts with Some n => pruneTimes ts (n - failureWindowDuration) | None => [] end.
Proof.
  induction ts as [|n ts IH] using rev_ind; [done|]. intros Hs. unfold quic_failures in *. rewrite foldl_app. cbn [foldl].
  destruct (recordQUICFailure_core (foldl recordQUICFailure (newPolicyController cfg modeAuto t0) ts) n) as (-> & -> & _).
  assert (Hs2 : StronglySorted Z.le ts) by by eapply StronglySorted_app_1_l. destruct (IH Hs2) as [-> ->]. split; [done|]. rewrite last_snoc.
  destruct (last ts) as [m|] eqn:El; [|apply last_None in El; by subst]. rewrite !pruneTimes_sorted; try done.
  - rewrite !List.filter_app, filter_filter_le; [done|]. apply last_Some in El as [k ->]. rewrite <- app_assoc in Hs. eapply StronglySorted_app_1_r in Hs.
    inversion Hs as [|? ? _ Hf]. inversion Hf. lia.
  - rewrite pruneTimes_sorted by done. destruct (pruneTimes_suffix (ts ++ [n]) (m - failureWindowDuration)) as (l1 & E & _).
    pose proof Hs as Hs3. rewrite E in Hs3. eapply StronglySorted_app_1_r in Hs3. rewrite pruneTimes_sorted in Hs3 by done. rewrite List.filter_app in Hs3.
    apply last_Some in El as [k ->]. rewrite <- app_assoc in Hs. eapply StronglySorted_app_1_r in Hs. inversion Hs as [|? ? _ Hf]. inversion Hf.
    cbn [List.filter] in Hs3. by rewrite (proj2 (Z.leb_le _ n)) in Hs3 by (unfold failureWindowDuration, Second; lia).
Qed.

(** The automatic policy enters survival mode for failures of QUIC exactly when it should: for any
    failures recorded in the order of time, the mode is survival iff three consecutive ones fell
    into a window of thirty seconds. *)
Theorem quic_failures_survival cfg t0 ts :
  StronglySorted Z.le ts ->
  (currentMode (quic_failures cfg t0 ts) = modeSurvival
   <-> exists l1 a b c l2, ts = l1 ++ [a; b; c] ++ l2 /\ c - a <= failureWindowDuration).
Proof.
  induction ts as [|n ts IH] using rev_ind; intros Hs.
  - split; [done|]. by intros ([|] & ? & ? & ? & ? & ? & _).
  - assert (Hs2 : StronglySorted Z.le ts) by by eapply StronglySorted_app_1_l.
    destruct (quic_failures_times cfg t0 (ts ++ [n]) Hs) as [_ Ht]. destruct (quic_failures_times cfg t0 ts Hs2) as [Hc _]. rewrite last_snoc in Ht.
    unfold quic_failures in *. rewrite foldl_app in *. cbn [foldl] in *.
    destruct (recordQUICFailure_core (foldl recordQUICFailure (newPolicyController cfg modeAuto t0) ts) n) as (_ & Hq & Hm). rewrite (Hm Hc). clear Hm.
    rewrite <- Hq, Ht. clear Hq Ht. pose proof (window_count ts n failureWindowDuration ltac:(unfold failureWindowDuration, Second; lia) Hs) as Hw.
    split.
    + case_bool_decide as Hb; cbn [orb].
      * intros _. apply IH in Hb as (l1 & a & b & c & l2 & -> & Hle); [|done]. exists l1, a, b, c, (l2 ++ [n]). by rewrite <- !app_assoc.
      * destruct (quicFailureThreshold <=? _) eqn:E; [|done]. intros _. zbool. apply Hw in E as (l & a & b & -> & Hle).
        exists l, a, b, n, []. by rewrite <- app_assoc.
    + intros (l1 & a & b & c & l2 & E & Hle). destruct l2 as [|x l2 _] using rev_ind.
      * rewrite app_nil_r in E. change (l1 ++ [a; b; c]) with (l1 ++ [a; b] ++ [c]) in E. rewrite app_assoc in E. apply app_inj_tail in E as [E1 ->].
        assert (3 <= zlen (pruneTimes (ts ++ [c]) (c - failureWindowDuration))) as H3 by (apply Hw; eauto).
        rewrite (proj2 (Z.leb_le quicFailureThreshold _)) by done. by rewrite orb_true_r.
      * rewrite !app_assoc in E. apply app_inj_tail in E as [E1 _]. rewrite bool_decide_eq_true_2; [done|]. apply IH; [done|].
        exists l1, a, b, c, l2. by rewrite <- !app_assoc in E1.
Qed.

(** The methods, each run to its end before the next, where the policy is evaluated at [t] or earlier. *)
Inductive policy_call (t : Z) : policyController -> policyController -> Prop :=
| pc_quic p now : policy_call t p (recordQUICFailure p now)
| pc_error p now : policy_call t p (recordTransportError p now)
| pc_tick p now now1 now2 o1 o2 probe : now <= t -> policy_call t p (loop_tick p now now1 now2 o1 o2 probe).1
| pc_acquire p now : policy_call t p (acquireFlowPermit p now).1
| pc_release p : policy_call t p (releaseFlowPermit p)
| pc_register p now c tr : policy_call t p (registerFlow p now c tr).1
| pc_unregister p id : policy_call t p (unregisterFlow p id)
| pc_write p id up n : policy_call t p (flowWriter_Write p id up n).

Definition surviving (t : Z) (p : policyController) : Prop := currentMode p = modeSurvival /\ survivalUntil p = Some t.

Lemma surviving_switch t now p : surviving t p -> surviving t (switchMode p now modeSurvival).
Proof. intros [H1 H2]. unfold switchMode. by rewrite bool_decide_eq_true_2. Qed.
Lemma surviving_core t p q : surviving t p -> same_core q p -> surviving t q.
Proof. intros [H1 H2] (_ & C2 & _ & _ & _ & C6 & _). split; congruence. Qed.
Lemma surviving_quic t p now : surviving t p -> surviving t (recordQUICFailure p now).
Proof.
  intros H. unfold recordQUICFailure, recordQUICFailure_locked. destruct (_ && _); [apply surviving_switch|]; by destruct H.
Qed.
Lemma surviving_error t p now : surviving t p -> surviving t (recordTransportError p now).
Proof.
  intros H. unfold recordTransportError, recordTransportError_locked. destruct (_ && _); [apply surviving_switch|]; by destruct H.
Qed.
Lemma surviving_evaluate t p now now' order : surviving t p -> now <= t -> surviving t (evaluateAutoPolicy p now now' order).
Proof.
  intros [H1 H2] Hn. unfold evaluateAutoPolicy, evaluate_read. case_bool_decide; cbn [negb]; [|done].
  unfold evaluate_decide. cbn. rewrite H1. rewrite (bool_decide_eq_true_2 (modeSurvival = modeSurvival)) by done. cbn [negb andb]. rewrite H2. cbn [After].
  rewrite (proj2 (Z.ltb_ge _ _)) by lia. done.
Qed.
Lemma surviving_probe t p now now' order probe : surviving t p -> surviving t (probeRTT p now now' order probe).
Proof.
  intros H. unfold probeRTT. destruct (pickProbeClient p order) as [[c tr]|]; [|done]. destruct (probe c).
  - eapply surviving_core; [done|apply same_core_rtt].
  - case_on; [done|]. by apply surviving_error.
  - done.
Qed.
Lemma surviving_stats t p now : surviving t p -> surviving t (printStats p now).1.
Proof. intros [H1 H2]. unfold printStats. by case_on. Qed.
Lemma surviving_call t p q : surviving t p -> policy_call t p q -> surviving t q.
Proof.
  intros H Hc. destruct Hc.
  - by apply surviving_quic.
  - by apply surviving_error.
  - unfold loop_tick. by apply surviving_stats, surviving_evaluate; [apply surviving_probe|].
  - destruct H. unfold acquireFlowPermit. repeat case_on; done.
  - by destruct H.
  - by destruct H.
  - by destruct H.
  - eapply surviving_core; [done|apply same_core_write].
Qed.

(** Survival mode lasts: entered at [now], it is kept for sixty seconds whatever the controller is
    called with, as long as its methods run one after the other; and it ends: the first evaluation
    after that which finds no failure of the last thirty seconds returns to the normal mode. *)
Theorem survival_lasts p now :
  currentMode p <> modeSurvival -> configured p = modeAuto ->
  let t := now + 60 * Second in
  forall q, rtc (policy_call t) (switchMode p now modeSurvival) q ->
  currentMode q = modeSurvival
  /\ (forall later now' order,
        t < later -> configured q = modeAuto -> Forall (fun f => f < later - failureWindowDuration) (quicFailTimes q ++ errorSpikeTime q) ->
        currentMode (evaluateAutoPolicy q later now' order) = modeNormal).
Proof.
  intros Hp Ha t q Hr.
  assert (Hs : surviving t (switchMode p now modeSurvival)).
  { unfold switchMode. rewrite bool_decide_eq_false_2 by done. by rewrite bool_decide_eq_true_2. }
  assert (Hq : surviving t q) by (clear -Hs Hr; induction Hr; eauto using surviving_call).
  destruct Hq as [Hq1 Hq2]. split; [done|]. intros later now' order Hl Hc Hf. apply Forall_app in Hf as [F1 F2].
  assert (Hnil : forall l c, Forall (fun f => f < c) l -> pruneTimes l c = []).
  { intros l c. induction 1 as [|x l Hx Hl' IH]; [done|]. cbn [pruneTimes]. by rewrite (proj2 (Z.ltb_lt _ _)). }
  unfold evaluateAutoPolicy, evaluate_read. rewrite bool_decide_eq_true_2 by done. cbn [negb]. rewrite !Hnil by done. unfold evaluate_decide. cbn.
  rewrite Hq1, Hq2. rewrite (bool_decide_eq_true_2 (modeSurvival = modeSurvival)) by done. cbn. rewrite (proj2 (Z.ltb_lt _ _)) by lia.
  cbn. unfold switchMode. cbn. rewrite Hq1. done.
Qed.

(** ** The configuration of a dial *)

(** What the modes dial: no mode turns the last transport off; normal and fast try QUIC first, when
    it is enabled; survival does not try QUIC at all, unless nothing else is enabled; and a UDP flow
    is only ever dialled over QUIC, in every mode and under every base configuration. *)
Theorem mode_transports {I} p (dial : Transport -> res I) :
  (forall mode, (exists t, enabled (baseCfg p) t = true) -> exists t, enabled (configForMode (baseCfg p) mode) t = true)
  /\ (forall mode, mode = modeNormal \/ mode = modeFast -> enabled (baseCfg p) TransportQUIC = true ->
        head (Dial (configForMode (baseCfg p) mode) dial).2 = Some TransportQUIC)
  /\ (enabled (baseCfg p) TransportTCPSession = true \/ enabled (baseCfg p) TransportRelay = true ->
        TransportQUIC ∉ (Dial (configForMode (baseCfg p) modeSurvival) dial).2)
  /\ (Dial (dialConfigUDP p).1 dial).2 = [TransportQUIC].
Proof.
  destruct p as [c ? cm]. cbn [baseCfg dialConfigUDP dialConfig currentMode]. split_and!.
  - intros mode [t Ht]. unfold enabled in *. destruct mode; cbn; try (exists t; by destruct t).
    destruct (DisableTCPSession c) eqn:Ed; [|by exists TransportTCPSession].
    destruct (AllowRelay c) eqn:Er; [by exists TransportRelay|]. exists t. destruct t; cbn in *; rewrite ?Ed in Ht; cbn in Ht; try congruence; done.
  - intros mode Hm He. unfold enabled in He. apply negb_true_iff in He. unfold Dial.
    destruct Hm as [-> | ->]; cbn; rewrite He; cbn; destruct (dial TransportQUIC); cbn; try done.
    all: destruct (DisableTCPSession c), (AllowRelay c), (dial TransportTCPSession), (dial TransportRelay); done.
  - intros He. unfold Dial, enabled in *. cbn in *.
    assert (negb (DisableTCPSession c) || AllowRelay c = true) as -> by (destruct He as [-> | ->]; by rewrite ?orb_true_r).
    cbn. destruct (DisableTCPSession c), (AllowRelay c), (dial TransportTCPSession), (dial TransportRelay); cbn; set_solver.
  - destruct cm; unfold Dial; cbn; destruct (dial TransportQUIC); done.
Qed.

(** ** Examples and witnesses *)

Definition example_base : ClientConfig :=
  mkClientConfig "gw" "gw" 443 443 "http://gw:8080" "c" [x01] "vlf-runtime/0.1" ["vlf-runtime/0.1"] "" "gw" 1200 (2 * Second) (2 * Second)
    true false false true false false.

(** A controller in normal mode, twelve seconds after its first flow was opened. *)
Definition example_policy : policyController :=
  (registerFlow (acquireFlowPermit (newPolicyController example_base modeAuto 0) 0).1 0 (Some 1) TransportQUIC).1.

(** The methods are not atomic together: [evaluateAutoPolicy] copies the mode, releases the lock and
    switches the mode later. Three failures of QUIC that arrive in between enter survival mode, and
    the switch that was decided on the old mode leaves it for the fast one in the same instant,
    although survival mode is to last for sixty seconds. *)
Theorem survival_race :
  let now := 12 * Second in
  exists p1 v p2,
    evaluate_read example_policy now = (p1, Some v)
    /\ p2 = recordQUICFailure (recordQUICFailure (recordQUICFailure p1 now) now) now
    /\ currentMode p2 = modeSurvival /\ survivalUntil p2 = Some (now + 60 * Second)
    /\ currentMode (switch_to now (evaluate_decide p2 now [1] v)) = modeFast.
Proof.
  do 3 eexists. split_and!; [reflexivity|reflexivity|vm_compute; reflexivity..].
Qed.


Lemma quic_failures_survival_witness :
  currentMode (quic_failures example_base 0 [1 * Second; 2 * Second; 40 * Second; 41 * Second; 69 * Second]) = modeSurvival.
Proof.
  apply (proj2 (quic_failures_survival example_base 0 [1 * Second; 2 * Second; 40 * Second; 41 * Second; 69 * Second]
    ltac:(repeat constructor; unfold Second; lia))).
  exists [1 * Second; 2 * Second], (40 * Second), (41 * Second), (69 * Second), []. split; [reflexivity|]. vm_compute. congruence.
Defined.

Lemma survival_lasts_witness :
  currentMode (recordTransportError (switchMode example_policy 0 modeSurvival) (1 * Second)) = modeSurvival.
Proof.
  refine (proj1 (survival_lasts example_policy 0 _ _ (recordTransportError (switchMode example_policy 0 modeSurvival) (1 * Second)) _)).
  - vm_compute. congruence.
  - reflexivity.
  - apply rtc_once, pc_error.
Defined.

Lemma mode_transports_witness :
  (Dial (configForMode example_base modeSurvival) (fun t => match t with TransportQUIC => Ok tt | _ => Err EEOF end)).2
    = [TransportTCPSession; TransportRelay]
  /\ TransportQUIC ∉ (Dial (configForMode example_base modeSurvival) (fun t => match t with TransportQUIC => Ok tt | _ => Err EEOF end)).2.
Proof.
  split; [reflexivity|].
  apply (proj1 (proj2 (proj2 (mode_transports example_policy (fun t => match t with TransportQUIC => Ok tt | _ => Err EEOF end))))).
  left. reflexivity.
Defined.
