(* ===== verification/SocksConn.v ===== *)
(** * The SOCKS5 client: requests ([cmd/socks_client/main.go])

    The life of a request after the negotiation: [handleConnect], [handleBind], and the part of
    [getOrCreateEntry] that opens the flow of a UDP target, as steps of a system in which many
    requests share the controller, the open session clients and their flows. The association that
    a UDP flow belongs to is in the file SocksUDP. *)

From S2P Require Import Prelude Ownership GoString Auth ClientConfig Client Socks SocksPolicy.

(** ** Start-up *)

Definition defaultRelayBase (host : string) : string :=
  let h := TrimSpace host in
  let h := if String.eqb h "" then "localhost" else h in
  ("http://" ++ string_of_bytes (JoinHostPort (bytes_of_string h) (bytes_of_string "8080")))%string.

Section Resolve.
  Context (parse6 : list byte -> option (list byte)).

(** [resolveDialHost]; [lookup] is the resolver, asked for IPv4 addresses only or for all. *)
Definition resolveDialHost (host : string) (forceIPv4 : bool) (lookup : bool -> string -> res (list (list byte))) : res string :=
  let host := TrimSpace host in
  if String.eqb host "" then Err (ENew "empty gateway host")
  else match ParseIP parse6 host with
  | Some ip =>
      if forceIPv4 && negb (bool_decide (is_Some (To4 ip))) then Err (ENew "force-ipv4 enabled but host resolved to non-ipv4")
      else Ok (ip_text ip)
  | None =>
      ips ← lookup forceIPv4 host;
      match ips with
      | [] => Err (ENew "no DNS records")
      | first :: _ =>
          match omap To4 ips with
          | ip4 :: _ => Ok (ip_text ip4)
          | [] => if forceIPv4 then Err (ENew "no ipv4 records") else Ok (ip_text first)
          end
      end
  end.

(** The flags that make the configuration of the sessions. *)
Record socksFlags := mkFlags {
  fl_server : string; fl_serverIP : string; fl_tlsServerName : string; fl_resolveOnce : bool; fl_port : Z; fl_portUDP : Z; fl_portTCP : Z;
  fl_relayBase : string; fl_preferQUIC : bool; fl_disableQUIC : bool; fl_disableTCP : bool; fl_allowRelay : bool; fl_debug : bool;
  fl_clientID : string; fl_secret : string }.

(** [main] up to the start of the controller; an error ends the program. *)
Definition main_config (base : ClientConfig) (fl : socksFlags) (lookup : bool -> string -> res (list (list byte))) : res ClientConfig :=
  if (fl_port fl <? 0) || (65535 <? fl_port fl) then Err (ENew "invalid --port")
  else if (fl_portUDP fl <=? 0) || (65535 <? fl_portUDP fl) then Err (ENew "invalid --port-udp")
  else if (fl_portTCP fl <=? 0) || (65535 <? fl_portTCP fl) then Err (ENew "invalid --port-tcp")
  else
    let host := fl_server fl in
    let '(udp, tcp) := if 0 <? fl_port fl then (fl_port fl, fl_port fl) else (fl_portUDP fl, fl_portTCP fl) in
    let serverIP := TrimSpace (fl_serverIP fl) in
    let dialHost := if String.eqb serverIP "" then host else serverIP in
    let sni := if String.eqb (TrimSpace (fl_tlsServerName fl)) "" then host else TrimSpace (fl_tlsServerName fl) in
    let dialHost := if fl_resolveOnce fl && String.eqb serverIP ""
                    then match resolveDialHost host (ForceIPv4 base) lookup with Ok resolved => resolved | _ => dialHost end
                    else dialHost in
    let rb := TrimSpace (fl_relayBase fl) in
    let relay := if String.eqb rb "" then defaultRelayBase dialHost else rb in
    let clientID := if String.eqb (fl_clientID fl) "" then cc_ClientID base else fl_clientID fl in
    secret ← (if String.eqb (fl_secret fl) "" then Ok (cc_Secret base) else wrap_err "parse --secret" (ParseSecretString (fl_secret fl)));
    Ok (mkClientConfig host dialHost udp tcp relay clientID secret (ProtoID base) (ProtoIDs base) (PinSPKI base) sni (cc_MaxDgramPayload base)
          (QUICTimeout base) (TCPTimeout base) (fl_preferQUIC fl) (fl_disableQUIC fl) (fl_disableTCP fl) (fl_allowRelay fl) (ForceIPv4 base) (fl_debug fl)).
End Resolve.

(** ** Metrics *)

Record clientMetrics := mkCM {
  authFailures : Z; connectTotal : Z; bindTotal : Z; udpAssociateTotal : Z; udpPacketsIn : Z; udpPacketsOut : Z; udpDropsFrag : Z;
  udpDropsParse : Z; udpDropsAssocFull : Z; udpDropsNATFull : Z; udpDropsNotClient : Z; activeAssociations : Z; activeNATEntries : Z }.
Definition metrics0 : clientMetrics := mkCM 0 0 0 0 0 0 0 0 0 0 0 0 0.

(** The text served under [/metrics]. *)
Definition prometheus (m : clientMetrics) : list byte :=
  concat (map (fun '(name, v) => bytes_of_string name ++ x20 :: FormatInt v ++ [x0a])
    [("vlf_socks_auth_failures_total", authFailures m); ("vlf_socks_connect_total", connectTotal m); ("vlf_socks_bind_total", bindTotal m);
     ("vlf_socks_udp_associate_total", udpAssociateTotal m); ("vlf_socks_udp_packets_in_total", udpPacketsIn m);
     ("vlf_socks_udp_packets_out_total", udpPacketsOut m); ("vlf_socks_udp_drops_frag_total", udpDropsFrag m);
     ("vlf_socks_udp_drops_parse_total", udpDropsParse m); ("vlf_socks_udp_drops_assoc_limit_total", udpDropsAssocFull m);
     ("vlf_socks_udp_drops_nat_limit_total", udpDropsNATFull m); ("vlf_socks_udp_drops_not_client_total", udpDropsNotClient m);
     ("vlf_socks_udp_active_associations", activeAssociations m); ("vlf_socks_udp_active_nat_entries", activeNATEntries m)]).

Definition isExpectedSOCKSHandshakeErr (e : option goerr) : bool :=
  match e with
  | None => false
  | Some e =>
      if err_is e EEOF || err_is e ENetClosed || err_is e ECanceled then true
      else
        let msg := ToLower (err_text e) in
        Contains msg "read greeting header: eof" || Contains msg "connection reset by peer" || Contains msg "forcibly closed by the remote host"
  end.

(** ** Requests *)

Inductive reqKind := KConnect | KBind | KUDP.
#[global] Instance reqKind_eq_dec : EqDecision reqKind.
Proof. solve_decision. Defined.

(** Where a request is: waiting for a permit; holding one; dialling; opening the flow; sending the
    [n] success replies that are left; relaying, with the first copy that ended; done. *)
Inductive stage :=
| SAdmit | SConfig | SDial (cfg : ClientConfig) (mode : clientMode) | SOpen (c : Z) (t : Transport)
| SReply (c : Z) (t : Transport) (n : nat) | SProxy (c fid : Z) (first : option (option goerr)) | SDone.

Record proxyReq := mkReq { rq_kind : reqKind; rq_conn : bool; rq_replies : list byte; rq_stage : stage }.

Record cworld := mkCW { cw_p : policyController; cw_clients : gset Z; cw_flows : gset Z; cw_reqs : gmap Z proxyReq }.

Definition at_stage (r : proxyReq) (st : stage) : proxyReq := mkReq (rq_kind r) (rq_conn r) (rq_replies r) st.
(** A reply on the connection; its error is ignored. *)
Definition replied (r : proxyReq) (code : byte) : proxyReq :=
  match rq_kind r with
  | KUDP => r
  | _ => mkReq (rq_kind r) (rq_conn r) (rq_replies r ++ [code]) (rq_stage r)
  end.
(** The return of the handler, with the deferred close of the connection. *)
Definition finished (r : proxyReq) : proxyReq := mkReq (rq_kind r) false (rq_replies r) SDone.

Definition cw_put (w : cworld) (p : policyController) (id : Z) (r : proxyReq) : cworld :=
  mkCW p (cw_clients w) (cw_flows w) (<[id := r]> (cw_reqs w)).
Definition cw_put_res (w : cworld) (p : policyController) (clients fls : gset Z) (id : Z) (r : proxyReq) : cworld :=
  mkCW p clients fls (<[id := r]> (cw_reqs w)).

Definition begin_request (w : cworld) (id : Z) (k : reqKind) : cworld := cw_put w (cw_p w) id (mkReq k true [] SAdmit).

(** A round of [acquireFlowPermit]; [expired] says that the context of the caller is done. *)
Definition req_admit (w : cworld) (id now : Z) (expired : bool) (r : proxyReq) : cworld :=
  let '(p, ok) := acquireFlowPermit (cw_p w) now in
  if ok then cw_put w p id (at_stage r SConfig)
  else if expired then cw_put w p id (finished (replied r socksReplyGeneralFailure))
  else cw_put w p id r.
Definition req_config (w : cworld) (id : Z) (r : proxyReq) : cworld :=
  let '(cfg, mode) := match rq_kind r with KUDP => dialConfigUDP (cw_p w) | _ => dialConfig (cw_p w) end in
  cw_put w (cw_p w) id (at_stage r (SDial cfg mode)).
(** The result of [sessionclient.Dial]: a client and its transport, or an error. *)
Definition req_dialed (w : cworld) (id now : Z) (res : (Z * Transport) + option DialError) (r : proxyReq) : cworld :=
  match rq_stage r with
  | SDial cfg mode =>
      match res with
      | inl (c, t) => cw_put_res w (onDialSuccess (cw_p w) now mode cfg t) ({[c]} ∪ cw_clients w) (cw_flows w) id (at_stage r (SOpen c t))
      | inr de => cw_put w (onDialError (releaseFlowPermit (cw_p w)) now cfg de) id (finished (replied r socksReplyGeneralFailure))
      end
  | _ => w
  end.
Definition reply_count (k : reqKind) : nat := match k with KConnect => 1 | KBind => 2 | KUDP => 0 end.

Definition req_register (w : cworld) (id now : Z) (c : Z) (t : Transport) (r : proxyReq) : cworld :=
  let '(p, fid) := registerFlow (cw_p w) now (Some c) t in
  cw_put w p id (at_stage r (SProxy c fid None)).
(** The result of [OpenTCPFlow] or [OpenUDPFlow]. *)
Definition req_opened (w : cworld) (id now : Z) (ok : bool) (r : proxyReq) : cworld :=
  match rq_stage r with
  | SOpen c t =>
      if ok then
        let w := mkCW (cw_p w) (cw_clients w) ({[c]} ∪ cw_flows w) (cw_reqs w) in
        match rq_kind r with
        | KUDP => req_register w id now c t r
        | k => cw_put w (cw_p w) id (at_stage r (SReply c t (reply_count k)))
        end
      else cw_put_res w (onTransportError (releaseFlowPermit (cw_p w)) now) (cw_clients w ∖ {[c]}) (cw_flows w) id (finished (replied r socksReplyHostUnreachable))
  | _ => w
  end.
(** The write of a success reply, and after the last one the registration of the flow. *)
Definition req_reply (w : cworld) (id now : Z) (ok : bool) (r : proxyReq) : cworld :=
  match rq_stage r with
  | SReply c t (S n) =>
      if ok then
        let r := replied r socksReplySuccess in
        match n with
        | O => req_register w id now c t r
        | S _ => cw_put w (cw_p w) id (at_stage r (SReply c t n))
        end
      else cw_put_res w (onTransportError (releaseFlowPermit (cw_p w)) now) (cw_clients w ∖ {[c]}) (cw_flows w ∖ {[c]}) id (finished r)
  | _ => w
  end.

(** [proxyBidirectional]: the first copy that ends closes everything, the second one ends the
    request. *)
Definition proxy_first (w : cworld) (id : Z) (e : option goerr) (r : proxyReq) : cworld :=
  match rq_stage r with
  | SProxy c fid None =>
      cw_put_res w (cw_p w) (cw_clients w ∖ {[c]}) (cw_flows w ∖ {[c]}) id (mkReq (rq_kind r) false (rq_replies r) (SProxy c fid (Some e)))
  | _ => w
  end.
Definition proxy_second (w : cworld) (id now : Z) (e : option goerr) (r : proxyReq) : cworld :=
  match rq_stage r with
  | SProxy c fid (Some first) =>
      let p := cw_p w in
      let p := if isExpectedPipeErr first then p else onTransportError p now in
      let p := if isExpectedPipeErr e then p else onTransportError p now in
      cw_put w (unregisterFlow p fid) id (finished r)
  | _ => w
  end.
(** The end of a UDP flow, the [closeOnce] of [closeEntry]. *)
Definition entry_close (w : cworld) (id : Z) (r : proxyReq) : cworld :=
  match rq_kind r, rq_stage r with
  | KUDP, SProxy c fid None =>
      cw_put_res w (unregisterFlow (cw_p w) fid) (cw_clients w ∖ {[c]}) (cw_flows w ∖ {[c]}) id (finished r)
  | _, _ => w
  end.

(** [handleConn] after the negotiation of a CONNECT or BIND. *)
Definition handleConn (w : cworld) (m : clientMetrics) (id : Z) (req : socksRequest) : cworld * clientMetrics :=
  if bool_decide (Cmd req = socksCmdConnect) then
    (begin_request w id KConnect, mkCM (authFailures m) (connectTotal m + 1) (bindTotal m) (udpAssociateTotal m) (udpPacketsIn m) (udpPacketsOut m)
       (udpDropsFrag m) (udpDropsParse m) (udpDropsAssocFull m) (udpDropsNATFull m) (udpDropsNotClient m) (activeAssociations m) (activeNATEntries m))
  else if bool_decide (Cmd req = socksCmdBind) then
    (begin_request w id KBind, mkCM (authFailures m) (connectTotal m) (bindTotal m + 1) (udpAssociateTotal m) (udpPacketsIn m) (udpPacketsOut m)
       (udpDropsFrag m) (udpDropsParse m) (udpDropsAssocFull m) (udpDropsNATFull m) (udpDropsNotClient m) (activeAssociations m) (activeNATEntries m))
  else (w, m).

(** The body of [handleConnect], [handleBind] and the flow of a UDP entry, driven by what its calls
    return; they differ in the kind of the request. *)
Inductive handler_event :=
| EvAdmit (now : Z) (expired : bool) | EvConfig | EvDialed (now : Z) (res : (Z * Transport) + option DialError) | EvOpened (now : Z) (ok : bool)
| EvReply (now : Z) (ok : bool) | EvFirst (e : option goerr) | EvSecond (now : Z) (e : option goerr).
Definition handler_body (w : cworld) (id : Z) (r : proxyReq) (ev : handler_event) : cworld :=
  match rq_stage r, ev with
  | SAdmit, EvAdmit now expired => req_admit w id now expired r
  | SConfig, EvConfig => req_config w id r
  | SDial _ _, EvDialed now res => req_dialed w id now res r
  | SOpen _ _, EvOpened now ok => req_opened w id now ok r
  | SReply _ _ _, EvReply now ok => req_reply w id now ok r
  | SProxy _ _ None, EvFirst e => proxy_first w id e r
  | SProxy _ _ (Some _), EvSecond now e => proxy_second w id now e r
  | _, _ => w
  end.

(** ** Steps *)

Definition set_policy (w : cworld) (p : policyController) : cworld := mkCW p (cw_clients w) (cw_flows w) (cw_reqs w).

Inductive conn_step : cworld -> cworld -> Prop :=
| cst_begin w id k : cw_reqs w !! id = None -> conn_step w (begin_request w id k)
| cst_admit w id r now expired : cw_reqs w !! id = Some r -> rq_stage r = SAdmit -> conn_step w (req_admit w id now expired r)
| cst_config w id r : cw_reqs w !! id = Some r -> rq_stage r = SConfig -> conn_step w (req_config w id r)
| cst_dialed w id r now res :
    cw_reqs w !! id = Some r -> (forall c t, res = inl (c, t) -> c ∉ cw_clients w) -> conn_step w (req_dialed w id now res r)
| cst_opened w id r now ok : cw_reqs w !! id = Some r -> nextFlowID (cw_p w) + 1 < 2 ^ 64 -> conn_step w (req_opened w id now ok r)
| cst_reply w id r now ok : cw_reqs w !! id = Some r -> nextFlowID (cw_p w) + 1 < 2 ^ 64 -> conn_step w (req_reply w id now ok r)
| cst_first w id r e : cw_reqs w !! id = Some r -> rq_kind r <> KUDP -> conn_step w (proxy_first w id e r)
| cst_second w id r now e : cw_reqs w !! id = Some r -> conn_step w (proxy_second w id now e r)
| cst_close w id r : cw_reqs w !! id = Some r -> conn_step w (entry_close w id r)
| cst_tick w now now1 now2 o1 o2 probe : conn_step w (set_policy w (loop_tick (cw_p w) now now1 now2 o1 o2 probe).1)
| cst_error w now : conn_step w (set_policy w (onTransportError (cw_p w) now))
| cst_write w fid up n : conn_step w (set_policy w (flowWriter_Write (cw_p w) fid up n)).

(** ** Ownership *)

Definition holds (r : proxyReq) : bool :=
  match rq_stage r with SConfig | SDial _ _ | SOpen _ _ | SReply _ _ _ => true | _ => false end.
Definition own_client (r : proxyReq) : option Z :=
  match rq_stage r with SOpen c _ | SReply c _ _ | SProxy c _ None => Some c | _ => None end.
Definition own_flow (r : proxyReq) : option Z :=
  match rq_stage r with SReply c _ _ | SProxy c _ None => Some c | _ => None end.
Definition own_fid (r : proxyReq) : option Z :=
  match rq_stage r with SProxy _ f _ => Some f | _ => None end.

(** The connection is open until the first copy ends or the handler returns. *)
Definition conn_flag (r : proxyReq) : bool := match rq_stage r with SProxy _ _ (Some _) | SDone => false | _ => true end.

Definition req_ok (r : proxyReq) : Prop :=
  rq_conn r = conn_flag r
  /\ match rq_stage r with SReply _ _ n => (0 < n)%nat /\ rq_replies r = replicate (reply_count (rq_kind r) - n) socksReplySuccess /\ rq_kind r <> KUDP /\ (n <= reply_count (rq_kind r))%nat
     | SProxy _ _ _ => rq_replies r = replicate (reply_count (rq_kind r)) socksReplySuccess
     | SDone => True
     | _ => rq_replies r = []
     end.

Record conn_inv (w : cworld) : Prop := mkCInv {
  ci_held : pendingPermits (cw_p w) = how_many holds (cw_reqs w);
  ci_clients : owned own_client (cw_reqs w) (cw_clients w);
  ci_flows : owned own_flow (cw_reqs w) (cw_flows w);
  ci_fids : owned own_fid (cw_reqs w) (dom (flows (cw_p w)));
  ci_next : 0 <= nextFlowID (cw_p w) < 2 ^ 64 /\ forall f, f ∈ dom (flows (cw_p w)) -> f <= nextFlowID (cw_p w);
  ci_sub : cw_flows w ⊆ cw_clients w;
  ci_reqs : forall id r, cw_reqs w !! id = Some r -> req_ok r }.

(** What the ticks, the recorded failures and the byte counts of the controller leave alone. *)
Definition same_resources (p q : policyController) : Prop :=
  dom (flows p) = dom (flows q) /\ pendingPermits p = pendingPermits q /\ nextFlowID p = nextFlowID q.

#[global] Instance same_resources_preorder : PreOrder same_resources.
Proof. split; [by intros p|]. intros p q r (? & ? & ?) (? & ? & ?). unfold same_resources. by split_and!; etransitivity. Qed.

Lemma same_core_resources p q : same_core p q -> same_resources p q.
Proof. by intros (_ & _ & H3 & H4 & _ & _ & H7). Qed.
Lemma same_res_switch p now m : same_resources (switchMode p now m) p.
Proof. unfold switchMode. repeat case_on; done. Qed.
Lemma same_res_switch_to now r : same_resources (switch_to now r) r.1.
Proof. destruct r as [p [m|]]; [apply same_res_switch|done]. Qed.
Lemma same_res_quic p now : same_resources (recordQUICFailure p now) p.
Proof. unfold recordQUICFailure. etransitivity; [apply same_res_switch_to|]. by apply same_core_resources, same_core_quic. Qed.
Lemma same_res_error p now : same_resources (onTransportError p now) p.
Proof. unfold onTransportError, recordTransportError. etransitivity; [apply same_res_switch_to|]. by apply same_core_resources, same_core_error. Qed.
Lemma same_res_success p now mode cfg t : same_resources (onDialSuccess p now mode cfg t) p.
Proof. unfold onDialSuccess. repeat case_on; try done; apply same_res_quic. Qed.
Lemma same_res_failure p now cfg de : same_resources (onDialError p now cfg de) p.
Proof.
  unfold onDialError. cbn zeta. destruct (_ && _); [|apply same_res_error]. etransitivity; [apply same_res_error|apply same_res_quic].
Qed.
Lemma same_res_tick p now n1 n2 o1 o2 probe : same_resources (loop_tick p now n1 n2 o1 o2 probe).1 p.
Proof.
  unfold loop_tick. transitivity (probeRTT p now n1 o1 probe).
  - transitivity (evaluateAutoPolicy (probeRTT p now n1 o1 probe) now n2 o2).
    + unfold printStats. by case_on.
    + set (q := probeRTT _ _ _ _ _). unfold evaluateAutoPolicy. pose proof (same_core_read q now) as H. destruct (evaluate_read q now) as [q1 [v|]]; cbn in H.
      * etransitivity; [apply same_res_switch_to|]. etransitivity; [apply same_core_resources, same_core_decide|]. by apply same_core_resources.
      * by apply same_core_resources.
  - unfold probeRTT. destruct (pickProbeClient p o1) as [[c t]|]; [|done]. destruct (probe c); [|case_on|]; try done.
    + apply same_core_resources, same_core_rtt.
    + apply same_res_error.
Qed.

Definition b2z (b : bool) : Z := if b then 1 else 0.

(** One request changes. *)
Lemma conn_inv_put w id r r' p clients fls :
  conn_inv w -> cw_reqs w !! id = Some r ->
  pendingPermits p = pendingPermits (cw_p w) + b2z (holds r') - b2z (holds r) ->
  owned own_client (<[id := r']> (cw_reqs w)) clients -> owned own_flow (<[id := r']> (cw_reqs w)) fls ->
  owned own_fid (<[id := r']> (cw_reqs w)) (dom (flows p)) ->
  0 <= nextFlowID p < 2 ^ 64 /\ (forall f, f ∈ dom (flows p) -> f <= nextFlowID p) -> fls ⊆ clients -> req_ok r' ->
  conn_inv (cw_put_res w p clients fls id r').
Proof.
  intros [H1 H2 H3 H4 H5 H6 H7] Hr Hp Hc Hf Hi Hn Hs Hok. split; cbn [cw_put_res cw_p cw_reqs cw_clients cw_flows]; try done.
  - rewrite (how_many_update _ _ _ _ _ Hr). unfold b2z in Hp. lia.
  - intros j k Hj. destruct (decide (j = id)) as [->|Hne].
    + rewrite lookup_insert_eq in Hj. by injection Hj as <-.
    + rewrite lookup_insert_ne in Hj by done. by apply (H7 j).
Qed.

(** A request that keeps its client, its flow and its registration. *)
Lemma conn_inv_move w id r r' p :
  conn_inv w -> cw_reqs w !! id = Some r ->
  dom (flows p) = dom (flows (cw_p w)) -> nextFlowID p = nextFlowID (cw_p w) ->
  pendingPermits p = pendingPermits (cw_p w) + b2z (holds r') - b2z (holds r) ->
  own_client r' = own_client r -> own_flow r' = own_flow r -> own_fid r' = own_fid r -> req_ok r' ->
  conn_inv (cw_put w p id r').
Proof.
  intros Hi Hr Hd Hn Hp Ec Ef Eid Hok. pose proof Hi as [H1 H2 H3 H4 H5 H6 H7].
  eapply (conn_inv_put w id r r' p (cw_clients w) (cw_flows w)); rewrite ?Hd, ?Hn; eauto using owned_keep.
Qed.

Lemma conn_inv_policy w p : conn_inv w -> same_resources p (cw_p w) -> conn_inv (set_policy w p).
Proof. intros [H1 H2 H3 H4 H5 H6 H7] (D & Pn & N). split; cbn; rewrite ?D, ?Pn, ?N; done. Qed.

Lemma acquire_spec p now :
  dom (flows (acquireFlowPermit p now).1) = dom (flows p) /\ nextFlowID (acquireFlowPermit p now).1 = nextFlowID p
  /\ pendingPermits (acquireFlowPermit p now).1 = pendingPermits p + b2z (acquireFlowPermit p now).2.
Proof. unfold acquireFlowPermit. case_on; [done|]. destruct (_ && _); cbn; split_and!; try done; lia. Qed.

Lemma release_spec p : 0 < pendingPermits p -> pendingPermits (releaseFlowPermit p) = pendingPermits p - 1.
Proof. intros H. cbn. by rewrite (proj2 (Z.ltb_lt _ _)). Qed.

Lemma replied_stage r code : rq_stage (replied r code) = rq_stage r /\ rq_kind (replied r code) = rq_kind r /\ rq_conn (replied r code) = rq_conn r.
Proof. unfold replied. by destruct r as [[]]. Qed.
Lemma finished_none r : holds (finished r) = false /\ own_client (finished r) = None /\ own_flow (finished r) = None /\ own_fid (finished r) = None /\ req_ok (finished r).
Proof. by split_and!. Qed.

Lemma conn_inv_admit w id r now expired :
  conn_inv w -> cw_reqs w !! id = Some r -> rq_stage r = SAdmit -> conn_inv (req_admit w id now expired r).
Proof.
  intros Hi Hr Hs. destruct (ci_reqs _ Hi _ _ Hr) as [Hk Hrep]. rewrite Hs in Hrep. unfold conn_flag in Hk. rewrite Hs in Hk.
  unfold req_admit. destruct (acquire_spec (cw_p w) now) as (D & N & Pn). destruct (acquireFlowPermit (cw_p w) now) as [p ok]. cbn [fst snd] in *.
  assert (Hh : holds r = false /\ own_client r = None /\ own_flow r = None /\ own_fid r = None) by (unfold holds, own_client, own_flow, own_fid; by rewrite Hs).
  destruct Hh as (Hh & Hc & Hf & Hd). destruct ok; [|destruct expired]; cbn [b2z] in Pn.
  - eapply conn_inv_move; try done; rewrite ?Hh, ?Hc, ?Hf, ?Hd; try done. cbn [b2z]. unfold holds, at_stage. cbn. lia.
  - eapply conn_inv_move; try done; rewrite ?Hh, ?Hc, ?Hf, ?Hd; try done. unfold holds, finished. cbn. lia.
  - eapply conn_inv_move; try done; [rewrite Hh; cbn; lia|by apply (ci_reqs _ Hi id)].
Qed.

Lemma conn_inv_config w id r :
  conn_inv w -> cw_reqs w !! id = Some r -> rq_stage r = SConfig -> conn_inv (req_config w id r).
Proof.
  intros Hi Hr Hs. destruct (ci_reqs _ Hi _ _ Hr) as [Hk Hrep]. unfold conn_flag in Hk. rewrite Hs in Hk, Hrep. unfold req_config.
  destruct (match rq_kind r with KUDP => _ | _ => _ end) as [cfg mode].
  eapply conn_inv_move; try done; unfold holds, own_client, own_flow, own_fid; rewrite ?Hs; cbn; [lia|done..].
Qed.

Lemma conn_inv_fail w id r r' p c clients fls :
  conn_inv w -> cw_reqs w !! id = Some r -> holds r = true -> own_fid r = None -> same_resources p (releaseFlowPermit (cw_p w)) ->
  (own_client r = c /\ clients = match c with Some c => cw_clients w ∖ {[c]} | None => cw_clients w end) ->
  fls = match own_flow r with Some c => cw_flows w ∖ {[c]} | None => cw_flows w end -> (forall x, own_flow r = Some x -> own_client r = Some x) ->
  (own_flow r = None -> match c with Some c => c ∉ cw_flows w | None => True end) ->
  conn_inv (cw_put_res w p clients fls id (finished r')).
Proof.
  intros Hi Hr Hh Hd (D & Pn & N) [Hc ->] -> Hfc Hcf. destruct (finished_none r') as (F1 & F2 & F3 & F4 & F5).
  pose proof (how_many_pos _ _ _ _ Hr Hh) as Hpos. pose proof (ci_held _ Hi) as Hheld.
  eapply conn_inv_put; eauto.
  - rewrite Pn, release_spec by lia. rewrite F1, Hh. cbn. lia.
  - destruct c as [c|]; [eapply owned_drop; eauto using ci_clients|eapply owned_keep; eauto using ci_clients; congruence].
  - destruct (own_flow r) as [x|] eqn:Ef; [eapply owned_drop; eauto using ci_flows|eapply owned_keep; eauto using ci_flows; congruence].
  - rewrite D. eapply owned_keep; eauto using ci_fids.
  - rewrite D, N. apply (ci_next _ Hi).
  - pose proof (ci_sub _ Hi). destruct (own_flow r) as [x|] eqn:Ef.
    + rewrite (Hfc x eq_refl) in Hc. subst c. set_solver.
    + specialize (Hcf eq_refl). destruct c; set_solver.
Qed.

Lemma own_flow_client r x : own_flow r = Some x -> own_client r = Some x.
Proof. unfold own_flow, own_client. destruct (rq_stage r) as [| | | | |? ? []|]; try done. Qed.

(** A client whose flow is not open yet. *)
Lemma client_without_flow w id r c :
  conn_inv w -> cw_reqs w !! id = Some r -> own_client r = Some c -> own_flow r = None -> c ∉ cw_flows w.
Proof.
  intros Hi Hr Hc Hf Hin. apply (ci_flows _ Hi) in Hin as (j & k & Hj & Hk).
  assert (j = id) as -> by (eapply (proj2 (ci_clients _ Hi)); eauto using own_flow_client). congruence.
Qed.

Lemma conn_inv_dialed w id r now res :
  conn_inv w -> cw_reqs w !! id = Some r -> (forall c t, res = inl (c, t) -> c ∉ cw_clients w) -> conn_inv (req_dialed w id now res r).
Proof.
  intros Hi Hr Hnew. unfold req_dialed. destruct (rq_stage r) as [| |cfg mode| | | |] eqn:Hs; try done.
  destruct (ci_reqs _ Hi _ _ Hr) as [Hk Hrep]. unfold conn_flag in Hk. rewrite Hs in Hk, Hrep.
  destruct res as [[c t]|de].
  - destruct (same_res_success (cw_p w) now mode cfg t) as (D & Pn & N). specialize (Hnew c t eq_refl).
    eapply conn_inv_put; try done.
    + rewrite Pn. unfold holds. rewrite Hs. cbn. lia.
    + eapply owned_take; [apply Hi|done|by unfold own_client; rewrite Hs|done|done].
    + eapply owned_keep; [apply Hi|done|by unfold own_flow; rewrite Hs].
    + rewrite D. eapply owned_keep; [apply Hi|done|by unfold own_fid; rewrite Hs].
    + rewrite D, N. apply Hi.
    + pose proof (ci_sub _ Hi). set_solver.
  - unfold cw_put. eapply (conn_inv_fail w id r _ _ None); try done; unfold holds, own_fid, own_client, own_flow; rewrite ?Hs; try done. apply same_res_failure.
Qed.

(** The registration of the flow. *)
Lemma conn_inv_register w id r r0 now c t clients fls :
  conn_inv w -> cw_reqs w !! id = Some r -> holds r = true -> own_fid r = None -> nextFlowID (cw_p w) + 1 < 2 ^ 64 ->
  rq_kind r0 = rq_kind r -> rq_conn r0 = true -> rq_replies r0 = replicate (reply_count (rq_kind r)) socksReplySuccess ->
  owned own_client (<[id := at_stage r0 (SProxy c (nextFlowID (cw_p w) + 1) None)]> (cw_reqs w)) clients ->
  owned own_flow (<[id := at_stage r0 (SProxy c (nextFlowID (cw_p w) + 1) None)]> (cw_reqs w)) fls -> fls ⊆ clients ->
  conn_inv (req_register (mkCW (cw_p w) clients fls (cw_reqs w)) id now c t r0).
Proof.
  intros Hi Hr Hh Hd Hn Hk Hcn Hrep Hc Hf Hs. destruct (ci_next _ Hi) as [Hn0 Hle].
  unfold req_register. cbn [cw_p]. unfold registerFlow. rewrite (u64_small (nextFlowID (cw_p w) + 1)) by (unfold is_u64; lia).
  pose proof (how_many_pos _ _ _ _ Hr Hh) as Hpos. rewrite <- (ci_held _ Hi) in Hpos.
  rewrite (proj2 (Z.ltb_lt 0 (pendingPermits _))) by lia.
  eapply (conn_inv_put w id r _ _ clients fls); try done; cbn [set_flows pendingPermits flows nextFlowID].
  - rewrite Hh. cbn. lia.
  - rewrite dom_insert_L. eapply owned_take; [apply Hi|done|done|done|]. intros Hin. apply Hle in Hin. lia.
  - split; [lia|]. intros f. rewrite dom_insert_L, elem_of_union, elem_of_singleton. intros [->|Hin]; [lia|]. apply Hle in Hin. lia.
  - split; [exact Hcn|]. cbn. by rewrite Hk.
Qed.

Lemma conn_inv_opened w id r now ok :
  conn_inv w -> cw_reqs w !! id = Some r -> nextFlowID (cw_p w) + 1 < 2 ^ 64 -> conn_inv (req_opened w id now ok r).
Proof.
  intros Hi Hr Hn. unfold req_opened. destruct (rq_stage r) as [| | |c t| | |] eqn:Hs; try done.
  destruct (ci_reqs _ Hi _ _ Hr) as [Hk Hrep]. unfold conn_flag in Hk. rewrite Hs in Hk, Hrep.
  assert (Hc : own_client r = Some c) by (unfold own_client; by rewrite Hs). assert (Hf : own_flow r = None) by (unfold own_flow; by rewrite Hs).
  assert (Hd : own_fid r = None) by (unfold own_fid; by rewrite Hs). assert (Hh : holds r = true) by (unfold holds; by rewrite Hs).
  pose proof (client_without_flow _ _ _ _ Hi Hr Hc Hf) as Hnf. pose proof (owned_in _ _ _ _ _ _ (ci_clients _ Hi) Hr Hc) as Hin. pose proof (ci_sub _ Hi).
  destruct ok.
  - assert (Hgo : forall r', own_client r' = Some c -> own_flow r' = Some c ->
      owned own_client (<[id := r']> (cw_reqs w)) (cw_clients w) /\ owned own_flow (<[id := r']> (cw_reqs w)) ({[c]} ∪ cw_flows w)).
    { intros r' H1 H2. split; [eapply owned_keep; [apply Hi|done|congruence]|eapply owned_take; [apply Hi|done..]]. }
    assert (Hput : forall k, rq_kind r = k -> k <> KUDP -> conn_inv (cw_put (mkCW (cw_p w) (cw_clients w) ({[c]} ∪ cw_flows w) (cw_reqs w)) (cw_p w) id (at_stage r (SReply c t (reply_count k))))).
    { intros k Ek Hku. destruct (Hgo (at_stage r (SReply c t (reply_count k))) eq_refl eq_refl).
      eapply (conn_inv_put w id r); try done; [rewrite Hh; cbn; lia|eapply owned_keep; [apply Hi|done|done]|apply Hi|set_solver|].
      split; [done|]. cbn. rewrite Ek. split_and!; [destruct k; cbn; lia||done|rewrite Hrep; by destruct k|done|lia]. }
    destruct (rq_kind r) eqn:Ek; [by apply Hput|by apply Hput|].
    destruct (Hgo (at_stage r (SProxy c (nextFlowID (cw_p w) + 1) None)) eq_refl eq_refl). apply (conn_inv_register w id r r now c t); try done; [by rewrite Ek|set_solver].
  - eapply (conn_inv_fail w id r _ _ (Some c)); try done; [apply same_res_error|by rewrite Hf|congruence].
Qed.

Lemma conn_inv_reply w id r now ok :
  conn_inv w -> cw_reqs w !! id = Some r -> nextFlowID (cw_p w) + 1 < 2 ^ 64 -> conn_inv (req_reply w id now ok r).
Proof.
  intros Hi Hr Hn. unfold req_reply. destruct (rq_stage r) as [| | | |c t [|n]| |] eqn:Hs; try done.
  destruct (ci_reqs _ Hi _ _ Hr) as [Hk Hrep]. unfold conn_flag in Hk. rewrite Hs in Hk, Hrep. destruct Hrep as (_ & Hrep & Hku & Hle).
  assert (Hc : own_client r = Some c) by (unfold own_client; by rewrite Hs). assert (Hf : own_flow r = Some c) by (unfold own_flow; by rewrite Hs).
  assert (Hd : own_fid r = None) by (unfold own_fid; by rewrite Hs). assert (Hh : holds r = true) by (unfold holds; by rewrite Hs).
  destruct (replied_stage r socksReplySuccess) as (R1 & R2 & R3).
  assert (Hr2 : rq_replies (replied r socksReplySuccess) = replicate (reply_count (rq_kind r) - n) socksReplySuccess).
  { unfold replied. destruct (rq_kind r) eqn:Ek; [| |done]; cbn [rq_replies reply_count] in *; rewrite Hrep; destruct n as [|[|n]]; try done; cbn in Hle; lia. }
  destruct ok; [destruct n as [|n]|].
  - replace w with (mkCW (cw_p w) (cw_clients w) (cw_flows w) (cw_reqs w)) by by destruct w.
    apply (conn_inv_register w id r _ now c t); try done; [by rewrite R3|by rewrite Hr2, Nat.sub_0_r| | |apply Hi]; (eapply owned_keep; [apply Hi|done|by rewrite ?Hc, ?Hf]).
  - eapply conn_inv_move; try done; rewrite ?Hh, ?Hc, ?Hf, ?Hd; try done; [cbn; lia|].
    split; [cbn; by rewrite R3|]. cbn. rewrite R2. split_and!; [lia|done|done|lia].
  - eapply (conn_inv_fail w id r _ _ (Some c)); try done; [apply same_res_error|by rewrite Hf|congruence|congruence].
Qed.

(** The end of a request that relays. *)
Lemma conn_inv_proxy w id r r' c fid p :
  conn_inv w -> cw_reqs w !! id = Some r -> rq_stage r = SProxy c fid None ->
  own_client r' = None -> own_flow r' = None -> holds r' = false -> req_ok r' ->
  pendingPermits p = pendingPermits (cw_p w) -> nextFlowID p = nextFlowID (cw_p w) ->
  (own_fid r' = Some fid /\ dom (flows p) = dom (flows (cw_p w)) \/ own_fid r' = None /\ dom (flows p) = dom (flows (cw_p w)) ∖ {[fid]}) ->
  conn_inv (cw_put_res w p (cw_clients w ∖ {[c]}) (cw_flows w ∖ {[c]}) id r').
Proof.
  intros Hi Hr Hs H1 H2 H3 H4 Hp Hn Hfid.
  assert (Hc : own_client r = Some c) by (unfold own_client; by rewrite Hs). assert (Hf : own_flow r = Some c) by (unfold own_flow; by rewrite Hs).
  assert (Hd : own_fid r = Some fid) by (unfold own_fid; by rewrite Hs). assert (Hh : holds r = false) by (unfold holds; by rewrite Hs).
  eapply conn_inv_put; try done.
  - rewrite Hh, H3. cbn. lia.
  - eapply owned_drop; [apply Hi|done..].
  - eapply owned_drop; [apply Hi|done..].
  - destruct Hfid as [[Hx ->]|[Hx ->]]; [eapply owned_keep; [apply Hi|done|congruence]|eapply owned_drop; [apply Hi|done..]].
  - rewrite Hn. split; [apply (ci_next _ Hi)|]. intros f Hin. apply (ci_next _ Hi). destruct Hfid as [[_ E]|[_ E]]; rewrite E in Hin; set_solver.
  - pose proof (ci_sub _ Hi). set_solver.
Qed.

Lemma conn_inv_second w id r now e : conn_inv w -> cw_reqs w !! id = Some r -> conn_inv (proxy_second w id now e r).
Proof.
  intros Hi Hr. unfold proxy_second. destruct (rq_stage r) as [| | | | |c fid [first|]|] eqn:Hs; try done.
  set (p1 := if isExpectedPipeErr first then _ else _). set (p2 := if isExpectedPipeErr e then _ else _).
  assert (Hp : same_resources p2 (cw_p w)).
  { transitivity p1; [unfold p2; case_on; [done|apply same_res_error]|unfold p1; case_on; [done|apply same_res_error]]. }
  destruct Hp as (D & Pn & N). assert (Hd : own_fid r = Some fid) by (unfold own_fid; by rewrite Hs).
  destruct (finished_none r) as (F1 & F2 & F3 & F4 & F5).
  eapply (conn_inv_put w id r (finished r) _ (cw_clients w) (cw_flows w)); try done; cbn [unregisterFlow set_flows pendingPermits flows nextFlowID].
  - rewrite Pn, F1. unfold holds. rewrite Hs. cbn. lia.
  - eapply owned_keep; [apply Hi|done|]. rewrite F2. unfold own_client. by rewrite Hs.
  - eapply owned_keep; [apply Hi|done|]. rewrite F3. unfold own_flow. by rewrite Hs.
  - rewrite dom_delete_L, D. eapply owned_drop; [apply Hi|done..].
  - rewrite dom_delete_L, D, N. split; [apply (ci_next _ Hi)|]. intros f Hf. apply (ci_next _ Hi). set_solver.
  - apply Hi.
Qed.

Lemma conn_inv_begin w id k : conn_inv w -> cw_reqs w !! id = None -> conn_inv (begin_request w id k).
Proof.
  intros Hi Hr. destruct Hi as [H1 H2 H3 H4 H5 H6 H7]. split; cbn [begin_request cw_put cw_p cw_reqs cw_clients cw_flows]; try done.
  - rewrite how_many_new by done. cbn. lia.
  - by apply owned_new.
  - by apply owned_new.
  - by apply owned_new.
  - intros j r Hj. destruct (decide (j = id)) as [->|Hne].
    + rewrite lookup_insert_eq in Hj. by injection Hj as <-.
    + rewrite lookup_insert_ne in Hj by done. by apply (H7 j).
Qed.

Lemma conn_inv_step w w' : conn_inv w -> conn_step w w' -> conn_inv w'.
Proof.
  intros Hi Hs. destruct Hs.
  - by apply conn_inv_begin.
  - by apply conn_inv_admit.
  - by apply conn_inv_config.
  - by apply conn_inv_dialed.
  - by apply conn_inv_opened.
  - by apply conn_inv_reply.
  - unfold proxy_first. destruct (rq_stage r) as [| | | | |c fid [|]|] eqn:Hst; try done.
    destruct (ci_reqs _ Hi _ _ H) as [_ Hrep]. rewrite Hst in Hrep. eapply conn_inv_proxy; try done. by left.
  - by apply conn_inv_second.
  - unfold entry_close. destruct (rq_kind r), (rq_stage r) as [| | | | |c fid [|]|] eqn:Hst; try done.
    eapply conn_inv_proxy; try done; try apply finished_none. right. split; [done|]. cbn. by rewrite dom_delete_L.
  - apply conn_inv_policy; [done|apply same_res_tick].
  - apply conn_inv_policy; [done|apply same_res_error].
  - apply conn_inv_policy; [done|]. apply same_core_resources, same_core_write.
Qed.

Definition start_world (cfg : ClientConfig) (mode : clientMode) (now : Z) : cworld := mkCW (newPolicyController cfg mode now) ∅ ∅ ∅.

Lemma conn_inv_init cfg mode now : conn_inv (start_world cfg mode now).
Proof. split; cbn; try done; try apply owned_empty. Qed.

Lemma conn_inv_reachable cfg mode now w : rtc conn_step (start_world cfg mode now) w -> conn_inv w.
Proof.
  intros H. assert (Hg : forall w0, rtc conn_step w0 w -> conn_inv w0 -> conn_inv w) by (induction 1; eauto using conn_inv_step).
  eapply Hg; [exact H|apply conn_inv_init].
Qed.

(** A client that a dial returns is a new one, and fewer than [2 ^ 64] flows are ever registered. *)
Definition event_ok (w : cworld) (ev : handler_event) : Prop :=
  match ev with
  | EvDialed _ (inl (c, _)) => c ∉ cw_clients w
  | EvOpened _ _ | EvReply _ _ => nextFlowID (cw_p w) + 1 < 2 ^ 64
  | _ => True
  end.

(** Running a handler is a run of steps. *)
Lemma handler_body_step w id r ev :
  cw_reqs w !! id = Some r -> rq_kind r <> KUDP -> event_ok w ev -> rtc conn_step w (handler_body w id r ev).
Proof.
  intros Hr Hk Hev. unfold handler_body. destruct (rq_stage r) as [| | | | |x f [|]|] eqn:Hs, ev as [? ?| |? res|? ?|? ?|?|? ?]; try done; apply rtc_once.
  - by apply cst_admit.
  - by apply cst_config.
  - apply cst_dialed; [done|]. intros c t ->. done.
  - by apply cst_opened.
  - by apply cst_reply.
  - by apply cst_second.
  - by apply cst_first.
Qed.

(** ** Theorems *)

(** C21: Nothing of a request is left behind, in any interleaving of any number of requests: the permits
    in use are those of the requests that are being set up; the open session clients, the open flows
    and the flows registered with the controller are exactly those of the requests that are under
    way, each its own. So when every request is done, no permit is in use, no client and no flow is
    open, no flow is registered, and the connections of the applications are closed. *)
Theorem socks_requests_no_leak cfg mode now w :
  rtc conn_step (start_world cfg mode now) w ->
  pendingPermits (cw_p w) = how_many holds (cw_reqs w)
  /\ owned own_client (cw_reqs w) (cw_clients w) /\ owned own_flow (cw_reqs w) (cw_flows w)
  /\ owned own_fid (cw_reqs w) (dom (flows (cw_p w)))
  /\ ((forall id r, cw_reqs w !! id = Some r -> rq_stage r = SDone) ->
      pendingPermits (cw_p w) = 0 /\ cw_clients w = ∅ /\ cw_flows w = ∅ /\ flows (cw_p w) = ∅
      /\ forall id r, cw_reqs w !! id = Some r -> rq_conn r = false).
Proof.
  intros [H1 H2 H3 H4 H5 H6 H7]%conn_inv_reachable. split_and!; try done. intros Hdone.
  assert (Hnone : forall own (R : gset Z), owned own (cw_reqs w) R -> (forall r, rq_stage r = SDone -> own r = None) -> R = ∅).
  { intros own R [Ho _] Hn. apply set_eq. intros x. rewrite Ho. split; [|set_solver]. intros (i & r & Hi & Hx).
    rewrite (Hn r (Hdone _ _ Hi)) in Hx. done. }
  split_and!.
  - rewrite H1. apply how_many_zero. intros i r Hi. unfold holds. by rewrite (Hdone _ _ Hi).
  - eapply Hnone; [done|]. intros r Hr. unfold own_client. by rewrite Hr.
  - eapply Hnone; [done|]. intros r Hr. unfold own_flow. by rewrite Hr.
  - apply dom_empty_inv_L. eapply Hnone; [done|]. intros r Hr. unfold own_fid. by rewrite Hr.
  - intros id r Hr. destruct (H7 _ _ Hr) as [-> _]. unfold conn_flag. by rewrite (Hdone _ _ Hr).
Qed.

(** What the application is told, as long as its request relays: one success for a CONNECT and two
    for a BIND, sent before the relaying begins and nothing else; before the flow is open, nothing
    is sent at all. *)
Theorem socks_replies cfg mode now w id r :
  rtc conn_step (start_world cfg mode now) w -> cw_reqs w !! id = Some r ->
  match rq_stage r with
  | SProxy _ _ _ => rq_replies r = replicate (reply_count (rq_kind r)) socksReplySuccess
  | SReply _ _ n => (0 < n)%nat /\ (length (rq_replies r) + n = reply_count (rq_kind r))%nat /\ Forall (fun b => b = socksReplySuccess) (rq_replies r)
  | SDone => True
  | _ => rq_replies r = []
  end.
Proof.
  intros Hi%conn_inv_reachable Hr. destruct (ci_reqs _ Hi _ _ Hr) as [_ H]. destruct (rq_stage r); try done.
  destruct H as (H1 & -> & H3 & H4). split_and!; [done|rewrite length_replicate; lia|by apply Forall_replicate].
Qed.

(** A request gets through: a permit is granted, the dial and the open succeed, and the replies can
    be written; then it relays, under a new number. *)
Theorem socks_connect_relays (w : cworld) (id now c : Z) (t : Transport) :
  conn_inv w -> cw_reqs w !! id = None -> configured (cw_p w) <> modeAuto -> c ∉ cw_clients w -> nextFlowID (cw_p w) + 1 < 2 ^ 64 ->
  exists w', rtc conn_step w w' /\ cw_reqs w' !! id = Some (mkReq KConnect true [socksReplySuccess] (SProxy c (nextFlowID (cw_p w) + 1) None))
    /\ pendingPermits (cw_p w') = pendingPermits (cw_p w).
Proof.
  intros Hi Hr Hm Hc Hn.
  set (w1 := begin_request w id KConnect). assert (R1 : cw_reqs w1 !! id = Some (mkReq KConnect true [] SAdmit)) by apply lookup_insert_eq.
  set (w2 := req_admit w1 id now false (mkReq KConnect true [] SAdmit)).
  assert (Ea : acquireFlowPermit (cw_p w1) now = (set_permits (cw_p w) (caps (cw_p w)) (pendingPermits (cw_p w) + 1), true)).
  { unfold acquireFlowPermit. cbn. by rewrite bool_decide_eq_false_2. }
  assert (E2 : w2 = cw_put w1 (set_permits (cw_p w) (caps (cw_p w)) (pendingPermits (cw_p w) + 1)) id (mkReq KConnect true [] SConfig)).
  { unfold w2, req_admit. by rewrite Ea. }
  assert (R2 : cw_reqs w2 !! id = Some (mkReq KConnect true [] SConfig)) by (rewrite E2; apply lookup_insert_eq).
  set (w3 := req_config w2 id (mkReq KConnect true [] SConfig)).
  destruct (dialConfig (cw_p w2)) as [cfg mode] eqn:Ed.
  assert (E3 : w3 = cw_put w2 (cw_p w2) id (mkReq KConnect true [] (SDial cfg mode))) by (unfold w3, req_config; cbn [rq_kind]; by rewrite Ed).
  assert (R3 : cw_reqs w3 !! id = Some (mkReq KConnect true [] (SDial cfg mode))) by (rewrite E3; apply lookup_insert_eq).
  set (w4 := req_dialed w3 id now (inl (c, t)) (mkReq KConnect true [] (SDial cfg mode))).
  assert (R4 : cw_reqs w4 !! id = Some (mkReq KConnect true [] (SOpen c t))) by apply lookup_insert_eq.
  set (w5 := req_opened w4 id now true (mkReq KConnect true [] (SOpen c t))).
  assert (R5 : cw_reqs w5 !! id = Some (mkReq KConnect true [] (SReply c t 1))) by apply lookup_insert_eq.
  set (w6 := req_reply w5 id now true (mkReq KConnect true [] (SReply c t 1))).
  assert (S4 : same_resources (cw_p w5) (cw_p w2)).
  { transitivity (cw_p w3); [|by rewrite E3]. unfold w5, w4. cbn. apply same_res_success. }
  assert (N2 : nextFlowID (cw_p w2) = nextFlowID (cw_p w) /\ pendingPermits (cw_p w2) = pendingPermits (cw_p w) + 1) by (by rewrite E2).
  destruct S4 as (D & Pn & N). destruct N2 as [N2 P2].
  assert (N3 : nextFlowID (cw_p w4) = nextFlowID (cw_p w)) by (rewrite <- N2, <- N; done).
  assert (Hcl : cw_clients w3 = cw_clients w) by (rewrite E3; cbn; rewrite E2; done).
  exists w6. split_and!.
  - eapply rtc_l; [apply (cst_begin w id KConnect Hr)|]. eapply rtc_l; [apply (cst_admit w1 id _ now false R1 eq_refl)|].
    eapply rtc_l; [apply (cst_config w2 id _ R2 eq_refl)|]. eapply rtc_l; [apply (cst_dialed w3 id _ now (inl (c, t)) R3); intros ? ? [= <- <-]; by rewrite Hcl|].
    eapply rtc_l; [apply (cst_opened w4 id _ now true R4); lia|]. apply rtc_once. apply (cst_reply w5 id _ now true R5). rewrite N. lia.
  - unfold w6, req_reply. cbn [rq_stage replied rq_kind]. unfold req_register, registerFlow. rewrite N, N2. rewrite u64_small by (pose proof (ci_next _ Hi); unfold is_u64; lia). apply lookup_insert_eq.
  - unfold w6, req_reply. cbn [rq_stage replied rq_kind]. unfold req_register, registerFlow. cbn [cw_put cw_p set_flows pendingPermits]. rewrite Pn, P2.
    pose proof (how_many_nonneg holds (cw_reqs w)). rewrite <- (ci_held _ Hi) in *. rewrite (proj2 (Z.ltb_lt _ _)) by lia. lia.
Qed.

(** ** Witnesses *)

Definition ex_world0 : cworld := start_world example_base modeNormal 0.
Definition ex_world1 : cworld := begin_request ex_world0 7 KConnect.
Definition ex_world2 : cworld := req_admit ex_world1 7 0 false (mkReq KConnect true [] SAdmit).

Lemma ex_world2_reachable : rtc conn_step ex_world0 ex_world2.
Proof.
  eapply rtc_l; [apply (cst_begin ex_world0 7 KConnect); reflexivity|]. apply rtc_once.
  apply (cst_admit ex_world1 7 (mkReq KConnect true [] SAdmit) 0 false); reflexivity.
Qed.

Lemma socks_requests_no_leak_witness :
  pendingPermits (cw_p ex_world2) = 1 /\ pendingPermits (cw_p ex_world2) = how_many holds (cw_reqs ex_world2).
Proof. split; [reflexivity|]. apply (socks_requests_no_leak example_base modeNormal 0 ex_world2). exact ex_world2_reachable. Defined.

Lemma socks_replies_witness : rq_replies (mkReq KConnect true [] SConfig) = [].
Proof. apply (socks_replies example_base modeNormal 0 ex_world2 7 (mkReq KConnect true [] SConfig)); [exact ex_world2_reachable|reflexivity]. Defined.

Lemma socks_connect_relays_witness :
  exists w', rtc conn_step ex_world0 w' /\ cw_reqs w' !! 7 = Some (mkReq KConnect true [socksReplySuccess] (SProxy 3 1 None))
    /\ pendingPermits (cw_p w') = 0.
Proof.
  apply (socks_connect_relays ex_world0 7 0 3 TransportQUIC); [apply conn_inv_init|reflexivity|discriminate|set_solver|reflexivity].
Defined.
