(* ===== verification/SocksUDP.v ===== *)
(** * The SOCKS5 client: UDP associations ([cmd/socks_client/main.go])

    [udpAssociationManager] and [udpAssociation]: the NAT table of an association maps the key of a
    target to the entry that carries its flow. The flow of an entry is a request of the file
    SocksConn, under the number of the entry. The goroutines of an association are the reader of
    the application's datagrams, the janitor, a reverse loop for each entry, and the watcher of the
    control connection. *)

From S2P Require Import Prelude Wire Ownership GoString ClientConfig Client Socks SocksPolicy SocksConn.

(** ** State *)

Record udpNATEntry := mkNE { ne_key : string; ne_target : socksTarget; ne_lastActive : Z; ne_loop : bool }.

(** What the reader is doing: waiting for a datagram, waiting in [getOrCreateEntry] for the flow of
    the request [id], sending a payload on an entry; it may have returned. *)
Inductive reader_stage :=
| RIdle | RCreate (id : Z) (t : socksTarget) (payload : list byte) | RSend (eid : Z) (payload : list byte) | REnd.

Definition addr : Type := list byte * Z.

Record udpAssociation := mkAssoc {
  ua_clientIP : option (list byte); ua_clientUDP : option addr; ua_nat : gmap string Z; ua_entries : gmap Z udpNATEntry;
  ua_closing : bool; ua_reader : reader_stage; ua_sent : list (addr * list byte); ua_forwarded : list (Z * list byte) }.

Record udpManagerConfig := mkUM { um_idleTimeout : Z; um_maxAssoc : Z; um_maxNAT : Z }.

Record uworld := mkUW { uw_c : cworld; uw_m : clientMetrics; uw_cfg : udpManagerConfig; uw_nextID : Z; uw_items : gset Z; uw_assocs : gmap Z udpAssociation }.

Definition newUDPAssociationManager (idle maxAssoc maxNAT : Z) : udpManagerConfig :=
  mkUM (if idle <=? 0 then 60 * Second else idle) (if maxAssoc <=? 0 then 128 else maxAssoc) (if maxNAT <=? 0 then 4096 else maxNAT).

Definition set_assoc (w : uworld) (aid : Z) (a : udpAssociation) : uworld :=
  mkUW (uw_c w) (uw_m w) (uw_cfg w) (uw_nextID w) (uw_items w) (<[aid := a]> (uw_assocs w)).
Definition set_c (w : uworld) (c : cworld) : uworld := mkUW c (uw_m w) (uw_cfg w) (uw_nextID w) (uw_items w) (uw_assocs w).
Definition set_m (w : uworld) (m : clientMetrics) : uworld := mkUW (uw_c w) m (uw_cfg w) (uw_nextID w) (uw_items w) (uw_assocs w).

Definition ua_set_reader (a : udpAssociation) (r : reader_stage) : udpAssociation :=
  mkAssoc (ua_clientIP a) (ua_clientUDP a) (ua_nat a) (ua_entries a) (ua_closing a) r (ua_sent a) (ua_forwarded a).
Definition ua_set_nat (a : udpAssociation) (nat : gmap string Z) (entries : gmap Z udpNATEntry) : udpAssociation :=
  mkAssoc (ua_clientIP a) (ua_clientUDP a) nat entries (ua_closing a) (ua_reader a) (ua_sent a) (ua_forwarded a).
Definition ua_set_udp (a : udpAssociation) (u : option addr) : udpAssociation :=
  mkAssoc (ua_clientIP a) u (ua_nat a) (ua_entries a) (ua_closing a) (ua_reader a) (ua_sent a) (ua_forwarded a).

(** The counters of the metrics. *)
Inductive ucounter := UIn | UOut | UFrag | UParse | UAssocFull | UNATFull | UNotClient | UAssociations | UEntries | UAssociate.
Definition bump (m : clientMetrics) (c : ucounter) (n : Z) : clientMetrics :=
  let at_ x := match c, x with
    | UIn, UIn | UOut, UOut | UFrag, UFrag | UParse, UParse | UAssocFull, UAssocFull | UNATFull, UNATFull | UNotClient, UNotClient
    | UAssociations, UAssociations | UEntries, UEntries | UAssociate, UAssociate => n | _, _ => 0 end in
  mkCM (authFailures m) (connectTotal m) (bindTotal m) (udpAssociateTotal m + at_ UAssociate) (udpPacketsIn m + at_ UIn) (udpPacketsOut m + at_ UOut)
    (udpDropsFrag m + at_ UFrag) (udpDropsParse m + at_ UParse) (udpDropsAssocFull m + at_ UAssocFull) (udpDropsNATFull m + at_ UNATFull)
    (udpDropsNotClient m + at_ UNotClient) (activeAssociations m + at_ UAssociations) (activeNATEntries m + at_ UEntries).
Definition count (w : uworld) (c : ucounter) (n : Z) : uworld := set_m w (bump (uw_m w) c n).

(** ** Addresses *)

(** [net.IP.Equal]. *)
Definition ip_Equal (a b : list byte) : bool :=
  if decide (length a = length b) then bool_decide (a = b)
  else if bool_decide (length a = 4%nat /\ length b = 16%nat) then bool_decide (take 12 b = mapped_prefix /\ a = drop 12 b)
  else if bool_decide (length a = 16%nat /\ length b = 4%nat) then bool_decide (take 12 a = mapped_prefix /\ b = drop 12 a)
  else false.

(** [src = None]: no address, or one without an IP. *)
Definition acceptClientSource (a : udpAssociation) (src : option addr) : udpAssociation * bool :=
  match src with
  | None => (a, false)
  | Some (ip, port) =>
      if match ua_clientIP a with Some cip => negb (ip_Equal ip cip) | None => false end then (a, false)
      else match ua_clientUDP a with
      | None => (ua_set_udp a (Some (ip, port)), true)
      | Some (uip, _) => if ip_Equal uip ip then (ua_set_udp a (Some (uip, port)), true) else (a, true)
      end
  end.
Definition clientEndpoint (a : udpAssociation) : option addr := ua_clientUDP a.

(** ** The manager *)

(** The address that the socket of a new association is bound to. *)
Definition bind_ip (laddr : option (list byte)) : list byte :=
  match laddr with
  | Some ip =>
      if bool_decide (ip = replicate 4 x00 \/ ip = replicate 16 x00 \/ ip = mapped_prefix ++ replicate 4 x00) then [x7f; x00; x00; x01]
      else match To4 ip with
      | Some ip4 => ip4
      | None => match To16 ip with Some _ => ip | None => [x7f; x00; x00; x01] end
      end
  | None => [x7f; x00; x00; x01]
  end.

Section UDP.
  Context (parse6 : list byte -> option (list byte)).

(** [Create]: [listen] says whether the socket could be opened, [raddr] is the remote address of
    the control connection. *)
Definition Create (w : uworld) (raddr : option (list byte)) (reqTarget : socksTarget) (listen : bool) : uworld * option Z :=
  if negb listen then (w, None)
  else if um_maxAssoc (uw_cfg w) <=? Z.of_nat (size (uw_items w)) then (count w UAssocFull 1, None)
  else
    let id := u64 (uw_nextID w + 1) in
    let udp := if (0 <? Port reqTarget) && negb (String.eqb (Host reqTarget) "")
               then (fun ip => (ip, Port reqTarget)) <$> ParseIP parse6 (Host reqTarget) else None in
    let a := mkAssoc raddr udp ∅ ∅ false RIdle [] [] in
    let w := count w UAssociations 1 in
    (mkUW (uw_c w) (uw_m w) (uw_cfg w) id ({[id]} ∪ uw_items w) (<[id := a]> (uw_assocs w)), Some id).

(** [closeEntry]: the body of [closeOnce], for an entry whose flow is open. *)
Definition closeEntry (w : uworld) (aid eid : Z) : uworld :=
  match uw_assocs w !! aid, cw_reqs (uw_c w) !! eid with
  | Some a, Some r =>
      match ua_entries a !! eid, rq_kind r, rq_stage r with
      | Some e, KUDP, SProxy _ _ None =>
          let mine := bool_decide (ua_nat a !! ne_key e = Some eid) in
          let w := if mine then count (set_assoc w aid (ua_set_nat a (delete (ne_key e) (ua_nat a)) (ua_entries a))) UEntries (-1) else w in
          set_c w (entry_close (uw_c w) eid r)
      | _, _, _ => w
      end
  | _, _ => w
  end.
Definition close_entries (w : uworld) (aid : Z) (ids : list Z) : uworld := foldl (fun w eid => closeEntry w aid eid) w ids.

(** [udpAssociation.Close]. *)
Definition assoc_Close (w : uworld) (aid : Z) : uworld :=
  match uw_assocs w !! aid with
  | Some a =>
      if ua_closing a then w
      else
        let entries := (map_to_list (ua_nat a)).*2 in
        let a := mkAssoc (ua_clientIP a) (ua_clientUDP a) ∅ (ua_entries a) true (ua_reader a) (ua_sent a) (ua_forwarded a) in
        let w := close_entries (set_assoc w aid a) aid entries in
        count (mkUW (uw_c w) (uw_m w) (uw_cfg w) (uw_nextID w) (uw_items w ∖ {[aid]}) (uw_assocs w)) UAssociations (-1)
  | None => w
  end.
Definition CloseAll (w : uworld) : uworld := foldl assoc_Close w (elements (uw_items w)).

(** ** The reader *)

(** A datagram: what the checks let through. *)
Definition accept_packet (w : uworld) (aid : Z) (a : udpAssociation) (src : option addr) (raw : list byte) : uworld * option (socksTarget * list byte) :=
  if zlen raw =? 0 then (w, None)
  else
    let w := count w UIn 1 in
    let '(a, ok) := acceptClientSource a src in
    let w := set_assoc w aid a in
    if negb ok then (count w UNotClient 1, None)
    else match parseSocksUDPDatagram raw with
    | Ok (frag, target, payload) =>
        if negb (bool_decide (frag = x00)) then (count w UFrag 1, None)
        else if zlen payload =? 0 then (w, None)
        else (w, Some (target, payload))
    | _ => (count w UParse 1, None)
    end.

(** [getOrCreateEntry] up to the request for a flow; [id] is a number for it. *)
Definition getOrCreateEntry_begin (w : uworld) (aid id : Z) (target : socksTarget) (payload : list byte) : uworld :=
  match uw_assocs w !! aid with
  | None => w
  | Some a =>
      match ua_nat a !! targetKey target with
      | Some eid => set_assoc w aid (ua_set_reader a (RSend eid payload))
      | None =>
          if um_maxNAT (uw_cfg w) <=? Z.of_nat (size (ua_nat a)) then count w UNATFull 1
          else set_assoc (set_c w (begin_request (uw_c w) id KUDP)) aid (ua_set_reader a (RCreate id target payload))
      end
  end.
Definition readClientPackets_packet (w : uworld) (aid id : Z) (src : option addr) (raw : list byte) : uworld :=
  match uw_assocs w !! aid with
  | None => w
  | Some a => match accept_packet w aid a src raw with
              | (w, Some (target, payload)) => getOrCreateEntry_begin w aid id target payload
              | (w, None) => w
              end
  end.
(** A read that fails: a timeout, or another error. *)
Definition readClientPackets_err (w : uworld) (aid : Z) (timeout : bool) : uworld :=
  match uw_assocs w !! aid with
  | None => w
  | Some a =>
      if ua_closing a then set_assoc w aid (ua_set_reader a REnd)
      else if timeout then w
      else assoc_Close (set_assoc w aid (ua_set_reader a REnd)) aid
  end.

(** [getOrCreateEntry] once its request is decided: the entry is put into the table, or closed when
    another one is there; without a flow the datagram is lost. *)
Definition getOrCreateEntry_end (w : uworld) (aid now : Z) : uworld :=
  match uw_assocs w !! aid with
  | Some a =>
      match ua_reader a with
      | RCreate id target payload =>
          match rq_stage <$> cw_reqs (uw_c w) !! id with
          | Some (SProxy _ _ None) =>
              let key := targetKey target in
              match ua_nat a !! key with
              | Some existing =>
                  closeEntry (set_assoc w aid (ua_set_reader (ua_set_nat a (ua_nat a) (<[id := mkNE key target now false]> (ua_entries a))) (RSend existing payload))) aid id
              | None =>
                  count (set_assoc w aid (ua_set_reader (ua_set_nat a (<[key := id]> (ua_nat a)) (<[id := mkNE key target now true]> (ua_entries a))) (RSend id payload))) UEntries 1
              end
          | Some SDone => set_assoc w aid (ua_set_reader a RIdle)
          | _ => w
          end
      | _ => w
      end
  | None => w
  end.

(** The [Send] on the flow of the entry. *)
Definition readClientPackets_send (w : uworld) (aid now : Z) (ok : bool) : uworld :=
  match uw_assocs w !! aid with
  | Some a =>
      match ua_reader a, cw_reqs (uw_c w) with
      | RSend eid payload, reqs =>
          if ok then
            let a := mkAssoc (ua_clientIP a) (ua_clientUDP a) (ua_nat a) (alter (fun e => mkNE (ne_key e) (ne_target e) now (ne_loop e)) eid (ua_entries a))
                       (ua_closing a) RIdle (ua_sent a) (ua_forwarded a ++ [(eid, payload)]) in
            let fid := match rq_stage <$> reqs !! eid with Some (SProxy _ fid _) => fid | _ => 0 end in
            set_assoc (set_c w (set_policy (uw_c w) (flowWriter_Write (cw_p (uw_c w)) fid true (zlen payload)))) aid a
          else
            let w := set_assoc w aid (ua_set_reader a RIdle) in
            closeEntry (set_c w (set_policy (uw_c w) (onTransportError (cw_p (uw_c w)) now))) aid eid
      | _, _ => w
      end
  | None => w
  end.

(** ** The janitor *)

Definition janitor_tick (w : uworld) (aid now : Z) : uworld :=
  match uw_assocs w !! aid with
  | Some a =>
      if ua_closing a then w
      else
        let cutoff := now - um_idleTimeout (uw_cfg w) in
        let stale := List.filter (fun eid => match ua_entries a !! eid with Some e => ne_lastActive e <? cutoff | None => false end) (map_to_list (ua_nat a)).*2 in
        close_entries w aid stale
  | None => w
  end.

(** ** The reverse loop of an entry *)

(** [isTimeoutErr]: the error of a deadline, of a context or of a socket. *)
Definition isTimeoutErr (timeout : goerr -> bool) (e : goerr) : bool := err_is e EDeadlineExceeded || timeout e.
Definition isExpectedUDPErr (timeout : goerr -> bool) (e : option goerr) : bool :=
  match e with
  | None => true
  | Some e =>
      if err_is e EEOF || err_is e ECanceled || err_is e ENetClosed then true
      else if isTimeoutErr timeout e then true
      else let msg := ToLower (err_text e) in
           Contains msg "use of closed network connection" || Contains msg "closed pipe" || Contains msg "application error 0x0"
  end.

Definition stop_loop (a : udpAssociation) (eid : Z) : udpAssociation :=
  ua_set_nat a (ua_nat a) (alter (fun e => mkNE (ne_key e) (ne_target e) (ne_lastActive e) false) eid (ua_entries a)).

(** One turn of [reverseLoop]: the result of [Recv], and of the write to the application. *)
Definition reverse_turn (timeout : goerr -> bool) (w : uworld) (aid eid now : Z) (recv : res (list byte)) (werr : option goerr) : uworld :=
  match uw_assocs w !! aid with
  | Some a =>
      match ua_entries a !! eid with
      | Some e =>
          let fail w := set_c w (set_policy (uw_c w) (onTransportError (cw_p (uw_c w)) now)) in
          if negb (ne_loop e) then w
          else match recv with
          | Err er =>
              if err_is er EDeadlineExceeded then if ua_closing a then set_assoc w aid (stop_loop a eid) else w
              else
                let w := set_assoc w aid (stop_loop a eid) in
                if isExpectedUDPErr timeout (Some er) then closeEntry w aid eid else closeEntry (fail w) aid eid
          | Ok payload =>
              if zlen payload =? 0 then w
              else match clientEndpoint a with
              | None => w
              | Some dst =>
                  match buildSocksUDPDatagram parse6 (ne_target e) payload with
                  | Ok raw =>
                      match werr with
                      | Some we =>
                          if isExpectedUDPErr timeout (Some we) then closeEntry (set_assoc w aid (stop_loop a eid)) aid eid else fail w
                      | None =>
                          let a := mkAssoc (ua_clientIP a) (ua_clientUDP a) (ua_nat a)
                                     (<[eid := mkNE (ne_key e) (ne_target e) now true]> (ua_entries a)) (ua_closing a) (ua_reader a) (ua_sent a ++ [(dst, raw)]) (ua_forwarded a) in
                          let fid := match rq_stage <$> cw_reqs (uw_c w) !! eid with Some (SProxy _ fid _) => fid | _ => 0 end in
                          let w := set_c w (set_policy (uw_c w) (flowWriter_Write (cw_p (uw_c w)) fid false (zlen payload))) in
                          count (set_assoc w aid a) UOut 1
                      end
                  | _ => count w UParse 1
                  end
              end
          | Panic _ => w
          end
      | None => w
      end
  | None => w
  end.

(** [handleUDPAssociate] up to [Serve]: the association and the reply, or the failure. *)
Definition handleUDPAssociate (w : uworld) (raddr : option (list byte)) (target : socksTarget) (listen : bool) (reply_ok : bool) : uworld * option Z :=
  match Create (count w UAssociate 1) raddr target listen with
  | (w, None) => (w, None)
  | (w, Some aid) => if reply_ok then (w, Some aid) else (assoc_Close w aid, None)
  end.
End UDP.

(** ** Steps *)

(** A step of a request or of the controller that is not part of the end of a UDP flow. *)
Definition env_step (c c' : cworld) : Prop :=
  conn_step c c'
  /\ (forall id r, cw_reqs c !! id = Some r -> rq_kind r = KUDP -> (exists x f o, rq_stage r = SProxy x f o) -> cw_reqs c' !! id = Some r)
  /\ (forall id r, cw_reqs c !! id = None -> cw_reqs c' !! id = Some r -> rq_kind r <> KUDP).

Inductive udp_step (parse6 : list byte -> option (list byte)) (timeout : goerr -> bool) : uworld -> uworld -> Prop :=
| ust_associate w raddr target listen ok :
    0 <= uw_nextID w -> uw_nextID w + 1 < 2 ^ 64 -> udp_step parse6 timeout w (handleUDPAssociate parse6 w raddr target listen ok).1
| ust_packet w aid a id src raw :
    uw_assocs w !! aid = Some a -> ua_reader a = RIdle -> ua_closing a = false -> cw_reqs (uw_c w) !! id = None ->
    udp_step parse6 timeout w (readClientPackets_packet w aid id src raw)
| ust_err w aid a t : uw_assocs w !! aid = Some a -> ua_reader a = RIdle -> udp_step parse6 timeout w (readClientPackets_err w aid t)
| ust_end w aid now : udp_step parse6 timeout w (getOrCreateEntry_end w aid now)
| ust_send w aid now ok : udp_step parse6 timeout w (readClientPackets_send w aid now ok)
| ust_janitor w aid now : udp_step parse6 timeout w (janitor_tick w aid now)
| ust_reverse w aid eid now recv werr : udp_step parse6 timeout w (reverse_turn parse6 timeout w aid eid now recv werr)
| ust_close w aid : udp_step parse6 timeout w (assoc_Close w aid)
| ust_env w c : env_step (uw_c w) c -> udp_step parse6 timeout w (set_c w c).

(** ** The invariant *)

Definition alive (c : cworld) (eid : Z) : Prop :=
  exists r x f, cw_reqs c !! eid = Some r /\ rq_kind r = KUDP /\ rq_stage r = SProxy x f None.

(** The requests that belong to an association. *)
Definition knows (a : udpAssociation) (eid : Z) : Prop := is_Some (ua_entries a !! eid) \/ exists t p, ua_reader a = RCreate eid t p.

Record assoc_ok (c : cworld) (maxNAT : Z) (a : udpAssociation) : Prop := mkAOK {
  ao_nat : forall key eid, ua_nat a !! key = Some eid -> exists e, ua_entries a !! eid = Some e /\ ne_key e = key /\ alive c eid;
  ao_entries : forall eid e, ua_entries a !! eid = Some e -> exists r, cw_reqs c !! eid = Some r /\ rq_kind r = KUDP
    /\ (rq_stage r = SDone \/ (exists x f, rq_stage r = SProxy x f None) /\ ua_nat a !! ne_key e = Some eid);
  ao_create : forall id t p, ua_reader a = RCreate id t p -> (exists r, cw_reqs c !! id = Some r /\ rq_kind r = KUDP)
    /\ ua_entries a !! id = None /\ ua_nat a !! targetKey t = None /\ Z.of_nat (size (ua_nat a)) < maxNAT;
  ao_size : Z.of_nat (size (ua_nat a)) <= maxNAT;
  ao_send : forall eid p, ua_reader a = RSend eid p -> is_Some (ua_entries a !! eid) }.

Record udp_core (w : uworld) : Prop := mkUC {
  uc_conn : conn_inv (uw_c w);
  uc_assoc : forall aid a, uw_assocs w !! aid = Some a -> assoc_ok (uw_c w) (um_maxNAT (uw_cfg w)) a;
  uc_uniq : forall aid1 aid2 a1 a2 eid, uw_assocs w !! aid1 = Some a1 -> uw_assocs w !! aid2 = Some a2 -> knows a1 eid -> knows a2 eid -> aid1 = aid2;
  uc_known : forall eid r, cw_reqs (uw_c w) !! eid = Some r -> rq_kind r = KUDP -> rq_stage r <> SDone ->
    exists aid a, uw_assocs w !! aid = Some a /\ knows a eid }.

Record udp_items (w : uworld) : Prop := mkUI {
  ui_items : forall aid, aid ∈ uw_items w <-> exists a, uw_assocs w !! aid = Some a /\ ua_closing a = false;
  ui_size : Z.of_nat (size (uw_items w)) <= um_maxAssoc (uw_cfg w);
  ui_gauge : activeAssociations (uw_m w) = Z.of_nat (size (uw_items w));
  ui_next : forall aid, is_Some (uw_assocs w !! aid) -> aid <= uw_nextID w }.

Lemma knows_request c n a eid : assoc_ok c n a -> knows a eid -> exists r, cw_reqs c !! eid = Some r /\ rq_kind r = KUDP.
Proof.
  intros Ha [[e He]|(t & p & Hr)]; [|by apply (ao_create _ _ _ Ha) in Hr as (? & _)].
  apply (ao_entries _ _ _ Ha) in He as (r & ? & ? & _). eauto.
Qed.

(** An association stays well-formed when the requests it knows stay as they are. *)
Lemma assoc_ok_frame c c' n a :
  assoc_ok c n a -> (forall eid r, knows a eid -> cw_reqs c !! eid = Some r -> cw_reqs c' !! eid = Some r) -> assoc_ok c' n a.
Proof.
  intros Ha Hc. split.
  - intros key eid Hk. destruct (ao_nat _ _ _ Ha _ _ Hk) as (e & He & Hkey & r & x & f & Hr & Hku & Hs).
    exists e. split_and!; [done..|]. exists r, x, f. split_and!; [|done..]. apply Hc; [|done]. left. eauto.
  - intros eid e He. destruct (ao_entries _ _ _ Ha _ _ He) as (r & Hr & Hrest). exists r. split; [|done]. apply Hc; [left; eauto|done].
  - intros id t p Hr. destruct (ao_create _ _ _ Ha _ _ _ Hr) as ((r & Hq & Hk) & Hrest). split; [|done]. exists r. split; [|done]. apply Hc; [right; eauto|done].
  - apply Ha.
  - apply Ha.
Qed.

(** One association and its requests change. *)
Lemma udp_core_update w aid a a' c' m' items nid :
  udp_core w -> uw_assocs w !! aid = Some a -> conn_inv c' ->
  (forall eid r, cw_reqs (uw_c w) !! eid = Some r -> ~ knows a eid -> cw_reqs c' !! eid = Some r) ->
  (forall eid r, cw_reqs c' !! eid = Some r -> rq_kind r = KUDP -> rq_stage r <> SDone -> knows a' eid \/ cw_reqs (uw_c w) !! eid = Some r /\ ~ knows a eid) ->
  (forall eid, knows a' eid -> knows a eid \/ cw_reqs (uw_c w) !! eid = None) ->
  assoc_ok c' (um_maxNAT (uw_cfg w)) a' ->
  udp_core (mkUW c' m' (uw_cfg w) nid items (<[aid := a']> (uw_assocs w))).
Proof.
  intros [H1 H2 H3 H4] Ha Hc Hframe Hlive Hknow Hok.
  assert (Hother : forall j b, <[aid := a']> (uw_assocs w) !! j = Some b -> (j = aid /\ b = a') \/ (j <> aid /\ uw_assocs w !! j = Some b)).
  { intros j b Hj. destruct (decide (j = aid)) as [->|Hne]; [rewrite lookup_insert_eq in Hj; left; by injection Hj as <-|]. rewrite lookup_insert_ne in Hj by done. auto. }
  assert (Hsep : forall j b eid, j <> aid -> uw_assocs w !! j = Some b -> knows b eid -> ~ knows a eid).
  { intros j b eid Hne Hj Hk Hk2. apply Hne. eapply H3; eauto. }
  split; cbn [uw_c uw_assocs uw_cfg].
  - done.
  - intros j b [[-> ->]|[Hne Hj]]%Hother; [done|]. eapply assoc_ok_frame; [by apply (H2 j)|]. intros eid r Hk Hr. apply Hframe; [done|]. by eapply Hsep.
  - assert (Hmix : forall j b eid, j <> aid -> uw_assocs w !! j = Some b -> knows a' eid -> knows b eid -> False).
    { intros j b eid Hne Hj Hk Hk2. destruct (Hknow _ Hk) as [Hk3|Hnone]; [by eapply Hsep|].
      destruct (knows_request _ _ _ _ (H2 _ _ Hj) Hk2) as (r & Hr & _). congruence. }
    intros j1 j2 b1 b2 eid [[-> ->]|[N1 J1]]%Hother [[-> ->]|[N2 J2]]%Hother K1 K2; [done|exfalso; eauto..|eauto].
  - intros eid r Hr Hk Hs. destruct (Hlive _ _ Hr Hk Hs) as [Hk'|[Hr0 Hn]].
    + exists aid, a'. split; [apply lookup_insert_eq|done].
    + destruct (H4 _ _ Hr0 Hk Hs) as (j & b & Hj & Hb). exists j, b. split; [|done]. rewrite lookup_insert_ne; [done|]. intros <-. rewrite Ha in Hj. injection Hj as <-. done.
Qed.

(** What the operations other than the opening and the closing of an association leave alone. *)
Definition same_manager (w w' : uworld) : Prop :=
  uw_items w' = uw_items w /\ uw_cfg w' = uw_cfg w /\ uw_nextID w' = uw_nextID w
  /\ activeAssociations (uw_m w') = activeAssociations (uw_m w)
  /\ forall aid, ua_closing <$> uw_assocs w' !! aid = ua_closing <$> uw_assocs w !! aid.

#[global] Instance same_manager_preorder : PreOrder same_manager.
Proof.
  split; [by intros w|]. intros u v w (? & ? & ? & ? & E1) (? & ? & ? & ? & E2).
  unfold same_manager. split_and!; congruence.
Qed.

Lemma udp_items_same w w' : udp_items w -> same_manager w w' -> udp_items w'.
Proof.
  intros [H1 H2 H3 H4] (E1 & E2 & E3 & E4 & E5). split; rewrite ?E1, ?E2, ?E3, ?E4; try done.
  - intros aid. rewrite H1. specialize (E5 aid). split; intros (a & Ha & Hc); rewrite Ha in E5; cbn in E5.
    + apply fmap_Some in E5 as (b & Hb & ?). exists b. split; congruence.
    + symmetry in E5. destruct (uw_assocs w !! aid) as [b|]; [|done]. injection E5 as E5. exists b. split; congruence.
  - intros aid [a Ha]. apply H4. specialize (E5 aid). rewrite Ha in E5. cbn in E5. by destruct (uw_assocs w !! aid).
Qed.

Lemma same_manager_assoc w aid a a' : uw_assocs w !! aid = Some a -> ua_closing a' = ua_closing a -> same_manager w (set_assoc w aid a').
Proof.
  intros Ha Hc. unfold same_manager. cbn. split_and!; try done. intros j. destruct (decide (j = aid)) as [->|Hne].
  - rewrite lookup_insert_eq, Ha. cbn. by rewrite Hc.
  - by rewrite lookup_insert_ne.
Qed.
Lemma same_manager_count w k n : k <> UAssociations -> same_manager w (count w k n).
Proof. intros Hk. unfold same_manager. cbn. split_and!; try done. destruct k; try done; lia. Qed.
Lemma same_manager_c w c : same_manager w (set_c w c).
Proof. done. Qed.

Lemma closeEntry_manager w aid eid : same_manager w (closeEntry w aid eid).
Proof.
  unfold closeEntry. destruct (uw_assocs w !! aid) as [a|] eqn:Ha; [|done]. destruct (cw_reqs (uw_c w) !! eid) as [r|]; [|done].
  destruct (ua_entries a !! eid) as [e|]; [|done]. destruct (rq_kind r); try done. destruct (rq_stage r) as [| | | | |x f [|]|]; try done.
  etransitivity; [|apply same_manager_c]. case_on; [|done].
  etransitivity; [by eapply (same_manager_assoc _ _ a (ua_set_nat a _ _))|by apply same_manager_count].
Qed.
Lemma close_entries_manager w aid ids : same_manager w (close_entries w aid ids).
Proof.
  unfold close_entries. revert w. induction ids as [|x ids IH]; intros w; [done|]. cbn [foldl].
  etransitivity; [apply closeEntry_manager|apply IH].
Qed.

Lemma entry_close_alive c eid r x f :
  conn_inv c -> cw_reqs c !! eid = Some r -> rq_kind r = KUDP -> rq_stage r = SProxy x f None ->
  conn_inv (entry_close c eid r) /\ cw_reqs (entry_close c eid r) = <[eid := finished r]> (cw_reqs c).
Proof.
  intros Hi Hr Hk Hs. split; [by eapply conn_inv_step; [|apply cst_close]|]. unfold entry_close. by rewrite Hk, Hs.
Qed.

(** The entry of a live flow leaves the table. *)
Lemma assoc_ok_close c c' n a eid e r :
  assoc_ok c n a -> ua_entries a !! eid = Some e -> ua_nat a !! ne_key e = Some eid -> cw_reqs c !! eid = Some r -> rq_kind r = KUDP ->
  cw_reqs c' = <[eid := finished r]> (cw_reqs c) ->
  assoc_ok c' n (ua_set_nat a (delete (ne_key e) (ua_nat a)) (ua_entries a)).
Proof.
  intros Ha He Hn Hr Hk Hc. split; cbn.
  - intros key j Hj. apply lookup_delete_Some in Hj as [Hne Hj]. destruct (ao_nat _ _ _ Ha _ _ Hj) as (e' & He' & Hkey & q & x & f & Hq & Hqk & Hqs).
    exists e'. split_and!; [done..|]. exists q, x, f. rewrite Hc. split_and!; [|done..]. rewrite lookup_insert_ne; [done|]. intros <-. congruence.
  - intros j e' He'. rewrite Hc. destruct (decide (j = eid)) as [->|Hne].
    + exists (finished r). rewrite lookup_insert_eq. split_and!; [done..|by left].
    + rewrite lookup_insert_ne by done. destruct (ao_entries _ _ _ Ha _ _ He') as (q & Hq & Hqk & Hst). exists q. split_and!; [done..|].
      destruct Hst as [|[Hst Hnat]]; [by left|]. right. split; [done|]. rewrite lookup_delete_ne; [done|]. intros E. rewrite E in Hn. congruence.
  - intros id t p Hrd. destruct (ao_create _ _ _ Ha _ _ _ Hrd) as ((q & Hq & Hqk) & H1 & H2 & H3). rewrite Hc. split_and!.
    + exists q. rewrite lookup_insert_ne; [done|]. intros <-. congruence.
    + done.
    + apply lookup_delete_None. by right.
    + rewrite map_size_delete. case_on; cbn; lia.
  - pose proof (ao_size _ _ _ Ha). rewrite map_size_delete. case_on; cbn; lia.
  - apply (ao_send _ _ _ Ha).
Qed.

Lemma closeEntry_core w aid eid : udp_core w -> udp_core (closeEntry w aid eid).
Proof.
  intros Hw. unfold closeEntry. destruct (uw_assocs w !! aid) as [a|] eqn:Ha; [|done]. destruct (cw_reqs (uw_c w) !! eid) as [r|] eqn:Hr; [|done].
  destruct (ua_entries a !! eid) as [e|] eqn:He; [|done]. destruct (rq_kind r) eqn:Hk; try done. destruct (rq_stage r) as [| | | | |x f [|]|] eqn:Hs; try done.
  pose proof (uc_assoc _ Hw _ _ Ha) as Hok. destruct (ao_entries _ _ _ Hok _ _ He) as (r' & Hr' & _ & Hst). rewrite Hr in Hr'. injection Hr' as <-.
  destruct Hst as [|[_ Hn]]; [congruence|]. rewrite bool_decide_eq_true_2 by done.
  destruct (entry_close_alive _ _ _ _ _ (uc_conn _ Hw) Hr Hk Hs) as [Hi Hc].
  apply (udp_core_update w aid a (ua_set_nat a (delete (ne_key e) (ua_nat a)) (ua_entries a)) (entry_close (uw_c w) eid r)); try done; cbn [count set_m set_c set_assoc uw_c].
  - intros j q Hq Hj. rewrite Hc, lookup_insert_ne; [done|]. intros <-. apply Hj. left. eauto.
  - intros j q Hq Hqk Hqs. rewrite Hc in Hq. destruct (decide (j = eid)) as [->|Hne].
    + rewrite lookup_insert_eq in Hq. by injection Hq as <-.
    + rewrite lookup_insert_ne in Hq by done. destruct (uc_known _ Hw _ _ Hq Hqk Hqs) as (j2 & b & Hb & Hkn).
      destruct (decide (j2 = aid)) as [->|Hne2]; [left; rewrite Ha in Hb; by injection Hb as <-|]. right. split; [done|]. intros Hka. apply Hne2. by eapply (uc_uniq _ Hw).
  - intros j Hj. by left.
  - by eapply assoc_ok_close.
Qed.
Lemma close_entries_core w aid ids : udp_core w -> udp_core (close_entries w aid ids).
Proof. unfold close_entries. revert w. induction ids as [|x ids IH]; intros w Hw; [done|]. cbn [foldl]. by apply IH, closeEntry_core. Qed.

(** ** Steps of the requests *)

(** A step changes at most one request, keeps its kind, and leaves a finished one alone. *)
Definition req_change (w w' : cworld) (id : Z) (r : proxyReq) : Prop :=
  cw_reqs w' = cw_reqs w \/ rq_stage r <> SDone /\ exists r', cw_reqs w' = <[id := r']> (cw_reqs w) /\ rq_kind r' = rq_kind r.

Ltac req_change_solve :=
  first [by left | right; split; [congruence|]; eexists; split; [reflexivity|]; cbn; try apply replied_stage; done].

Lemma req_register_change w id now c t r r0 : rq_kind r0 = rq_kind r -> rq_stage r <> SDone -> req_change w (req_register w id now c t r0) id r.
Proof. intros Hk Hs. unfold req_register, registerFlow. right. split; [done|]. eexists. split; [reflexivity|done]. Qed.

Lemma conn_step_change w w' :
  conn_step w w' -> cw_reqs w' = cw_reqs w \/ (exists id r, cw_reqs w !! id = Some r /\ req_change w w' id r) \/ (exists id k, cw_reqs w !! id = None /\ w' = begin_request w id k).
Proof.
  intros H. destruct H; [right; right; eauto|right; left..|by left|by left|by left].
  - exists id, r. split; [done|]. unfold req_admit. destruct (acquireFlowPermit (cw_p w) now) as [p []]; [|destruct expired]; req_change_solve.
  - exists id, r. split; [done|]. unfold req_config. destruct (match rq_kind r with KUDP => _ | _ => _ end). req_change_solve.
  - exists id, r. split; [done|]. unfold req_dialed. destruct (rq_stage r) eqn:Hs; [by left| | | | | |]; try by left. destruct res as [[c t]|de]; req_change_solve.
  - exists id, r. split; [done|]. unfold req_opened. destruct (rq_stage r) eqn:Hs; try by left. destruct ok; [|req_change_solve].
    destruct (rq_kind r) eqn:Hk; [req_change_solve|req_change_solve|]. apply (req_register_change (mkCW (cw_p w) (cw_clients w) ({[c]} ∪ cw_flows w) (cw_reqs w))); congruence.
  - exists id, r. split; [done|]. unfold req_reply. destruct (rq_stage r) as [| | | |c t [|n]| |] eqn:Hs; try by left. destruct ok; [|req_change_solve].
    destruct n; [|req_change_solve]. apply req_register_change; [apply replied_stage|congruence].
  - exists id, r. split; [done|]. unfold proxy_first. destruct (rq_stage r) as [| | | | |c f [|]|] eqn:Hs; try by left. req_change_solve.
  - exists id, r. split; [done|]. unfold proxy_second. destruct (rq_stage r) as [| | | | |c f [|]|] eqn:Hs; try by left. req_change_solve.
  - exists id, r. split; [done|]. unfold entry_close. destruct (rq_kind r), (rq_stage r) as [| | | | |c f [|]|] eqn:Hs; try by left. req_change_solve.
Qed.

Lemma conn_step_reqs w w' id r :
  conn_step w w' -> cw_reqs w !! id = Some r -> exists r', cw_reqs w' !! id = Some r' /\ rq_kind r' = rq_kind r /\ (rq_stage r = SDone -> r' = r).
Proof.
  intros H Hr. destruct (conn_step_change _ _ H) as [E|[(j & q & Hq & Hc)|(j & k & Hn & ->)]].
  - exists r. by rewrite E.
  - destruct Hc as [E|(Hnd & q' & E & Hk)]; rewrite E; [by exists r|]. destruct (decide (id = j)) as [->|Hne].
    + rewrite lookup_insert_eq. rewrite Hr in Hq. injection Hq as ->. exists q'. split_and!; [done..|]. congruence.
    + rewrite lookup_insert_ne by done. by exists r.
  - cbn. rewrite lookup_insert_ne by congruence. by exists r.
Qed.

(** ** The operations keep the invariant *)

Lemma udp_core_env w c : udp_core w -> env_step (uw_c w) c -> udp_core (set_c w c).
Proof.
  intros [H1 H2 H3 H4] (Hs & Hp & Hn).
  assert (Hent : forall j e r, (rq_stage r = SDone \/ (exists x f, rq_stage r = SProxy x f None) /\ e) -> rq_kind r = KUDP -> cw_reqs (uw_c w) !! j = Some r -> cw_reqs c !! j = Some r).
  { intros j e r [Hd|[(x & f & Hx) _]] Hk Hr; [|apply Hp; eauto].
    destruct (conn_step_reqs _ _ _ _ Hs Hr) as (r' & Hr' & _ & Hsame). by rewrite (Hsame Hd) in Hr'. }
  split; cbn [set_c uw_c uw_assocs uw_cfg].
  - by eapply conn_inv_step.
  - intros aid a Ha. destruct (H2 _ _ Ha) as [A1 A2 A3 A4 A5]. split; try done.
    + intros key eid Hk. destruct (A1 _ _ Hk) as (e & He & Hkey & r & x & f & Hr & Hku & Hst). exists e. split_and!; [done..|].
      exists r, x, f. split_and!; [|done..]. apply Hp; eauto.
    + intros eid e He. destruct (A2 _ _ He) as (r & Hr & Hk & Hst). exists r. split_and!; [by eapply Hent|done|done].
    + intros id t p Hrd. destruct (A3 _ _ _ Hrd) as ((r & Hr & Hk) & Hrest). split; [|done].
      destruct (conn_step_reqs _ _ _ _ Hs Hr) as (r' & Hr' & Hk' & _). exists r'. split; congruence.
  - done.
  - intros eid r Hr Hk Hst. destruct (cw_reqs (uw_c w) !! eid) as [r0|] eqn:Hr0; [|by apply (Hn _ _ Hr0) in Hr].
    destruct (conn_step_reqs _ _ _ _ Hs Hr0) as (r' & Hr' & Hk' & Hsame). rewrite Hr in Hr'. injection Hr' as <-.
    apply (H4 eid r0); [done|congruence|]. intros Hd. rewrite (Hsame Hd) in Hst. done.
Qed.

(** An association changes and the requests do not. *)
Lemma udp_core_local w aid a a' m' items nid :
  udp_core w -> uw_assocs w !! aid = Some a -> (forall eid, knows a' eid -> knows a eid) ->
  (forall eid, knows a eid -> knows a' eid \/ exists r, cw_reqs (uw_c w) !! eid = Some r /\ rq_stage r = SDone) ->
  assoc_ok (uw_c w) (um_maxNAT (uw_cfg w)) a' ->
  udp_core (mkUW (uw_c w) m' (uw_cfg w) nid items (<[aid := a']> (uw_assocs w))).
Proof.
  intros Hw Ha K1 K2 Hok. apply (udp_core_update w aid a a' (uw_c w)); try done; [apply Hw| |by left; apply K1].
  intros eid r Hr Hk Hs. destruct (uc_known _ Hw _ _ Hr Hk Hs) as (j & b & Hb & Hkn). destruct (decide (j = aid)) as [->|Hne].
  - rewrite Ha in Hb. injection Hb as <-. destruct (K2 _ Hkn) as [|(r' & Hr' & Hd)]; [by left|congruence].
  - right. split; [done|]. intros Hka. apply Hne. by eapply (uc_uniq _ Hw).
Qed.

Lemma udp_core_m w m : udp_core w -> udp_core (set_m w m).
Proof. intros [H1 H2 H3 H4]. by split. Qed.
Lemma udp_core_policy w p : udp_core w -> same_resources p (cw_p (uw_c w)) -> udp_core (set_c w (set_policy (uw_c w) p)).
Proof.
  intros [H1 H2 H3 H4] Hp. split; try done.
  - by apply conn_inv_policy.
  - intros aid a Ha. by apply (assoc_ok_frame (uw_c w)); [apply (H2 aid)|].
Qed.

(** The endpoint of the application has no part in the invariant. *)
Lemma assoc_ok_ext c n a a' :
  assoc_ok c n a -> ua_nat a' = ua_nat a -> ua_reader a' = ua_reader a ->
  (forall eid, ne_key <$> ua_entries a' !! eid = ne_key <$> ua_entries a !! eid) -> assoc_ok c n a'.
Proof.
  intros [A1 A2 A3 A4 A5] En Er Ee.
  assert (Hto : forall eid e, ua_entries a !! eid = Some e -> exists e', ua_entries a' !! eid = Some e' /\ ne_key e' = ne_key e).
  { intros eid e He. specialize (Ee eid). rewrite He in Ee. cbn in Ee. apply fmap_Some in Ee as (e' & He' & ?). eauto. }
  assert (Hfrom : forall eid e, ua_entries a' !! eid = Some e -> exists e', ua_entries a !! eid = Some e' /\ ne_key e' = ne_key e).
  { intros eid e He. specialize (Ee eid). rewrite He in Ee. cbn in Ee. symmetry in Ee. apply fmap_Some in Ee as (e' & He' & ?). eauto. }
  split; rewrite ?En, ?Er; try done.
  - intros key eid Hk. destruct (A1 _ _ Hk) as (e & He & Hkey & Hal). destruct (Hto _ _ He) as (e' & He' & Hk'). exists e'. split_and!; [done|congruence|done].
  - intros eid e He. destruct (Hfrom _ _ He) as (e' & He' & Hk'). destruct (A2 _ _ He') as (r & Hr). exists r. by rewrite <- Hk'.
  - intros id t p Hr. destruct (A3 _ _ _ Hr) as (H1 & H2 & H3 & H4). split_and!; [done| |done|done].
    specialize (Ee id). rewrite H2 in Ee. by destruct (ua_entries a' !! id).
  - intros eid p Hr. destruct (A5 _ _ Hr) as [e He]. destruct (Hto _ _ He) as (e' & He' & _). eauto.
Qed.

Lemma knows_ext a a' :
  ua_reader a' = ua_reader a -> (forall eid, ne_key <$> ua_entries a' !! eid = ne_key <$> ua_entries a !! eid) -> forall eid, knows a' eid <-> knows a eid.
Proof.
  intros Er Ee eid. unfold knows. rewrite Er. specialize (Ee eid).
  destruct (ua_entries a' !! eid), (ua_entries a !! eid); try done; split; intros [H|H]; try (by right); try (by destruct H); by left.
Qed.

(** A change of an association that the invariant does not see. *)
Lemma udp_core_ext w aid a a' :
  udp_core w -> uw_assocs w !! aid = Some a -> ua_nat a' = ua_nat a -> ua_reader a' = ua_reader a ->
  (forall eid, ne_key <$> ua_entries a' !! eid = ne_key <$> ua_entries a !! eid) -> udp_core (set_assoc w aid a').
Proof.
  intros Hw Ha En Er Ee. apply (udp_core_local w aid a a'); try done.
  - intros eid. by apply knows_ext.
  - intros eid Hk. left. by apply (knows_ext a a').
  - eapply assoc_ok_ext; try done. by apply (uc_assoc _ Hw aid).
Qed.

(** The reader moves on from a state in which it opens no flow. *)
Lemma udp_core_reader w aid a r :
  udp_core w -> uw_assocs w !! aid = Some a ->
  (forall id t p, ua_reader a = RCreate id t p -> exists q, cw_reqs (uw_c w) !! id = Some q /\ rq_stage q = SDone) ->
  (forall id t p, r <> RCreate id t p) -> (forall eid p, r = RSend eid p -> is_Some (ua_entries a !! eid)) ->
  udp_core (set_assoc w aid (ua_set_reader a r)).
Proof.
  intros Hw Ha Hold Hnew Hsend. apply (udp_core_local w aid a (ua_set_reader a r)); try done.
  - intros eid [?|(t & p & E)]; [by left|]. by apply Hnew in E.
  - intros eid [?|(t & p & E)]; [left; by left|]. right. eauto.
  - destruct (uc_assoc _ Hw _ _ Ha) as [A1 A2 A3 A4 A5]. split; try done. intros id t p E. by apply Hnew in E.
Qed.

Lemma accept_source_ext a src a' ok :
  acceptClientSource a src = (a', ok) ->
  ua_nat a' = ua_nat a /\ ua_reader a' = ua_reader a /\ ua_entries a' = ua_entries a /\ ua_closing a' = ua_closing a.
Proof. unfold acceptClientSource. intros E. repeat case_in E; simplify_eq; done. Qed.

Lemma accept_packet_core w aid a src raw w' r :
  udp_core w -> uw_assocs w !! aid = Some a -> accept_packet w aid a src raw = (w', r) ->
  udp_core w' /\ same_manager w w' /\ uw_c w' = uw_c w
  /\ exists a', uw_assocs w' !! aid = Some a' /\ ua_nat a' = ua_nat a /\ ua_reader a' = ua_reader a /\ ua_entries a' = ua_entries a.
Proof.
  intros Hw Ha. unfold accept_packet. case_on; [intros [= <- <-]; split_and!; eauto; done|].
  destruct (acceptClientSource a src) as [a' ok] eqn:Es. apply accept_source_ext in Es as (En & Er & Ee & Ec).
  set (w1 := set_assoc (count w UIn 1) aid a').
  assert (Hw1 : udp_core w1) by (eapply udp_core_ext; [by apply udp_core_m|done|done|done|by rewrite Ee]).
  assert (Hm1 : same_manager w w1) by (etransitivity; [by apply (same_manager_count w UIn 1)|by eapply same_manager_assoc]).
  assert (Hfin : forall w2, w2 = w1 \/ (exists k, k <> UAssociations /\ w2 = count w1 k 1) ->
    udp_core w2 /\ same_manager w w2 /\ uw_c w2 = uw_c w /\ exists a', uw_assocs w2 !! aid = Some a' /\ ua_nat a' = ua_nat a /\ ua_reader a' = ua_reader a /\ ua_entries a' = ua_entries a).
  { intros w2 [->|(k & Hk & ->)].
    - split_and!; [done..|]. exists a'. split; [apply lookup_insert_eq|done].
    - split_and!; [by apply udp_core_m|etransitivity; [exact Hm1|by apply same_manager_count]|done|]. exists a'. split; [apply lookup_insert_eq|done]. }
  intros E. apply Hfin. repeat case_in E; simplify_eq; try (by left); right; eexists; (split; [|reflexivity]); done.
Qed.

Lemma udp_core_begin w aid a id t p :
  udp_core w -> uw_assocs w !! aid = Some a -> ua_reader a = RIdle -> cw_reqs (uw_c w) !! id = None ->
  ua_nat a !! targetKey t = None -> Z.of_nat (size (ua_nat a)) < um_maxNAT (uw_cfg w) ->
  udp_core (set_assoc (set_c w (begin_request (uw_c w) id KUDP)) aid (ua_set_reader a (RCreate id t p))).
Proof.
  intros Hw Ha Hrd Hid Hkey Hsz. assert (Hnk : ~ knows a id).
  { intros Hk. destruct (knows_request _ _ _ _ (uc_assoc _ Hw _ _ Ha) Hk) as (r & Hr & _). congruence. }
  assert (Hframe : forall eid r, cw_reqs (uw_c w) !! eid = Some r -> cw_reqs (begin_request (uw_c w) id KUDP) !! eid = Some r).
  { intros eid r Hr. cbn. rewrite lookup_insert_ne; [done|]. intros <-. congruence. }
  eapply (udp_core_update w aid a (ua_set_reader a (RCreate id t p)) (begin_request (uw_c w) id KUDP)); try done.
  - apply conn_inv_begin; [apply Hw|done].
  - intros eid r Hr _. by apply Hframe.
  - intros eid r Hr Hk Hs. cbn in Hr. destruct (decide (eid = id)) as [->|Hne]; [left; right; cbn; eauto|].
    rewrite lookup_insert_ne in Hr by done. destruct (uc_known _ Hw _ _ Hr Hk Hs) as (j & b & Hb & Hkn). destruct (decide (j = aid)) as [->|Hj].
    + rewrite Ha in Hb. injection Hb as <-. left. destruct Hkn as [?|(t' & p' & E)]; [by left|congruence].
    + right. split; [done|]. intros Hka. apply Hj. by eapply (uc_uniq _ Hw).
  - intros eid [He|(t' & p' & E)]; [left; by left|]. right. cbn in E. by injection E as -> _ _.
  - assert (Hok : assoc_ok (begin_request (uw_c w) id KUDP) (um_maxNAT (uw_cfg w)) a).
    { eapply assoc_ok_frame; [by apply (uc_assoc _ Hw aid)|]. intros eid r _. apply Hframe. }
    destruct Hok as [A1 A2 A3 A4 A5]. split; try done. cbn. intros id' t' p' [= <- <- <-]. split_and!; try done.
    + eexists. split; [apply lookup_insert_eq|done].
    + destruct (ua_entries a !! id) eqn:E; [|done]. exfalso. apply Hnk. left. eauto.
Qed.

Lemma packet_core w aid a id src raw :
  udp_core w -> uw_assocs w !! aid = Some a -> ua_reader a = RIdle -> cw_reqs (uw_c w) !! id = None ->
  udp_core (readClientPackets_packet w aid id src raw) /\ same_manager w (readClientPackets_packet w aid id src raw).
Proof.
  intros Hw Ha Hrd Hid. unfold readClientPackets_packet. rewrite Ha. destruct (accept_packet w aid a src raw) as [w1 r] eqn:E.
  destruct (accept_packet_core _ _ _ _ _ _ _ Hw Ha E) as (Hw1 & Hm1 & Hc1 & a1 & Ha1 & En & Er & Ee). destruct r as [[t p]|]; [|done].
  unfold getOrCreateEntry_begin. rewrite Ha1. destruct (ua_nat a1 !! targetKey t) as [eid|] eqn:Ek.
  - split; [|etransitivity; [exact Hm1|by eapply same_manager_assoc]]. apply udp_core_reader; try done.
    + intros ? ? ? E1. rewrite Er, Hrd in E1. done.
    + intros eid' p' [= <- _]. destruct (ao_nat _ _ _ (uc_assoc _ Hw1 _ _ Ha1) _ _ Ek) as (e & He & _). eauto.
  - case_on; zbool.
    + split; [by apply udp_core_m|etransitivity; [exact Hm1|by apply same_manager_count]].
    + split; [apply udp_core_begin; try done; [by rewrite Er|by rewrite Hc1]|].
      etransitivity; [exact Hm1|]. etransitivity; [apply (same_manager_c w1 (begin_request (uw_c w1) id KUDP))|]. by eapply same_manager_assoc.
Qed.

(** ** Closing an association *)

Definition close_req (c : cworld) (eid : Z) : cworld := match cw_reqs c !! eid with Some r => entry_close c eid r | None => c end.

Lemma closeEntry_emptied w aid a eid :
  uw_assocs w !! aid = Some a -> ua_nat a = ∅ -> is_Some (ua_entries a !! eid) -> closeEntry w aid eid = set_c w (close_req (uw_c w) eid).
Proof.
  intros Ha Hn [e He]. unfold closeEntry, close_req. rewrite Ha. destruct (cw_reqs (uw_c w) !! eid) as [r|]; [|by destruct w]. rewrite He.
  unfold entry_close. destruct (rq_kind r); [by destruct w|by destruct w|]. destruct (rq_stage r) as [| | | | |x f [|]|]; try by destruct w.
  rewrite bool_decide_eq_false_2; [done|]. rewrite Hn. by rewrite lookup_empty.
Qed.
Lemma close_entries_emptied aid a ids : forall w,
  uw_assocs w !! aid = Some a -> ua_nat a = ∅ -> Forall (fun eid => is_Some (ua_entries a !! eid)) ids ->
  close_entries w aid ids = set_c w (foldl close_req (uw_c w) ids).
Proof.
  induction ids as [|x ids IH]; intros w Ha Hn Hf; [by destruct w|]. inversion Hf as [|? ? Hx Hrest]. subst.
  unfold close_entries in *. cbn [foldl]. rewrite (closeEntry_emptied w aid a) by done. by rewrite IH.
Qed.

#[global] Instance alive_dec c j : Decision (alive c j).
Proof.
  unfold alive. destruct (cw_reqs c !! j) as [r|] eqn:Hr; [|right; intros (? & ? & ? & E & _); done].
  destruct (decide (rq_kind r = KUDP)) as [Hk|Hk]; [|right; intros (? & ? & ? & [= ->] & ? & _); done].
  destruct (rq_stage r) as [| | | | |x f [|]|] eqn:Hs; try (right; intros (? & ? & ? & [= ->] & _ & ?); congruence).
  left. by exists r, x, f.
Defined.

Lemma if_bool_iff {A} (P Q : Prop) `{Decision P, Decision Q} (x y : A) :
  (P <-> Q) -> (if bool_decide P then x else y) = (if bool_decide Q then x else y).
Proof. intros E. by rewrite (bool_decide_ext P Q E). Qed.

(** What closing a list of requests does to each. *)
Lemma close_reqs_spec ids : forall c, conn_inv c ->
  conn_inv (foldl close_req c ids)
  /\ forall j, cw_reqs (foldl close_req c ids) !! j = if bool_decide (j ∈ ids /\ alive c j) then finished <$> cw_reqs c !! j else cw_reqs c !! j.
Proof.
  induction ids as [|x ids IH]; intros c Hi; cbn [foldl].
  { split; [done|]. intros j. rewrite bool_decide_eq_false_2; [done|]. intros [H _]. by apply not_elem_of_nil in H. }
  assert (Hone : conn_inv (close_req c x) /\ forall j, cw_reqs (close_req c x) !! j = if bool_decide (j = x /\ alive c j) then finished <$> cw_reqs c !! j else cw_reqs c !! j).
  { unfold close_req. destruct (cw_reqs c !! x) as [r|] eqn:Hr.
    - destruct (decide (alive c x)) as [Hal|Hal].
      + destruct Hal as (r' & y & f & Hr' & Hk & Hs). rewrite Hr in Hr'. injection Hr' as <-.
        destruct (entry_close_alive _ _ _ _ _ Hi Hr Hk Hs) as [Hc E]. split; [done|]. intros j. rewrite E. case_bool_decide as Hb.
        * destruct Hb as [-> _]. by rewrite lookup_insert_eq, Hr.
        * rewrite lookup_insert_ne; [done|]. intros <-. apply Hb. split; [done|]. by exists r, y, f.
      + split; [by eapply conn_inv_step; [|apply cst_close]|]. intros j. rewrite bool_decide_eq_false_2 by (intros [-> ?]; done).
        unfold entry_close. destruct (rq_kind r) eqn:Hk; try done. destruct (rq_stage r) as [| | | | |y f [|]|] eqn:Hs; try done. exfalso. apply Hal. by exists r, y, f.
    - split; [done|]. intros j. rewrite bool_decide_eq_false_2; [done|]. intros [-> (r & ? & ? & Hr' & _)]. congruence. }
  destruct Hone as [Hi1 E1]. destruct (IH _ Hi1) as [Hi2 E2]. split; [done|]. intros j. rewrite E2, !E1.
  assert (Hal : alive (close_req c x) j <-> alive c j /\ j <> x).
  { unfold alive. rewrite E1. case_bool_decide as Hb; [destruct Hb as [-> _]|].
    - split; [intros (r & y & f & Hr & _ & Hs)|by intros [_ ?]]. apply fmap_Some in Hr as (q & _ & ->). done.
    - split; [intros Ha; split; [done|intros ->; by apply Hb]|by intros [? _]]. }
  destruct (decide (j = x)) as [->|Hne].
  - rewrite (bool_decide_eq_false_2 (x ∈ ids /\ _)) by (rewrite Hal; tauto). apply if_bool_iff.
    rewrite elem_of_cons. tauto.
  - rewrite (bool_decide_eq_false_2 (j = x /\ _)) by tauto. apply if_bool_iff. rewrite Hal, elem_of_cons. tauto.
Qed.

(** The association once it is closed, and its requests. *)
Definition closed_assoc (a : udpAssociation) : udpAssociation :=
  mkAssoc (ua_clientIP a) (ua_clientUDP a) ∅ (ua_entries a) true (ua_reader a) (ua_sent a) (ua_forwarded a).
Definition table_ids (a : udpAssociation) : list Z := (map_to_list (ua_nat a)).*2.

Lemma elem_of_table_ids a eid : eid ∈ table_ids a <-> exists key, ua_nat a !! key = Some eid.
Proof.
  unfold table_ids. rewrite list_elem_of_fmap. split.
  - intros ([key x] & -> & Hin). exists key. by apply elem_of_map_to_list.
  - intros [key Hk]. exists (key, eid). split; [done|]. by apply elem_of_map_to_list.
Qed.

Lemma assoc_Close_eq w aid a :
  udp_core w -> uw_assocs w !! aid = Some a -> ua_closing a = false ->
  assoc_Close w aid = mkUW (foldl close_req (uw_c w) (table_ids a)) (bump (uw_m w) UAssociations (-1)) (uw_cfg w) (uw_nextID w)
                        (uw_items w ∖ {[aid]}) (<[aid := closed_assoc a]> (uw_assocs w)).
Proof.
  intros Hw Ha Hc. unfold assoc_Close. rewrite Ha, Hc. change ((map_to_list (ua_nat a)).*2) with (table_ids a).
  rewrite (close_entries_emptied aid (closed_assoc a)); [done|apply lookup_insert_eq|done|].
  apply Forall_forall. intros eid Hin. apply elem_of_table_ids in Hin as [key Hk].
  destruct (ao_nat _ _ _ (uc_assoc _ Hw _ _ Ha) _ _ Hk) as (e & He & _). cbn. eauto.
Qed.

Lemma assoc_ok_closed c n a : conn_inv c -> assoc_ok c n a -> assoc_ok (foldl close_req c (table_ids a)) n (closed_assoc a).
Proof.
  intros Hi [A1 A2 A3 A4 A5]. destruct (close_reqs_spec (table_ids a) c Hi) as [_ E]. split; cbn.
  - intros key eid Hk. by rewrite lookup_empty in Hk.
  - intros eid e He. destruct (A2 _ _ He) as (r & Hr & Hk & Hst). rewrite E, Hr. case_bool_decide as Hb.
    + exists (finished r). split_and!; [done..|by left].
    + exists r. split_and!; [done..|]. destruct Hst as [|[(x & f & Hx) Hn]]; [by left|]. exfalso. apply Hb. split; [apply elem_of_table_ids; eauto|]. by exists r, x, f.
  - intros id t p Hr. destruct (A3 _ _ _ Hr) as ((r & Hq & Hk) & H1 & _ & H3). split_and!.
    + rewrite E, Hq. case_bool_decide; cbn; eauto.
    + done.
    + apply lookup_empty.
    + rewrite map_size_empty. lia.
  - rewrite map_size_empty. lia.
  - done.
Qed.

Lemma assoc_Close_core w aid : udp_core w -> udp_core (assoc_Close w aid).
Proof.
  intros Hw. destruct (uw_assocs w !! aid) as [a|] eqn:Ha; [|unfold assoc_Close; by rewrite Ha].
  destruct (ua_closing a) eqn:Hc; [unfold assoc_Close; by rewrite Ha, Hc|]. rewrite (assoc_Close_eq w aid a) by done.
  destruct (close_reqs_spec (table_ids a) _ (uc_conn _ Hw)) as [Hi E].
  assert (Hid : forall eid, eid ∈ table_ids a -> knows a eid).
  { intros eid [key Hk]%elem_of_table_ids. destruct (ao_nat _ _ _ (uc_assoc _ Hw _ _ Ha) _ _ Hk) as (e & He & _). left. eauto. }
  apply (udp_core_update w aid a (closed_assoc a)); try done.
  - intros eid r Hr Hn. rewrite E, bool_decide_eq_false_2; [done|]. intros [Hin _]. by apply Hn, Hid.
  - intros eid r Hr Hk Hs. rewrite E in Hr. case_bool_decide as Hb; [apply fmap_Some in Hr as (q & _ & ->); done|].
    destruct (uc_known _ Hw _ _ Hr Hk Hs) as (j & b & Hb2 & Hkn). destruct (decide (j = aid)) as [->|Hne].
    + rewrite Ha in Hb2. injection Hb2 as <-. by left.
    + right. split; [done|]. intros Hka. apply Hne. by eapply (uc_uniq _ Hw).
  - intros eid Hk. by left.
  - apply assoc_ok_closed; [apply Hw|by apply (uc_assoc _ Hw aid)].
Qed.

Lemma assoc_Close_items w aid : udp_core w -> udp_items w -> udp_items (assoc_Close w aid).
Proof.
  intros Hw [H1 H2 H3 H4]. destruct (uw_assocs w !! aid) as [a|] eqn:Ha; [|unfold assoc_Close; by rewrite Ha].
  destruct (ua_closing a) eqn:Hc; [unfold assoc_Close; by rewrite Ha, Hc|]. rewrite (assoc_Close_eq w aid a) by done.
  assert (Hin : aid ∈ uw_items w) by (apply H1; eauto). 
  pose proof (size_difference (uw_items w) {[aid]} ltac:(set_solver)) as Hs. rewrite size_singleton in Hs.
  assert (Hpos : (0 < size (uw_items w))%nat).
  { destruct (size (uw_items w)) eqn:E; [|lia]. apply size_empty_inv in E. by rewrite (E aid) in Hin. }
  split; cbn.
  - intros j. rewrite elem_of_difference, elem_of_singleton, H1. destruct (decide (j = aid)) as [->|Hne].
    + rewrite lookup_insert_eq. split; [by intros [_ ?]|]. by intros (b & [= <-] & ?).
    + rewrite lookup_insert_ne by done. split; [by intros [? _]|by split].
  - lia.
  - lia.
  - intros j. destruct (decide (j = aid)) as [->|Hne]; [intros _; apply H4; eauto|]. rewrite lookup_insert_ne by done. apply H4.
Qed.

(** ** The other operations *)

Lemma getOrCreateEntry_end_core w aid now :
  udp_core w -> udp_core (getOrCreateEntry_end w aid now) /\ same_manager w (getOrCreateEntry_end w aid now).
Proof.
  intros Hw. unfold getOrCreateEntry_end. destruct (uw_assocs w !! aid) as [a|] eqn:Ha; [|done]. destruct (ua_reader a) as [|id t p| |] eqn:Hrd; try done.
  destruct (uc_assoc _ Hw _ _ Ha) as [A1 A2 A3 A4 A5]. destruct (A3 _ _ _ Hrd) as ((r & Hr & Hk) & He & Hn & Hsz). rewrite Hr. cbn [fmap option_fmap option_map].
  destruct (rq_stage r) as [| | | | |x f [|]|] eqn:Hs; try done.
  - rewrite Hn. set (a' := ua_set_reader _ _).
    split; [|etransitivity; [by apply (same_manager_assoc w aid a a')|by apply same_manager_count]].
    assert (Hent : forall eid e, ua_entries a !! eid = Some e -> ua_entries a' !! eid = Some e).
    { intros eid e Hee. cbn. rewrite lookup_insert_ne; [done|]. intros <-. congruence. }
    apply (udp_core_local w aid a a'); try done.
    + intros eid [[e Hee]|(t' & p' & E)]; [|done]. cbn in Hee. destruct (decide (eid = id)) as [->|Hne]; [right; eauto|].
      rewrite lookup_insert_ne in Hee by done. left. eauto.
    + intros eid [[e Hee]|(t' & p' & E)]; left; left; [eauto|]. rewrite Hrd in E. injection E as <- _ _. cbn. rewrite lookup_insert_eq. eauto.
    + split.
      * intros key eid. cbn. rewrite lookup_insert_Some. intros [[<- <-]|[Hne Hkey]].
        -- eexists. rewrite lookup_insert_eq. split_and!; [done..|]. by exists r, x, f.
        -- destruct (A1 _ _ Hkey) as (e & Hee & ? & ?). exists e. split_and!; [by apply Hent|done|done].
      * intros eid e Hee. cbn in Hee. destruct (decide (eid = id)) as [->|Hne].
        -- rewrite lookup_insert_eq in Hee. injection Hee as <-. exists r. split_and!; [done..|]. right. split; [eauto|]. cbn. apply lookup_insert_eq.
        -- rewrite lookup_insert_ne in Hee by done. destruct (A2 _ _ Hee) as (q & Hq & Hqk & Hst). exists q. split_and!; [done..|].
           destruct Hst as [|[Hst Hnat]]; [by left|]. right. split; [done|]. cbn. rewrite lookup_insert_ne; [done|]. intros E. rewrite <- E, Hn in Hnat. done.
      * intros id' t' p' E. done.
      * cbn. rewrite map_size_insert_None by done. lia.
      * intros eid p' [= <- _]. cbn. rewrite lookup_insert_eq. eauto.
  - split; [|by eapply same_manager_assoc]. apply udp_core_reader; try done. intros id' t' p' E. rewrite Hrd in E. injection E as <- _ _. eauto.
Qed.

Lemma alter_keys (g : udpNATEntry -> udpNATEntry) eid (m : gmap Z udpNATEntry) :
  (forall e, ne_key (g e) = ne_key e) -> forall j, ne_key <$> alter g eid m !! j = ne_key <$> m !! j.
Proof.
  intros Hg j. destruct (decide (j = eid)) as [->|Hne]; [rewrite lookup_alter_eq|by rewrite lookup_alter_ne].
  destruct (m !! eid); cbn; [by rewrite Hg|done].
Qed.

Lemma send_core w aid now ok :
  udp_core w -> udp_core (readClientPackets_send w aid now ok) /\ same_manager w (readClientPackets_send w aid now ok).
Proof.
  intros Hw. unfold readClientPackets_send. destruct (uw_assocs w !! aid) as [a|] eqn:Ha; [|done]. destruct (ua_reader a) as [| |eid p|] eqn:Hrd; try done.
  assert (Hnc : forall id t q, ua_reader a = RCreate id t q -> exists r, cw_reqs (uw_c w) !! id = Some r /\ rq_stage r = SDone) by (intros ? ? ? E; congruence).
  destruct ok.
  - cbn zeta. set (a' := mkAssoc _ _ _ _ _ _ _ _). set (p' := flowWriter_Write _ _ _ _).
    assert (Hp : udp_core (set_c w (set_policy (uw_c w) p'))) by (apply udp_core_policy; [done|]; apply same_core_resources, same_core_write).
    split; [|etransitivity; [apply same_manager_c|by apply (same_manager_assoc _ aid a a')]].
    assert (H1 : udp_core (set_assoc (set_c w (set_policy (uw_c w) p')) aid (ua_set_reader a RIdle))) by (by apply udp_core_reader).
    apply (udp_core_ext _ aid (ua_set_reader a RIdle) a') in H1; try done; [|apply lookup_insert_eq|by apply alter_keys].
    unfold set_assoc in *. cbn in *. by rewrite insert_insert_eq in H1.
  - split; [apply closeEntry_core, (udp_core_policy (set_assoc w aid (ua_set_reader a RIdle)) _); [by apply udp_core_reader|apply same_res_error]|].
    etransitivity; [by apply (same_manager_assoc w aid a (ua_set_reader a RIdle))|]. etransitivity; [|apply closeEntry_manager]. apply same_manager_c.
Qed.

Lemma stop_loop_core w aid a eid :
  udp_core w -> uw_assocs w !! aid = Some a -> udp_core (set_assoc w aid (stop_loop a eid)) /\ same_manager w (set_assoc w aid (stop_loop a eid)).
Proof. intros Hw Ha. split; [|by eapply same_manager_assoc]. eapply udp_core_ext; try done. by apply alter_keys. Qed.

Lemma close_after w w' aid eid : udp_core w' /\ same_manager w w' -> udp_core (closeEntry w' aid eid) /\ same_manager w (closeEntry w' aid eid).
Proof. intros [H1 H2]. split; [by apply closeEntry_core|]. etransitivity; [exact H2|apply closeEntry_manager]. Qed.
Lemma fail_after w w' now : udp_core w' /\ same_manager w w' ->
  udp_core (set_c w' (set_policy (uw_c w') (onTransportError (cw_p (uw_c w')) now))) /\ same_manager w (set_c w' (set_policy (uw_c w') (onTransportError (cw_p (uw_c w')) now))).
Proof. intros [H1 H2]. split; [apply udp_core_policy; [done|apply same_res_error]|]. etransitivity; [exact H2|apply same_manager_c]. Qed.

Section UDPFacts.
  Context (parse6 : list byte -> option (list byte)) (timeout : goerr -> bool).

Lemma reverse_core w aid eid now recv werr :
  udp_core w -> udp_core (reverse_turn parse6 timeout w aid eid now recv werr) /\ same_manager w (reverse_turn parse6 timeout w aid eid now recv werr).
Proof.
  intros Hw. unfold reverse_turn. destruct (uw_assocs w !! aid) as [a|] eqn:Ha; [|done]. destruct (ua_entries a !! eid) as [e|] eqn:He; [|done]. cbn zeta.
  destruct (ne_loop e); cbn [negb]; [|done]. destruct recv as [payload|er|]; [| |done].
  - destruct (zlen payload =? 0); [done|]. destruct (clientEndpoint a) as [dst|]; [|done].
    destruct (buildSocksUDPDatagram parse6 (ne_target e) payload) as [raw| |]; [|split; [by apply udp_core_m|by apply same_manager_count]..].
    destruct werr as [we|].
    + case_on; [by apply close_after, stop_loop_core|by apply fail_after].
    + set (a' := mkAssoc _ _ _ _ _ _ _ _). set (p' := flowWriter_Write _ _ _ _).
      assert (Hp : udp_core (set_c w (set_policy (uw_c w) p'))) by (apply udp_core_policy; [done|]; apply same_core_resources, same_core_write).
      split; [|etransitivity; [apply (same_manager_c w)|]; etransitivity; [by apply (same_manager_assoc _ aid a a')|by apply same_manager_count]].
      apply udp_core_m. apply (udp_core_ext _ aid a a'); try done. intros j. cbn. destruct (decide (j = eid)) as [->|Hne]; [by rewrite lookup_insert_eq, He|by rewrite lookup_insert_ne].
  - destruct (err_is er EDeadlineExceeded); [destruct (ua_closing a); [by apply stop_loop_core|done]|].
    case_on; [by apply close_after, stop_loop_core|by apply close_after, fail_after, stop_loop_core].
Qed.

Lemma err_core w aid a t : udp_core w -> udp_items w -> uw_assocs w !! aid = Some a -> ua_reader a = RIdle ->
  udp_core (readClientPackets_err w aid t) /\ udp_items (readClientPackets_err w aid t).
Proof.
  intros Hw Hi Ha Hrd. unfold readClientPackets_err. rewrite Ha.
  assert (H1 : udp_core (set_assoc w aid (ua_set_reader a REnd))) by (apply udp_core_reader; try done; intros ? ? ? E; congruence).
  assert (H2 : udp_items (set_assoc w aid (ua_set_reader a REnd))) by (eapply udp_items_same; [done|by eapply same_manager_assoc]).
  destruct (ua_closing a); [done|]. destruct t; [done|]. split; [by apply assoc_Close_core|by apply assoc_Close_items].
Qed.

(** A new association. *)
Lemma create_core w raddr target listen :
  udp_core w -> udp_items w -> 0 <= uw_nextID w -> uw_nextID w + 1 < 2 ^ 64 -> 0 <= um_maxNAT (uw_cfg w) ->
  udp_core (Create parse6 w raddr target listen).1 /\ udp_items (Create parse6 w raddr target listen).1.
Proof.
  intros Hw Hi Hn0 Hn Hm. unfold Create. destruct listen; cbn [negb]; [|done]. case_on; zbool.
  { split; [by apply udp_core_m|]. eapply udp_items_same; [done|by apply same_manager_count]. }
  cbn zeta. rewrite u64_small by (unfold is_u64; lia). set (id := uw_nextID w + 1). set (a := mkAssoc _ _ _ _ _ _ _ _).
  assert (Hfresh : uw_assocs w !! id = None).
  { destruct (uw_assocs w !! id) eqn:E; [|done]. pose proof (ui_next _ Hi id ltac:(eauto)). lia. }
  assert (Hget : forall j b, <[id := a]> (uw_assocs w) !! j = Some b -> (j = id /\ b = a) \/ (j <> id /\ uw_assocs w !! j = Some b)).
  { intros j b Hj. destruct (decide (j = id)) as [->|Hne]; [rewrite lookup_insert_eq in Hj; left; by injection Hj as <-|]. rewrite lookup_insert_ne in Hj by done. auto. }
  assert (Hka : forall eid, ~ knows a eid) by (intros eid [[e E]|(? & ? & E)]; [unfold a in E; cbn in E; by rewrite lookup_empty in E|done]).
  destruct Hw as [H1 H2 H3 H4]. destruct Hi as [I1 I2 I3 I4]. cbn [fst]. split; split; cbn [uw_c uw_assocs uw_cfg uw_items uw_m uw_nextID].
  - done.
  - intros j b [[-> ->]|[_ Hj]]%Hget; [|by apply (H2 j)]. split; try done; intros; cbn in *; rewrite ?lookup_empty in *; done.
  - intros j1 j2 b1 b2 eid [[-> ->]|[N1 J1]]%Hget [[-> ->]|[N2 J2]]%Hget K1 K2; try done; [by apply Hka in K1|by apply Hka in K2|eauto].
  - intros eid r Hr Hk Hs. destruct (H4 _ _ Hr Hk Hs) as (j & b & Hb & Hkn). exists j, b. split; [|done]. rewrite lookup_insert_ne; [done|]. intros <-. cbn in Hb. congruence.
  - intros j. rewrite elem_of_union, elem_of_singleton. cbn. rewrite I1. split.
    + intros [->|(b & Hb & Hc)]; [exists a; split; [apply lookup_insert_eq|done]|]. exists b. split; [|done]. rewrite lookup_insert_ne; [done|]. intros <-. congruence.
    + intros (b & [[-> ->]|[_ Hj]]%Hget & Hc); [by left|right; eauto].
  - cbn. rewrite size_union by (intros x; rewrite elem_of_singleton; intros ->; rewrite I1; intros (b & Hb & _); congruence). rewrite size_singleton. cbn in Heqb. lia.
  - cbn. rewrite size_union by (intros x; rewrite elem_of_singleton; intros ->; rewrite I1; intros (b & Hb & _); congruence). rewrite size_singleton. lia.
  - intros j [b [[-> ->]|[_ Hj]]%Hget]; [done|]. pose proof (I4 j ltac:(eauto)). lia.
Qed.
End UDPFacts.

(** ** Theorems *)

Definition start_uworld (cfg : ClientConfig) (mode : clientMode) (now idle maxAssoc maxNAT : Z) : uworld :=
  mkUW (start_world cfg mode now) metrics0 (newUDPAssociationManager idle maxAssoc maxNAT) 0 ∅ ∅.

Section UDPTheorems.
  Context (parse6 : list byte -> option (list byte)) (timeout : goerr -> bool).

Lemma udp_inv_init cfg mode now idle ma mn : udp_core (start_uworld cfg mode now idle ma mn) /\ udp_items (start_uworld cfg mode now idle ma mn).
Proof.
  split; split; cbn; try done.
  - apply conn_inv_init.
  - intros aid. split; [set_solver|]. by intros (a & Ha & _).
  - change (size ∅) with 0%nat. destruct (ma <=? 0) eqn:E; zbool; lia.
  - by intros aid [a Ha].
Qed.

Lemma udp_step_cfg w w' : udp_step parse6 timeout w w' -> udp_core w -> udp_items w -> 0 <= um_maxNAT (uw_cfg w) ->
  udp_core w' /\ udp_items w' /\ uw_cfg w' = uw_cfg w.
Proof.
  intros Hs Hw Hi Hm.
  assert (Hsame : forall v, udp_core v /\ same_manager w v -> udp_core v /\ udp_items v /\ uw_cfg v = uw_cfg w).
  { intros v [H1 H2]. split_and!; [done|by eapply udp_items_same|apply H2]. }
  assert (Hclose : forall v aid, udp_core v -> uw_cfg (assoc_Close v aid) = uw_cfg v).
  { intros v aid Hv. destruct (uw_assocs v !! aid) as [b|] eqn:Hb; [|unfold assoc_Close; by rewrite Hb].
    destruct (ua_closing b) eqn:Hc; [unfold assoc_Close; by rewrite Hb, Hc|]. by rewrite (assoc_Close_eq v aid b). }
  destruct Hs.
  - unfold handleUDPAssociate.
    destruct (create_core parse6 (count w UAssociate 1) raddr target listen) as [K1 K2]; try done; [by apply udp_core_m|eapply udp_items_same; [done|by apply same_manager_count]|].
    assert (K3 : uw_cfg (Create parse6 (count w UAssociate 1) raddr target listen).1 = uw_cfg w) by (unfold Create; repeat case_on; done).
    destruct (Create parse6 (count w UAssociate 1) raddr target listen) as [w1 [id|]]; cbn [fst] in *; [|done]. destruct ok; [done|]. cbn [fst].
    split_and!; [by apply assoc_Close_core|by apply assoc_Close_items|by rewrite Hclose].
  - by apply Hsame, (packet_core w aid a).
  - destruct (err_core w aid a t) as [K1 K2]; try done. split_and!; try done. unfold readClientPackets_err. rewrite H. destruct (ua_closing a); [done|]. destruct t; [done|].
    rewrite Hclose; [done|]. apply udp_core_reader; try done; intros ? ? ? E; congruence.
  - by apply Hsame, getOrCreateEntry_end_core.
  - by apply Hsame, send_core.
  - apply Hsame. unfold janitor_tick. destruct (uw_assocs w !! aid) as [a|]; [|done]. destruct (ua_closing a); [done|].
    split; [by apply close_entries_core|apply close_entries_manager].
  - by apply Hsame, reverse_core.
  - split_and!; [by apply assoc_Close_core|by apply assoc_Close_items|by apply Hclose].
  - apply Hsame. split; [by apply udp_core_env|done].
Qed.

Lemma udp_reachable cfg mode now idle ma mn w :
  rtc (udp_step parse6 timeout) (start_uworld cfg mode now idle ma mn) w ->
  udp_core w /\ udp_items w /\ uw_cfg w = newUDPAssociationManager idle ma mn.
Proof.
  intros H. assert (Hpos : 0 <= um_maxNAT (newUDPAssociationManager idle ma mn)) by (cbn; destruct (mn <=? 0) eqn:E; zbool; lia).
  assert (Hg : forall w0, rtc (udp_step parse6 timeout) w0 w -> udp_core w0 -> udp_items w0 -> uw_cfg w0 = newUDPAssociationManager idle ma mn ->
    udp_core w /\ udp_items w /\ uw_cfg w = newUDPAssociationManager idle ma mn).
  { induction 1 as [|x y z Hxy Hyz IH]; intros K1 K2 K3; [done|]. destruct (udp_step_cfg _ _ Hxy K1 K2) as (? & ? & ?); [by rewrite K3|]. apply IH; congruence. }
  destruct (udp_inv_init cfg mode now idle ma mn). by eapply Hg.
Qed.


(** Closing an association that is not just opening a flow closes every flow it had, and takes it
    off the list of the manager. *)
Theorem socks_udp_close_releases cfg mode now idle ma mn w aid a :
  rtc (udp_step parse6 timeout) (start_uworld cfg mode now idle ma mn) w ->
  uw_assocs w !! aid = Some a -> ua_closing a = false -> (forall id t p, ua_reader a <> RCreate id t p) ->
  aid ∉ uw_items (assoc_Close w aid) /\ (forall eid, knows a eid -> ~ alive (uw_c (assoc_Close w aid)) eid).
Proof.
  intros (Hw & Hi & Hc)%udp_reachable Ha Hcl Hrd. rewrite (assoc_Close_eq w aid a) by done. cbn [uw_items uw_c]. split; [set_solver|].
  intros eid [[e He]|(t & p & E)]; [|by apply Hrd in E]. destruct (close_reqs_spec (table_ids a) _ (uc_conn _ Hw)) as [_ E].
  intros (r & x & f & Hr & Hk & Hs). rewrite E in Hr. case_bool_decide as Hb; [apply fmap_Some in Hr as (q & _ & ->); done|].
  destruct (ao_entries _ _ _ (uc_assoc _ Hw _ _ Ha) _ _ He) as (r' & Hr' & _ & [Hd|[_ Hn]]); [congruence|].
  apply Hb. split; [apply elem_of_table_ids; eauto|]. by exists r, x, f.
Qed.

(** A datagram that does not come from the address of the control connection changes nothing but
    two counters: no flow is opened for it, nothing is sent on, and the address for the replies
    stays. *)
Theorem socks_udp_stranger w aid a cip ip port raw id :
  uw_assocs w !! aid = Some a -> ua_clientIP a = Some cip -> ip_Equal ip cip = false -> 0 < zlen raw ->
  readClientPackets_packet w aid id (Some (ip, port)) raw = count (count w UIn 1) UNotClient 1.
Proof.
  intros Ha Hc Hne Hl. unfold readClientPackets_packet, accept_packet. rewrite Ha. rewrite (proj2 (Z.eqb_neq _ 0)) by lia.
  unfold acceptClientSource. rewrite Hc, Hne. cbn [negb]. unfold set_assoc, count, set_m. cbn. by rewrite insert_id.
Qed.

(** A reply comes back to the application: a payload received on an entry is written to the address
    the application sends from, as a datagram that names the entry's target and carries the
    payload; a reply counts as activity of the entry. *)
Theorem socks_udp_reply w aid a eid e dst t port payload now :
  uw_assocs w !! aid = Some a -> ua_entries a !! eid = Some e -> ne_loop e = true -> ua_clientUDP a = Some dst ->
  ne_target e = addr_target t port -> addr_ok t -> addr_canonical parse6 t -> is_u16 port -> 0 < zlen payload ->
  exists raw a', uw_assocs (reverse_turn parse6 timeout w aid eid now (Ok payload) None) !! aid = Some a'
    /\ ua_sent a' = ua_sent a ++ [(dst, raw)] /\ parseSocksUDPDatagram raw = Ok (x00, addr_target t port, payload)
    /\ ne_lastActive <$> ua_entries a' !! eid = Some now.
Proof.
  intros Ha He Hlo Hd Ht Hok Hcan Hp Hl. unfold reverse_turn. rewrite Ha, He, Hlo. cbn [negb]. rewrite (proj2 (Z.eqb_neq _ 0)) by lia.
  unfold clientEndpoint. rewrite Hd, Ht. exists (datagram_header t ++ be_put 2 port ++ payload).
  assert (buildSocksUDPDatagram parse6 (addr_target t port) payload = Ok (datagram_header t ++ be_put 2 port ++ payload)) as ->.
  { unfold buildSocksUDPDatagram. rewrite encodeTargetAddr_wire by done. unfold mbind, res_bind, port_bytes. cbn [Port addr_target].
    unfold is_u16 in Hp. rewrite (proj2 (Z.ltb_ge port 0)), (proj2 (Z.ltb_ge 65535 port)) by lia. done. }
  eexists. cbn. split_and!; [apply lookup_insert_eq|done|by apply parseSocksUDPDatagram_wire|]. cbn. by rewrite lookup_insert_eq.
Qed.
End UDPTheorems.

(** ** A trace *)

(** A step of one request that is not relaying yet. *)
Lemma env_step_one c c' id r r' :
  conn_step c c' -> cw_reqs c !! id = Some r -> (forall x f o, rq_stage r <> SProxy x f o) -> cw_reqs c' = <[id := r']> (cw_reqs c) -> env_step c c'.
Proof.
  intros Hs Hr Hn E. split_and!; [done| |].
  - intros j q Hq _ (x & f & o & Hst). rewrite E, lookup_insert_ne; [done|]. intros <-. rewrite Hr in Hq. injection Hq as <-. by apply Hn in Hst.
  - intros j q Hq Hq'. rewrite E, lookup_insert_ne in Hq' by congruence. congruence.
Qed.

Definition no6 (_ : list byte) : option (list byte) := None.
Definition no_timeout (_ : goerr) : bool := false.
Definition lo : list byte := [x7f; x00; x00; x01].
Definition dns_query : list byte := [x00; x00; x00; x01; x08; x08; x08; x08; x00; x35; x41].

Definition tr0 : uworld := start_uworld example_base modeNormal 0 0 0 0.
Definition tr1 : uworld := (handleUDPAssociate no6 tr0 (Some lo) (mkTarget x01 "0.0.0.0" 0) true true).1.
Definition tr2 : uworld := readClientPackets_packet tr1 1 50 (Some (lo, 4000)) dns_query.
Definition tr3 : uworld := set_c tr2 (req_admit (uw_c tr2) 50 0 false (mkReq KUDP true [] SAdmit)).
Definition tr4 : uworld := set_c tr3 (req_config (uw_c tr3) 50 (mkReq KUDP true [] SConfig)).
Definition tr_dial : proxyReq := mkReq KUDP true [] (SDial (dialConfigUDP (cw_p (uw_c tr3))).1 modeNormal).
Definition tr5 : uworld := set_c tr4 (req_dialed (uw_c tr4) 50 0 (inl (7, TransportQUIC)) tr_dial).
(** The flow opens. *)
Definition tr_open (w : uworld) : uworld := set_c w (req_opened (uw_c w) 50 0 true (mkReq KUDP true [] (SOpen 7 TransportQUIC))).
Definition tr6 : uworld := tr_open tr5.
Definition tr7 : uworld := getOrCreateEntry_end tr6 1 0.

Definition tr_assoc : udpAssociation := default (mkAssoc None None ∅ ∅ true REnd [] []) (uw_assocs tr7 !! 1).

Lemma tr5_reachable : rtc (udp_step no6 no_timeout) tr0 tr5.
Proof.
  eapply rtc_l; [apply (ust_associate no6 no_timeout tr0 (Some lo) (mkTarget x01 "0.0.0.0" 0) true true); vm_compute; congruence|].
  change ((handleUDPAssociate no6 tr0 (Some lo) (mkTarget x01 "0.0.0.0" 0) true true).1) with tr1.
  eapply rtc_l; [eapply (ust_packet no6 no_timeout tr1 1 _ 50 (Some (lo, 4000)) dns_query); [vm_compute; reflexivity|reflexivity|reflexivity|vm_compute; reflexivity]|].
  change (readClientPackets_packet tr1 1 50 (Some (lo, 4000)) dns_query) with tr2.
  eapply rtc_l; [apply (ust_env no6 no_timeout tr2 (req_admit (uw_c tr2) 50 0 false (mkReq KUDP true [] SAdmit)))|].
  { eapply (env_step_one _ _ 50 (mkReq KUDP true [] SAdmit)); [apply cst_admit; [vm_compute; reflexivity|reflexivity]|vm_compute; reflexivity|done|vm_compute; reflexivity]. }
  change (set_c tr2 (req_admit (uw_c tr2) 50 0 false (mkReq KUDP true [] SAdmit))) with tr3.
  eapply rtc_l; [apply (ust_env no6 no_timeout tr3 (req_config (uw_c tr3) 50 (mkReq KUDP true [] SConfig)))|].
  { eapply (env_step_one _ _ 50 (mkReq KUDP true [] SConfig)); [apply cst_config; [vm_compute; reflexivity|reflexivity]|vm_compute; reflexivity|done|vm_compute; reflexivity]. }
  change (set_c tr3 (req_config (uw_c tr3) 50 (mkReq KUDP true [] SConfig))) with tr4.
  apply rtc_once. apply (ust_env no6 no_timeout tr4 (req_dialed (uw_c tr4) 50 0 (inl (7, TransportQUIC)) tr_dial)).
  eapply (env_step_one _ _ 50 tr_dial); [apply cst_dialed; [vm_compute; reflexivity|]|vm_compute; reflexivity|done|vm_compute; reflexivity].
  intros c t [= <- <-]. assert (cw_clients (uw_c tr4) = ∅) as -> by (vm_compute; reflexivity). set_solver.
Qed.
Lemma tr7_reachable : rtc (udp_step no6 no_timeout) tr0 tr7.
Proof.
  etransitivity; [apply tr5_reachable|].
  eapply rtc_l; [apply (ust_env no6 no_timeout tr5 (req_opened (uw_c tr5) 50 0 true (mkReq KUDP true [] (SOpen 7 TransportQUIC))))|].
  { eapply (env_step_one _ _ 50 (mkReq KUDP true [] (SOpen 7 TransportQUIC))); [apply cst_opened; [vm_compute; reflexivity|vm_compute; reflexivity]|vm_compute; reflexivity|done|vm_compute; reflexivity]. }
  apply rtc_once. apply (ust_end no6 no_timeout tr6 1 0).
Qed.

(** The gauge of NAT entries is not given back by [Close]: it empties the table before it closes the
    entries, and an entry that is no longer in the table does not lower the gauge. After one
    association with one entry was opened and closed, and with its flow and its client closed, the
    gauge stays at one. *)
Theorem nat_gauge_drifts :
  let w := assoc_Close tr7 1 in
  rtc (udp_step no6 no_timeout) tr0 w
  /\ uw_items w = ∅ /\ cw_clients (uw_c w) = ∅ /\ flows (cw_p (uw_c w)) = ∅
  /\ (ua_nat <$> uw_assocs w !! 1) = Some ∅ /\ activeNATEntries (uw_m w) = 1.
Proof.
  cbn zeta. split; [eapply rtc_r; [apply tr7_reachable|apply ust_close]|]. split_and!; vm_compute; reflexivity.
Qed.

(** A flow that is being opened when its association closes is never closed: [getOrCreateEntry] does
    not look at [closing], puts the entry into the table that was already emptied, and the reverse
    loop of the entry returns on its next timeout without closing it. All goroutines of the
    association have returned, the manager has forgotten it, and the session client, its flow and
    the registration with the controller stay. *)
Theorem late_entry_leaks :
  let w1 := tr_open (assoc_Close tr5 1) in
  let w2 := readClientPackets_send (getOrCreateEntry_end w1 1 0) 1 0 true in
  let w := reverse_turn no6 no_timeout (readClientPackets_err w2 1 false) 1 50 0 (Err EDeadlineExceeded) None in
  exists a e, uw_assocs w !! 1 = Some a /\ ua_closing a = true /\ ua_reader a = REnd /\ ua_entries a !! 50 = Some e /\ ne_loop e = false
    /\ uw_items w = ∅ /\ alive (uw_c w) 50 /\ cw_clients (uw_c w) = {[7]} /\ dom (flows (cw_p (uw_c w))) = {[1]}.
Proof.
  do 2 eexists. split_and!; [vm_compute; reflexivity|reflexivity|reflexivity|vm_compute; reflexivity|reflexivity|vm_compute; reflexivity| |vm_compute; reflexivity|vm_compute; reflexivity].
  do 3 eexists. split_and!; [vm_compute; reflexivity|reflexivity|reflexivity].
Qed.

(** ** Witnesses *)


Lemma socks_udp_close_releases_witness : 1 ∉ uw_items (assoc_Close tr1 1).
Proof.
  assert (H : rtc (udp_step no6 no_timeout) tr0 tr1).
  { apply rtc_once. apply (ust_associate no6 no_timeout tr0 (Some lo) (mkTarget x01 "0.0.0.0" 0) true true); vm_compute; congruence. }
  refine (proj1 (socks_udp_close_releases no6 no_timeout example_base modeNormal 0 0 0 0 tr1 1 (mkAssoc (Some lo) None ∅ ∅ false RIdle [] []) H _ _ _)).
  - vm_compute. reflexivity.
  - reflexivity.
  - discriminate.
Defined.

Lemma socks_udp_stranger_witness : readClientPackets_packet tr1 1 50 (Some ([x0a; x00; x00; x01], 4000)) dns_query = count (count tr1 UIn 1) UNotClient 1.
Proof.
  refine (socks_udp_stranger tr1 1 (mkAssoc (Some lo) None ∅ ∅ false RIdle [] []) lo [x0a; x00; x00; x01] 4000 dns_query 50 _ _ _ _); vm_compute; reflexivity.
Defined.

Lemma socks_udp_reply_witness :
  exists raw a', uw_assocs (reverse_turn no6 no_timeout tr7 1 50 9 (Ok [x42]) None) !! 1 = Some a'
    /\ ua_sent a' = ua_sent tr_assoc ++ [((lo, 4000), raw)] /\ parseSocksUDPDatagram raw = Ok (x00, addr_target (A4 [x08; x08; x08; x08]) 53, [x42])
    /\ ne_lastActive <$> ua_entries a' !! 50 = Some 9.
Proof.
  refine (socks_udp_reply no6 no_timeout tr7 1 tr_assoc 50 (mkNE (targetKey (mkTarget x01 "8.8.8.8" 53)) (mkTarget x01 "8.8.8.8" 53) 0 true) (lo, 4000) (A4 [x08; x08; x08; x08]) 53 [x42] 9 _ _ _ _ _ _ _ _ _);
    [vm_compute; reflexivity|vm_compute; reflexivity|reflexivity|reflexivity|vm_compute; reflexivity|reflexivity|exact I|unfold is_u16; lia|reflexivity].
Defined.
