(* ===== verification/SocksRun.v ===== *)
(** * The SOCKS5 client: the program ([cmd/socks_client/main.go])

    [main] around the parts of the files SocksConn and SocksUDP: the flags, the metrics server, the
    accept loop with a goroutine per connection, [Serve] with its three goroutines, and the end:
    the signal, [wg.Wait] and the deferred calls in their order. *)

From S2P Require Import Prelude Ownership GoString Auth ClientConfig Client Server ServerRun Socks SocksPolicy SocksConn SocksUDP.

(** ** The start *)

Record runFlags := mkRunFlags {
  rf_cfg : socksFlags; rf_mode : string; rf_stats : string; rf_auth : string; rf_username : string; rf_password : string;
  rf_listen : string; rf_metrics : string; rf_connectTimeout : Z; rf_udpIdle : Z; rf_maxAssoc : Z; rf_maxNAT : Z }.

(** The checks of the ports and the replacements for values that make no sense. *)
Definition check_ports (fl : socksFlags) : res unit :=
  if (fl_port fl <? 0) || (65535 <? fl_port fl) then Err (ENew "invalid --port")
  else if (fl_portUDP fl <=? 0) || (65535 <? fl_portUDP fl) then Err (ENew "invalid --port-udp")
  else if (fl_portTCP fl <=? 0) || (65535 <? fl_portTCP fl) then Err (ENew "invalid --port-tcp")
  else Ok tt.
Definition or_default (v def : Z) : Z := if v <=? 0 then def else v.

(** [startMetricsServer]: nothing for an empty address; else the address and the answer to
    [/metrics]. It does not wait for the listener, so it never fails. *)
Record metricsServer := mkMetricsServer { ms_addr : string; ms_contentType : string; ms_ReadHeaderTimeout : Z }.
Definition socks_startMetricsServer (addr : string) : option metricsServer :=
  let addr := TrimSpace addr in
  if String.eqb addr "" then None else Some (mkMetricsServer addr "text/plain; version=0.0.4" (5 * Second)).
Definition metrics_answer (srv : metricsServer) (path : string) (m : clientMetrics) : option (string * list byte) :=
  if String.eqb path "/metrics" then Some (ms_contentType srv, prometheus m) else None.

(** What [main] has when it starts to accept. *)
Record socksProgram := mkProgram {
  pg_world : uworld; pg_stats : statsFormat; pg_auth : authConfig; pg_connectTimeout : Z; pg_metrics : option metricsServer }.

Definition socks_main (parse6 : list byte -> option (list byte)) (base : res ClientConfig) (fl : runFlags)
    (lookup : bool -> string -> res (list (list byte))) (listen : option goerr) (now : Z) : res socksProgram :=
  base ← wrap_err "load session config" base;
  mode ← wrap_err "invalid --mode" (parseMode (rf_mode fl));
  _ ← check_ports (rf_cfg fl);
  let connectTimeout := or_default (rf_connectTimeout fl) (10 * Second) in
  let udpIdle := or_default (rf_udpIdle fl) (60 * Second) in
  let maxAssoc := or_default (rf_maxAssoc fl) 128 in
  let maxNAT := or_default (rf_maxNAT fl) 4096 in
  sf ← wrap_err "invalid --stats-format" (parseStatsFormat (rf_stats fl));
  auth ← wrap_err "invalid --auth config" (parseAuthConfig (rf_auth fl) (rf_username fl) (rf_password fl));
  cfg ← main_config parse6 base (rf_cfg fl) lookup;
  let w := start_uworld cfg mode now udpIdle maxAssoc maxNAT in
  match listen with
  | Some e => Err (EWrap ("listen " ++ rf_listen fl)%string e)
  | None => Ok (mkProgram w sf auth connectTimeout (socks_startMetricsServer (rf_metrics fl)))
  end.

(** ** The accept loop *)

Definition socks_accept (temporary : goerr -> bool) (ctx : bool) (r : Z + goerr) : accept_next :=
  match r with
  | inl conn => AHandle conn
  | inr e =>
      if ctx || err_is e ENetClosed then AReturn
      else if temporary e then ANext
      else ANext
  end.

(** ** The run *)

(** A connection's goroutine: a request that is being served, or an association in [Serve], with
    the janitor's and the control connection's goroutine. *)
Inductive handler := HRequest | HServe (aid : Z) (janitor control : bool).
(** [main]: accepting, in [wg.Wait], then the deferred calls: [CloseAll], [controller.Close]. *)
Inductive kstage := KAccept | KWait | KCloseAll | KController | KLoop | KStopped.
(** [sk_loop]: the controller's loop runs; [sk_stopCh]: its channel is closed. *)
Record skRun := mkSkRun {
  sk_w : uworld; sk_ctx : bool; sk_listening : bool; sk_handlers : gmap Z handler; sk_stage : kstage; sk_stopCh : bool; sk_loop : bool }.

Definition sk_new (w : uworld) : skRun := mkSkRun w false true ∅ KAccept false true.
Definition sk_set_w (r : skRun) (w : uworld) : skRun := mkSkRun w (sk_ctx r) (sk_listening r) (sk_handlers r) (sk_stage r) (sk_stopCh r) (sk_loop r).
Definition sk_set_handlers (r : skRun) (h : gmap Z handler) : skRun := mkSkRun (sk_w r) (sk_ctx r) (sk_listening r) h (sk_stage r) (sk_stopCh r) (sk_loop r).
Definition sk_set_stage (r : skRun) (s : kstage) : skRun := mkSkRun (sk_w r) (sk_ctx r) (sk_listening r) (sk_handlers r) s (sk_stopCh r) (sk_loop r).

(** The signal, and the goroutine that then closes the listener. *)
Definition sk_signal (r : skRun) : skRun := mkSkRun (sk_w r) true (sk_listening r) (sk_handlers r) (sk_stage r) (sk_stopCh r) (sk_loop r).
Definition sk_close_listener (r : skRun) : skRun := mkSkRun (sk_w r) (sk_ctx r) false (sk_handlers r) (sk_stage r) (sk_stopCh r) (sk_loop r).
(** A connection is accepted; its request asks for an association, which is served or refused. *)
Definition sk_accepted (r : skRun) (conn : Z) : skRun := sk_set_handlers r (<[conn := HRequest]> (sk_handlers r)).
Definition sk_associate (parse6 : list byte -> option (list byte)) (r : skRun) (conn : Z) (raddr : option (list byte)) (target : socksTarget) (listen reply_ok : bool) : skRun :=
  match handleUDPAssociate parse6 (sk_w r) raddr target listen reply_ok with
  | (w, Some aid) => sk_set_handlers (sk_set_w r w) (<[conn := HServe aid true true]> (sk_handlers r))
  | (w, None) => sk_set_handlers (sk_set_w r w) (delete conn (sk_handlers r))
  end.
(** The goroutines of [Serve]. *)
Definition serve_control (r : skRun) (conn aid : Z) (janitor : bool) : skRun :=
  sk_set_handlers (sk_set_w r (assoc_Close (sk_w r) aid)) (<[conn := HServe aid janitor false]> (sk_handlers r)).
Definition serve_janitor (r : skRun) (conn aid : Z) (control : bool) : skRun := sk_set_handlers r (<[conn := HServe aid false control]> (sk_handlers r)).
Definition sk_returns (r : skRun) (conn : Z) : skRun := sk_set_handlers r (delete conn (sk_handlers r)).
Definition sk_break (r : skRun) : skRun := sk_set_stage r KWait.
(** [wg.Wait] returns; [stop] and [ln.Close] are the first of the deferred calls. *)
Definition sk_waited (r : skRun) : skRun := mkSkRun (sk_w r) true false (sk_handlers r) KCloseAll (sk_stopCh r) (sk_loop r).
Definition sk_close_all (r : skRun) : skRun := sk_set_stage (sk_set_w r (CloseAll (sk_w r))) KController.
(** [controller.Close], its loop, and the end of [Close]. *)
Definition controller_Close (r : skRun) : skRun := mkSkRun (sk_w r) (sk_ctx r) (sk_listening r) (sk_handlers r) KLoop true (sk_loop r).
Definition loop_stops (r : skRun) : skRun := mkSkRun (sk_w r) (sk_ctx r) (sk_listening r) (sk_handlers r) (sk_stage r) (sk_stopCh r) false.

Section Steps.
  Context (parse6 : list byte -> option (list byte)) (timeout : goerr -> bool).

Inductive sk_step : skRun -> skRun -> Prop :=
| ks_signal r : sk_step r (sk_signal r)
| ks_listener r : sk_ctx r = true -> sk_step r (sk_close_listener r)
| ks_accept r conn : sk_stage r = KAccept -> sk_listening r = true -> sk_handlers r !! conn = None -> sk_step r (sk_accepted r conn)
| ks_associate r conn raddr target listen ok : sk_handlers r !! conn = Some HRequest ->
    0 <= uw_nextID (sk_w r) -> uw_nextID (sk_w r) + 1 < 2 ^ 64 -> sk_step r (sk_associate parse6 r conn raddr target listen ok)
| ks_udp r w : udp_step parse6 timeout (sk_w r) w -> uw_items w ⊆ uw_items (sk_w r) -> sk_step r (sk_set_w r w)
| ks_control r conn aid janitor : sk_handlers r !! conn = Some (HServe aid janitor true) -> sk_step r (serve_control r conn aid janitor)
| ks_janitor r conn aid control a : sk_handlers r !! conn = Some (HServe aid true control) -> uw_assocs (sk_w r) !! aid = Some a -> ua_closing a = true ->
    sk_step r (serve_janitor r conn aid control)
| ks_request_done r conn : sk_handlers r !! conn = Some HRequest -> sk_step r (sk_returns r conn)
| ks_serve_done r conn aid a : sk_handlers r !! conn = Some (HServe aid false false) -> uw_assocs (sk_w r) !! aid = Some a -> ua_closing a = true -> ua_reader a = REnd ->
    sk_step r (sk_returns r conn)
| ks_break r : sk_stage r = KAccept -> sk_ctx r = true \/ sk_listening r = false -> sk_step r (sk_break r)
| ks_waited r : sk_stage r = KWait -> sk_handlers r = ∅ -> sk_step r (sk_waited r)
| ks_close_all r : sk_stage r = KCloseAll -> sk_step r (sk_close_all r)
| ks_controller r : sk_stage r = KController -> sk_step r (controller_Close r)
| ks_loop r : sk_loop r = true -> sk_stopCh r = true -> sk_step r (loop_stops r)
| ks_stopped r : sk_stage r = KLoop -> sk_loop r = false -> sk_step r (sk_set_stage r KStopped).
End Steps.

(** ** Lemmas *)

Lemma assoc_Close_items_subset w aid : uw_items (assoc_Close w aid) ⊆ uw_items w.
Proof.
  unfold assoc_Close. destruct (uw_assocs w !! aid) as [a|]; [|done]. destruct (ua_closing a); [done|].
  cbn [count set_m uw_items]. match goal with |- context [close_entries ?v ?i ?l] => destruct (close_entries_manager v i l) as (E & _) end.
  rewrite E. cbn. set_solver.
Qed.

Section Run.
  Context (parse6 : list byte -> option (list byte)) (timeout : goerr -> bool).

Lemma handleUDPAssociate_items w raddr target listen ok :
  match handleUDPAssociate parse6 w raddr target listen ok with
  | (w', Some aid) => uw_items w' = {[aid]} ∪ uw_items w
  | (w', None) => uw_items w' ⊆ uw_items w
  end.
Proof.
  unfold handleUDPAssociate, Create. cbn [count set_m uw_cfg uw_items uw_nextID uw_c uw_m uw_assocs].
  destruct (negb listen); [done|]. destruct (um_maxAssoc _ <=? _); [done|]. destruct ok; [done|].
  unfold assoc_Close. cbn [uw_assocs]. rewrite lookup_insert_eq. cbn [ua_closing count set_m uw_items].
  match goal with |- context [close_entries ?v ?i ?l] => destruct (close_entries_manager v i l) as (E & _) end. rewrite E. cbn. set_solver.
Qed.

Definition past_wait (s : kstage) : Prop := match s with KAccept | KWait => False | _ => True end.

Record sk_inv (r : skRun) : Prop := mkSkInv {
  ki_core : udp_core (sk_w r);
  ki_items : udp_items (sk_w r);
  ki_nat : 0 <= um_maxNAT (uw_cfg (sk_w r));
  ki_served : forall aid, aid ∈ uw_items (sk_w r) -> exists conn j c, sk_handlers r !! conn = Some (HServe aid j c);
  ki_past : past_wait (sk_stage r) -> sk_handlers r = ∅ /\ sk_ctx r = true /\ sk_listening r = false;
  ki_stop : sk_stage r = KLoop \/ sk_stage r = KStopped -> sk_stopCh r = true;
  ki_loop : sk_stage r = KStopped -> sk_loop r = false }.

Lemma sk_udp_inv r w : sk_inv r -> udp_step parse6 timeout (sk_w r) w ->
  udp_core w /\ udp_items w /\ 0 <= um_maxNAT (uw_cfg w).
Proof. intros [H1 H2 H3 _ _ _ _] Hs. destruct (udp_step_cfg _ _ _ _ Hs H1 H2 H3) as (? & ? & E). by rewrite E. Qed.

(** A handler exists, so main has not left its wait. *)
Lemma sk_not_past r conn h : sk_inv r -> sk_handlers r !! conn = Some h -> ~ past_wait (sk_stage r).
Proof. intros Hi Hh Hp. destruct (ki_past _ Hi Hp) as [E _]. rewrite E in Hh. done. Qed.

(** The associations that are served stay so when another handler changes, or when one of them
    changes only its goroutines. *)
Lemma served_insert (H : gmap Z handler) conn h aid j c :
  (forall aid' j' c', H !! conn = Some (HServe aid' j' c') -> exists j1 c1, h = HServe aid' j1 c1) ->
  (exists conn0, H !! conn0 = Some (HServe aid j c)) -> exists conn0 j0 c0, <[conn := h]> H !! conn0 = Some (HServe aid j0 c0).
Proof.
  intros Hh [conn0 Hc]. destruct (decide (conn0 = conn)) as [->|Hne]; [|exists conn0, j, c; by rewrite lookup_insert_ne].
  destruct (Hh _ _ _ Hc) as (j1 & c1 & ->). exists conn, j1, c1. by rewrite lookup_insert_eq.
Qed.

Lemma sk_step_inv r r' : sk_inv r -> sk_step parse6 timeout r r' -> sk_inv r'.
Proof.
  intros Hi Hs. pose proof Hi as [I1 I2 I3 I4 I5 I6 I7].
  destruct Hs as [r|r Hc|r conn Hst Hl Hf|r conn raddr target listen ok Hh Hn0 Hn|r w Hw Hsub|r conn aid j Hh|r conn aid c a Hh Ha Hc|r conn Hh|r conn aid a Hh Ha Hc Hrd|r Hst Hc|r Hst Hh|r Hst|r Hst|r Hl Hc|r Hst Hl].
  - split; cbn; try done. intros Hp. destruct (I5 Hp) as (? & _ & ?). done.
  - split; cbn; try done. intros Hp. destruct (I5 Hp) as (? & ? & _). done.
  - split; cbn; try done; [|by rewrite Hst]. intros aid (conn0 & j & c & Hc)%I4. eapply served_insert; [|by exists conn0]. intros ? ? ?. by rewrite Hf.
  - pose proof (sk_not_past _ _ _ Hi Hh) as Hp. pose proof (ust_associate parse6 timeout _ raddr target listen ok Hn0 Hn) as Hu.
    pose proof (sk_udp_inv _ _ Hi Hu) as (J1 & J2 & J3). pose proof (handleUDPAssociate_items (sk_w r) raddr target listen ok) as Hit.
    unfold sk_associate. destruct (handleUDPAssociate _ _ _ _ _ _) as [w [aid|]]; cbn [fst] in *; split; cbn; try done.
    + intros aid'. rewrite Hit. intros [->%elem_of_singleton|(conn0 & j & c & Hc)%I4]%elem_of_union; [exists conn, true, true; by rewrite lookup_insert_eq|].
      eapply served_insert; [|by exists conn0]. intros ? ? ?. by rewrite Hh.
    + intros aid' Hin. destruct (I4 aid') as (conn0 & j & c & Hc); [set_solver|]. exists conn0, j, c. rewrite lookup_delete_ne; [done|]. intros ->. congruence.
  - pose proof (sk_udp_inv _ _ Hi Hw) as (J1 & J2 & J3). split; cbn; try done. intros aid Hin. apply I4. set_solver.
  - pose proof (sk_not_past _ _ _ Hi Hh) as Hp. pose proof (sk_udp_inv _ _ Hi (ust_close parse6 timeout (sk_w r) aid)) as (J1 & J2 & J3). split; cbn; try done.
    intros aid' Hin. apply (assoc_Close_items_subset (sk_w r) aid) in Hin. destruct (I4 aid' Hin) as (conn0 & j0 & c & Hc).
    eapply served_insert; [|by exists conn0]. intros ? ? ? E. rewrite Hh in E. injection E as <- <- <-. eauto.
  - pose proof (sk_not_past _ _ _ Hi Hh) as Hp. split; cbn; try done. intros aid' (conn0 & j0 & c0 & Hc0)%I4.
    eapply served_insert; [|by exists conn0]. intros ? ? ? E. rewrite Hh in E. injection E as <- <- <-. eauto.
  - pose proof (sk_not_past _ _ _ Hi Hh) as Hp. split; cbn; try done. intros aid' (conn0 & j0 & c0 & Hc0)%I4. exists conn0, j0, c0.
    rewrite lookup_delete_ne; [done|]. intros ->. congruence.
  - pose proof (sk_not_past _ _ _ Hi Hh) as Hp. split; cbn; try done. intros aid' Hin. destruct (I4 aid' Hin) as (conn0 & j0 & c0 & Hc0). exists conn0, j0, c0.
    rewrite lookup_delete_ne; [done|]. intros <-. apply (ui_items _ I2) in Hin as (a' & Ha' & Hcl). congruence.
  - split; cbn; try done; by intros [].
  - split; cbn; try done; by intros [].
  - assert (E : CloseAll (sk_w r) = sk_w r).
    { destruct (I5 ltac:(by rewrite Hst)) as [Hh _]. assert (Hem : uw_items (sk_w r) = ∅) by (apply set_eq; intros aid; split; [|set_solver]; intros (? & ? & ? & Hc)%I4; rewrite Hh in Hc; done).
      unfold CloseAll. by rewrite Hem, elements_empty. }
    split; cbn; rewrite ?E; try done; [intros _; apply I5; by rewrite Hst|by intros [|]].
  - split; cbn; try done. intros _. apply I5. by rewrite Hst.
  - split; cbn; try done.
  - split; cbn; try done; [intros _; apply I5; by rewrite Hst|intros _; apply I6; by left].
Qed.

Lemma sk_reach_inv cfg mode now idle ma mn r : rtc (sk_step parse6 timeout) (sk_new (start_uworld cfg mode now idle ma mn)) r -> sk_inv r.
Proof.
  intros Hr. eapply (rtc_preserves (sk_step parse6 timeout)); [exact sk_step_inv|exact Hr|]. destruct (udp_inv_init cfg mode now idle ma mn) as [H1 H2].
  split; cbn; try done; [destruct (mn <=? 0) eqn:E; zbool; lia|by intros [|]].
Qed.

(** ** Theorems *)

(** C23: The program ends only after its connections. In every run, with connections, requests, datagrams
    and the signal in any order: when [main] is past [wg.Wait], no handler is left, the listener is
    closed, no association is registered, so that the deferred [CloseAll] finds nothing to close;
    at the end the controller's loop has returned. While an association is registered, [main] is
    still accepting or waiting, even after the signal: nothing closes the association. *)
Theorem socks_stop_waits cfg mode now idle ma mn r :
  rtc (sk_step parse6 timeout) (sk_new (start_uworld cfg mode now idle ma mn)) r ->
  (past_wait (sk_stage r) -> sk_handlers r = ∅ /\ sk_listening r = false /\ uw_items (sk_w r) = ∅ /\ CloseAll (sk_w r) = sk_w r)
  /\ (sk_stage r = KStopped -> sk_loop r = false)
  /\ (forall aid, aid ∈ uw_items (sk_w r) -> ~ past_wait (sk_stage r) /\ exists conn j c, sk_handlers r !! conn = Some (HServe aid j c)).
Proof.
  intros Hr%sk_reach_inv. pose proof Hr as [I1 I2 I3 I4 I5 I6 I7]. split_and!; [|done|].
  - intros Hp. destruct (I5 Hp) as (Hh & _ & Hl).
    assert (Hem : uw_items (sk_w r) = ∅) by (apply set_eq; intros aid; split; [|set_solver]; intros (? & ? & ? & Hc)%I4; rewrite Hh in Hc; done).
    split_and!; [done|done|done|]. unfold CloseAll. by rewrite Hem, elements_empty.
  - intros aid Hin. destruct (I4 aid Hin) as (conn & j & c & Hc). split; [by eapply sk_not_past|eauto].
Qed.

(** Without a connection the signal ends the program, whatever else is going on. *)
Theorem socks_can_stop cfg mode now idle ma mn r :
  rtc (sk_step parse6 timeout) (sk_new (start_uworld cfg mode now idle ma mn)) r -> sk_ctx r = true -> sk_handlers r = ∅ ->
  exists r', rtc (sk_step parse6 timeout) r r' /\ sk_stage r' = KStopped.
Proof.
  intros Hr%sk_reach_inv Hc Hh.
  assert (G1 : forall x, sk_inv x -> sk_stage x = KLoop -> exists y, rtc (sk_step parse6 timeout) x y /\ sk_stage y = KStopped).
  { intros x Hx Hs. destruct (sk_loop x) eqn:El.
    - exists (sk_set_stage (loop_stops x) KStopped). split; [|done]. eapply rtc_l; [apply ks_loop; [done|]|by apply rtc_once, ks_stopped]. apply (ki_stop _ Hx). by left.
    - exists (sk_set_stage x KStopped). split; [|done]. by apply rtc_once, ks_stopped. }
  assert (G2 : forall x y, sk_inv x -> sk_step parse6 timeout x y -> (sk_inv y -> exists z, rtc (sk_step parse6 timeout) y z /\ sk_stage z = KStopped) ->
    exists z, rtc (sk_step parse6 timeout) x z /\ sk_stage z = KStopped).
  { intros x y Hx Hs Hy. destruct Hy as (z & H1 & H2); [by eapply sk_step_inv|]. exists z. split; [by eapply rtc_l|done]. }
  assert (G3 : forall x, sk_inv x -> sk_stage x = KController -> exists y, rtc (sk_step parse6 timeout) x y /\ sk_stage y = KStopped)
    by (intros x Hx Hs; eapply G2; [done|by apply ks_controller|]; intros Hy; by apply G1).
  assert (G4 : forall x, sk_inv x -> sk_stage x = KCloseAll -> exists y, rtc (sk_step parse6 timeout) x y /\ sk_stage y = KStopped)
    by (intros x Hx Hs; eapply G2; [done|by apply ks_close_all|]; intros Hy; by apply G3).
  assert (G5 : forall x, sk_inv x -> sk_stage x = KWait -> sk_handlers x = ∅ -> exists y, rtc (sk_step parse6 timeout) x y /\ sk_stage y = KStopped)
    by (intros x Hx Hs He; eapply G2; [done|by apply ks_waited|]; intros Hy; by apply G4).
  destruct (sk_stage r) eqn:Hs; [|by apply G5|by apply G4|by apply G3|by apply G1|exists r; split; [apply rtc_refl|done]].
  eapply G2; [done|apply ks_break; [done|by left]|]. intros Hy. by apply G5.
Qed.

(** The accept loop of the SOCKS client and that of the gateway's TCP lane end for the same results
    of [Accept], as long as a closed listener is not reported as a temporary error. *)
Theorem socks_accept_like_gateway temporary ctx res :
  (forall e, err_is e ENetClosed = true -> temporary e = false) -> socks_accept temporary ctx res = serveTCP_accept temporary ctx res.
Proof.
  intros Ht. destruct res as [c|e]; [done|]. cbn. destruct ctx; [done|]. cbn [orb]. destruct (err_is e ENetClosed) eqn:E.
  - by rewrite (Ht e E).
  - by destruct (temporary e).
Qed.
End Run.

(** A start that succeeds: the ports are valid, the timeouts and limits positive, and the metrics
    are served exactly when an address is given. *)
Theorem socks_main_spec parse6 base fl lookup listen now p :
  socks_main parse6 base fl lookup listen now = Ok p ->
  0 < fl_portUDP (rf_cfg fl) <= 65535 /\ 0 < fl_portTCP (rf_cfg fl) <= 65535 /\ 0 < pg_connectTimeout p
  /\ 0 < um_idleTimeout (uw_cfg (pg_world p)) /\ 0 < um_maxAssoc (uw_cfg (pg_world p)) /\ 0 < um_maxNAT (uw_cfg (pg_world p))
  /\ (pg_metrics p = None <-> TrimSpace (rf_metrics fl) = "") /\ listen = None.
Proof.
  unfold socks_main. intros H. apply res_bind_Ok in H as (b & _ & H). apply res_bind_Ok in H as (mode & _ & H). apply res_bind_Ok in H as ([] & Hp & H).
  cbv zeta in H. apply res_bind_Ok in H as (sf & _ & H). apply res_bind_Ok in H as (au & _ & H). apply res_bind_Ok in H as (cfg & _ & H).
  destruct listen; [done|]. injection H as <-. unfold check_ports in Hp. destruct (_ || _) eqn:E1; [done|]. destruct (_ || _) eqn:E2 in Hp; [done|]. destruct (_ || _) eqn:E3 in Hp; [done|].
  zbool. cbn. unfold or_default. split_and!; try lia; try (repeat case_on; zbool; unfold Second in *; lia).
  - unfold socks_startMetricsServer. destruct (String.eqb (TrimSpace (rf_metrics fl)) "") eqn:E; [apply String.eqb_eq in E|apply String.eqb_neq in E]; split; try done.
  - done.
Qed.

(** ** Examples *)

(** A client opens an association, and the program is interrupted while it is idle. *)
Definition ex_sk0 : skRun := sk_new tr0.
Definition ex_sk1 : skRun := sk_associate no6 (sk_accepted ex_sk0 9) 9 (Some lo) (mkTarget x01 "0.0.0.0" 0) true true.
Definition ex_sk2 : skRun := sk_break (sk_close_listener (sk_signal ex_sk1)).
Lemma ex_sk2_reach : rtc (sk_step no6 no_timeout) ex_sk0 ex_sk2.
Proof.
  eapply rtc_l; [apply (ks_accept _ _ ex_sk0 9); reflexivity|].
  eapply rtc_l; [apply (ks_associate _ _ (sk_accepted ex_sk0 9) 9 (Some lo) (mkTarget x01 "0.0.0.0" 0) true true); [vm_compute; reflexivity|vm_compute; discriminate|vm_compute; reflexivity]|].
  eapply rtc_l; [apply ks_signal|]. eapply rtc_l; [apply ks_listener; reflexivity|]. eapply rtc_l; [apply ks_break; [reflexivity|left; reflexivity]|]. apply rtc_refl.
Qed.
Lemma socks_stop_waits_witness : 1 ∈ uw_items (sk_w ex_sk2) /\ sk_ctx ex_sk2 = true /\ ~ past_wait (sk_stage ex_sk2).
Proof.
  assert (Hin : 1 ∈ uw_items (sk_w ex_sk2)) by (apply (bool_decide_unpack _); vm_compute; exact I).
  destruct (socks_stop_waits no6 no_timeout example_base modeNormal 0 0 0 0 ex_sk2 ex_sk2_reach) as (_ & _ & H).
  split; [exact Hin|]. split; [reflexivity|]. exact (proj1 (H 1 Hin)).
Defined.
Lemma socks_can_stop_witness : exists r', rtc (sk_step no6 no_timeout) (sk_signal ex_sk0) r' /\ sk_stage r' = KStopped.
Proof. apply (socks_can_stop no6 no_timeout example_base modeNormal 0 0 0 0); [eapply rtc_l; [apply ks_signal|apply rtc_refl]|reflexivity|reflexivity]. Defined.
Lemma socks_accept_like_gateway_witness : socks_accept no_timeout false (inr ENetClosed) = AReturn.
Proof. rewrite (socks_accept_like_gateway no_timeout); [reflexivity|]. intros e _. reflexivity. Defined.

Definition ex_run_flags : runFlags :=
  mkRunFlags (mkFlags "vlf.example.net" "192.0.2.7" "" false 0 443 8443 "" true false false true false "" "") "Auto" "text" "none" "" "" "127.0.0.1:1080" " " 0 0 0 0.
Lemma socks_main_spec_witness : exists p, socks_main no6 (Ok example_base) ex_run_flags (fun _ _ => Err (ENew "no DNS")) None 0 = Ok p /\ pg_connectTimeout p = 10 * Second /\ 0 < pg_connectTimeout p /\ pg_metrics p = None.
Proof.
  destruct (socks_main no6 (Ok example_base) ex_run_flags (fun _ _ => Err (ENew "no DNS")) None 0) as [p| |] eqn:E; [|vm_compute in E; discriminate E..].
  exists p. split; [reflexivity|]. destruct (socks_main_spec _ _ _ _ _ _ _ E) as (_ & _ & H1 & _ & _ & _ & H2 & _). split; [|split; [exact H1|apply H2; vm_compute; reflexivity]].
  vm_compute in E. injection E as <-. reflexivity.
Defined.
