(* ===== verification/TunPool.v ===== *)
(** * The TUN client: the controller and its pool of session clients ([cmd/tun_client/main_windows.go])

    The controller of the TUN client is the transport policy of the SOCKS5 client, method for method
    (the file SocksPolicy), with one addition: the flows share session clients, which the controller
    keeps in a map under a key made from the configuration, with a count of the flows that use each.
    Every method holds the lock of the controller for its state changes; [acquireClient] takes it
    twice, before and after it dials. A session client is a number; which clients are open is part
    of the state, because closing them at the right time is what the pool is for. *)

From Stdlib Require Import Floats.SpecFloat.
From S2P Require Import Prelude Ownership GoString ClientConfig Client SocksPolicy SocksConn.

(** ** Data *)

Record managedClient := mkMC { mc_client : Z; mc_transport : Transport; refCount : Z; broken : bool; lastUsed : Z }.

(** The part that the SOCKS5 client has as well, the pool, the [clientKey] of each flow, and the
    session clients that are open. *)
Record tunController := mkTun {
  tc_p : policyController; tc_clients : gmap string managedClient; tc_keys : gmap Z string; tc_open : gset Z }.

Definition on_policy (c : tunController) (p : policyController) : tunController := mkTun p (tc_clients c) (tc_keys c) (tc_open c).
Definition with_clients (c : tunController) (m : gmap string managedClient) (open : gset Z) : tunController := mkTun (tc_p c) m (tc_keys c) open.

Definition tun_newPolicyController (cfg : ClientConfig) (mode : clientMode) (now : Z) : tunController :=
  mkTun (newPolicyController cfg mode now) ∅ ∅ ∅.

(** ** Errors *)

(** A session client is given up after one of these; a failure of one flow alone is not. *)
Definition isSessionClientFatalErr (e : option goerr) : bool :=
  match e with
  | None => false
  | Some e =>
      if err_is e EEOF || err_is e ENetClosed || err_is e ECanceled then true
      else
        let msg := ToLower (err_text e) in
        Contains msg "use of closed network connection" || Contains msg "application error 0x0" || Contains msg "no recent network activity"
        || Contains msg "context deadline exceeded" || Contains msg "stream reset"
  end.
Definition tun_isExpectedPipeErr (e : option goerr) : bool :=
  match e with
  | None => true
  | Some e =>
      if err_is e EEOF || err_is e ENetClosed || err_is e ECanceled then true
      else String.eqb (err_text e) "use of closed network connection" || String.eqb (err_text e) "EOF"
  end.
Definition tun_isExpectedProbeErr (e : option goerr) : bool :=
  if tun_isExpectedPipeErr e then true
  else match e with
  | None => true
  | Some e => let msg := ToLower (err_text e) in Contains msg "application error 0x0" || Contains msg "stream reset"
  end.

(** ** The key of a configuration *)

Definition show_int (n : Z) : string := string_of_bytes (FormatInt n).
Definition show_bool (b : bool) : string := if b then "true" else "false".

Definition clientConfigKey (cfg : ClientConfig) : string :=
  String.concat "|" [ToLower (TrimSpace (GatewayHost cfg)); show_int (GatewayUDP cfg); show_int (GatewayTCP cfg); TrimSpace (RelayBase cfg);
    TrimSpace (cc_ClientID cfg); TrimSpace (ProtoID cfg); show_bool (PreferQUIC cfg); show_bool (DisableQUIC cfg); show_bool (DisableTCPSession cfg);
    show_bool (AllowRelay cfg); show_bool (ForceIPv4 cfg)].

(** ** The pool *)

(** The entry under a key, when it can be handed out. *)
Definition usable (c : tunController) (key : string) : option managedClient :=
  match tc_clients c !! key with
  | Some mc => if broken mc then None else Some mc
  | None => None
  end.
Definition use (c : tunController) (key : string) (mc : managedClient) (now : Z) : tunController :=
  with_clients c (<[key := mkMC (mc_client mc) (mc_transport mc) (refCount mc + 1) (broken mc) now]> (tc_clients c)) (tc_open c).

(** [acquireClient] up to the dial: a client of the pool. *)
Definition acquire_lookup (c : tunController) (key : string) (now : Z) : tunController * option (Z * Transport) :=
  match usable c key with
  | Some mc => (use c key mc now, Some (mc_client mc, mc_transport mc))
  | None => (c, None)
  end.
(** [acquireClient] after a dial that returned [client]: another flow may have filled the pool in
    the meantime, and then the new client is closed; the boolean is [dialed]. *)
Definition acquire_dialed (c : tunController) (key : string) (now client : Z) (t : Transport) : tunController * (Z * Transport * bool) :=
  match usable c key with
  | Some mc => (use c key mc now, (mc_client mc, mc_transport mc, false))
  | None =>
      (with_clients c (<[key := mkMC client t 1 false now]> (tc_clients c)) ({[client]} ∪ tc_open c), (client, t, true))
  end.
Definition acquireClient (c : tunController) (cfg : ClientConfig) (now : Z) (dial : (Z * Transport) + DialError)
    : tunController * ((Z * Transport * string * bool) + DialError) :=
  let key := clientConfigKey cfg in
  match acquire_lookup c key now with
  | (c, Some (cl, t)) => (c, inl (cl, t, key, false))
  | (c, None) =>
      match dial with
      | inr de => (c, inr de)
      | inl (cl, t) => let '(c, (cl, t, dialed)) := acquire_dialed c key now cl t in (c, inl (cl, t, key, dialed))
      end
  end.

Definition remove_client (c : tunController) (key : string) (mc : managedClient) : tunController :=
  with_clients c (delete key (tc_clients c)) (tc_open c ∖ {[mc_client mc]}).

Definition releaseClient (c : tunController) (key : string) : tunController :=
  if String.eqb key "" then c
  else match tc_clients c !! key with
  | None => c
  | Some mc =>
      let n := if 0 <? refCount mc then refCount mc - 1 else refCount mc in
      if (n =? 0) && broken mc then remove_client c key mc
      else with_clients c (<[key := mkMC (mc_client mc) (mc_transport mc) n (broken mc) (lastUsed mc)]> (tc_clients c)) (tc_open c)
  end.

Definition markClientBad (c : tunController) (key : string) (e : option goerr) : tunController :=
  if String.eqb key "" || negb (isSessionClientFatalErr e) then c
  else match tc_clients c !! key with
  | None => c
  | Some mc =>
      if broken mc then c
      else if refCount mc =? 0 then remove_client c key mc
      else with_clients c (<[key := mkMC (mc_client mc) (mc_transport mc) (refCount mc) true (lastUsed mc)]> (tc_clients c)) (tc_open c)
  end.

Definition pooled (c : tunController) : gset Z := list_to_set (mc_client <$> (map_to_list (tc_clients c)).*2).
(** [Close]: the pool is emptied, the clients it had are closed. *)
Definition tun_Close (c : tunController) : tunController := with_clients c ∅ (tc_open c ∖ pooled c).

Definition ActiveFlowCount (c : tunController) : Z := Z.of_nat (size (flows (tc_p c))).

(** ** Flows *)

Definition tun_appendRTTSampleLocked (c : tunController) (at_ : Z) (ms : spec_float) : tunController := on_policy c (appendRTTSampleLocked (tc_p c) at_ ms).

Definition tun_registerFlow (c : tunController) (now client : Z) (key : string) (t : Transport) (setup : Z) : tunController * Z :=
  let '(p, id) := registerFlow (tc_p c) now (Some client) t in
  let c := mkTun p (tc_clients c) (<[id := key]> (tc_keys c)) (tc_open c) in
  (if 0 <? setup then tun_appendRTTSampleLocked c now (f_div (float64 (Microseconds setup)) (float64 1000)) else c, id).
(** The critical section of [unregisterFlow], and the key to release after it. *)
Definition unregister_locked (c : tunController) (id : Z) : tunController * option string :=
  (mkTun (unregisterFlow (tc_p c) id) (tc_clients c) (delete id (tc_keys c)) (tc_open c),
   if bool_decide (is_Some (flows (tc_p c) !! id)) then tc_keys c !! id else None).
Definition tun_unregisterFlow (c : tunController) (id : Z) : tunController :=
  match unregister_locked c id with
  | (c, Some key) => releaseClient c key
  | (c, None) => c
  end.

(** ** The methods of the policy *)

Definition tun_configForMode (c : tunController) (mode : clientMode) : ClientConfig := configForMode (baseCfg (tc_p c)) mode.
Definition tun_dialConfig (c : tunController) : ClientConfig * clientMode := (tun_configForMode c (currentMode (tc_p c)), currentMode (tc_p c)).
Definition tun_dialConfigUDP (c : tunController) : ClientConfig * clientMode :=
  let '(cfg, mode) := tun_dialConfig c in (set_transports cfg (QUICTimeout cfg) true false true false, mode).
Definition tun_onDialSuccess (c : tunController) (now : Z) (mode : clientMode) (cfg : ClientConfig) (t : Transport) : tunController :=
  on_policy c (onDialSuccess (tc_p c) now mode cfg t).
Definition tun_onDialError (c : tunController) (now : Z) (cfg : ClientConfig) (de : option DialError) : tunController :=
  on_policy c (onDialError (tc_p c) now cfg de).
Definition tun_onTransportError (c : tunController) (now : Z) : tunController := on_policy c (onTransportError (tc_p c) now).
Definition tun_acquireFlowPermit (c : tunController) (now : Z) : tunController * bool :=
  let '(p, ok) := acquireFlowPermit (tc_p c) now in (on_policy c p, ok).
Definition tun_releaseFlowPermit (c : tunController) : tunController := on_policy c (releaseFlowPermit (tc_p c)).
Definition tun_recordQUICFailure (c : tunController) (now : Z) : tunController := on_policy c (recordQUICFailure (tc_p c) now).
Definition tun_recordTransportError (c : tunController) (now : Z) : tunController := on_policy c (recordTransportError (tc_p c) now).
Definition tun_flowWriter_Write (c : tunController) (id : Z) (up : bool) (n : Z) : tunController := on_policy c (flowWriter_Write (tc_p c) id up n).
Definition tun_pickProbeClient (c : tunController) (order : list Z) : option (Z * Transport) := pickProbeClient (tc_p c) order.
Definition tun_probeRTT (c : tunController) (now now' : Z) (order : list Z) (probe : Z -> res Z) : tunController :=
  match tun_pickProbeClient c order with
  | None => c
  | Some (cl, _) =>
      match probe cl with
      | Ok rtt => tun_appendRTTSampleLocked c now (f_div (float64 (Microseconds rtt)) (float64 1000))
      | Err e => if err_is e ErrRTTProbeUnsupported || tun_isExpectedProbeErr (Some e) then c else tun_recordTransportError c now'
      | Panic _ => c
      end
  end.
Definition tun_evaluateAutoPolicy (c : tunController) (now now' : Z) (order : list Z) : tunController :=
  on_policy c (evaluateAutoPolicy (tc_p c) now now' order).
Definition tun_printStats (c : tunController) (now : Z) : tunController * option statsPayload :=
  let '(p, s) := printStats (tc_p c) now in (on_policy c p, s).
(** One tick of [loop]. *)
Definition tun_loop_tick (c : tunController) (now now1 now2 : Z) (order1 order2 : list Z) (probe : Z -> res Z) : tunController * option statsPayload :=
  tun_printStats (tun_evaluateAutoPolicy (tun_probeRTT c now now1 order1 probe) now now2 order2) now.

(** What [tun_registerFlow] writes, component by component. *)
Lemma registerFlow_parts c now client key t setup :
  tun_registerFlow c now client key t setup =
  let '(p, id) := registerFlow (tc_p c) now (Some client) t in
  (mkTun (if 0 <? setup then appendRTTSampleLocked p now (f_div (float64 (Microseconds setup)) (float64 1000)) else p)
     (tc_clients c) (<[id := key]> (tc_keys c)) (tc_open c), id).
Proof. unfold tun_registerFlow. destruct (registerFlow _ _ _ _) as [p id]. by destruct (0 <? setup). Qed.

(** ** The key tells the configurations apart

    All configurations of a controller come from one base configuration by [set_transports]. *)

Definition derived (base cfg : ClientConfig) : Prop := exists q a b c d, cfg = set_transports base q a b c d.

Lemma derived_dialConfig p : derived (baseCfg p) (dialConfig p).1 /\ derived (baseCfg p) (dialConfigUDP p).1.
Proof.
  unfold derived, dialConfigUDP, dialConfig. split; destruct (currentMode p); cbn; try (by repeat eexists).
  destruct (baseCfg p); by exists QUICTimeout, PreferQUIC, DisableQUIC, DisableTCPSession, AllowRelay.
Qed.

Lemma append_inj_l (a b c : string) : (a ++ b)%string = (a ++ c)%string -> b = c.
Proof. induction a; cbn; [done|]. intros [= ?]. auto. Qed.

Lemma key_derived base q a b c d q' a' b' c' d' :
  clientConfigKey (set_transports base q a b c d) = clientConfigKey (set_transports base q' a' b' c' d') -> a = a' /\ b = b' /\ c = c' /\ d = d'.
Proof.
  unfold clientConfigKey. cbn [String.concat GatewayHost GatewayUDP GatewayTCP RelayBase cc_ClientID ProtoID ForceIPv4 set_transports PreferQUIC DisableQUIC DisableTCPSession AllowRelay].
  intros H. do 12 apply append_inj_l in H. revert H. generalize (show_bool (ForceIPv4 base)). intros x.
  destruct a, a', b, b', c, c', d, d'; cbn; intros H; first [done | discriminate H].
Qed.

(** Two configurations of one controller have the same key exactly when they differ in the timeout
    of the QUIC dial alone; so whatever mode a pooled client was dialled in, it was dialled with the
    transports, in the order, of every flow that is given it. *)
Theorem key_determines_dial base cfg cfg' {I} (dial : Transport -> res I) :
  derived base cfg -> derived base cfg' ->
  (clientConfigKey cfg = clientConfigKey cfg'
   <-> cfg' = set_transports cfg (QUICTimeout cfg') (PreferQUIC cfg) (DisableQUIC cfg) (DisableTCPSession cfg) (AllowRelay cfg))
  /\ (clientConfigKey cfg = clientConfigKey cfg' -> Dial cfg dial = Dial cfg' dial).
Proof.
  intros (q & a & b & c & d & ->) (q' & a' & b' & c' & d' & ->).
  assert (Hd : forall x y, Dial (set_transports base x a b c d) dial = Dial (set_transports base y a b c d) dial) by (intros x y; destruct a; reflexivity).
  split; [split|].
  - intros (-> & -> & -> & ->)%key_derived. done.
  - intros [= -> -> -> ->]. done.
  - intros (-> & -> & -> & ->)%key_derived. apply Hd.
Qed.

(** ** The pool over time *)

(** Any use of the pool: the dialled client is a new one, and what the flows and the policy do to
    the rest of the controller is arbitrary. *)
Inductive pool_step : tunController -> tunController -> Prop :=
| pls_lookup c key now : pool_step c (acquire_lookup c key now).1
| pls_dialed c key now client t : client ∉ tc_open c -> pool_step c (acquire_dialed c key now client t).1
| pls_release c key : pool_step c (releaseClient c key)
| pls_bad c key e : pool_step c (markClientBad c key e)
| pls_close c : pool_step c (tun_Close c)
| pls_policy c p keys : pool_step c (mkTun p (tc_clients c) keys (tc_open c)).

Definition entry_ok (c : tunController) (mc : managedClient) : Prop :=
  0 <= refCount mc /\ (broken mc = true -> 0 < refCount mc) /\ mc_client mc ∈ tc_open c.

Record pool_inv (c : tunController) : Prop := mkPoolInv {
  pl_entry : forall key mc, tc_clients c !! key = Some mc -> entry_ok c mc;
  pl_inj : forall k1 k2 m1 m2, tc_clients c !! k1 = Some m1 -> tc_clients c !! k2 = Some m2 -> mc_client m1 = mc_client m2 -> k1 = k2 }.

Lemma elem_of_pooled c x : x ∈ pooled c <-> exists key mc, tc_clients c !! key = Some mc /\ mc_client mc = x.
Proof.
  unfold pooled. rewrite elem_of_list_to_set, list_elem_of_fmap. split.
  - intros (mc & -> & Hin). apply list_elem_of_fmap in Hin as ([key mc'] & -> & Hin). apply elem_of_map_to_list in Hin. eauto.
  - intros (key & mc & Hk & <-). exists mc. split; [done|]. apply list_elem_of_fmap. exists (key, mc). split; [done|]. by apply elem_of_map_to_list.
Qed.

(** An entry changes and keeps its client. *)
Lemma pool_inv_update c key mc mc' :
  pool_inv c -> tc_clients c !! key = Some mc -> mc_client mc' = mc_client mc -> 0 <= refCount mc' -> (broken mc' = true -> 0 < refCount mc') ->
  pool_inv (with_clients c (<[key := mc']> (tc_clients c)) (tc_open c)).
Proof.
  intros [H1 H2] Hk Hc Hr Hb. split; cbn.
  - intros k m Hm. apply lookup_insert_Some in Hm as [[<- <-]|[Hne Hm]]; [|by apply (H1 k)].
    split_and!; [done..|]. cbn. rewrite Hc. apply (H1 key mc Hk).
  - intros k1 k2 m1 m2 E1 E2 E3. apply lookup_insert_Some in E1 as [[<- <-]|[N1 E1]], E2 as [[<- <-]|[N2 E2]]; [done| | |eauto]; rewrite Hc in E3; eauto.
Qed.
Lemma pool_inv_remove c key mc : pool_inv c -> tc_clients c !! key = Some mc -> pool_inv (remove_client c key mc).
Proof.
  intros [H1 H2] Hk. split; cbn.
  - intros k m [Hne Hm]%lookup_delete_Some. destruct (H1 k m Hm) as (? & ? & ?). split_and!; [done..|]. cbn.
    apply elem_of_difference. split; [done|]. rewrite elem_of_singleton. intros E. by apply Hne, (H2 _ _ _ _ Hk Hm).
  - intros k1 k2 m1 m2 [_ E1]%lookup_delete_Some [_ E2]%lookup_delete_Some. eauto.
Qed.
Lemma usable_Some c key mc : usable c key = Some mc <-> tc_clients c !! key = Some mc /\ broken mc = false.
Proof. unfold usable. destruct (tc_clients c !! key) as [m|]; [|naive_solver]. destruct (broken m) eqn:E; naive_solver congruence. Qed.
Lemma pool_inv_use c key mc now : pool_inv c -> usable c key = Some mc -> pool_inv (use c key mc now).
Proof.
  intros Hi [Hk Hb]%usable_Some. eapply pool_inv_update; [done..| |]; cbn; destruct (pl_entry _ Hi _ _ Hk) as (? & _); [lia|]. by rewrite Hb.
Qed.
Lemma pool_inv_dialed c key now client t : pool_inv c -> client ∉ tc_open c -> pool_inv (acquire_dialed c key now client t).1.
Proof.
  intros Hi Hc. unfold acquire_dialed. destruct (usable c key) as [mc|] eqn:E; [by apply pool_inv_use|]. clear E. destruct Hi as [H1 H2].
  assert (Hnew : forall k m, tc_clients c !! k = Some m -> mc_client m <> client) by (intros k m Hm; destruct (H1 k m Hm) as (_ & _ & ?); congruence).
  split; cbn.
  - intros k m Hm. unfold entry_ok. cbn. rewrite elem_of_union, elem_of_singleton. apply lookup_insert_Some in Hm as [[<- <-]|[Hne Hm]]; cbn; [split_and!; [lia|done|by left]|].
    destruct (H1 k m Hm) as (? & ? & ?). by split_and!; [| |right].
  - intros k1 k2 m1 m2 E1 E2 E3. apply lookup_insert_Some in E1 as [[<- <-]|[N1 E1]], E2 as [[<- <-]|[N2 E2]]; [done| | |eauto]; cbn in E3; exfalso; naive_solver.
Qed.
Lemma pool_inv_release c key : pool_inv c -> pool_inv (releaseClient c key).
Proof.
  intros Hi. unfold releaseClient. case_on; [done|]. destruct (tc_clients c !! key) as [mc|] eqn:Ek; [|done]. destruct (pl_entry _ Hi _ _ Ek) as (R1 & R2 & _).
  set (n := if 0 <? refCount mc then refCount mc - 1 else refCount mc). assert (Hn : 0 <= n) by (unfold n; case_on; zbool; lia).
  destruct ((n =? 0) && broken mc) eqn:E; [by apply pool_inv_remove|]. eapply pool_inv_update; [done..|]. cbn. intros Hb. rewrite Hb, andb_true_r in E. zbool. lia.
Qed.
Lemma pool_inv_bad c key e : pool_inv c -> pool_inv (markClientBad c key e).
Proof.
  intros Hi. unfold markClientBad. case_on; [done|]. destruct (tc_clients c !! key) as [mc|] eqn:Ek; [|done]. destruct (pl_entry _ Hi _ _ Ek) as (R1 & R2 & _).
  destruct (broken mc) eqn:Eb; [done|]. destruct (refCount mc =? 0) eqn:E0; [by apply pool_inv_remove|]. zbool. eapply pool_inv_update; [done..| |]; cbn; lia.
Qed.
Lemma pool_inv_step c c' : pool_inv c -> pool_step c c' -> pool_inv c'.
Proof.
  intros Hi Hs. destruct Hs.
  - unfold acquire_lookup. destruct (usable c key) eqn:E; [by apply pool_inv_use|done].
  - by apply pool_inv_dialed.
  - by apply pool_inv_release.
  - by apply pool_inv_bad.
  - split; cbn; intros *; by rewrite lookup_empty.
  - destruct Hi. by split.
Qed.
Lemma pool_inv_reachable cfg mode now c : rtc pool_step (tun_newPolicyController cfg mode now) c -> pool_inv c.
Proof.
  intros Hr. eapply (rtc_preserves pool_step); [exact pool_inv_step|exact Hr|]. split; cbn; intros *; by rewrite lookup_empty.
Qed.

(** A client that is open and not in the pool. *)
Definition stray (x : Z) (c : tunController) : Prop := x ∈ tc_open c /\ x ∉ pooled c.

Lemma pooled_update c key mc mc' :
  tc_clients c !! key = Some mc -> mc_client mc' = mc_client mc -> pooled (with_clients c (<[key := mc']> (tc_clients c)) (tc_open c)) = pooled c.
Proof.
  intros Hk Hc. apply set_eq. intros x. rewrite !elem_of_pooled. cbn. split.
  - intros (k & m & Hm & <-). apply lookup_insert_Some in Hm as [[<- <-]|[_ Hm]]; eauto.
  - intros (k & m & Hm & <-). destruct (decide (k = key)) as [->|Hne].
    + exists key, mc'. rewrite lookup_insert_eq. split; [done|congruence].
    + exists k, m. by rewrite lookup_insert_ne.
Qed.
Lemma stray_remove x c key mc : pool_inv c -> tc_clients c !! key = Some mc -> stray x c -> stray x (remove_client c key mc).
Proof.
  intros Hi Hk [Ho Hp]. rewrite elem_of_pooled in Hp. split; cbn.
  - apply elem_of_difference. split; [done|]. rewrite elem_of_singleton. intros ->. eauto.
  - rewrite elem_of_pooled. cbn. intros (k & m & [_ Hm]%lookup_delete_Some & <-). eauto.
Qed.
Lemma stray_use x c key mc now : usable c key = Some mc -> stray x c -> stray x (use c key mc now).
Proof. intros [Hk _]%usable_Some [Ho Hp]. split; [done|]. unfold use. by erewrite pooled_update. Qed.

(** Nothing closes a stray client. *)
Lemma stray_step x c c' : pool_inv c -> stray x c -> pool_step c c' -> stray x c'.
Proof.
  intros Hi Hx Hs. destruct Hs.
  - unfold acquire_lookup. destruct (usable c key) eqn:E; [by apply stray_use|done].
  - unfold acquire_dialed. destruct (usable c key) eqn:E; [by apply stray_use|]. destruct Hx as [Ho Hp]. rewrite elem_of_pooled in Hp. split; cbn; [set_solver|].
    rewrite elem_of_pooled. cbn. intros (k & m & Hm & E2). apply lookup_insert_Some in Hm as [[<- <-]|[_ Hm]]; [cbn in E2; congruence|eauto].
  - unfold releaseClient. case_on; [done|]. destruct (tc_clients c !! key) as [mc|] eqn:Ek; [|done]. cbn zeta. destruct (_ && broken mc); [by apply stray_remove|].
    destruct Hx. split; [done|]. by erewrite pooled_update.
  - unfold markClientBad. case_on; [done|]. destruct (tc_clients c !! key) as [mc|] eqn:Ek; [|done]. destruct (broken mc); [done|]. case_on; [by apply stray_remove|].
    destruct Hx. split; [done|]. by erewrite pooled_update.
  - destruct Hx as [Ho Hp]. split; cbn; [set_solver|]. rewrite elem_of_pooled. cbn. intros (k & m & Hm & _). by rewrite lookup_empty in Hm.
  - destruct Hx. by split.
Qed.
Lemma stray_forever x c c' : pool_inv c -> stray x c -> rtc pool_step c c' -> stray x c'.
Proof.
  intros Hi Hx Hr. eapply (rtc_preserves pool_step (fun c => pool_inv c /\ stray x c)); [|exact Hr|done].
  intros a b [Ha Hb] Hs. eauto using pool_inv_step, stray_step.
Qed.

(** The counts of the pool: no count is negative, an entry that is marked broken is still in use
    (so that the flow that gives it up last closes it), every pooled client is open and is pooled
    under one key. *)
Theorem pool_counts cfg mode now c key mc :
  rtc pool_step (tun_newPolicyController cfg mode now) c -> tc_clients c !! key = Some mc ->
  0 <= refCount mc /\ (broken mc = true -> 0 < refCount mc) /\ mc_client mc ∈ tc_open c
  /\ (forall key' mc', tc_clients c !! key' = Some mc' -> mc_client mc' = mc_client mc -> key' = key).
Proof.
  intros Hi%pool_inv_reachable Hk. destruct (pl_entry _ Hi _ _ Hk) as (? & ? & ?). split_and!; [done..|]. intros key' mc' Hk' E. by apply (pl_inj _ Hi _ _ _ _ Hk' Hk).
Qed.

(** A broken client that is replaced is never closed: a flow that finds the entry of its key broken
    dials a new client and overwrites the entry, although the broken one is always still in use;
    from then on no release, no error and not even [Close] closes the old client. *)
Theorem replaced_client_never_closed cfg mode now c key mc t1 client t c' :
  rtc pool_step (tun_newPolicyController cfg mode now) c -> tc_clients c !! key = Some mc -> broken mc = true -> client ∉ tc_open c ->
  rtc pool_step (acquire_dialed c key t1 client t).1 c' ->
  0 < refCount mc /\ mc_client mc ∈ tc_open c' /\ mc_client mc ∉ pooled c'.
Proof.
  intros Hi%pool_inv_reachable Hk Hb Hc Hr. destruct (pl_entry _ Hi _ _ Hk) as (R1 & R2 & R3). split; [auto|].
  apply (stray_forever (mc_client mc) (acquire_dialed c key t1 client t).1); [by apply pool_inv_dialed| |done].
  unfold acquire_dialed, usable. rewrite Hk, Hb. split; cbn; [set_solver|]. rewrite elem_of_pooled. cbn. intros (k & m & Hm & E).
  apply lookup_insert_Some in Hm as [[<- <-]|[Hne Hm]]; [cbn in E; congruence|]. by apply Hne, (pl_inj _ Hi _ _ _ _ Hk Hm).
Qed.

(** ** Examples and witnesses *)

(** Two flows share client 1; one of them sees it end, the other still uses it. *)
Definition ex_pool : tunController :=
  markClientBad (acquire_lookup (acquire_dialed (tun_newPolicyController example_base modeAuto 0) "k" 0 1 TransportQUIC).1 "k" 1).1 "k" (Some EEOF).
Definition ex_entry : managedClient := mkMC 1 TransportQUIC 2 true 1.

Lemma ex_pool_reachable : rtc pool_step (tun_newPolicyController example_base modeAuto 0) ex_pool.
Proof.
  eapply rtc_l; [apply (pls_dialed _ "k" 0 1 TransportQUIC); cbn; set_solver|]. eapply rtc_l; [apply (pls_lookup _ "k" 1)|]. apply rtc_once, pls_bad.
Qed.
Lemma ex_pool_entry : tc_clients ex_pool !! "k"%string = Some ex_entry.
Proof. vm_compute. reflexivity. Qed.

Lemma pool_counts_witness : 0 <= refCount ex_entry /\ (broken ex_entry = true -> 0 < refCount ex_entry) /\ mc_client ex_entry ∈ tc_open ex_pool
  /\ (forall key' mc', tc_clients ex_pool !! key' = Some mc' -> mc_client mc' = mc_client ex_entry -> key' = "k"%string).
Proof. exact (pool_counts example_base modeAuto 0 ex_pool "k" ex_entry ex_pool_reachable ex_pool_entry). Defined.

(** A third flow dials client 2; then the two flows release client 1, and the controller is closed. *)
Definition ex_replaced : tunController := (acquire_dialed ex_pool "k" 2 2 TransportQUIC).1.
Lemma replaced_client_never_closed_witness :
  0 < refCount ex_entry /\ mc_client ex_entry ∈ tc_open (tun_Close (releaseClient (releaseClient ex_replaced "k") "k"))
  /\ mc_client ex_entry ∉ pooled (tun_Close (releaseClient (releaseClient ex_replaced "k") "k")).
Proof.
  refine (replaced_client_never_closed example_base modeAuto 0 ex_pool "k" ex_entry 2 2 TransportQUIC _ ex_pool_reachable ex_pool_entry eq_refl _ _).
  - apply (bool_decide_unpack _). vm_compute. exact I.
  - eapply rtc_l; [apply (pls_release _ "k")|]. eapply rtc_l; [apply (pls_release _ "k")|]. apply rtc_once, pls_close.
Defined.
(** The releases of the two old flows were counted against the new client, which the third flow uses. *)
Example ex_replaced_counts : refCount <$> (tc_clients (releaseClient (releaseClient ex_replaced "k") "k") !! "k"%string) = Some 0.
Proof. vm_compute. reflexivity. Qed.

Lemma key_determines_dial_witness :
  (clientConfigKey (configForMode example_base modeNormal) = clientConfigKey (configForMode example_base modeFast)
   <-> configForMode example_base modeFast
       = set_transports (configForMode example_base modeNormal) (QUICTimeout (configForMode example_base modeFast)) (PreferQUIC (configForMode example_base modeNormal))
           (DisableQUIC (configForMode example_base modeNormal)) (DisableTCPSession (configForMode example_base modeNormal)) (AllowRelay (configForMode example_base modeNormal)))
  /\ (clientConfigKey (configForMode example_base modeNormal) = clientConfigKey (configForMode example_base modeFast) ->
      Dial (configForMode example_base modeNormal) (fun _ => Ok 1) = Dial (configForMode example_base modeFast) (fun _ => Ok 1)).
Proof.
  refine (key_determines_dial example_base _ _ (fun _ => Ok 1) _ _).
  - by exists (QUICTimeout example_base), true, (DisableQUIC example_base), (DisableTCPSession example_base), (AllowRelay example_base).
  - by eexists _, true, (DisableQUIC example_base), (DisableTCPSession example_base), (AllowRelay example_base).
Defined.
