(* ===== verification/TunConn.v ===== *)
(** * The TUN client: flows ([cmd/tun_client/main_windows.go])

    The goroutines that carry one flow each: [handleTCPFromTun] for a TCP connection of the network
    stack, [udpManager.runState] for a UDP flow, and [dnsQueryOverTCP] for a DNS query that goes
    over a TCP flow. They share the controller with its pool of session clients (the file TunPool),
    the flows opened on those clients, and the table of UDP flows of the [udpManager]. A goroutine is
    a job: a kind, a stage, and what it has to give back. A UDP flow can be closed by other
    goroutines, the janitor and [Close] of the manager, at any stage; the steps of [closeState] are
    steps of their own. *)

From S2P Require Import Prelude Ownership GoString ClientConfig Client Socks SocksPolicy SocksConn SocksUDP TunPool.

(** ** Data *)

Record udpOptions := mkUO { DNSResolverHost : string; DNSResolverPort : Z; DNSOverride : bool; IdleTimeout : Z }.

(** The fields of [udpFlowState] that are set when the flow is created, and [lastActive]. *)
Record natEntry := mkNat { nt_key : string; nt_dstPort : Z; targetHost : string; targetPort : Z; nt_lastActive : Z }.

Inductive jobKind := JTCP | JUDP (nt : natEntry) | JDNS.

(** Where the goroutine is: before the check of the QUIC block (UDP only); waiting for a permit;
    with one; about to look the pool up; dialling; opening the flow; running, with the first copy
    that ended; about to unregister the flow; about to release the client; answering DNS queries
    (UDP only); in [closeState] (UDP only); returned. *)
Inductive jstage :=
| TStart | TAdmit | TConfig | TLookup (cfg : ClientConfig) (mode : clientMode) (start : Z) | TDial (cfg : ClientConfig) (mode : clientMode) (start now : Z)
| TOpen (key : string) (client : Z) (t : Transport) (start : Z) | TRun (first : option (option goerr)) | TUnregister | TRelease (key : string)
| TFallback | TClose | TEnd.

(** What is left to do of the function that [closeOnce] runs. *)
Inductive closing := CNone | CUnregister (fid : Z) | CRelease (key : string) | CRemove | CDone.

(** [jb_key], [jb_client]: the client the job has to release ([st.clientKey]; empty when there is
    none); [jb_flow]: the flow it has to close; [jb_ref]: the entry in the flow table of the
    controller that it has to remove. *)
Record job := mkJob {
  jb_kind : jobKind; jb_local : bool; jb_stage : jstage; jb_close : closing;
  jb_key : string; jb_client : Z; jb_flow : option Z; jb_ref : option Z }.

Record udpManager := mkUM { um_flows : gmap string Z; quicBlockedUntil : Z; quicBlockedAt : Z }.

Record tworld := mkTW { tw_c : tunController; tw_flows : gset Z; tw_jobs : gmap Z job; tw_m : udpManager }.

Definition tun_start (cfg : ClientConfig) (mode : clientMode) (now : Z) : tworld :=
  mkTW (tun_newPolicyController cfg mode now) ∅ ∅ (mkUM ∅ 0 0).
Definition newUDPManager_opts (o : udpOptions) : udpOptions :=
  if IdleTimeout o <=? 0 then mkUO (DNSResolverHost o) (DNSResolverPort o) (DNSOverride o) (60 * Second) else o.

Definition goto (j : job) (st : jstage) : job := mkJob (jb_kind j) (jb_local j) st (jb_close j) (jb_key j) (jb_client j) (jb_flow j) (jb_ref j).
Definition put_job (w : tworld) (c : tunController) (fls : gset Z) (id : Z) (j : job) : tworld := mkTW c fls (<[id := j]> (tw_jobs w)) (tw_m w).
Definition set_m (w : tworld) (m : udpManager) : tworld := mkTW (tw_c w) (tw_flows w) (tw_jobs w) m.
Definition set_ctl (w : tworld) (c : tunController) : tworld := mkTW c (tw_flows w) (tw_jobs w) (tw_m w).

(** Return: the deferred close of the connection of a TCP flow; a UDP flow is closed by [closeState]. *)
Definition return_job (j : job) : job :=
  match jb_kind j with
  | JUDP _ => goto j TClose
  | _ => mkJob (jb_kind j) false TEnd (jb_close j) (jb_key j) (jb_client j) (jb_flow j) (jb_ref j)
  end.

(** ** The UDP manager *)

Definition isQUICBlocked (m : udpManager) (now : Z) : bool := now <? quicBlockedUntil m.
Definition udpQUICBackoff : Z := 30 * Second.
Definition noteQUICDialError (m : udpManager) (now now' : Z) (e : option goerr) : udpManager :=
  match e with
  | None => m
  | Some e =>
      let msg := ToLower (err_text e) in
      if negb (Contains msg "no application protocol") && negb (Contains msg "crypto_error 0x178") && negb (Contains msg "no recent network activity") then m
      else mkUM (um_flows m) (now + udpQUICBackoff) (if 5 * Second <? now' - quicBlockedAt m then now' else quicBlockedAt m)
  end.

Definition tcpipAddrToString (raw : list byte) : string := if zlen raw =? 0 then "" else ip_text raw.

(** The key of a flow in the table, [src:port>dst:port]. *)
Definition flow_key (srcIP : string) (srcPort : Z) (dstIP : string) (dstPort : Z) : string :=
  string_of_bytes (bytes_of_string srcIP ++ x3a :: FormatInt srcPort ++ x3e :: bytes_of_string dstIP ++ x3a :: FormatInt dstPort).

(** [Handle]: the boolean says that the connection of the network stack was kept. *)
Definition Handle (o : udpOptions) (w : tworld) (id now : Z) (remote : list byte) (srcPort : Z) (local : list byte) (dstPort : Z) : tworld * bool :=
  let srcIP := tcpipAddrToString remote in
  let dstIP := tcpipAddrToString local in
  if String.eqb srcIP "" || String.eqb dstIP "" || (srcPort <=? 0) || (dstPort <=? 0) then (w, false)
  else
    let key := flow_key srcIP srcPort dstIP dstPort in
    match um_flows (tw_m w) !! key with
    | Some _ => (w, false)
    | None =>
        let '(host, port) := if DNSOverride o && (dstPort =? 53) then (DNSResolverHost o, DNSResolverPort o) else (dstIP, dstPort) in
        let j := mkJob (JUDP (mkNat key dstPort host port now)) true TStart CNone "" 0 None None in
        let m := tw_m w in
        (mkTW (tw_c w) (tw_flows w) (<[id := j]> (tw_jobs w)) (mkUM (<[key := id]> (um_flows m)) (quicBlockedUntil m) (quicBlockedAt m)), true)
    end.

(** The start of [handleTCPFromTun] and of [dnsQueryOverTCP]. *)
Definition begin_tcp (w : tworld) (id : Z) (dstIP : string) (dstPort : Z) : tworld :=
  if String.eqb dstIP "" || (dstPort <=? 0) then w else put_job w (tw_c w) (tw_flows w) id (mkJob JTCP true TAdmit CNone "" 0 None None).
Definition begin_dns (w : tworld) (id : Z) (query : list byte) : tworld :=
  if (zlen query =? 0) || (65535 <? zlen query) then w else put_job w (tw_c w) (tw_flows w) id (mkJob JDNS true TAdmit CNone "" 0 None None).

(** The forwarders of [buildNetstack]: a packet that opens a flow, for which the network stack made
    an endpoint or did not. *)
Definition tcp_forwarder (w : tworld) (id : Z) (created : bool) (local : list byte) (localPort : Z) : tworld :=
  if created then begin_tcp w id (tcpipAddrToString local) localPort else w.
Definition udp_forwarder (o : udpOptions) (w : tworld) (id now : Z) (created : bool) (remote : list byte) (remotePort : Z) (local : list byte) (localPort : Z) : tworld :=
  if created then (Handle o w id now remote remotePort local localPort).1 else w.

(** ** The stages *)

(** After a failure a flow to port 53 answers DNS queries over TCP; every other one is closed. *)
Definition abandon (j : job) : job :=
  match jb_kind j with
  | JUDP nt => goto j (if nt_dstPort nt =? 53 then TFallback else TClose)
  | _ => return_job j
  end.

Definition job_start (w : tworld) (id now : Z) (j : job) : tworld :=
  put_job w (tw_c w) (tw_flows w) id (if isQUICBlocked (tw_m w) now then abandon j else goto j TAdmit).
Definition job_admit (w : tworld) (id now : Z) (expired : bool) (j : job) : tworld :=
  let '(c, ok) := tun_acquireFlowPermit (tw_c w) now in
  put_job w c (tw_flows w) id (if ok then goto j TConfig else if expired then return_job j else j).
Definition job_config (w : tworld) (id now : Z) (j : job) : tworld :=
  let '(cfg, mode) := match jb_kind j with JUDP _ => tun_dialConfigUDP (tw_c w) | _ => tun_dialConfig (tw_c w) end in
  put_job w (tw_c w) (tw_flows w) id (goto j (TLookup cfg mode now)).

(** The job has a client; a UDP flow stores it in its state. *)
Definition hold_client (j : job) (key : string) (client : Z) (st : jstage) : job :=
  mkJob (jb_kind j) (jb_local j) st (jb_close j) key client (jb_flow j) (jb_ref j).
Definition job_lookup (w : tworld) (id now : Z) (j : job) : tworld :=
  match jb_stage j with
  | TLookup cfg mode start =>
      let key := clientConfigKey cfg in
      match acquire_lookup (tw_c w) key now with
      | (c, Some (cl, t)) => put_job w c (tw_flows w) id (hold_client j key cl (TOpen key cl t start))
      | (c, None) => put_job w c (tw_flows w) id (goto j (TDial cfg mode start now))
      end
  | _ => w
  end.
(** The result of [sessionclient.Dial]. *)
Definition job_dialed (w : tworld) (id now now' : Z) (res : (Z * Transport) + DialError) (j : job) : tworld :=
  match jb_stage j with
  | TDial cfg mode start now0 =>
      match res with
      | inl (cl, t) =>
          let key := clientConfigKey cfg in
          let '(c, (cl, t, dialed)) := acquire_dialed (tw_c w) key now0 cl t in
          let c := if dialed then tun_onDialSuccess c now mode cfg t else c in
          put_job w c (tw_flows w) id (hold_client j key cl (TOpen key cl t start))
      | inr de =>
          let c := tun_onDialError (tun_releaseFlowPermit (tw_c w)) now cfg (Some de) in
          let w := match jb_kind j with
                   | JUDP _ => set_m w (noteQUICDialError (tw_m w) now now' (Some (EExt (DialError_Error de))))
                   | _ => w
                   end in
          put_job w c (tw_flows w) id (abandon j)
      end
  | _ => w
  end.
(** The result of [OpenTCPFlow] or [OpenUDPFlow]: the flow, or an error. *)
Definition job_opened (w : tworld) (id now now' : Z) (res : Z + goerr) (j : job) : tworld :=
  match jb_stage j with
  | TOpen key cl t start =>
      match res with
      | inl f =>
          let '(c, fid) := tun_registerFlow (tw_c w) now cl key t (now - start) in
          put_job w c ({[f]} ∪ tw_flows w) id (mkJob (jb_kind j) (jb_local j) (TRun None) (jb_close j) (jb_key j) (jb_client j) (Some f) (Some fid))
      | inr e =>
          let c := markClientBad (tun_onTransportError (tun_releaseFlowPermit (tw_c w)) now) key (Some e) in
          let w := match jb_kind j with JUDP _ => set_m w (noteQUICDialError (tw_m w) now now' (Some e)) | _ => w end in
          put_job w c (tw_flows w) id (goto j (TRelease key))
      end
  | _ => w
  end.

(** What the job still held of its flow and its client is given back. *)
Definition no_flow (j : job) : job := mkJob (jb_kind j) (jb_local j) (jb_stage j) (jb_close j) (jb_key j) (jb_client j) None (jb_ref j).
Definition no_ref (j : job) : job := mkJob (jb_kind j) (jb_local j) (jb_stage j) (jb_close j) (jb_key j) (jb_client j) (jb_flow j) None.
Definition no_key (j : job) : job := mkJob (jb_kind j) (jb_local j) (jb_stage j) (jb_close j) "" 0 (jb_flow j) (jb_ref j).
Definition close_local (j : job) : job := mkJob (jb_kind j) false (jb_stage j) (jb_close j) (jb_key j) (jb_client j) (jb_flow j) (jb_ref j).
Definition set_close (j : job) (c : closing) : job := mkJob (jb_kind j) (jb_local j) (jb_stage j) c (jb_key j) (jb_client j) (jb_flow j) (jb_ref j).
Definition drop_flow (w : tworld) (j : job) : gset Z := match jb_flow j with Some f => tw_flows w ∖ {[f]} | None => tw_flows w end.

(** [proxyBidirectional]: the first copy that ends closes both connections; after the second the
    errors are recorded. *)
Definition job_first (w : tworld) (id : Z) (e : option goerr) (j : job) : tworld :=
  match jb_kind j, jb_stage j with
  | JTCP, TRun None => put_job w (tw_c w) (drop_flow w j) id (goto (close_local (no_flow j)) (TRun (Some e)))
  | _, _ => w
  end.
Definition pipe_error (c : tunController) (now : Z) (key : string) (e : option goerr) : tunController :=
  if tun_isExpectedPipeErr e then c else markClientBad (tun_onTransportError c now) key e.
Definition job_second (w : tworld) (id now : Z) (e : option goerr) (j : job) : tworld :=
  match jb_kind j, jb_stage j with
  | JTCP, TRun (Some first) =>
      put_job w (pipe_error (pipe_error (tw_c w) now (jb_key j) first) now (jb_key j) e) (tw_flows w) id (goto j TUnregister)
  | _, _ => w
  end.
(** The end of the exchange of [dnsQueryOverTCP]: [err] is the error of a write or a read, and there
    is none when it succeeded or the length of the answer was zero. *)
Definition job_exchanged (w : tworld) (id now : Z) (err : option goerr) (j : job) : tworld :=
  match jb_kind j, jb_stage j with
  | JDNS, TRun None =>
      let c := match err with Some e => markClientBad (tun_onTransportError (tw_c w) now) (jb_key j) (Some e) | None => tw_c w end in
      put_job w c (drop_flow w j) id (goto (no_flow j) TUnregister)
  | _, _ => w
  end.
(** The first pump of a UDP flow that ends. *)
Definition job_pumped (timeout : goerr -> bool) (w : tworld) (id now : Z) (e : option goerr) (j : job) : tworld :=
  match jb_kind j, jb_stage j with
  | JUDP _, TRun None =>
      let c := if isExpectedUDPErr timeout e then tw_c w else markClientBad (tun_onTransportError (tw_c w) now) (jb_key j) e in
      put_job w c (tw_flows w) id (goto j TClose)
  | _, _ => w
  end.

(** The deferred [unregisterFlow] of a TCP flow and of a DNS query, its two critical sections. *)
Definition job_unregister (w : tworld) (id : Z) (j : job) : tworld :=
  match jb_stage j, jb_ref j with
  | TUnregister, Some fid =>
      match unregister_locked (tw_c w) fid with
      | (c, Some key) => put_job w c (tw_flows w) id (goto (no_ref j) (TRelease key))
      | (c, None) => put_job w c (tw_flows w) id (return_job (no_ref j))
      end
  | _, _ => w
  end.
Definition job_release (w : tworld) (id : Z) (j : job) : tworld :=
  match jb_stage j with
  | TRelease key => put_job w (releaseClient (tw_c w) key) (tw_flows w) id (abandon (no_key j))
  | _ => w
  end.
(** The end of [runDNSFallback], which calls [closeState]. *)
Definition job_fallback_end (w : tworld) (id : Z) (j : job) : tworld :=
  match jb_stage j with
  | TFallback => put_job w (tw_c w) (tw_flows w) id (goto j TClose)
  | _ => w
  end.

(** ** [closeState] *)

Definition close_begin (w : tworld) (id : Z) (j : job) : tworld :=
  match jb_kind j, jb_close j with
  | JUDP _, CNone =>
      let next := match jb_ref j with
                  | Some fid => CUnregister fid
                  | None => if String.eqb (jb_key j) "" then CRemove else CRelease (jb_key j)
                  end in
      put_job w (tw_c w) (drop_flow w j) id (set_close (close_local (no_flow j)) next)
  | _, _ => w
  end.
Definition close_unregister (w : tworld) (id : Z) (j : job) : tworld :=
  match jb_close j with
  | CUnregister fid =>
      match unregister_locked (tw_c w) fid with
      | (c, Some key) => put_job w c (tw_flows w) id (set_close (no_ref j) (CRelease key))
      | (c, None) => put_job w c (tw_flows w) id (set_close (no_ref j) CRemove)
      end
  | _ => w
  end.
Definition close_release (w : tworld) (id : Z) (j : job) : tworld :=
  match jb_close j with
  | CRelease key => put_job w (releaseClient (tw_c w) key) (tw_flows w) id (set_close (no_key j) CRemove)
  | _ => w
  end.
Definition close_remove (w : tworld) (id : Z) (j : job) : tworld :=
  match jb_kind j, jb_close j with
  | JUDP nt, CRemove =>
      let m := tw_m w in
      put_job (set_m w (mkUM (delete (nt_key nt) (um_flows m)) (quicBlockedUntil m) (quicBlockedAt m))) (tw_c w) (tw_flows w) id (set_close j CDone)
  | _, _ => w
  end.
Definition on_job (f : tworld -> Z -> job -> tworld) (w : tworld) (id : Z) : tworld :=
  match tw_jobs w !! id with Some j => f w id j | None => w end.
(** The whole function: [closeOnce] lets it run once. *)
Definition closeState (w : tworld) (id : Z) : tworld :=
  on_job close_remove (on_job close_release (on_job close_unregister (on_job close_begin w id) id) id) id.

Definition last_active (w : tworld) (id : Z) : option Z :=
  match jb_kind <$> tw_jobs w !! id with Some (JUDP nt) => Some (nt_lastActive nt) | _ => None end.
(** The flows that [expireIdle] collects under the lock, and then closes. *)
Definition stale (o : udpOptions) (w : tworld) (now : Z) : list Z :=
  List.filter (fun id => match last_active w id with Some t => t <? now - IdleTimeout o | None => false end) (map_to_list (um_flows (tw_m w))).*2.
Definition expireIdle (o : udpOptions) (w : tworld) (now : Z) : tworld := foldl closeState w (stale o w now).
Definition udpManager_Close (w : tworld) : tworld := foldl closeState w (map_to_list (um_flows (tw_m w))).*2.

(** ** The goroutines

    The body of each, driven by what its calls return. *)
Inductive tun_event :=
| VStart (now : Z) | VAdmit (now : Z) (expired : bool) | VConfig (now : Z) | VLookup (now : Z) | VDialed (now now' : Z) (res : (Z * Transport) + DialError)
| VOpened (now now' : Z) (res : Z + goerr) | VFirst (e : option goerr) | VSecond (now : Z) (e : option goerr) | VExchanged (now : Z) (err : option goerr)
| VPumped (now : Z) (e : option goerr) | VUnregister | VRelease | VFallbackEnd.
Definition tun_body (timeout : goerr -> bool) (w : tworld) (id : Z) (j : job) (ev : tun_event) : tworld :=
  match jb_stage j, ev with
  | TStart, VStart now => job_start w id now j
  | TAdmit, VAdmit now expired => job_admit w id now expired j
  | TConfig, VConfig now => job_config w id now j
  | TLookup _ _ _, VLookup now => job_lookup w id now j
  | TDial _ _ _ _, VDialed now now' res => job_dialed w id now now' res j
  | TOpen _ _ _ _, VOpened now now' res => job_opened w id now now' res j
  | TRun None, VFirst e => job_first w id e j
  | TRun (Some _), VSecond now e => job_second w id now e j
  | TRun None, VExchanged now err => job_exchanged w id now err j
  | TRun None, VPumped now e => job_pumped timeout w id now e j
  | TUnregister, VUnregister => job_unregister w id j
  | TRelease _, VRelease => job_release w id j
  | TFallback, VFallbackEnd => job_fallback_end w id j
  | _, _ => w
  end.
Definition tun_drive (timeout : goerr -> bool) (id : Z) (w : tworld) (ev : tun_event) : tworld := on_job (fun w id j => tun_body timeout w id j ev) w id.
Definition handleTCPFromTun (timeout : goerr -> bool) (w : tworld) (id : Z) (dstIP : string) (dstPort : Z) (evs : list tun_event) : tworld :=
  foldl (tun_drive timeout id) (begin_tcp w id dstIP dstPort) evs.
Definition dnsQueryOverTCP_job (timeout : goerr -> bool) (w : tworld) (id : Z) (query : list byte) (evs : list tun_event) : tworld :=
  foldl (tun_drive timeout id) (begin_dns w id query) evs.
Definition runState (timeout : goerr -> bool) (w : tworld) (id : Z) (evs : list tun_event) : tworld := foldl (tun_drive timeout id) w evs.

(** [st.lastActive.Store]. *)
Definition touch (w : tworld) (id now : Z) : tworld :=
  on_job (fun w id j => match jb_kind j with
                        | JUDP nt => put_job w (tw_c w) (tw_flows w) id
                            (mkJob (JUDP (mkNat (nt_key nt) (nt_dstPort nt) (targetHost nt) (targetPort nt) now)) (jb_local j) (jb_stage j) (jb_close j) (jb_key j) (jb_client j) (jb_flow j) (jb_ref j))
                        | _ => w
                        end) w id.

(** ** Steps

    With [calm] the runs in which three things do not happen: a broken client of the pool is
    replaced by a newly dialled one; a UDP flow is closed while its goroutine is still setting it
    up; the controller is closed while a job uses a client. Without it, all runs. *)

Definition setting_up (j : job) : bool :=
  match jb_stage j with TStart | TAdmit | TConfig | TLookup _ _ _ | TDial _ _ _ _ | TOpen _ _ _ _ | TRelease _ => true | _ => false end.

Definition replaces (w : tworld) (j : job) : Prop :=
  match jb_stage j with
  | TDial cfg _ _ _ => exists mc, tc_clients (tw_c w) !! clientConfigKey cfg = Some mc /\ broken mc = true
  | _ => False
  end.

Definition is_inl {A B} (x : A + B) : bool := match x with inl _ => true | inr _ => false end.

Section Steps.
  Context (timeout : goerr -> bool) (o : udpOptions).

Inductive tun_step (calm : bool) : tworld -> tworld -> Prop :=
| tst_handle w id now remote srcPort local dstPort :
    tw_jobs w !! id = None -> tun_step calm w (Handle o w id now remote srcPort local dstPort).1
| tst_tcp w id dstIP dstPort : tw_jobs w !! id = None -> tun_step calm w (begin_tcp w id dstIP dstPort)
| tst_dns w id query : tw_jobs w !! id = None -> tun_step calm w (begin_dns w id query)
| tst_start w id j now : tw_jobs w !! id = Some j -> jb_stage j = TStart -> tun_step calm w (job_start w id now j)
| tst_admit w id j now expired : tw_jobs w !! id = Some j -> jb_stage j = TAdmit -> tun_step calm w (job_admit w id now expired j)
| tst_config w id j now : tw_jobs w !! id = Some j -> jb_stage j = TConfig -> tun_step calm w (job_config w id now j)
| tst_lookup w id j now : tw_jobs w !! id = Some j -> tun_step calm w (job_lookup w id now j)
| tst_dialed w id j now now' res :
    tw_jobs w !! id = Some j ->
    (forall cl t, res = inl (cl, t) -> cl ∉ tc_open (tw_c w) /\ (forall cfg mode start n0, jb_stage j = TDial cfg mode start n0 -> enabled cfg t = true)) ->
    (calm = true -> is_inl res = true -> ~ replaces w j) -> tun_step calm w (job_dialed w id now now' res j)
| tst_opened w id j now now' res :
    tw_jobs w !! id = Some j -> (forall f, res = inl f -> f ∉ tw_flows w) -> nextFlowID (tc_p (tw_c w)) + 1 < 2 ^ 64 ->
    tun_step calm w (job_opened w id now now' res j)
| tst_first w id j e : tw_jobs w !! id = Some j -> tun_step calm w (job_first w id e j)
| tst_second w id j now e : tw_jobs w !! id = Some j -> tun_step calm w (job_second w id now e j)
| tst_exchanged w id j now err : tw_jobs w !! id = Some j -> tun_step calm w (job_exchanged w id now err j)
| tst_pumped w id j now e : tw_jobs w !! id = Some j -> tun_step calm w (job_pumped timeout w id now e j)
| tst_unregister w id j : tw_jobs w !! id = Some j -> tun_step calm w (job_unregister w id j)
| tst_release w id j : tw_jobs w !! id = Some j -> tun_step calm w (job_release w id j)
| tst_fallback w id j : tw_jobs w !! id = Some j -> tun_step calm w (job_fallback_end w id j)
| tst_close_begin w id j : tw_jobs w !! id = Some j -> (calm = true -> setting_up j = false) -> tun_step calm w (close_begin w id j)
| tst_close_unregister w id j : tw_jobs w !! id = Some j -> tun_step calm w (close_unregister w id j)
| tst_close_release w id j : tw_jobs w !! id = Some j -> tun_step calm w (close_release w id j)
| tst_close_remove w id j : tw_jobs w !! id = Some j -> tun_step calm w (close_remove w id j)
| tst_touch w id now : tun_step calm w (touch w id now)
| tst_tick w now now1 now2 o1 o2 probe : tun_step calm w (set_ctl w (tun_loop_tick (tw_c w) now now1 now2 o1 o2 probe).1)
| tst_write w fid up n : tun_step calm w (set_ctl w (tun_flowWriter_Write (tw_c w) fid up n))
| tst_shutdown w :
    (calm = true -> forall id j, tw_jobs w !! id = Some j -> jb_key j = ""%string) -> tun_step calm w (set_ctl w (tun_Close (tw_c w))).
End Steps.

(** ** What the methods of the controller leave alone *)

(** The base configuration, the flow table, the permits and the flow counter of the policy. *)
Definition same_books (p q : policyController) : Prop := same_resources p q /\ baseCfg p = baseCfg q.
#[global] Instance same_books_preorder : PreOrder same_books.
Proof. split; [by intros p|]. intros p q r [H1 E1] [H2 E2]. split; etransitivity; eauto. Qed.

Lemma base_switch_to now r : baseCfg (switch_to now r) = baseCfg r.1.
Proof. destruct r as [p [m|]]; [|done]. cbn. unfold switchMode. by repeat case_on. Qed.
Lemma books_error p now : same_books (recordTransportError p now) p.
Proof. split; [apply same_res_error|]. unfold recordTransportError. by rewrite base_switch_to. Qed.
Lemma books_quic p now : same_books (recordQUICFailure p now) p.
Proof. split; [apply same_res_quic|]. unfold recordQUICFailure. by rewrite base_switch_to. Qed.
Lemma books_success p now mode cfg t : same_books (onDialSuccess p now mode cfg t) p.
Proof. unfold onDialSuccess. repeat case_on; try done. apply books_quic. Qed.
Lemma books_failure p now cfg de : same_books (onDialError p now cfg de) p.
Proof. unfold onDialError. cbn zeta. destruct (_ && _); [|apply books_error]. etransitivity; [apply books_error|apply books_quic]. Qed.
Lemma books_rtt p at_ ms : same_books (appendRTTSampleLocked p at_ ms) p.
Proof. split; [apply same_core_resources, same_core_rtt|]. unfold appendRTTSampleLocked. by case_on. Qed.
Lemma books_write p id up n : same_books (flowWriter_Write p id up n) p.
Proof. split; [apply same_core_resources, same_core_write|]. unfold flowWriter_Write. case_on; [by destruct up|done]. Qed.
Lemma base_fast p now order : baseCfg (wants_fast p now order).1 = baseCfg p.
Proof.
  revert p. induction order as [|id order IH]; intros p; [done|]. cbn [wants_fast]. destruct (flows p !! id) as [f|]; [|apply IH].
  case_on; [done|]. case_on; [done|]. destruct (avgDownrateMbps f now). cbn zeta. case_on; [done|]. by rewrite IH.
Qed.
Lemma books_evaluate p now now' order : same_books (evaluateAutoPolicy p now now' order) p.
Proof.
  unfold evaluateAutoPolicy. pose proof (same_core_read p now) as H. assert (Hb : baseCfg (evaluate_read p now).1 = baseCfg p) by (unfold evaluate_read; by case_on).
  destruct (evaluate_read p now) as [q [v|]]; cbn in *; [|split; [by apply same_core_resources|done]]. transitivity q; [|split; [by apply same_core_resources|done]].
  split; [etransitivity; [apply same_res_switch_to|apply same_core_resources, same_core_decide]|]. rewrite base_switch_to. unfold evaluate_decide.
  repeat (case_on; [done|]). pose proof (base_fast q now order). by destruct (wants_fast q now order).
Qed.
Lemma books_stats p now : same_books (printStats p now).1 p.
Proof. unfold printStats. by case_on. Qed.

(** A controller with the same books and the same pool. *)
Definition same_but_policy (c c' : tunController) : Prop :=
  same_books (tc_p c) (tc_p c') /\ tc_clients c = tc_clients c' /\ tc_keys c = tc_keys c' /\ tc_open c = tc_open c'.
#[global] Instance same_but_policy_preorder : PreOrder same_but_policy.
Proof. split; [by intros c|]. intros c d e (? & ? & ? & ?) (? & ? & ? & ?). unfold same_but_policy. by split_and!; etransitivity. Qed.

Lemma on_policy_same c p : same_books p (tc_p c) -> same_but_policy (on_policy c p) c.
Proof. by split. Qed.
Lemma tick_same c now n1 n2 o1 o2 probe : same_but_policy (tun_loop_tick c now n1 n2 o1 o2 probe).1 c.
Proof.
  unfold tun_loop_tick, tun_printStats. set (d := tun_evaluateAutoPolicy _ _ _ _). pose proof (books_stats (tc_p d) now) as Hs. destruct (printStats (tc_p d) now). cbn in *.
  transitivity d; [by apply on_policy_same|]. unfold d. etransitivity; [apply on_policy_same, books_evaluate|]. unfold tun_probeRTT, tun_pickProbeClient.
  destruct (pickProbeClient (tc_p c) o1) as [[cl t]|]; [|done]. destruct (probe cl); [|case_on|]; try done; apply on_policy_same; [apply books_rtt|apply books_error].
Qed.
Lemma transport_error_same c now : same_but_policy (tun_onTransportError c now) c.
Proof. apply on_policy_same, books_error. Qed.

(** The pool with the same clients under the same keys, or fewer. *)
Definition sub_pool (c c' : tunController) : Prop :=
  forall key mc, tc_clients c !! key = Some mc -> exists mc', tc_clients c' !! key = Some mc' /\ mc_client mc = mc_client mc' /\ mc_transport mc = mc_transport mc'.
#[global] Instance sub_pool_preorder : PreOrder sub_pool.
Proof.
  split; [intros c key mc H; eauto|]. intros a b c H1 H2 key mc Hk. destruct (H1 _ _ Hk) as (m1 & K1 & ? & ?). destruct (H2 _ _ K1) as (m2 & K2 & ? & ?).
  exists m2. split_and!; congruence.
Qed.
Lemma sub_pool_update c key mc mc' open :
  tc_clients c !! key = Some mc -> mc_client mc' = mc_client mc -> mc_transport mc' = mc_transport mc -> sub_pool (with_clients c (<[key := mc']> (tc_clients c)) open) c.
Proof. intros Hk H1 H2 k m Hm. cbn in Hm. apply lookup_insert_Some in Hm as [[<- <-]|[_ Hm]]; eauto. Qed.
Lemma sub_pool_remove c key mc : sub_pool (remove_client c key mc) c.
Proof. intros k m Hm. cbn in Hm. apply lookup_delete_Some in Hm as [_ Hm]. eauto. Qed.
Lemma sub_pool_release c key : sub_pool (releaseClient c key) c.
Proof.
  unfold releaseClient. case_on; [done|]. destruct (tc_clients c !! key) as [mc|] eqn:Ek; [|done]. cbn zeta. destruct (_ && broken mc); [apply sub_pool_remove|by eapply sub_pool_update].
Qed.
Lemma sub_pool_bad c key e : sub_pool (markClientBad c key e) c.
Proof.
  unfold markClientBad. case_on; [done|]. destruct (tc_clients c !! key) as [mc|] eqn:Ek; [|done]. destruct (broken mc); [done|]. case_on; [apply sub_pool_remove|by eapply sub_pool_update].
Qed.
Lemma sub_pool_lookup c key now : sub_pool (acquire_lookup c key now).1 c.
Proof. unfold acquire_lookup. destruct (usable c key) as [mc|] eqn:E; [|done]. apply usable_Some in E as [Ek _]. by eapply sub_pool_update. Qed.
Lemma sub_pool_same c c' : tc_clients c = tc_clients c' -> sub_pool c c'.
Proof. intros H key mc. rewrite H. eauto. Qed.
Lemma sub_pool_policy c c' : same_but_policy c c' -> sub_pool c c'.
Proof. intros (_ & H & _). by apply sub_pool_same. Qed.

(** The pool operations leave the policy and the keys of the flows alone. *)
Definition only_pool (c c' : tunController) : Prop := tc_p c = tc_p c' /\ tc_keys c = tc_keys c'.
Lemma only_pool_release c key : only_pool (releaseClient c key) c.
Proof. unfold releaseClient. repeat case_on; done. Qed.
Lemma only_pool_bad c key e : only_pool (markClientBad c key e) c.
Proof. unfold markClientBad. repeat case_on; done. Qed.
Lemma only_pool_lookup c key now : only_pool (acquire_lookup c key now).1 c.
Proof. unfold acquire_lookup. by case_on. Qed.
Lemma only_pool_dialed c key now client t : only_pool (acquire_dialed c key now client t).1 c.
Proof. unfold acquire_dialed. by case_on. Qed.

(** ** The books, in every run *)

Definition holds_permit (j : job) : bool :=
  match jb_stage j with TConfig | TLookup _ _ _ | TDial _ _ _ _ | TOpen _ _ _ _ => true | _ => false end.
Definition is_udp (j : job) : bool := match jb_kind j with JUDP _ => true | _ => false end.

(** The configuration a job dials with comes from the base configuration, and that of a UDP flow
    has QUIC as its only transport; so has the client it is given. *)
Definition job_typed (base : ClientConfig) (j : job) : Prop :=
  match jb_stage j with
  | TLookup cfg _ _ | TDial cfg _ _ _ => derived base cfg /\ (is_udp j = true -> forall t, enabled cfg t = true -> t = TransportQUIC)
  | TOpen _ _ t _ => is_udp j = true -> t = TransportQUIC
  | _ => True
  end.

(** The pooled clients have a transport that the configurations of their key enable. *)
Definition pool_fits (base : ClientConfig) (c : tunController) : Prop :=
  forall key mc cfg, tc_clients c !! key = Some mc -> derived base cfg -> clientConfigKey cfg = key -> enabled cfg (mc_transport mc) = true.

Definition job_shape (j : job) : Prop :=
  (setting_up j = true -> jb_flow j = None /\ jb_ref j = None)
  /\ (is_udp j = false -> jb_close j = CNone)
  /\ (forall fid, jb_close j = CUnregister fid -> jb_ref j = Some fid /\ jb_flow j = None)
  /\ match jb_stage j with
     | TUnregister => is_udp j = false /\ jb_flow j = None /\ is_Some (jb_ref j)
     | TStart | TFallback | TClose => is_udp j = true
     | TEnd => is_udp j = false /\ jb_flow j = None /\ jb_ref j = None /\ jb_local j = false
     | TRun (Some _) => is_udp j = false /\ jb_flow j = None /\ is_Some (jb_ref j)
     | TRun None => is_Some (jb_ref j) \/ is_udp j = true
     | _ => True
     end.

Record books_inv (base : ClientConfig) (w : tworld) : Prop := mkBooks {
  bi_permits : pendingPermits (tc_p (tw_c w)) = how_many holds_permit (tw_jobs w);
  bi_base : baseCfg (tc_p (tw_c w)) = base;
  bi_fits : pool_fits base (tw_c w);
  bi_flows : owned jb_flow (tw_jobs w) (tw_flows w);
  bi_refs : owned jb_ref (tw_jobs w) (dom (flows (tc_p (tw_c w))));
  bi_keys : dom (tc_keys (tw_c w)) = dom (flows (tc_p (tw_c w)));
  bi_next : 0 <= nextFlowID (tc_p (tw_c w)) < 2 ^ 64 /\ forall f, f ∈ dom (flows (tc_p (tw_c w))) -> f <= nextFlowID (tc_p (tw_c w));
  bi_jobs : forall id j, tw_jobs w !! id = Some j -> job_typed base j /\ job_shape j }.

Lemma fits_sub base c c' : sub_pool c c' -> pool_fits base c' -> pool_fits base c.
Proof. intros Hs Hf key mc cfg Hk Hd Hc. destruct (Hs _ _ Hk) as (mc' & Hk' & _ & ->). eauto. Qed.

Lemma derived_enabled base cfg cfg' t : derived base cfg -> derived base cfg' -> clientConfigKey cfg = clientConfigKey cfg' -> enabled cfg t = enabled cfg' t.
Proof. intros (? & ? & ? & ? & ? & ->) (? & ? & ? & ? & ? & ->) (-> & -> & -> & ->)%key_derived. by destruct t. Qed.

Lemma fits_dialed base c cfg now client t :
  pool_fits base c -> derived base cfg -> enabled cfg t = true -> pool_fits base (acquire_dialed c (clientConfigKey cfg) now client t).1.
Proof.
  intros Hf Hd He. unfold acquire_dialed. destruct (usable c (clientConfigKey cfg)) as [mc|] eqn:E.
  - apply usable_Some in E as [Ek _]. eapply fits_sub; [by eapply sub_pool_update|done].
  - intros key mc cfg' Hk Hd' Hc. cbn in Hk. apply lookup_insert_Some in Hk as [[<- <-]|[_ Hk]]; [|eauto]. cbn. by rewrite (derived_enabled base cfg' cfg).
Qed.

(** One job changes. *)
Lemma books_put base w id j j' c fls m :
  books_inv base w -> tw_jobs w !! id = Some j ->
  pendingPermits (tc_p c) = pendingPermits (tc_p (tw_c w)) + b2z (holds_permit j') - b2z (holds_permit j) ->
  baseCfg (tc_p c) = baseCfg (tc_p (tw_c w)) -> pool_fits base c ->
  owned jb_flow (<[id := j']> (tw_jobs w)) fls -> owned jb_ref (<[id := j']> (tw_jobs w)) (dom (flows (tc_p c))) ->
  dom (tc_keys c) = dom (flows (tc_p c)) ->
  0 <= nextFlowID (tc_p c) < 2 ^ 64 /\ (forall f, f ∈ dom (flows (tc_p c)) -> f <= nextFlowID (tc_p c)) ->
  job_typed base j' /\ job_shape j' -> books_inv base (mkTW c fls (<[id := j']> (tw_jobs w)) m).
Proof.
  intros [H1 H2 H3 H4 H5 H6 H7 H8] Hj Hp Hb Hf Hfl Hr Hk Hn Hok. split; cbn [tw_c tw_flows tw_jobs tw_m]; try done.
  - rewrite (how_many_update _ _ _ _ _ Hj). unfold b2z in Hp. lia.
  - congruence.
  - intros i k Hi. apply lookup_insert_Some in Hi as [[<- <-]|[_ Hi]]; eauto.
Qed.

(** The flows, the registrations and the books stay as they are, the pool loses at most clients. *)
Lemma books_move base w id j j' c m :
  books_inv base w -> tw_jobs w !! id = Some j ->
  same_books (tc_p c) (tc_p (tw_c w)) -> sub_pool c (tw_c w) -> tc_keys c = tc_keys (tw_c w) ->
  holds_permit j' = holds_permit j -> jb_flow j' = jb_flow j -> jb_ref j' = jb_ref j -> job_typed base j' /\ job_shape j' ->
  books_inv base (mkTW c (tw_flows w) (<[id := j']> (tw_jobs w)) m).
Proof.
  intros Hi Hj [(D & Pn & N) B] Hs Hk Hh Hf Hr Hok. pose proof Hi as [H1 H2 H3 H4 H5 H6 H7 H8].
  eapply books_put; eauto using owned_keep, fits_sub; rewrite ?D, ?N, ?Hk, ?Hh; eauto using owned_keep. lia.
Qed.

Lemma books_ctl base w c : books_inv base w -> same_but_policy c (tw_c w) -> books_inv base (set_ctl w c).
Proof.
  intros [H1 H2 H3 H4 H5 H6 H7 H8] Hs. pose proof (sub_pool_policy _ _ Hs) as Hsub. destruct Hs as ([(D & Pn & N) B] & C & K & O).
  split; cbn; rewrite ?D, ?Pn, ?N, ?B, ?K; eauto using fits_sub.
Qed.

(** A permit that is given back, and the failure that is recorded. *)
Lemma books_fail base w id j j' c m :
  books_inv base w -> tw_jobs w !! id = Some j -> holds_permit j = true -> holds_permit j' = false ->
  same_books (tc_p c) (releaseFlowPermit (tc_p (tw_c w))) -> sub_pool c (tw_c w) -> tc_keys c = tc_keys (tw_c w) ->
  jb_flow j' = jb_flow j -> jb_ref j' = jb_ref j -> job_typed base j' /\ job_shape j' ->
  books_inv base (mkTW c (tw_flows w) (<[id := j']> (tw_jobs w)) m).
Proof.
  intros Hi Hj Hh Hh' [(D & Pn & N) B] Hs Hk Hf Hr Hok. pose proof Hi as [H1 H2 H3 H4 H5 H6 H7 H8]. pose proof (how_many_pos _ _ _ _ Hj Hh) as Hpos.
  eapply books_put; eauto using owned_keep, fits_sub; rewrite ?D, ?N, ?Hk, ?Hh, ?Hh'; eauto using owned_keep. rewrite Pn, release_spec by lia. cbn. lia.
Qed.

(** The jobs that the operations make have the right shape. *)
Lemma abandon_ok base j :
  job_shape j -> jb_flow j = None -> jb_ref j = None ->
  (job_typed base (abandon j) /\ job_shape (abandon j)) /\ holds_permit (abandon j) = false /\ jb_flow (abandon j) = jb_flow j /\ jb_ref (abandon j) = jb_ref j.
Proof.
  intros (_ & S2 & S3 & _) Hf Hr. unfold abandon, return_job, goto, job_shape, job_typed, holds_permit, setting_up in *.
  destruct j as [[|nt|] loc st cl k c f r]; cbn in *; subst; cbn; [| destruct (nt_dstPort nt =? 53) |]; split_and!; try done.
Qed.
Lemma return_ok base j :
  job_shape j -> jb_flow j = None -> jb_ref j = None ->
  (job_typed base (return_job j) /\ job_shape (return_job j)) /\ holds_permit (return_job j) = false /\ jb_flow (return_job j) = jb_flow j /\ jb_ref (return_job j) = jb_ref j.
Proof.
  intros (_ & S2 & S3 & _) Hf Hr. unfold return_job, goto, job_shape, job_typed, holds_permit, setting_up in *.
  destruct j as [[|nt|] loc st cl k c f r]; cbn in *; subst; cbn; split_and!; try done.
Qed.
(** To a stage that only asks for nothing to be open. *)
Lemma goto_setup j k c st :
  job_shape j -> jb_flow j = None -> jb_ref j = None ->
  match st with TAdmit | TConfig | TLookup _ _ _ | TDial _ _ _ _ | TOpen _ _ _ _ | TRelease _ => True | _ => False end -> job_shape (hold_client j k c st).
Proof.
  intros (_ & S2 & S3 & _) Hf Hr Hst. unfold hold_client, goto, job_shape, is_udp in *. cbn. rewrite Hf, Hr in *.
  split_and!; try done. by destruct st.
Qed.
Lemma goto_hold j st : goto j st = hold_client j (jb_key j) (jb_client j) st.
Proof. done. Qed.

Lemma books_start base w id now j :
  books_inv base w -> tw_jobs w !! id = Some j -> jb_stage j = TStart -> books_inv base (job_start w id now j).
Proof.
  intros Hi Hj Hs. destruct (bi_jobs _ _ Hi _ _ Hj) as [_ Hsh]. destruct Hsh as (S1 & Hsh'). destruct S1 as [Hf Hr]; [unfold setting_up; by rewrite Hs|].
  assert (Hsh : job_shape j) by (split; auto). unfold job_start, put_job. assert (Hh : holds_permit j = false) by (unfold holds_permit; by rewrite Hs). case_on.
  - destruct (abandon_ok base j Hsh Hf Hr) as (K1 & K2 & K3 & K4). eapply books_move; eauto; first [reflexivity | congruence].
  - eapply books_move; try done. split; [done|]. rewrite goto_hold. by apply goto_setup.
Qed.
Lemma books_admit base w id now expired j :
  books_inv base w -> tw_jobs w !! id = Some j -> jb_stage j = TAdmit -> books_inv base (job_admit w id now expired j).
Proof.
  intros Hi Hj Hs. destruct (bi_jobs _ _ Hi _ _ Hj) as [Hty Hsh]. pose proof Hsh as [S1 _]. destruct S1 as [Hf Hr]; [unfold setting_up; by rewrite Hs|].
  assert (Hh : holds_permit j = false) by (unfold holds_permit; by rewrite Hs). unfold job_admit, tun_acquireFlowPermit, put_job.
  destruct (acquire_spec (tc_p (tw_c w)) now) as (D & N & Pn). assert (B : baseCfg (acquireFlowPermit (tc_p (tw_c w)) now).1 = baseCfg (tc_p (tw_c w))).
  { unfold acquireFlowPermit. case_on; [done|]. by destruct (_ && _). }
  destruct (acquireFlowPermit (tc_p (tw_c w)) now) as [p ok]. cbn [fst snd] in *. pose proof Hi as [H1 H2 H3 H4 H5 H6 H7 H8].
  assert (Hgo : forall j', holds_permit j' = ok -> jb_flow j' = jb_flow j -> jb_ref j' = jb_ref j -> job_typed base j' /\ job_shape j' ->
    books_inv base (mkTW (on_policy (tw_c w) p) (tw_flows w) (<[id := j']> (tw_jobs w)) (tw_m w))).
  { intros j' E1 E2 E3 E4. eapply books_put; eauto using owned_keep; cbn [on_policy tc_p tc_keys]; rewrite ?D, ?N, ?E1, ?Hh; eauto using owned_keep. cbn. lia. }
  destruct ok; [|destruct expired].
  - apply Hgo; try done. split; [done|]. rewrite goto_hold. by apply goto_setup.
  - destruct (return_ok base j Hsh Hf Hr) as (K1 & K2 & K3 & K4). by apply Hgo.
  - by apply Hgo.
Qed.
Lemma same_dials c : tun_dialConfig c = dialConfig (tc_p c) /\ tun_dialConfigUDP c = dialConfigUDP (tc_p c).
Proof. done. Qed.
Lemma books_config base w id now j :
  books_inv base w -> tw_jobs w !! id = Some j -> jb_stage j = TConfig -> books_inv base (job_config w id now j).
Proof.
  intros Hi Hj Hs. destruct (bi_jobs _ _ Hi _ _ Hj) as [_ Hsh]. pose proof Hsh as [S1 _]. destruct S1 as [Hf Hr]; [unfold setting_up; by rewrite Hs|].
  destruct (same_dials (tw_c w)) as [Ed Eu]. unfold job_config, put_job. rewrite Ed, Eu. pose proof (derived_dialConfig (tc_p (tw_c w))) as [Hd Hdu]. rewrite (bi_base _ _ Hi) in Hd, Hdu.
  set (r := match jb_kind j with JUDP _ => dialConfigUDP (tc_p (tw_c w)) | _ => dialConfig (tc_p (tw_c w)) end).
  assert (Hty : derived base r.1 /\ (is_udp j = true -> forall t, enabled r.1 t = true -> t = TransportQUIC)).
  { unfold r, is_udp. destruct (jb_kind j); [by split| |by split]. split; [done|]. intros _ [] He; [done|..]; unfold dialConfigUDP, dialConfig in He; cbn in He; discriminate He. }
  destruct r as [cfg mode]. eapply books_move; try done; [unfold holds_permit; by rewrite Hs|]. split; [exact Hty|]. rewrite goto_hold. by apply goto_setup.
Qed.
Lemma books_lookup base w id now j : books_inv base w -> tw_jobs w !! id = Some j -> books_inv base (job_lookup w id now j).
Proof.
  intros Hi Hj. destruct (bi_jobs _ _ Hi _ _ Hj) as [Hty Hsh]. unfold job_lookup. destruct (jb_stage j) as [| | |cfg mode start| | | | | | | |] eqn:Hs; try done.
  pose proof Hsh as [S1 _]. destruct S1 as [Hf Hr]; [unfold setting_up; by rewrite Hs|]. unfold job_typed in Hty. rewrite Hs in Hty. destruct Hty as [Hd Hq].
  pose proof (sub_pool_lookup (tw_c w) (clientConfigKey cfg) now) as Hsub. destruct (only_pool_lookup (tw_c w) (clientConfigKey cfg) now) as [E1 E2].
  unfold acquire_lookup in *. unfold put_job. destruct (usable (tw_c w) (clientConfigKey cfg)) as [mc|] eqn:Eu; cbn [fst] in *.
  - eapply books_move; try done; [unfold holds_permit; by rewrite Hs|]. split; [|by apply goto_setup]. intros Hu. apply Hq; [done|].
    apply usable_Some in Eu as [Ek _]. by apply (bi_fits _ _ Hi _ _ _ Ek).
  - eapply books_move; try done; [unfold holds_permit; by rewrite Hs|]. split; [done|]. rewrite goto_hold. by apply goto_setup.
Qed.
Lemma books_dialed base w id now now' res j :
  books_inv base w -> tw_jobs w !! id = Some j ->
  (forall cl t, res = inl (cl, t) -> cl ∉ tc_open (tw_c w) /\ (forall cfg mode start n0, jb_stage j = TDial cfg mode start n0 -> enabled cfg t = true)) ->
  books_inv base (job_dialed w id now now' res j).
Proof.
  intros Hi Hj Hres. destruct (bi_jobs _ _ Hi _ _ Hj) as [Hty Hsh]. unfold job_dialed. destruct (jb_stage j) as [| | | |cfg mode start n0| | | | | | |] eqn:Hs; try done.
  pose proof Hsh as [S1 _]. destruct S1 as [Hf Hr]; [unfold setting_up; by rewrite Hs|]. unfold job_typed in Hty. rewrite Hs in Hty. destruct Hty as [Hd Hq].
  assert (Hh : holds_permit j = true) by (unfold holds_permit; by rewrite Hs). destruct res as [[cl t]|de].
  - destruct (Hres cl t eq_refl) as [_ He]. specialize (He _ _ _ _ eq_refl). pose proof (fits_dialed base (tw_c w) cfg n0 cl t (bi_fits _ _ Hi) Hd He) as Hfit.
    destruct (only_pool_dialed (tw_c w) (clientConfigKey cfg) n0 cl t) as [E1 E2].
    assert (Ht : enabled cfg (acquire_dialed (tw_c w) (clientConfigKey cfg) n0 cl t).2.1.2 = true).
    { unfold acquire_dialed. destruct (usable _ _) as [mc|] eqn:Eu; [|done]. apply usable_Some in Eu as [Ek _]. by apply (bi_fits _ _ Hi _ _ _ Ek). }
    destruct (acquire_dialed (tw_c w) (clientConfigKey cfg) n0 cl t) as [c [[cl' t'] dialed]]. cbn [fst snd] in *. pose proof Hi as [H1 H2 H3 H4 H5 H6 H7 H8].
    set (c' := if dialed then _ else _). assert (Hc : same_but_policy c' c) by (unfold c'; case_on; [apply on_policy_same, books_success|done]).
    pose proof (sub_pool_policy _ _ Hc) as Hsub. destruct Hc as ([(D & Pn & N) B] & _ & K & _). rewrite E1 in *. unfold put_job.
    eapply books_put; eauto using owned_keep, fits_sub; rewrite ?D, ?N, ?K, ?E2; eauto using owned_keep.
    + rewrite Pn, Hh. cbn. lia.
    + split; [|by apply goto_setup]. intros Hu. by apply Hq.
  - destruct (abandon_ok base j Hsh Hf Hr) as (K1 & K2 & K3 & K4).
    destruct (jb_kind j); cbn [set_m put_job tw_jobs tw_flows]; unfold put_job; cbn; (eapply books_fail; eauto; [apply books_failure|by apply sub_pool_same]).
Qed.
Lemma job_error_same c now key e :
  let d := markClientBad (tun_onTransportError c now) key e in same_books (tc_p d) (tc_p c) /\ sub_pool d c /\ tc_keys d = tc_keys c.
Proof.
  cbn zeta. destruct (only_pool_bad (tun_onTransportError c now) key e) as [-> ->]. split_and!; [apply books_error| |done].
  etransitivity; [apply sub_pool_bad|by apply sub_pool_same].
Qed.
Lemma pipe_error_same c now key e :
  same_books (tc_p (pipe_error c now key e)) (tc_p c) /\ sub_pool (pipe_error c now key e) c /\ tc_keys (pipe_error c now key e) = tc_keys c.
Proof. unfold pipe_error. case_on; [done|apply job_error_same]. Qed.

Lemma books_opened base w id now now' res j :
  books_inv base w -> tw_jobs w !! id = Some j -> (forall f, res = inl f -> f ∉ tw_flows w) -> nextFlowID (tc_p (tw_c w)) + 1 < 2 ^ 64 ->
  books_inv base (job_opened w id now now' res j).
Proof.
  intros Hi Hj Hres Hn. destruct (bi_jobs _ _ Hi _ _ Hj) as [Hty Hsh]. unfold job_opened. destruct (jb_stage j) as [| | | | |key cl t start| | | | | |] eqn:Hs; try done.
  pose proof Hsh as (S1 & S2 & S3 & _). destruct S1 as [Hf Hr]; [unfold setting_up; by rewrite Hs|].
  assert (Hh : holds_permit j = true) by (unfold holds_permit; by rewrite Hs). pose proof (how_many_pos _ _ _ _ Hj Hh) as Hpos. pose proof Hi as [H1 H2 H3 H4 H5 H6 [H7 H7'] H8].
  destruct res as [f|e].
  - specialize (Hres f eq_refl). rewrite registerFlow_parts. unfold registerFlow. rewrite (u64_small (nextFlowID (tc_p (tw_c w)) + 1)) by (unfold is_u64; lia).
    rewrite (proj2 (Z.ltb_lt 0 (pendingPermits _))) by lia. set (p := set_flows _ _ _ _ _ _). set (q := if 0 <? now - start then _ else _).
    assert (Hq : same_books q p) by (unfold q; case_on; [apply books_rtt|done]). destruct Hq as [(D & Pn & N) B]. unfold put_job.
    eapply books_put; eauto; cbn [tc_p tc_keys]; rewrite ?D, ?N, ?Pn, ?B, ?Hh; unfold p; cbn [set_flows pendingPermits flows nextFlowID baseCfg]; rewrite ?dom_insert_L.
    + cbn. lia.
    + eapply owned_take; eauto.
    + eapply owned_take; eauto. intros Hin. apply H7' in Hin. lia.
    + by rewrite H6.
    + split; [lia|]. intros x. rewrite elem_of_union, elem_of_singleton. intros [->|Hin]; [lia|]. apply H7' in Hin. lia.
    + split; [done|]. split_and!; try done; cbn; [|eauto]. intros fid E. apply S3 in E as [E _]. congruence.
  - set (c := markClientBad _ _ _). assert (Hc : same_books (tc_p c) (releaseFlowPermit (tc_p (tw_c w))) /\ sub_pool c (tw_c w) /\ tc_keys c = tc_keys (tw_c w)).
    { destruct (job_error_same (tun_releaseFlowPermit (tw_c w)) now key (Some e)) as (C1 & C2 & C3). split_and!; [done| |done].
      etransitivity; [exact C2|by apply sub_pool_same]. }
    destruct Hc as (C1 & C2 & C3). assert (Hsh' : job_shape (goto j (TRelease key))) by (rewrite goto_hold; by apply goto_setup).
    destruct (jb_kind j); cbn [set_m put_job tw_jobs tw_flows]; unfold put_job; cbn; (eapply books_fail; eauto; done).
Qed.

Lemma drop_owned w id j j' : owned jb_flow (tw_jobs w) (tw_flows w) -> tw_jobs w !! id = Some j -> jb_flow j' = None -> owned jb_flow (<[id := j']> (tw_jobs w)) (drop_flow w j).
Proof. intros Ho Hj E. unfold drop_flow. destruct (jb_flow j) eqn:Ef; [by eapply owned_drop|eapply owned_keep; eauto; congruence]. Qed.

(** The flow is closed and the registration kept. *)
Lemma books_drop base w id j j' c :
  books_inv base w -> tw_jobs w !! id = Some j -> same_books (tc_p c) (tc_p (tw_c w)) -> sub_pool c (tw_c w) -> tc_keys c = tc_keys (tw_c w) ->
  holds_permit j' = holds_permit j -> jb_flow j' = None -> jb_ref j' = jb_ref j -> job_typed base j' /\ job_shape j' ->
  books_inv base (put_job w c (drop_flow w j) id j').
Proof.
  intros Hi Hj [(D & Pn & N) B] Hs Hk Hh Hf Hr Hok. pose proof Hi as [H1 H2 H3 H4 H5 H6 H7 H8].
  eapply books_put; eauto using drop_owned, fits_sub; rewrite ?D, ?N, ?Hk, ?Hh; eauto using owned_keep. lia.
Qed.
(** The registration is removed. *)
Lemma books_unregister base w id j j' fid :
  books_inv base w -> tw_jobs w !! id = Some j -> jb_ref j = Some fid -> jb_ref j' = None -> jb_flow j' = jb_flow j -> holds_permit j' = holds_permit j ->
  job_typed base j' /\ job_shape j' -> books_inv base (put_job w (unregister_locked (tw_c w) fid).1 (tw_flows w) id j').
Proof.
  intros Hi Hj Hr Hr' Hf Hh Hok. pose proof Hi as [H1 H2 H3 H4 H5 H6 [H7 H7'] H8].
  eapply books_put; eauto using owned_keep; cbn [unregister_locked fst tc_p tc_keys unregisterFlow set_flows pendingPermits flows nextFlowID]; rewrite ?Hh, ?dom_delete_L; try lia.
  - by eapply owned_drop.
  - by rewrite H6.
  - split; [done|]. intros f Hin. apply H7'. set_solver.
Qed.

(** The steps after the flow is open. *)
Lemma books_running base w id j w' :
  books_inv base w -> tw_jobs w !! id = Some j ->
  (exists e, w' = job_first w id e j) \/ (exists now e, w' = job_second w id now e j) \/ (exists now e, w' = job_exchanged w id now e j)
  \/ (exists timeout now e, w' = job_pumped timeout w id now e j) -> books_inv base w'.
Proof.
  intros Hi Hj Hw. destruct (bi_jobs _ _ Hi _ _ Hj) as [_ (S1 & S2 & S3 & S4)]. destruct Hw as [(e & ->)|[(now & e & ->)|[(now & e & ->)|(timeout & now & e & ->)]]].
  - unfold job_first. destruct (jb_kind j) eqn:Ek; try done. destruct (jb_stage j) as [| | | | | |[|]| | | | |] eqn:Hs; try done.
    assert (Hu : is_udp j = false) by (unfold is_udp; by rewrite Ek).
    apply books_drop; try done; [unfold holds_permit; by rewrite Hs|]. split; [done|]. split_and!; try done.
    + cbn. intros fid E. rewrite (S2 Hu) in E. discriminate E.
    + cbn. destruct S4 as [?|E]; [done|]. congruence.
  - unfold job_second. destruct (jb_kind j) eqn:Ek; try done. destruct (jb_stage j) as [| | | | | |[|]| | | | |] eqn:Hs; try done.
    assert (Hu : is_udp j = false) by (unfold is_udp; by rewrite Ek).
    destruct (pipe_error_same (tw_c w) now (jb_key j) o) as (P1 & P2 & P3). set (c1 := pipe_error (tw_c w) _ _ _) in *.
    destruct (pipe_error_same c1 now (jb_key j) e) as (Q1 & Q2 & Q3). eapply (books_move base w id j); [done|done|by etransitivity|by etransitivity|congruence|unfold holds_permit; by rewrite Hs|done|done|].
    split; [done|]. split_and!; try done.
  - unfold job_exchanged. destruct (jb_kind j) eqn:Ek; try done. destruct (jb_stage j) as [| | | | | |[|]| | | | |] eqn:Hs; try done.
    assert (Hu : is_udp j = false) by (unfold is_udp; by rewrite Ek).
    assert (Hc : forall c, c = match e with Some e => markClientBad (tun_onTransportError (tw_c w) now) (jb_key j) (Some e) | None => tw_c w end ->
      same_books (tc_p c) (tc_p (tw_c w)) /\ sub_pool c (tw_c w) /\ tc_keys c = tc_keys (tw_c w)) by (intros c ->; destruct e; [apply job_error_same|done]).
    destruct (Hc _ eq_refl) as (C1 & C2 & C3). apply books_drop; try done; [unfold holds_permit; by rewrite Hs|]. split; [done|]. split_and!; try done; cbn.
    + intros fid E. rewrite (S2 Hu) in E. discriminate E.
    + destruct S4 as [?|E]; [done|]. congruence.
  - unfold job_pumped. destruct (jb_kind j) eqn:Ek; try done. destruct (jb_stage j) as [| | | | | |[|]| | | | |] eqn:Hs; try done.
    assert (Hu : is_udp j = true) by (unfold is_udp; by rewrite Ek).
    set (c := if isExpectedUDPErr timeout e then _ else _).
    assert (Hc : same_books (tc_p c) (tc_p (tw_c w)) /\ sub_pool c (tw_c w) /\ tc_keys c = tc_keys (tw_c w)) by (unfold c; case_on; [done|apply job_error_same]).
    destruct Hc as (C1 & C2 & C3). eapply books_move; try done. unfold holds_permit. by rewrite Hs.
Qed.

(** Giving the registration and the client back. *)
Lemma books_leaving base w id j w' :
  books_inv base w -> tw_jobs w !! id = Some j ->
  w' = job_unregister w id j \/ w' = job_release w id j \/ w' = job_fallback_end w id j -> books_inv base w'.
Proof.
  intros Hi Hj Hw. destruct (bi_jobs _ _ Hi _ _ Hj) as [_ Hsh]. pose proof Hsh as (S1 & S2 & S3 & S4). destruct Hw as [->|[->| ->]].
  - unfold job_unregister. destruct (jb_stage j) eqn:Hs; try done. destruct (jb_ref j) as [fid|] eqn:Er; [|done]. destruct S4 as (Hu & Hf & _).
    destruct (unregister_locked (tw_c w) fid) as [c k] eqn:Eu. replace c with (unregister_locked (tw_c w) fid).1 by by rewrite Eu.
    assert (Hh : holds_permit j = false) by (unfold holds_permit; by rewrite Hs).
    destruct k as [key|]; (eapply books_unregister; try done).
    + split; [done|]. split_and!; try done. intros fid' E. cbn in E. rewrite (S2 Hu) in E. discriminate E.
    + unfold return_job. cbn. by destruct (jb_kind j).
    + unfold return_job. cbn. by destruct (jb_kind j).
    + unfold return_job. cbn. rewrite Hh. by destruct (jb_kind j).
    + unfold return_job, job_typed, job_shape, is_udp in *. cbn. destruct (jb_kind j); try done; rewrite (S2 Hu); by split_and!.
  - unfold job_release. destruct (jb_stage j) eqn:Hs; try done. destruct S1 as [Hf Hr]; [unfold setting_up; by rewrite Hs|].
    destruct (only_pool_release (tw_c w) key) as [E1 E2]. pose proof (sub_pool_release (tw_c w) key) as Hsub.
    assert (Hn : job_shape (no_key j)) by (split_and!; try done; cbn; by rewrite ?Hs).
    destruct (abandon_ok base (no_key j) Hn Hf Hr) as (K1 & K2 & K3 & K4). eapply books_move; try done; [by rewrite E1|]. rewrite K2. unfold holds_permit. by rewrite Hs.
  - unfold job_fallback_end. destruct (jb_stage j) eqn:Hs; try done. eapply books_move; try done. unfold holds_permit. by rewrite Hs.
Qed.

Lemma shape_close j cl loc f k c :
  job_shape j -> is_udp j = true -> (forall fid, cl = CUnregister fid -> jb_ref j = Some fid /\ f = None) -> (jb_flow j = None -> f = None) ->
  job_shape (mkJob (jb_kind j) loc (jb_stage j) cl k c f (jb_ref j)).
Proof.
  intros (S1 & S2 & S3 & S4) Hu H1 H2. unfold job_shape, setting_up, is_udp in *. cbn. split_and!; try done; [| |].
  - intros E. destruct (S1 E). auto.
  - rewrite Hu. done.
  - destruct (jb_stage j) as [| | | | | |[|]| | | | |]; try done; try (by destruct S4 as [E _]; congruence).
Qed.
Lemma typed_same base j j' : jb_stage j' = jb_stage j -> is_udp j' = is_udp j -> job_typed base j -> job_typed base j'.
Proof. unfold job_typed. by intros -> ->. Qed.
Lemma permit_same j j' : jb_stage j' = jb_stage j -> holds_permit j' = holds_permit j.
Proof. unfold holds_permit. by intros ->. Qed.

Lemma books_closing base w id j w' :
  books_inv base w -> tw_jobs w !! id = Some j ->
  w' = close_begin w id j \/ w' = close_unregister w id j \/ w' = close_release w id j \/ w' = close_remove w id j -> books_inv base w'.
Proof.
  intros Hi Hj Hw. destruct (bi_jobs _ _ Hi _ _ Hj) as [Hty Hsh]. pose proof Hsh as (S1 & S2 & S3 & S4). destruct Hw as [->|[->|[->| ->]]].
  - unfold close_begin. destruct (jb_kind j) eqn:Ek; try done. destruct (jb_close j) eqn:Ec; try done. assert (Hu : is_udp j = true) by (unfold is_udp; by rewrite Ek).
    apply books_drop; try done. split; [by eapply typed_same|]. apply (shape_close j); try done. intros fid. destruct (jb_ref j); [by intros [= ->]|by case_on].
  - unfold close_unregister. destruct (jb_close j) as [|fid| | |] eqn:Ec; try done. destruct (S3 fid eq_refl) as [Hr Hf].
    assert (Hu : is_udp j = true) by (destruct (is_udp j) eqn:E; [done|by specialize (S2 eq_refl)]).
    assert (Hgo : forall cl, (forall f, cl <> CUnregister f) -> books_inv base (put_job w (unregister_locked (tw_c w) fid).1 (tw_flows w) id (set_close (no_ref j) cl))).
    { intros cl Hcl. apply books_unregister with (j := j); try done. split; [by eapply typed_same|]. unfold set_close, no_ref. cbn.
      unfold job_shape, setting_up, is_udp in *. cbn. split_and!; try done; [by rewrite Hu|by intros f E; apply Hcl in E|].
      destruct (jb_stage j) as [| | | | | |[|]| | | | |]; try done; [by destruct S4; congruence|by right|by destruct S4; congruence|by destruct S4; congruence]. }
    destruct (unregister_locked (tw_c w) fid) as [c [key|]]; by apply Hgo.
  - unfold close_release. destruct (jb_close j) as [| |key| |] eqn:Ec; try done. assert (Hu : is_udp j = true) by (destruct (is_udp j) eqn:E; [done|by specialize (S2 eq_refl)]).
    destruct (only_pool_release (tw_c w) key) as [E1 E2]. eapply books_move; try done; [by rewrite E1|apply sub_pool_release|]. split; [by eapply typed_same|]. by apply (shape_close j).
  - unfold close_remove. destruct (jb_kind j) eqn:Ek; try done. destruct (jb_close j) eqn:Ec; try done. assert (Hu : is_udp j = true) by (unfold is_udp; by rewrite Ek).
    apply (books_move base w id j); try done. split; [by eapply typed_same|]. by apply (shape_close j).
Qed.

Lemma books_new base w id j m :
  books_inv base w -> tw_jobs w !! id = None -> holds_permit j = false -> jb_flow j = None -> jb_ref j = None -> job_typed base j /\ job_shape j ->
  books_inv base (mkTW (tw_c w) (tw_flows w) (<[id := j]> (tw_jobs w)) m).
Proof.
  intros [H1 H2 H3 H4 H5 H6 H7 H8] Hj Hh Hf Hr Hok. split; cbn [tw_c tw_flows tw_jobs tw_m]; eauto using owned_new.
  - rewrite how_many_new by done. rewrite Hh. lia.
  - intros i k Hi. apply lookup_insert_Some in Hi as [[<- <-]|[_ Hi]]; eauto.
Qed.

Lemma books_touch base w id now : books_inv base w -> books_inv base (touch w id now).
Proof.
  intros Hi. unfold touch, on_job. destruct (tw_jobs w !! id) as [j|] eqn:Hj; [|done]. destruct (jb_kind j) as [|nt|] eqn:Ek; try done.
  destruct (bi_jobs _ _ Hi _ _ Hj) as [Hty Hsh]. eapply books_move; try done. unfold job_typed, job_shape, setting_up, is_udp in *. rewrite Ek in *. done.
Qed.

Section Runs.
  Context (timeout : goerr -> bool) (o : udpOptions).

Lemma books_step base calm w w' : books_inv base w -> tun_step timeout o calm w w' -> books_inv base w'.
Proof.
  intros Hi Hs. destruct Hs.
  - unfold Handle. cbn zeta. case_on; [done|]. case_on; [done|]. destruct (if DNSOverride o && _ then _ else _). by apply books_new.
  - unfold begin_tcp. case_on; [done|]. by apply books_new.
  - unfold begin_dns. case_on; [done|]. by apply books_new.
  - by apply books_start.
  - by apply books_admit.
  - by apply books_config.
  - by apply books_lookup.
  - by apply books_dialed.
  - by apply books_opened.
  - eapply books_running; eauto.
  - eapply books_running; eauto 6.
  - eapply books_running; eauto 6.
  - eapply books_running; eauto 8.
  - eapply books_leaving; eauto.
  - eapply books_leaving; eauto.
  - eapply books_leaving; eauto.
  - eapply books_closing; eauto.
  - eapply books_closing; eauto.
  - eapply books_closing; eauto.
  - eapply books_closing; eauto.
  - by apply books_touch.
  - apply books_ctl; [done|apply tick_same].
  - apply books_ctl; [done|]. apply on_policy_same, books_write.
  - destruct Hi as [H1 H2 H3 H4 H5 H6 H7 H8]. by split.
Qed.

Lemma books_reachable base mode now calm w : rtc (tun_step timeout o calm) (tun_start base mode now) w -> books_inv base w.
Proof.
  intros Hr. eapply rtc_preserves; [intros a b; apply books_step|exact Hr|]. split; try done; apply owned_empty.
Qed.
End Runs.

(** ** The table of UDP flows, in every run *)

(** The table has exactly the flows whose [closeState] is not over, each under its own key. *)
Definition nat_inv (w : tworld) : Prop :=
  forall key id, um_flows (tw_m w) !! key = Some id <-> exists j nt, tw_jobs w !! id = Some j /\ jb_kind j = JUDP nt /\ nt_key nt = key /\ jb_close j <> CDone.

Definition nat_key (j : job) : option string := match jb_kind j with JUDP nt => Some (nt_key nt) | _ => None end.

Lemma nat_inv_keep w id j j' c fls m :
  nat_inv w -> tw_jobs w !! id = Some j -> nat_key j' = nat_key j -> (jb_close j' = CDone <-> jb_close j = CDone) -> um_flows m = um_flows (tw_m w) ->
  nat_inv (mkTW c fls (<[id := j']> (tw_jobs w)) m).
Proof.
  intros H Hj Hk Hc Hm key i. cbn. rewrite Hm, (H key i). unfold nat_key in Hk. split.
  - intros (k & nt & Hi & Ekd & Eky & Ecl). destruct (decide (i = id)) as [->|Hne].
    + rewrite lookup_insert_eq. rewrite Hj in Hi. injection Hi as <-. rewrite Ekd in Hk. destruct (jb_kind j') as [|nt'|] eqn:E'; try done. exists j', nt'. naive_solver.
    + exists k, nt. by rewrite lookup_insert_ne.
  - intros (k & nt & Hi & Ekd & Eky & Ecl). apply lookup_insert_Some in Hi as [[<- <-]|[Hne Hi]]; [|by exists k, nt].
    rewrite Ekd in Hk. destruct (jb_kind j) as [|nt'|] eqn:E'; try done. exists j, nt'. naive_solver.
Qed.
Lemma nat_inv_new w id j c fls : nat_inv w -> tw_jobs w !! id = None -> is_udp j = false -> nat_inv (mkTW c fls (<[id := j]> (tw_jobs w)) (tw_m w)).
Proof.
  intros H Hj Hu key i. cbn. rewrite (H key i). unfold is_udp in Hu. split; intros (k & nt & Hi & Ekd & Eky & Ecl).
  - exists k, nt. rewrite lookup_insert_ne; [done|]. intros <-. congruence.
  - apply lookup_insert_Some in Hi as [[<- <-]|[Hne Hi]]; [by rewrite Ekd in Hu|by exists k, nt].
Qed.
Lemma nat_inv_add w id nt st : nat_inv w -> tw_jobs w !! id = None -> um_flows (tw_m w) !! nt_key nt = None ->
  nat_inv (mkTW (tw_c w) (tw_flows w) (<[id := mkJob (JUDP nt) true st CNone "" 0 None None]> (tw_jobs w))
             (mkUM (<[nt_key nt := id]> (um_flows (tw_m w))) (quicBlockedUntil (tw_m w)) (quicBlockedAt (tw_m w)))).
Proof.
  intros H Hj Hn key i. cbn. split.
  - intros Hk. apply lookup_insert_Some in Hk as [[<- <-]|[Hne Hk]].
    + eexists _, nt. rewrite lookup_insert_eq. by split_and!.
    + apply H in Hk as (k & nt' & Hi & ? & ? & ?). exists k, nt'. rewrite lookup_insert_ne; [done|]. intros <-. congruence.
  - intros (k & nt' & Hi & Ekd & Eky & Ecl). apply lookup_insert_Some in Hi as [[<- <-]|[Hne Hi]].
    + cbn in Ekd. injection Ekd as ->. rewrite Eky. apply lookup_insert_eq.
    + rewrite lookup_insert_ne; [apply H; by exists k, nt'|]. intros E. assert (um_flows (tw_m w) !! key = Some i) as E2 by (apply H; by exists k, nt'). congruence.
Qed.
Lemma nat_inv_remove w id j nt c fls :
  nat_inv w -> tw_jobs w !! id = Some j -> jb_kind j = JUDP nt -> jb_close j <> CDone ->
  nat_inv (mkTW c fls (<[id := set_close j CDone]> (tw_jobs w)) (mkUM (delete (nt_key nt) (um_flows (tw_m w))) (quicBlockedUntil (tw_m w)) (quicBlockedAt (tw_m w)))).
Proof.
  intros H Hj Hk Hc key i. cbn. assert (Hself : um_flows (tw_m w) !! nt_key nt = Some id) by (apply H; by exists j, nt). split.
  - intros [Hne Hl]%lookup_delete_Some. apply H in Hl as (k & nt' & Hi & ? & ? & ?). exists k, nt'. rewrite lookup_insert_ne; [done|].
    intros <-. rewrite Hj in Hi. injection Hi as <-. congruence.
  - intros (k & nt' & Hi & Ekd & Eky & Ecl). apply lookup_insert_Some in Hi as [[<- <-]|[Hne Hi]]; [done|].
    assert (Hl : um_flows (tw_m w) !! key = Some i) by (apply H; by exists k, nt'). apply lookup_delete_Some. split; [|done]. intros <-. congruence.
Qed.

Lemma nat_key_abandon j : nat_key (abandon j) = nat_key j /\ jb_close (abandon j) = jb_close j.
Proof. unfold abandon, return_job, nat_key. destruct (jb_kind j) eqn:E; cbn; by rewrite ?E. Qed.
Lemma nat_key_return j : nat_key (return_job j) = nat_key j /\ jb_close (return_job j) = jb_close j.
Proof. unfold return_job, nat_key. destruct (jb_kind j) eqn:E; cbn; by rewrite ?E. Qed.
Lemma note_flows m now now' e : um_flows (noteQUICDialError m now now' e) = um_flows m.
Proof. unfold noteQUICDialError. by repeat case_on. Qed.

Section NatRuns.
  Context (timeout : goerr -> bool) (o : udpOptions).

Lemma nat_step calm w w' : nat_inv w -> tun_step timeout o calm w w' -> nat_inv w'.
Proof.
  intros Hi Hs. destruct Hs.
  - unfold Handle. cbn zeta. case_on; [done|]. destruct (um_flows (tw_m w) !! _) eqn:El; [done|]. destruct (if DNSOverride o && _ then _ else _).
    by apply (nat_inv_add w id (mkNat _ _ _ _ _)).
  - unfold begin_tcp. case_on; [done|]. by apply nat_inv_new.
  - unfold begin_dns. case_on; [done|]. by apply nat_inv_new.
  - unfold job_start, put_job. destruct (nat_key_abandon j) as [G1 G2]. eapply nat_inv_keep; try done; case_on; try done. by rewrite G2.
  - unfold job_admit, put_job. destruct (tun_acquireFlowPermit (tw_c w) now) as [c ok]. destruct (nat_key_return j) as [G1 G2]. eapply nat_inv_keep; try done; repeat case_on; try done. by rewrite G2.
  - unfold job_config, put_job. destruct (match jb_kind j with JUDP _ => _ | _ => _ end). by eapply nat_inv_keep.
  - unfold job_lookup, put_job. destruct (jb_stage j); try done. destruct (acquire_lookup _ _ _) as [c [[cl t]|]]; by eapply nat_inv_keep.
  - unfold job_dialed, put_job. destruct (jb_stage j); try done. destruct (nat_key_abandon j) as [G1 G2]. destruct res as [[cl t]|de].
    + destruct (acquire_dialed _ _ _ _ _) as [c [[cl' t'] d]]. by eapply nat_inv_keep.
    + destruct (jb_kind j); (apply (nat_inv_keep w id j); [done|done|done|by rewrite G2|cbn [put_job set_m tw_m]; by rewrite ?note_flows]).
  - unfold job_opened, put_job. destruct (jb_stage j); try done. destruct res as [f|e].
    + destruct (tun_registerFlow _ _ _ _ _ _). by eapply nat_inv_keep.
    + destruct (jb_kind j); (apply (nat_inv_keep w id j); [done|done|done|done|cbn [put_job set_m tw_m]; by rewrite ?note_flows]).
  - unfold job_first, put_job. destruct (jb_kind j) eqn:Ek; try done. destruct (jb_stage j) as [| | | | | |[|]| | | | |]; try done. by eapply nat_inv_keep.
  - unfold job_second, put_job. destruct (jb_kind j) eqn:Ek; try done. destruct (jb_stage j) as [| | | | | |[|]| | | | |]; try done. by eapply nat_inv_keep.
  - unfold job_exchanged, put_job. destruct (jb_kind j) eqn:Ek; try done. destruct (jb_stage j) as [| | | | | |[|]| | | | |]; try done. by eapply nat_inv_keep.
  - unfold job_pumped, put_job. destruct (jb_kind j) eqn:Ek; try done. destruct (jb_stage j) as [| | | | | |[|]| | | | |]; try done. by eapply nat_inv_keep.
  - unfold job_unregister, put_job. destruct (jb_stage j); try done. destruct (jb_ref j); [|done]. destruct (unregister_locked _ _) as [c [k|]]; [by eapply nat_inv_keep|].
    destruct (nat_key_return (no_ref j)) as [G1 G2]. eapply nat_inv_keep; try done. by rewrite G2.
  - unfold job_release, put_job. destruct (jb_stage j); try done. destruct (nat_key_abandon (no_key j)) as [G1 G2]. eapply nat_inv_keep; try done. by rewrite G2.
  - unfold job_fallback_end, put_job. destruct (jb_stage j); try done. by eapply nat_inv_keep.
  - unfold close_begin, put_job. destruct (jb_kind j) eqn:Ek; try done. destruct (jb_close j) eqn:Ec; try done. eapply nat_inv_keep; try done. cbn. rewrite Ec. by repeat case_on.
  - unfold close_unregister, put_job. destruct (jb_close j) eqn:Ec; try done. destruct (unregister_locked _ _) as [c [k|]]; (eapply nat_inv_keep; try done; cbn; by rewrite Ec).
  - unfold close_release, put_job. destruct (jb_close j) eqn:Ec; try done. eapply nat_inv_keep; try done; cbn; by rewrite Ec.
  - unfold close_remove, put_job. destruct (jb_kind j) eqn:Ek; try done. destruct (jb_close j) eqn:Ec; try done. cbn. eapply nat_inv_remove; try done; by rewrite ?Ec.
  - unfold touch, on_job, put_job. destruct (tw_jobs w !! id) as [j|] eqn:Hj; [|done]. destruct (jb_kind j) eqn:Ek; try done. eapply nat_inv_keep; try done. unfold nat_key. cbn. by rewrite Ek.
  - exact Hi.
  - exact Hi.
  - exact Hi.
Qed.

Lemma nat_reachable base mode now calm w : rtc (tun_step timeout o calm) (tun_start base mode now) w -> nat_inv w.
Proof.
  intros Hr. eapply rtc_preserves; [intros a b; apply nat_step|exact Hr|]. intros key id. cbn. rewrite lookup_empty. split; [done|]. intros (j & nt & Hj & _). by rewrite lookup_empty in Hj.
Qed.
End NatRuns.
