(* ===== verification/TunPolicy.v ===== *)
(** * The TUN client: the controller's arithmetic ([cmd/tun_client/main_windows.go])

    The TUN client has its own copies of the routines by which the transport policy keeps its
    windows of samples and computes rates. Here they are written as the code has them, with the
    index loops, the copies within a slice and Go's bounds checks, and shown to compute what the
    definitions of the file SocksPolicy compute, on which the TUN client's other files build. *)

From Stdlib Require Import Floats.SpecFloat.
From S2P Require Import Prelude Ownership GoString ClientConfig Client SocksPolicy SocksConn SocksUDP TunPool TunConn.

(** ** Slices that lose their oldest items *)

(** [for idx < bound && old(l[idx]) { idx++ }]; the length of the slice is fuel enough. *)
Fixpoint scan {A} (old : A -> bool) (l : list A) (bound : Z) (fuel : nat) (idx : Z) : Z :=
  match fuel with
  | O => idx
  | S n =>
      if (idx <? bound) && (match l !! Z.to_nat idx with Some x => old x | None => false end)
      then scan old l bound n (idx + 1) else idx
  end.
(** [copy(l, l[idx:])] and [l[:len(l)-idx]]. *)
Definition compact {A} (l : list A) (idx : Z) : res (list A) :=
  l' ← copy_into l 0 (zlen l) (zdrop idx l);
  slice l' 0 (zlen l - idx).

Definition tun_pruneTimes (items : list Z) (cutoff : Z) : res (list Z) :=
  if zlen items =? 0 then Ok items
  else
    let idx := scan (fun t => t <? cutoff) items (zlen items) (length items) 0 in
    if idx =? 0 then Ok items else compact items idx.

Definition tun_pruneRTTSamplesLocked (c : tunController) (cutoff : Z) : res tunController :=
  let samples := rttSamples (tc_p c) in
  if zlen samples =? 0 then Ok c
  else
    let idx := scan (fun s => s.1 <? cutoff) samples (zlen samples) (length samples) 0 in
    if idx =? 0 then Ok c
    else l ← compact samples idx; Ok (on_policy c (set_rtt (tc_p c) l)).
(** The loop that collects the samples of the window. *)
Fixpoint window (from : Z) (samples : list (Z * spec_float)) (out : list spec_float) : list spec_float :=
  match samples with
  | [] => out
  | s :: tl => if s.1 <? from then window from tl out else window from tl (out ++ [s.2])
  end.
Definition tun_collectRTTWindowLocked (c : tunController) (from now : Z) : res (tunController * list spec_float) :=
  c ← tun_pruneRTTSamplesLocked c (now - 2 * Minute);
  Ok (c, window from (rttSamples (tc_p c)) []).

Definition tun_bytesToMbps (deltaBytes : Z) (secs : spec_float) : spec_float := bytesToMbps deltaBytes secs.

Definition set_samples (f : flowState) (l : list (Z * Z)) : flowState :=
  mkFlowState (fs_id f) (startedAt f) (fs_transport f) (fs_client f) (fs_upBytes f) (fs_downBytes f) l.
Definition tun_avgDownrateMbps (f : flowState) (now : Z) : res (flowState * spec_float) :=
  let l := downSamples f ++ [(now, fs_downBytes f)] in
  let cutoff := now - fastDownrateWindow in
  let idx := scan (fun s => s.1 <? cutoff) l (zlen l - 1) (length l) 0 in
  l ← (if 0 <? idx then compact l idx else Ok l);
  let f := set_samples f l in
  if zlen l <? 2 then Ok (f, float64 0)
  else match l !! 0%nat, l !! Z.to_nat (zlen l - 1) with
  | Some first, Some lst =>
      let dt := Seconds (time_Sub lst.1 first.1) in
      if f_leb dt (float64 0) then Ok (f, float64 0)
      else if lst.2 - first.2 <=? 0 then Ok (f, float64 0)
      else Ok (f, tun_bytesToMbps (lst.2 - first.2) dt)
  | _, _ => Panic "index out of range"
  end.

(** [percentile] with the bounds checks of its indices. *)
Definition index_float (cp : list spec_float) (i : Z) : res spec_float :=
  if (0 <=? i) && (i <? zlen cp) then match cp !! Z.to_nat i with Some x => Ok x | None => Panic "index out of range" end
  else Panic "index out of range".
Definition percentile_pos (pc : spec_float) (n : Z) : spec_float := f_mul (f_div pc (float64 100)) (float64 (n - 1)).
Definition tun_percentile (samples : list spec_float) (pc : spec_float) : res spec_float :=
  if zlen samples =? 0 then Ok (float64 0)
  else
    let cp := sort_floats samples in
    if f_leb pc (float64 0) then index_float cp 0
    else if f_leb (float64 100) pc then index_float cp (zlen cp - 1)
    else
      let pos := percentile_pos pc (zlen cp) in
      let lo := f_int pos in
      let hi := lo + 1 in
      if zlen cp <=? hi then index_float cp lo
      else
        let frac := f_sub pos (float64 lo) in
        a ← index_float cp lo;
        b ← index_float cp hi;
        Ok (f_add (f_mul a (f_sub (float64 1) frac)) (f_mul b frac)).

(** ** The caps and the mode *)

Definition tun_updateAdaptiveCapLocked (c : tunController) (now activeFlows : Z) (rttP95 : option spec_float) : tunController :=
  let p := tc_p c in
  let k := caps p in
  let put k := on_policy c (set_permits p k (pendingPermits p)) in
  if negb (bool_decide (configured p = modeAuto)) then put (mkCaps false 0 0 0 (capWindowSec k) 0 0)
  else match rttP95 with
  | None => put (mkCaps (capEnabled k) (capMaxNewPerSec k) (capMaxActiveFlows k) (capOpenedThisSec k) (capWindowSec k) 0 0)
  | Some value =>
      if f_ltb capRTTHighMs value then
        let k := mkCaps (capEnabled k) (capMaxNewPerSec k) (capMaxActiveFlows k) (capOpenedThisSec k) (capWindowSec k) (highRTTTicks k + 1) 0 in
        if negb (capEnabled k) && (capEnableConsecutive <=? highRTTTicks k) then
          let current := activeFlows + pendingPermits p in
          put (mkCaps true capMaxNewFlowsPerSecond (current + capActiveFlowsMargin) 0 (Unix now) (highRTTTicks k) (lowRTTTicks k))
        else put k
      else if f_ltb value capRTTLowMs then
        let k := mkCaps (capEnabled k) (capMaxNewPerSec k) (capMaxActiveFlows k) (capOpenedThisSec k) (capWindowSec k) 0 (lowRTTTicks k + 1) in
        if capEnabled k && (capDisableConsecutive <=? lowRTTTicks k) then put (mkCaps false 0 0 0 (capWindowSec k) (highRTTTicks k) (lowRTTTicks k))
        else put k
      else put (mkCaps (capEnabled k) (capMaxNewPerSec k) (capMaxActiveFlows k) (capOpenedThisSec k) (capWindowSec k) 0 0)
  end.
Definition tun_capSnapshotLocked (c : tunController) : option capState :=
  let k := caps (tc_p c) in
  if negb (capEnabled k) || (capMaxNewPerSec k <=? 0) || (capMaxActiveFlows k <=? 0) then None
  else Some (mkCapState (capMaxNewPerSec k) (capMaxActiveFlows k)).

Definition tun_switchMode (c : tunController) (now : Z) (next : clientMode) : tunController :=
  let p := tc_p c in
  if bool_decide (currentMode p = next) then c
  else
    let '(since, until) := if bool_decide (next = modeSurvival) then (Some now, Some (now + survivalRecoveryMinDelay)) else (survivalSince p, survivalUntil p) in
    on_policy c (set_mode p next (switches p + 1) since until).

Definition tun_parseMode (raw : string) : res clientMode := parseMode raw.
Definition tun_parseStatsFormat (raw : string) : res statsFormat := parseStatsFormat raw.
Definition tun_maxDuration (a b : Z) : Z := if b <? a then a else b.
Definition tun_isExpectedUDPErr (timeout : goerr -> bool) (e : option goerr) : bool := isExpectedUDPErr timeout e.

(** ** The janitor of the UDP flows *)

Inductive janitor_event := JTick (now : Z) | JStop.
(** [janitorLoop]: the world after the events, and whether the loop has returned, which closes [doneCh]. *)
Fixpoint tun_janitorLoop (o : udpOptions) (w : tworld) (evs : list janitor_event) : tworld * bool :=
  match evs with
  | [] => (w, false)
  | JStop :: _ => (w, true)
  | JTick now :: evs => tun_janitorLoop o (expireIdle o w now) evs
  end.

(** ** The network stack *)

(** The options of an accepted endpoint, and the calls that can refuse; the result is not looked at. *)
Record tcpOptions := mkTCPOptions { to_keepAlive : bool; to_count : option Z; to_idle : option Z; to_interval : option Z; to_sendBuf : option Z; to_recvBuf : option Z }.
Definition setSocketOptions (refuse : string -> option goerr) (sendDefault recvDefault : option Z) : tcpOptions * option goerr :=
  let o := mkTCPOptions true None None None None None in
  match refuse "count" with
  | Some e => (o, Some e)
  | None =>
      let o := mkTCPOptions true (Some 9) None None None None in
      match refuse "idle" with
      | Some e => (o, Some e)
      | None =>
          let o := mkTCPOptions true (Some 9) (Some (60 * Second)) None None None in
          match refuse "interval" with
          | Some e => (o, Some e)
          | None => (mkTCPOptions true (Some 9) (Some (60 * Second)) (Some (30 * Second)) sendDefault recvDefault, None)
          end
      end
  end.

(** [buildNetstack] up to the forwarders: one interface that takes every address, one route. *)
Record netstack := mkNetstack { ns_nic : Z; ns_promiscuous : bool; ns_spoofing : bool; ns_routes : list (string * Z); ns_handlers : list string }.
Definition buildNetstack (nic : Z) (createNIC promiscuous spoofing : option goerr) : res netstack :=
  match createNIC with
  | Some e => Err (ENew ("create netstack NIC: " ++ err_text e)%string)
  | None =>
      match promiscuous with
      | Some e => Err (ENew ("set promiscuous mode: " ++ err_text e)%string)
      | None =>
          match spoofing with
          | Some e => Err (ENew ("set spoofing: " ++ err_text e)%string)
          | None => Ok (mkNetstack nic true true [("0.0.0.0/0", nic)] ["tcp"; "udp"])
          end
      end
  end.

(** ** Lemmas *)

Section Slices.
  Context {A : Type} (old : A -> bool).

(** The items before the first one that is not old. *)
Fixpoint keep_new (l : list A) : list A :=
  match l with
  | [] => []
  | x :: tl => if old x then keep_new tl else l
  end.

Lemma compact_drop (l : list A) idx : 0 <= idx <= zlen l -> compact l idx = Ok (zdrop idx l).
Proof.
  intros H. destruct (cut_at idx l H) as (l1 & l2 & -> & E). unfold compact. rewrite <- E, zdrop_app_exact, zlen_app.
  pose proof (zlen_nonneg l1). pose proof (zlen_nonneg l2). unfold copy_into. rewrite zlen_app. zdecide. cbn [andb mbind res_bind].
  rewrite ztake_zero, (ztake_all l2) by lia. cbn [app]. rewrite Z.min_r, Z.add_0_l by lia. unfold slice. rewrite zlen_app, zlen_zdrop, zlen_app by lia. zdecide. cbn [andb].
  rewrite zdrop_zero. replace (zlen l1 + zlen l2 - zlen l1 - 0) with (zlen l2) by lia. by rewrite ztake_app_exact.
Qed.

(** The loop from [idx]: it stops at the bound or at the first item that is not old. *)
Lemma scan_spec (l : list A) bound fuel : forall idx, 0 <= idx <= bound -> bound <= zlen l -> bound - idx <= Z.of_nat fuel ->
  let i := scan old l bound fuel idx in
  idx <= i <= bound /\ (forall k x, idx <= k < i -> l !! Z.to_nat k = Some x -> old x = true)
  /\ (i < bound -> forall x, l !! Z.to_nat i = Some x -> old x = false).
Proof.
  induction fuel as [|n IH]; intros idx Hi Hb Hf; cbn [scan].
  - assert (idx = bound) by lia. split_and!; [lia|lia|intros; lia|lia].
  - destruct (idx <? bound) eqn:E; zbool; cbn [andb]; [|split_and!; [lia|lia|intros; lia|lia]].
    destruct (l !! Z.to_nat idx) as [x|] eqn:Ex; [destruct (old x) eqn:Eo|].
    + destruct (IH (idx + 1)) as ([H1 H2] & H3 & H4); [lia|lia|lia|]. split_and!; [lia|lia| |done]. intros k y Hk Hy.
      destruct (Z.eq_dec k idx) as [->|]; [congruence|]. eapply (H3 k); [lia|done].
    + split_and!; [lia|lia|intros; lia|congruence].
    + split_and!; [lia|lia|intros; lia|congruence].
Qed.
(** Items counted from the front of the list. *)
Lemma scan_keep_new (l : list A) : zdrop (scan old l (zlen l) (length l) 0) l = keep_new l.
Proof.
  pose proof (zlen_nonneg l) as Hn. destruct (scan_spec l (zlen l) (length l) 0) as (H1 & H2 & H3); [lia|lia|unfold zlen; lia|].
  set (i := scan old l (zlen l) (length l) 0) in *. clearbody i. revert i H1 H2 H3 Hn. induction l as [|x l IH]; intros i H1 H2 H3 Hn; [unfold zdrop; by rewrite drop_nil|].
  rewrite zlen_cons in *. pose proof (zlen_nonneg l) as Hl0. cbn [keep_new]. destruct (Z.eq_dec i 0) as [->|Hi].
  - rewrite zdrop_zero. by rewrite (H3 ltac:(lia) x).
  - rewrite (H2 0 x) by (lia || done). replace i with ((i - 1) + 1) by lia. unfold zdrop. rewrite Z2Nat.inj_add by lia. rewrite Nat.add_1_r. cbn [drop].
    change (zdrop (i - 1) l = keep_new l). apply IH; [lia| | |apply zlen_nonneg].
    + intros k y Hk Hy. apply (H2 (k + 1)); [lia|]. rewrite Z2Nat.inj_add by lia. rewrite Nat.add_1_r. done.
    + intros Hl y Hy. apply H3; [lia|]. replace i with ((i - 1) + 1) by lia. rewrite Z2Nat.inj_add by lia. rewrite Nat.add_1_r. done.
Qed.
Lemma scan_range (l : list A) bound : 0 <= bound <= zlen l -> 0 <= scan old l bound (length l) 0 <= bound.
Proof. intros H. destruct (scan_spec l bound (length l) 0) as ([? ?] & _); [lia|lia|unfold zlen in *; lia|]. lia. Qed.
End Slices.

Lemma prune_keep_new (l : list Z) cutoff : pruneTimes l cutoff = keep_new (fun t => t <? cutoff) l.
Proof. induction l as [|t l IH]; [done|]. cbn. by rewrite IH. Qed.
Lemma rtt_keep_new (l : list (Z * spec_float)) cutoff : prune_rtt l cutoff = keep_new (fun s => s.1 <? cutoff) l.
Proof. induction l as [|t l IH]; [done|]. cbn. by rewrite IH. Qed.

(** The test for an empty slice and the test for nothing to drop only save work. *)
Lemma compact_scan {A} (old : A -> bool) (l : list A) :
  (let idx := scan old l (zlen l) (length l) 0 in if idx =? 0 then Ok l else compact l idx) = Ok (keep_new old l).
Proof.
  cbv zeta. pose proof (zlen_nonneg l). pose proof (scan_range old l (zlen l)) as Hr. pose proof (scan_keep_new old l) as Hk. set (idx := scan old l _ _ _) in *.
  destruct (idx =? 0) eqn:E; zbool; [|rewrite compact_drop by lia; by rewrite Hk]. rewrite <- Hk, E. by rewrite zdrop_zero.
Qed.
Lemma zlen_zero_nil {A} (l : list A) : (zlen l =? 0) = true -> l = [].
Proof. intros H. zbool. by apply zlen_zero. Qed.

(** The samples of a flow: the last one always stays. *)
Lemma scan_samples (l : list (Z * Z)) cutoff : l <> [] ->
  zdrop (scan (fun s => s.1 <? cutoff) l (zlen l - 1) (length l) 0) l = prune_samples l cutoff.
Proof.
  intros Hne. pose proof (nonempty_pos l Hne) as Hp.
  destruct (scan_spec (fun s : Z * Z => s.1 <? cutoff) l (zlen l - 1) (length l) 0) as (H1 & H2 & H3); [lia|lia|unfold zlen; lia|].
  set (i := scan _ l (zlen l - 1) (length l) 0) in *. clearbody i. revert i H1 H2 H3 Hne Hp. induction l as [|x l IH]; intros i H1 H2 H3 Hne Hp; [done|].
  rewrite zlen_cons in *. cbn [prune_samples]. destruct l as [|y l]; [assert (i = 0) as -> by (change (zlen (@nil (Z * Z))) with 0 in *; lia); by rewrite zdrop_zero|].
  pose proof (zlen_nonneg l) as Hl0. rewrite zlen_cons in *. destruct (Z.eq_dec i 0) as [->|Hi].
  - rewrite zdrop_zero. by rewrite (H3 ltac:(lia) x).
  - rewrite (H2 0 x) by (lia || done). replace i with ((i - 1) + 1) by lia. unfold zdrop. rewrite Z2Nat.inj_add by lia. rewrite Nat.add_1_r. cbn [drop].
    change (zdrop (i - 1) (y :: l) = prune_samples (y :: l) cutoff). apply IH; rewrite ?zlen_cons; [lia| | |done|lia].
    + intros k z Hk Hy. apply (H2 (k + 1)); [lia|]. rewrite Z2Nat.inj_add by lia. rewrite Nat.add_1_r. done.
    + intros Hl z Hy. apply H3; [lia|]. replace i with ((i - 1) + 1) by lia. rewrite Z2Nat.inj_add by lia. rewrite Nat.add_1_r. done.
Qed.

Lemma prune_rtt_eq c cutoff : tun_pruneRTTSamplesLocked c cutoff = Ok (on_policy c (pruneRTTSamplesLocked (tc_p c) cutoff)).
Proof.
  unfold tun_pruneRTTSamplesLocked, pruneRTTSamplesLocked. destruct (zlen (rttSamples (tc_p c)) =? 0) eqn:E.
  { apply zlen_zero_nil in E. destruct c as [[] ? ? ?]. cbn in *. by subst. }
  pose proof (compact_scan (fun s : Z * spec_float => s.1 <? cutoff) (rttSamples (tc_p c))) as H. cbv zeta in *. rewrite rtt_keep_new.
  case_on; [injection H as H; rewrite <- H; by destruct c as [[] ? ? ?]|]. rewrite H. done.
Qed.
Lemma window_filter from samples out : window from samples out = out ++ map snd (List.filter (fun s => negb (s.1 <? from)) samples).
Proof.
  revert out. induction samples as [|s tl IH]; intros out; cbn [window List.filter map]; [by rewrite app_nil_r|]. destruct (s.1 <? from); cbn [negb]; rewrite IH; [done|]. by rewrite <- app_assoc.
Qed.
Lemma last_lookup_zlen {A} (l : list A) : l <> [] -> l !! Z.to_nat (zlen l - 1) = last l.
Proof. intros H. rewrite last_lookup. f_equal. unfold zlen. destruct l; [done|]. cbn [length]. lia. Qed.

Lemma avg_eq f now : tun_avgDownrateMbps f now = Ok (avgDownrateMbps f now).
Proof.
  unfold tun_avgDownrateMbps, avgDownrateMbps. cbv zeta. set (l := downSamples f ++ [(now, fs_downBytes f)]). assert (Hne : l <> []) by by destruct (downSamples f).
  pose proof (scan_samples l (now - fastDownrateWindow) Hne) as Hs. pose proof (nonempty_pos l Hne) as Hp.
  pose proof (scan_range (fun s : Z * Z => s.1 <? now - fastDownrateWindow) l (zlen l - 1) ltac:(lia)) as Hr. set (idx := scan _ l (zlen l - 1) (length l) 0) in *.
  assert (E : (if 0 <? idx then compact l idx else Ok l) = Ok (prune_samples l (now - fastDownrateWindow))).
  { rewrite <- Hs. case_on; zbool; [apply compact_drop; lia|]. assert (idx = 0) as -> by lia. by rewrite zdrop_zero. }
  rewrite E. cbn [mbind res_bind]. clear -f. generalize (prune_samples l (now - fastDownrateWindow)) as q. intros q. unfold set_samples.
  destruct q as [|a [|b q]]; [done|done|]. assert (zlen (a :: b :: q) <? 2 = false) as -> by (rewrite !zlen_cons; pose proof (zlen_nonneg q); apply Z.ltb_ge; lia).
  rewrite last_lookup_zlen by done. cbn [lookup list_lookup]. destruct (last (a :: b :: q)) as [lst|] eqn:El; [|by apply last_None in El].
  unfold tun_bytesToMbps. by repeat case_on.
Qed.

(** ** Theorems *)


Lemma sort_floats_zlen l : zlen (sort_floats l) = zlen l.
Proof.
  assert (Hi : forall x k, zlen (insert_float x k) = 1 + zlen k).
  { intros x k. induction k as [|y k IH]; cbn [insert_float]; [done|]. destruct (f_ltb y x); rewrite !zlen_cons; [rewrite IH|]; lia. }
  induction l as [|x l IH]; [done|]. cbn [sort_floats foldr]. change (foldr insert_float [] l) with (sort_floats l). rewrite Hi, zlen_cons, IH. done.
Qed.
Lemma index_float_ok cp i : 0 <= i < zlen cp -> index_float cp i = Ok (nth (Z.to_nat i) cp (float64 0)).
Proof.
  intros H. unfold index_float. zdecide. cbn [andb]. rewrite nth_lookup. destruct (cp !! Z.to_nat i) as [x|] eqn:E; [done|]. apply lookup_ge_None in E. unfold zlen in H. lia.
Qed.
(** The lower index of the percentiles that are reported is within the window, for windows of up to
    two thousand samples. *)
Definition max_window : Z := 2000.
Lemma percentile_index_ok : forallb (fun n => forallb (fun pc => let lo := f_int (percentile_pos (float64 pc) (Z.of_nat n)) in (0 <=? lo) && (lo <? Z.of_nat n)) [50; 95]) (seq 1 (Z.to_nat max_window)) = true.
Proof. vm_compute. reflexivity. Qed.

(** The percentiles of the statistics, 50 and 95, never index out of range and are those of the
    other client's policy, for windows of up to two thousand samples; the order of the samples
    does not matter beyond their sorted order. *)
Theorem tun_percentile_total samples pc :
  pc = 50 \/ pc = 95 -> zlen samples <= max_window -> tun_percentile samples (float64 pc) = Ok (percentile samples (float64 pc)).
Proof.
  intros Hpc Hn. unfold tun_percentile, percentile. cbv zeta. destruct (zlen samples =? 0) eqn:E0; [done|]. zbool. pose proof (zlen_nonneg samples) as Hp.
  assert (Hf : f_leb (float64 pc) (float64 0) = false /\ f_leb (float64 100) (float64 pc) = false) by (destruct Hpc as [-> | ->]; by vm_compute). destruct Hf as [-> ->].
  pose proof percentile_index_ok as Hall. rewrite forallb_forall in Hall. specialize (Hall (Z.to_nat (zlen samples))).
  rewrite in_seq, Z2Nat.id in Hall by lia. specialize (Hall ltac:(lia)). rewrite forallb_forall in Hall. specialize (Hall pc ltac:(cbn; destruct Hpc as [-> | ->]; tauto)). zbool.
  unfold percentile_pos in *. rewrite !sort_floats_zlen. set (pos := f_mul (f_div (float64 pc) (float64 100)) (float64 (zlen samples - 1))) in *.
  case_on; zbool; [by rewrite index_float_ok by (rewrite sort_floats_zlen; lia)|].
  rewrite !index_float_ok by (rewrite sort_floats_zlen; lia). done.
Qed.

(** The janitor stops for good: what comes after the stop has no effect, and until then it expires
    the flows at every tick. *)
Theorem tun_janitor_stops o w ticks evs :
  tun_janitorLoop o w (map JTick ticks ++ JStop :: evs) = (foldl (expireIdle o) w ticks, true)
  /\ tun_janitorLoop o w (map JTick ticks) = (foldl (expireIdle o) w ticks, false).
Proof. revert w. induction ticks as [|t ticks IH]; intros w; [done|]. cbn. apply IH. Qed.

Lemma tun_percentile_total_witness : tun_percentile (map float64 [300; 100; 200; 400]) (float64 95) = Ok (percentile (map float64 [300; 100; 200; 400]) (float64 95)).
Proof. apply (tun_percentile_total (map float64 [300; 100; 200; 400]) 95); [right; reflexivity|vm_compute; discriminate]. Defined.
