(* ===== verification/TunRefs.v ===== *)
(** * The TUN client: the accounting of clients and flows ([cmd/tun_client/main_windows.go])

    What the goroutines of the file TunConn do to the pool together. In the calm runs the count of
    every pooled client is the number of jobs that use it, every client a job uses is open, no other
    client is, and nothing is left over when the jobs are done. The last sections show what the two
    races that calm runs exclude lead to. *)

From S2P Require Import Prelude Ownership GoString ClientConfig Client SocksPolicy SocksConn SocksUDP TunPool TunConn.

(** ** The pool and its users *)

Definition uses (key : string) (j : job) : bool := bool_decide (jb_key j = key).

(** A job uses the client that is pooled under its key. *)
Definition user_ok (c : tunController) (j : job) : Prop :=
  jb_key j <> ""%string -> exists mc, tc_clients c !! jb_key j = Some mc /\ mc_client mc = jb_client j.

Record counted (c : tunController) (jobs : gmap Z job) : Prop := mkCounted {
  cn_pool : pool_inv c;
  cn_refs : forall key mc, tc_clients c !! key = Some mc -> refCount mc = how_many (uses key) jobs;
  cn_users : forall id j, jobs !! id = Some j -> user_ok c j;
  cn_open : tc_open c = pooled c;
  cn_empty : tc_clients c !! ""%string = None }.

Section Counted.
  Context (c : tunController) (jobs : gmap Z job) (Hc : counted c jobs).

(** A job that uses what it used, or a new one that uses nothing. *)
Lemma counted_keep id j j' : jobs !! id = Some j -> jb_key j' = jb_key j -> jb_client j' = jb_client j -> counted c (<[id := j']> jobs).
Proof.
  intros Hj Hk Hcl. destruct Hc as [C1 C2 C3 C4 C5]. split; try done.
  - intros key mc Hm. rewrite (how_many_update _ _ _ _ _ Hj). unfold uses. rewrite Hk. rewrite (C2 _ _ Hm). unfold uses. case_on; lia.
  - intros i k Hi. apply lookup_insert_Some in Hi as [[<- <-]|[_ Hi]]; [|eauto]. unfold user_ok. rewrite Hk, Hcl. apply (C3 _ _ Hj).
Qed.
Lemma counted_new id j : jobs !! id = None -> jb_key j = ""%string -> counted c (<[id := j]> jobs).
Proof.
  intros Hj Hk. destruct Hc as [C1 C2 C3 C4 C5]. split; try done.
  - intros key mc Hm. rewrite how_many_new by done. unfold uses at 2. rewrite bool_decide_eq_false_2; [rewrite (C2 _ _ Hm); lia|]. rewrite Hk. intros <-. congruence.
  - intros i k Hi. apply lookup_insert_Some in Hi as [[<- <-]|[_ Hi]]; [|eauto]. by intros ?.
Qed.
(** An entry changes its count, its mark or its time. *)
Lemma counted_update key mc mc' jobs' :
  tc_clients c !! key = Some mc -> mc_client mc' = mc_client mc -> (broken mc' = true -> 0 < refCount mc') ->
  refCount mc' = how_many (uses key) jobs' -> (forall k, k <> key -> k <> ""%string -> how_many (uses k) jobs' = how_many (uses k) jobs) ->
  (forall id j, jobs' !! id = Some j -> user_ok (with_clients c (<[key := mc']> (tc_clients c)) (tc_open c)) j) ->
  counted (with_clients c (<[key := mc']> (tc_clients c)) (tc_open c)) jobs'.
Proof.
  intros Hm Hcl Hb Hr Hk Hu. destruct Hc as [C1 C2 C3 C4 C5].
  assert (Hne : key <> ""%string) by (intros ->; congruence). split; try done.
  - eapply pool_inv_update; try done. rewrite Hr. apply how_many_nonneg.
  - intros k m Hl. cbn in Hl. apply lookup_insert_Some in Hl as [[<- <-]|[Hn Hl]]; [done|]. rewrite Hk; [eauto|done|]. intros ->. congruence.
  - by erewrite pooled_update.
  - cbn. by rewrite lookup_insert_ne.
Qed.
Lemma user_ok_insert key mc mc' open j :
  tc_clients c !! key = Some mc -> mc_client mc' = mc_client mc -> user_ok c j -> user_ok (with_clients c (<[key := mc']> (tc_clients c)) open) j.
Proof.
  intros Hm Hcl Hu Hne. destruct (Hu Hne) as (m & Hl & E). cbn. destruct (decide (jb_key j = key)) as [Ek|Hn].
  - exists mc'. rewrite Ek, lookup_insert_eq. split; [done|]. rewrite Ek in Hl. congruence.
  - exists m. by rewrite lookup_insert_ne.
Qed.
(** A job takes a client of the pool. *)
Lemma counted_use id j j' key mc now :
  jobs !! id = Some j -> jb_key j = ""%string -> usable c key = Some mc -> jb_key j' = key -> jb_client j' = mc_client mc ->
  counted (use c key mc now) (<[id := j']> jobs).
Proof.
  intros Hj Hk [Hm Hb]%usable_Some Hk' Hcl. assert (Hne : key <> ""%string) by (intros ->; rewrite (cn_empty _ _ Hc) in Hm; congruence).
  apply counted_update with (mc := mc); try done; cbn.
  - rewrite Hb. done.
  - rewrite (how_many_update _ _ _ _ _ Hj), (cn_refs _ _ Hc _ _ Hm). unfold uses at 3 4. rewrite Hk, Hk'. rewrite bool_decide_eq_true_2, bool_decide_eq_false_2 by done. lia.
  - intros k Hn He. rewrite (how_many_update _ _ _ _ _ Hj). unfold uses at 2 3. rewrite Hk, Hk'. rewrite !bool_decide_eq_false_2 by done. lia.
  - intros i k Hi. apply lookup_insert_Some in Hi as [[<- <-]|[_ Hi]].
    + intros _. cbn. rewrite Hk', lookup_insert_eq. by eexists.
    + by eapply user_ok_insert; [| |apply (cn_users _ _ Hc _ _ Hi)].
Qed.
(** A job puts a new client into the pool, under a key that has none. *)
Lemma counted_insert id j j' key client t now :
  jobs !! id = Some j -> jb_key j = ""%string -> tc_clients c !! key = None -> key <> ""%string -> client ∉ tc_open c -> jb_key j' = key -> jb_client j' = client ->
  counted (with_clients c (<[key := mkMC client t 1 false now]> (tc_clients c)) ({[client]} ∪ tc_open c)) (<[id := j']> jobs).
Proof.
  intros Hj Hk Hm Hne Hcl Hk' Hc'. destruct Hc as [C1 C2 C3 C4 C5]. split.
  - pose proof (pool_inv_dialed c key now client t C1 Hcl) as Hp. unfold acquire_dialed, usable in Hp. by rewrite Hm in Hp.
  - intros k m Hl. cbn in Hl. rewrite (how_many_update _ _ _ _ _ Hj). unfold uses at 2 3. rewrite Hk, Hk'. apply lookup_insert_Some in Hl as [[<- <-]|[Hn Hl]]; cbn.
    + rewrite bool_decide_eq_true_2, bool_decide_eq_false_2 by done. rewrite how_many_zero; [done|]. intros i x Hi. unfold uses. apply bool_decide_eq_false_2. intros E.
      destruct (C3 _ _ Hi) as (m & Hl & _); congruence.
    + rewrite !bool_decide_eq_false_2 by (try done; intros <-; congruence). rewrite (C2 _ _ Hl). lia.
  - intros i x Hi. apply lookup_insert_Some in Hi as [[<- <-]|[_ Hi]]; intros Hx; cbn.
    + rewrite Hk', lookup_insert_eq. by eexists.
    + destruct (C3 _ _ Hi Hx) as (m & Hl & E). exists m. rewrite lookup_insert_ne; [done|]. intros E2. congruence.
  - cbn. rewrite C4. apply set_eq. intros x. rewrite elem_of_union, elem_of_singleton, !elem_of_pooled. cbn. split.
    + intros [->|(k & m & Hl & <-)]; [exists key; eexists; by rewrite lookup_insert_eq|]. exists k, m. rewrite lookup_insert_ne; [done|]. intros <-. congruence.
    + intros (k & m & Hl & <-). apply lookup_insert_Some in Hl as [[<- <-]|[_ Hl]]; [by left|right; eauto].
  - cbn. by rewrite lookup_insert_ne.
Qed.
(** A job gives its client back. *)
Lemma counted_release id j j' key :
  jobs !! id = Some j -> jb_key j = key -> key <> ""%string -> jb_key j' = ""%string -> counted (releaseClient c key) (<[id := j']> jobs).
Proof.
  intros Hj Hk Hne Hk'. destruct (cn_users _ _ Hc _ _ Hj) as (mc & Hm & Hcl); [congruence|]. rewrite Hk in Hm.
  assert (Hpos : 1 <= refCount mc) by (rewrite (cn_refs _ _ Hc _ _ Hm); eapply how_many_pos; [done|]; unfold uses; by apply bool_decide_eq_true_2).
  assert (Hn : refCount mc - 1 = how_many (uses key) (<[id := j']> jobs)).
  { rewrite (how_many_update _ _ _ _ _ Hj), (cn_refs _ _ Hc _ _ Hm). unfold uses at 3 4. rewrite Hk, Hk'. rewrite bool_decide_eq_false_2, bool_decide_eq_true_2 by done. lia. }
  assert (Ho : forall k, k <> key -> k <> ""%string -> how_many (uses k) (<[id := j']> jobs) = how_many (uses k) jobs).
  { intros k H1 H2. rewrite (how_many_update _ _ _ _ _ Hj). unfold uses at 2 3. rewrite Hk, Hk'. rewrite !bool_decide_eq_false_2 by done. lia. }
  unfold releaseClient. rewrite (proj2 (String.eqb_neq _ _)) by done. rewrite Hm. rewrite (proj2 (Z.ltb_lt _ _)) by lia. cbn zeta.
  destruct ((refCount mc - 1 =? 0) && broken mc) eqn:E.
  - apply andb_true_iff in E as [E _]. zbool. destruct Hc as [C1 C2 C3 C4 C5]. split; cbn.
    + by apply pool_inv_remove.
    + intros k m [Hnk Hl]%lookup_delete_Some. rewrite Ho; [eauto|done|]. intros ->. congruence.
    + intros i x Hi. apply lookup_insert_Some in Hi as [[<- <-]|[Hni Hi]]; [by intros ?|]. intros Hx. destruct (C3 _ _ Hi Hx) as (m & Hl & Ex). exists m. cbn.
      rewrite lookup_delete_ne; [done|]. intros Ek. rewrite E in Hn. assert (1 <= how_many (uses key) (<[id := j']> jobs)); [|lia].
      eapply how_many_pos; [rewrite lookup_insert_ne by done; exact Hi|]. unfold uses. by apply bool_decide_eq_true_2.
    + rewrite C4. apply set_eq. intros x. rewrite elem_of_difference, elem_of_singleton, !elem_of_pooled. cbn. split.
      * intros [(k & m & Hl & <-) Hx]. exists k, m. rewrite lookup_delete_ne; [done|]. intros <-. congruence.
      * intros (k & m & [Hnk Hl]%lookup_delete_Some & <-). split; [eauto|]. intros Ex. by apply Hnk, (pl_inj _ C1 _ _ _ _ Hm Hl).
    + apply lookup_delete_None. by right.
  - apply counted_update with (mc := mc); try done; cbn.
    + intros Hb. rewrite Hb, andb_true_r in E. zbool. lia.
    + intros i x Hi. apply lookup_insert_Some in Hi as [[<- <-]|[_ Hi]]; [by intros ?|]. by eapply user_ok_insert; [| |apply (cn_users _ _ Hc _ _ Hi)].
Qed.
(** A job has its client marked. *)
Lemma counted_bad id j e : jobs !! id = Some j -> counted (markClientBad c (jb_key j) e) jobs.
Proof.
  intros Hj. unfold markClientBad. destruct (String.eqb (jb_key j) "") eqn:Ek; cbn [orb]; [done|]. apply String.eqb_neq in Ek. case_on; [done|].
  destruct (tc_clients c !! jb_key j) as [mc|] eqn:Hm; [|done]. destruct (broken mc) eqn:Eb; [done|].
  assert (Hpos : 1 <= refCount mc) by (rewrite (cn_refs _ _ Hc _ _ Hm); eapply how_many_pos; [done|]; unfold uses; by apply bool_decide_eq_true_2).
  rewrite (proj2 (Z.eqb_neq _ _)) by lia. apply counted_update with (mc := mc); try done; cbn; [lia|by apply (cn_refs _ _ Hc)|].
  intros i x Hi. by eapply user_ok_insert; [| |apply (cn_users _ _ Hc _ _ Hi)].
Qed.
Lemma counted_policy c' : tc_clients c' = tc_clients c -> tc_open c' = tc_open c -> counted c' jobs.
Proof.
  intros H1 H2. destruct Hc as [[C1a C1b] C2 C3 C4 C5]. split; unfold user_ok, pooled in *; rewrite ?H1, ?H2; try done. split; unfold entry_ok in *; rewrite ?H1, ?H2; done.
Qed.
End Counted.

(** ** The calm runs *)

(** A job has a client from the lookup or the dial on until it is released, and it is not closed
    while it is set up. *)
Definition calm_stage (j : job) : Prop :=
  match jb_stage j with
  | TStart | TAdmit | TConfig | TLookup _ _ _ | TDial _ _ _ _ => jb_key j = ""%string /\ jb_close j = CNone
  | TOpen key cl _ _ => (jb_key j = key /\ key <> ""%string /\ jb_client j = cl) /\ jb_close j = CNone
  | TRelease key => (jb_key j = key /\ key <> ""%string) /\ jb_close j = CNone
  | TRun _ => jb_close j = CNone -> is_Some (jb_ref j)
  | TFallback | TEnd => jb_key j = ""%string /\ jb_ref j = None /\ jb_flow j = None
  | TUnregister => True
  | TClose => True
  end.
Definition calm_close (j : job) : Prop :=
  match jb_close j with
  | CNone => setting_up j = false -> jb_ref j = None -> jb_key j = ""%string /\ jb_flow j = None
  | CUnregister _ => jb_flow j = None
  | CRelease key => jb_key j = key /\ key <> ""%string /\ jb_ref j = None /\ jb_flow j = None
  | CRemove | CDone => jb_key j = ""%string /\ jb_ref j = None /\ jb_flow j = None
  end.
Definition calm_job (c : tunController) (j : job) : Prop :=
  calm_stage j /\ calm_close j /\ forall fid, jb_ref j = Some fid -> tc_keys c !! fid = Some (jb_key j) /\ jb_key j <> ""%string.

Record calm_inv (w : tworld) : Prop := mkCalm {
  cm_counted : counted (tw_c w) (tw_jobs w);
  cm_jobs : forall id j, tw_jobs w !! id = Some j -> calm_job (tw_c w) j }.

Lemma calm_job_keys c c' j : tc_keys c' = tc_keys c -> calm_job c j -> calm_job c' j.
Proof. unfold calm_job. by intros ->. Qed.

(** One job changes, and the keys of the flows do not. *)
Lemma calm_put w id j' c fls m :
  calm_inv w -> counted c (<[id := j']> (tw_jobs w)) -> tc_keys c = tc_keys (tw_c w) -> calm_job c j' ->
  calm_inv (mkTW c fls (<[id := j']> (tw_jobs w)) m).
Proof.
  intros [_ H2] Hc Hk Hj. split; [done|]. cbn. intros i k Hi. apply lookup_insert_Some in Hi as [[<- <-]|[_ Hi]]; [done|]. by eapply calm_job_keys; [|eauto].
Qed.

Lemma abandon_calm c j :
  calm_job c j -> jb_key j = ""%string -> jb_ref j = None -> jb_flow j = None -> jb_close j = CNone ->
  calm_job c (abandon j) /\ calm_job c (return_job j) /\ jb_key (abandon j) = jb_key j /\ jb_client (abandon j) = jb_client j
  /\ jb_key (return_job j) = jb_key j /\ jb_client (return_job j) = jb_client j.
Proof.
  intros (_ & _ & H3) Hk Hr Hf Hc. unfold abandon, return_job, goto, calm_job, calm_stage, calm_close in *.
  destruct (jb_kind j) as [|nt|]; [|destruct (nt_dstPort nt =? 53)|]; cbn; rewrite ?Hk, ?Hr, ?Hf, ?Hc in *; by split_and!.
Qed.

(** A job without a client that has nothing open either. *)
Lemma calm_nothing w id j : calm_inv w -> (forall i k, tw_jobs w !! i = Some k -> job_shape k) -> tw_jobs w !! id = Some j ->
  match jb_stage j with TStart | TAdmit | TConfig | TLookup _ _ _ | TDial _ _ _ _ => True | _ => False end ->
  jb_key j = ""%string /\ jb_close j = CNone /\ jb_flow j = None /\ jb_ref j = None.
Proof.
  intros [_ H2] Hsh Hj Hs. destruct (H2 _ _ Hj) as (Hst & _). destruct (Hsh _ _ Hj) as (S1 & _). unfold calm_stage in Hst. unfold setting_up in S1.
  destruct (jb_stage j); try done; destruct Hst, S1; done.
Qed.
(** A job in an early stage moves to another one. *)
Lemma calm_early c j st :
  jb_key j = ""%string -> jb_close j = CNone -> jb_flow j = None -> jb_ref j = None ->
  match st with TAdmit | TConfig | TLookup _ _ _ | TDial _ _ _ _ => True | _ => False end -> calm_job c (goto j st).
Proof. intros Hk Hc Hf Hr Hs. unfold calm_job, calm_stage, calm_close. cbn. rewrite Hk, Hc, Hf, Hr. by destruct st. Qed.
(** A job has got a client. *)
Lemma calm_open c j key cl t start :
  jb_close j = CNone -> jb_flow j = None -> jb_ref j = None -> key <> ""%string -> calm_job c (hold_client j key cl (TOpen key cl t start)).
Proof. intros Hc Hf Hr Hk. unfold calm_job, calm_stage, calm_close. cbn. rewrite Hc, Hf, Hr. by split_and!. Qed.

Lemma key_nonempty cfg : clientConfigKey cfg <> ""%string.
Proof. unfold clientConfigKey. cbn [String.concat]. by destruct (ToLower (TrimSpace (GatewayHost cfg))). Qed.

Section CalmSteps.
  Context (w : tworld) (Hi : calm_inv w) (Hsh : forall i k, tw_jobs w !! i = Some k -> job_shape k).
  Context (id : Z) (j : job) (Hj : tw_jobs w !! id = Some j).

Lemma calm_start now : jb_stage j = TStart -> calm_inv (job_start w id now j).
Proof.
  intros Hs. destruct (calm_nothing w id j Hi Hsh Hj) as (Hk & Hc & Hf & Hr); [by rewrite Hs|]. pose proof Hi as [H1 H2].
  destruct (abandon_calm (tw_c w) j (H2 _ _ Hj) Hk Hr Hf Hc) as (G1 & _ & G3 & G4 & _). unfold job_start, put_job.
  apply calm_put; [done| |done|case_on; [done|by apply calm_early]]. eapply counted_keep; eauto; by case_on.
Qed.
Lemma calm_admit now expired : jb_stage j = TAdmit -> calm_inv (job_admit w id now expired j).
Proof.
  intros Hs. destruct (calm_nothing w id j Hi Hsh Hj) as (Hk & Hc & Hf & Hr); [by rewrite Hs|]. pose proof Hi as [H1 H2].
  destruct (abandon_calm (tw_c w) j (H2 _ _ Hj) Hk Hr Hf Hc) as (_ & G2 & _ & _ & G5 & G6). unfold job_admit, put_job, tun_acquireFlowPermit.
  destruct (acquireFlowPermit (tc_p (tw_c w)) now) as [p ok]. apply calm_put; [done| |done|].
  - eapply counted_policy; [eapply counted_keep; eauto; by repeat case_on|done..].
  - apply (calm_job_keys (tw_c w)); [done|]. destruct ok; [by apply calm_early|]. destruct expired; [done|by apply (H2 id)].
Qed.
Lemma calm_config now : jb_stage j = TConfig -> calm_inv (job_config w id now j).
Proof.
  intros Hs. destruct (calm_nothing w id j Hi Hsh Hj) as (Hk & Hc & Hf & Hr); [by rewrite Hs|]. pose proof Hi as [H1 H2].
  unfold job_config, put_job. destruct (match jb_kind j with JUDP _ => _ | _ => _ end). apply calm_put; [done|by eapply counted_keep|done|by apply calm_early].
Qed.
Lemma calm_lookup now : calm_inv (job_lookup w id now j).
Proof.
  unfold job_lookup. destruct (jb_stage j) as [| | |cfg mode start| | | | | | | |] eqn:Hs; try done.
  destruct (calm_nothing w id j Hi Hsh Hj) as (Hk & Hc & Hf & Hr); [by rewrite Hs|]. pose proof Hi as [H1 H2].
  unfold acquire_lookup, put_job. destruct (usable (tw_c w) (clientConfigKey cfg)) as [mc|] eqn:Eu.
  - apply calm_put; [done|by eapply counted_use|done|]. apply calm_open; try done. apply key_nonempty.
  - apply calm_put; [done|by eapply counted_keep|done|by apply calm_early].
Qed.
Lemma calm_dialed now now' res :
  (forall cl t, res = inl (cl, t) -> cl ∉ tc_open (tw_c w)) -> (is_inl res = true -> ~ replaces w j) -> calm_inv (job_dialed w id now now' res j).
Proof.
  intros Hres Hrep. unfold job_dialed, replaces in *. destruct (jb_stage j) as [| | | |cfg mode start n0| | | | | | |] eqn:Hs; try done.
  destruct (calm_nothing w id j Hi Hsh Hj) as (Hk & Hc & Hf & Hr); [by rewrite Hs|]. pose proof Hi as [H1 H2]. destruct res as [[cl t]|de].
  - specialize (Hres cl t eq_refl). specialize (Hrep eq_refl). unfold acquire_dialed, put_job. pose proof (key_nonempty cfg) as Hne. destruct (usable (tw_c w) (clientConfigKey cfg)) as [mc|] eqn:Eu.
    + apply calm_put; [done|by eapply counted_use|done|by apply calm_open].
    + assert (Hn : tc_clients (tw_c w) !! clientConfigKey cfg = None).
      { unfold usable in Eu. destruct (tc_clients (tw_c w) !! clientConfigKey cfg) as [mc|] eqn:El; [|done]. destruct (broken mc) eqn:Eb; [|done]. exfalso. eauto. }
      apply calm_put; [done| |done|by apply calm_open]. eapply counted_policy; [by eapply counted_insert|done..].
  - destruct (abandon_calm (tw_c w) j (H2 _ _ Hj) Hk Hr Hf Hc) as (G1 & _ & G3 & G4 & _).
    destruct (jb_kind j); (apply (calm_put w); [done|eapply counted_policy; [by eapply counted_keep|done..]|done|by apply (calm_job_keys (tw_c w))]).
Qed.

(** The failures that are recorded leave the pool counted. *)
Lemma counted_error c jobs now e : counted c jobs -> jobs !! id = Some j -> counted (markClientBad (tun_onTransportError c now) (jb_key j) e) jobs.
Proof. intros Hc Hj'. eapply counted_bad; [|done]. by eapply counted_policy. Qed.
Lemma error_keys c now key e : tc_keys (markClientBad (tun_onTransportError c now) key e) = tc_keys c.
Proof. by destruct (only_pool_bad (tun_onTransportError c now) key e) as [_ ->]. Qed.

Lemma calm_opened now now' res :
  nextFlowID (tc_p (tw_c w)) + 1 < 2 ^ 64 -> 0 <= nextFlowID (tc_p (tw_c w)) -> owned jb_ref (tw_jobs w) (dom (flows (tc_p (tw_c w)))) ->
  (forall f, f ∈ dom (flows (tc_p (tw_c w))) -> f <= nextFlowID (tc_p (tw_c w))) -> calm_inv (job_opened w id now now' res j).
Proof.
  intros Hn Hn0 Ho Hle. unfold job_opened. destruct (jb_stage j) as [| | | | |key cl t start| | | | | |] eqn:Hs; try done.
  pose proof Hi as [H1 H2]. destruct (H2 _ _ Hj) as (Hst & _). unfold calm_stage in Hst. rewrite Hs in Hst. destruct Hst as [(Hk & Hne & Hcl) Hc].
  destruct (Hsh _ _ Hj) as (S1 & _). destruct S1 as [Hf Hr]; [unfold setting_up; by rewrite Hs|]. destruct res as [f|e].
  - rewrite registerFlow_parts. unfold registerFlow. rewrite (u64_small (nextFlowID (tc_p (tw_c w)) + 1)) by (unfold is_u64; lia). set (fid := nextFlowID (tc_p (tw_c w)) + 1). split; cbn.
    + eapply counted_policy; [by eapply counted_keep|done..].
    + intros i k Hik. apply lookup_insert_Some in Hik as [[<- <-]|[Hni Hik]].
      * unfold calm_job, calm_stage, calm_close. cbn. rewrite Hc. split_and!; try done. intros f' [= <-]. rewrite lookup_insert_eq. split; congruence.
      * destruct (H2 _ _ Hik) as (K1 & K2 & K3). split_and!; try done. intros f' Ef. cbn. rewrite lookup_insert_ne; [by apply K3|].
        intros <-. assert (fid ∈ dom (flows (tc_p (tw_c w)))) as Hin%Hle by (eapply owned_in; eauto). unfold fid in Hin. lia.
  - subst key. assert (Hjob : calm_job (markClientBad (tun_onTransportError (tun_releaseFlowPermit (tw_c w)) now) (jb_key j) (Some e)) (goto j (TRelease (jb_key j)))).
    { unfold calm_job, calm_stage, calm_close. cbn. rewrite Hc, Hr. by split_and!. }
    destruct (jb_kind j); (apply (calm_put w); [done| |by rewrite error_keys|done]); (eapply counted_keep; try done; apply counted_error; [by eapply counted_policy|done]).
Qed.

(** While the flow is open, and when it ends. *)
Lemma calm_first e : calm_inv (job_first w id e j).
Proof.
  unfold job_first, put_job. destruct (jb_kind j) eqn:Ek; try done. destruct (jb_stage j) as [| | | | | |[|]| | | | |] eqn:Hs; try done. pose proof Hi as [H1 H2].
  destruct (H2 _ _ Hj) as (K1 & K2 & K3). apply calm_put; [done|by eapply counted_keep|done|]. unfold calm_job, calm_stage, calm_close in *. rewrite Hs in K1. cbn in *.
  split_and!; try done. destruct (jb_close j); try done; [|naive_solver..]. intros _ Hn. destruct K1 as [? E]; congruence.
Qed.
Lemma counted_pipe c now e : counted c (tw_jobs w) -> counted (pipe_error c now (jb_key j) e) (tw_jobs w) /\ tc_keys (pipe_error c now (jb_key j) e) = tc_keys c.
Proof. intros Hc. unfold pipe_error. case_on; [done|]. split; [by apply counted_error|apply error_keys]. Qed.
Lemma calm_second now e : calm_inv (job_second w id now e j).
Proof.
  unfold job_second, put_job. destruct (jb_kind j) eqn:Ek; try done. destruct (jb_stage j) as [| | | | | |[first|]| | | | |] eqn:Hs; try done. pose proof Hi as [H1 H2].
  destruct (H2 _ _ Hj) as (K1 & K2 & K3). destruct (counted_pipe (tw_c w) now first H1) as [P1 P2]. destruct (counted_pipe _ now e P1) as [Q1 Q2]. rewrite P2 in Q2.
  apply calm_put; [done|by eapply counted_keep|done|]. apply (calm_job_keys (tw_c w)); [done|]. unfold calm_job, calm_stage, calm_close, setting_up in *. rewrite Hs in *. cbn in *. done.
Qed.
Lemma calm_exchanged now err : calm_inv (job_exchanged w id now err j).
Proof.
  unfold job_exchanged, put_job. destruct (jb_kind j) eqn:Ek; try done. destruct (jb_stage j) as [| | | | | |[|]| | | | |] eqn:Hs; try done. pose proof Hi as [H1 H2].
  destruct (H2 _ _ Hj) as (K1 & K2 & K3). set (c := match err with Some e => _ | None => _ end).
  assert (Hc : counted c (tw_jobs w) /\ tc_keys c = tc_keys (tw_c w)) by (unfold c; destruct err; [split; [by apply counted_error|apply error_keys]|done]). destruct Hc as [C1 C2].
  apply calm_put; [done|by eapply counted_keep|done|]. apply (calm_job_keys (tw_c w)); [done|].
  unfold calm_job, calm_stage, calm_close, setting_up in *. rewrite Hs in *. cbn in *. split_and!; try done. destruct (jb_close j); try done; [|naive_solver..]. intros _ Hn. destruct K1 as [? E]; congruence.
Qed.
Lemma calm_pumped timeout now e : calm_inv (job_pumped timeout w id now e j).
Proof.
  unfold job_pumped, put_job. destruct (jb_kind j) eqn:Ek; try done. destruct (jb_stage j) as [| | | | | |[|]| | | | |] eqn:Hs; try done. pose proof Hi as [H1 H2].
  destruct (H2 _ _ Hj) as (K1 & K2 & K3). set (c := if isExpectedUDPErr timeout e then _ else _).
  assert (Hc : counted c (tw_jobs w) /\ tc_keys c = tc_keys (tw_c w)) by (unfold c; case_on; [done|split; [by apply counted_error|apply error_keys]]). destruct Hc as [C1 C2].
  apply calm_put; [done|by eapply counted_keep|done|]. apply (calm_job_keys (tw_c w)); [done|]. unfold calm_job, calm_stage, calm_close, setting_up in *. rewrite Hs in *. cbn in *. done.
Qed.
Lemma calm_fallback : calm_inv (job_fallback_end w id j).
Proof.
  unfold job_fallback_end, put_job. destruct (jb_stage j) eqn:Hs; try done. pose proof Hi as [H1 H2]. destruct (H2 _ _ Hj) as (K1 & K2 & K3).
  apply calm_put; [done|by eapply counted_keep|done|]. unfold calm_job, calm_stage, calm_close, setting_up in *. rewrite Hs in *. cbn in *. done.
Qed.
Lemma calm_release : calm_inv (job_release w id j).
Proof.
  unfold job_release, put_job. destruct (jb_stage j) eqn:Hs; try done. pose proof Hi as [H1 H2]. destruct (H2 _ _ Hj) as (K1 & K2 & K3). unfold calm_stage in K1. rewrite Hs in K1.
  destruct K1 as [[Hk Hne] Hc]. destruct (Hsh _ _ Hj) as (S1 & _). destruct S1 as [Hf Hr]; [unfold setting_up; by rewrite Hs|].
  assert (Hg : forall c, calm_job c (abandon (no_key j)) /\ jb_key (abandon (no_key j)) = ""%string).
  { intros c. unfold abandon, return_job, goto, calm_job, calm_stage, calm_close. cbn. destruct (jb_kind j) as [|nt|]; [|destruct (nt_dstPort nt =? 53)|]; cbn; rewrite ?Hr, ?Hf, ?Hc; by split_and!. }
  destruct (only_pool_release (tw_c w) key) as [_ E]. apply calm_put; [done| |done|apply Hg]. eapply counted_release; try done. by apply (Hg (tw_c w)).
Qed.

(** The registration of a job is in the table with its key, and no other job has it. *)
Lemma unregister_key fid :
  owned jb_ref (tw_jobs w) (dom (flows (tc_p (tw_c w)))) -> jb_ref j = Some fid ->
  unregister_locked (tw_c w) fid = ((unregister_locked (tw_c w) fid).1, Some (jb_key j)) /\ jb_key j <> ""%string.
Proof.
  intros Ho Hr. destruct (cm_jobs _ Hi _ _ Hj) as (_ & _ & K3). destruct (K3 _ Hr) as [Hk Hne]. split; [|done]. unfold unregister_locked.
  rewrite bool_decide_eq_true_2; [cbn; by rewrite Hk|]. apply elem_of_dom. by eapply owned_in.
Qed.
Lemma calm_unregistered fid j' :
  owned jb_ref (tw_jobs w) (dom (flows (tc_p (tw_c w)))) -> jb_ref j = Some fid -> jb_key j' = jb_key j -> jb_client j' = jb_client j -> jb_ref j' = None ->
  calm_stage j' -> calm_close j' -> calm_inv (put_job w (unregister_locked (tw_c w) fid).1 (tw_flows w) id j').
Proof.
  intros Ho Hr Hk Hcl Hr' Hs Hc. pose proof Hi as [H1 H2]. split; cbn.
  - eapply counted_policy; [by eapply counted_keep|done..].
  - intros i k Hik. apply lookup_insert_Some in Hik as [[<- <-]|[Hni Hik]]; [split_and!; try done; congruence|].
    destruct (H2 _ _ Hik) as (K1 & K2 & K3). split_and!; try done. intros f Ef. cbn. rewrite lookup_delete_ne; [by apply K3|].
    intros <-. apply Hni. by apply (proj2 Ho id i j k fid).
Qed.
Lemma calm_unregister : owned jb_ref (tw_jobs w) (dom (flows (tc_p (tw_c w)))) -> calm_inv (job_unregister w id j).
Proof.
  intros Ho. unfold job_unregister. destruct (jb_stage j) eqn:Hs; try done. destruct (jb_ref j) as [fid|] eqn:Er; [|done]. destruct (unregister_key fid Ho Er) as [-> Hne].
  destruct (Hsh _ _ Hj) as (_ & S2 & _ & S4). rewrite Hs in S4. destruct S4 as (Hu & Hf & _). eapply calm_unregistered; try done.
  - unfold calm_stage. cbn. by rewrite (S2 Hu).
  - unfold calm_close. cbn. by rewrite (S2 Hu).
Qed.
Lemma calm_close_unregister : owned jb_ref (tw_jobs w) (dom (flows (tc_p (tw_c w)))) -> calm_inv (close_unregister w id j).
Proof.
  intros Ho. unfold close_unregister. destruct (jb_close j) as [|fid| | |] eqn:Ec; try done. destruct (Hsh _ _ Hj) as (S1 & S2 & S3 & S4). destruct (S3 _ Ec) as [Hr Hf].
  destruct (unregister_key fid Ho Hr) as [-> Hne]. destruct (cm_jobs _ Hi _ _ Hj) as (K1 & K2 & _). eapply calm_unregistered; try done.
  unfold calm_stage in *. cbn. rewrite Ec in K1. destruct (jb_stage j); try done; try (by destruct K1).
Qed.
Lemma calm_close_begin : setting_up j = false -> calm_inv (close_begin w id j).
Proof.
  intros Hset. unfold close_begin. destruct (jb_kind j) eqn:Ek; try done. destruct (jb_close j) eqn:Ec; try done. pose proof Hi as [H1 H2]. destruct (H2 _ _ Hj) as (K1 & K2 & K3).
  unfold calm_close in K2. rewrite Ec in K2. specialize (K2 Hset). unfold put_job. apply calm_put; [done|by eapply counted_keep|done|]. unfold calm_job. split_and!; try done.
  - unfold calm_stage, setting_up in *. cbn. destruct (jb_stage j); try done; [|naive_solver..]. by repeat case_on.
  - unfold calm_close. cbn. destruct (jb_ref j) as [fid|] eqn:Er; [done|]. destruct K2 as [-> _]; [done|]. done.
Qed.
Lemma calm_close_release : calm_inv (close_release w id j).
Proof.
  unfold close_release. destruct (jb_close j) as [| |key| |] eqn:Ec; try done. pose proof Hi as [H1 H2]. destruct (H2 _ _ Hj) as (K1 & K2 & K3).
  unfold calm_close in K2. rewrite Ec in K2. destruct K2 as (Hk & Hne & Hr & Hf). destruct (only_pool_release (tw_c w) key) as [_ E]. unfold put_job.
  apply calm_put; [done|by eapply counted_release|done|]. unfold calm_job, calm_stage, calm_close in *. cbn. rewrite Ec in K1. rewrite Hr, Hf. split_and!; try done.
  destruct (jb_stage j); try done; naive_solver.
Qed.
Lemma calm_close_remove : calm_inv (close_remove w id j).
Proof.
  unfold close_remove. destruct (jb_kind j) eqn:Ek; try done. destruct (jb_close j) eqn:Ec; try done. pose proof Hi as [H1 H2]. destruct (H2 _ _ Hj) as (K1 & K2 & K3).
  apply (calm_put w); [done|by eapply counted_keep|done|]. unfold calm_job, calm_stage, calm_close in *. cbn. rewrite Ec in *. destruct K2 as (? & ? & ?). split_and!; try done.
  destruct (jb_stage j); try done; naive_solver.
Qed.
End CalmSteps.

Lemma calm_new w id j m : calm_inv w -> tw_jobs w !! id = None -> jb_key j = ""%string -> jb_ref j = None -> calm_stage j -> calm_close j ->
  calm_inv (mkTW (tw_c w) (tw_flows w) (<[id := j]> (tw_jobs w)) m).
Proof. intros Hi Hj Hk Hr Hs Hc. apply calm_put; [done|by apply counted_new; [apply Hi| |]|done|]. split_and!; try done. congruence. Qed.

Lemma calm_ctl w c : calm_inv w -> same_but_policy c (tw_c w) -> calm_inv (set_ctl w c).
Proof. intros [H1 H2] (_ & E1 & E2 & E3). split; cbn; [by eapply counted_policy|]. intros i k Hk. eapply calm_job_keys; eauto. Qed.

Lemma calm_touch w id now : calm_inv w -> calm_inv (touch w id now).
Proof.
  intros Hi. unfold touch, on_job. destruct (tw_jobs w !! id) as [j|] eqn:Hj; [|done]. destruct (jb_kind j) as [|nt|] eqn:Ek; try done.
  pose proof Hi as [H1 H2]. apply calm_put; [done|by eapply counted_keep|done|]. destruct (H2 _ _ Hj) as (K1 & K2 & K3). by split_and!.
Qed.

Lemma calm_shutdown w : calm_inv w -> (forall id j, tw_jobs w !! id = Some j -> jb_key j = ""%string) -> calm_inv (set_ctl w (tun_Close (tw_c w))).
Proof.
  intros [H1 H2] Hn. split; cbn.
  - split; cbn.
    + split; cbn; intros *; by rewrite lookup_empty.
    + intros key mc. by rewrite lookup_empty.
    + intros i k Hk Hne. by apply Hn in Hk.
    + rewrite (cn_open _ _ H1). by rewrite difference_diag_L.
    + apply lookup_empty.
  - intros i k Hk. by apply (calm_job_keys (tw_c w)); [|eauto].
Qed.

Section CalmRuns.
  Context (timeout : goerr -> bool) (o : udpOptions).

Lemma calm_step base w w' : books_inv base w -> calm_inv w -> tun_step timeout o true w w' -> calm_inv w'.
Proof.
  intros Hb Hi Hs. assert (Hsh : forall i k, tw_jobs w !! i = Some k -> job_shape k) by (intros i k Hk; apply (bi_jobs _ _ Hb _ _ Hk)).
  destruct Hs.
  - unfold Handle. cbn zeta. case_on; [done|]. case_on; [done|]. destruct (if DNSOverride o && _ then _ else _). by apply calm_new.
  - unfold begin_tcp. case_on; [done|]. by apply calm_new.
  - unfold begin_dns. case_on; [done|]. by apply calm_new.
  - by apply calm_start.
  - by apply calm_admit.
  - by apply calm_config.
  - by apply calm_lookup.
  - apply calm_dialed; auto. intros cl t E. by apply (H0 cl t).
  - destruct (bi_next _ _ Hb) as [[? ?] ?]. apply calm_opened; try done. apply Hb.
  - by apply calm_first.
  - by apply calm_second.
  - by apply calm_exchanged.
  - by apply calm_pumped.
  - apply calm_unregister; try done. apply Hb.
  - by apply calm_release.
  - by apply calm_fallback.
  - apply calm_close_begin; auto.
  - apply calm_close_unregister; try done. apply Hb.
  - by apply calm_close_release.
  - by apply calm_close_remove.
  - by apply calm_touch.
  - apply calm_ctl; [done|apply tick_same].
  - apply calm_ctl; [done|]. apply on_policy_same, books_write.
  - apply calm_shutdown; [done|by apply H].
Qed.

Lemma calm_reachable base mode now w : rtc (tun_step timeout o true) (tun_start base mode now) w -> books_inv base w /\ nat_inv w /\ calm_inv w.
Proof.
  intros Hr. split_and!; [by eapply books_reachable|by eapply nat_reachable|].
  assert (Hbc : books_inv base w /\ calm_inv w); [|apply Hbc].
  eapply (rtc_preserves (tun_step timeout o true) (fun w => books_inv base w /\ calm_inv w)); [|exact Hr|].
  - intros a b [Ha Hb] Hs. split; [by eapply books_step|by eapply calm_step].
  - split; [by eapply (books_reachable timeout o base mode now true)|]. split; [|done]. by split.
Qed.
End CalmRuns.

(** ** [closeState], [expireIdle] and [Close] of the manager *)

Lemma on_job_put f w c fls id j : on_job f (put_job w c fls id j) id = f (put_job w c fls id j) id j.
Proof. unfold on_job, put_job. cbn. by rewrite lookup_insert_eq. Qed.

(** What a step of [closeState] does to the other jobs and to the table. *)
Definition only_job (id : Z) (w w' : tworld) : Prop := forall i, i <> id -> tw_jobs w' !! i = tw_jobs w !! i.
Lemma only_job_put id w c fls j : only_job id w (put_job w c fls id j).
Proof. intros i Hi. cbn. by rewrite lookup_insert_ne. Qed.

Lemma close_remove_spec w id j nt : tw_jobs w !! id = Some j -> jb_kind j = JUDP nt -> jb_close j = CRemove ->
  let w' := on_job close_remove w id in
  um_flows (tw_m w') = delete (nt_key nt) (um_flows (tw_m w)) /\ tw_jobs w' !! id = Some (set_close j CDone) /\ only_job id w w'.
Proof.
  intros Hj Hk Hc. unfold on_job. rewrite Hj. unfold close_remove. rewrite Hk, Hc. cbn. split_and!; [done|apply lookup_insert_eq|]. intros i Hi. cbn. by rewrite lookup_insert_ne.
Qed.
Lemma close_release_spec w id j nt : tw_jobs w !! id = Some j -> jb_kind j = JUDP nt -> (exists k, jb_close j = CRelease k) \/ jb_close j = CRemove ->
  let w' := on_job close_release w id in
  um_flows (tw_m w') = um_flows (tw_m w) /\ (exists j', tw_jobs w' !! id = Some j' /\ jb_kind j' = JUDP nt /\ jb_close j' = CRemove /\ jb_local j' = jb_local j /\ jb_flow j' = jb_flow j) /\ only_job id w w'.
Proof.
  intros Hj Hk Hc. unfold on_job. rewrite Hj. unfold close_release. destruct Hc as [[k Hc]|Hc]; rewrite Hc; [|split_and!; [done|by exists j|done]].
  split_and!; [done| |apply only_job_put]. eexists. split; [apply lookup_insert_eq|done].
Qed.
Lemma close_unregister_spec w id j nt : tw_jobs w !! id = Some j -> jb_kind j = JUDP nt -> jb_close j <> CNone -> jb_close j <> CDone ->
  let w' := on_job close_unregister w id in
  um_flows (tw_m w') = um_flows (tw_m w)
  /\ (exists j', tw_jobs w' !! id = Some j' /\ jb_kind j' = JUDP nt /\ ((exists k, jb_close j' = CRelease k) \/ jb_close j' = CRemove) /\ jb_local j' = jb_local j /\ jb_flow j' = jb_flow j)
  /\ only_job id w w'.
Proof.
  intros Hj Hk H1 H2. unfold on_job. rewrite Hj. unfold close_unregister. destruct (jb_close j) as [|fid|k| |] eqn:Ec; try done.
  - destruct (unregister_locked (tw_c w) fid) as [c [key|]]; (split_and!; [done| |apply only_job_put]); (eexists; split; [apply lookup_insert_eq|]); cbn; naive_solver.
  - split_and!; [done| |done]. exists j. rewrite Ec. naive_solver.
  - split_and!; [done| |done]. exists j. rewrite Ec. naive_solver.
Qed.
Lemma close_begin_spec w id j nt : tw_jobs w !! id = Some j -> jb_kind j = JUDP nt -> jb_close j <> CDone ->
  let w' := on_job close_begin w id in
  um_flows (tw_m w') = um_flows (tw_m w)
  /\ (exists j', tw_jobs w' !! id = Some j' /\ jb_kind j' = JUDP nt /\ jb_close j' <> CNone /\ jb_close j' <> CDone /\ (jb_close j = CNone -> jb_local j' = false /\ jb_flow j' = None))
  /\ only_job id w w'.
Proof.
  intros Hj Hk H1. unfold on_job. rewrite Hj. unfold close_begin. rewrite Hk. destruct (jb_close j) as [|fid|k| |] eqn:Ec; try done.
  - split_and!; [done| |apply only_job_put]. eexists. split; [apply lookup_insert_eq|]. cbn. split_and!; try done; by repeat case_on.
  - split_and!; [done| |done]. exists j. by rewrite Ec.
  - split_and!; [done| |done]. exists j. by rewrite Ec.
  - split_and!; [done| |done]. exists j. by rewrite Ec.
Qed.

(** Whoever runs it and however far it has got, [closeState] takes the flow out of the table and
    leaves it closed. *)
Lemma closeState_spec w id j nt :
  tw_jobs w !! id = Some j -> jb_kind j = JUDP nt -> jb_close j <> CDone ->
  um_flows (tw_m (closeState w id)) = delete (nt_key nt) (um_flows (tw_m w))
  /\ (exists j', tw_jobs (closeState w id) !! id = Some j' /\ jb_kind j' = JUDP nt /\ jb_close j' = CDone /\ (jb_close j = CNone -> jb_local j' = false /\ jb_flow j' = None))
  /\ only_job id w (closeState w id).
Proof.
  intros Hj Hk Hc. unfold closeState.
  destruct (close_begin_spec w id j nt Hj Hk Hc) as (M1 & (j1 & J1 & K1 & N1 & D1 & L1) & O1). set (w1 := on_job close_begin w id) in *.
  destruct (close_unregister_spec w1 id j1 nt J1 K1 N1 D1) as (M2 & (j2 & J2 & K2 & C2 & L2 & F2) & O2). set (w2 := on_job close_unregister w1 id) in *.
  destruct (close_release_spec w2 id j2 nt J2 K2 C2) as (M3 & (j3 & J3 & K3 & C3 & L3 & F3) & O3). set (w3 := on_job close_release w2 id) in *.
  destruct (close_remove_spec w3 id j3 nt J3 K3 C3) as (M4 & J4 & O4). set (w4 := on_job close_remove w3 id) in *.
  split_and!; [congruence| |intros i Hi; rewrite O4, O3, O2, O1 by done; done]. eexists. split_and!; [exact J4|done|done|]. cbn. intros E. rewrite L3, L2, F3, F2. by apply L1.
Qed.

(** [closeState] is a run of its steps. *)
Lemma closeState_steps timeout o w id : rtc (tun_step timeout o false) w (closeState w id).
Proof.
  assert (Hgo : forall f w, (forall w id j, tw_jobs w !! id = Some j -> tun_step timeout o false w (f w id j)) -> rtc (tun_step timeout o false) w (on_job f w id)).
  { intros f v Hf. unfold on_job. destruct (tw_jobs v !! id) eqn:E; [by apply rtc_once, Hf|reflexivity]. }
  unfold closeState. etransitivity; [|apply Hgo; intros; by apply tst_close_remove]. etransitivity; [|apply Hgo; intros; by apply tst_close_release].
  etransitivity; [|apply Hgo; intros; by apply tst_close_unregister]. apply Hgo. intros. by apply tst_close_begin.
Qed.
Lemma close_all_steps timeout o l : forall w, rtc (tun_step timeout o false) w (foldl closeState w l).
Proof. induction l as [|id l IH]; intros w; [reflexivity|]. cbn. etransitivity; [apply closeState_steps|apply IH]. Qed.

Definition in_table (w : tworld) (id : Z) : Prop := exists key, um_flows (tw_m w) !! key = Some id.

Lemma close_all_spec l : forall w, nat_inv w -> NoDup l -> Forall (in_table w) l ->
  (forall key id, um_flows (tw_m (foldl closeState w l)) !! key = Some id <-> um_flows (tw_m w) !! key = Some id /\ id ∉ l)
  /\ (forall id, id ∉ l -> tw_jobs (foldl closeState w l) !! id = tw_jobs w !! id)
  /\ (forall id, id ∈ l -> exists j, tw_jobs (foldl closeState w l) !! id = Some j /\ jb_close j = CDone).
Proof.
  induction l as [|id l IH]; intros w Hn Hd Hin; [cbn; split_and!; [intros; rewrite elem_of_nil; tauto|done|by intros ? ?%not_elem_of_nil]|].
  apply NoDup_cons in Hd as [Hid Hd]. apply Forall_cons in Hin as [[key0 Hkey0] Hin]. pose proof Hkey0 as Ht. apply Hn in Ht as (j & nt & Hj & Hk & Hkey & Hc).
  destruct (closeState_spec w id j nt Hj Hk Hc) as (M & (j' & J' & _ & C' & _) & O). cbn [foldl].
  assert (Hn' : nat_inv (closeState w id)).
  { eapply (rtc_preserves (tun_step (fun _ => false) (mkUO "" 0 false 0) false)); [intros a b; apply nat_step|apply closeState_steps|done]. }
  assert (Htab : forall key i, um_flows (tw_m (closeState w id)) !! key = Some i <-> um_flows (tw_m w) !! key = Some i /\ i <> id).
  { intros key i. rewrite M, lookup_delete_Some, Hkey. split; intros [H1 H2]; [|split; [|done]].
    - split; [done|]. intros ->. apply Hn in H2 as (j2 & nt2 & Hj2 & Hk2 & Hkey2 & _). rewrite Hj in Hj2. injection Hj2 as <-. congruence.
    - intros ->. congruence. }
  destruct (IH (closeState w id) Hn' Hd) as (I1 & I2 & I3).
  { apply Forall_forall. intros i Hi. destruct (proj1 (Forall_forall _ _) Hin i Hi) as [k Hk2]. exists k. apply Htab. split; [done|]. intros ->. done. }
  split_and!.
  - intros key i. rewrite I1, Htab, not_elem_of_cons. tauto.
  - intros i [Hne Hi]%not_elem_of_cons. rewrite I2 by done. by apply O.
  - intros i [->|Hi]%elem_of_cons; [|auto]. exists j'. by rewrite I2.
Qed.

Lemma table_ids w : nat_inv w -> NoDup (map_to_list (um_flows (tw_m w))).*2 /\ forall id, id ∈ (map_to_list (um_flows (tw_m w))).*2 <-> in_table w id.
Proof.
  intros Hn. split.
  - apply NoDup_fmap_2_strong; [|apply NoDup_map_to_list]. intros [k1 i1] [k2 i2] H1 H2 E. cbn in E. subst i2.
    apply elem_of_map_to_list in H1, H2. apply Hn in H1 as (j & nt & Hj & Hk & <- & _), H2 as (j2 & nt2 & Hj2 & Hk2 & <- & _). rewrite Hj in Hj2. injection Hj2 as <-. congruence.
  - intros id. rewrite list_elem_of_fmap. split.
    + intros ([k i] & -> & Hi). apply elem_of_map_to_list in Hi. by exists k.
    + intros [k Hk]. exists (k, id). split; [done|]. by apply elem_of_map_to_list.
Qed.

(** The flow was active within the idle timeout. *)
Definition recent (o : udpOptions) (w : tworld) (now id : Z) : Prop := exists t, last_active w id = Some t /\ now - IdleTimeout o <= t.

(** C24: The janitor removes exactly the idle flows: after [expireIdle] a flow is in the table iff it was
    there and was active within the idle timeout; the goroutines and the state of those flows are
    untouched; the others are closed. *)
Theorem expire_idle_exact timeout o base mode start w now :
  rtc (tun_step timeout o false) (tun_start base mode start) w ->
  let w' := expireIdle o w now in
  (forall key id, um_flows (tw_m w') !! key = Some id
     <-> um_flows (tw_m w) !! key = Some id /\ recent o w now id)
  /\ (forall key id, um_flows (tw_m w') !! key = Some id -> tw_jobs w' !! id = tw_jobs w !! id)
  /\ (forall key id, um_flows (tw_m w) !! key = Some id -> um_flows (tw_m w') !! key = None -> exists j, tw_jobs w' !! id = Some j /\ jb_close j = CDone)
  /\ rtc (tun_step timeout o false) w w'.
Proof.
  intros Hr w'. unfold recent. pose proof (nat_reachable _ _ _ _ _ _ _ Hr) as Hn. destruct (table_ids w Hn) as [Hd Hids].
  assert (Hst : forall id, id ∈ stale o w now <-> in_table w id /\ exists t, last_active w id = Some t /\ t < now - IdleTimeout o).
  { intros id. unfold stale. rewrite list_elem_of_In, filter_In, <- list_elem_of_In, Hids. split; intros [H1 H2]; (split; [done|]).
    - destruct (last_active w id) as [t|]; [|done]. zbool. eauto.
    - destruct H2 as (t & -> & Ht). by apply Z.ltb_lt. }
  assert (Hla : forall key id, um_flows (tw_m w) !! key = Some id -> exists t, last_active w id = Some t).
  { intros key id (j & nt & Hj & Hk & _)%Hn. unfold last_active. rewrite Hj. cbn. rewrite Hk. eauto. }
  destruct (close_all_spec (stale o w now) w Hn) as (S1 & S2 & S3).
  { unfold stale. by apply NoDup_ListNoDup, List.NoDup_filter, NoDup_ListNoDup. } { apply Forall_forall. intros id Hid. by apply Hst. }
  split_and!; [| | |apply close_all_steps].
  - intros key id. unfold w', expireIdle. rewrite S1, Hst. split.
    + intros [H1 H2]. split; [done|]. destruct (Hla _ _ H1) as [t Ht]. exists t. split; [done|]. apply Z.nlt_ge. intros Hlt. apply H2. split; [by exists key|eauto].
    + intros (H1 & t & Ht & Hle). split; [done|]. intros (_ & t' & Ht' & Hlt). rewrite Ht in Ht'. injection Ht' as <-. lia.
  - intros key id Hk. apply S1 in Hk as [_ Hk]. by apply S2.
  - intros key id Hk Hk'. apply S3. destruct (decide (id ∈ stale o w now)) as [|Hni]; [done|]. exfalso.
    assert (um_flows (tw_m w') !! key = Some id) as E by (apply S1; done). congruence.
Qed.

(** ** Accounting *)

(** What the environment may answer: a dialled client is a new one, over a transport that the
    configuration enables; an opened flow is a new one. *)
Definition answer_ok (w : tworld) (j : job) (ev : tun_event) : Prop :=
  match ev with
  | VDialed _ _ (inl (cl, t)) =>
      cl ∉ tc_open (tw_c w) /\ ~ replaces w j /\ forall cfg mode start n0, jb_stage j = TDial cfg mode start n0 -> enabled cfg t = true
  | VOpened _ _ res => nextFlowID (tc_p (tw_c w)) + 1 < 2 ^ 64 /\ forall f, res = inl f -> f ∉ tw_flows w
  | _ => True
  end.
Fixpoint answers_ok (timeout : goerr -> bool) (id : Z) (w : tworld) (evs : list tun_event) : Prop :=
  match evs with
  | [] => True
  | ev :: evs => (forall j, tw_jobs w !! id = Some j -> answer_ok w j ev) /\ answers_ok timeout id (tun_drive timeout id w ev) evs
  end.

(** A goroutine that is driven takes steps of the calm system. *)
Lemma drive_step timeout o w id ev : (forall j, tw_jobs w !! id = Some j -> answer_ok w j ev) -> rtc (tun_step timeout o true) w (tun_drive timeout id w ev).
Proof.
  intros Ha. unfold tun_drive, on_job. destruct (tw_jobs w !! id) as [j|] eqn:Hj; [|reflexivity]. specialize (Ha j eq_refl). unfold tun_body.
  destruct (jb_stage j) as [| | |cfg mode start|cfg mode start n0|key cl t start|[|]| | | | |] eqn:Hs, ev as [| | | |? ? res|? ? res| | | | | | |]; try reflexivity; apply rtc_once.
  - by apply tst_start.
  - by apply tst_admit.
  - by apply tst_config.
  - by apply tst_lookup.
  - destruct res as [[cl t]|de]; cbn in Ha.
    + destruct Ha as (H1 & H2 & H3). apply tst_dialed; try done. intros cl' t' [= <- <-]. split; [done|]. exact H3.
    + by apply tst_dialed.
  - destruct Ha as [H1 H2]. by apply tst_opened.
  - by apply tst_second.
  - by apply tst_first.
  - by apply tst_exchanged.
  - by apply tst_pumped.
  - by apply tst_unregister.
  - by apply tst_release.
  - by apply tst_fallback.
Qed.

Lemma drive_steps timeout o id evs : forall w, answers_ok timeout id w evs -> rtc (tun_step timeout o true) w (foldl (tun_drive timeout id) w evs).
Proof.
  induction evs as [|ev evs IH]; intros w Ha; [reflexivity|]. destruct Ha as [H1 H2]. cbn. etransitivity; [by apply drive_step|by apply IH].
Qed.

(** C14: The books of the TUN client balance in every calm run: the permits in the controller are those
    that goroutines hold; the count of every pooled client is the number of goroutines that use it,
    and the client that each of them uses is open; exactly the pooled clients are open; and every
    open flow and every entry of the flow table belongs to one goroutine. *)
Theorem tun_accounting timeout o base mode now w :
  rtc (tun_step timeout o true) (tun_start base mode now) w ->
  let c := tw_c w in
  pendingPermits (tc_p c) = how_many holds_permit (tw_jobs w)
  /\ (forall key mc, tc_clients c !! key = Some mc -> refCount mc = how_many (uses key) (tw_jobs w))
  /\ (forall id j, tw_jobs w !! id = Some j -> jb_key j <> ""%string -> jb_client j ∈ tc_open c)
  /\ tc_open c = pooled c
  /\ owned jb_flow (tw_jobs w) (tw_flows w) /\ owned jb_ref (tw_jobs w) (dom (flows (tc_p c))).
Proof.
  intros (Hb & _ & Hc)%calm_reachable. destruct Hc as [[C1 C2 C3 C4 C5] _]. split_and!; try apply Hb; try done.
  intros id j Hj Hne. destruct (C3 _ _ Hj Hne) as (mc & Hm & <-). apply (pl_entry _ C1 _ _ Hm).
Qed.

(** A goroutine that has returned, and for a UDP flow [closeState] with it. *)
Definition finished_job (j : job) : Prop := match jb_kind j with JUDP _ => jb_close j = CDone | _ => jb_stage j = TEnd end.

(** C15: Nothing is left over: when all goroutines of a calm run are done, no permit is held, no flow is
    open, registered or in the table of UDP flows, every pooled client is unused and sound, and
    closing the controller closes every session client. *)
Theorem tun_rest timeout o base mode now w :
  rtc (tun_step timeout o true) (tun_start base mode now) w -> (forall id j, tw_jobs w !! id = Some j -> finished_job j) ->
  let c := tw_c w in
  pendingPermits (tc_p c) = 0 /\ ActiveFlowCount c = 0 /\ tw_flows w = ∅ /\ um_flows (tw_m w) = ∅
  /\ (forall key mc, tc_clients c !! key = Some mc -> refCount mc = 0 /\ broken mc = false)
  /\ tc_open (tun_Close c) = ∅.
Proof.
  intros (Hb & Hn & Hc)%calm_reachable Hfin. cbn zeta.
  assert (Hnone : forall id j, tw_jobs w !! id = Some j -> holds_permit j = false /\ jb_key j = ""%string /\ jb_flow j = None /\ jb_ref j = None).
  { intros id j Hj. pose proof (Hfin _ _ Hj) as Hf. destruct (cm_jobs _ Hc _ _ Hj) as (K1 & K2 & _). destruct (bi_jobs _ _ Hb _ _ Hj) as [_ (_ & _ & _ & S4)].
    unfold finished_job in Hf. unfold holds_permit, calm_stage, calm_close in *. destruct (jb_kind j) eqn:Ek.
    - rewrite Hf in *. naive_solver.
    - rewrite Hf in *. destruct K2 as (? & ? & ?). split_and!; try done. destruct (jb_stage j); try done; destruct K1 as [_ ?]; done.
    - rewrite Hf in *. naive_solver. }
  pose proof Hc as [[C1 C2 C3 C4 C5] _]. split_and!.
  - rewrite (bi_permits _ _ Hb). apply how_many_zero. intros i h Hh. apply (Hnone _ _ Hh).
  - unfold ActiveFlowCount. rewrite <- size_dom. replace (dom (flows (tc_p (tw_c w)))) with (∅ : gset Z); [done|]. symmetry. apply set_eq. intros x. split; [|set_solver].
    intros (i & h & Hh & E)%(bi_refs _ _ Hb). destruct (Hnone _ _ Hh) as (_ & _ & _ & ?). congruence.
  - apply set_eq. intros x. split; [|set_solver]. intros (i & h & Hh & E)%(bi_flows _ _ Hb). destruct (Hnone _ _ Hh) as (_ & _ & ? & _). congruence.
  - apply map_empty. intros k. destruct (um_flows (tw_m w) !! k) as [i|] eqn:E; [|done]. apply Hn in E as (j & nt & Hj & Hk & _ & Hcl). apply Hfin in Hj. unfold finished_job in Hj. by rewrite Hk in Hj.
  - intros key mc Hm. assert (Hz : refCount mc = 0).
    { rewrite (C2 _ _ Hm). apply how_many_zero. intros i h Hh. unfold uses. destruct (Hnone _ _ Hh) as (_ & -> & _). apply bool_decide_eq_false_2. intros <-. congruence. }
    split; [done|]. destruct (pl_entry _ C1 _ _ Hm) as (_ & Hb2 & _). destruct (broken mc); [specialize (Hb2 eq_refl); lia|done].
  - cbn. rewrite C4. apply difference_diag_L.
Qed.

(** Two goroutines with UDP flows under the same key of the table, neither closed. *)
Definition same_entry (j j' : job) : Prop :=
  exists nt nt', jb_kind j = JUDP nt /\ jb_kind j' = JUDP nt' /\ nt_key nt = nt_key nt' /\ jb_close j <> CDone /\ jb_close j' <> CDone.

(** Every UDP flow goes over QUIC and has a table entry of its own, in every run, whatever mode the
    policy is in and whatever other flows share the pool. *)
Theorem udp_over_quic timeout o base mode now w :
  rtc (tun_step timeout o false) (tun_start base mode now) w ->
  (forall id j nt key cl t start, tw_jobs w !! id = Some j -> jb_kind j = JUDP nt -> jb_stage j = TOpen key cl t start -> t = TransportQUIC)
  /\ (forall id id' j j', tw_jobs w !! id = Some j -> tw_jobs w !! id' = Some j' -> same_entry j j' -> id = id')
  /\ pendingPermits (tc_p (tw_c w)) = how_many holds_permit (tw_jobs w).
Proof.
  intros Hr. pose proof (books_reachable _ _ _ _ _ _ _ Hr) as Hb. pose proof (nat_reachable _ _ _ _ _ _ _ Hr) as Hn. split_and!; [| |apply Hb].
  - intros id j nt key cl t start Hj Hk Hs. destruct (bi_jobs _ _ Hb _ _ Hj) as [Ht _]. unfold job_typed in Ht. rewrite Hs in Ht. apply Ht. unfold is_udp. by rewrite Hk.
  - intros id id' j j' Hj Hj' (nt & nt' & Hk & Hk' & E & Hc & Hc'). assert (E1 : um_flows (tw_m w) !! nt_key nt = Some id) by (apply Hn; by exists j, nt).
    assert (E2 : um_flows (tw_m w) !! nt_key nt = Some id') by (apply Hn; rewrite E; by exists j', nt'). congruence.
Qed.

(** ** Shutdown *)

(** The end of [main], after the signal: the manager is closed, then the controller. *)
Definition tun_shutdown (w : tworld) : tworld := let w := udpManager_Close w in set_ctl w (tun_Close (tw_c w)).

(** Exactly the pooled clients are open. *)
Definition snug (c : tunController) : Prop := pool_inv c /\ tc_open c = pooled c.
Lemma snug_same c c' : snug c -> tc_clients c' = tc_clients c -> tc_open c' = tc_open c -> snug c'.
Proof.
  intros [[P1 P2] O] E1 E2. unfold snug, pooled in *. rewrite E1, E2. split; [|done]. split; unfold entry_ok in *; rewrite ?E1, ?E2; done.
Qed.
Lemma snug_release c key : snug c -> snug (releaseClient c key).
Proof.
  intros [Hp Ho]. split; [by apply pool_inv_release|]. unfold releaseClient. case_on; [done|]. destruct (tc_clients c !! key) as [mc|] eqn:Hm; [|done]. cbn zeta.
  destruct (_ && broken mc); [|by erewrite pooled_update]. cbn. rewrite Ho. apply set_eq. intros x. rewrite elem_of_difference, elem_of_singleton, !elem_of_pooled. cbn. split.
  - intros [(k & m & Hl & <-) Hx]. exists k, m. rewrite lookup_delete_ne; [done|]. intros <-. congruence.
  - intros (k & m & [Hnk Hl]%lookup_delete_Some & <-). split; [eauto|]. intros Ex. by apply Hnk, (pl_inj _ Hp _ _ _ _ Hm Hl).
Qed.
Lemma snug_close_state w id : snug (tw_c w) -> snug (tw_c (closeState w id)).
Proof.
  intros H. unfold closeState.
  assert (Hgo : forall f w, (forall w j, snug (tw_c w) -> snug (tw_c (f w id j))) -> snug (tw_c w) -> snug (tw_c (on_job f w id))) by (intros f v Hf Hv; unfold on_job; case_on; auto).
  apply Hgo; [intros v j Hv; unfold close_remove; repeat case_on; done|]. apply Hgo; [intros v j Hv; unfold close_release; case_on; try done; by apply snug_release|].
  apply Hgo; [intros v j Hv; unfold close_unregister; case_on; try done|apply Hgo; [intros v j Hv; unfold close_begin; repeat case_on; done|done]].
  unfold unregister_locked. destruct (if bool_decide _ then _ else _); by eapply snug_same.
Qed.
Lemma snug_close_all l : forall w, snug (tw_c w) -> snug (tw_c (foldl closeState w l)).
Proof. induction l as [|id l IH]; intros w H; [done|]. cbn. by apply IH, snug_close_state. Qed.

(** The shutdown closes everything, whatever the goroutines are doing: after a calm run the table
    of UDP flows is empty, every flow that was in it is closed, and no session client is open. *)
Theorem tun_shutdown_closes timeout o base mode now w :
  rtc (tun_step timeout o true) (tun_start base mode now) w ->
  let w' := tun_shutdown w in
  um_flows (tw_m w') = ∅ /\ tc_clients (tw_c w') = ∅ /\ tc_open (tw_c w') = ∅
  /\ (forall key id, um_flows (tw_m w) !! key = Some id -> exists j, tw_jobs w' !! id = Some j /\ jb_close j = CDone).
Proof.
  intros (_ & Hn & Hc)%calm_reachable. cbn zeta. destruct (table_ids w Hn) as [Hd Hids].
  destruct (close_all_spec _ w Hn Hd) as (S1 & _ & S3); [apply Forall_forall; intros id; by apply Hids|]. split_and!.
  - apply map_empty. intros key. destruct (um_flows (tw_m (tun_shutdown w)) !! key) as [id|] eqn:E; [|done]. apply S1 in E as [E1 E2]. exfalso. apply E2, Hids. by exists key.
  - done.
  - assert (Hs : snug (tw_c (udpManager_Close w))) by (apply snug_close_all; split; apply Hc). destruct Hs as [_ Ho]. cbn. rewrite Ho. apply difference_diag_L.
  - intros key id Hk. apply S3, Hids. by exists key.
Qed.

(** ** A UDP flow that is closed while it is set up *)

(** The goroutine has come to the pumps although [closeState] is over. *)
Definition orphan (f fid : Z) (j : job) : Prop :=
  is_udp j = true /\ jb_close j = CDone /\ (jb_stage j = TRun None \/ jb_stage j = TClose) /\ jb_flow j = Some f /\ jb_ref j = Some fid.

Lemma orphan_put w c fls i j' m id j f fid : tw_jobs w !! id = Some j -> orphan f fid j -> (i = id -> orphan f fid j') ->
  exists j2, tw_jobs (mkTW c fls (<[i := j']> (tw_jobs w)) m) !! id = Some j2 /\ orphan f fid j2.
Proof.
  intros Hj Ho Hput. cbn. destruct (decide (i = id)) as [->|Hne]; [exists j'; rewrite lookup_insert_eq; auto|exists j; by rewrite lookup_insert_ne].
Qed.

(** Nothing that the other goroutines or its own do brings an orphan back. *)
Lemma orphan_step timeout o calm w w' id j f fid :
  tw_jobs w !! id = Some j -> orphan f fid j -> tun_step timeout o calm w w' -> exists j', tw_jobs w' !! id = Some j' /\ orphan f fid j'.
Proof.
  intros Hj Ho Hs. pose proof Ho as (Hu & Hc & Hst & Hf & Hr). assert (Hk : exists nt, jb_kind j = JUDP nt) by (unfold is_udp in Hu; destruct (jb_kind j); eauto; done). destruct Hk as [nt Hk].
  assert (Hsame : exists j', tw_jobs w !! id = Some j' /\ orphan f fid j') by eauto.
  assert (Hstage : forall st, jb_stage j = st -> match st with TRun None | TClose => True | _ => False end) by (intros st <-; by destruct Hst as [-> | ->]).
  destruct Hs as [w i|w i|w i|w i k now Hi Hki|w i k now ex Hi Hki|w i k now Hi Hki|w i k now Hi|w i k now now' res Hi|w i k now now' res Hi|w i k e Hi|w i k now e Hi|w i k now e Hi|w i k now e Hi|w i k Hi|w i k Hi|w i k Hi|w i k Hi|w i k Hi|w i k Hi|w i k Hi|w i now|w|w|w].
  - unfold Handle. cbn zeta. case_on; [done|]. case_on; [done|]. destruct (if DNSOverride o && _ then _ else _). cbn. exists j. rewrite lookup_insert_ne; [done|]. congruence.
  - unfold begin_tcp. case_on; [done|]. eapply orphan_put; eauto. intros ->. congruence.
  - unfold begin_dns. case_on; [done|]. eapply orphan_put; eauto. intros ->. congruence.
  - eapply orphan_put; eauto. intros ->. rewrite Hj in Hi. injection Hi as <-. by apply Hstage in Hki.
  - unfold job_admit. destruct (tun_acquireFlowPermit _ _). eapply orphan_put; eauto. intros ->. rewrite Hj in Hi. injection Hi as <-. by apply Hstage in Hki.
  - unfold job_config. destruct (match jb_kind k with JUDP _ => _ | _ => _ end). eapply orphan_put; eauto. intros ->. rewrite Hj in Hi. injection Hi as <-. by apply Hstage in Hki.
  - unfold job_lookup. destruct (jb_stage k) eqn:Ek; try done.
    destruct (acquire_lookup _ _ _) as [c [[cl t]|]]; (eapply orphan_put; eauto; intros ->; rewrite Hj in Hi; injection Hi as <-; by apply Hstage in Ek).
  - unfold job_dialed. destruct (jb_stage k) eqn:Ek; try done. destruct res as [[cl t]|de].
    + destruct (acquire_dialed _ _ _ _ _) as [c [[cl' t'] d]]. eapply orphan_put; eauto; intros ->; rewrite Hj in Hi; injection Hi as <-; by apply Hstage in Ek.
    + destruct (jb_kind k); (eapply orphan_put; eauto; intros ->; rewrite Hj in Hi; injection Hi as <-; by apply Hstage in Ek).
  - unfold job_opened. destruct (jb_stage k) eqn:Ek; try done. destruct res as [f'|e].
    + destruct (tun_registerFlow _ _ _ _ _ _). eapply orphan_put; eauto; intros ->; rewrite Hj in Hi; injection Hi as <-; by apply Hstage in Ek.
    + destruct (jb_kind k); (eapply orphan_put; eauto; intros ->; rewrite Hj in Hi; injection Hi as <-; by apply Hstage in Ek).
  - unfold job_first. destruct (jb_kind k) eqn:Ekk; try done. destruct (jb_stage k) as [| | | | | |[|]| | | | |]; try done. eapply orphan_put; eauto. intros ->. congruence.
  - unfold job_second. destruct (jb_kind k) eqn:Ekk; try done. destruct (jb_stage k) as [| | | | | |[|]| | | | |]; try done. eapply orphan_put; eauto. intros ->. congruence.
  - unfold job_exchanged. destruct (jb_kind k) eqn:Ekk; try done. destruct (jb_stage k) as [| | | | | |[|]| | | | |]; try done. eapply orphan_put; eauto. intros ->. congruence.
  - unfold job_pumped. destruct (jb_kind k) eqn:Ekk; try done. destruct (jb_stage k) as [| | | | | |[|]| | | | |]; try done. eapply orphan_put; eauto. intros ->.
    rewrite Hj in Hi. injection Hi as <-. split_and!; try done. by right.
  - unfold job_unregister. destruct (jb_stage k) eqn:Ek; try done. destruct (jb_ref k); [|done].
    destruct (unregister_locked _ _) as [c [key|]]; (eapply orphan_put; eauto; intros ->; rewrite Hj in Hi; injection Hi as <-; by apply Hstage in Ek).
  - unfold job_release. destruct (jb_stage k) eqn:Ek; try done. eapply orphan_put; eauto; intros ->; rewrite Hj in Hi; injection Hi as <-; by apply Hstage in Ek.
  - unfold job_fallback_end. destruct (jb_stage k) eqn:Ek; try done. eapply orphan_put; eauto; intros ->; rewrite Hj in Hi; injection Hi as <-; by apply Hstage in Ek.
  - unfold close_begin. destruct (jb_kind k); try done. destruct (jb_close k) eqn:Ec; try done. eapply orphan_put; eauto. intros ->. congruence.
  - unfold close_unregister. destruct (jb_close k) eqn:Ec; try done. destruct (unregister_locked _ _) as [c [key|]]; (eapply orphan_put; eauto; intros ->; congruence).
  - unfold close_release. destruct (jb_close k) eqn:Ec; try done. eapply orphan_put; eauto. intros ->. congruence.
  - unfold close_remove. destruct (jb_kind k); try done. destruct (jb_close k) eqn:Ec; try done. eapply (orphan_put w); eauto. intros ->. congruence.
  - unfold touch, on_job. destruct (tw_jobs w !! i) as [k|] eqn:Hi; [|done]. destruct (jb_kind k) eqn:Ekk; try done. eapply orphan_put; eauto. intros ->.
    rewrite Hj in Hi. injection Hi as <-. by split_and!.
  - done.
  - done.
  - done.
Qed.

(** A UDP flow that is closed while its goroutine dials or opens it is never given back: the
    goroutine goes on, opens the flow and registers it, and because [closeOnce] has already run
    neither the flow nor its registration nor its use of the client is removed, in any later
    state, not even by another [closeState] or by closing the manager. *)
Theorem early_close_leaks timeout o base mode start w id j nt key cl t t0 now now' f w' :
  rtc (tun_step timeout o false) (tun_start base mode start) w ->
  tw_jobs w !! id = Some j -> jb_kind j = JUDP nt -> jb_close j = CDone -> jb_stage j = TOpen key cl t t0 -> f ∉ tw_flows w ->
  nextFlowID (tc_p (tw_c w)) + 1 < 2 ^ 64 ->
  rtc (tun_step timeout o false) (job_opened w id now now' (inl f) j) w' ->
  f ∈ tw_flows w' /\ 1 <= ActiveFlowCount (tw_c w').
Proof.
  intros Hr Hj Hk Hc Hs Hf Hn Hr'. set (w1 := job_opened w id now now' (inl f) j) in *.
  assert (Hstep : tun_step timeout o false w w1) by (apply tst_opened; try done; by intros f' [= <-]).
  assert (Ho : exists fid j1, tw_jobs w1 !! id = Some j1 /\ orphan f fid j1).
  { unfold w1, job_opened. rewrite Hs. destruct (tun_registerFlow _ _ _ _ _ _) as [c fid]. exists fid. eexists. cbn. rewrite lookup_insert_eq. split; [done|].
    split_and!; try done; [unfold is_udp; cbn; by rewrite Hk|by left]. }
  destruct Ho as (fid & j1 & Hj1 & Ho1).
  assert (Hw : exists j2, tw_jobs w' !! id = Some j2 /\ orphan f fid j2).
  { eapply (rtc_preserves (tun_step timeout o false) (fun w => exists j2, tw_jobs w !! id = Some j2 /\ orphan f fid j2)); [|exact Hr'|eauto].
    intros a b (k & Hk1 & Hk2) Hab. eapply orphan_step; eauto. }
  destruct Hw as (j2 & Hj2 & _ & _ & _ & Hf2 & Hr2).
  assert (Hb : books_inv base w') by (eapply books_reachable; etransitivity; [exact Hr|]; eapply rtc_l; [exact Hstep|exact Hr']). split.
  - eapply owned_in; [apply Hb|done|done].
  - unfold ActiveFlowCount. rewrite <- size_dom. assert (Hin : fid ∈ dom (flows (tc_p (tw_c w')))) by (eapply owned_in; [apply (bi_refs _ _ Hb)|done|done]).
    destruct (size (dom (flows (tc_p (tw_c w'))))) eqn:E; [|lia]. apply size_empty_inv in E. set_solver.
Qed.

(** ** Examples and witnesses *)

Lemma calm_all timeout o w w' : tun_step timeout o true w w' -> tun_step timeout o false w w'.
Proof. intros Hs. destruct Hs; econstructor; eauto; done. Qed.
Lemma calm_all_runs timeout o w w' : rtc (tun_step timeout o true) w w' -> rtc (tun_step timeout o false) w w'.
Proof. induction 1; [reflexivity|]. eapply rtc_l; [by apply calm_all|done]. Qed.

Definition never (e : goerr) : bool := false.
Definition ex_opts : udpOptions := mkUO "1.1.1.1" 53 true (60 * Second).
Definition ex_start : tworld := tun_start example_base modeAuto 0.

(** A TCP flow from its first packet to its end, on a client that it dials. *)
Definition ex_tcp_events : list tun_event :=
  [VAdmit 0 false; VConfig 0; VLookup 0; VDialed 5 5 (inl (7, TransportQUIC)); VOpened 9 9 (inl 30); VFirst None; VSecond 50 (Some EEOF); VUnregister; VRelease].
Definition ex_tcp_done : tworld := handleTCPFromTun never ex_start 1 "93.184.216.34" 443 ex_tcp_events.

Ltac answer_auto :=
  let j := fresh in let Hj := fresh in intros j Hj; vm_compute in Hj; injection Hj as <-;
  first [exact I
        | split; [vm_compute; reflexivity|intros ? [= <-]; apply (bool_decide_unpack _); vm_compute; exact I]
        | split_and!; [apply (bool_decide_unpack _); vm_compute; exact I|intros (? & Hm & _); vm_compute in Hm; discriminate Hm|intros ? ? ? ? [= <- <- <- <-]; reflexivity]].

Lemma ex_tcp_run : rtc (tun_step never ex_opts true) ex_start ex_tcp_done.
Proof.
  eapply rtc_l; [by apply (tst_tcp never ex_opts true ex_start 1 "93.184.216.34" 443)|]. apply drive_steps. cbn [answers_ok ex_tcp_events]. repeat (split; [answer_auto|]). exact I.
Qed.
Example ex_tcp_pool :
  map_to_list (tc_clients (tw_c ex_tcp_done)) = [(clientConfigKey (configForMode example_base modeNormal), mkMC 7 TransportQUIC 0 false 0)].
Proof. vm_compute. reflexivity. Qed.

Lemma tun_accounting_witness :
  pendingPermits (tc_p (tw_c ex_tcp_done)) = how_many holds_permit (tw_jobs ex_tcp_done)
  /\ (forall key mc, tc_clients (tw_c ex_tcp_done) !! key = Some mc -> refCount mc = how_many (uses key) (tw_jobs ex_tcp_done))
  /\ (forall id j, tw_jobs ex_tcp_done !! id = Some j -> jb_key j <> ""%string -> jb_client j ∈ tc_open (tw_c ex_tcp_done))
  /\ tc_open (tw_c ex_tcp_done) = pooled (tw_c ex_tcp_done)
  /\ owned jb_flow (tw_jobs ex_tcp_done) (tw_flows ex_tcp_done) /\ owned jb_ref (tw_jobs ex_tcp_done) (dom (flows (tc_p (tw_c ex_tcp_done)))).
Proof. exact (tun_accounting never ex_opts example_base modeAuto 0 ex_tcp_done ex_tcp_run). Defined.

Lemma ex_tcp_finished id j : tw_jobs ex_tcp_done !! id = Some j -> finished_job j.
Proof.
  intros Hj. assert (E : exists x, tw_jobs ex_tcp_done = {[1 := x]} /\ finished_job x) by (eexists; split; [vm_compute; reflexivity|reflexivity]).
  destruct E as (x & E & Hx). rewrite E in Hj. apply lookup_singleton_Some in Hj as [_ <-]. exact Hx.
Qed.
Lemma tun_rest_witness :
  pendingPermits (tc_p (tw_c ex_tcp_done)) = 0 /\ ActiveFlowCount (tw_c ex_tcp_done) = 0 /\ tw_flows ex_tcp_done = ∅ /\ um_flows (tw_m ex_tcp_done) = ∅
  /\ (forall key mc, tc_clients (tw_c ex_tcp_done) !! key = Some mc -> refCount mc = 0 /\ broken mc = false)
  /\ tc_open (tun_Close (tw_c ex_tcp_done)) = ∅.
Proof. exact (tun_rest never ex_opts example_base modeAuto 0 ex_tcp_done ex_tcp_run ex_tcp_finished). Defined.

(** A UDP flow whose goroutine is dialling, and the same after the janitor has closed it. *)
Definition ex_udp : tworld := runState never (Handle ex_opts ex_start 1 0 [xc6; x12; x00; x02] 4000 [x09; x09; x09; x09] 3478).1 1 [VStart 0; VAdmit 0 false; VConfig 0; VLookup 0].
Definition ex_closed : tworld := expireIdle ex_opts ex_udp (61 * Second).
Definition ex_early : tworld := runState never ex_closed 1 [VDialed (62 * Second) (62 * Second) (inl (7, TransportQUIC))].

Lemma ex_udp_run : rtc (tun_step never ex_opts false) ex_start ex_udp.
Proof.
  apply calm_all_runs. eapply rtc_l; [by apply (tst_handle never ex_opts true ex_start 1 0 [xc6; x12; x00; x02] 4000 [x09; x09; x09; x09] 3478)|]. apply drive_steps. cbn [answers_ok]. repeat (split; [answer_auto|]). exact I.
Qed.
Lemma ex_early_run : rtc (tun_step never ex_opts false) ex_start ex_early.
Proof.
  etransitivity; [exact ex_udp_run|]. etransitivity; [apply close_all_steps|]. apply calm_all_runs, drive_steps. cbn [answers_ok]. split; [answer_auto|exact I].
Qed.

Lemma udp_over_quic_witness :
  (forall id j nt key cl t start, tw_jobs ex_early !! id = Some j -> jb_kind j = JUDP nt -> jb_stage j = TOpen key cl t start -> t = TransportQUIC)
  /\ (forall id id' j j', tw_jobs ex_early !! id = Some j -> tw_jobs ex_early !! id' = Some j' -> same_entry j j' -> id = id')
  /\ pendingPermits (tc_p (tw_c ex_early)) = how_many holds_permit (tw_jobs ex_early).
Proof. exact (udp_over_quic never ex_opts example_base modeAuto 0 ex_early ex_early_run). Defined.

Lemma expire_idle_exact_witness :
  let w' := expireIdle ex_opts ex_udp (61 * Second) in
  (forall key id, um_flows (tw_m w') !! key = Some id
     <-> um_flows (tw_m ex_udp) !! key = Some id /\ recent ex_opts ex_udp (61 * Second) id)
  /\ (forall key id, um_flows (tw_m w') !! key = Some id -> tw_jobs w' !! id = tw_jobs ex_udp !! id)
  /\ (forall key id, um_flows (tw_m ex_udp) !! key = Some id -> um_flows (tw_m w') !! key = None -> exists j, tw_jobs w' !! id = Some j /\ jb_close j = CDone)
  /\ rtc (tun_step never ex_opts false) ex_udp w'.
Proof. exact (expire_idle_exact never ex_opts example_base modeAuto 0 ex_udp (61 * Second) ex_udp_run). Defined.

Definition ex_nat : natEntry := mkNat "198.18.0.2:4000>9.9.9.9:3478" 3478 "9.9.9.9" 3478 0.
Definition ex_key : string := Eval vm_compute in clientConfigKey (dialConfigUDP (tc_p (tw_c ex_start))).1.
Definition ex_early_job : job := mkJob (JUDP ex_nat) false (TOpen ex_key 7 TransportQUIC 0) CDone ex_key 7 None None.
Lemma early_close_leaks_witness :
  let w' := udpManager_Close (job_opened ex_early 1 (63 * Second) (63 * Second) (inl 30) ex_early_job) in
  30 ∈ tw_flows w' /\ 1 <= ActiveFlowCount (tw_c w').
Proof.
  refine (early_close_leaks never ex_opts example_base modeAuto 0 ex_early 1 ex_early_job ex_nat ex_key 7 TransportQUIC 0 (63 * Second) (63 * Second) 30 _
    ex_early_run _ eq_refl eq_refl eq_refl _ _ (close_all_steps never ex_opts _ _)).
  - vm_compute. reflexivity.
  - apply (bool_decide_unpack _). vm_compute. exact I.
  - vm_compute. reflexivity.
Defined.

Lemma tun_shutdown_closes_witness :
  let w' := tun_shutdown ex_tcp_done in
  um_flows (tw_m w') = ∅ /\ tc_clients (tw_c w') = ∅ /\ tc_open (tw_c w') = ∅
  /\ (forall key id, um_flows (tw_m ex_tcp_done) !! key = Some id -> exists j, tw_jobs w' !! id = Some j /\ jb_close j = CDone).
Proof. exact (tun_shutdown_closes never ex_opts example_base modeAuto 0 ex_tcp_done ex_tcp_run). Defined.
