(* ===== verification/TunUDP.v ===== *)
(** * The TUN client: UDP pumps and DNS over TCP ([cmd/tun_client/main_windows.go])

    What the goroutines of a UDP flow do once it is set up: the two pumps, one turn of their loops at
    a time, and the fallback that answers DNS queries over a TCP flow when QUIC is not available.
    The results of the calls on the connections are arguments of a turn. *)

From S2P Require Import Prelude Wire GoString ClientConfig Client Socks SocksPolicy SocksConn SocksUDP TunPool TunConn.

(** ** The pumps *)

(** Bytes counted for the flow and for the controller ([st.flowRef] may be nil). *)
Definition count_bytes (w : tworld) (ref : option Z) (up : bool) (n : Z) : tworld :=
  match ref with
  | Some fid => set_ctl w (tun_flowWriter_Write (tw_c w) fid up n)
  | None => w
  end.

(** What the calls of a turn return: [SetReadDeadline] or [SetWriteDeadline], the read or [Recv], the
    send or the write; whether the context of the flow is done; and the time. *)
Record turn := mkTurn { tn_deadline : option goerr; tn_data : list byte; tn_rerr : option goerr; tn_serr : option goerr; tn_done : bool; tn_now : Z }.

(** The payload that was passed on, and the return of the loop, with its error. *)
Definition turn_result : Type := tworld * option (list byte) * option (option goerr).

Section Pumps.
  Context (timeout : goerr -> bool) (id : Z) (ref : option Z).

(** After a read error: a timeout ends the loop only when the flow is being closed. *)
Definition after_read (done : bool) (e : option goerr) : option (option goerr) :=
  match e with
  | None => None
  | Some e =>
      if isTimeoutErr timeout e then if done then Some None else None
      else if isExpectedUDPErr timeout (Some e) then Some None
      else Some (Some e)
  end.

Definition localToRemote (w : tworld) (t : turn) : turn_result :=
  match tn_deadline t with
  | Some e => (w, None, Some (Some e))
  | None =>
      if 0 <? zlen (tn_data t) then
        match tn_serr t with
        | Some e => (w, None, Some (Some e))
        | None => (touch (count_bytes w ref true (zlen (tn_data t))) id (tn_now t), Some (tn_data t), after_read (tn_done t) (tn_rerr t))
        end
      else (w, None, after_read (tn_done t) (tn_rerr t))
  end.

Definition remoteToLocal (w : tworld) (t : turn) : turn_result :=
  match tn_rerr t with
  | Some e =>
      (w, None, if err_is e EDeadlineExceeded then if tn_done t then Some None else None
                else if isExpectedUDPErr timeout (Some e) then Some None else Some (Some e))
  | None =>
      if zlen (tn_data t) =? 0 then (w, None, None)
      else match tn_deadline t with
      | Some e => (w, None, Some (Some e))
      | None =>
          match tn_serr t with
          | Some e => (w, None, Some (if isExpectedUDPErr timeout (Some e) then None else Some e))
          | None => (touch (count_bytes w ref false (zlen (tn_data t))) id (tn_now t), Some (tn_data t), None)
          end
      end
  end.

Definition passed_on (out : option (list byte)) : list (list byte) := match out with Some p => [p] | None => [] end.

(** The loop, with the payloads passed on. *)
Fixpoint pump (step : tworld -> turn -> turn_result) (w : tworld) (ts : list turn) : tworld * list (list byte) * option (option goerr) :=
  match ts with
  | [] => (w, [], None)
  | t :: ts =>
      match step w t with
      | (w, out, Some r) => (w, passed_on out, Some r)
      | (w, out, None) => let '(w, outs, r) := pump step w ts in (w, passed_on out ++ outs, r)
      end
  end.
End Pumps.

(** ** DNS over TCP *)

(** How a call that is given a time limit ends: by itself, because the context is done, or at the
    limit. *)
Inductive race := RDone | RCtx (e : goerr) | RTimer.

Definition writeWithTimeout (r : race) (wr : writer) (data : list byte) : writer * option goerr :=
  match r with
  | RDone => w_write wr data
  | RCtx e => ((w_write wr data).1, Some e)
  | RTimer => ((w_write wr data).1, Some EDeadlineExceeded)
  end.
Definition readNWithTimeout (r : race) (rd : reader) (n : Z) : res (list byte * reader) :=
  match r with
  | RDone => ReadFull rd n
  | RCtx e => Err e
  | RTimer => Err EDeadlineExceeded
  end.

Definition dns_frame (query : list byte) : list byte := be_put 2 (zlen query) ++ query.

(** The exchange of [dnsQueryOverTCP] on an open flow: what is written, the answer, the bytes to
    count for the flow, and whether an error is one of the flow, for which the client is marked. *)
Record exchange := mkExchange { ex_written : writer; ex_answer : res (list byte); ex_up : Z; ex_down : Z; ex_flow_err : option goerr }.

Definition dns_exchange (query : list byte) (wr : writer) (rd : reader) (rw rl rp : race) : exchange :=
  let '(wr, werr) := writeWithTimeout rw wr (dns_frame query) in
  match werr with
  | Some e => mkExchange wr (Err e) 0 0 (Some e)
  | None =>
      match readNWithTimeout rl rd 2 with
      | Ok (header, rd) =>
          let respLen := be_get header in
          if (respLen <=? 0) || (65535 <? respLen) then mkExchange wr (Err (ENew "invalid dns response length")) (zlen query) 0 None
          else match readNWithTimeout rp rd respLen with
          | Ok (resp, _) => mkExchange wr (Ok resp) (zlen query) (zlen resp) None
          | Err e => mkExchange wr (Err e) (zlen query) 0 (Some e)
          | Panic m => mkExchange wr (Panic m) (zlen query) 0 None
          end
      | Err e => mkExchange wr (Err e) (zlen query) 0 (Some e)
      | Panic m => mkExchange wr (Panic m) (zlen query) 0 None
      end
  end.

(** The end of [dnsQueryOverTCP] for a job that runs: the bytes are counted, an error of the flow is
    recorded, the flow closed; [unregisterFlow] follows. *)
Definition dns_finish (w : tworld) (id now : Z) (x : exchange) (j : job) : tworld :=
  job_exchanged (count_bytes (count_bytes w (jb_ref j) true (ex_up x)) (jb_ref j) false (ex_down x)) id now (ex_flow_err x) j.

(** The resolver of a DNS query over TCP. *)
Definition fallback_target (o : udpOptions) : string * Z := (DNSResolverHost o, DNSResolverPort o).

(** What the calls of a turn of [runDNSFallback] return; [dt_answer] is the result of
    [dnsQueryOverTCP], which refuses an empty query and one over 65535 bytes. *)
Record dnsTurn := mkDnsTurn {
  dt_deadline : option goerr; dt_query : list byte; dt_rerr : option goerr; dt_answer : res (list byte);
  dt_wdeadline : option goerr; dt_werr : option goerr; dt_done : bool; dt_now : Z }.

Definition dnsQueryOverTCP_result (query : list byte) (answer : res (list byte)) : res (list byte) :=
  if (zlen query =? 0) || (65535 <? zlen query) then Err (ENew "invalid dns query size") else answer.

Definition after_dns_read (timeout : goerr -> bool) (done : bool) (e : option goerr) : bool :=
  match e with
  | None => false
  | Some e => if isTimeoutErr timeout e then done else true
  end.
(** The answer that was written to the application, and whether [closeState] is called. *)
Definition runDNSFallback (timeout : goerr -> bool) (id : Z) (w : tworld) (t : dnsTurn) : tworld * option (list byte) * bool :=
  match dt_deadline t with
  | Some _ => (w, None, true)
  | None =>
      if 0 <? zlen (dt_query t) then
        match dnsQueryOverTCP_result (dt_query t) (dt_answer t) with
        | Ok resp =>
            if zlen resp =? 0 then (w, None, false)
            else match dt_wdeadline t, dt_werr t with
            | None, None => (touch w id (dt_now t), Some resp, after_dns_read timeout (dt_done t) (dt_rerr t))
            | _, _ => (w, None, true)
            end
        | _ => (w, None, true)
        end
      else (w, None, after_dns_read timeout (dt_done t) (dt_rerr t))
  end.
Definition fallback_turn (timeout : goerr -> bool) (id : Z) (w : tworld) (t : dnsTurn) : tworld * option (list byte) :=
  let '(w, out, stop) := runDNSFallback timeout id w t in
  (if stop then on_job job_fallback_end w id else w, out).

(** ** The pumps pass everything on *)

Definition up_total (w : tworld) : Z := totalUpBytes (tc_p (tw_c w)).
Definition down_total (w : tworld) : Z := totalDownBytes (tc_p (tw_c w)).
Fixpoint total_len (l : list (list byte)) : Z := match l with [] => 0 | x :: l => zlen x + total_len l end.
Definition nonempty (l : list byte) : bool := 0 <? zlen l.

Lemma touch_ctl w id now : tw_c (touch w id now) = tw_c w.
Proof. unfold touch, on_job. destruct (tw_jobs w !! id) as [j|]; [|done]. by destruct (jb_kind j). Qed.

Lemma count_totals w fid up n : 0 < n ->
  up_total (count_bytes w (Some fid) up n) = up_total w + (if up then n else 0)
  /\ down_total (count_bytes w (Some fid) up n) = down_total w + (if up then 0 else n).
Proof.
  intros Hn. unfold up_total, down_total. cbn. unfold flowWriter_Write. rewrite (proj2 (Z.ltb_lt _ _)) by done. destruct up; cbn; lia.
Qed.

(** What one turn of a pump may do. *)
Definition good_turn (step : tworld -> turn -> turn_result) (total : tworld -> Z) : Prop :=
  forall w t w' out r, step w t = (w', out, r) ->
  total w' = total w + total_len (passed_on out) /\ (out = None \/ out = Some (tn_data t) /\ nonempty (tn_data t) = true)
  /\ (out = None -> nonempty (tn_data t) = true -> tn_rerr t = None -> is_Some r).

Lemma localToRemote_good timeout id fid : good_turn (localToRemote timeout id (Some fid)) up_total.
Proof.
  intros w t w' out r. unfold localToRemote, nonempty. destruct (tn_deadline t); [intros [= <- <- <-]; cbn; split_and!; [lia|by left|done]|].
  destruct (0 <? zlen (tn_data t)) eqn:E.
  - destruct (tn_serr t); intros [= <- <- <-]; cbn [passed_on total_len]; [split_and!; [lia|by left|done]|]. split_and!; [|by right|done].
    unfold up_total. rewrite touch_ctl. zbool. destruct (count_totals w fid true (zlen (tn_data t)) E) as [H _]. unfold up_total in *. etransitivity; [exact H|]. cbv iota. lia.
  - intros [= <- <- <-]. cbn. split_and!; [lia|by left|done].
Qed.
Lemma remoteToLocal_good timeout id fid : good_turn (remoteToLocal timeout id (Some fid)) down_total.
Proof.
  intros w t w' out r. unfold remoteToLocal, nonempty. destruct (tn_rerr t) as [e|]; [intros [= <- <- <-]; cbn; split_and!; [lia|by left|done]|].
  destruct (zlen (tn_data t) =? 0) eqn:E; zbool; [intros [= <- <- <-]; cbn; split_and!; [lia|by left|by rewrite E]|].
  assert (Hpos : 0 < zlen (tn_data t)) by (pose proof (zlen_nonneg (tn_data t)); lia).
  destruct (tn_deadline t); [intros [= <- <- <-]; cbn; split_and!; [lia|by left|done]|].
  destruct (tn_serr t); intros [= <- <- <-]; cbn [passed_on total_len]; [split_and!; [lia|by left|done]|].
  split_and!; [|right; split; [done|by apply Z.ltb_lt]|done].
  unfold down_total. rewrite touch_ctl. destruct (count_totals w fid false (zlen (tn_data t)) Hpos) as [_ H]. unfold down_total in *. etransitivity; [exact H|]. cbv iota. lia.
Qed.

Lemma total_len_app l k : total_len (l ++ k) = total_len l + total_len k.
Proof. induction l; cbn; lia. Qed.

(** The payloads a pump passes on are payloads it got, in their order, each at most once, with
    nothing but empty ones and those that end it left out, and their bytes are what it counts. *)
Lemma pump_spec step total : good_turn step total -> forall ts w w' outs r, pump step w ts = (w', outs, r) ->
  total w' = total w + total_len outs
  /\ outs `sublist_of` map tn_data ts
  /\ (r = None -> Forall (fun t => tn_rerr t = None) ts -> outs = List.filter nonempty (map tn_data ts)).
Proof.
  intros Hg. induction ts as [|t ts IH]; intros w w' outs r; cbn [pump].
  - intros [= <- <- <-]. cbn. split_and!; [lia|constructor|done].
  - destruct (step w t) as [[w1 out] s] eqn:Es. destruct (Hg _ _ _ _ _ Es) as (T1 & O1 & L1). destruct s as [s|].
    + intros [= <- <- <-]. split_and!; [done| |done]. destruct O1 as [-> | [-> _]]; cbn; [apply sublist_nil_l|]. apply sublist_skip, sublist_nil_l.
    + destruct (pump step w1 ts) as [[w2 outs2] r2] eqn:Ep. intros [= <- <- <-]. destruct (IH _ _ _ _ Ep) as (T2 & S2 & A2). split_and!.
      * rewrite total_len_app. lia.
      * cbn. destruct O1 as [-> | [-> _]]; cbn; [by apply sublist_cons|by apply sublist_skip].
      * intros -> Hf. inversion Hf as [|? ? H1 H2]; subst. cbn. rewrite (A2 eq_refl H2). destruct O1 as [-> | [-> Hn]]; cbn [passed_on app].
        -- destruct (nonempty (tn_data t)) eqn:En; [|done]. by destruct (L1 eq_refl eq_refl H1).
        -- by rewrite Hn.
Qed.

(** A turn on which nothing fails: a read may time out while the flow is in use. *)
Definition quiet (timeout : goerr -> bool) (t : turn) : Prop :=
  tn_deadline t = None /\ tn_serr t = None /\ match tn_rerr t with None => True | Some e => isTimeoutErr timeout e = true /\ tn_done t = false end.

Lemma quiet_up timeout id ref ts : forall w, Forall (quiet timeout) ts ->
  exists w', pump (localToRemote timeout id ref) w ts = (w', List.filter nonempty (map tn_data ts), None).
Proof.
  induction ts as [|t ts IH]; intros w Hq; [by exists w|]. inversion Hq as [|? ? (H1 & H2 & H3) Hq']; subst.
  assert (Hs : exists w1, localToRemote timeout id ref w t = (w1, if nonempty (tn_data t) then Some (tn_data t) else None, None)).
  { unfold localToRemote. rewrite H1, H2. replace (after_read timeout (tn_done t) (tn_rerr t)) with (@None (option goerr)); [unfold nonempty; case_on; eauto|].
    unfold after_read. destruct (tn_rerr t); [|done]. by destruct H3 as [-> ->]. }
  destruct Hs as [w1 Hs]. cbn [pump map List.filter]. rewrite Hs. destruct (IH w1 Hq') as [w' ->]. exists w'. by destruct (nonempty (tn_data t)).
Qed.

(** The pumps of a UDP flow: whatever the connections do, the payloads passed on are payloads
    received, unchanged, in order and at most once, and exactly their bytes are added to the total
    of the direction; a pump that has only had reads without errors has passed on every payload
    that was not empty; and read timeouts alone, however many, neither end the pump towards the
    gateway nor lose a payload. *)
Theorem udp_pumps_pass_on timeout id fid w ts :
  (forall w' outs r, pump (localToRemote timeout id (Some fid)) w ts = (w', outs, r) ->
     up_total w' = up_total w + total_len outs /\ outs `sublist_of` map tn_data ts
     /\ (r = None -> Forall (fun t => tn_rerr t = None) ts -> outs = List.filter nonempty (map tn_data ts)))
  /\ (forall w' outs r, pump (remoteToLocal timeout id (Some fid)) w ts = (w', outs, r) ->
     down_total w' = down_total w + total_len outs /\ outs `sublist_of` map tn_data ts
     /\ (r = None -> Forall (fun t => tn_rerr t = None) ts -> outs = List.filter nonempty (map tn_data ts)))
  /\ (Forall (quiet timeout) ts -> exists w', pump (localToRemote timeout id (Some fid)) w ts = (w', List.filter nonempty (map tn_data ts), None)).
Proof.
  split_and!; [intros w' outs r; apply pump_spec, localToRemote_good|intros w' outs r; apply pump_spec, remoteToLocal_good|apply quiet_up].
Qed.

(** ** DNS queries *)

(** What a resolver reads from a TCP connection: a length of two bytes and as many bytes. *)
Definition dns_read_message (r : reader) : res (list byte * reader) := '(n, r) ← read_be 2 r; ReadFull r n.

Lemma dns_frame_read msg rest fin : 0 <= zlen msg <= 65535 -> dns_read_message (Reader (dns_frame msg ++ rest) fin) = Ok (msg, Reader rest fin).
Proof.
  intros Hl. unfold dns_read_message, dns_frame. rewrite <- app_assoc. change 2 with (Z.of_nat 2). rewrite read_be_put by (change (256 ^ Z.of_nat 2) with 65536; lia).
  cbn [mbind res_bind]. apply ReadFull_app.
Qed.

Lemma dns_exchange_works query answer rest fin out :
  0 < zlen query <= 65535 -> 0 < zlen answer <= 65535 ->
  dns_exchange query (Writer out None) (Reader (dns_frame answer ++ rest) fin) RDone RDone RDone
  = mkExchange (Writer (out ++ dns_frame query) None) (Ok answer) (zlen query) (zlen answer) None.
Proof.
  intros Hq Ha. unfold dns_exchange, writeWithTimeout, readNWithTimeout. cbn [w_write w_room].
  change (dns_frame answer ++ rest) with ((be_put 2 (zlen answer) ++ answer) ++ rest). rewrite <- app_assoc.
  change 2 with (zlen (be_put 2 (zlen answer))) at 1. rewrite ReadFull_app. rewrite be_get_put_u16 by (unfold is_u16; lia). cbn zeta.
  rewrite (proj2 (Z.leb_gt _ _)) by lia. rewrite (proj2 (Z.ltb_ge _ _)) by lia. cbn [orb]. by rewrite ReadFull_app.
Qed.
Lemma dns_exchange_zero query rest fin out :
  dns_exchange query (Writer out None) (Reader (dns_frame [] ++ rest) fin) RDone RDone RDone
  = mkExchange (Writer (out ++ dns_frame query) None) (Err (ENew "invalid dns response length")) (zlen query) 0 None.
Proof.
  unfold dns_exchange, writeWithTimeout, readNWithTimeout. cbn [w_write w_room]. change (dns_frame [] ++ rest) with (be_put 2 0 ++ rest).
  change 2 with (zlen (be_put 2 0)) at 1. by rewrite ReadFull_app.
Qed.
Lemma readN_length r rd n out rd' : 0 <= n -> readNWithTimeout r rd n = Ok (out, rd') -> zlen out = n.
Proof. intros Hn. destruct r; try done. cbn. intros H%ReadFull_inv. lia. Qed.
Lemma readN_total r rd n : is_panic (readNWithTimeout r rd n) = false.
Proof. destruct r; try done. apply ReadFull_total. Qed.
(** Every end of an exchange is an answer of the size announced, or an error. *)
Lemma dns_exchange_ends query wr rd rw rl rp :
  let x := dns_exchange query wr rd rw rl rp in
  match ex_answer x with
  | Ok resp => 0 < zlen resp <= 65535 /\ ex_flow_err x = None
  | Err e => ex_flow_err x = Some e \/ ex_flow_err x = None
  | Panic _ => False
  end.
Proof.
  cbn zeta. unfold dns_exchange. destruct (writeWithTimeout rw wr (dns_frame query)) as [wr' [e|]]; [by left|].
  pose proof (readN_total rl rd 2) as T1. destruct (readNWithTimeout rl rd 2) as [[h rd1]|e|m]; [|by left|done]. destruct (_ || _) eqn:E; [by right|].
  apply orb_false_iff in E as [E1 E2]. zbool. pose proof (readN_total rp rd1 (be_get h)) as T2. destruct (readNWithTimeout rp rd1 (be_get h)) as [[resp rd2]|e|m] eqn:Er; [|by left|done].
  cbn. apply readN_length in Er; [|lia]. split; [lia|done].
Qed.
Lemma ReadFull_short l fin n : zlen l < n -> exists e, ReadFull (Reader l fin) n = Err e.
Proof.
  intros Hl. pose proof (zlen_nonneg l). unfold ReadFull. cbn [rd_bytes]. rewrite (proj2 (Z.leb_gt n 0)), (proj2 (Z.leb_gt n (zlen l))) by lia. destruct l; eauto.
Qed.
Lemma dns_exchange_short query answer fin out n :
  0 < zlen answer <= 65535 -> 0 <= n < zlen (dns_frame answer) ->
  exists e, ex_flow_err (dns_exchange query (Writer out None) (Reader (ztake n (dns_frame answer)) fin) RDone RDone RDone) = Some e.
Proof.
  intros Ha Hn. unfold dns_frame in Hn at 1. rewrite zlen_app, zlen_be_put in Hn. unfold dns_exchange, writeWithTimeout, readNWithTimeout. cbn [w_write w_room].
  destruct (decide (n < 2)) as [Hs|Hs].
  - destruct (ReadFull_short (ztake n (dns_frame answer)) fin 2) as [e ->]; [|by exists e]. rewrite zlen_ztake by lia. lia.
  - change (dns_frame answer) with (be_put 2 (zlen answer) ++ answer). rewrite ztake_app_ge by (rewrite zlen_be_put; lia).
    change 2 with (zlen (be_put 2 (zlen answer))) at 1. rewrite ReadFull_app.
    rewrite be_get_put_u16 by (unfold is_u16; lia). cbn zeta. rewrite (proj2 (Z.leb_gt _ _)), (proj2 (Z.ltb_ge _ _)) by lia. cbn [orb].
    destruct (ReadFull_short (ztake (n - zlen (be_put 2 (zlen answer))) answer) fin (zlen answer)) as [e ->]; [|by exists e].
    rewrite zlen_be_put, zlen_ztake by lia. lia.
Qed.

(** A DNS query over TCP reaches the resolver and its answer the application: on a connection that
    works, what is written is one message that a resolver reads back as the query, with nothing
    after it; when the resolver sends a message of 1 to 65535 bytes, the result is that message, and
    the sizes of the two are the bytes counted. Every other end is an error: a message of length
    zero, which is not held against the client, a connection that ends early, or a call that runs
    out of time, for which the client is marked. *)
Theorem dns_over_tcp query answer rest fin out :
  0 < zlen query <= 65535 -> 0 < zlen answer <= 65535 ->
  (let x := dns_exchange query (Writer out None) (Reader (dns_frame answer ++ rest) fin) RDone RDone RDone in
   w_out (ex_written x) = out ++ dns_frame query
   /\ dns_read_message (Reader (dns_frame query) fin) = Ok (query, Reader [] fin)
   /\ ex_answer x = Ok answer /\ ex_up x = zlen query /\ ex_down x = zlen answer /\ ex_flow_err x = None)
  /\ (let x := dns_exchange query (Writer out None) (Reader (dns_frame [] ++ rest) fin) RDone RDone RDone in
      (exists e, ex_answer x = Err e) /\ ex_flow_err x = None)
  /\ (forall wr rd rw rl rp, let x := dns_exchange query wr rd rw rl rp in
      match ex_answer x with
      | Ok resp => 0 < zlen resp <= 65535 /\ ex_flow_err x = None
      | Err e => ex_flow_err x = Some e \/ ex_flow_err x = None
      | Panic _ => False
      end)
  /\ (forall n, 0 <= n < zlen (dns_frame answer) ->
      exists e, ex_flow_err (dns_exchange query (Writer out None) (Reader (ztake n (dns_frame answer)) fin) RDone RDone RDone) = Some e).
Proof.
  intros Hq Ha. split_and!; cbn zeta.
  - rewrite dns_exchange_works by done. split_and!; try done.
    pose proof (dns_frame_read query [] fin ltac:(lia)) as Hr. by rewrite app_nil_r in Hr.
  - rewrite dns_exchange_zero. split; [by eexists|done].
  - intros wr rd rw rl rp. apply dns_exchange_ends.
  - intros n Hn. by apply dns_exchange_short.
Qed.

(** ** The key of a flow *)

Lemma digits_avoid c l : is_digit c = false -> Forall (fun x => is_digit x = true) l -> avoids c l.
Proof. intros Hc Hl. eapply Forall_impl; [exact Hl|]. cbn. intros x Hx ->. congruence. Qed.
Lemma port_digits n : 0 < n <= 65535 -> FormatInt n = FormatUint n /\ is_u64 n /\ Forall (fun x => is_digit x = true) (FormatUint n).
Proof.
  intros Hn. assert (Hu : is_u64 n) by (unfold is_u64; lia). split_and!; [|done|by apply parse_FormatUint]. unfold FormatInt. by rewrite (proj2 (Z.ltb_ge _ _)) by lia.
Qed.

(** [host:port] tells hosts and ports apart, whatever the host. *)
Lemma host_port_inj h p h' p' : 0 < p <= 65535 -> 0 < p' <= 65535 -> h ++ x3a :: FormatInt p = h' ++ x3a :: FormatInt p' -> h = h' /\ p = p'.
Proof.
  intros Hp Hp' E. destruct (port_digits p Hp) as (E1 & U1 & D1), (port_digits p' Hp') as (E2 & U2 & D2). rewrite E1, E2 in E.
  apply last_separator_unique in E as [-> E]; [|by apply digits_avoid..]. split; [done|]. by apply FormatUint_inj.
Qed.

Lemma dotted_inj a b : length a = 4%nat -> length b = 4%nat -> ip_string a = ip_string b -> a = b.
Proof.
  intros Ha Hb E. destruct a as [|a1 [|a2 [|a3 [|a4 [|]]]]], b as [|b1 [|b2 [|b3 [|b4 [|]]]]]; try done.
  change (ip_string [a1; a2; a3; a4]) with (dotted [a1; a2; a3; a4]) in E. change (ip_string [b1; b2; b3; b4]) with (dotted [b1; b2; b3; b4]) in E.
  destruct (parse4_dotted a1 a2 a3 a4) as [P1 _], (parse4_dotted b1 b2 b3 b4) as [P2 _]. rewrite E in P1. congruence.
Qed.
Lemma octet_digits a : Forall (fun x => is_digit x = true) (FormatUint (bz a)).
Proof. apply parse_FormatUint. pose proof (bz_range a). unfold is_u64. lia. Qed.
Lemma dotted_avoid c a : length a = 4%nat -> is_digit c = false -> c <> x2e -> avoids c (ip_string a).
Proof.
  intros Ha Hc Hd. destruct a as [|a1 [|a2 [|a3 [|a4 [|]]]]]; try done. change (ip_string [a1; a2; a3; a4]) with (dotted [a1; a2; a3; a4]).
  unfold dotted. cbn [map concat app]. rewrite ?app_nil_r. pose proof (digits_avoid c _ Hc (octet_digits a1)). pose proof (digits_avoid c _ Hc (octet_digits a2)).
  pose proof (digits_avoid c _ Hc (octet_digits a3)). pose proof (digits_avoid c _ Hc (octet_digits a4)).
  repeat (apply avoids_app; split; [done|]; try (constructor; [done|])). done.
Qed.

(** Two flows with different addresses or ports have different keys, so that the table of UDP flows
    never takes the packets of one flow for another. *)
Theorem flow_key_distinct src sp dst dp src' sp' dst' dp' :
  length src = 4%nat -> length dst = 4%nat -> length src' = 4%nat -> length dst' = 4%nat ->
  0 < sp <= 65535 -> 0 < dp <= 65535 -> 0 < sp' <= 65535 -> 0 < dp' <= 65535 ->
  flow_key (tcpipAddrToString src) sp (tcpipAddrToString dst) dp = flow_key (tcpipAddrToString src') sp' (tcpipAddrToString dst') dp' ->
  src = src' /\ sp = sp' /\ dst = dst' /\ dp = dp'.
Proof.
  intros L1 L2 L3 L4 P1 P2 P3 P4. assert (Hz : forall l : list byte, length l = 4%nat -> tcpipAddrToString l = ip_text l).
  { intros l Hl. unfold tcpipAddrToString, zlen. by rewrite Hl. }
  rewrite !Hz by done. unfold flow_key, ip_text. rewrite !bytes_string_bytes. intros E%string_of_bytes_inj.
  rewrite !app_comm_cons, !app_assoc in E. rewrite <- !app_assoc in E. cbn [app] in E.
  assert (Hav : forall l p, length l = 4%nat -> 0 < p <= 65535 -> avoids x3e (ip_string l ++ x3a :: FormatInt p)).
  { intros l p Hl Hp. apply avoids_app. split; [by apply dotted_avoid|]. constructor; [done|]. destruct (port_digits p Hp) as (-> & _ & D). by apply digits_avoid. }
  assert (Hr : forall a p b q, ip_string a ++ x3a :: FormatInt p ++ x3e :: ip_string b ++ x3a :: FormatInt q
                               = (ip_string a ++ x3a :: FormatInt p) ++ x3e :: (ip_string b ++ x3a :: FormatInt q)) by (intros; by rewrite <- app_assoc).
  rewrite !Hr in E. apply first_separator_unique in E as [E1 E2]; [|by apply Hav..]. apply host_port_inj in E1 as [E1 ->], E2 as [E2 ->]; try done.
  apply dotted_inj in E1, E2; done.
Qed.

(** ** The block of QUIC and the resolver *)

(** After a dial error that shows that QUIC does not get through, UDP flows are not dialled for
    thirty seconds, and from then on they are again; other errors block nothing. A flow that starts
    meanwhile costs no permit and no client: one to port 53 is served by the fallback, every other
    one is closed. *)
Theorem quic_block m now now' e :
  let msg := ToLower (err_text e) in
  let m' := noteQUICDialError m now now' (Some e) in
  (Contains msg "no application protocol" || Contains msg "crypto_error 0x178" || Contains msg "no recent network activity" = true ->
     forall t, isQUICBlocked m' t = (t <? now + 30 * Second))
  /\ (Contains msg "no application protocol" || Contains msg "crypto_error 0x178" || Contains msg "no recent network activity" = false -> m' = m)
  /\ (forall w id t j nt, tw_m w = m' -> jb_kind j = JUDP nt -> isQUICBlocked m' t = true ->
        job_start w id t j = put_job w (tw_c w) (tw_flows w) id (goto j (if nt_dstPort nt =? 53 then TFallback else TClose))).
Proof.
  cbn zeta. unfold noteQUICDialError. set (a := Contains _ "no application protocol"). set (b := Contains _ "crypto_error 0x178"). set (c := Contains _ "no recent network activity").
  split_and!.
  - intros H t. replace (negb a && negb b && negb c) with false; [done|]. by destruct a, b, c.
  - intros H. replace (negb a && negb b && negb c) with true; [done|]. by destruct a, b, c.
  - intros w id t j nt Hm Hk Hb. unfold job_start. rewrite Hm, Hb. unfold abandon. by rewrite Hk.
Qed.

(** The target of a UDP flow: the resolver of the options for port 53 when the override is on, the
    address it was sent to otherwise. *)
Definition handle_target (o : udpOptions) (local : list byte) (dstPort : Z) : string * Z :=
  if DNSOverride o && (dstPort =? 53) then (DNSResolverHost o, DNSResolverPort o) else (tcpipAddrToString local, dstPort).
Lemma Handle_target o w id now remote srcPort local dstPort :
  (Handle o w id now remote srcPort local dstPort).2 = true ->
  exists j nt, tw_jobs (Handle o w id now remote srcPort local dstPort).1 !! id = Some j /\ jb_kind j = JUDP nt /\ (targetHost nt, targetPort nt) = handle_target o local dstPort
    /\ nt_dstPort nt = dstPort /\ nt_lastActive nt = now /\ jb_stage j = TStart.
Proof.
  unfold Handle, handle_target. cbn zeta. case_on; [done|]. case_on; [done|]. destruct (DNSOverride o && (dstPort =? 53)); intros _; cbn; eexists _, _; rewrite lookup_insert_eq; done.
Qed.

(** The fallback ignores the override: with it off a flow to a resolver of its own choice keeps that
    target over QUIC, but as soon as QUIC is blocked its queries go to the resolver of the options. *)
Theorem fallback_ignores_override o w id now remote srcPort local :
  DNSOverride o = false -> (Handle o w id now remote srcPort local 53).2 = true -> fallback_target o <> (tcpipAddrToString local, 53) ->
  exists j nt, tw_jobs (Handle o w id now remote srcPort local 53).1 !! id = Some j /\ jb_kind j = JUDP nt
    /\ (targetHost nt, targetPort nt) = (tcpipAddrToString local, 53) /\ (targetHost nt, targetPort nt) <> fallback_target o
    /\ jb_stage (abandon j) = TFallback.
Proof.
  intros Ho Hk Hne. destruct (Handle_target _ _ _ _ _ _ _ _ Hk) as (j & nt & Hj & Hkd & Ht & Hp & _). unfold handle_target in Ht. rewrite Ho in Ht. cbn in Ht.
  exists j, nt. split_and!; try done; [congruence|]. unfold abandon. rewrite Hkd, Hp. done.
Qed.

(** ** Examples and witnesses *)

Definition ex_turns : list turn :=
  [mkTurn None [x01; x02] None None false 5; mkTurn None [] (Some EDeadlineExceeded) None false 6; mkTurn None [x03] None None false 7].
Example ex_pump_up :
  let '(w', outs, r) := pump (localToRemote (fun _ => false) 1 (Some 1)) (tun_start example_base modeAuto 0) ex_turns in
  (up_total w', outs, r) = (3, [[x01; x02]; [x03]], None).
Proof. vm_compute. reflexivity. Qed.

Lemma dns_over_tcp_witness :
  (let x := dns_exchange [x01; x02] (Writer [] None) (Reader (dns_frame [x03] ++ []) EEOF) RDone RDone RDone in
   w_out (ex_written x) = [] ++ dns_frame [x01; x02]
   /\ dns_read_message (Reader (dns_frame [x01; x02]) EEOF) = Ok ([x01; x02], Reader [] EEOF)
   /\ ex_answer x = Ok [x03] /\ ex_up x = zlen [x01; x02] /\ ex_down x = zlen [x03] /\ ex_flow_err x = None)
  /\ (let x := dns_exchange [x01; x02] (Writer [] None) (Reader (dns_frame [] ++ []) EEOF) RDone RDone RDone in
      (exists e, ex_answer x = Err e) /\ ex_flow_err x = None)
  /\ (forall wr rd rw rl rp, let x := dns_exchange [x01; x02] wr rd rw rl rp in
      match ex_answer x with
      | Ok resp => 0 < zlen resp <= 65535 /\ ex_flow_err x = None
      | Err e => ex_flow_err x = Some e \/ ex_flow_err x = None
      | Panic _ => False
      end)
  /\ (forall n, 0 <= n < zlen (dns_frame [x03]) ->
      exists e, ex_flow_err (dns_exchange [x01; x02] (Writer [] None) (Reader (ztake n (dns_frame [x03])) EEOF) RDone RDone RDone) = Some e).
Proof. refine (dns_over_tcp [x01; x02] [x03] [] EEOF [] _ _); split; vm_compute; congruence. Defined.

Lemma flow_key_distinct_witness :
  [xc6; x12; x00; x02] = [xc6; x12; x00; x02] /\ 4000 = 4000 /\ [x09; x09; x09; x09] = [x09; x09; x09; x09] /\ 53 = 53.
Proof.
  refine (flow_key_distinct [xc6; x12; x00; x02] 4000 [x09; x09; x09; x09] 53 [xc6; x12; x00; x02] 4000 [x09; x09; x09; x09] 53
    eq_refl eq_refl eq_refl eq_refl _ _ _ _ eq_refl); split; vm_compute; congruence.
Defined.

(** The application asks 8.8.8.8; the options name 1.1.1.1 and switch the override off. *)
Definition ex_no_override : udpOptions := mkUO "1.1.1.1" 53 false (60 * Second).
Lemma fallback_ignores_override_witness :
  exists j nt, tw_jobs (Handle ex_no_override (tun_start example_base modeAuto 0) 1 0 [xc6; x12; x00; x02] 4000 [x08; x08; x08; x08] 53).1 !! 1 = Some j /\ jb_kind j = JUDP nt
    /\ (targetHost nt, targetPort nt) = (tcpipAddrToString [x08; x08; x08; x08], 53) /\ (targetHost nt, targetPort nt) <> fallback_target ex_no_override
    /\ jb_stage (abandon j) = TFallback.
Proof.
  refine (fallback_ignores_override ex_no_override (tun_start example_base modeAuto 0) 1 0 [xc6; x12; x00; x02] 4000 [x08; x08; x08; x08] eq_refl _ _).
  - vm_compute. reflexivity.
  - intros E. vm_compute in E. congruence.
Defined.
