(* ===== verification/TunSystem.v ===== *)
(** * The TUN client: the system around the flows ([cmd/tun_client/main_windows.go], [internal/tun/iobased/endpoint.go])

    The start of the program: flags, privileges, the address of the gateway and the route to it, the
    PowerShell scripts that configure the interface and the routes, and the stack of clean-up
    functions; and the path of a packet between the TUN device and the network stack. PowerShell,
    the resolver, the Windows API and the network stack are arguments. *)

From S2P Require Import Prelude GoString Auth ClientConfig Client Socks SocksPolicy SocksConn TunPool TunConn.

(** ** The clean-up stack *)

Section Cleanup.
  Context {S : Type}.

(** A function changes the state and returns, or panics after it has changed it. *)
Definition cleanupFn : Type := S -> S * bool.
Definition safeCall (s : S) (fn : cleanupFn) : S := (fn s).1.
Definition cleanup_Add (fns : list cleanupFn) (fn : cleanupFn) : list cleanupFn := fns ++ [fn].
Definition cleanup_Run (fns : list cleanupFn) (s : S) : S := foldl safeCall s (rev fns).
End Cleanup.

(** ** PowerShell *)

(** [strings.ReplaceAll] of one byte. *)
Definition replace_byte (c : byte) (new l : list byte) : list byte := concat (map (fun b => if bool_decide (b = c) then new else [b]) l).
Definition psQuote (s : string) : string := string_of_bytes (x27 :: replace_byte x27 [x27; x27] (bytes_of_string s) ++ [x27]).

Definition nl : string := string_of_bytes [x0a].
Definition dq : string := string_of_bytes [x22].
Definition unlines (l : list string) : string := String.concat nl l.

Record routeInfo := mkRoute { InterfaceIndex : Z; NextHop : string }.
Definition next_hop (route : routeInfo) : string := if String.eqb (NextHop route) "" then "0.0.0.0" else NextHop route.

Open Scope string_scope.
Definition find_script (remoteIP : string) : string :=
  unlines ["";
   "$ErrorActionPreference='Stop'";
   "$r = Find-NetRoute -RemoteIPAddress " ++ psQuote remoteIP ++ " -AddressFamily IPv4 |";
   "  Sort-Object -Property @{Expression={ $_.RouteMetric + $_.InterfaceMetric }} |";
   "  Select-Object -First 1 -Property InterfaceIndex,NextHop";
   "if ($null -eq $r) { throw " ++ dq ++ "route_not_found" ++ dq ++ " }";
   "$r | ConvertTo-Json -Compress";
   ""].
Definition default_route_script : string :=
  unlines ["";
   "$ErrorActionPreference='Stop'";
   "$r = Get-NetRoute -AddressFamily IPv4 -DestinationPrefix '0.0.0.0/0' |";
   "  Sort-Object -Property @{Expression={ $_.RouteMetric + $_.InterfaceMetric }} |";
   "  Select-Object -First 1 -Property InterfaceIndex,NextHop";
   "if ($null -eq $r) { throw " ++ dq ++ "default_route_not_found" ++ dq ++ " }";
   "$r | ConvertTo-Json -Compress";
   ""].
Definition configureTunInterface_script (alias ip : string) (prefix : Z) (gw : string) (mtu : Z) : string :=
  unlines ["";
   "$ErrorActionPreference='Stop'";
   "$alias = " ++ psQuote alias;
   "$ip = " ++ psQuote ip;
   "$gw = " ++ psQuote gw;
   "$prefix = " ++ show_int prefix;
   "$mtu = " ++ show_int mtu;
   "";
   "Set-NetIPInterface -InterfaceAlias $alias -AddressFamily IPv4 -NlMtuBytes $mtu -ErrorAction Stop | Out-Null";
   "Get-NetIPAddress -InterfaceAlias $alias -AddressFamily IPv4 -ErrorAction SilentlyContinue | Remove-NetIPAddress -Confirm:$false -ErrorAction SilentlyContinue";
   "";
   "New-NetIPAddress -InterfaceAlias $alias -AddressFamily IPv4 -IPAddress $ip -PrefixLength $prefix -DefaultGateway $gw -PolicyStore ActiveStore -ErrorAction Stop | Out-Null";
   "";
   "Get-NetRoute -InterfaceAlias $alias -AddressFamily IPv4 -DestinationPrefix '0.0.0.0/0' -ErrorAction SilentlyContinue | Remove-NetRoute -Confirm:$false -ErrorAction SilentlyContinue";
   ""].
Definition cleanupTunInterface_script (alias ip gw : string) : string :=
  unlines ["";
   "$ErrorActionPreference='SilentlyContinue'";
   "$alias = " ++ psQuote alias;
   "$ip = " ++ psQuote ip;
   "$gw = " ++ psQuote gw;
   "";
   "Get-NetRoute -InterfaceAlias $alias -AddressFamily IPv4 -DestinationPrefix '0.0.0.0/0' -NextHop $gw | Remove-NetRoute -Confirm:$false -ErrorAction SilentlyContinue";
   "Get-NetIPAddress -InterfaceAlias $alias -AddressFamily IPv4 -IPAddress $ip | Remove-NetIPAddress -Confirm:$false -ErrorAction SilentlyContinue";
   ""].
Definition addSplitRoutes_script (alias gw : string) : string :=
  unlines ["";
   "$ErrorActionPreference='Stop'";
   "$alias = " ++ psQuote alias;
   "$gw = " ++ psQuote gw;
   "$prefixes = @('0.0.0.0/1','128.0.0.0/1')";
   "foreach ($p in $prefixes) {";
   "  Get-NetRoute -DestinationPrefix $p -InterfaceAlias $alias -NextHop $gw -ErrorAction SilentlyContinue | Remove-NetRoute -Confirm:$false -ErrorAction SilentlyContinue";
   "  New-NetRoute -DestinationPrefix $p -InterfaceAlias $alias -NextHop $gw -RouteMetric 5 -PolicyStore ActiveStore -ErrorAction Stop | Out-Null";
   "}";
   ""].
Definition removeSplitRoutes_script (alias gw : string) : string :=
  unlines ["";
   "$ErrorActionPreference='SilentlyContinue'";
   "$alias = " ++ psQuote alias;
   "$gw = " ++ psQuote gw;
   "Get-NetRoute -DestinationPrefix '0.0.0.0/1' -InterfaceAlias $alias -NextHop $gw | Remove-NetRoute -Confirm:$false -ErrorAction SilentlyContinue";
   "Get-NetRoute -DestinationPrefix '128.0.0.0/1' -InterfaceAlias $alias -NextHop $gw | Remove-NetRoute -Confirm:$false -ErrorAction SilentlyContinue";
   ""].
Definition addBypassRoute_script (gatewayIP : string) (route : routeInfo) : string :=
  unlines ["";
   "$ErrorActionPreference='Stop'";
   "$prefix = " ++ psQuote (gatewayIP ++ "/32");
   "$idx = " ++ show_int (InterfaceIndex route);
   "$nh = " ++ psQuote (next_hop route);
   "Get-NetRoute -DestinationPrefix $prefix -InterfaceIndex $idx -ErrorAction SilentlyContinue | Remove-NetRoute -Confirm:$false -ErrorAction SilentlyContinue";
   "New-NetRoute -DestinationPrefix $prefix -InterfaceIndex $idx -NextHop $nh -RouteMetric 1 -PolicyStore ActiveStore -ErrorAction Stop | Out-Null";
   ""].
Definition removeBypassRoute_script (gatewayIP : string) (route : routeInfo) : string :=
  unlines ["";
   "$ErrorActionPreference='SilentlyContinue'";
   "$prefix = " ++ psQuote (gatewayIP ++ "/32");
   "$idx = " ++ show_int (InterfaceIndex route);
   "$nh = " ++ psQuote (next_hop route);
   "Get-NetRoute -DestinationPrefix $prefix -InterfaceIndex $idx -NextHop $nh -ErrorAction SilentlyContinue | Remove-NetRoute -Confirm:$false -ErrorAction SilentlyContinue";
   ""].
Close Scope string_scope.

Section PowerShell.
  (** The output of a script and the error of the command. *)
  Context (exec : string -> list byte * option goerr).

Definition runPowerShell (script : string) : res (list byte) :=
  match exec script with
  | (out, None) => Ok out
  | (_, Some e) => Err (EWrap "powershell failed" e)
  end.
Definition script_result (script : string) : option goerr := match runPowerShell script with Err e => Some e | _ => None end.

(** The decoder of the JSON that PowerShell prints is an argument. *)
Definition findBestRouteTo (unmarshal : list byte -> res routeInfo) (remoteIP : string) : res routeInfo :=
  raw ← match runPowerShell (find_script remoteIP) with
        | Ok raw => Ok raw
        | _ => runPowerShell default_route_script
        end;
  out ← wrap_err "decode route json" (unmarshal raw);
  if InterfaceIndex out <=? 0 then Err (ENew "invalid route interface index") else Ok out.

Definition configureTunInterface (alias ip : string) (prefix : Z) (gw : string) (mtu : Z) : option goerr := script_result (configureTunInterface_script alias ip prefix gw mtu).
Definition cleanupTunInterface (alias ip gw : string) : option goerr := script_result (cleanupTunInterface_script alias ip gw).
Definition addSplitRoutes (alias gw : string) : option goerr := script_result (addSplitRoutes_script alias gw).
Definition removeSplitRoutes (alias gw : string) : option goerr := script_result (removeSplitRoutes_script alias gw).
Definition addBypassRoute (gatewayIP : string) (route : routeInfo) : option goerr := script_result (addBypassRoute_script gatewayIP route).
Definition removeBypassRoute (gatewayIP : string) (route : routeInfo) : option goerr := script_result (removeBypassRoute_script gatewayIP route).
End PowerShell.

(** ** Privileges *)

Definition tokenElevationTypeDefault : Z := 1.
Definition tokenElevationTypeFull : Z := 2.
Definition tokenElevationTypeLimited : Z := 3.

Record elevationState := mkElev { Elevated : bool; TokenElevated : Z; TokenType : Z }.

(** The results of [OpenProcessToken] and of the two queries; the type is 0 when it cannot be read. *)
Definition queryElevationState (open : option goerr) (elevation elevationType : res Z) : res elevationState :=
  match open with
  | Some e => Err e
  | None =>
      e ← elevation;
      let ty := match elevationType with Ok t => t | _ => 0 end in
      Ok (mkElev (negb (e =? 0) || (ty =? tokenElevationTypeFull)) e ty)
  end.
Definition ensureElevated (open : option goerr) (elevation elevationType : res Z) : option goerr :=
  match queryElevationState open elevation elevationType with
  | Ok st => if negb (Elevated st) then Some (ENew "run process as Administrator (elevated PowerShell)") else None
  | Err e => Some (EWrap "query token elevation" e)
  | Panic _ => None
  end.
Definition elevationTypeName (v : Z) : string :=
  if v =? tokenElevationTypeDefault then "default"
  else if v =? tokenElevationTypeFull then "full"
  else if v =? tokenElevationTypeLimited then "limited"
  else "unknown".

(** ** Addresses *)

(** [parsePort] of the package net: a decimal number, saturating; anything else is a service name. *)
Fixpoint port_digits_loop (l : list byte) (n : Z) : Z * bool :=
  match l with
  | [] => (n, false)
  | d :: l =>
      if negb (is_digit d) then (0, true)
      else if 2 ^ 30 <=? n then (2 ^ 32 - 1, false)
      else let nn := n * 10 + (bz d - 48) in
           if 2 ^ 32 - 1 <? nn then (2 ^ 32 - 1, false) else port_digits_loop l nn
  end.
Definition parsePort (service : list byte) : Z * bool :=
  let go neg l :=
    let '(n, lookup) := port_digits_loop l 0 in
    if lookup : bool then (0, true)
    else
      let port := if negb neg && (2 ^ 30 <=? n) then 2 ^ 30 - 1 else if neg && (2 ^ 30 <? n) then 2 ^ 30 else n in
      (if neg : bool then - port else port, false) in
  match service with
  | [] => (0, false)
  | c :: l => if bool_decide (c = x2b) then go false l else if bool_decide (c = x2d) then go true l else go false service
  end.
(** [net.LookupPort]; the names of services are an argument. *)
Definition LookupPort (services : list byte -> res Z) (service : list byte) : res Z :=
  let '(port, lookup) := parsePort service in
  port ← (if lookup : bool then services service else Ok port);
  if (port <? 0) || (65535 <? port) then Err (ENew "invalid port") else Ok port.

Definition parseResolver (services : list byte -> res Z) (raw : string) : res (string * Z) :=
  let raw := trim_bytes (bytes_of_string raw) in
  if zlen raw =? 0 then Err (ENew "empty resolver")
  else
    '(host, portRaw) ← match SplitHostPort raw with
                        | Ok hp => Ok hp
                        | Err e => if bool_decide (x3a ∈ raw) then Err e else Ok (raw, [x35; x33])
                        | Panic m => Panic m
                        end;
    port ← LookupPort services portRaw;
    if zlen host =? 0 then Err (ENew "resolver host is empty") else Ok (string_of_bytes host, port).

Section Start.
  Context (parse6 : list byte -> option (list byte)).

(** [resolveGatewayIPv4]; [lookup] is the resolver, asked for IPv4 addresses. *)
Definition resolveGatewayIPv4 (host : string) (lookup : string -> res (list (list byte))) : res string :=
  match ParseIP parse6 host with
  | Some ip => match To4 ip with Some ip4 => Ok (ip_text ip4) | None => Err (ENew "host is not an IPv4 address") end
  | None =>
      addrs ← lookup host;
      match omap To4 addrs with
      | ip4 :: _ => Ok (ip_text ip4)
      | [] => Err (ENew "no IPv4 address found")
      end
  end.

(** ** Start-up *)

Record tunFlags := mkTunFlags {
  tf_tunIP : string; tf_prefix : Z; tf_tunGateway : string; tf_mtu : Z; tf_server : string; tf_port : Z; tf_portUDP : Z; tf_portTCP : Z;
  tf_relayBase : string; tf_connectTimeout : Z; tf_udpIdle : Z; tf_dnsResolver : string; tf_dnsOverride : bool; tf_mode : string; tf_stats : string;
  tf_preferQUIC : bool; tf_disableQUIC : bool; tf_disableTCP : bool; tf_allowRelay : bool; tf_forceIPv4 : bool; tf_clientID : string; tf_secret : string; tf_debug : bool }.

(** What [main] asks the system for before it changes anything. *)
Record tunEnv := mkTunEnv {
  te_services : list byte -> res Z; te_lookup : string -> res (list (list byte)); te_elevated : option goerr; te_exec : string -> list byte * option goerr;
  te_unmarshal : list byte -> res routeInfo }.

Record tunSetup := mkSetup { su_cfg : ClientConfig; su_mode : clientMode; su_gatewayIP : string; su_route : routeInfo; su_connectTimeout : Z; su_udp : udpOptions }.

(** [log.Fatalf] when a condition holds. *)
Definition fatal_if (b : bool) (msg : string) : res unit := if b then Err (ENew msg) else Ok tt.
Definition fatal_on (e : option goerr) : res unit := match e with Some e => Err e | None => Ok tt end.

(** [main] up to the creation of the controller; an error ends the program. *)
Definition tun_main_setup (base : ClientConfig) (fl : tunFlags) (env : tunEnv) : res tunSetup :=
  mode ← parseMode (tf_mode fl);
  _ ← parseStatsFormat (tf_stats fl);
  _ ← fatal_if ((tf_port fl <? 0) || (65535 <? tf_port fl)) "invalid --port";
  _ ← fatal_if ((tf_portUDP fl <=? 0) || (65535 <? tf_portUDP fl)) "invalid --port-udp";
  _ ← fatal_if ((tf_portTCP fl <=? 0) || (65535 <? tf_portTCP fl)) "invalid --port-tcp";
  let connectTimeout := if tf_connectTimeout fl <=? 0 then 10 * Second else tf_connectTimeout fl in
  let udpIdle := if tf_udpIdle fl <=? 0 then 60 * Second else tf_udpIdle fl in
  _ ← fatal_if (negb (bool_decide (is_Some (ParseIP parse6 (tf_tunIP fl))))) "invalid --tun-ip";
  _ ← fatal_if (negb (bool_decide (is_Some (ParseIP parse6 (tf_tunGateway fl))))) "invalid --tun-gw";
  _ ← fatal_if ((tf_prefix fl <=? 0) || (32 <? tf_prefix fl)) "invalid --tun-prefix";
  _ ← fatal_if ((tf_mtu fl <? 1200) || (9000 <? tf_mtu fl)) "invalid --mtu";
  '(dnsHost, dnsPort) ← parseResolver (te_services env) (tf_dnsResolver fl);
  _ ← fatal_on (te_elevated env);
  let host := tf_server fl in
  let '(udp, tcp) := if 0 <? tf_port fl then (tf_port fl, tf_port fl) else (tf_portUDP fl, tf_portTCP fl) in
  let clientID := if String.eqb (tf_clientID fl) "" then cc_ClientID base else tf_clientID fl in
  secret ← (if String.eqb (tf_secret fl) "" then Ok (cc_Secret base) else wrap_err "parse --secret" (ParseSecretString (tf_secret fl)));
  gatewayIP ← wrap_err "resolve gateway host" (resolveGatewayIPv4 host (te_lookup env));
  let rb := TrimSpace (tf_relayBase fl) in
  let relay := if String.eqb rb "" then defaultRelayBase gatewayIP else rb in
  route ← wrap_err "find route to gateway ip" (findBestRouteTo (te_exec env) (te_unmarshal env) gatewayIP);
  let route := mkRoute (InterfaceIndex route) (next_hop route) in
  let cfg := mkClientConfig host gatewayIP udp tcp relay clientID secret (ProtoID base) (ProtoIDs base) (PinSPKI base) host (cc_MaxDgramPayload base)
               (QUICTimeout base) (TCPTimeout base) (tf_preferQUIC fl) (tf_disableQUIC fl) (tf_disableTCP fl) (tf_allowRelay fl) (tf_forceIPv4 fl) (tf_debug fl) in
  Ok (mkSetup cfg mode gatewayIP route connectTimeout (mkUO dnsHost dnsPort (tf_dnsOverride fl) udpIdle)).
End Start.

(** ** What the program installs in the system *)

Inductive resource := RDevice | RInterface | RBypassRoute | RSplitRoutes | REndpoint.
#[global] Instance resource_eq_dec : EqDecision resource.
Proof. solve_decision. Defined.

(** The resources that are installed, latest first, and the functions on the clean-up stack. *)
Record installation := mkInst { in_system : list resource; in_cleanup : list (@cleanupFn (list resource)) }.

(** Removing a resource; the errors of the scripts are ignored, so that one may stay ([removed]
    says which removals work). *)
Definition remove_resource (removed : resource -> bool) (r : resource) : @cleanupFn (list resource) :=
  fun sys => (if removed r then List.filter (fun x => negb (bool_decide (x = r))) sys else sys, false).

(** A step of the start: on success the resource is there and its removal on the stack; on failure
    [log.Fatalf] ends the process at once, without the deferred functions. *)
Definition install (removed : resource -> bool) (r : resource) (ok : bool) (inst : installation) : installation + list resource :=
  if ok then inl (mkInst (r :: in_system inst) (cleanup_Add (in_cleanup inst) (remove_resource removed r))) else inr (in_system inst).

(** Which of the calls work. *)
Record startResults := mkStart { sr_device : bool; sr_name : bool; sr_interface : bool; sr_bypass : bool; sr_split : bool; sr_endpoint : bool; sr_netstack : bool }.

Definition and_then {A B C} (x : A + B) (f : A -> C + B) : C + B := match x with inl a => f a | inr b => inr b end.

Definition tun_main_install (removed : resource -> bool) (ok : startResults) : installation + list resource :=
  and_then (install removed RDevice (sr_device ok) (mkInst [] [])) (fun inst =>
  and_then (if sr_name ok then inl inst else inr (in_system inst)) (fun inst =>
  and_then (install removed RInterface (sr_interface ok) inst) (fun inst =>
  and_then (install removed RBypassRoute (sr_bypass ok) inst) (fun inst =>
  and_then (install removed RSplitRoutes (sr_split ok) inst) (fun inst =>
  and_then (install removed REndpoint (sr_endpoint ok) inst) (fun inst =>
  if sr_netstack ok then inl inst else inr (in_system inst))))))).

(** [main] from there: it runs until the signal and its deferred functions run the clean-up stack.
    What is installed when the process ends, and whether it ended with an error. *)
Definition tun_main_end (removed : resource -> bool) (ok : startResults) : list resource * bool :=
  match tun_main_install removed ok with
  | inl inst => (cleanup_Run (in_cleanup inst) (in_system inst), false)
  | inr sys => (sys, true)
  end.

(** ** Packets between the device and the network stack *)

(** [rSizes[0]]; the other fields are buffers that are set before they are used. *)
Record tunReadWriter := mkTRW { rSize : Z }.
Definition newTunReadWriter : tunReadWriter := mkTRW 0.
(** The device fills in the size of a packet, when it delivers one. *)
Definition tun_Read (t : tunReadWriter) (dev : res (option Z)) : tunReadWriter * res Z :=
  match dev with
  | Err e => (t, Err e)
  | Panic m => (t, Panic m)
  | Ok size => let t := mkTRW (default (rSize t) size) in (t, Ok (rSize t))
  end.
Definition tun_Write (p : list byte) (dev : option goerr) : Z * option goerr := match dev with Some e => (0, Some e) | None => (zlen p, None) end.

(** The size of packets: what the device says, or the flag. *)
Definition tun_mtu (dev : res Z) (mtu : Z) : Z := match dev with Ok m => if m <=? 0 then mtu else m | _ => mtu end.

Record Endpoint := mkEndpoint { ep_mtu : Z; ep_offset : Z }.
(** [New]; [rw] says that the reader is not nil. *)
Definition Endpoint_New (rw : bool) (mtu offset : Z) : res Endpoint :=
  if negb rw then Err (ENew "rw is nil")
  else if mtu =? 0 then Err (ENew "mtu must be non-zero")
  else if offset <? 0 then Err (ENew "offset must be non-negative")
  else Ok (mkEndpoint mtu offset).

Inductive dispatch := DStop | DSkip | DInject4 (pkt : list byte) | DInject6 (pkt : list byte).
Definition IPVersion (b : list byte) : Z := match b with [] => -1 | c :: _ => Z.shiftr (bz c) 4 end.

(** One turn of [dispatchLoop]: [buf] is the buffer after the read, of [offset + mtu] bytes. *)
Definition dispatchLoop_turn (e : Endpoint) (buf : list byte) (n : Z) (err : option goerr) (attached : bool) : res dispatch :=
  match err with
  | Some _ => Ok DStop
  | None =>
      if (n <=? 0) || (ep_mtu e <? n) then Ok DSkip
      else if negb attached then Ok DSkip
      else
        pkt ← slice buf (ep_offset e) (ep_offset e + n);
        rest ← slice buf (ep_offset e) (zlen buf);
        let v := IPVersion rest in
        Ok (if v =? 4 then DInject4 pkt else if v =? 6 then DInject6 pkt else DSkip)
  end.
(** [writePacket]: what is written to the device. *)
Definition writePacket (e : Endpoint) (pkt : list byte) : list byte := replicate (Z.to_nat (ep_offset e)) x00 ++ pkt.
(** [outboundLoop]: the packets that the network stack sends, until the context is done. *)
Definition outboundLoop (e : Endpoint) (pkts : list (list byte)) : list (list byte) := map (writePacket e) pkts.
(** [dispatchLoop] on the packets that the device delivers: what is injected into the stack. *)
Fixpoint dispatchLoop (e : Endpoint) (reads : list (list byte * Z * option goerr * bool)) : res (list dispatch) :=
  match reads with
  | [] => Ok []
  | (buf, n, err, attached) :: reads =>
      d ← dispatchLoop_turn e buf n err attached;
      match d with
      | DStop => Ok []
      | d => ds ← dispatchLoop e reads; Ok (d :: ds)
      end
  end.

(** ** The clean-up stack runs everything, last first *)

(** Every function runs exactly once, in the reverse of the order in which it was added, whether the
    ones before it panic or not. *)
Theorem cleanup_runs_all {S} (fns : list (@cleanupFn S)) fn (s : S) (log : S -> list Z) :
  cleanup_Run [] s = s
  /\ cleanup_Run (cleanup_Add fns fn) s = cleanup_Run fns (fn s).1
  /\ (forall ids, Forall2 (fun f i => forall s, log (f s).1 = log s ++ [i]) fns ids -> log (cleanup_Run fns s) = log s ++ rev ids).
Proof.
  split_and!; [done|unfold cleanup_Run, cleanup_Add; by rewrite rev_app_distr|]. revert s. induction fns as [|f fns IH] using rev_ind; intros s ids Hf.
  - inversion Hf; subst. by rewrite app_nil_r.
  - apply Forall2_app_inv_l in Hf as (ids1 & ids2 & H1 & H2 & ->). inversion H2 as [|? i ? ? Hi H3]; subst. inversion H3; subst.
    unfold cleanup_Run. rewrite rev_app_distr. cbn [rev app foldl]. change (foldl safeCall (safeCall s f) (rev fns)) with (cleanup_Run fns (safeCall s f)).
    rewrite (IH _ _ H1). unfold safeCall. rewrite Hi, rev_app_distr. by rewrite <- app_assoc.
Qed.

(** A run that reaches the signal leaves nothing behind, provided the removals work; a start that
    fails leaves everything it had installed so far: the clean-up functions are on the stack, but
    [log.Fatalf] ends the process without running them. *)
Theorem failed_start_leaves_routes removed ok :
  (forall r, removed r = true) ->
  (sr_device ok && sr_name ok && sr_interface ok && sr_bypass ok && sr_split ok && sr_endpoint ok && sr_netstack ok = true -> tun_main_end removed ok = ([], false))
  /\ (sr_device ok && sr_name ok && sr_interface ok && sr_bypass ok = true -> sr_split ok && sr_endpoint ok && sr_netstack ok = false ->
      RBypassRoute ∈ (tun_main_end removed ok).1 /\ RInterface ∈ (tun_main_end removed ok).1 /\ (tun_main_end removed ok).2 = true).
Proof.
  intros Hr. unfold tun_main_end, tun_main_install, install. destruct ok as [d n i b s e k]. cbn. split.
  - destruct d, n, i, b, s, e, k; try done. intros _. cbn. unfold cleanup_Run, safeCall, remove_resource. cbn. by rewrite !Hr.
  - destruct d, n, i, b; try done. intros _. destruct s, e, k; try done; intros _; cbn; split_and!; try done; set_solver.
Qed.

(** ** Quoting

    A single-quoted string literal, from the grammar of the PowerShell language specification: it
    ends at the first single quote that is not followed by another one, and besides the ASCII
    quote the characters U+2018 to U+201B are single quotes. *)
Definition single_quotes : list (list byte) := [[x27]; [xe2; x80; x98]; [xe2; x80; x99]; [xe2; x80; x9a]; [xe2; x80; x9b]].
Fixpoint ps_body (fuel : nat) (l : list byte) : option (list byte * list byte) :=
  match fuel with
  | O => None
  | S fuel =>
      match strip_any single_quotes l with
      | Some l1 =>
          match strip_any single_quotes l1 with
          | Some l2 => '(s, r) ← ps_body fuel l2; Some (take (length l1 - length l2) l1 ++ s, r)
          | None => Some ([], l1)
          end
      | None =>
          match l with
          | [] => None
          | b :: l => '(s, r) ← ps_body fuel l; Some (b :: s, r)
          end
      end
  end.
(** The value of the literal at the start of a text, and the text after it. *)
Definition ps_literal (l : list byte) : option (list byte * list byte) :=
  l ← strip_any single_quotes l; ps_body (length l) l.

Lemma strip_plain b l : b <> x27 -> b <> xe2 -> strip_any single_quotes (b :: l) = None.
Proof.
  intros H1 H2. cbn. destruct (decide (b = x27)), (decide (b = xe2)); try done.
  rewrite !bool_decide_eq_false_2 by congruence. done.
Qed.
Lemma strip_quote l : strip_any single_quotes (x27 :: l) = Some l.
Proof. done. Qed.

(** Quoted text without the other quotes is read as it was. *)
Lemma ps_body_quoted l : forall fuel rest, avoids xe2 l ->
  ps_body (length l + fuel) (replace_byte x27 [x27; x27] l ++ rest) = ('(s, r) ← ps_body fuel rest; Some (l ++ s, r)).
Proof.
  induction l as [|b l IH]; intros fuel rest Ha; [cbn; by destruct (ps_body fuel rest) as [[]|]|]. inversion Ha as [|? ? Hb Ha']; subst.
  unfold replace_byte. cbn [map concat]. fold (replace_byte x27 [x27; x27] l). cbn [length Nat.add ps_body].
  destruct (decide (b = x27)) as [->|Hn].
  - rewrite bool_decide_eq_true_2 by done. cbn [app]. rewrite !strip_quote, IH by done. destruct (ps_body fuel rest) as [[s r]|]; [|done]. cbn [mbind option_bind].
    by replace (length (x27 :: replace_byte x27 [x27; x27] l ++ rest) - length (replace_byte x27 [x27; x27] l ++ rest))%nat with 1%nat by (cbn; lia).
  - rewrite bool_decide_eq_false_2 by done. cbn [app]. rewrite strip_plain, IH by done. by destruct (ps_body fuel rest) as [[s r]|].
Qed.
Lemma replace_length l : (length l <= length (replace_byte x27 [x27; x27] l))%nat.
Proof. induction l as [|b l IH]; [done|]. unfold replace_byte in *. cbn [map concat]. rewrite length_app. case_bool_decide; cbn; lia. Qed.
Lemma replace_app l k : replace_byte x27 [x27; x27] (l ++ k) = replace_byte x27 [x27; x27] l ++ replace_byte x27 [x27; x27] k.
Proof. unfold replace_byte. by rewrite map_app, concat_app. Qed.

(** The start of a quoted text up to a quote, whatever follows. *)
Lemma ps_literal_prefix l q rest k : avoids xe2 l -> strip_any single_quotes q = Some rest -> strip_any single_quotes rest = None -> k = length q -> (0 < k)%nat ->
  ps_literal (x27 :: replace_byte x27 [x27; x27] l ++ q) = Some (l, rest).
Proof.
  intros Ha Hq Hr Hk Hpos. unfold ps_literal. rewrite strip_quote. cbn [mbind option_bind]. rewrite length_app. pose proof (replace_length l) as Hl.
  replace (length (replace_byte x27 [x27; x27] l) + length q)%nat with (length l + S (length (replace_byte x27 [x27; x27] l) - length l + length q - 1))%nat by lia.
  rewrite ps_body_quoted by done. cbn [ps_body]. rewrite Hq, Hr. cbn. by rewrite app_nil_r.
Qed.

(** A value between quotes reaches PowerShell as it is: for every text without the other single
    quotes of PowerShell, the literal has that text as its value, and the script goes on where the
    literal ends, whatever the text contains: no value of a flag can end the literal early. *)
Theorem ps_quote_exact s rest :
  avoids xe2 (bytes_of_string s) -> strip_any single_quotes rest = None ->
  ps_literal (bytes_of_string (psQuote s) ++ rest) = Some (bytes_of_string s, rest).
Proof.
  intros Ha Hr. unfold psQuote. rewrite bytes_string_bytes. cbn [app]. rewrite <- app_assoc. eapply ps_literal_prefix; [done|done|done|done|cbn; lia].
Qed.

(** A text with one of the other quotes ends the literal early: what follows the quote in the text
    is read as script. *)
Theorem ps_quote_smart_quote before after :
  avoids xe2 before -> strip_any single_quotes (replace_byte x27 [x27; x27] after ++ [x27]) = None ->
  ps_literal (bytes_of_string (psQuote (string_of_bytes (before ++ [xe2; x80; x99] ++ after)))) = Some (before, replace_byte x27 [x27; x27] after ++ [x27]).
Proof.
  intros Ha Hr. unfold psQuote. rewrite !bytes_string_bytes, !replace_app, <- !app_assoc. change (replace_byte x27 [x27; x27] [xe2; x80; x99]) with [xe2; x80; x99]. eapply ps_literal_prefix; [done|done|done|done|cbn; lia].
Qed.

(** ** The configuration *)

Lemma fatal_if_Ok b msg u : fatal_if b msg = Ok u -> b = false.
Proof. unfold fatal_if. by destruct b. Qed.

Lemma LookupPort_range services l p : LookupPort services l = Ok p -> 0 <= p <= 65535.
Proof.
  unfold LookupPort. destruct (parsePort l) as [p0 b]. intros (p1 & _ & H)%res_bind_Ok. case_in H; [done|]. injection H as <-. apply orb_false_iff in Heqb0 as [E1 E2]. zbool. lia.
Qed.
Lemma To4_length ip a : To4 ip = Some a -> length a = 4%nat.
Proof.
  unfold To4. destruct (decide (length ip = 4%nat)) as [H|H]; [by intros [= <-]|]. case_bool_decide as Hb; [|done]. intros [= <-]. rewrite length_drop. destruct Hb. lia.
Qed.
Lemma resolveGatewayIPv4_v4 parse6 host lookup ip : resolveGatewayIPv4 parse6 host lookup = Ok ip -> exists a, length a = 4%nat /\ ip = ip_text a.
Proof.
  unfold resolveGatewayIPv4. destruct (ParseIP parse6 host) as [x|].
  - destruct (To4 x) as [a|] eqn:E; [|done]. intros [= <-]. exists a. split; [by eapply To4_length|done].
  - intros (addrs & _ & H)%res_bind_Ok. destruct (omap To4 addrs) as [|a l] eqn:E; [done|]. injection H as <-. exists a. split; [|done].
    assert (Hin : a ∈ omap To4 addrs) by (rewrite E; apply elem_of_cons; by left). apply list_elem_of_omap in Hin as (x & _ & Hx). by eapply To4_length.
Qed.

Lemma parseResolver_Ok services raw h p : parseResolver services raw = Ok (h, p) -> h <> ""%string /\ 0 <= p <= 65535.
Proof.
  unfold parseResolver. case_on; [done|]. intros ([host portRaw] & _ & H)%res_bind_Ok. apply res_bind_Ok in H as (port & Hp & H). apply LookupPort_range in Hp.
  destruct (zlen host =? 0) eqn:E; [done|]. injection H as <- <-. split; [|done]. zbool. intros E2. apply E. rewrite <- (bytes_string_bytes host), E2. done.
Qed.
Lemma findBestRouteTo_Ok exec unmarshal ip r : findBestRouteTo exec unmarshal ip = Ok r -> 0 < InterfaceIndex r.
Proof.
  unfold findBestRouteTo. intros (raw & _ & H)%res_bind_Ok. apply res_bind_Ok in H as (out & _ & H). destruct (InterfaceIndex out <=? 0) eqn:E; [done|]. injection H as <-. zbool. lia.
Qed.
Lemma next_hop_nonempty r : next_hop r <> ""%string.
Proof. unfold next_hop. destruct (String.eqb (NextHop r) "") eqn:E; [done|]. by apply String.eqb_neq. Qed.

(** A start that gets past its checks has a sound configuration: the session client dials the IPv4
    address of the gateway, asks TLS for its name, and both ports are real ports; the interface,
    the timeouts and the route are usable; and the resolver has a host, and a port between 0 and
    65535. *)
Theorem tun_setup_sound parse6 base fl env su :
  tun_main_setup parse6 base fl env = Ok su ->
  let cfg := su_cfg su in
  TLSServerName cfg = tf_server fl /\ GatewayHost cfg = tf_server fl
  /\ (exists a, length a = 4%nat /\ GatewayDialHost cfg = ip_text a) /\ su_gatewayIP su = GatewayDialHost cfg
  /\ 0 < GatewayUDP cfg <= 65535 /\ 0 < GatewayTCP cfg <= 65535
  /\ (0 < tf_prefix fl <= 32 /\ 1200 <= tf_mtu fl <= 9000)
  /\ 0 < su_connectTimeout su /\ 0 < IdleTimeout (su_udp su)
  /\ 0 < InterfaceIndex (su_route su) /\ NextHop (su_route su) <> ""%string
  /\ DNSResolverHost (su_udp su) <> ""%string /\ 0 <= DNSResolverPort (su_udp su) <= 65535
  /\ te_elevated env = None.
Proof.
  unfold tun_main_setup. intros H. apply res_bind_Ok in H as (mode & _ & H). apply res_bind_Ok in H as (sf & _ & H).
  apply res_bind_Ok in H as (u1 & P1%fatal_if_Ok & H). apply res_bind_Ok in H as (u2 & P2%fatal_if_Ok & H). apply res_bind_Ok in H as (u3 & P3%fatal_if_Ok & H).
  apply res_bind_Ok in H as (u4 & _ & H). apply res_bind_Ok in H as (u5 & _ & H). apply res_bind_Ok in H as (u6 & P6%fatal_if_Ok & H). apply res_bind_Ok in H as (u7 & P7%fatal_if_Ok & H).
  apply res_bind_Ok in H as ([dnsHost dnsPort] & Pr%parseResolver_Ok & H). apply res_bind_Ok in H as (u8 & Pe & H).
  destruct (if 0 <? tf_port fl then _ else _) as [udp tcp] eqn:Eports. apply res_bind_Ok in H as (secret & _ & H).
  apply res_bind_Ok in H as (gip & Hg%wrap_err_Ok%resolveGatewayIPv4_v4 & H). apply res_bind_Ok in H as (route & Hr%wrap_err_Ok%findBestRouteTo_Ok & H). injection H as <-.
  apply orb_false_iff in P1 as [P1 P1'], P2 as [P2 P2'], P3 as [P3 P3'], P6 as [P6 P6'], P7 as [P7 P7']. zbool. cbn.
  assert (Hports : 0 < udp <= 65535 /\ 0 < tcp <= 65535) by (destruct (0 <? tf_port fl) eqn:E; injection Eports as <- <-; zbool; lia). destruct Hports, Pr.
  assert (Hpos : forall a b, 0 < b -> 0 < (if a <=? 0 then b else a)) by (intros a b Hb; destruct (a <=? 0) eqn:E; zbool; lia).
  split_and!; try done; try lia; try (apply Hpos; unfold Second; lia); [apply next_hop_nonempty|]. unfold fatal_on in Pe. by destruct (te_elevated env).
Qed.

(** ** Packets *)

Lemma slice_in {A} (l : list A) lo hi : 0 <= lo <= hi -> hi <= zlen l -> slice l lo hi = Ok (ztake (hi - lo) (zdrop lo l)).
Proof. intros H1 H2. unfold slice. rewrite (proj2 (Z.leb_le 0 lo)), (proj2 (Z.leb_le lo hi)), (proj2 (Z.leb_le hi _)) by lia. done. Qed.


(** ** Examples and witnesses *)

Definition no_services (s : list byte) : res Z := Err (ENew "unknown port").

Example parseResolver_tests :
  map (parseResolver no_services) ["1.1.1.1:53"; "8.8.8.8"; "dns.google:5353"]
  = [Ok ("1.1.1.1"%string, 53); Ok ("8.8.8.8"%string, 53); Ok ("dns.google"%string, 5353)].
Proof. vm_compute. reflexivity. Qed.
Example parseResolver_empty : parseResolver no_services "" = Err (ENew "empty resolver").
Proof. vm_compute. reflexivity. Qed.
(** A resolver with a colon and no port is accepted, with port 0. *)
Example parseResolver_port_zero : parseResolver no_services "1.1.1.1:" = Ok ("1.1.1.1"%string, 0).
Proof. vm_compute. reflexivity. Qed.
Example elevation_names : map elevationTypeName [2; 3; 999] = ["full"; "limited"; "unknown"]%string.
Proof. vm_compute. reflexivity. Qed.

Lemma ps_quote_exact_witness :
  ps_literal (bytes_of_string (psQuote "it's; Remove-Item") ++ [x0a]) = Some (bytes_of_string "it's; Remove-Item", [x0a]).
Proof. refine (ps_quote_exact "it's; Remove-Item" [x0a] _ eq_refl). apply (bool_decide_unpack _). vm_compute. exact I. Defined.

Lemma ps_quote_smart_quote_witness :
  ps_literal (bytes_of_string (psQuote (string_of_bytes (bytes_of_string "tun" ++ [xe2; x80; x99] ++ bytes_of_string "; Remove-Item x #"))))
  = Some (bytes_of_string "tun", replace_byte x27 [x27; x27] (bytes_of_string "; Remove-Item x #") ++ [x27]).
Proof. refine (ps_quote_smart_quote (bytes_of_string "tun") (bytes_of_string "; Remove-Item x #") _ eq_refl). apply (bool_decide_unpack _). vm_compute. exact I. Defined.

Definition ex_flags : tunFlags :=
  mkTunFlags "198.18.0.2" 15 "198.18.0.1" 1350 "203.0.113.7" 0 443 8443 "" 0 0 "1.1.1.1:53" true "auto" "text" true false false true true "" "" false.
Definition ex_env : tunEnv :=
  mkTunEnv no_services (fun _ => Err (ENew "no resolver")) None (fun _ => ([], None)) (fun _ => Ok (mkRoute 7 "")).
Definition no6s (l : list byte) : option (list byte) := None.
Definition ex_setup : res tunSetup := Eval vm_compute in tun_main_setup no6s example_base ex_flags ex_env.
Definition ex_su : tunSetup := match ex_setup with Ok su => su | _ => mkSetup example_base modeAuto "" (mkRoute 0 "") 0 (mkUO "" 0 false 0) end.
Example ex_su_dial : GatewayDialHost (su_cfg ex_su) = "203.0.113.7"%string /\ NextHop (su_route ex_su) = "0.0.0.0"%string.
Proof. vm_compute. done. Qed.

Lemma tun_setup_sound_witness :
  let cfg := su_cfg ex_su in
  TLSServerName cfg = tf_server ex_flags /\ GatewayHost cfg = tf_server ex_flags
  /\ (exists a, length a = 4%nat /\ GatewayDialHost cfg = ip_text a) /\ su_gatewayIP ex_su = GatewayDialHost cfg
  /\ 0 < GatewayUDP cfg <= 65535 /\ 0 < GatewayTCP cfg <= 65535
  /\ (0 < tf_prefix ex_flags <= 32 /\ 1200 <= tf_mtu ex_flags <= 9000)
  /\ 0 < su_connectTimeout ex_su /\ 0 < IdleTimeout (su_udp ex_su)
  /\ 0 < InterfaceIndex (su_route ex_su) /\ NextHop (su_route ex_su) <> ""%string
  /\ DNSResolverHost (su_udp ex_su) <> ""%string /\ 0 <= DNSResolverPort (su_udp ex_su) <= 65535
  /\ te_elevated ex_env = None.
Proof. refine (tun_setup_sound no6s example_base ex_flags ex_env ex_su _). vm_compute. reflexivity. Defined.

Lemma failed_start_leaves_routes_witness :
  let ok := mkStart true true true true false true true in
  (sr_device ok && sr_name ok && sr_interface ok && sr_bypass ok && sr_split ok && sr_endpoint ok && sr_netstack ok = true -> tun_main_end (fun _ => true) ok = ([], false))
  /\ (sr_device ok && sr_name ok && sr_interface ok && sr_bypass ok = true -> sr_split ok && sr_endpoint ok && sr_netstack ok = false ->
      RBypassRoute ∈ (tun_main_end (fun _ => true) ok).1 /\ RInterface ∈ (tun_main_end (fun _ => true) ok).1 /\ (tun_main_end (fun _ => true) ok).2 = true).
Proof. exact (failed_start_leaves_routes (fun _ => true) (mkStart true true true true false true true) (fun r => eq_refl)). Defined.

