(* ===== verification/Bench.v ===== *)
(** * The benchmark ([cmd/proto_bench/main.go])

    What the benchmark sends, counts and judges. The session client is what its flows return; a
    goroutine is the sequence of its rounds. Numbers are [int] and [float64] as in the code, with
    the floating point of the file SocksPolicy. The report files and the gauges are left out. *)

From Stdlib Require Import Floats.SpecFloat.
From S2P Require Import Prelude Ownership Wire GoString ClientConfig Client SocksPolicy.

Record benchOptions := mkBench {
  bo_Clients : Z; bo_Duration : Z; bo_TCPFlows : Z; bo_TCPTotalMB : Z; bo_TCPChunkBytes : Z; bo_TCPMinMbps : spec_float;
  bo_UDPPPS : Z; bo_UDPPayload : Z; bo_UDPBurst : Z; bo_UDPMaxLoss : spec_float; bo_UDPMaxJitterMS : spec_float;
  bo_PreferQUIC : bool; bo_DisableQUIC : bool; bo_DisableTCP : bool; bo_DisableRelay : bool; bo_ForceUDPBlock : bool }.

(** The configuration that the flags leave. *)
Definition bench_config (cfg : ClientConfig) (o : benchOptions) : ClientConfig :=
  set_transports cfg (QUICTimeout cfg) (bo_PreferQUIC o) (bo_DisableQUIC o || bo_ForceUDPBlock o) (bo_DisableTCP o) (negb (bo_DisableRelay o)).

(** ** Helpers *)

Fixpoint fill_from (i : nat) (n : nat) (seed : Z) : list byte :=
  match n with
  | O => []
  | S n => zb (u8 (seed + Z.land (Z.of_nat i) 15)) :: fill_from (S i) n seed
  end.
Definition fillPattern (n seed : Z) : list byte := fill_from 0 (Z.to_nat n) seed.

Fixpoint bytes_same (a b : list byte) : bool :=
  match a, b with
  | x :: a, y :: b => if negb (bool_decide (x = y)) then false else bytes_same a b
  | _, _ => true
  end.
Definition bytesEqual (a b : list byte) : bool := if negb (zlen a =? zlen b) then false else bytes_same a b.

Definition bench_percentile (values : list spec_float) (p : spec_float) : spec_float :=
  if zlen values =? 0 then float64 0
  else
    let cp := sort_floats values in
    let nth i := nth (Z.to_nat i) cp (float64 0) in
    let rank := f_mul (f_div p (float64 100)) (float64 (zlen cp - 1)) in
    let low := f_int rank in
    let high := if f_ltb (float64 low) rank then low + 1 else low in
    if low =? high then nth low
    else
      let weight := f_sub rank (float64 low) in
      f_add (f_mul (nth low) (f_sub (float64 1) weight)) (f_mul (nth high) weight).

Fixpoint jitter_sum (prev total : spec_float) (l : list spec_float) : spec_float :=
  match l with
  | [] => total
  | x :: l => jitter_sum x (f_add total (SFabs (f_sub x prev))) l
  end.
Definition jitterFromRTT (rtts : list spec_float) : spec_float :=
  match rtts with
  | first :: (_ :: _) as l => f_div (jitter_sum first (float64 0) (tail l)) (float64 (zlen rtts - 1))
  | _ => float64 0
  end.

(** ** TCP throughput *)

(** How the bytes are divided among the flows. *)
Definition flow_target (totalBytes flows idx : Z) : Z :=
  Z.quot totalBytes flows + (if idx <? Z.rem totalBytes flows then 1 else 0).
Definition flow_targets (totalBytes flows : Z) : list Z := map (flow_target totalBytes flows) (seqZ 0 flows).
Definition chunk_size (o : benchOptions) : Z := if bo_TCPChunkBytes o <? 1024 then 1024 else bo_TCPChunkBytes o.

(** One round of a flow: random bytes, the error of the write, what came back. *)
Record round := mkRound { rd_random : res (list byte); rd_write : option goerr; rd_echo : res (list byte) }.

(** The goroutine of a flow: the bytes that were echoed, the number of samples, and the end, [None]
    while it still runs. The chunk is as long as what is left, up to [chunk]. *)
Fixpoint tcp_flow (chunk target sent samples : Z) (rounds : list round) : Z * Z * option (option goerr) :=
  if sent <? target then
    match rounds with
    | [] => (sent, samples, None)
    | r :: rounds =>
        let n := if target - sent <? chunk then target - sent else chunk in
        match rd_random r with
        | Err e => (sent, samples, Some (Some e))
        | Panic _ => (sent, samples, None)
        | Ok payload =>
            match rd_write r, rd_echo r with
            | Some e, _ => (sent, samples, Some (Some e))
            | None, Err e => (sent, samples, Some (Some e))
            | None, Panic _ => (sent, samples, None)
            | None, Ok echo =>
                if negb (bytesEqual (ztake n payload) (ztake n echo)) then (sent, samples, Some (Some (ENew "echo mismatch")))
                else tcp_flow chunk target (sent + n) (samples + 1) rounds
            end
        end
    end
  else (sent, samples, Some None).

Record tcpThroughputResult := mkTCPResult { tr_BytesTotal : Z; tr_Mbps : spec_float; tr_Samples : Z; tr_Pass : bool; tr_Error : option goerr }.

(** The error that is reported is the first in the channel; here the flows end in their order. *)
Definition flow_error (l : list (option (option goerr))) : option goerr := head (omap (fun x => mjoin x) l).
(** [runTCPThroughput] after the flows were opened: the flows and the time that they took. *)
Definition tcp_result (o : benchOptions) (elapsed : Z) (flows : list (Z * Z * option (option goerr))) : tcpThroughputResult :=
  let bytes := foldr (fun f n => f.1.1 + n) 0 flows in
  let mbps := if 0 <? elapsed then f_div (f_div (f_mul (float64 bytes) (float64 8)) (Seconds elapsed)) (float64 1000000) else float64 0 in
  let err := flow_error flows.*2 in
  mkTCPResult bytes mbps (foldr (fun f n => f.1.2 + n) 0 flows)
    (match err with Some _ => false | None => negb (f_ltb mbps (bo_TCPMinMbps o)) end) err.
(** The checks before, and the flows with their rounds; [open] is the error of a flow that could not be opened. *)
Definition runTCPThroughput (o : benchOptions) (dial : option goerr) (open : option goerr) (elapsed : Z) (rounds : list (list round)) : tcpThroughputResult :=
  let failed e := mkTCPResult 0 (float64 0) 0 false (Some e) in
  if bo_TCPFlows o <=? 0 then failed (ENew "tcp-flows must be > 0")
  else if bo_TCPTotalMB o <=? 0 then failed (ENew "tcp-total-mb must be > 0")
  else match dial, open with
  | Some e, _ => failed e
  | None, Some e => failed (EWrap "open tcp flow" e)
  | None, None =>
      let total := bo_TCPTotalMB o * 1024 * 1024 in
      tcp_result o elapsed (zip_with (fun target rs => tcp_flow (chunk_size o) target 0 0 rs) (flow_targets total (bo_TCPFlows o)) rounds)
  end.

(** ** UDP packets per second *)

Definition udp_payload_size (o : benchOptions) : Z := if bo_UDPPayload o <? 16 then 16 else bo_UDPPayload o.
(** A packet: the number, the time, a pattern. *)
Definition udp_packet (size seq now : Z) : list byte := be_put 4 (u32 seq) ++ be_put 8 (u64 now) ++ fillPattern (size - 12) (u8 seq).

(** The receiver: the numbers it has seen and the round-trip times, latest last. *)
Record udpReceiver := mkReceiver { ur_seen : gset Z; ur_rtts : list spec_float }.
Definition recv_packet (r : udpReceiver) (now : Z) (payload : list byte) : udpReceiver :=
  if zlen payload <? 12 then r
  else
    let seq := be_get (ztake 4 payload) in
    let sentNs := int64 (be_get (ztake 8 (zdrop 4 payload))) in
    let rtt := f_div (float64 (Microseconds (now - sentNs))) (float64 1000) in
    if bool_decide (seq ∈ ur_seen r) then r else mkReceiver ({[seq]} ∪ ur_seen r) (ur_rtts r ++ [rtt]).

(** The pacing: ticks per second, and what one tick sends. *)
Definition bench_min (a b : Z) : Z := if a <? b then a else b.
Definition bench_max (a b : Z) : Z := if b <? a then a else b.
Definition burst_of (o : benchOptions) : Z := if bo_UDPBurst o <=? 0 then 1 else bo_UDPBurst o.
Definition ticksPerSecond (o : benchOptions) : Z := bench_min (bench_max (Z.quot (bo_UDPPPS o) (burst_of o)) 20) 250.
Definition tickInterval (o : benchOptions) : Z := let i := Z.quot Second (ticksPerSecond o) in if i <=? 0 then Millisecond else i.
Definition tokensPerTick (o : benchOptions) : spec_float := f_div (float64 (bo_UDPPPS o)) (float64 (ticksPerSecond o)).
Definition pace_tick (o : benchOptions) (tokenBudget : spec_float) : spec_float * Z :=
  let tokenBudget := f_add tokenBudget (tokensPerTick o) in
  let sendNow := f_int tokenBudget in
  if sendNow <=? 0 then (tokenBudget, 0)
  else
    let sendNow := if burst_of o <? sendNow then burst_of o else sendNow in
    (f_sub tokenBudget (float64 sendNow), sendNow).
Fixpoint pace (o : benchOptions) (ticks : nat) (tokenBudget : spec_float) : Z :=
  match ticks with
  | O => 0
  | S n => let '(b, k) := pace_tick o tokenBudget in k + pace o n b
  end.

Record udpPPSResult := mkUDPResult { pr_Sent : Z; pr_Received : Z; pr_LossRatio : spec_float; pr_JitterMS : spec_float; pr_Pass : bool; pr_Error : option goerr }.

(** [runUDPPPS] after the last packet: [recvErr] is what ended the receiver. *)
Definition udp_result (o : benchOptions) (sent : Z) (r : udpReceiver) (recvErr : option goerr) : udpPPSResult :=
  let received := Z.of_nat (size (ur_seen r)) in
  let loss := if 0 <? sent then f_div (float64 (sent - received)) (float64 sent) else float64 0 in
  let jitter := jitterFromRTT (ur_rtts r) in
  let err := match recvErr with Some e => if err_is e ECanceled || err_is e EEOF then None else Some e | None => None end in
  mkUDPResult sent received loss jitter
    (match err with Some _ => false | None => negb (f_ltb (bo_UDPMaxLoss o) loss) && negb (f_ltb (bo_UDPMaxJitterMS o) jitter) end) err.
Definition runUDPPPS (o : benchOptions) (dial open : option goerr) (sent : Z) (arrivals : list (Z * list byte)) (recvErr : option goerr) : udpPPSResult :=
  let failed e := mkUDPResult 0 0 (float64 0) (float64 0) false (Some e) in
  if bo_UDPPPS o <=? 0 then failed (ENew "udp-pps must be > 0")
  else if bo_Duration o <=? 0 then failed (ENew "duration must be > 0")
  else match dial, open with
  | Some e, _ => failed e
  | None, Some e => failed e
  | None, None => udp_result o sent (foldl (fun r a => recv_packet r a.1 a.2) (mkReceiver ∅ []) arrivals) recvErr
  end.

(** ** Concurrency, fallback and soak *)

(** What happens to one client: where it fails, or that it does not; the transport it got. *)
Inductive client_end := CDial | CStage (t : Transport) (stage : string) | COK (t : Transport).
Definition transport_of (e : client_end) : option Transport := match e with CDial => None | CStage t _ | COK t => Some t end.
Definition is_ok (e : client_end) : bool := match e with COK _ => true | _ => false end.
Record concurrencyResult := mkConc { cr_Success : Z; cr_Fail : Z; cr_Breakdown : list (Transport * Z); cr_Errors : list string }.

(** The stages of a client of [runConcurrency], in order: what each call returns. *)
Record clientRun := mkClientRun {
  cl_dial : Transport + goerr; cl_openTCP : option goerr; cl_write : option goerr; cl_read : res (list byte);
  cl_openUDP : option goerr; cl_send : option goerr; cl_recv : res (list byte) }.
Definition tcp_ping : list byte := bytes_of_string "concurrency-tcp-ping".
Definition concurrency_client (o : benchOptions) (idx now : Z) (c : clientRun) : client_end :=
  match cl_dial c with
  | inr _ => CDial
  | inl t =>
      let fail := CStage t in
      match cl_openTCP c, cl_write c, cl_read c with
      | Some _, _, _ => fail "open tcp"
      | None, Some _, _ => fail "tcp write"
      | None, None, Ok echo =>
          if negb (bytesEqual tcp_ping echo) then fail "tcp mismatch"
          else
            let payload := be_put 4 (u32 (idx + 1)) ++ be_put 8 (u64 now) ++ fillPattern (bench_max 16 (bo_UDPPayload o) - 12) (u8 idx) in
            match cl_openUDP c, cl_send c, cl_recv c with
            | Some _, _, _ => fail "open udp"
            | None, Some _, _ => fail "udp send"
            | None, None, Ok got => if negb (bytesEqual got payload) then fail "udp mismatch" else COK t
            | None, None, _ => fail "udp recv"
            end
      | None, None, _ => fail "tcp read"
      end
  end.

(** How often each transport was used. *)
Definition used (ends : list client_end) (t : Transport) : Z := zlen (List.filter (fun e => bool_decide (transport_of e = Some t)) ends).
Definition breakdown (ends : list client_end) : list (Transport * Z) :=
  List.filter (fun p => 0 <? p.2) (map (fun t => (t, used ends t)) [TransportQUIC; TransportTCPSession; TransportRelay]).
Definition error_text (e : client_end) : option string := match e with CDial => Some "dial"%string | CStage _ s => Some s | COK _ => None end.
Definition concurrency_result (ends : list client_end) : concurrencyResult :=
  mkConc (zlen (List.filter is_ok ends)) (zlen (List.filter (fun e => negb (is_ok e)) ends)) (breakdown ends) (ztake 20 (omap error_text ends)).
Definition runConcurrency (o : benchOptions) (now : Z) (clients : list clientRun) : concurrencyResult :=
  if bo_Clients o <=? 0 then mkConc 0 0 [] []
  else concurrency_result (imap (fun i c => concurrency_client o (Z.of_nat i) now c) clients).

(** [runFallback]: every attempt dials and closes. *)
Definition fallback_attempts (o : benchOptions) : Z := bench_max 10 (bo_Clients o).
Record fallbackResult := mkFallback { fr_Success : Z; fr_Fail : Z; fr_Breakdown : list (Transport * Z); fr_Share : list (Transport * spec_float) }.
Definition runFallback (dials : list (Transport + goerr)) : fallbackResult :=
  let ends := map (fun d => match d with inl t => COK t | inr _ => CDial end) dials in
  let success := zlen (List.filter is_ok ends) in
  let bd := breakdown ends in
  mkFallback success (zlen (List.filter (fun e => negb (is_ok e)) ends)) bd
    (map (fun p => (p.1, if success =? 0 then float64 0 else f_div (f_mul (float64 p.2) (float64 100)) (float64 success))) bd).

(** One iteration of [runSoak]: the UDP part counts only when the flow could be opened. *)
Definition soak_iteration (c : clientRun) : bool :=
  match cl_dial c with
  | inr _ => false
  | inl _ =>
      match cl_openTCP c, cl_write c, cl_read c with
      | None, None, Ok _ => match cl_openUDP c, cl_recv c with Some _, _ => true | None, Ok _ => true | None, _ => false end
      | _, _, _ => false
      end
  end.
Record soakResult := mkSoak { sk_Iterations : Z; sk_Success : Z; sk_Fail : Z }.
Definition runSoak (iterations : list clientRun) : soakResult :=
  mkSoak (zlen iterations) (zlen (List.filter soak_iteration iterations)) (zlen (List.filter (fun c => negb (soak_iteration c)) iterations)).

(** ** The verdict *)

Definition statusLane (errText : string) (pass : bool) : string := if String.eqb (TrimSpace errText) "" then (if pass then "PASS" else "FAIL") else "FAIL".
Definition statusFromCounts (fail : Z) : string := if fail =? 0 then "PASS" else "FAIL".
Definition lane_error (lane : string) (err : option goerr) (pass : bool) : list string :=
  match err with Some _ => [lane] | None => if pass then [] else [(lane ++ "_quality")%string] end.
Definition count_error (lane : string) (fail : Z) : list string := if 0 <? fail then [lane] else [].
(** [report.Errors] of [main]; [soak] is there when it was asked for. *)
Definition report_errors (tcp : tcpThroughputResult) (udp : udpPPSResult) (conc : concurrencyResult) (fb : fallbackResult) (soak : option soakResult) : list string :=
  lane_error "tcp_throughput" (tr_Error tcp) (tr_Pass tcp) ++ lane_error "udp_pps" (pr_Error udp) (pr_Pass udp)
  ++ count_error "concurrency" (cr_Fail conc) ++ count_error "fallback" (fr_Fail fb) ++ match soak with Some s => count_error "soak" (sk_Fail s) | None => [] end.

(** ** TCP: every byte is counted, once it came back *)

Lemma bytesEqual_spec a b : bytesEqual a b = true <-> a = b.
Proof.
  unfold bytesEqual, zlen. destruct (Z.eqb_spec (Z.of_nat (length a)) (Z.of_nat (length b))) as [E|E]; cbn; [|split; [done|by intros ->]].
  apply Nat2Z.inj in E. revert b E. induction a as [|x a IH]; intros [|y b] E; cbn in *; try done. case_bool_decide as Hxy; cbn.
  - subst y. rewrite IH by lia. split; [by intros ->|by intros [= ->]].
  - split; [done|]. by intros [= -> ->].
Qed.

Fixpoint zsum (l : list Z) : Z := match l with [] => 0 | x :: l => x + zsum l end.

Lemma zsum_targets total flows (n : nat) :
  0 < flows -> 0 <= total -> Z.of_nat n <= flows ->
  zsum (map (flow_target total flows) (seqZ 0 (Z.of_nat n))) = Z.of_nat n * Z.quot total flows + Z.min (Z.of_nat n) (Z.rem total flows).
Proof.
  intros Hf Ht. pose proof (Z.rem_nonneg total flows ltac:(lia) Ht) as Hr. induction n as [|n IH]; intros Hn; [rewrite Z.min_l, seqZ_nil by lia; cbn [map zsum]; lia|].
  rewrite Nat2Z.inj_succ, <- Z.add_1_r, seqZ_app, map_app by lia. rewrite (seqZ_cons (0 + Z.of_nat n) 1) by lia. rewrite (seqZ_nil _ (Z.pred 1)) by lia.
  assert (Happ : forall l1 l2, zsum (l1 ++ l2) = zsum l1 + zsum l2) by (intros l1; induction l1 as [|x l1 IHl]; intros l2; cbn; rewrite ?IHl; lia).
  rewrite Happ, IH by lia. cbn [map zsum]. unfold flow_target. rewrite Z.mul_add_distr_r.
  set (nq := Z.of_nat n * Z.quot total flows). clearbody nq. destruct (Z.ltb_spec (0 + Z.of_nat n) (Z.rem total flows)); lia.
Qed.
Lemma targets_sum total flows : 0 < flows -> 0 <= total -> zsum (flow_targets total flows) = total.
Proof.
  intros Hf Ht. unfold flow_targets. pose proof (zsum_targets total flows (Z.to_nat flows) Hf Ht) as E. rewrite Z2Nat.id in E by lia. rewrite E by lia.
  pose proof (Z.rem_bound_pos total flows Ht Hf). rewrite Z.min_r by lia. pose proof (Z.quot_rem' total flows). lia.
Qed.
Lemma targets_nonneg total flows : 0 < flows -> 0 <= total -> Forall (fun t => 0 <= t) (flow_targets total flows).
Proof.
  intros Hf Ht. apply Forall_forall. intros t Hin. unfold flow_targets in Hin. apply list_elem_of_In, in_map_iff in Hin as (i & <- & _).
  unfold flow_target. pose proof (Z.quot_pos total flows Ht Hf). case_on; lia.
Qed.

Definition good_round (r : round) : Prop := exists p, rd_random r = Ok p /\ rd_write r = None /\ rd_echo r = Ok p.
(** How many rounds a flow needs. *)
Definition rounds_needed (chunk target : Z) : Z := (target + chunk - 1) / chunk.

Lemma tcp_flow_bound chunk rounds : forall target sent samples, 0 < chunk -> sent <= target ->
  sent <= (tcp_flow chunk target sent samples rounds).1.1 <= target
  /\ ((tcp_flow chunk target sent samples rounds).2 = Some None -> (tcp_flow chunk target sent samples rounds).1.1 = target).
Proof.
  induction rounds as [|r rounds IH]; intros target sent samples Hc Hs; cbn [tcp_flow]; (destruct (Z.ltb_spec sent target); [|cbn; split; [lia|intros _; lia]]).
  - cbn. split; [lia|done].
  - set (n := if target - sent <? chunk then target - sent else chunk). assert (Hn : 0 < n /\ sent + n <= target) by (unfold n; destruct (Z.ltb_spec (target - sent) chunk); lia).
    destruct (rd_random r) as [p|e|m]; [|cbn; split; [lia|done]..]. destruct (rd_write r); [cbn; split; [lia|done]|].
    destruct (rd_echo r) as [q|e|m]; [|cbn; split; [lia|done]..]. destruct (negb _); [cbn; split; [lia|done]|].
    destruct (IH target (sent + n) (samples + 1) Hc ltac:(lia)) as [H1 H2]. split; [lia|done].
Qed.
Lemma tcp_flow_done chunk rounds : forall target sent samples, 0 < chunk -> sent <= target -> Forall good_round rounds ->
  rounds_needed chunk (target - sent) <= zlen rounds -> (tcp_flow chunk target sent samples rounds).2 = Some None.
Proof.
  induction rounds as [|r rounds IH]; intros target sent samples Hc Hs Hg Hl; cbn [tcp_flow]; (destruct (Z.ltb_spec sent target) as [Hlt|]; [|done]).
  - exfalso. unfold rounds_needed, zlen in Hl. cbn in Hl. assert (1 <= (target - sent + chunk - 1) / chunk) by (apply Z.div_le_lower_bound; lia). lia.
  - apply Forall_cons in Hg as [(p & E1 & E2 & E3) Hg]. rewrite E1, E2, E3. rewrite (proj2 (bytesEqual_spec _ _) eq_refl). cbn [negb].
    apply IH; [done| |done|].
    + destruct (Z.ltb_spec (target - sent) chunk); lia.
    + unfold rounds_needed, zlen in *. cbn [length] in Hl. destruct (Z.ltb_spec (target - sent) chunk) as [Hsm|Hbig].
      * replace (target - (sent + (target - sent)) + chunk - 1) with (chunk - 1) by lia. rewrite Z.div_small by lia. lia.
      * replace (target - sent + chunk - 1) with (target - (sent + chunk) + chunk - 1 + 1 * chunk) in Hl by lia. rewrite Z.div_add in Hl by lia. lia.
Qed.

Lemma chunk_pos o : 0 < chunk_size o.
Proof. unfold chunk_size. destruct (Z.ltb_spec (bo_TCPChunkBytes o) 1024); lia. Qed.

Lemma flows_total chunk targets : forall rounds, 0 < chunk -> Forall (fun t => 0 <= t) targets -> length rounds = length targets ->
  let fl := zip_with (fun target rs => tcp_flow chunk target 0 0 rs) targets rounds in
  0 <= foldr (fun f n => f.1.1 + n) 0 fl <= zsum targets
  /\ (Forall (fun f => f.2 = Some None) fl -> foldr (fun f n => f.1.1 + n) 0 fl = zsum targets).
Proof.
  induction targets as [|t targets IH]; intros [|rs rounds] Hc Ht Hl; try done; cbn.
  apply Forall_cons in Ht as [Ht Hts]. destruct (IH rounds Hc Hts ltac:(cbn in Hl; lia)) as [I1 I2]. destruct (tcp_flow_bound chunk rs t 0 0 Hc Ht) as [B1 B2].
  split; [lia|]. intros Hf. apply Forall_cons in Hf as [Hf Hfs]. rewrite (I2 Hfs), (B2 Hf). done.
Qed.
Lemma no_flow_error l : Forall (fun x => x = Some None) l -> flow_error l = None.
Proof. unfold flow_error. induction 1 as [|x l -> _ IH]; [done|]. exact IH. Qed.

(** The throughput test counts what came back: never more than it was to send; and when every round
    brings the bytes back that were written, as many rounds as the sizes ask for are enough for it
    to end without an error with exactly the configured number of bytes counted, divided among the
    flows without a rest. *)
Theorem bench_tcp_complete o elapsed rounds :
  0 < bo_TCPFlows o -> 0 < bo_TCPTotalMB o -> zlen rounds = bo_TCPFlows o ->
  let total := bo_TCPTotalMB o * 1024 * 1024 in
  let r := runTCPThroughput o None None elapsed rounds in
  zsum (flow_targets total (bo_TCPFlows o)) = total /\ 0 <= tr_BytesTotal r <= total
  /\ (Forall (Forall good_round) rounds -> Forall2 (fun t rs => rounds_needed (chunk_size o) t <= zlen rs) (flow_targets total (bo_TCPFlows o)) rounds ->
      tr_Error r = None /\ tr_BytesTotal r = total).
Proof.
  intros Hf Hm Hl. cbn zeta. set (total := bo_TCPTotalMB o * 1024 * 1024). assert (Ht : 0 <= total) by (unfold total; lia).
  pose proof (targets_sum total _ Hf Ht) as Hsum. pose proof (targets_nonneg total _ Hf Ht) as Hpos.
  assert (Hlen : length rounds = length (flow_targets total (bo_TCPFlows o))).
  { unfold flow_targets. rewrite length_map, length_seqZ. unfold zlen in Hl. lia. }
  unfold runTCPThroughput. rewrite (proj2 (Z.leb_gt _ _)) by lia. rewrite (proj2 (Z.leb_gt _ _)) by lia. fold total.
  destruct (flows_total (chunk_size o) _ rounds (chunk_pos o) Hpos Hlen) as [B1 B2]. rewrite Hsum in B1, B2. split_and!; [done|apply B1|apply B1|].
  intros Hg Hn. assert (Hall : Forall (fun f => f.2 = Some None) (zip_with (fun target rs => tcp_flow (chunk_size o) target 0 0 rs) (flow_targets total (bo_TCPFlows o)) rounds)).
  { clear -Hg Hn Hpos. revert Hg Hpos. induction Hn as [|t rs ts rss Hn1 Hn IH]; intros Hg Hpos; cbn; constructor; apply Forall_cons in Hg as [Hg Hgs]; apply Forall_cons in Hpos as [Hp Hps]; [|by apply IH].
    apply tcp_flow_done; [apply chunk_pos|done|done|]. by rewrite Z.sub_0_r. }
  split; [|by apply B2]. cbn. apply no_flow_error. by apply Forall_fmap.
Qed.

(** ** UDP: what the receiver sees *)

Lemma recv_packet_head r now p : 12 <= zlen p -> recv_packet r now p = recv_packet r now (ztake 12 p).
Proof.
  intros Hl. unfold recv_packet. rewrite zlen_ztake by lia. rewrite (proj2 (Z.ltb_ge _ _)) by lia. replace (Z.min 12 (zlen p) <? 12) with false by (symmetry; apply Z.ltb_ge; lia).
  assert (E1 : ztake 4 (ztake 12 p) = ztake 4 p) by (unfold ztake; by rewrite take_take). assert (E2 : ztake 8 (zdrop 4 (ztake 12 p)) = ztake 8 (zdrop 4 p)).
  { unfold ztake, zdrop. change (Z.to_nat 12) with (4 + 8)%nat. change (Z.to_nat 4) with 4%nat. change (Z.to_nat 8) with 8%nat. rewrite <- take_drop_commute. by rewrite take_take. }
  by rewrite E1, E2.
Qed.

Lemma recv_fresh r now seq t size : 12 <= size -> is_u32 seq -> is_int64 t ->
  recv_packet r now (udp_packet size seq t) =
    if bool_decide (seq ∈ ur_seen r) then r else mkReceiver ({[seq]} ∪ ur_seen r) (ur_rtts r ++ [f_div (float64 (Microseconds (now - t))) (float64 1000)]).
Proof.
  intros Hs Hq Ht. unfold udp_packet. set (rest := fillPattern _ _). assert (Hl : zlen (be_put 4 (u32 seq) ++ be_put 8 (u64 t) ++ rest) = 12 + zlen rest) by (rewrite !zlen_app, !zlen_be_put; lia).
  unfold recv_packet. rewrite (proj2 (Z.ltb_ge _ _)) by (rewrite Hl; pose proof (zlen_nonneg rest); lia).
  rewrite (ztake_app_exact (be_put 4 (u32 seq))) by (by rewrite zlen_be_put). rewrite (zdrop_app_exact (be_put 4 (u32 seq))) by (by rewrite zlen_be_put).
  rewrite (ztake_app_exact (be_put 8 (u64 t))) by (by rewrite zlen_be_put). rewrite be_get_put_u64 by apply u64_range.
  assert (E1 : be_get (be_put 4 (u32 seq)) = seq) by (unfold u32; rewrite Z.mod_small by exact Hq; by apply be_get_put_u32).
  assert (E2 : int64 (u64 t) = t).
  { unfold int64, u64. rewrite Zplus_mod_idemp_l, Z.mod_small by (unfold is_int64 in Ht; lia). lia. }
  by rewrite E1, E2.
Qed.

Lemma recv_size arrivals : forall r, let r' := foldl (fun r a => recv_packet r a.1 a.2) r arrivals in
  Z.of_nat (size (ur_seen r)) <= Z.of_nat (size (ur_seen r')) <= Z.of_nat (size (ur_seen r)) + zlen arrivals
  /\ (zlen (ur_rtts r) = Z.of_nat (size (ur_seen r)) -> zlen (ur_rtts r') = Z.of_nat (size (ur_seen r'))).
Proof.
  induction arrivals as [|[now p] arrivals IH]; intros r; cbn zeta; cbn [foldl]; [rewrite zlen_nil; split; [lia|done]|].
  destruct (IH (recv_packet r now p)) as [I1 I2]. cbn zeta in *. cbn [fst snd] in *. rewrite zlen_cons.
  assert (Hstep : recv_packet r now p = r \/ (Z.of_nat (size (ur_seen (recv_packet r now p))) = Z.of_nat (size (ur_seen r)) + 1 /\ zlen (ur_rtts (recv_packet r now p)) = zlen (ur_rtts r) + 1)).
  { unfold recv_packet. case_on; [by left|]. case_bool_decide as Hin; [by left|right]. cbn. rewrite size_union by set_solver. rewrite size_singleton, zlen_app, zlen_cons, zlen_nil. lia. }
  destruct Hstep as [E|[E1 E2]]; [rewrite E in *; split; [lia|done]|]. split; [lia|]. intros Hz. apply I2. lia.
Qed.

(** The receiver reads the number and the time of a packet as they were sent, counts a number once
    however often it arrives, never counts more packets than arrived, and takes one round-trip time
    for each that it counts; but it does not look at the rest of a packet, so that a payload that
    was changed on the way counts as received. *)
Theorem bench_udp_receiver r now seq t size p :
  12 <= size -> is_u32 seq -> is_int64 t ->
  (let r' := recv_packet r now (udp_packet size seq t) in seq ∈ ur_seen r' /\ (forall now', recv_packet r' now' (udp_packet size seq t) = r'))
  /\ (12 <= zlen p -> forall junk, recv_packet r now (ztake 12 p ++ junk) = recv_packet r now p)
  /\ (forall o sent arrivals e, let x := udp_result o sent (foldl (fun r a => recv_packet r a.1 a.2) (mkReceiver ∅ []) arrivals) e in 0 <= pr_Received x <= zlen arrivals).
Proof.
  intros Hs Hq Ht. split_and!.
  - cbn zeta. assert (Hin : seq ∈ ur_seen (recv_packet r now (udp_packet size seq t))).
    { rewrite (recv_fresh r) by done. case_bool_decide; [done|]. cbn. set_solver. }
    split; [done|]. intros now'. rewrite (recv_fresh (recv_packet _ _ _)) by done. by rewrite bool_decide_eq_true_2.
  - intros Hl junk. rewrite (recv_packet_head r now p Hl), recv_packet_head.
    + f_equal. assert (E : zlen (ztake 12 p) = 12) by (rewrite zlen_ztake; lia). rewrite <- E at 1. apply ztake_app_exact.
    + rewrite zlen_app, zlen_ztake by lia. pose proof (zlen_nonneg junk). lia.
  - intros o sent arrivals e. cbn. destruct (recv_size arrivals (mkReceiver ∅ [])) as [B _]. cbn [ur_seen] in B. rewrite size_empty in B. lia.
Qed.

(** ** UDP: the pace *)

Lemma pace_tick_burst o b : 0 <= (pace_tick o b).2 <= burst_of o.
Proof.
  assert (0 < burst_of o) by (unfold burst_of; case_on; lia). unfold pace_tick. destruct (Z.leb_spec (f_int (f_add b (tokensPerTick o))) 0); cbn; [lia|].
  destruct (Z.ltb_spec (burst_of o) (f_int (f_add b (tokensPerTick o)))); lia.
Qed.

(** The sender does not reach a rate over 250 bursts per second: whatever rate is asked for, a second
    has at most 250 ticks and a tick sends at most one burst. *)
Theorem bench_pace_capped o ticks b :
  0 <= pace o ticks b <= Z.of_nat ticks * burst_of o /\ 0 < ticksPerSecond o <= 250 /\ Second <= (ticksPerSecond o + 1) * tickInterval o
  /\ pace o (Z.to_nat (ticksPerSecond o)) b <= 250 * burst_of o.
Proof.
  assert (Hb : 0 < burst_of o) by (unfold burst_of; case_on; lia).
  assert (Hp : forall n b, 0 <= pace o n b <= Z.of_nat n * burst_of o).
  { induction n as [|n IH]; intros b'; cbn [pace]; [lia|]. pose proof (pace_tick_burst o b') as Ht. destruct (pace_tick o b') as [b2 k]. cbn in Ht. specialize (IH b2).
    rewrite Nat2Z.inj_succ, Z.mul_succ_l. lia. }
  assert (Ht : 0 < ticksPerSecond o <= 250).
  { unfold ticksPerSecond, bench_min, bench_max. destruct (Z.ltb_spec 20 (Z.quot (bo_UDPPPS o) (burst_of o))); case_on; zbool; lia. }
  split_and!; try (apply Hp); try lia.
  - unfold tickInterval. destruct (Z.leb_spec (Z.quot Second (ticksPerSecond o)) 0) as [Hz|Hz].
    + exfalso. assert (1 <= Z.quot Second (ticksPerSecond o)); [|lia]. rewrite Z.quot_div_nonneg by (unfold Second; lia). apply Z.div_le_lower_bound; unfold Second; lia.
    + rewrite Z.quot_div_nonneg in * by (unfold Second; lia). pose proof (Z.div_mod Second (ticksPerSecond o) ltac:(lia)). pose proof (Z.mod_pos_bound Second (ticksPerSecond o) ltac:(lia)).
      assert (250 <= Second / ticksPerSecond o) by (apply Z.div_le_lower_bound; unfold Second; lia). nia.
  - etransitivity; [apply Hp|]. rewrite Z2Nat.id by lia. nia.
Qed.

(** ** The verdicts *)

(** A UDP test in which not a single packet could be sent passes: the loss is taken as zero. *)
Theorem bench_udp_silent_pass o :
  0 < bo_UDPPPS o -> 0 < bo_Duration o -> f_ltb (bo_UDPMaxLoss o) (float64 0) = false -> f_ltb (bo_UDPMaxJitterMS o) (float64 0) = false ->
  let r := runUDPPPS o None None 0 [] (Some ECanceled) in
  pr_Sent r = 0 /\ pr_Received r = 0 /\ pr_Pass r = true /\ pr_Error r = None.
Proof.
  intros Hp Hd Hl Hj. cbn zeta. unfold runUDPPPS. rewrite (proj2 (Z.leb_gt _ _)) by lia. rewrite (proj2 (Z.leb_gt _ _)) by lia.
  cbn [foldl]. unfold udp_result. cbn [ur_seen ur_rtts jitterFromRTT]. rewrite size_empty. change (0 <? 0) with false. cbn iota.
  change (err_is ECanceled ECanceled || err_is ECanceled EEOF) with true. cbn [pr_Sent pr_Received pr_Pass pr_Error]. by rewrite Hl, Hj.
Qed.

Lemma filter_split {A} (f : A -> bool) l : zlen (List.filter f l) + zlen (List.filter (fun x => negb (f x)) l) = zlen l.
Proof. induction l as [|x l IH]; [done|]. cbn. destruct (f x); cbn; rewrite ?zlen_cons; lia. Qed.
Lemma used_cons e ends t : used (e :: ends) t = (if bool_decide (transport_of e = Some t) then 1 else 0) + used ends t.
Proof. unfold used. cbn. destruct (bool_decide _); rewrite ?zlen_cons; lia. Qed.
Lemma breakdown_sum ends : zsum (breakdown ends).*2 = zlen (List.filter (fun e => match transport_of e with Some _ => true | None => false end) ends).
Proof.
  assert (H0 : forall l : list (Transport * Z), Forall (fun p => 0 <= p.2) l -> zsum (List.filter (fun p => 0 <? p.2) l).*2 = zsum l.*2).
  { induction 1 as [|[t n] l Hn _ IH]; [done|]. cbn in *. destruct (Z.ltb_spec 0 n); cbn; rewrite IH; lia. }
  unfold breakdown. rewrite H0 by (repeat constructor; cbn; apply zlen_nonneg). cbn. clear H0. induction ends as [|e ends IH]; [done|].
  rewrite !used_cons. cbn [List.filter]. destruct e as [|[] s|[]]; cbn [transport_of]; rewrite ?zlen_cons;
    repeat first [rewrite bool_decide_eq_true_2 by done | rewrite bool_decide_eq_false_2 by done]; lia.
Qed.

(** Every client and every attempt is counted once: as a success or as a failure, and under its
    transport when it got one; at most twenty errors are kept; and the report names no error exactly
    when both lanes pass and nothing failed. *)
Theorem bench_counts o now clients dials iterations tcp udp soak :
  let conc := concurrency_result (imap (fun i c => concurrency_client o (Z.of_nat i) now c) clients) in
  let fb := runFallback dials in
  cr_Success conc + cr_Fail conc = zlen clients /\ zlen (cr_Errors conc) <= 20 /\ cr_Success conc <= zsum (cr_Breakdown conc).*2 <= zlen clients
  /\ fr_Success fb + fr_Fail fb = zlen dials /\ zsum (fr_Breakdown fb).*2 = fr_Success fb
  /\ sk_Success (runSoak iterations) + sk_Fail (runSoak iterations) = sk_Iterations (runSoak iterations)
  /\ (report_errors tcp udp conc fb soak = [] <->
      (tr_Error tcp = None /\ tr_Pass tcp = true) /\ (pr_Error udp = None /\ pr_Pass udp = true) /\ cr_Fail conc = 0 /\ fr_Fail fb = 0
      /\ match soak with Some s => sk_Fail s <= 0 | None => True end).
Proof.
  cbn zeta. set (ends := imap _ clients). assert (El : zlen ends = zlen clients) by (unfold ends, zlen; by rewrite length_imap). split_and!.
  - cbn. rewrite <- El. apply filter_split.
  - cbn. rewrite zlen_ztake by lia. lia.
  - cbn [concurrency_result cr_Success cr_Breakdown]. rewrite breakdown_sum. clear El. induction ends as [|[|t s|t] l IH]; cbn; rewrite ?zlen_cons; lia.
  - cbn [concurrency_result cr_Success cr_Breakdown]. rewrite breakdown_sum, <- El. clear El. induction ends as [|[|t s|t] l IH]; cbn; rewrite ?zlen_cons; lia.
  - cbn. rewrite filter_split. unfold zlen. by rewrite length_map.
  - unfold runFallback. cbn [fr_Breakdown fr_Success]. rewrite breakdown_sum. induction dials as [|[t|e] l IH]; cbn; rewrite ?zlen_cons; lia.
  - apply filter_split.
  - assert (Hl : forall lane e p, lane_error lane e p = [] <-> e = None /\ p = true) by (intros lane [e|] []; cbn; split; naive_solver).
    assert (Hc : forall lane n, count_error lane n = [] <-> n <= 0) by (intros lane n; unfold count_error; destruct (Z.ltb_spec 0 n); split; [done|lia|lia|done]).
    unfold report_errors. rewrite !app_nil, !Hl, !Hc. assert (0 <= cr_Fail (concurrency_result ends)) by (cbn; apply zlen_nonneg).
    assert (0 <= fr_Fail (runFallback dials)) by (cbn; apply zlen_nonneg). destruct soak as [s|]; rewrite ?Hc; intuition lia.
Qed.

(** ** Examples *)

(** The options of the example in README.md: 5000 packets per second in bursts of 10. *)
Definition ex_bench : benchOptions :=
  mkBench 50 (60 * Second) 2 1 (1024 * 1024) (float64 1) 5000 256 10 (f_div (float64 5) (float64 100)) (float64 50) true false false false false.

(** In the first second it sends 2500 packets. *)
Example bench_readme_rate : bo_UDPPPS ex_bench = 5000 /\ ticksPerSecond ex_bench = 250 /\ pace ex_bench 250 (float64 0) = 2500.
Proof. vm_compute. done. Qed.
(** A rate that fits is reached. *)
Example bench_matrix_rate : pace (mkBench 1 (20 * Second) 1 8 0 (float64 1) 1200 256 10 (float64 0) (float64 50) true false false false false) 120 (float64 0) = 1200.
Proof. vm_compute. reflexivity. Qed.

Definition ex_round : round := mkRound (Ok [x01; x02]) None (Ok [x01; x02]).
Lemma bench_tcp_complete_witness : tr_BytesTotal (runTCPThroughput ex_bench None None Second [[ex_round]; [ex_round]]) = 1024 * 1024.
Proof.
  refine (proj2 (proj2 (proj2 (bench_tcp_complete ex_bench Second [[ex_round]; [ex_round]] _ _ _)) _ _)); [reflexivity|reflexivity|reflexivity| |].
  - assert (Hg : good_round ex_round) by (exists [x01; x02]; repeat split). repeat constructor; exact Hg.
  - assert (E : flow_targets (bo_TCPTotalMB ex_bench * 1024 * 1024) (bo_TCPFlows ex_bench) = [524288; 524288]) by (vm_compute; reflexivity). rewrite E.
    repeat constructor; vm_compute; discriminate.
Defined.

Lemma bench_udp_receiver_witness : 7 ∈ ur_seen (recv_packet (mkReceiver ∅ []) 1000 (udp_packet 64 7 500)).
Proof.
  refine (proj1 (proj1 (bench_udp_receiver (mkReceiver ∅ []) 1000 7 500 64 [] _ _ _))); [lia|unfold is_u32; lia|unfold is_int64; lia].
Defined.

Lemma bench_udp_silent_pass_witness : pr_Pass (runUDPPPS ex_bench None None 0 [] (Some ECanceled)) = true.
Proof.
  refine (proj1 (proj2 (proj2 (bench_udp_silent_pass ex_bench _ _ _ _)))); vm_compute; reflexivity.
Defined.
