(* ===== verification/BenchReport.v ===== *)
(** * The benchmark's report ([cmd/proto_bench/main.go])

    What the benchmark reads from the gateway's metrics and what it writes about its results: the
    scraping of the dropped datagrams, the gauges, the summary and the Markdown report. Arguments
    are the number parser, the parser of URLs and the formatting of numbers, times and maps; the
    text format of the metrics is that of the Prometheus library. *)

From Stdlib Require Import Floats.SpecFloat.
From S2P Require Import Prelude Ownership Wire GoString Metrics ClientConfig Client SocksPolicy Smoke Bench.

(** ** Helpers *)

Definition bench_envOr (env : string -> string) (name fallback : string) : string := env_or env name fallback.
Definition bench_envOrInt (env : string -> string) (name : string) (fallback : Z) : Z := env_or_int env name fallback.

(** ** Scraping *)

(** White space of a regular expression, and the characters of a number. *)
Definition re_space (c : byte) : bool := ch 9 c || ch 10 c || ch 12 c || ch 13 c || ch 32 c.
Definition re_number (c : byte) : bool := is_digit c || ch 101 c || ch 69 c || ch 43 c || ch 45 c || ch 46 c.
Definition dropped_name : list byte := bytes_of_string "vlf_dropped_datagrams_total".

(** What [droppedDatagramsRe] captures: the labels, empty without braces, and the number. *)
Definition dropped_match (line : list byte) : option (list byte * list byte) :=
  match strip_prefix dropped_name line with
  | None => None
  | Some rest =>
      let tail_of labels l :=
        match l with
        | c :: _ => if re_space c then
                      let value := drop_while re_space l in
                      if (0 <? zlen value) && forallb re_number value then Some (labels, value) else None
                    else None
        | [] => None
        end in
      match rest with
      | c :: tl =>
          if ch 123 c then match index_byte x7d tl with Some i => tail_of (take i tl) (drop (S i) tl) | None => None end
          else tail_of [] rest
      | [] => None
      end
  end.

(** [strings.Trim] of quotation marks. *)
Definition trim_quotes (l : list byte) : list byte := rev (drop_while (ch 34) (rev (drop_while (ch 34) l))).
Definition label_part (labels : gmap string string) (part : list byte) : gmap string string :=
  let part := trim_bytes part in
  match index_byte x3d part with
  | None => labels
  | Some i =>
      let key := trim_bytes (take i part) in
      let val := trim_quotes (trim_bytes (drop (S i) part)) in
      if bool_decide (key = []) then labels else <[string_of_bytes key := string_of_bytes val]> labels
  end.
Definition parsePromLabels (raw : list byte) : gmap string string :=
  let raw := trim_bytes raw in
  if bool_decide (raw = []) then ∅ else foldl label_part ∅ (split_byte x2c raw).

(** [bufio.Scanner]: the lines without their ends; a line of 64 KiB or more is an error. *)
Definition drop_cr (l : list byte) : list byte := match rev l with c :: tl => if ch 13 c then rev tl else l | [] => [] end.
Definition scan_lines (body : list byte) : list (list byte) * option goerr :=
  let parts := split_byte x0a body in
  let parts := match rev parts with [] :: tl => rev tl | _ => parts end in
  let short := List.filter (fun l => zlen l <? 65536) parts in
  if zlen short =? zlen parts then (map drop_cr parts, None)
  else (map drop_cr (foldr (fun l acc => if zlen l <? 65536 then l :: acc else []) [] parts), Some (ESentinel "bufio.Scanner: token too long")).

Section Scrape.
  Context {V : Type} (ParseFloat : list byte -> option V).

Definition scrape_line (reasons : gmap string V) (raw : list byte) : gmap string V :=
  let line := trim_bytes raw in
  if bool_decide (line = []) || HasPrefix (string_of_bytes line) "#" then reasons
  else match dropped_match line with
  | None => reasons
  | Some (labels, number) =>
      let reason := default "" (parsePromLabels labels !! "reason") in
      let reason := if String.eqb reason "" then "unknown" else reason in
      match ParseFloat number with
      | None => reasons
      | Some v => <[reason := v]> reasons
      end
  end.

(** [u.Path], [u.RawQuery] and [u.Fragment] are replaced; the rest of the URL is kept. *)
Record parsedURL := mkURL { u_prefix : string; u_Path : string; u_RawQuery : string; u_Fragment : string }.
Definition metricsURLFromRelayBase (Parse : string -> res parsedURL) (String_ : parsedURL -> string) (relayBase : string) : res string :=
  let base := TrimSpace relayBase in
  if String.eqb base "" then Err (ENew "empty relay base")
  else u ← Parse base; Ok (String_ (mkURL (u_prefix u) "/metrics" "" "")).

(** [get] is the request with its timeout: the status and the body. *)
Definition scrapeServerUDPDropReasons (Parse : string -> res parsedURL) (String_ : parsedURL -> string) (get : string -> res (Z * list byte)) (relayBase : string) : res (gmap string V) :=
  url ← metricsURLFromRelayBase Parse String_ relayBase;
  '(status, body) ← get url;
  if negb (status =? 200) then Err (ENew "metrics status")
  else
    let '(lines, err) := scan_lines body in
    match err with
    | Some e => Err e
    | None => Ok (foldl scrape_line ∅ lines)
    end.

(** What the library prints for one counter. *)
Definition prom_line (reason number : list byte) : list byte :=
  dropped_name ++ bytes_of_string "{reason=" ++ [x22] ++ reason ++ [x22; x7d; x20] ++ number.
End Scrape.

(** ** The gauges *)

Inductive gauge := GTCPMbps | GTCPP95 | GTCPP99 | GUDPLoss | GUDPJitter | GUDPPPS | GConcSuccess | GConcFail | GHandshakeP95 | GHandshakeP99 | GShare (transport : string).
Definition gauge_name (g : gauge) : string :=
  match g with
  | GTCPMbps => "vlf_bench_tcp_mbps" | GTCPP95 => "vlf_bench_tcp_p95_ms" | GTCPP99 => "vlf_bench_tcp_p99_ms"
  | GUDPLoss => "vlf_bench_udp_loss_percent" | GUDPJitter => "vlf_bench_udp_jitter_ms" | GUDPPPS => "vlf_bench_udp_effective_pps"
  | GConcSuccess => "vlf_bench_concurrency_success" | GConcFail => "vlf_bench_concurrency_fail"
  | GHandshakeP95 => "vlf_bench_handshake_p95_ms" | GHandshakeP99 => "vlf_bench_handshake_p99_ms"
  | GShare _ => "vlf_bench_transport_share_percent"
  end.
(** [maybeStartMetrics]: the address to serve the gauges at, if there is one. *)
Definition maybeStartMetrics (listen : string) : option string := if String.eqb (TrimSpace listen) "" then None else Some (TrimSpace listen).

(** ** The report *)

(** The results with the figures that Bench leaves out. *)
Record benchReport := mkReport {
  rp_Started : Z; rp_Ended : Z; rp_OS : string; rp_Arch : string; rp_Options : benchOptions;
  rp_TCP : tcpThroughputResult; rp_TCPTransport : string; rp_TCPP95 : spec_float; rp_TCPP99 : spec_float; rp_TCPReason : string;
  rp_UDP : udpPPSResult; rp_UDPTransport : string; rp_UDPPPS : spec_float; rp_UDPReason : string;
  rp_Conc : concurrencyResult; rp_HandshakeP95 : spec_float; rp_HandshakeP99 : spec_float;
  rp_Fallback : fallbackResult; rp_FallbackNote : string; rp_Soak : option soakResult; rp_Drops : list (string * spec_float) }.

Definition text_of (e : option goerr) : string := match e with Some e => err_text e | None => "" end.
Definition rp_Errors (r : benchReport) : list string := report_errors (rp_TCP r) (rp_UDP r) (rp_Conc r) (rp_Fallback r) (rp_Soak r).
(** The column of the table. *)
Definition statuses (r : benchReport) : list string :=
  [statusLane (text_of (tr_Error (rp_TCP r))) (tr_Pass (rp_TCP r)); statusLane (text_of (pr_Error (rp_UDP r))) (pr_Pass (rp_UDP r));
   statusFromCounts (cr_Fail (rp_Conc r)); statusFromCounts (fr_Fail (rp_Fallback r))]
  ++ match rp_Soak r with Some s => [statusFromCounts (sk_Fail s)] | None => [] end.

Section Text.
  (** [%.2f], [%.4f], [%v] of a map, the time and the duration. *)
  Context (f2 f4 : spec_float -> string) (show_map : list (string * spec_float) -> string) (rfc3339 duration : Z -> string).
  Context (transport_text : Transport -> string).
  Local Open Scope string_scope.

Definition show_z (n : Z) : string := string_of_bytes (FormatInt n).
Definition show_b (b : bool) : string := if b then "true" else "false".
Definition share_of (r : benchReport) : list (string * spec_float) := map (fun p => (transport_text p.1, p.2)) (fr_Share (rp_Fallback r)).
Definition percent (x : spec_float) : spec_float := f_mul x (float64 100).
Definition newline : string := String (Ascii.ascii_of_nat 10) "".

(** A row of the Markdown table, and a line of the details. *)
Definition row (test transport main status : string) : string := "| " ++ test ++ " | " ++ transport ++ " | " ++ main ++ " | " ++ status ++ " |" ++ newline.
Definition item (text : string) : string := "- " ++ text ++ newline.
Definition code (text : string) : string := "`" ++ text ++ "`".

Definition markdown_head (r : benchReport) : list string :=
  ["# VLF proto_bench report" ++ newline ++ newline; item ("Started: " ++ code (rfc3339 (rp_Started r))); item ("Ended: " ++ code (rfc3339 (rp_Ended r)));
   item ("Host: " ++ code (rp_OS r ++ "/" ++ rp_Arch r)); item ("Clients: " ++ code (show_z (bo_Clients (rp_Options r))));
   item ("Duration: " ++ code (duration (bo_Duration (rp_Options r))))].
Definition markdown_table (r : benchReport) : list string :=
  [newline ++ "## Summary" ++ newline ++ newline; "| Test | Transport | Main | Status |" ++ newline; "|---|---|---:|---|" ++ newline;
   row "TCP throughput" (rp_TCPTransport r) (f2 (tr_Mbps (rp_TCP r)) ++ " Mbps") (statusLane (text_of (tr_Error (rp_TCP r))) (tr_Pass (rp_TCP r)));
   row "UDP PPS" (rp_UDPTransport r) (f2 (rp_UDPPPS r) ++ " pps") (statusLane (text_of (pr_Error (rp_UDP r))) (pr_Pass (rp_UDP r)));
   row "Concurrency" "-" (show_z (cr_Success (rp_Conc r)) ++ "/" ++ show_z (bo_Clients (rp_Options r)) ++ " success") (statusFromCounts (cr_Fail (rp_Conc r)));
   row "Fallback" "-" (show_z (fr_Success (rp_Fallback r)) ++ "/" ++ show_z (fallback_attempts (rp_Options r)) ++ " success") (statusFromCounts (fr_Fail (rp_Fallback r)))]
  ++ match rp_Soak r with
     | Some s => [row "Soak" "-" (show_z (sk_Success s) ++ "/" ++ show_z (sk_Iterations s) ++ " success") (statusFromCounts (sk_Fail s))]
     | None => []
     end.
Definition optional (present : bool) (text : string) : list string := if present then [text] else [].
Definition markdown_details (r : benchReport) : list string :=
  [newline ++ "## Details" ++ newline ++ newline;
   item ("TCP threshold: min " ++ code (f2 (bo_TCPMinMbps (rp_Options r)) ++ " Mbps") ++ ", pass_by_quality=" ++ code (show_b (tr_Pass (rp_TCP r))))]
  ++ optional (negb (String.eqb (rp_TCPReason r) "")) (item ("TCP quality reason: " ++ code (rp_TCPReason r)))
  ++ [item ("UDP thresholds: max_loss=" ++ code (f4 (bo_UDPMaxLoss (rp_Options r))) ++ " (" ++ f2 (percent (bo_UDPMaxLoss (rp_Options r))) ++ "%), max_jitter_ms="
        ++ code (f2 (bo_UDPMaxJitterMS (rp_Options r))) ++ ", pass_by_quality=" ++ code (show_b (pr_Pass (rp_UDP r))))]
  ++ optional (negb (String.eqb (rp_UDPReason r) "")) (item ("UDP quality reason: " ++ code (rp_UDPReason r)))
  ++ [item ("TCP p95/p99 latency: " ++ code (f2 (rp_TCPP95 r) ++ " / " ++ f2 (rp_TCPP99 r) ++ " ms"));
      item ("UDP loss/jitter: " ++ code (f2 (percent (pr_LossRatio (rp_UDP r))) ++ "% / " ++ f2 (pr_JitterMS (rp_UDP r)) ++ " ms"));
      item ("Handshake p95/p99: " ++ code (f2 (rp_HandshakeP95 r) ++ " / " ++ f2 (rp_HandshakeP99 r) ++ " ms"));
      item ("Fallback share: " ++ code (show_map (share_of r)))]
  ++ optional (0 <? zlen (rp_Drops r))%Z (item ("Server UDP drop reasons: " ++ code (show_map (rp_Drops r))))
  ++ optional (negb (String.eqb (rp_FallbackNote r) "")) (item ("Fallback note: " ++ code (rp_FallbackNote r))).
Definition markdown_errors (r : benchReport) : list string :=
  if (0 <? zlen (rp_Errors r))%Z then (newline ++ "## Errors" ++ newline ++ newline) :: map item (rp_Errors r) else [].
(** [writeMarkdown]: the pieces in the order they are written. *)
Definition writeMarkdown (r : benchReport) : list string := markdown_head r ++ markdown_table r ++ markdown_details r ++ markdown_errors r.
End Text.

(** ** Lemmas *)

(** Text that begins and ends with a visible character is not trimmed. *)
Definition visible_ends (l : list byte) : Prop := (exists x tl, l = x :: tl /\ visible x = true) /\ (exists x tl, rev l = x :: tl /\ visible x = true).
Lemma strip_any_head encs x l :
  Forall (fun e => match e with [] => false | h :: _ => negb (visible h) end = true) encs -> visible x = true -> strip_any encs (x :: l) = None.
Proof.
  intros He Hx. induction He as [|e encs He _ IH]; [done|]. cbn [strip_any]. destruct e as [|h e]; [done|]. apply negb_true_iff in He. cbn [strip_prefix].
  rewrite bool_decide_eq_false_2; [exact IH|]. congruence.
Qed.
Lemma trim_bytes_ends l : visible_ends l -> trim_bytes l = l.
Proof.
  intros [(x & tl & E & Hx) (y & tl' & E' & Hy)]. unfold trim_bytes, trim_right, trim_left.
  assert (E1 : trim_loop (length l) space_encodings l = l) by (rewrite E; cbn [length trim_loop]; rewrite strip_any_head by (done || by repeat constructor); done).
  rewrite E1, E'. assert (E2 : trim_loop (length l) (map (@rev byte) space_encodings) (y :: tl') = y :: tl')
    by (destruct (length l); [done|]; cbn [trim_loop]; rewrite strip_any_head by (done || by repeat constructor); done).
  rewrite E2, <- E'. apply rev_involutive.
Qed.
Lemma visible_ends_app x m y : visible x = true -> visible y = true -> visible_ends (x :: m ++ [y]).
Proof. intros Hx Hy. split; [by exists x, (m ++ [y])|]. exists y, (rev (x :: m)). split; [|done]. by rewrite app_comm_cons, rev_app_distr. Qed.

Lemma strip_prefix_app p l : strip_prefix p (p ++ l) = Some l.
Proof. induction p as [|x p IH]; [done|]. cbn. by rewrite bool_decide_eq_true_2. Qed.
Lemma index_byte_app c l r : avoids c l -> index_byte c (l ++ c :: r) = Some (length l).
Proof.
  intros H. induction H as [|x l Hx _ IH]; cbn; [by rewrite bool_decide_eq_true_2|]. by rewrite bool_decide_eq_false_2, IH.
Qed.
Lemma split_byte_avoids c l : avoids c l -> split_byte c l = [l].
Proof. intros H. induction H as [|x l Hx _ IH]; [done|]. cbn. rewrite bool_decide_eq_false_2 by done. by rewrite IH. Qed.
Lemma drop_while_app p a l : forallb p a = true -> match l with [] => true | x :: _ => negb (p x) end = true -> drop_while p (a ++ l) = l.
Proof.
  intros Ha Hl. induction a as [|x a IH]; cbn in *; [by destruct l; [|cbn; destruct (p b)]|]. apply andb_true_iff in Ha as [-> Ha]. by apply IH.
Qed.
(** A quoted text without quotes inside. *)
Lemma trim_quotes_quoted l : avoids x22 l -> trim_quotes ([x22] ++ l ++ [x22]) = l.
Proof.
  intros H. assert (Hd : forall k, avoids x22 k -> drop_while (ch 34) (x22 :: k) = k).
  { intros k Hk. cbn. destruct Hk as [|x k Hx Hk]; [done|]. cbn. destruct (ch 34 x) eqn:E; [|done]. unfold ch in E. zbool. exfalso. apply Hx. apply bz_inj. done. }
  unfold trim_quotes. destruct l as [|x l].
  - done.
  - cbn [app]. assert (E : drop_while (ch 34) (x22 :: x :: l ++ [x22]) = x :: l ++ [x22]).
    { apply Forall_cons in H as [Hx _]. cbn. destruct (ch 34 x) eqn:E; [|done]. unfold ch in E. zbool. exfalso. apply Hx. by apply bz_inj. }
    rewrite E. rewrite app_comm_cons, rev_app_distr. cbn [rev app]. change (rev l ++ [x]) with (rev (x :: l)). rewrite Hd by (by apply Forall_rev). by rewrite rev_involutive.
Qed.

(** ** Theorems *)

(** A reason as the gateway has them, and a number as the library prints it. *)
Definition plain_reason (r : list byte) : Prop := r <> [] /\ avoids x7d r /\ avoids x2c r /\ avoids x22 r.
Definition number_text (n : list byte) : Prop := n <> [] /\ forallb re_number n = true.

Lemma labels_roundtrip r : plain_reason r -> parsePromLabels (bytes_of_string "reason=" ++ [x22] ++ r ++ [x22]) !! "reason" = Some (string_of_bytes r).
Proof.
  intros (Hne & _ & Hc & Hq). set (raw := bytes_of_string "reason=" ++ [x22] ++ r ++ [x22]).
  assert (Ht : trim_bytes raw = raw).
  { apply trim_bytes_ends. unfold raw. change (bytes_of_string "reason=" ++ [x22] ++ r ++ [x22]) with (x72 :: (bytes_of_string "eason=" ++ x22 :: r) ++ [x22]). by apply visible_ends_app. }
  unfold parsePromLabels. rewrite Ht. rewrite bool_decide_eq_false_2 by done.
  assert (Hav : avoids x2c raw) by (unfold raw; apply Forall_app; split; [by repeat constructor|]; apply Forall_app; split; [by repeat constructor|]; apply Forall_app; split; [done|by repeat constructor]).
  rewrite split_byte_avoids by done. cbn [foldl]. unfold label_part. rewrite Ht.
  assert (Ei : index_byte x3d raw = Some 6%nat) by reflexivity. rewrite Ei. change (take 6 raw) with (bytes_of_string "reason"). change (drop 7 raw) with ([x22] ++ r ++ [x22]).
  rewrite (trim_bytes_visible (bytes_of_string "reason")) by (by repeat constructor). rewrite trim_bytes_ends by (by apply (visible_ends_app x22 r x22)).
  rewrite trim_quotes_quoted by done. rewrite bool_decide_eq_false_2 by done. by rewrite lookup_insert_eq.
Qed.

Lemma number_visible c : re_number c = true -> visible c = true.
Proof. by destruct c. Qed.
Lemma number_no_space c : re_number c = true -> re_space c = false.
Proof. by destruct c. Qed.

Section ScrapeFacts.
  Context {V : Type} (ParseFloat : list byte -> option V).

(** Scraping gives back the counters of the gateway: the line that the library prints for a reason is
    recognised, with the reason between the quotes and the number after it, whatever was scraped
    before; a line of another metric, a comment or an empty line changes nothing. *)
Theorem scrape_line_roundtrip reasons reason number v :
  plain_reason reason -> number_text number -> ParseFloat number = Some v ->
  scrape_line ParseFloat reasons (prom_line reason number) = <[string_of_bytes reason := v]> reasons.
Proof.
  intros Hr [Hn Hnum] Hv. pose proof Hr as (Hne & Hb & Hc & Hq). unfold scrape_line.
  assert (Hlast : exists m y, number = m ++ [y] /\ re_number y = true).
  { destruct (exists_last Hn) as (m & y & ->). exists m, y. split; [done|]. rewrite forallb_app in Hnum. apply andb_true_iff in Hnum as [_ Hy]. cbn in Hy. by destruct (re_number y). }
  destruct Hlast as (m & y & Em & Hy).
  assert (Ht : trim_bytes (prom_line reason number) = prom_line reason number).
  { apply trim_bytes_ends. rewrite Em. unfold prom_line.
    replace (dropped_name ++ bytes_of_string "{reason=" ++ [x22] ++ reason ++ [x22; x7d; x20] ++ m ++ [y])
      with (x76 :: (bytes_of_string "lf_dropped_datagrams_total" ++ bytes_of_string "{reason=" ++ [x22] ++ reason ++ [x22; x7d; x20] ++ m) ++ [y]) by (rewrite <- !app_assoc; reflexivity).
    apply visible_ends_app; [done|by apply number_visible]. }
  rewrite Ht. rewrite bool_decide_eq_false_2 by done. assert (HasPrefix (string_of_bytes (prom_line reason number)) "#" = false) as -> by (unfold HasPrefix; by rewrite bytes_string_bytes). cbn [orb].
  unfold dropped_match, prom_line. rewrite strip_prefix_app.
  set (inner := bytes_of_string "reason=" ++ [x22] ++ reason ++ [x22]).
  assert (Ein : bytes_of_string "{reason=" ++ [x22] ++ reason ++ [x22; x7d; x20] ++ number = x7b :: inner ++ x7d :: x20 :: number).
  { unfold inner. change (bytes_of_string "{reason=") with (x7b :: bytes_of_string "reason="). rewrite <- !app_assoc. cbn [app]. rewrite <- ?app_assoc. done. }
  assert (Hav : avoids x7d inner) by (unfold inner; apply Forall_app; split; [by repeat constructor|]; apply Forall_app; split; [by repeat constructor|]; apply Forall_app; split; [done|by repeat constructor]).
  rewrite Ein. cbv beta iota zeta. change (ch 123 x7b) with true. cbv iota. rewrite index_byte_app by done.
  assert (Et : take (length inner) (inner ++ x7d :: x20 :: number) = inner) by apply take_app_length.
  assert (Ed : drop (S (length inner)) (inner ++ x7d :: x20 :: number) = x20 :: number).
  { rewrite <- Nat.add_1_r, <- drop_drop, drop_app_length. done. }
  rewrite Et, Ed. change (re_space x20) with true. cbv iota.
  assert (Edw : drop_while re_space (x20 :: number) = number).
  { apply (drop_while_app re_space [x20] number); [done|]. destruct number as [|z number]; [done|]. cbn in Hnum. apply andb_true_iff in Hnum as [Hz _]. by rewrite number_no_space. }
  rewrite Edw, Hnum. rewrite (proj2 (Z.ltb_lt 0 (zlen number))) by (by apply nonempty_pos). cbn [andb].
  unfold inner. rewrite labels_roundtrip by done. cbv [from_option id]. cbv zeta. assert (Hs : String.eqb (string_of_bytes reason) "" = false).
  { apply String.eqb_neq. intros E. apply Hne. apply (f_equal bytes_of_string) in E. by rewrite bytes_string_bytes in E. }
  by rewrite Hs, Hv.
Qed.
End ScrapeFacts.

(** The verdict is told the same way twice: the table shows PASS in every row exactly when the list
    of errors is empty, and the section with the errors is written exactly when some row fails. *)
Theorem report_verdict r :
  (forall e, tr_Error (rp_TCP r) = Some e -> tr_Pass (rp_TCP r) = false) -> (forall e, pr_Error (rp_UDP r) = Some e -> pr_Pass (rp_UDP r) = false) ->
  0 <= cr_Fail (rp_Conc r) -> 0 <= fr_Fail (rp_Fallback r) -> (forall s, rp_Soak r = Some s -> 0 <= sk_Fail s) ->
  (Forall (eq "PASS") (statuses r) <-> rp_Errors r = []) /\ (markdown_errors r = [] <-> Forall (eq "PASS") (statuses r)).
Proof.
  intros Ht Hu Hc Hf Hs.
  assert (Hlane : forall lane err pass, (forall e, err = Some e -> pass = false) -> (statusLane (text_of err) pass = "PASS" <-> lane_error lane err pass = [])).
  { intros lane err pass Hp. unfold statusLane, lane_error. destruct err as [e|]; [rewrite (Hp e eq_refl); cbn; by destruct (String.eqb _ _)|]. cbn. by destruct pass. }
  assert (Hcount : forall lane n, 0 <= n -> (statusFromCounts n = "PASS" <-> count_error lane n = [])).
  { intros lane n Hn. unfold statusFromCounts, count_error. destruct (n =? 0) eqn:E, (0 <? n) eqn:E2; zbool; try done; lia. }
  assert (Hsoak : Forall (eq "PASS") (match rp_Soak r with Some s => [statusFromCounts (sk_Fail s)] | None => [] end) <-> match rp_Soak r with Some s => count_error "soak" (sk_Fail s) | None => [] end = []).
  { destruct (rp_Soak r) as [s|]; [|by split]. rewrite Forall_singleton, <- Hcount by (by apply Hs). split; by intros. }
  assert (Hall : Forall (eq "PASS") (statuses r) <-> rp_Errors r = []).
  { unfold statuses, rp_Errors, report_errors. rewrite !app_nil, <- (Hlane "tcp_throughput"), <- (Hlane "udp_pps"), <- !Hcount, <- Hsoak by done.
    rewrite Forall_app, !Forall_cons. split; [intros [(-> & -> & -> & -> & _) ?]|intros (-> & -> & -> & -> & ?)]; by split_and!. }
  split; [exact Hall|]. rewrite Hall. unfold markdown_errors. destruct (rp_Errors r) as [|e l]; [done|]. rewrite zlen_cons, (proj2 (Z.ltb_lt _ _)) by (pose proof (zlen_nonneg l); lia). by split.
Qed.

(** ** Examples *)

Definition ex_parse (l : list byte) : option Z := match ParseInt l with Ok n => Some n | _ => None end.
Definition ex_metrics_body : list byte :=
  bytes_of_string "# HELP vlf_dropped_datagrams_total Dropped" ++ [x0a] ++ prom_line (bytes_of_string "queue_full") (bytes_of_string "17") ++ [x0d; x0a]
  ++ bytes_of_string "vlf_dropped_datagrams_total 4" ++ [x0a] ++ bytes_of_string "vlf_dropped_datagrams_totals 5" ++ [x0a].
Example scrape_body :
  scrapeServerUDPDropReasons ex_parse (fun b => Ok (mkURL b "" "" "")) (fun u => (u_prefix u ++ u_Path u)%string)
    (fun u => if String.eqb u "http://gw:8080/metrics" then Ok (200, ex_metrics_body) else Err (EExt "refused")) " http://gw:8080 "
  = Ok {[ "queue_full" := 17; "unknown" := 4 ]}.
Proof. vm_compute. reflexivity. Qed.
Lemma scrape_line_roundtrip_witness :
  scrape_line ex_parse ∅ (prom_line (bytes_of_string "queue_full") (bytes_of_string "17")) = {[ "queue_full" := 17 ]}.
Proof.
  apply (scrape_line_roundtrip ex_parse ∅ (bytes_of_string "queue_full") (bytes_of_string "17") 17).
  - split; [discriminate|]. split; [|split]; repeat (constructor; [discriminate|]); constructor.
  - split; [discriminate|reflexivity].
  - vm_compute. reflexivity.
Defined.

Definition ex_report : benchReport :=
  mkReport 0 1 "linux" "amd64" ex_bench (mkTCPResult 8 (float64 9) 2 true None) "quic" (float64 1) (float64 2) "" (mkUDPResult 5 5 (float64 0) (float64 1) true None) "quic"
    (float64 100) "" (mkConc 3 1 [] ["dial"]) (float64 1) (float64 1) (mkFallback 10 0 [] []) "" None [].
Lemma report_verdict_witness : rp_Errors ex_report = ["concurrency"] /\ ~ Forall (eq "PASS") (statuses ex_report).
Proof.
  split; [reflexivity|]. destruct (report_verdict ex_report) as [H _]; [intros e E; discriminate E..|vm_compute; discriminate|vm_compute; discriminate|intros s E; discriminate E|].
  intros Hp. apply H in Hp. discriminate Hp.
Defined.
